(* ===== verification/_CoqProject ===== *)
-Q . S2P
Prelude.v
PyFloat.v
Json.v
Enums.v
Correlation.v
VerificationDomain.v
Catalog.v
RemediationDomain.v
Policy.v
Uuid.v
InvestigationDomain.v
InvestigationRules.v
Store.v
TxLogic.v
Prog.v
Redis.v
Executor.v
ExecutorSafety.v
RemediationLifecycle.v
RemediationService.v
Runner.v
IncidentRepository.v
AlertIdentity.v
IncidentService.v
EvidenceScope.v
EvidenceService.v
RemediationProofs.v
RemediationSafety.v
RunnerSafety.v
RemediationExample.v
RemediationProgress.v
InvestigationService.v
AgentTools.v
AgentModel.v
AgentContext.v
AgentToolset.v
AgentEngine.v
VerificationService.v
VerificationEngine.v
VerificationProofs.v
VerificationSafety.v
VerificationEngineSafety.v
VerificationExample.v
RunnerExample.v
IncidentProofs.v
IncidentSafety.v
IncidentProgress.v
IncidentExample.v
EvidenceSafety.v
ToolSafety.v
InvestigationProofs.v
InvestigationInvariant.v
InvestigationKeeps.v
InvestigationSafety.v
InvestigationProgress.v
AgentTrace.v
AgentHold.v
AgentActs.v
AgentLoop.v
AgentLive.v
AgentClient.v
AgentSafety.v
InvestigationExample.v
AgentExample.v
IncidentWalk.v
Platform.v
AuditTrail.v
EventStreams.v
EventDelivery.v
EventExample.v
ModelConfig.v
Planner.v
Queries.v
QueriesSafety.v
Providers.v
ProvidersSafety.v
Workers.v
WorkersSafety.v
Api.v
PlatformExample.v
