(* ===== verification/Prelude.v ===== *)
(** * The incident triage platform, verified

    A Rocq development of the Python backend under [src/packages], the workers under
    [src/apps/worker] that drive it and the HTTP services under [src/apps/api] and
    [src/apps/evidence].  Alerts open incidents; an investigation agent, a
    language model acting through tools, looks for the root cause on evidence; a catalogued
    remediation is proposed, judged by policy, approved by a person, executed under a lease;
    and a verification watches the service until the incident may be closed.  Everything
    durable lives in one PostgreSQL schema, [incident_core], behind command services; the
    workers are clients of those services and may die at any point.

    ** Parts and files

    Foundations.  [Prelude] (exceptions, results, records updates, strings), [PyFloat]
    (binary64, [repr] and times), [Json] (dynamic values, [repr], [json.dumps]), [Uuid]
    ([uuid.UUID(text)] and its round trip), [Enums].
    [Store] is the database: one record per row type of [incident/db/models.py], the tables
    as finite maps, and [Tx], a transaction that commits or is rolled back; [TxLogic] is
    reasoning about it.  [Prog] is a program that keeps what it wrote before an exception,
    as code outside a transaction does.

    Domain rules, pure functions: [Correlation] ([domain/correlation_engine.py]),
    [AlertIdentity] ([domain/correlation.py], [idempotency.py]), [Catalog]
    ([remediation/catalog.py]), [RemediationDomain], [Policy] ([policy/engine.py]),
    [VerificationDomain], [InvestigationDomain].

    incident-core, the commands: [IncidentRepository], [IncidentService] (alerts and
    evidence references), [InvestigationService], [RemediationService],
    [VerificationService], each command with its guards, row locks, timeline entries and
    outbox events in the order of the code.

    The workers: [Runner] and [Executor] (executing a remediation in the simulator's
    registries over [Redis]), [VerificationEngine], and the agent: [AgentModel] (what goes
    to a model and comes back), [AgentContext] (the context, the transcript), [AgentTools]
    and [AgentToolset] (the tool executor, the toolset), [AgentEngine] (the loop of
    [agents/engine.py], with resuming).  [EvidenceScope] and [EvidenceService] are
    evidence-service.  [Planner] ([remediation/planner.py]) turns an accepted report into a
    proposal, [ModelConfig] ([agents/config.py]) resolves the model an investigation is
    started with, [Providers] ([openai_compatible.py], [claude.py], [openrouter.py],
    [factory.py]) is how it is asked, with [json.loads], and [Workers] is
    what the three workers of [apps/worker] do between two waits.

    Events.  [EventStreams] has the sharded topology ([events/streams.py], [envelope.py])
    and the interface of a server of streams, the relay of the outbox
    ([events/publisher.py], [apps/worker/main.py]) and a round of a consumer group
    ([events/consumer.py], [apps/worker/consumer_main.py]).

    Requests.  [Api] is what comes from outside: alert-ingestion with the Alertmanager
    webhook ([Api.Alerts]), the operators' decisions ([Api.Operators]) and the internal
    surface of evidence-service ([Api.EvidenceApi]), each route with its credentials and
    the status it answers with.  [Queries] ([incident/queries.py]) is what the console reads:
    the list, the detail of an incident with its timeline, the overview and the metrics.

    ** How the parts interact

    A command is a function [instant -> ... -> Tx A]; a worker is a [Prog] over its own
    world beside the database and issues commands through [transact].  Interfaces are
    classes with laws: [EvidenceSource] and [Toolset] (what a worker may assume of its
    evidence and tools), [AgentWorld] (clock and model), [Adapters] (telemetry backends),
    [Redis] and [StreamServer] (the commands of Redis the code issues, with their
    documented effects), [Ledger] (the events a consumer is done with); the
    implementations in the repository are proved to be instances
    ([AgentToolset.investigation_toolset], [AgentLive.live_environment],
    [ProvidersSafety.provider_world], [EventStreams.table_ledger]) and the clients are
    proved against the interface.  A
    command writes its events to the outbox in its own transaction; the relay puts them on
    the streams; a consumer hands them to the handler of its worker.

    ** What is proved

    - Remediation: [RemediationLifecycle] is the abstract lifecycle; [RemediationProofs]
      shows that every command refines it; [RemediationSafety] draws the consequences
      (what is executed was permitted and approved, attempts are bounded),
      [RemediationProgress] the behaviour of each command on each branch, and that history
      is only appended.
    - Verification: [VerificationProofs], [VerificationSafety] (an incident is resolved
      only by a verdict that was earned), [VerificationEngineSafety] (the engine is a client
      of the commands; a source that was not seen never passes).
    - Alerts: [IncidentProofs], [IncidentSafety], [IncidentProgress] (idempotency, the
      correlation index, every notification is answered).
    - Investigations: [InvestigationRules], [InvestigationProofs],
      [InvestigationInvariant] (the invariant [GInv]), [InvestigationKeeps] (every command
      keeps it, and what its steps record), [InvestigationSafety], [InvestigationProgress].
    - Execution: [ExecutorSafety] (only what was authorised; when a retry acts again),
      [RunnerSafety] (what is recorded as executed was applied; a run stops).
    - Evidence: [EvidenceSafety] (what the backends are asked stays within the incident's
      scope, a trace looked up by its id apart, which is judged by what comes back; what was
      returned keeps verifying), [ToolSafety] (the tool budget bounds the
      queries; outcomes are well formed).
    - The agent: [AgentTrace] (the traces an engine can leave, every step of them readable,
      and the transcript built of one), [AgentHold] (what each command does to a held
      investigation, and a program logic for runs that return, stop or die), [AgentActs] and [AgentLoop] (the engine in that logic), [AgentClient] (a run
      only takes steps of incident-core), [AgentLive], [AgentSafety] (every run ends,
      transcripts are paired, an interrupted turn is finished).
    - Events ([EventDelivery]): an event marked published is on the stream of its shard;
      order is kept while the streams accept; an event given to a group is pending, consumed
      or dead-lettered; it is handled once; a round ends.
    - The planner invents nothing ([Planner]): every parameter of a proposal comes from
      evidence the report cites.  A resolved model configuration is read back as it was
      persisted, and a base URL that is accepted is plain ([ModelConfig]).
    - The model providers ([ProvidersSafety]): whatever an endpoint answers, a turn can be
      acted on and sent again; paired transcripts are rendered to messages that keep to the
      protocol of the API; failed requests are classified errors.
    - The platform: [IncidentWalk] and [Platform] interleave all services on one database
      and show that an incident only moves along the documented lifecycle.  [AuditTrail]
      shows that the recorded moves of an incident replay it, and [QueriesSafety] that the
      list and the detail agree with the core and the timeline is in the order of time.
      [WorkersSafety] shows that all the workers do to the database is made of commands of
      the services and of bookkeeping, so that this holds of the running system.
    - The [...Example] files run the definitions on concrete data; they carry the witnesses
      of the theorems with hypotheses, and a few counterexamples to what documents say.

    ** Bounds and fuel

    [IncidentService.race_loop] counts the retries the code bounds itself.  [Runner.run]
    has the loop guard of the code, and [RunnerSafety.ten_claims_suffice] shows it never
    ends a run.  [VerificationEngine.run_until_done] has the [max_ticks] of the
    code.  [AgentEngine.engine_loop] takes fuel; [AgentSafety.enough_fuel]
    is the turns left in the budget and two rounds, and [run_ends_the_investigation] shows
    that a run never runs out of it.  [EventStreams._reclaim_stale] takes the number of
    answers it may ask for; [EventDelivery.rounds_end] shows that one more than there are
    pending entries is enough.  [Providers.sub_all] takes the length of the text, which every
    step shortens; [Providers.json_loads] is structural.  Floats are binary64 ([SpecFloat]) and integers are
    Python's, unbounded; nothing in the modelled code is of machine width.

    ** What is assumed and left out

    - Strings are sequences of bytes; [len], slicing and case folding are those of ASCII.
      PostgreSQL takes the texts it is given (it refuses a NUL character).
      Times are microseconds since the epoch, always aware and UTC, but for the dates an
      alert and a report bring along, whose offset is kept; overflow of [datetime] is
      ignored elsewhere than in the conversion of the start of an alert.  A command reads the clock once.
    - Transactions are serial: row locks and advisory locks give the code what the model
      has by construction.  A worker is interleaved with others between its commands in
      [Platform], not inside one.  It may die at any reading of the clock, and any call to
      the model, to a backend or to Redis may raise.
    - A query without ORDER BY returns rows in key order.  JSON columns hold the document
      that was written.  [uuid4] draws the next identifier of a supply.
    - Hashes ([Hashing], [Digests]), pydantic's parsing of dynamic values and its error
      texts ([Pydantic], [ModelSchemas], [ToolSchemas]), the service topology
      ([ServiceTopology]; the service catalog is data), the HTTP client and the SDK of
      Anthropic ([HttpClient], [AnthropicClient]; that the ids of the calls of one answer
      are distinct is [DocumentedIds]), the telemetry adapters, Redis, the validation of an
      envelope ([EnvelopeSchema]), the ISO 8601 parser and the time zone of the server ([IsoDates]) and whether a bracketed host
      is an address ([bracketed_host_ok]) are parameters: their laws state what the libraries document.
      Accepted values satisfy the field constraints the schemas declare.
    - The runner's deadline is an argument: an execution call either came back in time or
      had, or had not, acted by then.  The monotonic clock is a parameter of the toolset.
    - Logs, metrics, sleeping between attempts and heartbeats have no counterpart; nor has
      the wrapper [make_handler], which only counts.
    - A request reaches its handler parsed and with its field constraints checked.
    - Not modelled: the building of objects from the environment and the
      endless loops of the entry points, the telemetry adapters, the routes of the
      operations console (which hand on what [Queries] answers), the offline evaluation,
      migrations, the simulator services, and scripts. *)
From Stdlib Require Export ZArith Lia DecimalString.
From stdpp Require Export base numbers option list gmap strings.

(** ** Exceptions and results *)

(** [InvestigationStatus] of [packages/domain/investigation.py]; an investigation stops
    with one. *)
Inductive InvestigationStatus :=
| I_CREATED | I_INVESTIGATING | I_COMPLETED | I_FAILED | I_ESCALATED.

(** The Python exceptions the modelled code raises, as data.  Domain errors
    carry the class names of [packages/domain/errors.py]. *)
Inductive exn : Type :=
| ValueError (msg : string)
| TypeError (msg : string)
| AttributeError (msg : string)
| OverflowError (msg : string)
| KeyError (key : string)
| AssertionError (msg : string)
| IntegrityError (constraint : string)
| ValidationError (msg : string)
| InvalidAlertError (msg : string)
| IncidentNotFoundError (msg : string)
| EvidenceRefConflictError (msg : string)
| ConcurrentModificationError (msg : string)
| InvalidIncidentTransitionError (msg : string)
| InvestigationNotFoundError (msg : string)
| LeaseLostError (msg : string)
| RemediationNotFoundError (msg : string)
| RemediationStateError (msg : string)
| ApprovalMismatchError (msg : string)
| ApproverNotAuthorizedError (msg : string)
| InvalidProposalError (msg : string)
| LostIdempotencyRace
| RuntimeError (msg : string)
| ZeroDivisionError (msg : string)
| ExecutionTimeout (msg : string)
| ResponseError (msg : string)
| PermanentProcessingError (msg : string)
| EvidenceError (code msg : string) (retryable : bool)
| ModelError (code msg : string) (retryable : bool)
| ModelConfigError (msg : string)
| HTTPException (status_code : Z) (detail : string)
| Stop (status : InvestigationStatus).

Inductive result (A : Type) : Type :=
| Ok (a : A)
| Err (e : exn).
Arguments Ok {A} a.
Arguments Err {A} e.

Definition rbind {A B} (m : result A) (k : A -> result B) : result B :=
  match m with Ok a => k a | Err e => Err e end.

Declare Scope py_scope.
Delimit Scope py_scope with py.

(** [x <-! m ; k] sequences fallible pure computations. *)
Notation "x '<-!' m ';' k" := (rbind m (fun x => k))
  (at level 100, m at next level, right associativity) : py_scope.

Lemma rbind_Ok {A B} (m : result A) (k : A -> result B) b :
  rbind m k = Ok b <-> exists a, m = Ok a /\ k a = Ok b.
Proof. destruct m; simpl; naive_solver. Qed.

(** ** Strings *)

(** f-strings are written as concatenations of their pieces. *)
Infix "+++" := String.append (at level 60, right associativity) : py_scope.
#[global] Open Scope py_scope.

(** [str(n)] for a Python [int]. *)
Definition str_Z (z : Z) : string := NilZero.string_of_int (Z.to_int z).

(** [sep.join(l)] *)
Fixpoint join (sep : string) (l : list string) : string :=
  match l with
  | [] => ""
  | [s] => s
  | s :: l' => s +++ sep +++ join sep l'
  end.

(** [s[:n]] for a non-negative [n]. *)
Fixpoint take_str (n : nat) (s : string) : string :=
  match n, s with
  | S n', String c s' => String c (take_str n' s')
  | _, _ => EmptyString
  end.

(** Truth of a Python string. *)
Definition nonempty (s : string) : bool :=
  match s with EmptyString => false | _ => true end.

(** [x or None] applied to a string. *)
Definition or_none (s : string) : option string :=
  if nonempty s then Some s else None.

(** [s.startswith(p)] *)
Fixpoint startswith (p s : string) : bool :=
  match p, s with
  | EmptyString, _ => true
  | String a p', String b s' => if decide (a = b) then startswith p' s' else false
  | _, _ => false
  end.

Lemma startswith_app p s : startswith p (p +++ s) = true.
Proof. induction p; simpl; [done|]. by rewrite decide_True. Qed.

Lemma append_cons c (a b : string) : String c a +++ b = String c (a +++ b).
Proof. done. Qed.

Lemma append_length (a b : string) :
  String.length (a +++ b) = (String.length a + String.length b)%nat.
Proof. induction a as [|c a IH]; [done|]. rewrite append_cons. simpl. by rewrite IH. Qed.

Lemma append_assoc (a b c : string) : (a +++ b) +++ c = a +++ b +++ c.
Proof. induction a as [|x a IH]; [done|]. rewrite !append_cons. by rewrite IH. Qed.

Lemma append_nil_r (a : string) : a +++ "" = a.
Proof. induction a as [|c a IH]; [done|]. rewrite !append_cons. by rewrite IH. Qed.

Lemma append_inj_l (a b b' : string) : a +++ b = a +++ b' -> b = b'.
Proof. induction a as [|c a IH]; [done|]. rewrite !append_cons. intros [= H]. auto. Qed.

Lemma append_inj_len (a a' b b' : string) :
  String.length a = String.length a' -> a +++ b = a' +++ b' -> a = a' /\ b = b'.
Proof.
  revert a'. induction a as [|c a IH]; intros [|c' a'] Hl H; try done.
  rewrite !append_cons in H. injection Hl as Hl. injection H as -> H. destruct (IH _ Hl H) as [-> ->]. done.
Qed.

Lemma append_inj_r (a a' b : string) : a +++ b = a' +++ b -> a = a'.
Proof.
  intros H. apply (append_inj_len a a' b b); [|done].
  apply (f_equal String.length) in H. rewrite !append_length in H. lia.
Qed.

Lemma take_str_length n s : String.length (take_str n s) <= n.
Proof. revert s; induction n; intros [|c s]; simpl; try lia. specialize (IHn s); lia. Qed.

Lemma take_str_id n s : String.length s <= n -> take_str n s = s.
Proof.
  revert s; induction n; intros [|c s]; simpl; intros H; try done; try lia.
  f_equal. apply IHn. lia.
Qed.

Lemma nonempty_true s : nonempty s = true <-> s <> "".
Proof. destruct s; simpl; naive_solver. Qed.

(** Boolean equality on any type with decidable equality. *)
Notation "x =? y" := (bool_decide (x = y)) (at level 70, no associativity) : py_scope.

(** ** Identifiers and time

    A UUID is the 128-bit number it is; [uuid4()] draws the next number of a
    supply that is part of the database state ([Store]).  Instants are
    microseconds since the epoch. *)
Abbreviation uuid := N.
Abbreviation instant := Z.
Abbreviation labels_t := (gmap string string).

(** [timedelta(seconds=n)] for an [int]. *)
Definition seconds (n : Z) : Z := (n * 1000000)%Z.

(** ** Record update

    [row <| field := v |>] is Python's [row.field = v] on an immutable record.
    A record type declares how it is rebuilt from its projections once
    ([Rebuild]); the setter of a projection is derived from that. *)
Class Rebuild (R : Type) := rebuild : R -> R.
Class Setter {R T : Type} (proj : R -> T) := set_field : (T -> T) -> R -> R.
Arguments set_field {R T} proj {_} _ _ : assert.

Ltac derive_setter R T proj :=
  let mk := eval unfold rebuild in (rebuild (R := R)) in
  let mk := match mk with
            | ?inst => let i := eval hnf in inst in i
            end in
  let abs := eval pattern proj in mk in
  match abs with
  | ?F _ =>
      let body := constr:(fun (f : T -> T) (r : R) => F (fun r' => f (proj r')) r) in
      let body := eval cbv beta in body in
      exact body
  end.

#[global] Hint Extern 1 (@Setter ?R ?T ?proj) => derive_setter R T proj : typeclass_instances.

Declare Scope row_scope.
#[global] Open Scope row_scope.
Notation "r <| f := v |>" := (set_field f (fun _ => v) r)
  (at level 12, f at next level, left associativity) : row_scope.
Notation "r <| f ::= g |>" := (set_field f g r)
  (at level 12, f at next level, left associativity) : row_scope.
