(* ===== verification/PyFloat.v ===== *)
(** * Python floats

    IEEE 754 binary64 arithmetic as CPython's [float] has it, on the
    Standard Library's executable specification [SpecFloat]: literals,
    [+], [*], comparisons, [min]/[max], truncation, conversion from [int] and
    [repr] (the shortest decimal that reads back as the same number).  The
    correlation scores, the verification thresholds and the time scale of the
    code are floats; their theorems hold for this arithmetic, rounding
    included.  At the end, times as text: [isoformat] and [str(timedelta)], and
    in [IsoOrder] how the order of such texts relates to the order of times. *)
From Stdlib Require Import SpecFloat DecimalPos DecimalString.
From S2P Require Import Prelude.

Local Open Scope Z_scope.

Abbreviation float := spec_float.

#[export] Instance float_eq_dec : EqDecision float.
Proof. solve_decision. Defined.

Definition fadd : float -> float -> float := SFadd 53 1024.
Definition fmul : float -> float -> float := SFmul 53 1024.
Definition fltb : float -> float -> bool := SFltb.
Definition fleb : float -> float -> bool := SFleb.
Definition feqb : float -> float -> bool := SFeqb.

(** [m * 10 ** e], correctly rounded: decimal literals and [float(str)]. *)
Definition of_decimal (s : bool) (m : positive) (e : Z) : float :=
  match e with
  | Zneg p => SFdiv 53 1024 (S754_finite s m 0) (S754_finite false (10 ^ p)%positive 0)
  | _ => binary_normalize 53 1024 (cond_Zopp s (Zpos m * 10 ^ e)) 0 s
  end.

(** The literal [n / 10 ** k], for a non-negative [n]. *)
Definition flit (n : Z) (k : nat) : float :=
  match n with
  | Zpos m => of_decimal false m (- Z.of_nat k)
  | _ => S754_zero false
  end.

(** [float(n)] for an [int]. *)
Definition float_of_int (n : Z) : result float :=
  match binary_normalize 53 1024 n 0 false with
  | S754_infinity _ => Err (OverflowError "int too large to convert to float")
  | x => Ok x
  end.

Definition fzero : float := S754_zero false.
Definition fone : float := flit 1 0.

(** [min(x, y)] and [max(x, y)]: Python keeps the first argument unless the
    second is strictly better. *)
Definition fmin (x y : float) : float := if fltb y x then y else x.
Definition fmax (x y : float) : float := if fltb x y then y else x.

(** Truth of a float: only zeros are false. *)
Definition ftruthy (x : float) : bool :=
  match x with S754_zero _ => false | _ => true end.

(** [int(x)]: truncation; infinities and NaN raise. *)
Definition ftrunc (x : float) : result Z :=
  match x with
  | S754_zero _ => Ok 0
  | S754_finite s m e =>
      Ok (cond_Zopp s (match e with
                       | Zneg p => Z.shiftr (Zpos m) (Zpos p)
                       | _ => Z.shiftl (Zpos m) e
                       end))
  | S754_infinity _ => Err (OverflowError "cannot convert float infinity to integer")
  | S754_nan => Err (ValueError "cannot convert float NaN to integer")
  end.

(** ** [repr] *)

(** [num / den] rounded to the nearest integer, ties to even. *)
Definition round_half_even (num den : Z) : Z :=
  let (q, r) := Z.div_eucl num den in
  match 2 * r ?= den with
  | Lt => q
  | Gt => q + 1
  | Eq => if Z.even q then q else q + 1
  end.

(** [num / den] scaled by [10 ** (- q)], as a fraction. *)
Definition scale10 (num den q : Z) : Z * Z :=
  if q <=? 0 then (num * 10 ^ (- q), den) else (num, den * 10 ^ q).

(** The position of the decimal point: the [k] with
    [10 ** (k - 1) <= num / den < 10 ** k], searched upwards from [k]. *)
Fixpoint decpt (fuel : nat) (num den k : Z) : Z :=
  match fuel with
  | O => k
  | S fuel' =>
      let (a, b) := scale10 num den k in
      if a <? b then k else decpt fuel' num den (k + 1)
  end.

(** The shortest digits [d] and exponent [q] with [d * 10 ** q] reading back
    as [x]; 17 significant digits always do. *)
Fixpoint shortest (tries : nat) (n : Z) (num den k : Z) (s : bool) (x : float) : Z * Z :=
  let q := k - n in
  let (a, b) := scale10 num den q in
  let d := round_half_even a b in
  match tries with
  | O => (d, q)
  | S tries' =>
      if match d with
         | Zpos p => bool_decide (of_decimal s p q = x)
         | _ => false
         end
      then (d, q) else shortest tries' (n + 1) num den k s x
  end.

(** Drop the trailing zeros of a digit string's number. *)
Fixpoint strip10 (fuel : nat) (d q : Z) : Z * Z :=
  match fuel with
  | O => (d, q)
  | S fuel' => if (d mod 10 =? 0) then strip10 fuel' (d / 10) (q + 1) else (d, q)
  end.

Fixpoint zeros (n : nat) : string :=
  match n with O => "" | S n' => "0" +++ zeros n' end.

Fixpoint drop_str (n : nat) (s : string) : string :=
  match n, s with
  | S n', String _ s' => drop_str n' s'
  | _, _ => s
  end.

(** CPython's [repr] layout: fixed notation for [-4 < point <= 16]. *)
Definition layout (digits : string) (point : Z) : string :=
  let len := Z.of_nat (String.length digits) in
  if (-4 <? point) && (point <=? 16) then
    if point <=? 0 then "0." +++ zeros (Z.to_nat (- point)) +++ digits
    else if len <=? point then digits +++ zeros (Z.to_nat (point - len)) +++ ".0"
    else take_str (Z.to_nat point) digits +++ "." +++ drop_str (Z.to_nat point) digits
  else
    let e := point - 1 in
    let rest := drop_str 1 digits in
    let ex := str_Z (Z.abs e) in
    take_str 1 digits +++ (if nonempty rest then "." +++ rest else "")
      +++ "e" +++ (if e <? 0 then "-" else "+")
      +++ (if Z.abs e <? 10 then "0" +++ ex else ex).

Definition frepr (x : float) : string :=
  match x with
  | S754_nan => "nan"
  | S754_infinity s => if s then "-inf" else "inf"
  | S754_zero s => if s then "-0.0" else "0.0"
  | S754_finite s m e =>
      let num := Zpos m * 2 ^ Z.max e 0 in
      let den := 2 ^ Z.max (- e) 0 in
      let k0 := (Z.log2 num - Z.log2 den) * 30103 / 100000 - 1 in
      let k := decpt 5 num den k0 in
      let (d, q) := shortest 16 1 num den k s x in
      let (d', q') := strip10 17 d q in
      let digits := str_Z d' in
      (if s then "-" else "")
        +++ layout digits (q' + Z.of_nat (String.length digits))
  end.

(** [timedelta(seconds=x)] for a float, in microseconds: the integer part is
    exact, the fraction is multiplied by [1e6] as a float and rounded half to
    even; the number of days is bounded. *)
Definition fround (x : float) : Z :=
  match x with
  | S754_finite s m e =>
      cond_Zopp s (round_half_even (Zpos m * 2 ^ Z.max e 0) (2 ^ Z.max (- e) 0))
  | _ => 0
  end.

Definition timedelta_seconds (x : float) : result Z :=
  i <-! ftrunc x;
  fi <-! float_of_int i;
  let frac := SFsub 53 1024 x fi in
  let total := seconds i + fround (fmul frac (flit 1000000 0)) in
  if Z.abs (total / seconds 86400) <=? 999999999 then Ok total
  else Err (OverflowError "days; must have magnitude <= 999999999").

(** The magnitude in hundredths, ties to even; [round(x, 2)] is the float next to it. *)
Definition hundredths (x : float) : Z :=
  match x with
  | S754_finite _ m e => round_half_even (Zpos m * 2 ^ Z.max e 0 * 100) (2 ^ Z.max (- e) 0)
  | _ => 0
  end.
Definition round2 (x : float) : float :=
  match x with
  | S754_finite s _ _ =>
      match hundredths x with Zpos p => of_decimal s p (-2) | _ => S754_zero s end
  | _ => x
  end.

(** [f"{x:.2f}"] *)
Definition format_2f (x : float) : string :=
  let sign s := if (s : bool) then "-" else "" in
  let digits n := str_Z (n / 100) +++ "." +++ str_Z (n / 10 mod 10) +++ str_Z (n mod 10) in
  match x with
  | S754_nan => "nan"
  | S754_infinity s => sign s +++ "inf"
  | S754_zero s => sign s +++ "0.00"
  | S754_finite s _ _ => sign s +++ digits (hundredths x)
  end.

Example round2_ex :
  (round2 (flit 675 3), format_2f (flit 675 3), format_2f (flit 5 1), frepr (round2 (flit 8123 4)))
  = (flit 68 2, "0.68", "0.50", "0.81").
Proof. reflexivity. Qed.

(** ** Order

    Comparison of non-NaN floats is the lexicographic order of a key, hence a
    strict weak order; NaN compares with nothing. *)
Definition is_nan (x : float) : bool :=
  match x with S754_nan => true | _ => false end.

Definition fkey (x : float) : Z * Z * Z :=
  match x with
  | S754_nan | S754_zero _ => (0, 0, 0)
  | S754_infinity s => (if s then -2 else 2, 0, 0)
  | S754_finite s m e => if s then (-1, - e, Zneg m) else (1, e, Zpos m)
  end.

Definition key_lt (a b : Z * Z * Z) : Prop :=
  let '(a1, a2, a3) := a in
  let '(b1, b2, b3) := b in
  a1 < b1 \/ a1 = b1 /\ (a2 < b2 \/ a2 = b2 /\ a3 < b3).

Lemma fltb_key x y :
  is_nan x = false -> is_nan y = false -> (fltb x y = true <-> key_lt (fkey x) (fkey y)).
Proof.
  unfold fltb, SFltb.
  destruct x as [s|s| |s m e], y as [s'|s'| |s' m' e']; try done; intros _ _;
    destruct s, s'; simpl; try (split; [intros ?; try done; lia | intros ?; try done; lia]);
    destruct (Z.compare_spec e e'); simpl; change (Pos.compare_cont Eq m m') with (m ?= m')%positive;
    try destruct (Pos.compare_spec m m'); simpl; split; intros; try done; try lia.
Qed.

Lemma fleb_key x y :
  is_nan x = false -> is_nan y = false -> (fleb x y = true <-> ~ key_lt (fkey y) (fkey x)).
Proof.
  unfold fleb, SFleb.
  destruct x as [s|s| |s m e], y as [s'|s'| |s' m' e']; try done; intros _ _;
    destruct s, s'; simpl; try (split; [intros ?; try done; lia | intros ?; try done; lia]);
    destruct (Z.compare_spec e e'); simpl; change (Pos.compare_cont Eq m m') with (m ?= m')%positive;
    try destruct (Pos.compare_spec m m'); simpl; split; intros; try done; try lia.
Qed.

Lemma key_lt_irrefl a : ~ key_lt a a.
Proof. destruct a as [[??]?]; simpl; lia. Qed.

Lemma key_lt_trans a b c : key_lt a b -> key_lt b c -> key_lt a c.
Proof. destruct a as [[??]?], b as [[??]?], c as [[??]?]; simpl; lia. Qed.

Lemma key_nlt_trans a b c : ~ key_lt a b -> ~ key_lt b c -> ~ key_lt a c.
Proof. destruct a as [[??]?], b as [[??]?], c as [[??]?]; simpl; lia. Qed.

Lemma key_lt_asym a b : key_lt a b -> ~ key_lt b a.
Proof. destruct a as [[??]?], b as [[??]?]; simpl; lia. Qed.

Lemma fltb_nan x y : fltb x y = true -> is_nan x = false /\ is_nan y = false.
Proof. unfold fltb, SFltb. destruct x, y; simpl; naive_solver. Qed.

Lemma fleb_nan x y : fleb x y = true -> is_nan x = false /\ is_nan y = false.
Proof. unfold fleb, SFleb. destruct x, y; simpl; naive_solver. Qed.

Lemma fltb_irrefl x : fltb x x = false.
Proof.
  destruct (fltb x x) eqn:E; [|done].
  destruct (fltb_nan _ _ E) as [H _].
  apply fltb_key in E; [|done..]. by apply key_lt_irrefl in E.
Qed.

Lemma fleb_nlt x y :
  is_nan x = false -> is_nan y = false -> fleb x y = negb (fltb y x).
Proof.
  intros Hx Hy. apply eq_true_iff_eq.
  rewrite fleb_key, negb_true_iff, <-not_true_iff_false, fltb_key; done.
Qed.

Lemma fleb_trans x y z : fleb x y = true -> fleb y z = true -> fleb x z = true.
Proof.
  intros H1 H2. destruct (fleb_nan _ _ H1), (fleb_nan _ _ H2).
  rewrite fleb_key in *; try done. eauto using key_nlt_trans.
Qed.

Lemma fleb_refl x : is_nan x = false -> fleb x x = true.
Proof. intros H. apply fleb_key; try done. apply key_lt_irrefl. Qed.

Lemma flt_le_trans x y z : fltb x y = true -> fleb y z = true -> fltb x z = true.
Proof.
  intros H1 H2. destruct (fltb_nan _ _ H1), (fleb_nan _ _ H2).
  apply fltb_key in H1; try done. apply fleb_key in H2; try done.
  apply fltb_key; try done. revert H1 H2.
  destruct (fkey x) as [[??]?], (fkey y) as [[??]?], (fkey z) as [[??]?]; simpl; lia.
Qed.

Lemma fmin_le_r x y : is_nan y = false -> is_nan x = false -> fleb (fmin x y) y = true.
Proof.
  intros Hy Hx. unfold fmin. destruct (fltb y x) eqn:E; [by apply fleb_refl|].
  by rewrite fleb_nlt, E.
Qed.

Create HintDb pyfloat.
#[export] Hint Resolve fltb_irrefl fleb_refl fleb_trans flt_le_trans : pyfloat.

(** ** [datetime.isoformat()] of a UTC instant *)
(** The proleptic Gregorian date of a day count since 1970-01-01, by 400-year
    eras starting on 1 March. *)
Definition civil_from_days (days : Z) : Z * Z * Z :=
  let z := days + 719468 in
  let era := z / 146097 in
  let doe := z - era * 146097 in
  let yoe := (doe - doe / 1460 + doe / 36524 - doe / 146096) / 365 in
  let doy := doe - (365 * yoe + yoe / 4 - yoe / 100) in
  let mp := (5 * doy + 2) / 153 in
  let d := doy - (153 * mp + 2) / 5 + 1 in
  let m := if mp <? 10 then mp + 3 else mp - 9 in
  (yoe + era * 400 + (if m <=? 2 then 1 else 0), m, d).

(** A non-negative number padded with zeros to [n] digits. *)
Definition padded (n : nat) (z : Z) : string :=
  let s := str_Z z in zeros (n - String.length s) +++ s.

Definition isoformat (t : instant) : string :=
  let secs := t / 1000000 in
  let us := t mod 1000000 in
  let '(y, m, d) := civil_from_days (secs / 86400) in
  let s := secs mod 86400 in
  padded 4 y +++ "-" +++ padded 2 m +++ "-" +++ padded 2 d +++ "T"
    +++ padded 2 (s / 3600) +++ ":" +++ padded 2 (s / 60 mod 60) +++ ":" +++ padded 2 (s mod 60)
    +++ (if us =? 0 then "" else "." +++ padded 6 us) +++ "+00:00".

Example isoformat_ex : isoformat 1772323199000500 = "2026-02-28T23:59:59.000500+00:00".
Proof. reflexivity. Qed.

(** [str(timedelta)] *)
Definition str_timedelta (us : Z) : string :=
  let days := us / 86400000000 in
  let secs := us / 1000000 mod 86400 in
  let micros := us mod 1000000 in
  (if days =? 0 then ""
   else str_Z days +++ " day" +++ (if Z.abs days =? 1 then "" else "s") +++ ", ")
  +++ str_Z (secs / 3600) +++ ":" +++ padded 2 (secs / 60 mod 60) +++ ":"
  +++ padded 2 (secs mod 60) +++ (if micros =? 0 then "" else "." +++ padded 6 micros).

Example str_timedelta_ex :
  (str_timedelta 1800000000, str_timedelta 90061000500)
  = ("0:30:00", "1 day, 1:01:01.000500").
Proof. reflexivity. Qed.

(** ** The order of ISO 8601 texts *)

Module IsoOrder.
Definition digit (k : Z) : string := String (Ascii.ascii_of_nat (Z.to_nat (48 + k))) "".

Ltac each_digit k :=
  assert (k = 0 \/ k = 1 \/ k = 2 \/ k = 3 \/ k = 4 \/ k = 5 \/ k = 6 \/ k = 7 \/ k = 8 \/ k = 9)
    as [->|[->|[->|[->|[->|[->|[->|[->|[->| ->]]]]]]]]] by lia.

Lemma string_of_revapp l a :
  NilEmpty.string_of_uint (Decimal.revapp l a)
  = NilEmpty.string_of_uint (Decimal.revapp l Decimal.Nil) +++ NilEmpty.string_of_uint a.
Proof.
  revert a. induction l as [|l IH|l IH|l IH|l IH|l IH|l IH|l IH|l IH|l IH|l IH]; intros a; simpl;
    [done|..]; by rewrite IH, (IH (_ Decimal.Nil)), append_assoc.
Qed.

Lemma str_Z_digit k : 0 <= k < 10 -> str_Z k = digit k.
Proof. intros H. by each_digit k. Qed.

Lemma str_Z_Zpos p : str_Z (Zpos p) = NilEmpty.string_of_uint (Decimal.rev (DecimalPos.Unsigned.to_lu (N.pos p))).
Proof.
  unfold str_Z. simpl. pose proof (DecimalPos.Unsigned.to_uint_nonnil p) as H. unfold Pos.to_uint in *.
  destruct (Decimal.rev (Pos.to_little_uint p)) eqn:E; simpl; done.
Qed.

(** Decimal notation: the last digit. *)
Lemma str_Z_snoc n k : 0 < n -> 0 <= k < 10 -> str_Z (10 * n + k) = str_Z n +++ digit k.
Proof.
  intros Hn Hk. destruct n as [|p|p]; [lia| |lia].
  assert (exists q, 10 * Zpos p + k = Zpos q /\ N.pos q = N.iter (Z.to_N k) N.succ (10 * N.pos p)%N) as (q & E & Eq).
  { destruct (10 * Zpos p + k) as [|q|q] eqn:E; try lia. exists q. split; [done|].
    each_digit k; simpl; lia. }
  rewrite E, !str_Z_Zpos, Eq. unfold Decimal.rev.
  each_digit k; simpl N.iter; unfold N.iter; simpl Pos.iter;
    rewrite ?DecimalPos.Unsigned.to_lu_succ, DecimalPos.Unsigned.to_ldec_tenfold; simpl;
    by rewrite string_of_revapp.
Qed.

Lemma compare_app a b c e : String.length a = String.length b ->
  String.compare (a +++ c) (b +++ e) = match String.compare a b with Eq => String.compare c e | r => r end.
Proof.
  revert b. induction a as [|x a IH]; intros [|y b] H; try discriminate; [done|].
  simpl in *. injection H as H. destruct (Ascii.compare x y); [by apply IH|done|done].
Qed.

Lemma zeros_snoc n : zeros (S n) = zeros n +++ "0".
Proof.
  induction n as [|n IH]; [done|]. change (zeros (S (S n))) with ("0" +++ zeros (S n)). by rewrite IH at 1.
Qed.

Lemma zeros_length n : String.length (zeros n) = n.
Proof. induction n as [|n IH]; [done|]. cbn [zeros]. by rewrite append_length, IH. Qed.

(** A padded number, and its last digit. *)
Lemma padded_snoc n a k : 0 <= a -> 0 <= k < 10 ->
  padded (S (S n)) (10 * a + k) = padded (S n) a +++ digit k.
Proof.
  intros Ha Hk. unfold padded. destruct (decide (a = 0)) as [->|Hn].
  - rewrite Z.mul_0_r, Z.add_0_l, str_Z_digit by done.
    change (str_Z 0) with "0". change (String.length (digit k)) with 1%nat. simpl String.length.
    rewrite !Nat.sub_succ, !Nat.sub_0_r, zeros_snoc. done.
  - rewrite str_Z_snoc by lia. rewrite append_length. change (String.length (digit k)) with 1%nat.
    rewrite <- append_assoc. do 2 f_equal. f_equal. lia.
Qed.

Lemma last_digit n x : 0 <= x < 10 ^ Z.of_nat (S n) ->
  exists a k, x = 10 * a + k /\ 0 <= k < 10 /\ 0 <= a < 10 ^ Z.of_nat n.
Proof.
  intros H. exists (x / 10), (x mod 10). rewrite Nat2Z.inj_succ, Z.pow_succ_r in H by lia.
  pose proof (Z.div_mod x 10 ltac:(lia)). pose proof (Z.mod_pos_bound x 10 ltac:(lia)).
  split_and!; lia.
Qed.

Lemma padded_length n x : 0 <= x < 10 ^ Z.of_nat (S n) -> String.length (padded (S n) x) = S n.
Proof.
  revert x. induction n as [|n IH]; intros x H.
  - change (10 ^ Z.of_nat 1) with 10 in H. by each_digit x.
  - apply last_digit in H as (a & k & -> & Hk & Ha).
    rewrite padded_snoc, append_length, IH by (done || lia). simpl. lia.
Qed.

Lemma digit_compare j k : 0 <= j < 10 -> 0 <= k < 10 -> String.compare (digit j) (digit k) = (j ?= k).
Proof. intros Hj Hk. each_digit j; each_digit k; reflexivity. Qed.

(** Padded numbers compare as texts the way they compare as numbers. *)
Lemma padded_compare n x y : 0 <= x < 10 ^ Z.of_nat (S n) -> 0 <= y < 10 ^ Z.of_nat (S n) ->
  String.compare (padded (S n) x) (padded (S n) y) = (x ?= y).
Proof.
  revert x y. induction n as [|n IH]; intros x y Hx Hy.
  - change (10 ^ Z.of_nat 1) with 10 in *. unfold padded. rewrite !str_Z_digit by lia. by apply digit_compare.
  - apply last_digit in Hx as (a & k & -> & Hk & Ha). apply last_digit in Hy as (b & j & -> & Hj & Hb).
    rewrite !padded_snoc by lia. rewrite compare_app by (by rewrite !padded_length).
    rewrite IH, digit_compare by done.
    destruct (a ?= b) eqn:E; rewrite ?Z.compare_eq_iff, ?Z.compare_lt_iff, ?Z.compare_gt_iff in E; symmetry.
    + subst b. destruct (k ?= j) eqn:E';
        rewrite ?Z.compare_eq_iff, ?Z.compare_lt_iff, ?Z.compare_gt_iff in *; lia.
    + apply Z.compare_lt_iff. lia.
    + apply Z.compare_gt_iff. lia.
Qed.
(** *** Dates *)

(** The year of an era, counted from March, and the first day of one. *)
Definition year_of (doe : Z) : Z := (doe - doe / 1460 + doe / 36524 - doe / 146096) / 365.
Definition year_start (y : Z) : Z := 365 * y + y / 4 - y / 100.
Definition year_end (y : Z) : Z := if y =? 399 then 146096 else year_start (y + 1) - 1.

Lemma year_of_mono a b : 0 <= a <= b -> b < 146097 -> year_of a <= year_of b.
Proof. intros H Hb. unfold year_of. apply Z.div_le_mono; [lia|]. Z.to_euclidean_division_equations. lia. Qed.

Lemma years y : 0 <= y < 400 ->
  year_of (year_start y) = y /\ year_of (year_end y) = y /\ 0 <= year_start y <= year_end y
  /\ year_end y < 146097 /\ year_end y <= year_start y + 365.
Proof.
  intros Hy.
  assert (forallb (fun y => bool_decide (year_of (year_start y) = y /\ year_of (year_end y) = y
    /\ 0 <= year_start y <= year_end y /\ year_end y < 146097 /\ year_end y <= year_start y + 365))
    (seqZ 0 400) = true) as H by (vm_compute; reflexivity).
  rewrite forallb_forall in H. specialize (H y). rewrite <- list_elem_of_In, elem_of_seqZ in H.
  by apply bool_decide_eq_true in H; [|lia].
Qed.

Lemma year_bounds doe : 0 <= doe < 146097 ->
  0 <= year_of doe < 400 /\ year_start (year_of doe) <= doe <= year_start (year_of doe) + 365.
Proof.
  intros H.
  assert (0 <= year_of doe < 400) as Hy.
  { pose proof (year_of_mono 0 doe). pose proof (year_of_mono doe 146096).
    change (year_of 0) with 0 in *. change (year_of 146096) with 399 in *. lia. }
  split; [done|]. destruct (years (year_of doe) Hy) as (H1 & H2 & H3 & H4 & H5). set (y := year_of doe) in *.
  split.
  - destruct (Z_lt_le_dec doe (year_start y)) as [Hlt|]; [|done]. exfalso.
    destruct (decide (y = 0)) as [->|]; [change (year_start 0) with 0 in *; lia|].
    destruct (years (y - 1)) as (_ & H2' & H3' & H4' & _); [lia|].
    assert (year_end (y - 1) = year_start y - 1) as E.
    { unfold year_end. destruct (Z.eqb_spec (y - 1) 399); [lia|]. f_equal. f_equal. lia. }
    pose proof (year_of_mono doe (year_end (y - 1))). lia.
  - destruct (Z_le_gt_dec doe (year_end y)) as [|Hgt]; [lia|]. exfalso.
    unfold year_end in *. destruct (Z.eqb_spec y 399); [lia|].
    destruct (years (y + 1)) as (H1' & _ & H3' & H4' & _); [lia|].
    pose proof (year_of_mono (year_start (y + 1)) doe). lia.
Qed.

(** The month, counted from March, and the day of a day of the year. *)
Definition month_of (doy : Z) : Z := (5 * doy + 2) / 153.
Definition day_of (doy : Z) : Z := doy - (153 * month_of doy + 2) / 5 + 1.

Lemma month_bounds doy : 0 <= doy <= 365 -> 0 <= month_of doy < 12 /\ 1 <= day_of doy <= 31.
Proof. intros H. unfold day_of, month_of. Z.to_euclidean_division_equations. lia. Qed.
Lemma month_mono a b : 0 <= a < b -> b <= 365 -> month_of a * 32 + day_of a < month_of b * 32 + day_of b.
Proof. intros H Hb. unfold day_of, month_of. Z.to_euclidean_division_equations. lia. Qed.

(** A number that orders dates. *)
Definition date_key (date : Z * Z * Z) : Z := let '(y, m, d) := date in (12 * y + m) * 32 + d.

Lemma civil_key days :
  let z := days + 719468 in
  let doe := z mod 146097 in
  let y := year_of doe + z / 146097 * 400 in
  let doy := doe - year_start (year_of doe) in
  date_key (civil_from_days days) = (12 * y + month_of doy + 3) * 32 + day_of doy
  /\ 0 <= doy <= 365.
Proof.
  intros z doe y doy. pose proof (Z.mod_pos_bound z 146097 ltac:(lia)) as Hd.
  assert (z - z / 146097 * 146097 = doe) as E by (pose proof (Z.div_mod z 146097 ltac:(lia)); unfold doe; lia).
  destruct (year_bounds doe Hd) as [Hy Hs]. split; [|unfold doy; lia].
  unfold civil_from_days. fold z. rewrite E. fold (year_of doe).
  replace (doe - (365 * year_of doe + year_of doe / 4 - year_of doe / 100)) with doy by done.
  fold (month_of doy). fold (day_of doy). destruct (month_bounds doy); [unfold doy; lia|].
  unfold date_key, y. repeat case_match; lia.
Qed.

Lemma civil_lt a b : a < b -> date_key (civil_from_days a) < date_key (civil_from_days b).
Proof.
  intros H. destruct (civil_key a) as [-> Ha], (civil_key b) as [-> Hb].
  assert (a + 719468 < b + 719468) as Hlt by lia.
  set (z := a + 719468) in *. set (z' := b + 719468) in *. clearbody z z'.
  pose proof (Z.mod_pos_bound z 146097 ltac:(lia)) as Hz. pose proof (Z.mod_pos_bound z' 146097 ltac:(lia)) as Hz'.
  destruct (year_bounds _ Hz) as [Hy _], (year_bounds _ Hz') as [Hy' _].
  destruct (month_bounds _ Ha) as [Hm Hd], (month_bounds _ Hb) as [Hm' Hd'].
  assert (z / 146097 <= z' / 146097) as He by (apply Z.div_le_mono; lia).
  pose proof (Z.div_mod z 146097 ltac:(lia)). pose proof (Z.div_mod z' 146097 ltac:(lia)).
  destruct (Z.eq_dec (z / 146097) (z' / 146097)) as [E|]; [|lia].
  assert (year_of (z mod 146097) <= year_of (z' mod 146097)) as Hyy by (apply year_of_mono; lia).
  destruct (Z.eq_dec (year_of (z mod 146097)) (year_of (z' mod 146097))) as [Ey|]; [|lia].
  rewrite Ey in Ha. rewrite E, Ey.
  enough (forall k k', 0 <= k < k' -> k' <= 365 -> month_of k * 32 + day_of k < month_of k' * 32 + day_of k')
    as Hk by (match type of Ha with 0 <= ?k <= _ => match type of Hb with 0 <= ?k' <= _ =>
                specialize (Hk k k') end end; lia).
  intros. by apply month_mono.
Qed.

Lemma civil_le a b : a <= b -> date_key (civil_from_days a) <= date_key (civil_from_days b).
Proof. intros H. destruct (Z.eq_dec a b) as [->|]; [done|]. pose proof (civil_lt a b). lia. Qed.

Lemma civil_fields days : let '(y, m, d) := civil_from_days days in 1 <= m <= 12 /\ 1 <= d <= 31.
Proof.
  unfold civil_from_days. set (z := days + 719468). pose proof (Z.mod_pos_bound z 146097 ltac:(lia)) as Hz.
  replace (z - z / 146097 * 146097) with (z mod 146097) by (pose proof (Z.div_mod z 146097 ltac:(lia)); lia).
  set (doe := z mod 146097) in *. fold (year_of doe). destruct (year_bounds doe Hz) as [_ Hs].
  change (365 * year_of doe + year_of doe / 4 - year_of doe / 100) with (year_start (year_of doe)).
  set (doy := doe - year_start (year_of doe)). fold (month_of doy) (day_of doy).
  destruct (month_bounds doy); [unfold doy; lia|]. case_match; lia.
Qed.

(** The instants a [datetime] can have: the years 1 to 9999. *)
Definition in_calendar (t : instant) : Prop := -62135596800000000 <= t < 253402300800000000.

Lemma calendar_year t : in_calendar t ->
  let '(y, m, d) := civil_from_days (t / 1000000 / 86400) in 1 <= y <= 9999.
Proof.
  intros H. pose proof (civil_fields (t / 1000000 / 86400)) as Hf.
  assert (date_key (1, 1, 1) <= date_key (civil_from_days (t / 1000000 / 86400)) <= date_key (9999, 12, 31)) as Hk.
  { assert (-719162 <= t / 1000000 / 86400 <= 2932896) as Hd.
    { unfold in_calendar in H. Z.to_euclidean_division_equations. lia. }
    change (1, 1, 1) with (civil_from_days (-719162)).
    change (9999, 12, 31) with (civil_from_days 2932896). split; apply civil_le; lia. }
  destruct (civil_from_days _) as [[y m] d]. unfold date_key in Hk. lia.
Qed.

(** *** The order of texts is the order of times *)

Definition iso_body (t : instant) : string :=
  let secs := t / 1000000 in
  let '(y, m, d) := civil_from_days (secs / 86400) in
  let s := secs mod 86400 in
  padded 4 y +++ "-" +++ padded 2 m +++ "-" +++ padded 2 d +++ "T"
    +++ padded 2 (s / 3600) +++ ":" +++ padded 2 (s / 60 mod 60) +++ ":" +++ padded 2 (s mod 60).
Definition iso_fraction (t : instant) : string :=
  let us := t mod 1000000 in if us =? 0 then "" else "." +++ padded 6 us.
(** [isoformat()] with [zone] in place of the offset. *)
Definition iso_in (zone : string) (t : instant) : string := iso_body t +++ iso_fraction t +++ zone.

Lemma isoformat_in t : isoformat t = iso_in "+00:00" t.
Proof.
  unfold isoformat, iso_in, iso_body, iso_fraction. destruct (civil_from_days _) as [[y m] d].
  rewrite !append_assoc. reflexivity.
Qed.

Lemma padded_then n x y a b : 0 <= x < 10 ^ Z.of_nat (S n) -> 0 <= y < 10 ^ Z.of_nat (S n) ->
  String.compare (padded (S n) x +++ a) (padded (S n) y +++ b)
  = match x ?= y with Eq => String.compare a b | r => r end.
Proof. intros Hx Hy. rewrite compare_app by (by rewrite !padded_length). by rewrite padded_compare. Qed.

Lemma literal_then s a b : String.compare (s +++ a) (s +++ b) = String.compare a b.
Proof.
  induction s as [|c s IH]; [done|]. simpl.
  unfold Ascii.compare. by rewrite N.compare_refl.
Qed.

(** Compare the next fields of two texts: either they decide, or they are equal. *)
Ltac next_field n x y :=
  rewrite (padded_then n) by (simpl; lia);
  destruct (Z.compare_spec x y); [|done|exfalso; lia].

Lemma iso_body_lt t u a b : in_calendar t -> in_calendar u -> t / 1000000 < u / 1000000 ->
  String.compare (iso_body t +++ a) (iso_body u +++ b) = Lt.
Proof.
  intros Ht Hu H. apply calendar_year in Ht, Hu. unfold iso_body.
  set (p := t / 1000000) in *. set (q := u / 1000000) in *. clearbody p q.
  pose proof (civil_fields (p / 86400)) as Hp. pose proof (civil_fields (q / 86400)) as Hq.
  assert (p / 86400 = q / 86400 /\ p mod 86400 < q mod 86400
          \/ date_key (civil_from_days (p / 86400)) < date_key (civil_from_days (q / 86400))) as Hk.
  { assert (p / 86400 = q / 86400 \/ p / 86400 < q / 86400) as [E|E]
      by (pose proof (Z.div_le_mono p q 86400); lia); [left|right; by apply civil_lt].
    split; [done|]. pose proof (Z.div_mod p 86400). pose proof (Z.div_mod q 86400). lia. }
  pose proof (Z.mod_pos_bound p 86400 ltac:(lia)) as Hs. pose proof (Z.mod_pos_bound q 86400 ltac:(lia)) as Hs'.
  set (s := p mod 86400) in *. set (s' := q mod 86400) in *. clearbody s s'.
  assert (forall s, 0 <= s < 86400 -> 0 <= s / 3600 < 24 /\ 0 <= s / 60 mod 60 < 60 /\ 0 <= s mod 60 < 60
          /\ s = s / 3600 * 3600 + s / 60 mod 60 * 60 + s mod 60) as Hc
    by (clear; intros s H; Z.to_euclidean_division_equations; lia).
  destruct (Hc s Hs) as (? & ? & ? & Es), (Hc s' Hs') as (? & ? & ? & Es').
  destruct (civil_from_days (p / 86400)) as [[y m] d] eqn:E, (civil_from_days (q / 86400)) as [[y' m'] d'] eqn:E'.
  assert (y < y' \/ y = y' /\ (m < m' \/ m = m' /\ (d < d' \/ d = d' /\ s < s'))) as Hl.
  { destruct Hk as [[Hk ?]|Hk]; [|unfold date_key in Hk; lia].
    rewrite Hk in E. rewrite E in E'. injection E' as -> -> ->. lia. }
  clear E E' Hk Hc. rewrite !append_assoc.
  next_field 3%nat y y'. rewrite literal_then. next_field 1%nat m m'. rewrite literal_then.
  next_field 1%nat d d'. rewrite literal_then. assert (s < s') by lia.
  next_field 1%nat (s / 3600) (s' / 3600). rewrite literal_then.
  next_field 1%nat (s / 60 mod 60) (s' / 60 mod 60). rewrite literal_then.
  next_field 1%nat (s mod 60) (s' mod 60). lia.
Qed.

Lemma iso_body_second t u : t / 1000000 = u / 1000000 -> iso_body t = iso_body u.
Proof. unfold iso_body. by intros ->. Qed.

(** Texts of instants that are in order are of instants in order, but for a whole second
    with a [Z]: it has no fraction, and [Z] comes after the point of one. *)
Lemma iso_order t u zone zone' : in_calendar t -> in_calendar u -> zone' ∈ ["+00:00"; "Z"] ->
  String.compare (iso_in zone' u) (iso_in zone t) <> Lt ->
  t <= u \/ t / 1000000 = u / 1000000 /\ u mod 1000000 = 0 /\ zone' = "Z".
Proof.
  intros Ht Hu Hz H. destruct (Z_le_gt_dec t u) as [|Hgt]; [by left|right].
  assert (u / 1000000 <= t / 1000000) as Hle by (apply Z.div_le_mono; lia).
  destruct (Z.eq_dec (t / 1000000) (u / 1000000)) as [E|E]; [split; [done|]|].
  2:{ exfalso. apply H, iso_body_lt; [done..|lia]. }
  unfold iso_in in H. rewrite (iso_body_second _ _ E), literal_then in H.
  pose proof (Z.div_mod t 1000000 ltac:(lia)). pose proof (Z.div_mod u 1000000 ltac:(lia)).
  pose proof (Z.mod_pos_bound t 1000000 ltac:(lia)). pose proof (Z.mod_pos_bound u 1000000 ltac:(lia)).
  unfold iso_fraction in H. set (a := t mod 1000000) in *. set (b := u mod 1000000) in *. clearbody a b.
  destruct (Z.eqb_spec a 0); [lia|]. destruct (Z.eqb_spec b 0) as [Eb|]; [split; [done|]|].
  - assert (zone' = "+00:00" \/ zone' = "Z") as [-> | ->] by set_solver; [|done].
    exfalso. by apply H.
  - exfalso. apply H. rewrite !append_assoc, literal_then, (padded_then 5) by (simpl; lia).
    destruct (Z.compare_spec b a); [lia|done|lia].
Qed.
End IsoOrder.
