(* ===== verification/Json.v ===== *)
(** * Dynamic values

    The values the code types [Any] or [dict[str, Any]]: proposal parameters,
    baselines, samples, JSONB columns.  Dictionaries keep their insertion order
    as an association list.  The file has the Python operations the code
    applies to such values: [dict.get], truth, [==], [str], [repr], [int],
    [isinstance], and [json.dumps].  Strings are ASCII. *)
From Stdlib Require Import SpecFloat.
From Stdlib Require Ascii.
From S2P Require Import Prelude PyFloat.

Inductive json : Type :=
| JNull
| JBool (b : bool)
| JInt (n : Z)
| JFloat (x : float)
| JStr (s : string)
| JArr (l : list json)
| JObj (l : list (string * json)).

(** [d.get(k)] on the entries of a dictionary ([None] when absent). *)
Fixpoint assoc_get {A} (k : string) (l : list (string * A)) : option A :=
  match l with
  | [] => None
  | (k', v) :: l' => if bool_decide (k = k') then Some v else assoc_get k l'
  end.

(** [dict.get(k)], with [None] as [JNull]; a non-dictionary has no entry. *)
Definition jget (k : string) (j : json) : json :=
  match j with
  | JObj l => default JNull (assoc_get k l)
  | _ => JNull
  end.

(** [params[k]]: raises [KeyError] when absent. *)
Definition jitem (k : string) (l : list (string * json)) : result json :=
  match assoc_get k l with Some v => Ok v | None => Err (KeyError k) end.

Definition is_null (j : json) : bool := match j with JNull => true | _ => false end.

(** Truth of a value. *)
Definition truthy (j : json) : bool :=
  match j with
  | JNull => false
  | JBool b => b
  | JInt n => negb (n =? 0)%Z
  | JFloat x => ftruthy x
  | JStr s => nonempty s
  | JArr l => match l with [] => false | _ => true end
  | JObj l => match l with [] => false | _ => true end
  end.

(** [x or {}] *)
Definition or_empty (j : json) : json := if truthy j then j else JObj [].

Definition opt_json (o : option json) : json := default JNull o.
Definition jopt_str (o : option string) : json :=
  match o with Some s => JStr s | None => JNull end.
Definition jopt_int (o : option Z) : json :=
  match o with Some n => JInt n | None => JNull end.

(** ** Equality

    [==]: numbers of different types compare by value, [True == 1]. *)

(** An [int] compared with a [float], exactly. *)
Definition feq_int (x : float) (n : Z) : bool :=
  match x with
  | S754_zero _ => (n =? 0)%Z
  | S754_finite s m e =>
      let v := SpecFloat.cond_Zopp s (Zpos m) in
      if (0 <=? e)%Z then (v * 2 ^ e =? n)%Z else (v =? n * 2 ^ (- e))%Z
  | _ => false
  end.

Definition b2z (b : bool) : Z := if b then 1%Z else 0%Z.

Fixpoint py_eq (a b : json) {struct a} : bool :=
  match a, b with
  | JNull, JNull => true
  | JBool x, JBool y => Bool.eqb x y
  | JBool x, JInt n | JInt n, JBool x => (b2z x =? n)%Z
  | JBool x, JFloat y | JFloat y, JBool x => feq_int y (b2z x)
  | JInt n, JInt m => (n =? m)%Z
  | JInt n, JFloat x | JFloat x, JInt n => feq_int x n
  | JFloat x, JFloat y => feqb x y
  | JStr s, JStr t => bool_decide (s = t)
  | JArr l, JArr m =>
      (fix eqs (l m : list json) {struct l} : bool :=
         match l, m with
         | [], [] => true
         | x :: l', y :: m' => py_eq x y && eqs l' m'
         | _, _ => false
         end) l m
  | JObj l, JObj m =>
      bool_decide (length l = length m)
      && (fix sub (l : list (string * json)) : bool :=
            match l with
            | [] => true
            | (k, v) :: l' =>
                match assoc_get k m with
                | Some w => py_eq v w
                | None => false
                end && sub l'
            end) l
  | _, _ => false
  end.

(** ** [repr] and [str] *)

Definition hex_digit (n : nat) : string :=
  default "" (["0";"1";"2";"3";"4";"5";"6";"7";"8";"9";"a";"b";"c";"d";"e";"f"] !! n).

Definition quote : string := "'".
Definition dquote : string := String (Ascii.ascii_of_nat 34) EmptyString.
Definition backslash : string := String (Ascii.ascii_of_nat 92) EmptyString.

Fixpoint str_contains (c : Ascii.ascii) (s : string) : bool :=
  match s with
  | EmptyString => false
  | String a s' => if decide (a = c) then true else str_contains c s'
  end.

(** The escaped body of a string's [repr] between quotes [q]. *)
Fixpoint repr_body (q : Ascii.ascii) (s : string) : string :=
  match s with
  | EmptyString => EmptyString
  | String c s' =>
      let n := Ascii.nat_of_ascii c in
      (if decide (c = q) then backslash +++ String c ""
       else if bool_decide (n = 92) then backslash +++ backslash
       else if bool_decide (n = 10) then backslash +++ "n"
       else if bool_decide (n = 13) then backslash +++ "r"
       else if bool_decide (n = 9) then backslash +++ "t"
       else if bool_decide (n < 32) || bool_decide (n = 127)
            then backslash +++ "x" +++ hex_digit (Nat.div n 16) +++ hex_digit (Nat.modulo n 16)
       else String c "") +++ repr_body q s'
  end.

(** [repr(s)]: single quotes unless only double ones avoid escaping. *)
Definition repr_str (s : string) : string :=
  let single := Ascii.ascii_of_nat 39 in
  let double := Ascii.ascii_of_nat 34 in
  if str_contains single s && negb (str_contains double s)
  then dquote +++ repr_body double s +++ dquote
  else quote +++ repr_body single s +++ quote.

Fixpoint py_repr (j : json) : string :=
  match j with
  | JNull => "None"
  | JBool b => if b then "True" else "False"
  | JInt n => str_Z n
  | JFloat x => frepr x
  | JStr s => repr_str s
  | JArr l => "[" +++ join ", " (map py_repr l) +++ "]"
  | JObj l =>
      "{" +++ join ", " (map (fun kv => repr_str kv.1 +++ ": " +++ py_repr kv.2) l) +++ "}"
  end.

Definition py_str (j : json) : string :=
  match j with JStr s => s | _ => py_repr j end.

(** [repr] of an optional string. *)
Definition repr_opt (o : option string) : string := py_repr (jopt_str o).

(** [s.lower()] *)
Definition lower_char (c : Ascii.ascii) : Ascii.ascii :=
  let n := Ascii.nat_of_ascii c in
  if bool_decide (65 <= n) && bool_decide (n <= 90) then Ascii.ascii_of_nat (n + 32) else c.
Fixpoint lower (s : string) : string :=
  match s with
  | EmptyString => EmptyString
  | String c s' => String (lower_char c) (lower s')
  end.

(** ** [int()] *)

Definition is_space (c : Ascii.ascii) : bool :=
  let n := Ascii.nat_of_ascii c in
  bool_decide (n = 32) || (bool_decide (9 <= n) && bool_decide (n <= 13))
    || (bool_decide (28 <= n) && bool_decide (n <= 31)).

Fixpoint lstrip (s : string) : string :=
  match s with
  | String c s' => if is_space c then lstrip s' else s
  | EmptyString => EmptyString
  end.

Fixpoint str_rev (s acc : string) : string :=
  match s with
  | EmptyString => acc
  | String c s' => str_rev s' (String c acc)
  end.
Definition strip (s : string) : string := str_rev (lstrip (str_rev (lstrip s) "")) "".

(** Decimal digits with single underscores between them.  [prev] says whether
    the previous character was a digit. *)
Fixpoint digits_to_Z (prev : bool) (acc : Z) (s : string) : option Z :=
  match s with
  | EmptyString => if prev then Some acc else None
  | String c s' =>
      let n := Ascii.nat_of_ascii c in
      if bool_decide (48 <= n) && bool_decide (n <= 57)
      then digits_to_Z true (acc * 10 + (Z.of_nat n - 48))%Z s'
      else if bool_decide (n = 95) && prev then digits_to_Z false acc s'
      else None
  end.

Definition parse_int (s : string) : option Z :=
  match strip s with
  | String c s' =>
      if bool_decide (Ascii.nat_of_ascii c = 45) then Z.opp <$> digits_to_Z false 0 s'
      else if bool_decide (Ascii.nat_of_ascii c = 43) then digits_to_Z false 0 s'
      else digits_to_Z false 0 (String c s')
  | EmptyString => None
  end.

Definition py_int (j : json) : result Z :=
  match j with
  | JInt n => Ok n
  | JBool b => Ok (b2z b)
  | JFloat x => ftrunc x
  | JStr s =>
      match parse_int s with
      | Some n => Ok n
      | None => Err (ValueError ("invalid literal for int() with base 10: " +++ repr_str s))
      end
  | JNull => Err (TypeError "int() argument must not be 'NoneType'")
  | JArr _ => Err (TypeError "int() argument must not be 'list'")
  | JObj _ => Err (TypeError "int() argument must not be 'dict'")
  end.

(** [isinstance(v, str)] as a projection. *)
Definition as_str (j : json) : option string :=
  match j with JStr s => Some s | _ => None end.

(** [float(v) if isinstance(v, (int, float)) else None]; booleans are ints. *)
Definition as_number (j : json) : result (option float) :=
  match j with
  | JBool b => x <-! float_of_int (b2z b); Ok (Some x)
  | JInt n => x <-! float_of_int n; Ok (Some x)
  | JFloat x => Ok (Some x)
  | _ => Ok None
  end.

(** [set]-style de-duplication and [sorted] on strings. *)
Definition str_ltb (a b : string) : bool :=
  match String.compare a b with Lt => true | _ => false end.

Fixpoint insert_sorted (s : string) (l : list string) : list string :=
  match l with
  | [] => [s]
  | t :: l' => if str_ltb t s then t :: insert_sorted s l' else s :: l
  end.
Definition sorted (l : list string) : list string := foldr insert_sorted [] l.

Lemma elem_of_insert_sorted s t l : s ∈ insert_sorted t l <-> s = t \/ s ∈ l.
Proof. induction l as [|u l IH]; simpl; [set_solver|]. case_match; set_solver. Qed.

Lemma elem_of_sorted s l : s ∈ sorted l <-> s ∈ l.
Proof.
  induction l as [|t l IH]; simpl; [done|].
  rewrite elem_of_insert_sorted. set_solver.
Qed.

Lemma sorted_nil l : sorted l = [] <-> l = [].
Proof.
  split; [|by intros ->]. destruct l as [|s l]; [done|]. intros H.
  assert (s ∈ sorted (s :: l)) as Hs by (apply elem_of_sorted; set_solver).
  rewrite H in Hs. set_solver.
Qed.

Lemma assoc_get_None {A} k (l : list (string * A)) : assoc_get k l = None <-> k ∉ l.*1.
Proof.
  induction l as [|[k' v] l IH]; simpl; [set_solver|].
  case_bool_decide; set_solver.
Qed.

Lemma assoc_get_elem {A} k v (l : list (string * A)) : assoc_get k l = Some v -> (k, v) ∈ l.
Proof.
  induction l as [|[k' v'] l IH]; simpl; [done|].
  case_bool_decide; [|set_solver]. intros [= ->]. subst. set_solver.
Qed.

(** ** [json.dumps(..., sort_keys=True, separators=(",", ":"))] *)

Fixpoint json_body (s : string) : string :=
  match s with
  | EmptyString => EmptyString
  | String c s' =>
      let n := Ascii.nat_of_ascii c in
      (if bool_decide (n = 34) then backslash +++ dquote
       else if bool_decide (n = 92) then backslash +++ backslash
       else if bool_decide (n = 10) then backslash +++ "n"
       else if bool_decide (n = 13) then backslash +++ "r"
       else if bool_decide (n = 9) then backslash +++ "t"
       else if bool_decide (n = 8) then backslash +++ "b"
       else if bool_decide (n = 12) then backslash +++ "f"
       else if bool_decide (n < 32) || bool_decide (126 < n)
            then backslash +++ "u00" +++ hex_digit (Nat.div n 16) +++ hex_digit (Nat.modulo n 16)
       else String c "") +++ json_body s'
  end.
Definition json_str (s : string) : string := dquote +++ json_body s +++ dquote.

Definition json_float (x : float) : string :=
  match x with
  | S754_nan => "NaN"
  | S754_infinity s => if s then "-Infinity" else "Infinity"
  | _ => frepr x
  end.

Fixpoint insert_key {A} (k : string) (v : A) (l : list (string * A)) : list (string * A) :=
  match l with
  | [] => [(k, v)]
  | (k', v') :: l' => if str_ltb k' k then (k', v') :: insert_key k v l' else (k, v) :: l
  end.
Definition sort_keys {A} (l : list (string * A)) : list (string * A) :=
  foldr (fun kv acc => insert_key kv.1 kv.2 acc) [] l.

Fixpoint json_dumps (j : json) : string :=
  match j with
  | JNull => "null"
  | JBool b => if b then "true" else "false"
  | JInt n => str_Z n
  | JFloat x => json_float x
  | JStr s => json_str s
  | JArr l => "[" +++ join "," (map json_dumps l) +++ "]"
  | JObj l =>
      "{" +++ join "," (map (fun kv => json_str kv.1 +++ ":" +++ kv.2)
                          (sort_keys (map (fun kv => (kv.1, json_dumps kv.2)) l))) +++ "}"
  end.

(** ** The texts of JSON documents

    [json.dumps] with the options the code passes: compact in insertion order, canonical
    ([packages/evidence/hashing.py]: sorted keys, characters kept), and indented with
    sorted keys. *)
Section Compact.
Context (str : string -> string) (sort : bool).

Fixpoint dumps_with (j : json) : string :=
  match j with
  | JNull => "null"
  | JBool b => if b then "true" else "false"
  | JInt n => str_Z n
  | JFloat x => json_float x
  | JStr s => str s
  | JArr l => "[" +++ join "," (map dumps_with l) +++ "]"
  | JObj l =>
      let entries := map (fun kv => (kv.1, dumps_with kv.2)) l in
      "{" +++ join "," (map (fun kv => str kv.1 +++ ":" +++ kv.2)
                          (if sort then sort_keys entries else entries)) +++ "}"
  end.
End Compact.

(** [json.dumps(value, separators=(",", ":"))] *)
Definition _json (j : json) : string := dumps_with json_str false j.

(** A string with [ensure_ascii=False]: only control characters are escaped. *)
Fixpoint body_kept (s : string) : string :=
  match s with
  | EmptyString => EmptyString
  | String c s' =>
      (if bool_decide (Ascii.nat_of_ascii c = 127) then String c ""
       else json_body (String c "")) +++ body_kept s'
  end.
Definition canonical_json (j : json) : string :=
  dumps_with (fun s => dquote +++ body_kept s +++ dquote) true j.

(** [json.dumps(value, indent=1, sort_keys=True)] *)
Fixpoint spaces (n : nat) : string := match n with O => "" | S n' => " " +++ spaces n' end.
Definition line_at (level : nat) : string := String (Ascii.ascii_of_nat 10) (spaces level).

Fixpoint dumps_indent (level : nat) (j : json) : string :=
  match j with
  | JNull => "null"
  | JBool b => if b then "true" else "false"
  | JInt n => str_Z n
  | JFloat x => json_float x
  | JStr s => json_str s
  | JArr [] => "[]"
  | JArr l =>
      "[" +++ line_at (S level) +++ join ("," +++ line_at (S level)) (map (dumps_indent (S level)) l)
      +++ line_at level +++ "]"
  | JObj [] => "{}"
  | JObj l =>
      "{" +++ line_at (S level)
      +++ join ("," +++ line_at (S level))
            (map (fun kv => json_str kv.1 +++ ": " +++ kv.2)
               (sort_keys (map (fun kv => (kv.1, dumps_indent (S level) kv.2)) l)))
      +++ line_at level +++ "}"
  end.

Example dumps_indent_ex :
  dumps_indent 0 (JObj [("b", JArr [JInt 1; JArr []]); ("a", JObj [])])
  = "{" +++ line_at 1 +++ json_str "a" +++ ": {}," +++ line_at 1 +++ json_str "b" +++ ": ["
    +++ line_at 2 +++ "1," +++ line_at 2 +++ "[]" +++ line_at 1 +++ "]" +++ line_at 0 +++ "}".
Proof. reflexivity. Qed.
