(* ===== verification/Enums.v ===== *)
(** * Enumerations of the domain layer

    The [str] enums of [packages/domain/enums.py], [remediation.py],
    [verification.py] and [investigation.py], with the string each member is
    stored as. Statuses live in database columns as these strings; the model
    keeps the member and renders it with [*_value] where the code does. *)
From S2P Require Import Prelude.

Inductive AlertSource := PROMETHEUS | PAGERDUTY | GENERIC.
Inductive AlertSeverity := CRITICAL | WARNING | INFO.
Inductive AlertStatus := FIRING | ALERT_RESOLVED.

Inductive IncidentStatus :=
| TRIAGING | INVESTIGATING | RCA_READY | AWAITING_APPROVAL | REMEDIATION_IN_PROGRESS
| VERIFYING | VERIFICATION_FAILED | RESOLVED | ESCALATED | SUPPRESSED | CANCELLED | CLOSED.

Inductive RemediationStatus :=
| R_PROPOSED | R_POLICY_REJECTED | R_AWAITING_APPROVAL | R_APPROVED
| R_EXECUTING | R_EXECUTED | R_FAILED | R_CANCELLED.

Inductive ExecutionStatus := X_RUNNING | X_SUCCEEDED | X_FAILED | X_TIMED_OUT | X_UNKNOWN.

Inductive VerificationStatus := V_PENDING | V_RUNNING | V_PASSED | V_FAILED | V_TIMED_OUT.

Inductive HypothesisStatus := H_ACTIVE | H_SUPPORTED | H_WEAKENED | H_REJECTED | H_SELECTED.

#[export] Instance AlertSource_eq_dec : EqDecision AlertSource.
Proof. solve_decision. Defined.
#[export] Instance AlertSeverity_eq_dec : EqDecision AlertSeverity.
Proof. solve_decision. Defined.
#[export] Instance AlertStatus_eq_dec : EqDecision AlertStatus.
Proof. solve_decision. Defined.
#[export] Instance IncidentStatus_eq_dec : EqDecision IncidentStatus.
Proof. solve_decision. Defined.
#[export] Instance RemediationStatus_eq_dec : EqDecision RemediationStatus.
Proof. solve_decision. Defined.
#[export] Instance ExecutionStatus_eq_dec : EqDecision ExecutionStatus.
Proof. solve_decision. Defined.
#[export] Instance VerificationStatus_eq_dec : EqDecision VerificationStatus.
Proof. solve_decision. Defined.
#[export] Instance InvestigationStatus_eq_dec : EqDecision InvestigationStatus.
Proof. solve_decision. Defined.
#[export] Instance HypothesisStatus_eq_dec : EqDecision HypothesisStatus.
Proof. solve_decision. Defined.

Definition AlertSource_value (s : AlertSource) : string :=
  match s with PROMETHEUS => "prometheus" | PAGERDUTY => "pagerduty" | GENERIC => "generic" end.

Definition AlertSeverity_value (s : AlertSeverity) : string :=
  match s with CRITICAL => "critical" | WARNING => "warning" | INFO => "info" end.

Definition AlertStatus_value (s : AlertStatus) : string :=
  match s with FIRING => "firing" | ALERT_RESOLVED => "resolved" end.

Definition IncidentStatus_value (s : IncidentStatus) : string :=
  match s with
  | TRIAGING => "TRIAGING"
  | INVESTIGATING => "INVESTIGATING"
  | RCA_READY => "RCA_READY"
  | AWAITING_APPROVAL => "AWAITING_APPROVAL"
  | REMEDIATION_IN_PROGRESS => "REMEDIATION_IN_PROGRESS"
  | VERIFYING => "VERIFYING"
  | VERIFICATION_FAILED => "VERIFICATION_FAILED"
  | RESOLVED => "RESOLVED"
  | ESCALATED => "ESCALATED"
  | SUPPRESSED => "SUPPRESSED"
  | CANCELLED => "CANCELLED"
  | CLOSED => "CLOSED"
  end.

Definition RemediationStatus_value (s : RemediationStatus) : string :=
  match s with
  | R_PROPOSED => "PROPOSED"
  | R_POLICY_REJECTED => "POLICY_REJECTED"
  | R_AWAITING_APPROVAL => "AWAITING_APPROVAL"
  | R_APPROVED => "APPROVED"
  | R_EXECUTING => "EXECUTING"
  | R_EXECUTED => "EXECUTED"
  | R_FAILED => "FAILED"
  | R_CANCELLED => "CANCELLED"
  end.

Definition ExecutionStatus_value (s : ExecutionStatus) : string :=
  match s with
  | X_RUNNING => "RUNNING"
  | X_SUCCEEDED => "SUCCEEDED"
  | X_FAILED => "FAILED"
  | X_TIMED_OUT => "TIMED_OUT"
  | X_UNKNOWN => "UNKNOWN"
  end.

Definition VerificationStatus_value (s : VerificationStatus) : string :=
  match s with
  | V_PENDING => "PENDING"
  | V_RUNNING => "RUNNING"
  | V_PASSED => "PASSED"
  | V_FAILED => "FAILED"
  | V_TIMED_OUT => "TIMED_OUT"
  end.

Definition InvestigationStatus_value (s : InvestigationStatus) : string :=
  match s with
  | I_CREATED => "CREATED"
  | I_INVESTIGATING => "INVESTIGATING"
  | I_COMPLETED => "COMPLETED"
  | I_FAILED => "FAILED"
  | I_ESCALATED => "ESCALATED"
  end.

Definition HypothesisStatus_value (s : HypothesisStatus) : string :=
  match s with
  | H_ACTIVE => "ACTIVE"
  | H_SUPPORTED => "SUPPORTED"
  | H_WEAKENED => "WEAKENED"
  | H_REJECTED => "REJECTED"
  | H_SELECTED => "SELECTED"
  end.

(** Incident statuses no newly correlated alert may join; the predicate of the
    partial unique index [incidents_open_correlation_key]. *)
Definition CLOSED_INCIDENT_STATUSES : list IncidentStatus :=
  [CLOSED; CANCELLED; SUPPRESSED; RESOLVED].

Definition is_open (s : IncidentStatus) : bool :=
  negb (bool_decide (s ∈ CLOSED_INCIDENT_STATUSES)).
