(* ===== verification/Correlation.v ===== *)
(** * The correlation engine ([packages/domain/correlation_engine.py])

    Rules score a candidate incident for a new alert; the engine keeps the
    best candidate and compares its score with a threshold.  Scores are Python
    floats ([PyFloat]), timestamps are microseconds since the epoch. *)
From S2P Require Import Prelude PyFloat.
Local Open Scope Z_scope.

Definition DEFAULT_THRESHOLD : float := flit 6 1.
Definition DEFAULT_TEMPORAL_WINDOW_SECONDS : Z := 90.
Definition DEFAULT_CANDIDATE_LOOKBACK_SECONDS : Z := 15 * 60.

Module Engine.

Record NewAlertContext := {
  ctx_source : string;
  ctx_fingerprint : string;
  ctx_labels : labels_t;
  ctx_service : string;
  ctx_environment : string;
  ctx_received_at : Z;
}.

Record CorrelationCandidate := {
  incident_id : uuid;
  correlation_key : string;
  cand_status : string;
  cand_service : string;
  cand_environment : string;
  most_recent_alert_received_at : Z;
  most_recent_alert_labels : labels_t;
  most_recent_alert_fingerprint : string;
}.

Record RuleResult := { contribution : float; signal : option string }.

Definition no_signal : RuleResult := {| contribution := fzero; signal := None |}.
Definition fires (w : float) (s : string) : RuleResult :=
  {| contribution := w; signal := Some s |}.

(** The rule classes, with the fields of their dataclasses. *)
Inductive CorrelationRule : Type :=
| SameServiceRule (weight : float)
| SameEnvironmentRule (weight : float)
| SameLabelValueRule (label_key : string) (weight : float) (name : string)
| TemporalProximityRule (weight : float) (window_seconds : Z)
| RelatedAlertTypeRule (weight related_weight_fraction : float)
    (related_alert_types : gmap string (gset string))
| DeploymentProximityRule (weight : float).

(** A label that is present and non-empty ([if new_value and ...]). *)
Definition label (k : string) (l : labels_t) : option string :=
  match l !! k with
  | Some v => if nonempty v then Some v else None
  | None => None
  end.

Definition same_label_value (label_key : string) (weight : float)
    (alert : NewAlertContext) (candidate : CorrelationCandidate) : RuleResult :=
  match label label_key (ctx_labels alert),
        label label_key (most_recent_alert_labels candidate) with
  | Some new_value, Some candidate_value =>
      if bool_decide (new_value = candidate_value)
      then fires weight ("same " +++ label_key) else no_signal
  | _, _ => no_signal
  end.

Definition temporal_proximity (weight : float) (window_seconds : Z)
    (alert : NewAlertContext) (candidate : CorrelationCandidate) : RuleResult :=
  let delta := Z.abs (ctx_received_at alert - most_recent_alert_received_at candidate) in
  if delta <=? seconds window_seconds
  then fires weight ("within " +++ str_Z window_seconds +++ " seconds")
  else no_signal.

Definition related_alert_type (weight fraction : float)
    (related_alert_types : gmap string (gset string))
    (alert : NewAlertContext) (candidate : CorrelationCandidate) : RuleResult :=
  match label "alertname" (ctx_labels alert),
        label "alertname" (most_recent_alert_labels candidate) with
  | Some new_type, Some candidate_type =>
      if bool_decide (new_type = candidate_type) then fires weight "same alert type"
      else if bool_decide (candidate_type ∈ default ∅ (related_alert_types !! new_type))
      then fires (fmul weight fraction) "related alert types"
      else no_signal
  | _, _ => no_signal
  end.

Definition evaluate_rule (r : CorrelationRule)
    (alert : NewAlertContext) (candidate : CorrelationCandidate) : RuleResult :=
  match r with
  | SameServiceRule weight =>
      if bool_decide (ctx_service alert = cand_service candidate)
      then fires weight "same service" else no_signal
  | SameEnvironmentRule weight =>
      if bool_decide (ctx_environment alert = cand_environment candidate)
      then fires weight "same environment" else no_signal
  | SameLabelValueRule label_key weight _ => same_label_value label_key weight alert candidate
  | TemporalProximityRule weight window => temporal_proximity weight window alert candidate
  | RelatedAlertTypeRule weight fraction related =>
      related_alert_type weight fraction related alert candidate
  | DeploymentProximityRule _ => no_signal
  end.

Inductive Decision_kind := CORRELATE | NEW_INCIDENT.
#[export] Instance Decision_kind_eq_dec : EqDecision Decision_kind.
Proof. solve_decision. Defined.

Record CorrelationDecision := {
  decision : Decision_kind;
  score : float;
  matched_signals : list string;
  matched_incident_id : option uuid;
  dec_correlation_key : string;
}.

Record CorrelationEngine := {
  rules : list CorrelationRule;
  threshold : float;
  new_incident_correlation_key : option string;
}.

(** The inner loop of [decide]: add each rule's contribution, keep the
    non-empty signals. *)
Definition score_step (alert : NewAlertContext) (candidate : CorrelationCandidate)
    (acc : float * list string) (rule : CorrelationRule) : float * list string :=
  let result := evaluate_rule rule alert candidate in
  (fadd acc.1 (contribution result),
   match signal result with
   | Some s => if nonempty s then acc.2 ++ [s] else acc.2
   | None => acc.2
   end).

Definition score_candidate (e : CorrelationEngine) (alert : NewAlertContext)
    (candidate : CorrelationCandidate) : float * list string :=
  let r := foldl (score_step alert candidate) (fzero, []) (rules e) in
  (fmin r.1 fone, r.2).

Record best := {
  best_candidate : option CorrelationCandidate;
  best_score : float;
  best_signals : list string;
}.

(** One iteration of the outer loop. *)
Definition consider (e : CorrelationEngine) (alert : NewAlertContext)
    (b : best) (candidate : CorrelationCandidate) : best :=
  let '(sc, signals) := score_candidate e alert candidate in
  match best_candidate b with
  | None =>
      {| best_candidate := Some candidate; best_score := sc; best_signals := signals |}
  | Some _ =>
      if fltb (best_score b) sc
      then {| best_candidate := Some candidate; best_score := sc; best_signals := signals |}
      else b
  end.

Definition no_best : best :=
  {| best_candidate := None; best_score := fzero; best_signals := [] |}.

Definition find_best (e : CorrelationEngine) (alert : NewAlertContext)
    (candidates : list CorrelationCandidate) : best :=
  foldl (consider e alert) no_best candidates.

Definition new_key (e : CorrelationEngine) (alert : NewAlertContext) : string :=
  match new_incident_correlation_key e with
  | Some k => if nonempty k then k else ctx_fingerprint alert
  | None => ctx_fingerprint alert
  end.

Definition decide (e : CorrelationEngine) (alert : NewAlertContext)
    (candidates : list CorrelationCandidate) : CorrelationDecision :=
  let b := find_best e alert candidates in
  let new_incident :=
    {| decision := NEW_INCIDENT; score := best_score b; matched_signals := best_signals b;
       matched_incident_id := None; dec_correlation_key := new_key e alert |} in
  match best_candidate b with
  | Some c =>
      if fleb (threshold e) (best_score b)
      then {| decision := CORRELATE; score := best_score b;
              matched_signals := best_signals b;
              matched_incident_id := Some (incident_id c);
              dec_correlation_key := correlation_key c |}
      else new_incident
  | None => new_incident
  end.

Definition same_region_rule : CorrelationRule :=
  SameLabelValueRule "region" (flit 1 1) "same_region".
Definition same_dependency_rule : CorrelationRule :=
  SameLabelValueRule "dependency" (flit 1 1) "same_dependency".

Definition default_rules (temporal_window_seconds : Z)
    (related_alert_types : gmap string (gset string)) : list CorrelationRule :=
  [ SameServiceRule (flit 3 1); SameEnvironmentRule (flit 2 1);
    same_region_rule; same_dependency_rule;
    TemporalProximityRule (flit 2 1) temporal_window_seconds;
    RelatedAlertTypeRule (flit 2 1) (flit 85 2) related_alert_types;
    DeploymentProximityRule fzero ].

Definition default_correlation_engine (th : float) (temporal_window_seconds : Z)
    (key : option string) (related : gmap string (gset string)) : CorrelationEngine :=
  {| rules := default_rules temporal_window_seconds related; threshold := th;
     new_incident_correlation_key := key |}.

Definition candidate_lookback_cutoff (now lookback_seconds : Z) : Z :=
  now - seconds lookback_seconds.

(** ** The selection loop, against the specification "first strict maximum"

    [wins i cs] says the candidate at position [i] scores at least the others
    and strictly more than the ones before it. *)
Definition score_of (e : CorrelationEngine) (alert : NewAlertContext)
    (c : CorrelationCandidate) : float := (score_candidate e alert c).1.

Definition wins (e : CorrelationEngine) (alert : NewAlertContext)
    (cs : list CorrelationCandidate) (i : nat) (c : CorrelationCandidate) : Prop :=
  cs !! i = Some c /\
  (forall j c', cs !! j = Some c' -> fltb (score_of e alert c) (score_of e alert c') = false) /\
  (forall j c', (j < i)%nat -> cs !! j = Some c' ->
     fltb (score_of e alert c') (score_of e alert c) = true).

(** Scores are never NaN. *)
Definition scored (e : CorrelationEngine) : Prop :=
  forall alert c, is_nan (score_of e alert c) = false.

Section selection.
Context (e : CorrelationEngine) (alert : NewAlertContext) (He : scored e).

Definition best_of (c : CorrelationCandidate) : best :=
  {| best_candidate := Some c; best_score := score_of e alert c;
     best_signals := (score_candidate e alert c).2 |}.

Lemma consider_first c : consider e alert no_best c = best_of c.
Proof. unfold consider, best_of, score_of. by destruct (score_candidate e alert c). Qed.

Lemma consider_next b c :
  consider e alert (best_of b) c =
  if fltb (score_of e alert b) (score_of e alert c) then best_of c else best_of b.
Proof.
  unfold consider, best_of, score_of; simpl.
  by destruct (score_candidate e alert c).
Qed.

Lemma find_best_snoc cs c :
  find_best e alert (cs ++ [c]) = consider e alert (find_best e alert cs) c.
Proof. unfold find_best. by rewrite foldl_app. Qed.

Lemma wins_snoc_lose cs i c d :
  wins e alert cs i c -> fltb (score_of e alert c) (score_of e alert d) = false ->
  wins e alert (cs ++ [d]) i c.
Proof.
  intros (Hi & Hmax & Hfirst) Hd.
  pose proof (lookup_lt_Some _ _ _ Hi) as Hlt.
  split; [by rewrite lookup_app_l|]. split.
  - intros j c' [Hj|[_ Hj]]%lookup_app_Some; [by eapply Hmax|].
    apply list_lookup_singleton_Some in Hj as [_ ->]. done.
  - intros j c' Hji Hj. rewrite lookup_app_l in Hj by lia. by eapply Hfirst.
Qed.

Lemma wins_snoc_win cs i c d :
  wins e alert cs i c -> fltb (score_of e alert c) (score_of e alert d) = true ->
  wins e alert (cs ++ [d]) (length cs) d.
Proof.
  intros (Hi & Hmax & _) Hd.
  assert (Hle : forall j c', cs !! j = Some c' ->
            fltb (score_of e alert c') (score_of e alert d) = true).
  { intros j c' Hj. specialize (Hmax j c' Hj).
    apply fltb_key; [apply He..|]. apply fltb_key in Hd; [|apply He..].
    apply not_true_iff_false in Hmax. rewrite fltb_key in Hmax by apply He.
    revert Hmax Hd. destruct (fkey (score_of e alert c)) as [[??]?],
      (fkey (score_of e alert c')) as [[??]?], (fkey (score_of e alert d)) as [[??]?].
    simpl; lia. }
  split; [by rewrite lookup_app_r, Nat.sub_diag by lia|]. split.
  - intros j c' [Hj|[_ Hj]]%lookup_app_Some.
    + specialize (Hle j c' Hj). apply fltb_key in Hle; [|apply He..].
      apply not_true_iff_false. rewrite fltb_key by apply He. by apply key_lt_asym.
    + apply list_lookup_singleton_Some in Hj as [_ ->]. apply fltb_irrefl.
  - intros j c' Hji Hj. rewrite lookup_app_l in Hj by lia. by eapply Hle.
Qed.

Lemma find_best_wins cs :
  cs <> [] -> exists i c, wins e alert cs i c /\ find_best e alert cs = best_of c.
Proof.
  induction cs as [|d cs IH] using rev_ind; [done|]. intros _.
  rewrite find_best_snoc. destruct cs as [|c0 cs].
  { exists 0%nat, d. split; [|apply consider_first].
    split; [done|]. split.
    - intros [|j] c' Hj; simplify_eq/=. apply fltb_irrefl.
    - intros j c' Hj. lia. }
  destruct IH as (i & c & Hw & ->); [done|].
  rewrite consider_next. destruct (fltb _ _) eqn:E.
  - eexists _, _. split; [by eapply wins_snoc_win|done].
  - eexists _, _. split; [by apply wins_snoc_lose|done].
Qed.
End selection.

Lemma decide_correlate e alert cs :
  scored e ->
  decision (decide e alert cs) = CORRELATE <->
  exists c, c ∈ cs /\ fleb (threshold e) (score_of e alert c) = true.
Proof.
  intros He. destruct cs as [|c0 cs]; [simpl; split; [done|set_solver]|].
  destruct (find_best_wins e alert He (c0 :: cs)) as (i & c & (Hi & Hmax & _) & Hb); [done|].
  unfold decide. rewrite Hb; simpl. split.
  - destruct (fleb _ _) eqn:E; [|done]. intros _. exists c.
    split; [by eapply list_elem_of_lookup_2|done].
  - intros (c' & [j Hj]%list_elem_of_lookup_1 & Hth).
    assert (fleb (threshold e) (score_of e alert c) = true) as ->; [|done].
    eapply fleb_trans; [done|]. rewrite fleb_nlt by apply He.
    by rewrite (Hmax j c' Hj).
Qed.

(** ** The default rules

    For the rule list the service runs with, the float sum is exactly as
    selective as the decimal weights it was written from. *)
Definition related_kind (related : gmap string (gset string))
    (alert : NewAlertContext) (c : CorrelationCandidate) : nat :=
  match label "alertname" (ctx_labels alert),
        label "alertname" (most_recent_alert_labels c) with
  | Some n, Some m =>
      if bool_decide (n = m) then 2
      else if bool_decide (m ∈ default ∅ (related !! n)) then 1 else 0
  | _, _ => 0
  end%nat.

Definition same_label (k : string) (alert : NewAlertContext) (c : CorrelationCandidate) : bool :=
  match label k (ctx_labels alert), label k (most_recent_alert_labels c) with
  | Some n, Some m => bool_decide (n = m)
  | _, _ => false
  end.

Definition within (w : Z) (alert : NewAlertContext) (c : CorrelationCandidate) : bool :=
  Z.abs (ctx_received_at alert - most_recent_alert_received_at c) <=? seconds w.

Definition pct (b : bool) (n : Z) : Z := if b then n else 0.

(** Hundredths of a point, summed exactly. *)
Definition weight_pct (w : Z) (related : gmap string (gset string))
    (alert : NewAlertContext) (c : CorrelationCandidate) : Z :=
  pct (bool_decide (ctx_service alert = cand_service c)) 30
  + pct (bool_decide (ctx_environment alert = cand_environment c)) 20
  + pct (same_label "region" alert c) 10
  + pct (same_label "dependency" alert c) 10
  + pct (within w alert c) 20
  + match related_kind related alert c with O => 0 | S O => 17 | _ => 20 end.

Definition fpct (b : bool) (x : float) : float := if b then x else fzero.

(** The float the default rules compute from the six signals. *)
Definition default_sum (service env region dep time : bool) (kind : nat) : float :=
  fadd (fadd (fadd (fadd (fadd (fadd (fadd fzero (fpct service (flit 3 1)))
    (fpct env (flit 2 1))) (fpct region (flit 1 1))) (fpct dep (flit 1 1)))
    (fpct time (flit 2 1)))
    match kind with O => fzero | S O => fmul (flit 2 1) (flit 85 2) | _ => flit 2 1 end) fzero.

Lemma score_step_fst alert c acc r :
  (score_step alert c acc r).1 = fadd acc.1 (contribution (evaluate_rule r alert c)).
Proof. done. Qed.

Lemma same_label_value_contribution k w n alert c :
  contribution (evaluate_rule (SameLabelValueRule k w n) alert c)
  = fpct (same_label k alert c) w.
Proof.
  simpl. unfold same_label_value, same_label.
  destruct (label k (ctx_labels alert)); [|done].
  destruct (label k (most_recent_alert_labels c)); [|done]. by case_bool_decide.
Qed.

(** The contribution of each default rule in terms of its signal. *)
Lemma same_service_contribution w alert c :
  contribution (evaluate_rule (SameServiceRule w) alert c)
  = fpct (bool_decide (ctx_service alert = cand_service c)) w.
Proof. simpl. by case_bool_decide. Qed.

Lemma same_environment_contribution w alert c :
  contribution (evaluate_rule (SameEnvironmentRule w) alert c)
  = fpct (bool_decide (ctx_environment alert = cand_environment c)) w.
Proof. simpl. by case_bool_decide. Qed.

Lemma temporal_contribution w win alert c :
  contribution (evaluate_rule (TemporalProximityRule w win) alert c)
  = fpct (within win alert c) w.
Proof. simpl. unfold temporal_proximity, within. by destruct (_ <=? _). Qed.

Lemma related_contribution w f related alert c :
  contribution (evaluate_rule (RelatedAlertTypeRule w f related) alert c)
  = match related_kind related alert c with O => fzero | S O => fmul w f | _ => w end.
Proof.
  simpl. unfold related_alert_type, related_kind.
  destruct (label "alertname" (ctx_labels alert)); [|done].
  destruct (label "alertname" (most_recent_alert_labels c)); [|done].
  do 2 (case_bool_decide; [done|]). done.
Qed.

Lemma foldl_score_fst alert c rs acc :
  (foldl (score_step alert c) acc rs).1
  = foldl (fun x r => fadd x (contribution (evaluate_rule r alert c))) acc.1 rs.
Proof. revert acc; induction rs as [|r rs IH]; intros acc; simpl; [done|]. by rewrite IH. Qed.

#[local] Opaque fadd fmul fmin flit.

Lemma default_score th w key related alert c :
  score_of (default_correlation_engine th w key related) alert c =
  fmin (default_sum (bool_decide (ctx_service alert = cand_service c))
          (bool_decide (ctx_environment alert = cand_environment c))
          (same_label "region" alert c) (same_label "dependency" alert c)
          (within w alert c) (related_kind related alert c)) fone.
Proof.
  unfold score_of, score_candidate. cbn [fst].
  rewrite foldl_score_fst. cbn [rules default_correlation_engine default_rules foldl fst].
  unfold same_region_rule, same_dependency_rule.
  rewrite same_service_contribution, same_environment_contribution,
    !same_label_value_contribution, temporal_contribution, related_contribution.
  reflexivity.
Qed.

#[local] Opaque fleb fzero fone is_nan.

(** Every combination of the signals, decided by computation: the alert type
    signal has three strengths, so the check is over 96 sums. *)
Definition min_sum (a b c d t : bool) (k : nat) : float := fmin (default_sum a b c d t k) fone.

Definition type_pct (k : nat) : Z := match k with O => 0 | S O => 17 | _ => 20 end.

Definition sum_ok (a b c d t : bool) (k : nat) : bool :=
  negb (is_nan (min_sum a b c d t k)) && fleb fzero (min_sum a b c d t k)
  && fleb (min_sum a b c d t k) fone
  && Bool.eqb (fleb DEFAULT_THRESHOLD (min_sum a b c d t k))
       (60 <=? pct a 30 + pct b 20 + pct c 10 + pct d 10 + pct t 20 + type_pct k).

Lemma min_sum_clip a b c d t k : min_sum a b c d t k = min_sum a b c d t (Nat.min k 2).
Proof. destruct k as [|[|[|k]]]; reflexivity. Qed.

Lemma type_pct_clip k : type_pct k = type_pct (Nat.min k 2).
Proof. by destruct k as [|[|[|k]]]. Qed.

Definition all_sums_ok : bool :=
  let bs := [true; false] in
  forallb (fun a => forallb (fun b => forallb (fun c => forallb (fun d => forallb (fun t =>
    forallb (fun k => sum_ok a b c d t k) [0; 1; 2]%nat) bs) bs) bs) bs) bs.

Lemma all_sums_ok_true : all_sums_ok = true.
Proof. vm_compute. reflexivity. Qed.

#[local] Opaque min_sum.

Lemma sum_ok_true a b c d t k : sum_ok a b c d t k = true.
Proof.
  unfold sum_ok. rewrite min_sum_clip, type_pct_clip. fold (sum_ok a b c d t (Nat.min k 2)).
  assert (Hb : forall x : bool, In x [true; false]) by (intros []; simpl; auto).
  assert (Hk : In (Nat.min k 2) [0; 1; 2]%nat)
    by (destruct k as [|[|[|k]]]; simpl; auto).
  pose proof all_sums_ok_true as H. unfold all_sums_ok in H.
  rewrite forallb_forall in H. specialize (H a (Hb a)).
  rewrite forallb_forall in H. specialize (H b (Hb b)).
  rewrite forallb_forall in H. specialize (H c (Hb c)).
  rewrite forallb_forall in H. specialize (H d (Hb d)).
  rewrite forallb_forall in H. specialize (H t (Hb t)).
  rewrite forallb_forall in H. exact (H _ Hk).
Qed.

Lemma min_sum_spec a b c d t k :
  is_nan (min_sum a b c d t k) = false /\
  fleb fzero (min_sum a b c d t k) = true /\
  fleb (min_sum a b c d t k) fone = true /\
  fleb DEFAULT_THRESHOLD (min_sum a b c d t k)
  = (60 <=? pct a 30 + pct b 20 + pct c 10 + pct d 10 + pct t 20 + type_pct k).
Proof.
  pose proof (sum_ok_true a b c d t k) as H. unfold sum_ok in H.
  apply andb_true_iff in H as [[[H1%negb_true_iff H2]%andb_true_iff H3]%andb_true_iff H4].
  apply Bool.eqb_prop in H4. auto.
Qed.

Definition signal_sum (w : Z) (related : gmap string (gset string))
    (alert : NewAlertContext) (c : CorrelationCandidate) : float :=
  min_sum (bool_decide (ctx_service alert = cand_service c))
    (bool_decide (ctx_environment alert = cand_environment c))
    (same_label "region" alert c) (same_label "dependency" alert c)
    (within w alert c) (related_kind related alert c).

Lemma default_score_sum th w key related alert c :
  score_of (default_correlation_engine th w key related) alert c = signal_sum w related alert c.
Proof. apply default_score. Qed.

Lemma default_scored th w key related : scored (default_correlation_engine th w key related).
Proof. intros alert c. rewrite default_score_sum. apply min_sum_spec. Qed.

Lemma default_threshold w key related alert c :
  fleb DEFAULT_THRESHOLD
    (score_of (default_correlation_engine DEFAULT_THRESHOLD w key related) alert c)
  = (60 <=? weight_pct w related alert c).
Proof. rewrite default_score_sum. apply min_sum_spec. Qed.

(** ** Properties *)

(** The engine attaches an alert to the first candidate of maximal score,
    and only when that score reaches the threshold; otherwise no candidate
    reaches it and the new incident's key is the configured key or the alert's
    fingerprint. *)
Theorem decide_spec e alert cs :
  scored e ->
  match decision (decide e alert cs) with
  | CORRELATE =>
      exists i c, wins e alert cs i c
        /\ fleb (threshold e) (score_of e alert c) = true
        /\ decide e alert cs =
           {| decision := CORRELATE; score := score_of e alert c;
              matched_signals := (score_candidate e alert c).2;
              matched_incident_id := Some (incident_id c);
              dec_correlation_key := correlation_key c |}
  | NEW_INCIDENT =>
      (forall c, c ∈ cs -> fleb (threshold e) (score_of e alert c) = false)
      /\ matched_incident_id (decide e alert cs) = None
      /\ dec_correlation_key (decide e alert cs) = new_key e alert
  end.
Proof.
  intros He. destruct (decision (decide e alert cs)) eqn:E.
  - destruct cs as [|c0 cs]; [done|].
    destruct (find_best_wins e alert He (c0 :: cs)) as (i & c & Hw & Hb); [done|].
    exists i, c. revert E. unfold decide. rewrite Hb; simpl.
    destruct (fleb _ _); [|done]. done.
  - split.
    + intros c Hc. destruct (fleb _ _) eqn:F; [|done].
      assert (decision (decide e alert cs) = CORRELATE) by (apply decide_correlate; eauto).
      congruence.
    + revert E. unfold decide. destruct (best_candidate _); [|done].
      by destruct (fleb _ _).
Qed.

(** With the default rules and threshold, float rounding never flips a
    decision: an alert joins an incident exactly when the decimal weights of the
    matching signals of some candidate sum to at least 0.60. *)
Theorem default_engine_correlates_iff w key related alert cs :
  decision (decide (default_correlation_engine DEFAULT_THRESHOLD w key related) alert cs)
    = CORRELATE
  <-> exists c, c ∈ cs /\ 60 <= weight_pct w related alert c.
Proof.
  rewrite decide_correlate by apply default_scored.
  change (threshold (default_correlation_engine DEFAULT_THRESHOLD w key related))
    with DEFAULT_THRESHOLD.
  split; intros (c & Hc & H); exists c; (split; [done|]);
    rewrite default_threshold in *; lia.
Qed.

(** The decision does not depend on the order the candidates are read in. *)
Theorem decide_order_insensitive e alert cs cs' :
  scored e -> cs ≡ₚ cs' ->
  decision (decide e alert cs) = decision (decide e alert cs').
Proof.
  intros He Hp.
  assert (Hiff : decision (decide e alert cs) = CORRELATE
                 <-> decision (decide e alert cs') = CORRELATE).
  { rewrite !decide_correlate by done. by setoid_rewrite Hp. }
  destruct (decision (decide e alert cs)), (decision (decide e alert cs')); naive_solver.
Qed.

(** Outside the window the temporal rule contributes nothing at all: there
    is no band in which its weight decays. *)
Theorem temporal_rule_has_no_decay weight window alert c :
  seconds window < Z.abs (ctx_received_at alert - most_recent_alert_received_at c) ->
  evaluate_rule (TemporalProximityRule weight window) alert c = no_signal.
Proof. intros H. simpl. unfold temporal_proximity. by destruct (Z.leb_spec (Z.abs (ctx_received_at alert - most_recent_alert_received_at c)) (seconds window)); [lia|]. Qed.

(** *** Witnesses *)

Definition ex_alert : NewAlertContext :=
  {| ctx_source := "prometheus"; ctx_fingerprint := "fp";
     ctx_labels := {["alertname" := "HighErrorRate"; "region" := "eu"]};
     ctx_service := "checkout"; ctx_environment := "production";
     ctx_received_at := seconds 1000 |}.

Definition ex_candidate (id : uuid) (region : string) (at_ : Z) : CorrelationCandidate :=
  {| incident_id := id; correlation_key := "k"; cand_status := "TRIAGING";
     cand_service := "checkout"; cand_environment := "production";
     most_recent_alert_received_at := at_;
     most_recent_alert_labels := {["alertname" := "HighLatency"; "region" := region]};
     most_recent_alert_fingerprint := "fp2" |}.

Definition ex_engine : CorrelationEngine :=
  default_correlation_engine DEFAULT_THRESHOLD 90 None ∅.

Lemma decide_spec_witness :
  decision (decide ex_engine ex_alert
    [ex_candidate 1 "us" 0; ex_candidate 2 "eu" (seconds 950)]) = CORRELATE /\
  exists i c, wins ex_engine ex_alert
    [ex_candidate 1 "us" 0; ex_candidate 2 "eu" (seconds 950)] i c.
Proof.
  split; [vm_compute; reflexivity|].
  pose proof (decide_spec ex_engine ex_alert
    [ex_candidate 1 "us" 0; ex_candidate 2 "eu" (seconds 950)]
    (default_scored DEFAULT_THRESHOLD 90 None ∅)) as H.
  assert (decision (decide ex_engine ex_alert
    [ex_candidate 1 "us" 0; ex_candidate 2 "eu" (seconds 950)]) = CORRELATE) as E
    by (vm_compute; reflexivity).
  rewrite E in H. destruct H as (i & c & Hw & _). by exists i, c.
Defined.

Lemma decide_order_insensitive_witness :
  [ex_candidate 1 "us" 0; ex_candidate 2 "eu" 5]
    ≡ₚ [ex_candidate 2 "eu" 5; ex_candidate 1 "us" 0] /\
  decision (decide ex_engine ex_alert [ex_candidate 1 "us" 0; ex_candidate 2 "eu" 5])
  = decision (decide ex_engine ex_alert [ex_candidate 2 "eu" 5; ex_candidate 1 "us" 0]).
Proof.
  split; [apply perm_swap|].
  apply (decide_order_insensitive ex_engine ex_alert); [apply default_scored|apply perm_swap].
Defined.

Lemma temporal_rule_has_no_decay_witness :
  evaluate_rule (TemporalProximityRule (flit 2 1) 90) ex_alert
    (ex_candidate 1 "us" (seconds 880)) = no_signal.
Proof. apply temporal_rule_has_no_decay. vm_compute. reflexivity. Defined.

End Engine.
