(* ===== verification/VerificationDomain.v ===== *)
(** * Verification domain ([packages/domain/verification.py])

    Pure decision logic: resolving a catalog verification policy into a spec,
    evaluating one observed sample against it, and deciding after each poll
    whether to keep observing, pass, fail or time out. *)
From S2P Require Import Prelude PyFloat Json Enums.
Local Open Scope Z_scope.

Definition VERIFICATION_POLICY_VERSION : string := "verification-2026.09-1".

Inductive CheckKind :=
| state_deployment_version | state_config_value | state_flag | state_replicas
| health_status | metric_max | alerts_no_new_firing.
#[export] Instance CheckKind_eq_dec : EqDecision CheckKind.
Proof. solve_decision. Defined.

Definition STATE_CHECKS : list CheckKind :=
  [state_deployment_version; state_config_value; state_flag; state_replicas].

Definition TERMINAL_VERIFICATION_STATUSES : list VerificationStatus :=
  [V_PASSED; V_FAILED; V_TIMED_OUT].

Record CheckTemplate := CheckTemplate_mk {
  t_kind : CheckKind; t_metric : option string; t_max_value : option float
}.

Record VerificationPolicy := VerificationPolicy_mk {
  p_grace_seconds : Z;
  p_window_seconds : Z;
  p_poll_interval_seconds : Z;
  p_required_consecutive : Z;
  baseline_required : bool;
  p_checks : list CheckTemplate;
}.

Definition p_timeout_seconds (p : VerificationPolicy) : Z :=
  p_grace_seconds p + p_window_seconds p + 2 * p_poll_interval_seconds p.

Record CheckSpec := {
  c_kind : CheckKind;
  c_metric : option string;
  c_max_value : option float;
  c_key : option string;
  c_expected : json;
  c_definitive : bool;
}.

Record VerificationSpec := {
  policy_version : string;
  s_action_id : string;
  s_target_service : string;
  s_grace_seconds : float;
  s_window_seconds : float;
  s_poll_interval_seconds : float;
  s_timeout_seconds : float;
  required_consecutive : Z;
  s_checks : list CheckSpec;
}.

(** [VerificationSpec.needs] *)
Definition need_of (k : CheckKind) : option string :=
  match k with
  | state_deployment_version => Some "deployment"
  | state_config_value => Some "config"
  | state_flag | state_replicas => Some "runtime"
  | _ => None
  end.
Definition needs (s : VerificationSpec) : gset string :=
  foldl (fun wanted c => match need_of (c_kind c) with
                         | Some n => {[n]} ∪ wanted
                         | None => wanted
                         end) {["health"]} (s_checks s).

Definition check (k : CheckKind) : CheckSpec :=
  {| c_kind := k; c_metric := None; c_max_value := None; c_key := None;
     c_expected := JNull; c_definitive := false |}.

(** A field declared [str | None], given a dynamic value. *)
Definition opt_str_field (j : json) : result (option string) :=
  match j with
  | JNull => Ok None
  | JStr s => Ok (Some s)
  | _ => Err (ValidationError "Input should be a valid string")
  end.

Definition dict_get (k : string) (d : list (string * json)) : json := jget k (JObj d).

(** The [(baseline or {}).get("runtime") or {}).get("replicas")] chain. *)
Definition baseline_replicas (baseline : option json) : json :=
  jget "replicas" (or_empty (jget "runtime" (or_empty (opt_json baseline)))).

Definition build_check (parameters : list (string * json)) (baseline : option json)
    (t : CheckTemplate) : result CheckSpec :=
  match t_kind t with
  | state_deployment_version =>
      Ok {| c_kind := t_kind t; c_metric := None; c_max_value := None; c_key := None;
            c_expected := dict_get "to_version" parameters; c_definitive := true |}
  | state_config_value =>
      key <-! opt_str_field (dict_get "key" parameters);
      Ok {| c_kind := t_kind t; c_metric := None; c_max_value := None; c_key := key;
            c_expected := dict_get "to_value" parameters; c_definitive := true |}
  | state_flag =>
      key <-! opt_str_field (dict_get "flag" parameters);
      Ok {| c_kind := t_kind t; c_metric := None; c_max_value := None; c_key := key;
            c_expected := JStr "false"; c_definitive := true |}
  | state_replicas =>
      let before := baseline_replicas baseline in
      expected <-! (if is_null before then Ok JNull
                    else b <-! py_int before;
                         i <-! py_int (default (JInt 0) (assoc_get "increase_by" parameters));
                         Ok (JInt (b + i)));
      Ok {| c_kind := t_kind t; c_metric := None; c_max_value := None; c_key := None;
            c_expected := expected; c_definitive := true |}
  | health_status =>
      Ok {| c_kind := t_kind t; c_metric := None; c_max_value := None; c_key := None;
            c_expected := JStr "healthy"; c_definitive := false |}
  | metric_max =>
      Ok {| c_kind := t_kind t; c_metric := t_metric t; c_max_value := t_max_value t;
            c_key := None; c_expected := JNull; c_definitive := false |}
  | alerts_no_new_firing =>
      Ok {| c_kind := t_kind t; c_metric := None; c_max_value := None; c_key := None;
            c_expected := JInt 0; c_definitive := false |}
  end.

Fixpoint rmap {A B} (f : A -> result B) (l : list A) : result (list B) :=
  match l with
  | [] => Ok []
  | a :: l' => b <-! f a; bs <-! rmap f l'; Ok (b :: bs)
  end.

Definition scaled (n : Z) (scale : float) : result float :=
  x <-! float_of_int n; Ok (fmul x scale).

Definition build_spec (policy : VerificationPolicy) (action_id : string)
    (parameters : list (string * json)) (baseline : option json) (time_scale : float)
    : result VerificationSpec :=
  checks <-! rmap (build_check parameters baseline) (p_checks policy);
  let scale := fmax time_scale fzero in
  grace <-! scaled (p_grace_seconds policy) scale;
  window <-! scaled (p_window_seconds policy) scale;
  poll <-! scaled (p_poll_interval_seconds policy) scale;
  timeout <-! scaled (p_timeout_seconds policy) scale;
  Ok {| policy_version := VERIFICATION_POLICY_VERSION;
        s_action_id := action_id;
        s_target_service := py_str (default (JStr "") (assoc_get "service" parameters));
        s_grace_seconds := grace;
        s_window_seconds := window;
        s_poll_interval_seconds := poll;
        s_timeout_seconds := timeout;
        required_consecutive := p_required_consecutive policy;
        s_checks := checks |}.

(** [model_dump(mode="json")] of a spec. *)
Definition CheckKind_value (k : CheckKind) : string :=
  match k with
  | state_deployment_version => "state.deployment_version"
  | state_config_value => "state.config_value"
  | state_flag => "state.flag"
  | state_replicas => "state.replicas"
  | health_status => "health.status"
  | metric_max => "metric.max"
  | alerts_no_new_firing => "alerts.no_new_firing"
  end.

Definition opt_float_json (o : option float) : json :=
  match o with Some x => JFloat x | None => JNull end.

Definition check_dump (c : CheckSpec) : json :=
  JObj [("kind", JStr (CheckKind_value (c_kind c))); ("metric", jopt_str (c_metric c));
        ("max_value", opt_float_json (c_max_value c)); ("key", jopt_str (c_key c));
        ("expected", c_expected c); ("definitive", JBool (c_definitive c))].

Definition spec_dump (s : VerificationSpec) : json :=
  JObj [("policy_version", JStr (policy_version s)); ("action_id", JStr (s_action_id s));
        ("target_service", JStr (s_target_service s));
        ("grace_seconds", JFloat (s_grace_seconds s));
        ("window_seconds", JFloat (s_window_seconds s));
        ("poll_interval_seconds", JFloat (s_poll_interval_seconds s));
        ("timeout_seconds", JFloat (s_timeout_seconds s));
        ("required_consecutive", JInt (required_consecutive s));
        ("checks", JArr (map check_dump (s_checks s)))].

(** ** Samples *)

Record Sample := {
  health : option json;
  deployment : option json;
  config : option json;
  runtime : option json;
  new_firing_alerts : option Z;
  errors : list string;
}.
#[export] Instance Sample_rebuild : Rebuild Sample := fun r =>
  Build_Sample (health r) (deployment r) (config r) (runtime r) (new_firing_alerts r) (errors r).

Record CheckResult := {
  r_kind : CheckKind;
  ok : option bool;
  observed : json;
  r_expected : json;
  detail : string;
}.

Record ObservationResult := {
  passed : bool;
  conclusive : bool;
  definitive_failure : option string;
  o_checks : list CheckResult;
}.

(** [(source or {})] for an optional dictionary. *)
Definition source (o : option json) : json := or_empty (opt_json o).

(** [v.get(k)]: only a dictionary has it. *)
Definition attr (k : string) (j : json) : result json :=
  match j with
  | JObj _ => Ok (jget k j)
  | _ => Err (AttributeError "object has no attribute 'get'")
  end.

(** The value of a named health signal, as a float. *)
Definition metric (sample : Sample) (name : option string) : result (option float) :=
  signals <-! attr "signals" (source (health sample));
  value <-! match name with
            | Some n => if nonempty n then attr n (or_empty signals) else Ok JNull
            | None => Ok JNull
            end;
  as_number (match value with JObj _ => jget "value" value | _ => value end).

(** [None if src is None else b] *)
Definition unless_missing (src : option json) (b : bool) : option bool :=
  match src with None => None | Some _ => Some b end.

Definition key_or_empty (c : CheckSpec) : string := default "" (c_key c).

(** [str(c.key)] inside an f-string. *)
Definition show_opt (o : option string) : string := py_str (jopt_str o).

Definition evaluate_check (sample : Sample) (c : CheckSpec)
    : result (json * option bool * string) :=
  match c_kind c with
  | state_deployment_version =>
      obs <-! (if truthy (opt_json (deployment sample))
               then attr "version" (source (deployment sample)) else Ok JNull);
      Ok (obs, unless_missing (deployment sample) (py_eq obs (c_expected c)),
          "running " +++ py_repr obs +++ ", expected " +++ py_repr (c_expected c))
  | state_config_value =>
      effective <-! attr "effective" (source (config sample));
      obs <-! attr (key_or_empty c) (or_empty effective);
      Ok (obs, unless_missing (config sample)
                 (bool_decide (py_str obs = py_str (c_expected c))),
          show_opt (c_key c) +++ " is " +++ py_repr obs +++ ", expected "
            +++ py_repr (c_expected c))
  | state_flag =>
      flags <-! attr "flags" (source (runtime sample));
      obs <-! attr (key_or_empty c) (or_empty flags);
      Ok (obs, unless_missing (runtime sample) (bool_decide (lower (py_str obs) = "false")),
          "flag " +++ show_opt (c_key c) +++ " is " +++ py_repr obs +++ ", expected off")
  | state_replicas =>
      obs <-! attr "replicas" (source (runtime sample));
      Ok (obs, if is_null (c_expected c) then None
               else unless_missing (runtime sample) (py_eq obs (c_expected c)),
          py_str obs +++ " replicas, expected " +++ py_str (c_expected c))
  | health_status =>
      obs <-! attr "status" (source (health sample));
      Ok (obs, unless_missing (health sample) (py_eq obs (JStr "healthy")),
          "service is " +++ py_str obs)
  | metric_max =>
      m <-! metric sample (c_metric c);
      Ok (opt_float_json m,
          (fun x => fleb x (default fzero (c_max_value c))) <$> m,
          show_opt (c_metric c) +++ " " +++ py_str (opt_float_json m) +++ " vs max "
            +++ py_str (opt_float_json (c_max_value c)))
  | alerts_no_new_firing =>
      let obs := new_firing_alerts sample in
      Ok (jopt_int obs, (fun n => (n =? 0)%Z) <$> obs,
          py_str (jopt_int obs) +++ " alert(s) fired since verification started")
  end.

Definition check_result (sample : Sample) (c : CheckSpec) : result CheckResult :=
  r <-! evaluate_check sample c;
  let '(obs, o, d) := r in
  Ok {| r_kind := c_kind c; ok := o; observed := obs;
        r_expected := if bool_decide (c_kind c = metric_max)
                      then opt_float_json (c_max_value c) else c_expected c;
        detail := d |}.

Definition is_true (o : option bool) : bool := match o with Some b => b | None => false end.
Definition is_false (o : option bool) : bool :=
  match o with Some false => true | _ => false end.
Definition known (o : option bool) : bool := match o with Some _ => true | None => false end.

(** The detail of the first definitive check that is false. *)
Fixpoint definitive_of (cs : list CheckSpec) (rs : list CheckResult) : option string :=
  match cs, rs with
  | c :: cs', r :: rs' =>
      if c_definitive c && is_false (ok r) then Some (detail r) else definitive_of cs' rs'
  | _, _ => None
  end.

Definition evaluate_sample (spec : VerificationSpec) (sample : Sample)
    : result ObservationResult :=
  results <-! rmap (check_result sample) (s_checks spec);
  let conc := match errors sample with [] => forallb (fun r => known (ok r)) results
                                     | _ => false end in
  Ok {| passed := conc && forallb (fun r => is_true (ok r)) results;
        conclusive := conc;
        definitive_failure := definitive_of (s_checks spec) results;
        o_checks := results |}.

(** ** Verdicts *)
Module Verdict.

Record Decision := { status : VerificationStatus; reason : option string }.

Definition failing_details (latest : option ObservationResult) : string :=
  match latest with
  | Some o => join "; " (map detail (filter (fun r => is_false (ok r) = true) (o_checks o)))
  | None => ""
  end.

Definition no_conclusive : string :=
  "no conclusive observation before the deadline (evidence unavailable)".

(** [latest is not None and latest.definitive_failure] *)
Definition definitive (latest : option ObservationResult) : option string :=
  match latest with
  | Some o => match definitive_failure o with
              | Some d => if nonempty d then Some d else None
              | None => None
              end
  | None => None
  end.

Definition window_closed (spec : VerificationSpec) (latest : option ObservationResult)
    (consecutive_successes : Z) : string :=
  let failing := failing_details latest in
  str_Z consecutive_successes +++ "/" +++ str_Z (required_consecutive spec)
    +++ " consecutive successful observations when the window closed"
    +++ (if nonempty failing then " (" +++ failing +++ ")" else "").

Definition decide (spec : VerificationSpec) (latest : option ObservationResult)
    (consecutive_successes conclusive_observations : Z) (now deadline : instant) : Decision :=
  match definitive latest with
  | Some d => {| status := V_FAILED; reason := Some d |}
  | None =>
      if required_consecutive spec <=? consecutive_successes
      then {| status := V_PASSED; reason := None |}
      else if deadline <=? now then
        if conclusive_observations =? 0
        then {| status := V_TIMED_OUT; reason := Some no_conclusive |}
        else {| status := V_FAILED;
                reason := Some (window_closed spec latest consecutive_successes) |}
      else {| status := V_RUNNING; reason := None |}
  end.

End Verdict.

(** ** Lemmas *)

Lemma rmap_Ok {A B} (f : A -> result B) l bs :
  rmap f l = Ok bs -> Forall2 (fun a b => f a = Ok b) l bs.
Proof.
  revert bs; induction l as [|a l IH]; simpl; intros bs H; [by simplify_eq|].
  apply rbind_Ok in H as (b & Hb & H). apply rbind_Ok in H as (bs' & Hbs & H).
  simplify_eq. constructor; auto.
Qed.

Lemma definitive_of_false cs rs d :
  definitive_of cs rs = Some d -> exists r, r ∈ rs /\ ok r = Some false /\ detail r = d.
Proof.
  revert rs; induction cs as [|c cs IH]; intros [|r rs]; simpl; try done.
  destruct (c_definitive c && is_false (ok r)) eqn:E.
  - intros [= <-]. apply andb_true_iff in E as [_ E]. exists r.
    destruct (ok r) as [[]|]; naive_solver set_solver.
  - intros H. destruct (IH _ H) as (r' & ? & ?). set_solver.
Qed.

Lemma forallb_Forall {A} (p : A -> bool) l :
  forallb p l = true <-> Forall (fun x => p x = true) l.
Proof. rewrite forallb_forall, Forall_forall. by setoid_rewrite list_elem_of_In. Qed.

Lemma evaluate_sample_shape spec s o :
  evaluate_sample spec s = Ok o ->
  Forall2 (fun c r => check_result s c = Ok r) (s_checks spec) (o_checks o)
  /\ conclusive o = match errors s with
                    | [] => forallb (fun r => known (ok r)) (o_checks o) | _ => false end
  /\ passed o = conclusive o && forallb (fun r => is_true (ok r)) (o_checks o)
  /\ definitive_failure o = definitive_of (s_checks spec) (o_checks o).
Proof.
  unfold evaluate_sample. intros H. apply rbind_Ok in H as (rs & Hrs & H).
  simplify_eq; simpl. by apply rmap_Ok in Hrs.
Qed.

(** ** Properties *)

(** An observation passes exactly when no evidence source failed and every
    check was evaluated and holds; a passing observation is conclusive and
    carries no definitive failure. *)
Theorem evaluate_sample_passed spec s o :
  evaluate_sample spec s = Ok o ->
  (passed o = true <-> errors s = [] /\ Forall (fun r => ok r = Some true) (o_checks o))
  /\ (passed o = true -> conclusive o = true /\ definitive_failure o = None).
Proof.
  intros (Hck & Hc & Hp & Hd)%evaluate_sample_shape.
  assert (Hiff : passed o = true <->
    errors s = [] /\ Forall (fun r => ok r = Some true) (o_checks o)).
  { rewrite Hp, Hc, andb_true_iff, (forallb_Forall (fun r => is_true (ok r))).
    split.
    - intros [Hk Ht]. destruct (errors s); [|done]. split; [done|].
      eapply Forall_impl; [exact Ht|]. intros r Hr; simpl in Hr. by destruct (ok r) as [[]|].
    - intros [-> Ht]. rewrite (forallb_Forall (fun r => known (ok r))).
      split; eapply Forall_impl; try exact Ht; simpl; by intros r ->. }
  split; [done|]. intros Hpass. rewrite Hp in Hpass.
  apply andb_true_iff in Hpass as [Hconc Ht]. split; [done|].
  rewrite Hd. destruct (definitive_of _ _) as [d|] eqn:E; [|done].
  apply definitive_of_false in E as (r & Hr & Hf & _).
  apply forallb_Forall in Ht. rewrite Forall_forall in Ht.
  specialize (Ht r Hr). simpl in Ht. by rewrite Hf in Ht.
Qed.

(** The verdict, on every branch.  A definitive failure fails at once; else
    enough consecutive successes pass, even at the deadline; else the deadline
    times out (nothing conclusive) or fails; else observation continues.  In
    particular no verdict is left open at the deadline. *)
Theorem decide_verdict spec latest succ concl now deadline :
  let d := Verdict.decide spec latest succ concl now deadline in
  (Verdict.status d = V_PASSED <->
     Verdict.definitive latest = None /\ required_consecutive spec <= succ)
  /\ (Verdict.status d = V_RUNNING <->
     Verdict.definitive latest = None /\ succ < required_consecutive spec /\ now < deadline)
  /\ (Verdict.status d = V_TIMED_OUT <->
     Verdict.definitive latest = None /\ succ < required_consecutive spec
     /\ deadline <= now /\ concl = 0)
  /\ (Verdict.status d = V_FAILED <->
     Verdict.definitive latest <> None \/
     (succ < required_consecutive spec /\ deadline <= now /\ concl <> 0))
  /\ Verdict.status d <> V_PENDING.
Proof.
  unfold Verdict.decide; cbv zeta.
  destruct (Verdict.definitive latest);
    [|destruct (Z.leb_spec (required_consecutive spec) succ);
      [|destruct (Z.leb_spec deadline now); [destruct (Z.eqb_spec concl 0)|]]];
    simpl; repeat split; intros; destruct_and?; try done; try lia; auto.
  all: naive_solver lia.
Qed.

Lemma build_check_kind ps b t c :
  build_check ps b t = Ok c ->
  c_kind c = t_kind t /\ c_definitive c = bool_decide (t_kind t ∈ STATE_CHECKS)
  /\ (t_kind t = state_deployment_version -> c_expected c = dict_get "to_version" ps)
  /\ (t_kind t = state_config_value -> c_expected c = dict_get "to_value" ps)
  /\ (t_kind t = metric_max -> c_metric c = t_metric t /\ c_max_value c = t_max_value t).
Proof.
  unfold build_check. destruct (t_kind t) eqn:Ek; intros H;
    repeat (apply rbind_Ok in H as (? & ? & H)); simplify_eq; simpl; repeat split; done.
Qed.

(** The spec has one check per template, in order; exactly the state checks
    are definitive, and what they expect comes from the approved parameters. *)
Theorem build_spec_checks policy action_id ps baseline scale spec :
  build_spec policy action_id ps baseline scale = Ok spec ->
  Forall2 (fun t c =>
    c_kind c = t_kind t
    /\ c_definitive c = bool_decide (t_kind t ∈ STATE_CHECKS)
    /\ (t_kind t = state_deployment_version -> c_expected c = dict_get "to_version" ps)
    /\ (t_kind t = state_config_value -> c_expected c = dict_get "to_value" ps)
    /\ (t_kind t = metric_max -> c_metric c = t_metric t /\ c_max_value c = t_max_value t))
    (p_checks policy) (s_checks spec)
  /\ required_consecutive spec = p_required_consecutive policy
  /\ s_action_id spec = action_id.
Proof.
  unfold build_spec. intros H. apply rbind_Ok in H as (cs & Hcs & H).
  do 4 (apply rbind_Ok in H as (? & ? & H)). simplify_eq; simpl.
  split; [|done]. eapply Forall2_impl; [by apply rmap_Ok|].
  intros t c. apply build_check_kind.
Qed.

(** *** Witnesses *)

Definition ex_policy : VerificationPolicy :=
  VerificationPolicy_mk 60 300 15 3 true
    [CheckTemplate_mk state_deployment_version None None;
     CheckTemplate_mk metric_max (Some "error_rate") (Some (flit 5 2))].

Definition ex_params : list (string * json) :=
  [("service", JStr "checkout"); ("from_version", JStr "2"); ("to_version", JStr "1")].

Definition ex_spec : VerificationSpec :=
  match build_spec ex_policy "rollback_deployment" ex_params None fone with
  | Ok s => s
  | Err _ => {| policy_version := ""; s_action_id := ""; s_target_service := "";
               s_grace_seconds := fzero; s_window_seconds := fzero;
               s_poll_interval_seconds := fzero; s_timeout_seconds := fzero;
               required_consecutive := 0; s_checks := [] |}
  end.

Definition ex_sample (version : string) : Sample :=
  {| health := Some (JObj [("status", JStr "healthy");
                           ("signals", JObj [("error_rate", JFloat (flit 1 2))])]);
     deployment := Some (JObj [("version", JStr version)]);
     config := None; runtime := None; new_firing_alerts := Some 0; errors := [] |}.

Definition ex_observation : ObservationResult :=
  match evaluate_sample ex_spec (ex_sample "1") with
  | Ok o => o
  | Err _ => {| passed := false; conclusive := false; definitive_failure := None; o_checks := [] |}
  end.

Lemma evaluate_sample_passed_witness :
  evaluate_sample ex_spec (ex_sample "1") = Ok ex_observation
  /\ passed ex_observation = true /\ definitive_failure ex_observation = None.
Proof.
  assert (evaluate_sample ex_spec (ex_sample "1") = Ok ex_observation) as E
    by (vm_compute; reflexivity).
  destruct (evaluate_sample_passed _ _ _ E) as [_ H].
  split; [exact E|]. split; [vm_compute; reflexivity|].
  apply H. vm_compute. reflexivity.
Defined.

Lemma build_spec_checks_witness :
  build_spec ex_policy "rollback_deployment" ex_params None fone = Ok ex_spec
  /\ required_consecutive ex_spec = 3.
Proof.
  assert (build_spec ex_policy "rollback_deployment" ex_params None fone = Ok ex_spec) as E
    by (vm_compute; reflexivity).
  split; [exact E|]. destruct (build_spec_checks _ _ _ _ _ _ E) as (_ & -> & _).
  vm_compute. reflexivity.
Defined.
