(* ===== verification/Catalog.v ===== *)
(** * The action catalog ([packages/remediation/catalog.py])

    The five catalog entries, their strict parameter models and the blast radius
    of an invocation.  Parameter models are validated by pydantic, which is not
    part of the repository: the field declarations (required fields, patterns,
    bounds, forbidden extras) are modelled from the source, and what pydantic
    itself decides (which dynamic values it reads as an [int] or a [str], its
    message texts) is the interface [Pydantic]. *)
From Stdlib Require Ascii.
From S2P Require Import Prelude PyFloat Json VerificationDomain.

Definition CATALOG_VERSION : string := "catalog-2026.09-1".

(** ** What is relied on from pydantic *)
Class Pydantic := {
  lax_int : json -> option Z;
  lax_str : json -> option string;
  msg_missing : string;
  msg_extra : string;
  msg_str : string;
  msg_int : string;
  msg_pattern : string -> string;
  msg_ge : Z -> string;
  msg_le : Z -> string;
  (** the errors of a value outside [str | int | float | bool | None], one per
      member: (location suffix, message) *)
  union_errors : json -> list (string * string);
  lax_int_int : forall n, lax_int (JInt n) = Some n;
  lax_str_iff : forall j s, lax_str j = Some s <-> j = JStr s;
  union_errors_nonempty : forall j, union_errors j <> [];
}.

(** ** Patterns *)

Definition ascii_in (lo hi : nat) (c : Ascii.ascii) : bool :=
  bool_decide (lo <= Ascii.nat_of_ascii c) && bool_decide (Ascii.nat_of_ascii c <= hi).
Definition is_lower (c : Ascii.ascii) : bool := ascii_in 97 122 c.
Definition is_upper (c : Ascii.ascii) : bool := ascii_in 65 90 c.
Definition is_digit (c : Ascii.ascii) : bool := ascii_in 48 57 c.
Definition is_char (n : nat) (c : Ascii.ascii) : bool := ascii_in n n c.

Fixpoint all_chars (p : Ascii.ascii -> bool) (s : string) : bool :=
  match s with EmptyString => true | String c s' => p c && all_chars p s' end.

(** [^first rest{0,n}$] *)
Definition matches (first rest : Ascii.ascii -> bool) (n : nat) (s : string) : bool :=
  match s with
  | EmptyString => false
  | String c s' => first c && all_chars rest s' && bool_decide (String.length s' <= n)
  end.

Definition alnum (c : Ascii.ascii) : bool := is_lower c || is_upper c || is_digit c.

Record Pattern := { pat_source : string; pat_matches : string -> bool }.

Definition _SERVICE : Pattern :=
  {| pat_source := "^[a-z0-9][a-z0-9-]{0,62}$";
     pat_matches := matches (fun c => is_lower c || is_digit c)
       (fun c => is_lower c || is_digit c || is_char 45 c) 62 |}.
Definition _VERSION : Pattern :=
  {| pat_source := "^[A-Za-z0-9][A-Za-z0-9._+-]{0,63}$";
     pat_matches := matches alnum
       (fun c => alnum c || is_char 46 c || is_char 95 c || is_char 43 c || is_char 45 c) 63 |}.
Definition _KEY : Pattern :=
  {| pat_source := "^[A-Za-z0-9][A-Za-z0-9._-]{0,127}$";
     pat_matches := matches alnum
       (fun c => alnum c || is_char 46 c || is_char 95 c || is_char 45 c) 127 |}.

(** ** Validation *)

Abbreviation params_t := (list (string * json)).

(** A validated parameter model, one constructor per class. *)
Inductive Params : Type :=
| RestartServiceParams (service : string)
| ScaleServiceParams (service : string) (increase_by : Z)
| RollbackDeploymentParams (service from_version to_version : string)
| DisableFeatureFlagParams (service flag : string)
| RevertConfigurationParams (service key : string) (from_value to_value : json).

Definition params_service (p : Params) : string :=
  match p with
  | RestartServiceParams s | ScaleServiceParams s _ | RollbackDeploymentParams s _ _
  | DisableFeatureFlagParams s _ | RevertConfigurationParams s _ _ _ => s
  end.

Inductive ParamsClass := CRestart | CScale | CRollback | CDisableFlag | CRevertConfig.
#[export] Instance ParamsClass_eq_dec : EqDecision ParamsClass.
Proof. solve_decision. Defined.

(** A value, or the problems found: errors of several fields accumulate. *)
Definition checked (A : Type) : Type := A + list string.

Definition both {A B C} (f : A -> B -> C) (x : checked A) (y : checked B) : checked C :=
  match x, y with
  | inl a, inl b => inl (f a b)
  | inl _, inr q => inr q
  | inr p, inl _ => inr p
  | inr p, inr q => inr (p ++ q)
  end.

Section Validation.
Context `{Pydantic}.

Definition problem (loc msg : string) : string := loc +++ ": " +++ msg.

Definition field {A} (name : string) (parse : json -> checked A) (d : params_t)
    : checked A :=
  match assoc_get name d with
  | Some j => parse j
  | None => inr [problem name msg_missing]
  end.

Definition str_field (name : string) (p : Pattern) : params_t -> checked string :=
  field name (fun j =>
    match lax_str j with
    | None => inr [problem name msg_str]
    | Some s => if pat_matches p s then inl s
                else inr [problem name (msg_pattern (pat_source p))]
    end).

Definition int_field (name : string) (ge le : Z) : params_t -> checked Z :=
  field name (fun j =>
    match lax_int j with
    | None => inr [problem name msg_int]
    | Some n => if (n <? ge)%Z then inr [problem name (msg_ge ge)]
                else if (le <? n)%Z then inr [problem name (msg_le le)]
                else inl n
    end).

(** [str | int | float | bool | None] *)
Definition scalar_field (name : string) : params_t -> checked json :=
  field name (fun j =>
    match j with
    | JArr _ | JObj _ => inr (map (fun e => problem (name +++ "." +++ e.1) e.2) (union_errors j))
    | _ => inl j
    end).

Definition to_value_field (d : params_t) : checked json :=
  match scalar_field "to_value" d with
  | inl JNull => inr [problem "to_value" "Value error, no previous value to revert to"]
  | r => r
  end.

(** [extra="forbid"] *)
Definition no_extra (allowed : list string) (d : params_t) : checked unit :=
  match filter (fun k => k ∉ allowed) d.*1 with
  | [] => inl tt
  | l => inr (map (fun k => problem k msg_extra) l)
  end.

Definition with_extra {A} (x : checked A) (allowed : list string) (d : params_t) : checked A :=
  both (fun a _ => a) x (no_extra allowed d).

Definition service_field : params_t -> checked string := str_field "service" _SERVICE.

Definition model_validate (c : ParamsClass) (d : params_t) : checked Params :=
  match c with
  | CRestart =>
      with_extra (both (fun s _ => RestartServiceParams s) (service_field d) (inl tt))
        ["service"] d
  | CScale =>
      with_extra (both ScaleServiceParams (service_field d) (int_field "increase_by" 1 5 d))
        ["service"; "increase_by"] d
  | CRollback =>
      with_extra
        (both (fun f t => f t)
           (both RollbackDeploymentParams (service_field d) (str_field "from_version" _VERSION d))
           (str_field "to_version" _VERSION d))
        ["service"; "from_version"; "to_version"] d
  | CDisableFlag =>
      with_extra (both DisableFeatureFlagParams (service_field d) (str_field "flag" _KEY d))
        ["service"; "flag"] d
  | CRevertConfig =>
      with_extra
        (both (fun f t => f t)
           (both (fun f v => f v)
              (both RevertConfigurationParams (service_field d) (str_field "key" _KEY d))
              (scalar_field "from_value" d))
           (to_value_field d))
        ["service"; "key"; "from_value"; "to_value"] d
  end.
End Validation.

(** ** Entries *)

Record ActionCatalogEntry := {
  action_id : string;
  version : string;
  description : string;
  parameters : ParamsClass;
  allowed_environments : list string;
  base_blast_radius : Z;
  max_blast_radius : Z;
  approval_mandatory : bool;
  auto_execution_allowed : bool;
  timeout_seconds : Z;
  max_attempts : Z;
  retry_safe : bool;
  requires_rca : bool;
  target_must_match_root_cause : bool;
  verification : VerificationPolicy;
}.

(** [validate]: the parsed parameters, or [None] with the problems. *)
Definition validate `{Pydantic} (e : ActionCatalogEntry) (d : params_t)
    : option Params * list string :=
  match model_validate (parameters e) d with
  | inl p => (Some p, [])
  | inr problems => (None, problems)
  end.

Definition blast_radius (e : ActionCatalogEntry) (p : Params) : Z :=
  match p with
  | ScaleServiceParams _ n =>
      if (2 <? n)%Z then (base_blast_radius e + 1)%Z else base_blast_radius e
  | _ => base_blast_radius e
  end.

Definition _ENVS : list string := ["production"; "staging"].
Definition _HEALTHY : CheckTemplate := CheckTemplate_mk health_status None None.
Definition _NO_NEW_ALERTS : CheckTemplate := CheckTemplate_mk alerts_no_new_firing None None.
Definition _ERRORS_OK : CheckTemplate :=
  CheckTemplate_mk metric_max (Some "error_rate") (Some (flit 5 2)).
Definition _LATENCY_OK : CheckTemplate :=
  CheckTemplate_mk metric_max (Some "latency_p95") (Some (flit 10 1)).
Definition state_check (k : CheckKind) : CheckTemplate := CheckTemplate_mk k None None.

Definition entry_restart_service : ActionCatalogEntry :=
  {| action_id := "restart_service"; version := "1";
     description := "Rolling restart of every instance of one service.";
     parameters := CRestart; allowed_environments := _ENVS;
     base_blast_radius := 1; max_blast_radius := 1;
     approval_mandatory := true; auto_execution_allowed := false;
     timeout_seconds := 120; max_attempts := 2; retry_safe := true;
     requires_rca := true; target_must_match_root_cause := true;
     verification := VerificationPolicy_mk 45 240 15 3 true
       [_HEALTHY; _ERRORS_OK; _NO_NEW_ALERTS] |}%Z.

Definition entry_scale_service : ActionCatalogEntry :=
  {| action_id := "scale_service"; version := "1";
     description := "Add a bounded number of instances to one service.";
     parameters := CScale; allowed_environments := _ENVS;
     base_blast_radius := 1; max_blast_radius := 2;
     approval_mandatory := true; auto_execution_allowed := false;
     timeout_seconds := 180; max_attempts := 1; retry_safe := false;
     requires_rca := true; target_must_match_root_cause := true;
     verification := VerificationPolicy_mk 30 240 15 3 true
       [state_check state_replicas; _HEALTHY; _LATENCY_OK; _NO_NEW_ALERTS] |}%Z.

Definition entry_rollback_deployment : ActionCatalogEntry :=
  {| action_id := "rollback_deployment"; version := "1";
     description := "Redeploy the previously deployed version of one service.";
     parameters := CRollback; allowed_environments := _ENVS;
     base_blast_radius := 2; max_blast_radius := 2;
     approval_mandatory := true; auto_execution_allowed := false;
     timeout_seconds := 300; max_attempts := 2; retry_safe := true;
     requires_rca := true; target_must_match_root_cause := true;
     verification := VerificationPolicy_mk 60 300 15 3 true
       [state_check state_deployment_version; _HEALTHY; _ERRORS_OK; _LATENCY_OK;
        _NO_NEW_ALERTS] |}%Z.

Definition entry_disable_feature_flag : ActionCatalogEntry :=
  {| action_id := "disable_feature_flag"; version := "1";
     description := "Turn one feature flag off for one service.";
     parameters := CDisableFlag; allowed_environments := _ENVS;
     base_blast_radius := 1; max_blast_radius := 1;
     approval_mandatory := true; auto_execution_allowed := false;
     timeout_seconds := 60; max_attempts := 2; retry_safe := true;
     requires_rca := true; target_must_match_root_cause := true;
     verification := VerificationPolicy_mk 30 180 15 2 false
       [state_check state_flag; _HEALTHY; _NO_NEW_ALERTS] |}%Z.

Definition entry_revert_configuration : ActionCatalogEntry :=
  {| action_id := "revert_configuration"; version := "1";
     description := "Set one configuration key of one service back to its previous value.";
     parameters := CRevertConfig; allowed_environments := _ENVS;
     base_blast_radius := 2; max_blast_radius := 2;
     approval_mandatory := true; auto_execution_allowed := false;
     timeout_seconds := 120; max_attempts := 2; retry_safe := true;
     requires_rca := true; target_must_match_root_cause := true;
     verification := VerificationPolicy_mk 45 240 15 3 true
       [state_check state_config_value; _HEALTHY; _ERRORS_OK; _NO_NEW_ALERTS] |}%Z.

Definition CATALOG : list ActionCatalogEntry :=
  [entry_restart_service;
   entry_scale_service;
   entry_rollback_deployment;
   entry_disable_feature_flag;
   entry_revert_configuration].

Definition get_entry (id : string) : option ActionCatalogEntry :=
  find (fun e => bool_decide (action_id e = id)) CATALOG.

(** ** Lemmas *)

Lemma both_inl {A B C} (f : A -> B -> C) x y c :
  both f x y = inl c <-> exists a b, x = inl a /\ y = inl b /\ f a b = c.
Proof. destruct x, y; simpl; naive_solver. Qed.

(** The fields of a parameter class. *)
Definition fields (c : ParamsClass) : list string :=
  match c with
  | CRestart => ["service"]
  | CScale => ["service"; "increase_by"]
  | CRollback => ["service"; "from_version"; "to_version"]
  | CDisableFlag => ["service"; "flag"]
  | CRevertConfig => ["service"; "key"; "from_value"; "to_value"]
  end.

(** [str] field [k] of the submitted dictionary is [s] and matches [pat]. *)
Definition has_str (d : params_t) (k : string) (pat : Pattern) (s : string) : Prop :=
  assoc_get k d = Some (JStr s) /\ pat_matches pat s = true.

(** What it means for parsed parameters to be the submitted ones. *)
Definition parsed (c : ParamsClass) (d : params_t) (p : Params) : Prop :=
  match c, p with
  | CRestart, RestartServiceParams _ => True
  | CScale, ScaleServiceParams _ n => (1 <= n <= 5)%Z /\ is_Some (assoc_get "increase_by" d)
  | CRollback, RollbackDeploymentParams _ f t =>
      has_str d "from_version" _VERSION f /\ has_str d "to_version" _VERSION t
  | CDisableFlag, DisableFeatureFlagParams _ f => has_str d "flag" _KEY f
  | CRevertConfig, RevertConfigurationParams _ k f t =>
      has_str d "key" _KEY k /\ assoc_get "from_value" d = Some f
      /\ assoc_get "to_value" d = Some t /\ t <> JNull
  | _, _ => False
  end.

Section Lemmas.
Context `{Pydantic}.

Lemma str_field_inl name pat d s :
  str_field name pat d = inl s -> has_str d name pat s.
Proof.
  unfold str_field, field, has_str. destruct (assoc_get name d) as [j|]; [|done].
  destruct (lax_str j) as [t|] eqn:E; [|done].
  destruct (pat_matches pat t) eqn:Em; intros ?; simplify_eq.
  apply lax_str_iff in E as ->. done.
Qed.

Lemma int_field_inl name ge le d n :
  int_field name ge le d = inl n -> (ge <= n <= le)%Z /\ is_Some (assoc_get name d).
Proof.
  unfold int_field, field. destruct (assoc_get name d) as [j|]; [|done].
  destruct (lax_int j) as [m|]; [|done].
  destruct (Z.ltb_spec m ge); [done|]. destruct (Z.ltb_spec le m); [done|].
  intros ?; simplify_eq. eauto.
Qed.

Lemma scalar_field_inl name d v :
  scalar_field name d = inl v -> assoc_get name d = Some v.
Proof.
  unfold scalar_field, field. destruct (assoc_get name d) as [[]|]; naive_solver.
Qed.

Lemma to_value_field_inl d v :
  to_value_field d = inl v -> assoc_get "to_value" d = Some v /\ v <> JNull.
Proof.
  unfold to_value_field. destruct (scalar_field "to_value" d) as [w|] eqn:E; [|done].
  apply scalar_field_inl in E. destruct w; naive_solver.
Qed.

Lemma no_extra_inl allowed d :
  no_extra allowed d = inl tt -> forall k, k ∈ d.*1 -> k ∈ allowed.
Proof.
  unfold no_extra. destruct (filter _ d.*1) eqn:E; [|done]. intros _ k Hk.
  destruct (decide (k ∈ allowed)) as [|Hn]; [done|].
  assert (k ∈ filter (fun k => k ∉ allowed) d.*1) as Hf by by apply list_elem_of_filter.
  rewrite E in Hf. set_solver.
Qed.

Lemma with_extra_inl {A} (x : checked A) allowed d a :
  with_extra x allowed d = inl a -> x = inl a /\ forall k, k ∈ d.*1 -> k ∈ allowed.
Proof.
  unfold with_extra. intros (b & [] & Hx & Hn & <-)%both_inl.
  split; [done|]. by apply no_extra_inl.
Qed.

Lemma model_validate_inl c d p :
  model_validate c d = inl p ->
  parsed c d p /\ has_str d "service" _SERVICE (params_service p)
  /\ forall k, k ∈ d.*1 -> k ∈ fields c.
Proof.
  destruct c; simpl; intros [Hp Hx]%with_extra_inl;
    repeat match goal with
           | H : both _ _ _ = inl _ |- _ => apply both_inl in H as (? & ? & ? & ? & ?)
           | H : service_field _ = inl _ |- _ => apply str_field_inl in H
           | H : str_field _ _ _ = inl _ |- _ => apply str_field_inl in H
           | H : int_field _ _ _ _ = inl _ |- _ => apply int_field_inl in H
           | H : scalar_field _ _ = inl _ |- _ => apply scalar_field_inl in H
           | H : to_value_field _ = inl _ |- _ => apply to_value_field_inl in H
           end; simplify_eq/=; naive_solver.
Qed.

Lemma validate_Some e d p ps :
  validate e d = (Some p, ps) -> model_validate (parameters e) d = inl p /\ ps = [].
Proof. unfold validate. destruct (model_validate _ d); naive_solver. Qed.
End Lemmas.

(** ** Properties *)

(** Parameters accepted for a catalog action are exactly submitted ones:
    no undeclared key, a well-formed service name, versions and keys as submitted
    and matching their patterns, a scale step between 1 and 5, and a configuration
    revert that names a non-null previous value. *)
Theorem validate_sound `{Pydantic} e d p ps :
  validate e d = (Some p, ps) ->
  ps = [] /\ parsed (parameters e) d p
  /\ has_str d "service" _SERVICE (params_service p)
  /\ (forall k, k ∈ d.*1 -> k ∈ fields (parameters e)).
Proof. intros [Hm ->]%validate_Some. split; [done|]. by apply model_validate_inl. Qed.

(** No valid invocation of a catalog action exceeds the entry's own maximal
    blast radius, and no entry's maximum exceeds tier 2. *)
Theorem catalog_blast_radius_bounded `{Pydantic} e d p ps :
  e ∈ CATALOG -> validate e d = (Some p, ps) ->
  (1 <= base_blast_radius e <= blast_radius e p
   /\ blast_radius e p <= max_blast_radius e <= 2)%Z.
Proof.
  intros He [Hm _]%validate_Some. apply model_validate_inl in Hm as [Hp _].
  unfold CATALOG in He.
  repeat (apply elem_of_cons in He as [->|He]; [destruct p; simpl in *; try done;
    repeat case_match; lia|]).
  by apply not_elem_of_nil in He.
Qed.

(** *** A concrete reading of pydantic, for evaluation *)

#[export] Instance ex_pydantic : Pydantic.
Proof.
  refine {|
    lax_int := fun j => match j with
                        | JInt n => Some n
                        | JBool b => Some (b2z b)
                        | JStr s => parse_int s
                        | _ => None
                        end;
    lax_str := as_str;
    msg_missing := "Field required";
    msg_extra := "Extra inputs are not permitted";
    msg_str := "Input should be a valid string";
    msg_int := "Input should be a valid integer";
    msg_pattern := fun p => "String should match pattern '" +++ p +++ "'";
    msg_ge := fun n => "Input should be greater than or equal to " +++ str_Z n;
    msg_le := fun n => "Input should be less than or equal to " +++ str_Z n;
    union_errors := fun _ => [("str", "Input should be a valid string")] |}.
  - done.
  - by intros [] t; simpl; naive_solver.
  - done.
Defined.

Lemma validate_sound_witness :
  validate entry_scale_service [("service", JStr "checkout"); ("increase_by", JInt 3)]
    = (Some (ScaleServiceParams "checkout" 3), [])
  /\ has_str [("service", JStr "checkout"); ("increase_by", JInt 3)] "service" _SERVICE "checkout".
Proof.
  assert (validate entry_scale_service [("service", JStr "checkout"); ("increase_by", JInt 3)]
    = (Some (ScaleServiceParams "checkout" 3), [])) as E by (vm_compute; reflexivity).
  split; [exact E|]. apply (validate_sound _ _ _ _ E).
Defined.

Lemma catalog_blast_radius_bounded_witness :
  entry_scale_service ∈ CATALOG /\ (blast_radius entry_scale_service (ScaleServiceParams "checkout" 3) <= 2)%Z.
Proof.
  assert (entry_scale_service ∈ CATALOG) as Hin.
  { unfold CATALOG. apply elem_of_cons. right. apply elem_of_cons. left. reflexivity. }
  split; [exact Hin|].
  assert (validate entry_scale_service [("service", JStr "checkout"); ("increase_by", JInt 3)]
    = (Some (ScaleServiceParams "checkout" 3), [])) as E by (vm_compute; reflexivity).
  destruct (catalog_blast_radius_bounded _ _ _ _ Hin E) as [_ [? ?]].
  transitivity (max_blast_radius entry_scale_service); assumption.
Defined.
