(* ===== verification/RemediationDomain.v ===== *)
(** * Remediation domain ([packages/domain/remediation.py])

    The remediation status machine, proposals and their hash, the policy
    evaluation context and the policy decision. *)
From S2P Require Import Prelude PyFloat Json Enums Catalog.

Definition TERMINAL_REMEDIATION_STATUSES : list RemediationStatus :=
  [R_POLICY_REJECTED; R_EXECUTED; R_FAILED; R_CANCELLED].

Definition ATTEMPTED_REMEDIATION_STATUSES : list RemediationStatus :=
  [R_EXECUTING; R_EXECUTED; R_FAILED].

(** [ALLOWED_TRANSITIONS.get(from_status, frozenset())] *)
Definition ALLOWED_TRANSITIONS (from : RemediationStatus) : list RemediationStatus :=
  match from with
  | R_PROPOSED => [R_POLICY_REJECTED; R_AWAITING_APPROVAL]
  | R_AWAITING_APPROVAL => [R_APPROVED; R_CANCELLED]
  | R_APPROVED => [R_EXECUTING; R_CANCELLED; R_FAILED]
  | R_EXECUTING => [R_EXECUTED; R_FAILED; R_EXECUTING; R_CANCELLED]
  | _ => []
  end.

Definition can_transition (from to : RemediationStatus) : bool :=
  bool_decide (to ∈ ALLOWED_TRANSITIONS from).

(** ** Identifiers as text: [str(uuid)] *)

Fixpoint hex_N (digits : nat) (n : N) : string :=
  match digits with
  | O => ""
  | S d => hex_N d (n / 16)%N +++ hex_digit (N.to_nat (n mod 16))
  end.

Definition str_uuid (u : uuid) : string :=
  hex_N 8 (N.shiftr u 96) +++ "-" +++ hex_N 4 (N.shiftr u 80) +++ "-"
    +++ hex_N 4 (N.shiftr u 64) +++ "-" +++ hex_N 4 (N.shiftr u 48) +++ "-" +++ hex_N 12 u.

(** ** Proposals *)

Record RemediationProposal := {
  pr_incident_id : uuid;
  pr_investigation_id : option uuid;
  pr_action_id : string;
  pr_parameters : params_t;
  pr_reason : string;
  pr_expected_effect : string;
  pr_source : string;
  pr_proposed_by : string;
}.

Definition length_between (lo hi : nat) (s : string) : bool :=
  bool_decide (lo <= String.length s) && bool_decide (String.length s <= hi).

(** The field constraints checked when a proposal is constructed. *)
Definition proposal_ok (p : RemediationProposal) : bool :=
  length_between 1 64 (pr_action_id p)
  && length_between 1 1000 (pr_reason p)
  && length_between 1 1000 (pr_expected_effect p)
  && bool_decide (pr_source p ∈ ["planner"; "operator"; "model"])
  && length_between 1 128 (pr_proposed_by p).

Definition RemediationProposal_new (p : RemediationProposal) : result RemediationProposal :=
  if proposal_ok p then Ok p else Err (ValidationError "RemediationProposal").

Definition target_service (p : RemediationProposal) : option string :=
  as_str (jget "service" (JObj (pr_parameters p))).

(** SHA-256 of a text, in hexadecimal; [hashlib] is used as a function only. *)
Class Hashing := { sha256_hex : string -> string }.

Definition opt_uuid_json (u : option uuid) : json := jopt_str (str_uuid <$> u).

Definition proposal_body (incident_id : uuid) (investigation_id : option uuid)
    (action_id catalog_version : string) (parameters : params_t) (environment : string)
    : string :=
  json_dumps (JObj
    [("incident_id", JStr (str_uuid incident_id));
     ("investigation_id", opt_uuid_json investigation_id);
     ("action_id", JStr action_id);
     ("catalog_version", JStr catalog_version);
     ("parameters", JObj parameters);
     ("environment", JStr environment)]).

Definition proposal_hash `{Hashing} (incident_id : uuid) (investigation_id : option uuid)
    (action_id catalog_version : string) (parameters : params_t) (environment : string)
    : string :=
  "sha256:" +++ sha256_hex
    (proposal_body incident_id investigation_id action_id catalog_version parameters environment).

(** ** Policy inputs and outputs *)

Record PolicyEvaluationContext := {
  context_id : uuid;
  captured_at : instant;
  ctx_incident_id : uuid;
  incident_environment : string;
  incident_severity : string;
  incident_service : string;
  incident_status : string;
  investigation_status : option string;
  rca_available : bool;
  rca_cause_category : option string;
  rca_component : option string;
  ctx_target_service : option string;
  target_known : bool;
  target_in_incident_scope : bool;
  action_blast_radius_tier : option Z;
  attempted_remediations_this_incident : Z;
  remediation_executions_last_hour_for_target : Z;
  global_kill_switch_engaged : bool;
  service_kill_switch_engaged : bool;
  proposal_source : string;
}.

Inductive Outcome := Pass | Deny | RequireApproval.
#[export] Instance Outcome_eq_dec : EqDecision Outcome.
Proof. solve_decision. Defined.

Record RuleOutcome := { rule_id : string; outcome : Outcome; rule_detail : string }.

Inductive PolicyVerdict := ALLOW | DENY | REQUIRE_APPROVAL.
#[export] Instance PolicyVerdict_eq_dec : EqDecision PolicyVerdict.
Proof. solve_decision. Defined.

Definition PolicyVerdict_value (v : PolicyVerdict) : string :=
  match v with
  | ALLOW => "ALLOW" | DENY => "DENY" | REQUIRE_APPROVAL => "REQUIRE_APPROVAL"
  end.

Record PolicyDecision := {
  pd_decision : PolicyVerdict;
  pd_policy_version : string;
  pd_catalog_version : option string;
  pd_blast_radius_tier : option Z;
  required_approver_roles : list string;
  pd_rules : list RuleOutcome;
}.

Definition reasons (d : PolicyDecision) : list string :=
  map rule_detail (filter (fun r => outcome r <> Pass) (pd_rules d)).
Definition denying_rules (d : PolicyDecision) : list string :=
  map rule_id (filter (fun r => outcome r = Deny) (pd_rules d)).

(** ** Lemmas on the status machine *)

Lemma can_transition_terminal from to :
  from ∈ TERMINAL_REMEDIATION_STATUSES -> can_transition from to = false.
Proof.
  intros H. unfold can_transition. apply bool_decide_eq_false_2.
  destruct from; try (exfalso; set_solver); simpl; set_solver.
Qed.
