(* ===== verification/Policy.v ===== *)
(** * The policy engine ([packages/policy/engine.py])

    [evaluate]: every rule runs and reports; any denial denies, otherwise a
    human must approve unless the policy permits automatic execution. *)
From S2P Require Import Prelude PyFloat Json Enums VerificationDomain Catalog RemediationDomain.
Local Open Scope Z_scope.

Record Policy := {
  pol_version : string;
  prohibited_environments : list string;
  max_blast_radius_by_environment : gmap string Z;
  max_attempted_remediations_per_incident : Z;
  max_executions_per_service_per_hour : Z;
  approver_roles_by_tier : gmap Z (list string);
  auto_execution_environments : list string;
  remediable_incident_statuses : list string;
}.

Definition DEFAULT_POLICY : Policy :=
  {| pol_version := "policy-2026.09-1";
     prohibited_environments := [];
     max_blast_radius_by_environment := {["production" := 2; "staging" := 2]};
     max_attempted_remediations_per_incident := 2;
     max_executions_per_service_per_hour := 3;
     approver_roles_by_tier :=
       {[1 := ["on_call_engineer"; "service_owner"]; 2 := ["service_owner"]]};
     auto_execution_environments := [];
     remediable_incident_statuses := ["RCA_READY"] |}.

Definition rule (id : string) (ok : bool) (detail : string) : RuleOutcome :=
  {| rule_id := id; outcome := if ok then Pass else Deny; rule_detail := detail |}.

Section Evaluate.
Context `{Pydantic}.
Context (proposal : RemediationProposal) (entry : option ActionCatalogEntry)
  (policy : Policy) (context : PolicyEvaluationContext).

(** [f"{x}"] for an optional string *)
Definition show (o : option string) : string := show_opt o.

Definition kill_switch_rules : list RuleOutcome :=
  [ rule "kill_switch.global" (negb (global_kill_switch_engaged context))
      (if global_kill_switch_engaged context
       then "global remediation kill switch is engaged" else "global kill switch released");
    rule "kill_switch.service" (negb (service_kill_switch_engaged context))
      (if service_kill_switch_engaged context
       then "kill switch engaged for " +++ show (ctx_target_service context)
       else "service kill switch released") ].

Definition params_of (e : ActionCatalogEntry) : option Params :=
  (validate e (pr_parameters proposal)).1.

Definition tier : option Z :=
  match entry with
  | Some e => blast_radius e <$> params_of e
  | None => None
  end.

Definition py_bool (b : bool) : string := if b then "True" else "False".

Definition action_rules : list RuleOutcome :=
  match entry with
  | Some e =>
      [ rule "action.known" true
          ("action " +++ repr_str (pr_action_id proposal) +++ " is in catalog "
             +++ CATALOG_VERSION);
        rule "action.parameters" (bool_decide (is_Some (params_of e)))
          (match params_of e with
           | Some _ => "parameters valid"
           | None => "invalid parameters: "
                       +++ join "; " (validate e (pr_parameters proposal)).2
           end);
        rule "action.auto_execution_not_requested" true
          ("catalog entry permits automatic execution: "
             +++ py_bool (auto_execution_allowed e) +++ " (not used by this policy)") ]
  | None =>
      [ rule "action.known" false
          ("unknown action " +++ repr_str (pr_action_id proposal) +++ ": not in catalog "
             +++ CATALOG_VERSION) ]
  end.

Definition target_rules : list RuleOutcome :=
  [ rule "target.known" (target_known context)
      ("target " +++ repr_opt (ctx_target_service context) +++ " is "
         +++ (if target_known context then "a catalogued service" else "not a known service"));
    rule "target.in_incident_scope" (target_in_incident_scope context)
      ("target " +++ repr_opt (ctx_target_service context) +++ " is "
         +++ (if target_in_incident_scope context
              then "within the incident's service scope"
              else "outside the scope of the incident on " +++ incident_service context)) ].

Definition env : string := incident_environment context.

Definition environment_rules : list RuleOutcome :=
  rule "environment.not_prohibited" (negb (bool_decide (env ∈ prohibited_environments policy)))
    ("environment " +++ repr_str env +++ " "
       +++ (if bool_decide (env ∈ prohibited_environments policy)
            then "is prohibited" else "permitted by policy"))
  :: match entry with
     | Some e =>
         [ rule "environment.allowed_for_action" (bool_decide (env ∈ allowed_environments e))
             (action_id e +++ " "
                +++ (if bool_decide (env ∈ allowed_environments e)
                     then "allowed" else "not allowed")
                +++ " in " +++ repr_str env) ]
     | None => []
     end.

Definition env_max : Z := default 0 (max_blast_radius_by_environment policy !! env).

Definition blast_radius_rules : list RuleOutcome :=
  match tier, entry with
  | Some t, Some e =>
      [ rule "blast_radius.action_max" (t <=? max_blast_radius e)
          ("blast radius " +++ str_Z t +++ " vs " +++ action_id e +++ " maximum "
             +++ str_Z (max_blast_radius e));
        rule "blast_radius.environment_max" (t <=? env_max)
          ("blast radius " +++ str_Z t +++ " vs " +++ repr_str env +++ " maximum "
             +++ str_Z env_max) ]
  | _, _ => []
  end.

Definition status_rules : list RuleOutcome :=
  [ rule "incident.remediable_status"
      (bool_decide (incident_status context ∈ remediable_incident_statuses policy))
      ("incident is " +++ incident_status context) ].

Definition rca_rules : list RuleOutcome :=
  match entry with
  | Some e =>
      if requires_rca e then
        rule "rca.required" (rca_available context)
          (if rca_available context
           then "a completed investigation with an accepted RCA exists"
           else action_id e +++ " requires an accepted RCA; none exists")
        :: (if target_must_match_root_cause e && rca_available context
            then [ rule "rca.target_matches_root_cause"
                     (bool_decide (ctx_target_service context = rca_component context))
                     ("target " +++ repr_opt (ctx_target_service context)
                        +++ " vs root-cause component " +++ repr_opt (rca_component context)) ]
            else [])
      else []
  | None => []
  end.

Definition attempt_rules : list RuleOutcome :=
  [ rule "attempts.per_incident"
      (attempted_remediations_this_incident context
         <? max_attempted_remediations_per_incident policy)
      (str_Z (attempted_remediations_this_incident context)
         +++ " remediation(s) already attempted for this incident (limit "
         +++ str_Z (max_attempted_remediations_per_incident policy) +++ ")");
    rule "attempts.per_service_per_hour"
      (remediation_executions_last_hour_for_target context
         <? max_executions_per_service_per_hour policy)
      (str_Z (remediation_executions_last_hour_for_target context) +++ " execution(s) on "
         +++ show (ctx_target_service context) +++ " in the last hour (limit "
         +++ str_Z (max_executions_per_service_per_hour policy) +++ ")") ].

Definition tier_or_0 : Z := match tier with Some t => t | None => 0 end.

Definition roles : list string := default [] (approver_roles_by_tier policy !! tier_or_0).

Definition automatic : bool :=
  bool_decide (env ∈ auto_execution_environments policy)
  && match entry with
     | Some e => auto_execution_allowed e && negb (approval_mandatory e)
     | None => false
     end.

Definition approval_rules : list RuleOutcome :=
  {| rule_id := "approval.required";
     outcome := if automatic then Pass else RequireApproval;
     rule_detail :=
       if automatic then "automatic execution permitted"
       else "human approval required ("
              +++ (if nonempty (join " or " roles) then join " or " roles
                   else "no eligible role") +++ ")" |}
  :: (if bool_decide (roles = [])
      then [ rule "approval.eligible_role_exists" false
               ("no approver role is defined for tier " +++ py_str (jopt_int tier)) ]
      else []).

Definition all_rules : list RuleOutcome :=
  kill_switch_rules ++ action_rules ++ target_rules ++ environment_rules
    ++ blast_radius_rules ++ status_rules ++ rca_rules ++ attempt_rules ++ approval_rules.

Definition verdict (rs : list RuleOutcome) : PolicyVerdict :=
  if existsb (fun r => bool_decide (outcome r = Deny)) rs then DENY
  else if existsb (fun r => bool_decide (outcome r = RequireApproval)) rs
       then REQUIRE_APPROVAL
       else ALLOW.

Definition evaluate : PolicyDecision :=
  let decision := verdict all_rules in
  {| pd_decision := decision;
     pd_policy_version := pol_version policy;
     pd_catalog_version := match entry with Some _ => Some CATALOG_VERSION | None => None end;
     pd_blast_radius_tier := tier;
     required_approver_roles :=
       if bool_decide (decision = REQUIRE_APPROVAL) then roles else [];
     pd_rules := all_rules |}.
End Evaluate.

(** ** The policy as a declarative specification *)

Definition permitted `{Pydantic} (proposal : RemediationProposal)
    (entry : option ActionCatalogEntry) (policy : Policy)
    (context : PolicyEvaluationContext) : Prop :=
  global_kill_switch_engaged context = false /\
  service_kill_switch_engaged context = false /\
  (exists e p,
     entry = Some e
     /\ (validate e (pr_parameters proposal)).1 = Some p
     /\ incident_environment context ∈ allowed_environments e
     /\ blast_radius e p <= max_blast_radius e
     /\ blast_radius e p <= env_max policy context
     /\ (requires_rca e = true ->
           rca_available context = true
           /\ (target_must_match_root_cause e = true ->
                 ctx_target_service context = rca_component context))) /\
  target_known context = true /\
  target_in_incident_scope context = true /\
  incident_environment context ∉ prohibited_environments policy /\
  incident_status context ∈ remediable_incident_statuses policy /\
  attempted_remediations_this_incident context
    < max_attempted_remediations_per_incident policy /\
  remediation_executions_last_hour_for_target context
    < max_executions_per_service_per_hour policy /\
  roles proposal entry policy <> [].

(** ** Lemmas *)

Definition no_denial (rs : list RuleOutcome) : bool :=
  forallb (fun r => negb (bool_decide (outcome r = Deny))) rs.

Lemma no_denial_app rs rs' : no_denial (rs ++ rs') = no_denial rs && no_denial rs'.
Proof. apply forallb_app. Qed.

Lemma no_denial_rule id b d rs : no_denial (rule id b d :: rs) = b && no_denial rs.
Proof. by destruct b. Qed.

Lemma no_denial_nil : no_denial [] = true.
Proof. done. Qed.

Definition asks (rs : list RuleOutcome) : bool :=
  existsb (fun r => bool_decide (outcome r = RequireApproval)) rs.

Lemma asks_app rs rs' : asks (rs ++ rs') = asks rs || asks rs'.
Proof. apply existsb_app. Qed.

Lemma asks_rule id b d rs : asks (rule id b d :: rs) = asks rs.
Proof. by destruct b. Qed.

Lemma asks_nil : asks [] = false.
Proof. done. Qed.

#[export] Hint Rewrite asks_app asks_rule asks_nil : asks.

Create HintDb policy.
#[export] Hint Rewrite no_denial_app no_denial_rule no_denial_nil andb_true_r andb_true_iff
  negb_true_iff bool_decide_eq_true bool_decide_eq_false Z.leb_le Z.ltb_lt : policy.

Lemma existsb_no_denial rs :
  existsb (fun r => bool_decide (outcome r = Deny)) rs = negb (no_denial rs).
Proof. induction rs as [|r rs IH]; simpl; [done|]. rewrite IH. by case_bool_decide. Qed.

Lemma verdict_deny rs : verdict rs = DENY <-> no_denial rs = false.
Proof.
  unfold verdict. rewrite existsb_no_denial.
  destruct (no_denial rs); simpl; [|naive_solver]. destruct (existsb _ _); naive_solver.
Qed.

Section EvaluateLemmas.
Context `{Pydantic}.
Context (proposal : RemediationProposal) (entry : option ActionCatalogEntry)
  (policy : Policy) (context : PolicyEvaluationContext).

Lemma approval_no_denial :
  no_denial (approval_rules proposal entry policy context) = true
  <-> roles proposal entry policy <> [].
Proof.
  unfold approval_rules. case_bool_decide as E; destruct (automatic _ _ _); simpl; naive_solver.
Qed.

Lemma environment_no_denial :
  no_denial (environment_rules entry policy context) = true
  <-> incident_environment context ∉ prohibited_environments policy
      /\ (forall e, entry = Some e -> incident_environment context ∈ allowed_environments e).
Proof.
  unfold environment_rules, env. destruct entry as [e|];
    autorewrite with policy; naive_solver.
Qed.

Lemma action_no_denial :
  no_denial (action_rules proposal entry) = true
  <-> exists e p, entry = Some e /\ params_of proposal e = Some p.
Proof.
  unfold action_rules. destruct entry as [e|]; autorewrite with policy;
    [|split; [intros []; done|naive_solver]].
  unfold is_Some. naive_solver.
Qed.

Lemma blast_no_denial e p :
  entry = Some e -> params_of proposal e = Some p ->
  no_denial (blast_radius_rules proposal entry policy context) = true
  <-> blast_radius e p <= max_blast_radius e /\ blast_radius e p <= env_max policy context.
Proof.
  intros -> Hp. unfold blast_radius_rules, tier. rewrite Hp.
  cbn [fmap option_fmap option_map]. autorewrite with policy. naive_solver.
Qed.

Lemma rca_no_denial e :
  entry = Some e ->
  no_denial (rca_rules entry context) = true
  <-> (requires_rca e = true ->
         rca_available context = true
         /\ (target_must_match_root_cause e = true ->
               ctx_target_service context = rca_component context)).
Proof.
  intros ->. unfold rca_rules. destruct (requires_rca e); [|done].
  autorewrite with policy.
  destruct (target_must_match_root_cause e), (rca_available context); cbn [andb];
    autorewrite with policy; naive_solver.
Qed.

Lemma all_rules_permitted :
  no_denial (all_rules proposal entry policy context) = true
  <-> permitted proposal entry policy context.
Proof.
  unfold all_rules, permitted. rewrite !no_denial_app, !andb_true_iff.
  rewrite approval_no_denial, environment_no_denial, action_no_denial.
  unfold kill_switch_rules, target_rules, status_rules, attempt_rules.
  autorewrite with policy.
  split.
  - intros (? & (e & p & He & Hp) & ? & (? & Hal) & Hb & ? & Hr & ? & ?).
    rewrite (blast_no_denial e p He Hp) in Hb. rewrite (rca_no_denial e He) in Hr.
    destruct_and!. split_and!; try done. exists e, p. split_and!; auto; naive_solver.
  - intros (? & ? & (e & p & He & Hp & ? & ? & ? & ?) & ? & ? & ? & ? & ? & ? & ?).
    rewrite (blast_no_denial e p He Hp), (rca_no_denial e He).
    split_and!; try done; [by exists e, p|]. intros e' He'. congruence.
Qed.

Lemma requires_approval_rule :
  asks (all_rules proposal entry policy context) = negb (automatic entry policy context).
Proof.
  unfold all_rules. rewrite !asks_app.
  assert (asks (action_rules proposal entry) = false) as ->
    by (unfold action_rules; destruct entry; by autorewrite with asks).
  assert (asks (environment_rules entry policy context) = false) as ->
    by (unfold environment_rules; destruct entry; by autorewrite with asks).
  assert (asks (blast_radius_rules proposal entry policy context) = false) as ->
    by (unfold blast_radius_rules; repeat case_match; by autorewrite with asks).
  assert (asks (rca_rules entry context) = false) as ->
    by (unfold rca_rules; repeat case_match; by autorewrite with asks).
  unfold kill_switch_rules, target_rules, status_rules, attempt_rules, approval_rules.
  autorewrite with asks.
  by destruct (bool_decide (roles proposal entry policy = [])), (automatic entry policy context).
Qed.
End EvaluateLemmas.

(** ** Properties *)

(** C40: [evaluate] decides exactly the declarative policy: it denies what is not
    permitted, asks for approval when permitted but not automatic, and allows
    only what is both. *)
Theorem evaluate_spec `{Pydantic} proposal entry policy context :
  let d := evaluate proposal entry policy context in
  (pd_decision d = DENY <-> ~ permitted proposal entry policy context)
  /\ (pd_decision d = REQUIRE_APPROVAL <->
       permitted proposal entry policy context /\ automatic entry policy context = false)
  /\ (pd_decision d = ALLOW <->
       permitted proposal entry policy context /\ automatic entry policy context = true).
Proof.
  cbv zeta. unfold evaluate; cbn [pd_decision]. unfold verdict.
  fold (asks (all_rules proposal entry policy context)).
  rewrite existsb_no_denial, requires_approval_rule, <-all_rules_permitted.
  destruct (no_denial _), (automatic _ _ _); simpl; naive_solver.
Qed.

Lemma default_not_automatic entry context : automatic entry DEFAULT_POLICY context = false.
Proof. reflexivity. Qed.

Lemma default_roles `{Pydantic} proposal entry :
  roles proposal entry DEFAULT_POLICY <> [] ->
  (tier proposal entry = Some 1 /\
     roles proposal entry DEFAULT_POLICY = ["on_call_engineer"; "service_owner"])
  \/ (tier proposal entry = Some 2 /\ roles proposal entry DEFAULT_POLICY = ["service_owner"]).
Proof.
  unfold roles, tier_or_0. destruct (tier proposal entry) as [t|]; [|done].
  cbn [approver_roles_by_tier DEFAULT_POLICY].
  destruct (decide (t = 1)) as [->|]; [by left|].
  destruct (decide (t = 2)) as [->|]; [by right|].
  by rewrite lookup_insert_ne, lookup_singleton_ne by done.
Qed.

(** Under the default policy no proposal, whatever its source, entry or
    context, is ever allowed without a human: it is denied, or needs approval by
    a role that exists for its tier, and only tiers 1 and 2 can be approved. *)
Theorem default_policy_needs_human `{Pydantic} proposal entry context :
  let d := evaluate proposal entry DEFAULT_POLICY context in
  pd_decision d <> ALLOW /\
  (pd_decision d = REQUIRE_APPROVAL ->
     "service_owner" ∈ required_approver_roles d
     /\ (pd_blast_radius_tier d = Some 1 \/ pd_blast_radius_tier d = Some 2)).
Proof.
  cbv zeta. destruct (evaluate_spec proposal entry DEFAULT_POLICY context) as (_ & Hr & Ha).
  rewrite default_not_automatic in Hr, Ha. split; [naive_solver|].
  intros Hd. pose proof (proj1 Hr Hd) as [Hp _].
  assert (roles proposal entry DEFAULT_POLICY <> []) as Hn by (unfold permitted in Hp; tauto).
  unfold evaluate in Hd |- *; cbn [pd_decision required_approver_roles pd_blast_radius_tier] in *.
  rewrite Hd, bool_decide_eq_true_2 by done.
  destruct (default_roles _ _ Hn) as [[-> ->]|[-> ->]]; set_solver.
Qed.
