(* ===== verification/Uuid.v ===== *)
(** * [uuid.UUID(text)]

    How the Standard Library reads a UUID: [urn:] and [uuid:] are removed, then braces
    at the ends and hyphens; what is left must be 32 characters [int(_, 16)] accepts.
    What [str(uuid)] writes is read back. *)
From Stdlib Require Ascii.
From S2P Require Import Prelude PyFloat Json Catalog RemediationDomain.
Local Open Scope Z_scope.

(** [s.replace(old, "")] for a non-empty [old]. *)
Fixpoint remove_all (fuel : nat) (old s : string) : string :=
  match fuel, s with
  | S fuel', String c s' =>
      if startswith old s then remove_all fuel' old (drop_str (String.length old) s)
      else String c (remove_all fuel' old s')
  | _, _ => s
  end.
Definition replaced (old s : string) : string := remove_all (String.length s) old s.

Definition is_brace (c : Ascii.ascii) : bool := is_char 123 c || is_char 125 c.
Fixpoint lstrip_braces (s : string) : string :=
  match s with
  | String c s' => if is_brace c then lstrip_braces s' else s
  | EmptyString => EmptyString
  end.
(** [s.strip("{}")] *)
Definition strip_braces (s : string) : string :=
  str_rev (lstrip_braces (str_rev (lstrip_braces s) "")) "".

Definition hex_value (c : Ascii.ascii) : option Z :=
  let n := Z.of_nat (Ascii.nat_of_ascii c) in
  if is_digit c then Some (n - 48)
  else if ascii_in 97 102 c then Some (n - 87)
  else if ascii_in 65 70 c then Some (n - 55)
  else None.

(** Hexadecimal digits with single underscores between them. *)
Fixpoint hex_digits (prev : bool) (acc : Z) (s : string) : option Z :=
  match s with
  | EmptyString => if prev then Some acc else None
  | String c s' =>
      match hex_value c with
      | Some v => hex_digits true (acc * 16 + v) s'
      | None => if is_char 95 c && prev then hex_digits false acc s' else None
      end
  end.

(** Digits after an optional [0x]. *)
Definition prefixed_hex (s : string) : option Z :=
  if startswith "0x" s || startswith "0X" s then
    let body := drop_str 2 s in
    if nonempty body then hex_digits true 0 body else None
  else hex_digits false 0 s.

(** [int(s, 16)] *)
Definition int_16 (s : string) : option Z :=
  match strip s with
  | String c s' =>
      if is_char 45 c then Z.opp <$> prefixed_hex s'
      else if is_char 43 c then prefixed_hex s'
      else prefixed_hex (String c s')
  | EmptyString => None
  end.

Definition parse_uuid (text : string) : result uuid :=
  let hex := replaced "-" (strip_braces (replaced "uuid:" (replaced "urn:" text))) in
  if negb (bool_decide (String.length hex = 32%nat)) then
    Err (ValueError "badly formed hexadecimal UUID string")
  else
    match int_16 hex with
    | None => Err (ValueError ("invalid literal for int() with base 16: " +++ repr_str hex))
    | Some n =>
        if (0 <=? n) && (n <? 2 ^ 128) then Ok (Z.to_N n)
        else Err (ValueError "int is out of range (need a 128-bit value)")
    end.

Example parse_uuid_ex :
  (parse_uuid "urn:uuid:12345678-1234-5678-1234-567812345678", parse_uuid "{0000000000000000000000000000002A}",
   parse_uuid (str_uuid 77))
  = (Ok 0x12345678123456781234567812345678%N, Ok 42%N, Ok 77%N).
Proof. vm_compute. reflexivity. Qed.

(** ** Reading back the text of an identifier

    [uuid.UUID(str(u))] is [u]: the hyphens go, the 32 digits stay, and their value is
    the number. *)
From Stdlib Require Import Ascii.
Local Open Scope char_scope.
Local Open Scope string_scope.

Fixpoint all_chars (p : Ascii.ascii -> bool) (s : string) : bool :=
  match s with EmptyString => true | String c s' => p c && all_chars p s' end.

Lemma all_chars_app p a b : all_chars p (a +++ b) = all_chars p a && all_chars p b.
Proof. induction a as [|c a IH]; [done|]. rewrite append_cons. simpl. by rewrite IH, andb_assoc. Qed.

Lemma all_chars_impl (p q : Ascii.ascii -> bool) s :
  (forall c, p c = true -> q c = true) -> all_chars p s = true -> all_chars q s = true.
Proof.
  intros Hpq. induction s as [|c s IH]; [done|]. simpl. rewrite !andb_true_iff. intros [? ?]. auto.
Qed.

(** The digits [str] writes, and what it writes around them. *)
Definition hex_char (c : Ascii.ascii) : bool := is_digit c || ascii_in 97 102 c.
Definition uuid_char (c : Ascii.ascii) : bool := hex_char c || is_char 45 c.

Ltac by_characters c := destruct c as [[] [] [] [] [] [] [] []]; vm_compute; congruence.

Lemma hex_is_uuid c : hex_char c = true -> uuid_char c = true.
Proof. by_characters c. Qed.
Lemma hex_not_hyphen c : hex_char c = true -> is_char 45 c = false.
Proof. by_characters c. Qed.
Lemma hex_not_plus c : hex_char c = true -> is_char 43 c = false.
Proof. by_characters c. Qed.
Lemma hex_not_space c : hex_char c = true -> is_space c = false.
Proof. by_characters c. Qed.
Lemma uuid_not_brace c : uuid_char c = true -> is_brace c = false.
Proof. by_characters c. Qed.
Lemma uuid_not_u c : uuid_char c = true -> c <> "u"%char.
Proof. by_characters c. Qed.
Lemma hex_not_x c : hex_char c = true -> c <> "x"%char /\ c <> "X"%char.
Proof. intros Hc. split; revert Hc; by_characters c. Qed.

Lemma hex_digit_char n :
  (n < 16)%N -> exists c, hex_digit (N.to_nat n) = String c "" /\ hex_char c = true
                          /\ hex_value c = Some (Z.of_N n).
Proof.
  intros Hn. replace n with (N.of_nat (N.to_nat n)) by lia.
  generalize (N.to_nat n), (ltac:(lia) : (N.to_nat n < 16)%nat). clear n Hn. intros n Hn.
  do 16 (destruct n as [|n]; [by eexists|]). lia.
Qed.

(** ** Reversal *)

Lemma str_rev_acc s acc : str_rev s acc = str_rev s "" +++ acc.
Proof.
  revert acc. induction s as [|c s IH]; intros acc; [done|]. simpl.
  by rewrite (IH (String c acc)), (IH (String c "")), append_assoc.
Qed.

Lemma str_rev_app a b : str_rev (a +++ b) "" = str_rev b "" +++ str_rev a "".
Proof.
  induction a as [|c a IH]; [by rewrite append_nil_r|]. rewrite append_cons. simpl.
  rewrite str_rev_acc, IH, (str_rev_acc a (String c "")). by rewrite append_assoc.
Qed.

Lemma str_rev_involutive s : str_rev (str_rev s "") "" = s.
Proof. induction s as [|c s IH]; [done|]. simpl. by rewrite (str_rev_acc s (String c "")), str_rev_app, IH. Qed.

Lemma all_chars_rev p s : all_chars p (str_rev s "") = all_chars p s.
Proof.
  induction s as [|c s IH]; [done|]. simpl. rewrite (str_rev_acc s (String c "")), all_chars_app, IH. simpl.
  by rewrite andb_true_r, andb_comm.
Qed.

Lemma lstrip_id s : all_chars hex_char s = true -> lstrip s = s.
Proof. destruct s as [|c s]; [done|]. simpl. intros [Hc _]%andb_true_iff. by rewrite hex_not_space. Qed.
Lemma lstrip_braces_id s : all_chars uuid_char s = true -> lstrip_braces s = s.
Proof. destruct s as [|c s]; [done|]. simpl. intros [Hc _]%andb_true_iff. by rewrite uuid_not_brace. Qed.

Lemma strip_id s : all_chars hex_char s = true -> strip s = s.
Proof.
  intros Hs. unfold strip. rewrite (lstrip_id s Hs), lstrip_id by by rewrite all_chars_rev.
  apply str_rev_involutive.
Qed.
Lemma strip_braces_id s : all_chars uuid_char s = true -> strip_braces s = s.
Proof.
  intros Hs. unfold strip_braces. rewrite (lstrip_braces_id s Hs), lstrip_braces_id by by rewrite all_chars_rev.
  apply str_rev_involutive.
Qed.

(** ** Removal *)

Lemma startswith_not c old s : all_chars uuid_char s = true -> c = "u"%char ->
  startswith (String c old) s = false.
Proof.
  intros Hs ->. destruct s as [|b s]; [done|]. simpl in *. apply andb_true_iff in Hs as [Hb _].
  rewrite decide_False; [done|]. by apply not_eq_sym, uuid_not_u.
Qed.

Lemma replaced_absent old s :
  all_chars uuid_char s = true -> replaced (String "u"%char old) s = s.
Proof.
  unfold replaced. generalize (String.length s). intros n. revert s.
  induction n as [|n IH]; intros s Hs; [done|]. destruct s as [|c s]; [done|]. cbn [remove_all].
  rewrite startswith_not by done. f_equal. apply IH. simpl in Hs. by apply andb_true_iff in Hs as [_ ?].
Qed.

Fixpoint without_hyphens (s : string) : string :=
  match s with
  | EmptyString => EmptyString
  | String c s' => if is_char 45 c then without_hyphens s' else String c (without_hyphens s')
  end.

Lemma is_hyphen c : is_char 45 c = true <-> c = "-"%char.
Proof. split; [by_characters c|by intros ->]. Qed.

Lemma replaced_hyphens s : replaced "-" s = without_hyphens s.
Proof.
  unfold replaced. assert (forall n s, (String.length s <= n)%nat -> remove_all n "-" s = without_hyphens s)
    as H; [|by apply H].
  clear s. induction n as [|n IH]; intros s Hn; [by destruct s; [|simpl in Hn; lia]|].
  destruct s as [|c s]; [done|]. cbn [remove_all without_hyphens startswith]. simpl in Hn.
  destruct (is_char 45 c) eqn:E.
  - apply is_hyphen in E as ->. rewrite decide_True by done. destruct s; simpl; apply IH; simpl in *; lia.
  - rewrite decide_False; [f_equal; apply IH; lia|]. intros <-. by apply not_true_iff_false in E.
Qed.

Lemma without_app a b : without_hyphens (a +++ b) = without_hyphens a +++ without_hyphens b.
Proof.
  induction a as [|c a IH]; [done|]. rewrite append_cons. simpl. rewrite IH. by case_match.
Qed.
Lemma without_hex s : all_chars hex_char s = true -> without_hyphens s = s.
Proof.
  induction s as [|c s IH]; [done|]. simpl. intros [Hc Hs]%andb_true_iff.
  rewrite hex_not_hyphen, IH by done. done.
Qed.

(** ** Digits *)

Lemma hex_N_chars d n : all_chars hex_char (hex_N d n) = true /\ String.length (hex_N d n) = d.
Proof.
  revert n. induction d as [|d IH]; intros n; [done|]. cbn [hex_N].
  destruct (IH (n / 16)%N) as [Hc Hl].
  destruct (hex_digit_char (n mod 16)%N) as (c & -> & Hh & _); [apply N.mod_lt; lia|].
  rewrite all_chars_app, append_length, Hc, Hl. simpl. rewrite Hh. split; [done|]. simpl. lia.
Qed.

Lemma shift_digit acc d n :
  (acc * 16 ^ Z.of_nat d + Z.of_N ((n / 16) mod 16 ^ N.of_nat d)) * 16 + Z.of_N (n mod 16)
  = acc * 16 ^ Z.of_nat (S d) + Z.of_N (n mod 16 ^ N.of_nat (S d)).
Proof.
  rewrite Nat2N.inj_succ, N.pow_succ_r', N.Div0.mod_mul_r, Nat2Z.inj_succ, Z.pow_succ_r by lia. lia.
Qed.

Lemma hex_digits_before c v d n prev acc t :
  hex_value c = Some v ->
  hex_digits prev acc (hex_N d n +++ String c t)
  = hex_digits true ((acc * 16 ^ Z.of_nat d + Z.of_N (n mod 16 ^ N.of_nat d)) * 16 + v) t.
Proof.
  intros Hc. revert c v n t Hc. induction d as [|d IH]; intros c v n t Hc; cbn [hex_N].
  - change ("" +++ String c t) with (String c t). cbn [hex_digits]. rewrite Hc. simpl.
    rewrite N.mod_1_r. do 2 f_equal. lia.
  - destruct (hex_digit_char (n mod 16)%N) as (b & -> & _ & Hb); [apply N.mod_lt; lia|].
    rewrite append_assoc. change (String b "" +++ String c t) with (String b (String c t)).
    rewrite (IH _ _ _ _ Hb), shift_digit. cbn [hex_digits]. by rewrite Hc.
Qed.

Lemma hex_digits_N d n prev acc t :
  (0 < d)%nat ->
  hex_digits prev acc (hex_N d n +++ t)
  = hex_digits true (acc * 16 ^ Z.of_nat d + Z.of_N (n mod 16 ^ N.of_nat d)) t.
Proof.
  destruct d as [|d]; [lia|]. intros _. cbn [hex_N].
  destruct (hex_digit_char (n mod 16)%N) as (b & -> & _ & Hb); [apply N.mod_lt; lia|].
  rewrite append_assoc. change (String b "" +++ t) with (String b t).
  by rewrite (hex_digits_before _ _ _ _ _ _ _ Hb), shift_digit.
Qed.

Lemma group_digits a b c d e u :
  (u < 2 ^ 128)%N ->
  a = N.shiftr u 96 -> b = N.shiftr u 80 -> c = N.shiftr u 64 -> d = N.shiftr u 48 -> e = u ->
  ((((0 * 16 ^ 8 + Z.of_N (a mod 16 ^ 8)) * 16 ^ 4 + Z.of_N (b mod 16 ^ 4)) * 16 ^ 4
     + Z.of_N (c mod 16 ^ 4)) * 16 ^ 4 + Z.of_N (d mod 16 ^ 4)) * 16 ^ 12 + Z.of_N (e mod 16 ^ 12)
  = Z.of_N u.
Proof.
  intros Hu -> -> -> -> ->. rewrite !N.shiftr_div_pow2.
  assert (forall k x, (u / 2 ^ (k + x) = u / 2 ^ k / 2 ^ x)%N) as Hdiv.
  { intros k x. by rewrite N.pow_add_r, N.Div0.div_div. }
  rewrite (Hdiv 80%N 16%N : (u / 2 ^ 96)%N = _), (Hdiv 64%N 16%N : (u / 2 ^ 80)%N = _),
    (Hdiv 48%N 16%N : (u / 2 ^ 64)%N = _).
  change (16 ^ 8)%N with 0x100000000%N. change (16 ^ 4)%N with 0x10000%N.
  change (16 ^ 12)%N with 0x1000000000000%N. change (2 ^ 16)%N with 0x10000%N.
  change (2 ^ 48)%N with 0x1000000000000%N. change (16 ^ 8) with 0x100000000.
  change (16 ^ 4) with 0x10000. change (16 ^ 12) with 0x1000000000000.
  change (2 ^ 128)%N with 0x100000000000000000000000000000000%N in Hu.
  pose proof (N.div_mod u 0x1000000000000 ltac:(lia)) as E1.
  set (x := (u / 0x1000000000000)%N) in *.
  pose proof (N.div_mod x 0x10000 ltac:(lia)) as E2. set (y := (x / 0x10000)%N) in *.
  pose proof (N.div_mod y 0x10000 ltac:(lia)) as E3. set (z := (y / 0x10000)%N) in *.
  pose proof (N.div_mod z 0x10000 ltac:(lia)) as E4. set (w := (z / 0x10000)%N) in *.
  set (r1 := (u mod 0x1000000000000)%N) in *. set (r2 := (x mod 0x10000)%N) in *.
  set (r3 := (y mod 0x10000)%N) in *. set (r4 := (z mod 0x10000)%N) in *.
  clearbody r1 r2 r3 r4 w z y x.
  assert (w < 0x100000000)%N as Hw by lia. rewrite (N.mod_small w) by done. lia.
Qed.

Lemma startswith_0x s p : all_chars hex_char s = true -> p = "0x" \/ p = "0X" ->
  startswith p s = false.
Proof.
  intros Hs Hp. destruct s as [|a [|b s]]; [by destruct Hp as [-> | ->]..| |].
  { destruct Hp as [-> | ->]; simpl; by case_match. }
  simpl in Hs. rewrite !andb_true_iff in Hs. destruct Hs as (_ & Hb & _).
  destruct (hex_not_x _ Hb) as [H1 H2].
  destruct Hp as [-> | ->]; simpl; case_match; try done; by rewrite decide_False by congruence.
Qed.

(** The text of an identifier is read back as the identifier. *)
Lemma parse_str_uuid u : (u < 2 ^ 128)%N -> parse_uuid (str_uuid u) = Ok u.
Proof.
  intros Hu. unfold str_uuid.
  set (a := N.shiftr u 96). set (b := N.shiftr u 80). set (c := N.shiftr u 64). set (d := N.shiftr u 48).
  destruct (hex_N_chars 8 a) as [Ca La], (hex_N_chars 4 b) as [Cb Lb], (hex_N_chars 4 c) as [Cc Lc],
    (hex_N_chars 4 d) as [Cd Ld], (hex_N_chars 12 u) as [Cu Lu].
  set (s := hex_N 8 a +++ _).
  assert (all_chars uuid_char s = true) as Hs.
  { unfold s. rewrite !all_chars_app. rewrite !andb_true_iff.
    split_and!; try (by eapply all_chars_impl; [apply hex_is_uuid|]); done. }
  unfold parse_uuid. change "urn:" with (String "u" "rn:"). change "uuid:" with (String "u" "uid:").
  rewrite !(replaced_absent _ _ Hs), (strip_braces_id _ Hs), replaced_hyphens.
  assert (without_hyphens s = hex_N 8 a +++ hex_N 4 b +++ hex_N 4 c +++ hex_N 4 d +++ hex_N 12 u) as ->.
  { unfold s. rewrite !without_app. change (without_hyphens "-") with "".
    rewrite !without_hex by done. done. }
  rewrite bool_decide_eq_true_2 by (by rewrite !append_length, La, Lb, Lc, Ld, Lu). cbn [negb].
  set (t := hex_N 8 a +++ _).
  assert (all_chars hex_char t = true) as Ht by (unfold t; by rewrite !all_chars_app, Ca, Cb, Cc, Cd, Cu).
  assert (int_16 t = Some (Z.of_N u)) as ->.
  2:{ cbv beta iota. rewrite (proj2 (andb_true_iff _ _)) by (split; [apply Z.leb_le|apply Z.ltb_lt]; lia).
      by rewrite N2Z.id. }
  unfold int_16. rewrite strip_id by done.
  assert (prefixed_hex t = Some (Z.of_N u)) as Hp.
  { unfold prefixed_hex. rewrite (startswith_0x t "0x" Ht), (startswith_0x t "0X" Ht) by auto. cbn [orb].
    unfold t. rewrite !hex_digits_N by lia. rewrite <-(append_nil_r (hex_N 12 u)), hex_digits_N by lia.
    cbn [hex_digits]. f_equal. by apply group_digits. }
  destruct t as [|x t'] eqn:Et; [by rewrite <-Hp|]. simpl in Ht. apply andb_true_iff in Ht as [Hx _].
  by rewrite hex_not_hyphen, hex_not_plus.
Qed.

(** ** Any number

    The text has the low 128 bits. *)
Lemma hex_N_mod d m n : (m mod 16 ^ N.of_nat d = n mod 16 ^ N.of_nat d)%N -> hex_N d m = hex_N d n.
Proof.
  revert m n. induction d as [|d IH]; intros m n; [done|].
  rewrite Nat2N.inj_succ, N.pow_succ_r', !N.Div0.mod_mul_r. intros H. cbn [hex_N].
  pose proof (N.mod_lt m 16 ltac:(lia)) as Hm. pose proof (N.mod_lt n 16 ltac:(lia)) as Hn.
  assert ((m / 16) mod 16 ^ N.of_nat d = (n / 16) mod 16 ^ N.of_nat d /\ m mod 16 = n mod 16)%N
    as [Hd ->].
  { revert H Hm Hn. generalize ((m / 16) mod 16 ^ N.of_nat d)%N ((n / 16) mod 16 ^ N.of_nat d)%N.
    generalize (m mod 16)%N (n mod 16)%N. lia. }
  by rewrite (IH _ _ Hd).
Qed.

Lemma shifted_low u k d : (k + 4 * N.of_nat d <= 128)%N ->
  (N.shiftr (u mod 2 ^ 128) k mod 16 ^ N.of_nat d = N.shiftr u k mod 16 ^ N.of_nat d)%N.
Proof.
  intros Hk. replace (16 ^ N.of_nat d)%N with (2 ^ (4 * N.of_nat d))%N by (by rewrite N.pow_mul_r).
  rewrite <- !N.land_ones. apply N.bits_inj. intros b.
  rewrite !N.land_spec, !N.shiftr_spec', N.land_spec.
  destruct (N.ltb_spec b (4 * N.of_nat d)).
  - rewrite !N.ones_spec_low by lia. by rewrite !andb_true_r.
  - rewrite (N.ones_spec_high _ b) by lia. by rewrite !andb_false_r.
Qed.

Lemma parse_str_uuid_mod u : parse_uuid (str_uuid u) = Ok (u mod 2 ^ 128)%N.
Proof.
  rewrite <-(parse_str_uuid (u mod 2 ^ 128)) by (by apply N.mod_lt). f_equal. unfold str_uuid.
  assert (forall k d, (k + 4 * N.of_nat d <= 128)%N ->
            hex_N d (N.shiftr u k) = hex_N d (N.shiftr (u mod 2 ^ 128) k)) as Hh
    by (intros; symmetry; by apply hex_N_mod, shifted_low).
  rewrite !Hh by lia.
  replace (hex_N 12 u) with (hex_N 12 (u mod 2 ^ 128)); [done|].
  pose proof (Hh 0%N 12%nat ltac:(lia)) as H0. by rewrite !N.shiftr_0_r in H0.
Qed.
