(* ===== verification/InvestigationDomain.v ===== *)
(** * Investigation domain ([packages/domain/investigation.py])

    The lifecycle, the budgets and stopping criteria, the model-facing schemas with
    their field constraints, the reading of a model turn, and the deterministic rules
    that decide which hypothesis updates and which conclusions are acceptable.

    Parsing a dynamic value into a schema is pydantic's and is the interface
    [ModelSchemas]; the constraints the source declares are the [_ok] predicates. *)
From S2P Require Import Prelude PyFloat Json Enums Catalog RemediationDomain.
Local Open Scope Z_scope.

(** ** Lifecycle *)

Definition TERMINAL_INVESTIGATION_STATUSES : list InvestigationStatus :=
  [I_COMPLETED; I_FAILED; I_ESCALATED].

Definition MODEL_SETTABLE_HYPOTHESIS_STATUSES : list HypothesisStatus :=
  [H_ACTIVE; H_SUPPORTED; H_WEAKENED; H_REJECTED].

Inductive StepKind :=
| S_CONTEXT | S_MODEL_TURN | S_TOOL_CALL | S_HYPOTHESIS_UPDATE | S_CONCLUSION_REJECTED
| S_INVALID_CALL | S_FEEDBACK | S_MODEL_ERROR | S_OUTCOME.
#[export] Instance StepKind_eq_dec : EqDecision StepKind.
Proof. solve_decision. Defined.

Definition StepKind_value (k : StepKind) : string :=
  match k with
  | S_CONTEXT => "context"
  | S_MODEL_TURN => "model_turn"
  | S_TOOL_CALL => "tool_call"
  | S_HYPOTHESIS_UPDATE => "hypothesis_update"
  | S_CONCLUSION_REJECTED => "conclusion_rejected"
  | S_INVALID_CALL => "invalid_call"
  | S_FEEDBACK => "feedback"
  | S_MODEL_ERROR => "model_error"
  | S_OUTCOME => "outcome"
  end.

Definition ACTION_STEP_KINDS : list StepKind :=
  [S_TOOL_CALL; S_HYPOTHESIS_UPDATE; S_CONCLUSION_REJECTED; S_INVALID_CALL].

(** ** Budgets and stopping criteria *)

Record InvestigationBudget := {
  max_iterations : Z;
  max_tool_calls : Z;
  max_identical_tool_calls : Z;
  max_evidence_items : Z;
  max_wall_clock_seconds : Z;
  max_total_tokens : option Z;
  max_consecutive_invalid_turns : Z;
  max_consecutive_tool_failures : Z;
}.

Definition default_budget : InvestigationBudget :=
  {| max_iterations := 15; max_tool_calls := 25; max_identical_tool_calls := 2;
     max_evidence_items := 40; max_wall_clock_seconds := 900; max_total_tokens := Some 600000;
     max_consecutive_invalid_turns := 3; max_consecutive_tool_failures := 5 |}.

Definition budget_ok (b : InvestigationBudget) : bool :=
  (2 <=? max_iterations b) && (max_iterations b <=? 100)
  && (1 <=? max_tool_calls b) && (max_tool_calls b <=? 200)
  && (1 <=? max_identical_tool_calls b) && (max_identical_tool_calls b <=? 10)
  && (1 <=? max_evidence_items b) && (max_evidence_items b <=? 500)
  && (10 <=? max_wall_clock_seconds b)
  && match max_total_tokens b with Some n => 1000 <=? n | None => true end
  && (1 <=? max_consecutive_invalid_turns b) && (1 <=? max_consecutive_tool_failures b).

Record StoppingCriteria := {
  min_hypotheses_considered : Z;
  min_supporting_evidence : Z;
  min_supporting_evidence_types : Z;
  min_confidence : float;
}.

Definition default_criteria : StoppingCriteria :=
  {| min_hypotheses_considered := 2; min_supporting_evidence := 2;
     min_supporting_evidence_types := 2; min_confidence := flit 6 1 |}.

(** [Field(ge=0, le=1)] *)
Definition unit_interval (x : float) : bool := fleb fzero x && fleb x fone.

Definition criteria_ok (c : StoppingCriteria) : bool :=
  (1 <=? min_hypotheses_considered c) && (1 <=? min_supporting_evidence c)
  && (1 <=? min_supporting_evidence_types c) && unit_interval (min_confidence c).

(** ** Model-facing schemas *)

Definition KEY_PATTERN : Pattern :=
  {| pat_source := "^[A-Za-z][A-Za-z0-9_-]{0,15}$";
     pat_matches := matches (fun c => is_lower c || is_upper c)
       (fun c => alnum c || is_char 95 c || is_char 45 c) 15 |}.
Definition COMPONENT_PATTERN : Pattern :=
  {| pat_source := "^[a-z0-9][a-z0-9._-]{0,62}$";
     pat_matches := matches (fun c => is_lower c || is_digit c)
       (fun c => is_lower c || is_digit c || is_char 46 c || is_char 95 c || is_char 45 c) 62 |}.

Definition CAUSE_CATEGORIES : list string :=
  ["deployment"; "configuration"; "code_change"; "dependency"; "database"; "resource_cpu";
   "resource_memory"; "traffic"; "infrastructure"; "other"].

Record HypothesisUpdate := {
  hu_key : string;
  hu_description : option string;
  hu_cause_category : option string;
  hu_component : option string;
  hu_status : option HypothesisStatus;
  hu_confidence : option float;
  hu_supporting_evidence_ids : list uuid;
  hu_contradicting_evidence_ids : list uuid;
  hu_missing_evidence : option (list string);
  hu_rationale : string;
}.

Definition opt_ok {A} (p : A -> bool) (o : option A) : bool :=
  match o with Some a => p a | None => true end.
(** [Field(min_length=lo, max_length=hi)] on a list. *)
Definition count_between {A} (lo hi : nat) (l : list A) : bool :=
  bool_decide ((lo <= length l)%nat) && bool_decide ((length l <= hi)%nat).

Definition update_ok (u : HypothesisUpdate) : bool :=
  pat_matches KEY_PATTERN (hu_key u)
  && opt_ok (length_between 1 500) (hu_description u)
  && opt_ok (fun c => bool_decide (c ∈ CAUSE_CATEGORIES)) (hu_cause_category u)
  && opt_ok (pat_matches COMPONENT_PATTERN) (hu_component u)
  && opt_ok (fun s => bool_decide (s ∈ MODEL_SETTABLE_HYPOTHESIS_STATUSES)) (hu_status u)
  && opt_ok unit_interval (hu_confidence u)
  && count_between 0 20 (hu_supporting_evidence_ids u)
  && count_between 0 20 (hu_contradicting_evidence_ids u)
  && opt_ok (count_between 0 10) (hu_missing_evidence u)
  && length_between 1 1000 (hu_rationale u).

Record HypothesisUpdateBatch := { updates : list HypothesisUpdate }.
Definition batch_ok (b : HypothesisUpdateBatch) : bool :=
  count_between 1 10 (updates b) && forallb update_ok (updates b).

Record GroundedStatement := { gs_text : string; gs_evidence_ids : list uuid }.
Record AffectedService := { as_service : string; as_evidence_ids : list uuid }.
(** The instant, and the seconds by which the clock it was given on is ahead of UTC. *)
Record TimelineEntry := {
  te_at : instant;
  te_offset : Z;
  te_event : string;
  te_evidence_ids : list uuid;
}.
Record ContradictionNote := { cn_evidence_id : uuid; cn_explanation : string }.

Record RcaDraft := {
  incident_summary : GroundedStatement;
  impact : GroundedStatement;
  affected_services : list AffectedService;
  rca_timeline : list TimelineEntry;
  root_cause : GroundedStatement;
  contributing_factors : list GroundedStatement;
  contradicting_evidence : list ContradictionNote;
  unresolved_questions : list string;
  recommended_next_diagnostic_action : option string;
}.

Definition cites_ok (ids : list uuid) : bool := count_between 1 20 ids.
Definition statement_ok (s : GroundedStatement) : bool :=
  length_between 1 1000 (gs_text s) && cites_ok (gs_evidence_ids s).

Definition rca_ok (r : RcaDraft) : bool :=
  statement_ok (incident_summary r) && statement_ok (impact r) && statement_ok (root_cause r)
  && count_between 1 10 (affected_services r)
  && forallb (fun s => length_between 1 64 (as_service s) && cites_ok (as_evidence_ids s))
       (affected_services r)
  && count_between 1 30 (rca_timeline r)
  && forallb (fun t => length_between 1 500 (te_event t) && cites_ok (te_evidence_ids t))
       (rca_timeline r)
  && count_between 0 10 (contributing_factors r) && forallb statement_ok (contributing_factors r)
  && count_between 0 20 (contradicting_evidence r)
  && forallb (fun n => length_between 1 1000 (cn_explanation n)) (contradicting_evidence r)
  && count_between 0 10 (unresolved_questions r)
  && opt_ok (length_between 0 500) (recommended_next_diagnostic_action r).

(** Every evidence id the draft cites. *)
Definition evidence_ids (r : RcaDraft) : gset uuid :=
  list_to_set (gs_evidence_ids (incident_summary r) ++ gs_evidence_ids (impact r)
    ++ gs_evidence_ids (root_cause r) ++ flat_map as_evidence_ids (affected_services r)
    ++ flat_map te_evidence_ids (rca_timeline r)
    ++ flat_map gs_evidence_ids (contributing_factors r)
    ++ map cn_evidence_id (contradicting_evidence r)).

Record FinalInvestigationResult := {
  selected_hypothesis_key : string;
  fr_confidence : float;
  rca : RcaDraft;
}.
Definition final_result_ok (r : FinalInvestigationResult) : bool :=
  pat_matches KEY_PATTERN (selected_hypothesis_key r) && unit_interval (fr_confidence r)
  && rca_ok (rca r).

Record InconclusiveDeclaration := {
  decl_reason : string;
  decl_evidence_gaps : list string;
  leading_hypothesis_key : option string;
}.
Definition declaration_ok (d : InconclusiveDeclaration) : bool :=
  length_between 1 1000 (decl_reason d) && count_between 1 10 (decl_evidence_gaps d)
  && opt_ok (pat_matches KEY_PATTERN) (leading_hypothesis_key d).

(** ** Model turns *)

Definition UPDATE_HYPOTHESES : string := "update_hypotheses".
Definition CONCLUDE : string := "conclude_investigation".
Definition DECLARE_INCONCLUSIVE : string := "declare_inconclusive".
Definition DECISION_TOOLS : list string := [UPDATE_HYPOTHESES; CONCLUDE; DECLARE_INCONCLUSIVE].

Record ModelAction := { act_call_id : string; act_name : string; act_arguments : json }.
Record ToolRequest := { tr_call_id : string; tr_tool : string; tr_arguments : json }.
Record HypothesisUpdateCall := { huc_call_id : string; batch : HypothesisUpdateBatch }.
Record ConclusionCall := { cc_call_id : string; cc_result : FinalInvestigationResult }.
Record InconclusiveCall := { ic_call_id : string; declaration : InconclusiveDeclaration }.
Record InvalidCall := { inv_call_id : string; inv_name : string; inv_error : string }.

Record InvestigationDecision := {
  rationale : string;
  hypothesis_updates : list HypothesisUpdateCall;
  tool_requests : list ToolRequest;
  conclusion : option ConclusionCall;
  inconclusive : option InconclusiveCall;
  invalid_calls : list InvalidCall;
}.
#[export] Instance InvestigationDecision_rebuild : Rebuild InvestigationDecision := fun r =>
  Build_InvestigationDecision (rationale r) (hypothesis_updates r) (tool_requests r)
    (conclusion r) (inconclusive r) (invalid_calls r).

Definition has_actions (d : InvestigationDecision) : bool :=
  match hypothesis_updates d, tool_requests d, conclusion d, inconclusive d, invalid_calls d with
  | [], [], None, None, [] => false
  | _, _, _, _, _ => true
  end.

(** The validator of a decision. *)
Definition _one_terminal (d : InvestigationDecision) : result InvestigationDecision :=
  match conclusion d, inconclusive d with
  | Some _, Some _ =>
      Err (ValidationError "a turn cannot both conclude and declare inconclusive")
  | _, _ => Ok d
  end.

(** One entry of [ValidationError.errors()]. *)
Record SchemaError := { loc : list string; msg : string }.

(** [model_validate]: what the schemas accept satisfies their constraints. *)
Class ModelSchemas := {
  validate_batch : json -> list SchemaError + HypothesisUpdateBatch;
  validate_result : json -> list SchemaError + FinalInvestigationResult;
  validate_declaration : json -> list SchemaError + InconclusiveDeclaration;
  validate_batch_ok : forall j b, validate_batch j = inr b -> batch_ok b = true;
  validate_result_ok : forall j r, validate_result j = inr r -> final_result_ok r = true;
  validate_declaration_ok : forall j d, validate_declaration j = inr d -> declaration_ok d = true;
}.

Definition _error_text (errors : list SchemaError) : string :=
  take_str 1500 (join "; " (map (fun e =>
    (if nonempty (join "." (loc e)) then join "." (loc e) else "(root)") +++ ": " +++ msg e) errors)).

Section Turn.
Context {MS : ModelSchemas}.

(** One iteration of the loop over the actions: the decision so far is extended, or
    the text of the error becomes an invalid call. *)
Definition only_one_terminal (d : InvestigationDecision) : bool :=
  negb (bool_decide (is_Some (conclusion d))) && negb (bool_decide (is_Some (inconclusive d))).

Definition interpret_action (evidence_tool_names : gset string) (d : InvestigationDecision)
    (a : ModelAction) : string + InvestigationDecision :=
  if bool_decide (act_name a = UPDATE_HYPOTHESES) then
    match validate_batch (act_arguments a) with
    | inl errors => inl (_error_text errors)
    | inr b => inr (d <| hypothesis_updates ::=
                      (fun l => l ++ [{| huc_call_id := act_call_id a; batch := b |}]) |>)
    end
  else if bool_decide (act_name a = CONCLUDE) then
    match validate_result (act_arguments a) with
    | inl errors => inl (_error_text errors)
    | inr r =>
        if only_one_terminal d
        then inr (d <| conclusion := Some {| cc_call_id := act_call_id a; cc_result := r |} |>)
        else inl "only one terminal call per turn"
    end
  else if bool_decide (act_name a = DECLARE_INCONCLUSIVE) then
    match validate_declaration (act_arguments a) with
    | inl errors => inl (_error_text errors)
    | inr x =>
        if only_one_terminal d
        then inr (d <| inconclusive := Some {| ic_call_id := act_call_id a; declaration := x |} |>)
        else inl "only one terminal call per turn"
    end
  else if bool_decide (act_name a ∈ evidence_tool_names) then
    inr (d <| tool_requests ::= (fun l => l ++
           [{| tr_call_id := act_call_id a; tr_tool := act_name a;
               tr_arguments := act_arguments a |}]) |>)
  else inl ("unknown tool " +++ repr_str (act_name a)).

Definition interpret_step (evidence_tool_names : gset string) (d : InvestigationDecision)
    (a : ModelAction) : InvestigationDecision :=
  match interpret_action evidence_tool_names d a with
  | inr d' => d'
  | inl error =>
      d <| invalid_calls ::= (fun l => l ++
        [{| inv_call_id := act_call_id a; inv_name := act_name a; inv_error := error |}]) |>
  end.

Definition no_decision (text : string) : InvestigationDecision :=
  {| rationale := take_str 4000 text; hypothesis_updates := []; tool_requests := [];
     conclusion := None; inconclusive := None; invalid_calls := [] |}.

Definition interpret_turn (text : string) (actions : list ModelAction)
    (evidence_tool_names : gset string) : result InvestigationDecision :=
  _one_terminal (foldl (interpret_step evidence_tool_names) (no_decision text) actions).
End Turn.

(** ** Hypothesis rules *)

Record HypothesisSnapshot := {
  hs_key : string;
  hs_description : string;
  hs_status : HypothesisStatus;
  hs_confidence : option float;
  supporting : list uuid;
  contradicting : list uuid;
  missing_evidence : list string;
  cause_category : option string;
  component : option string;
}.

Definition jopt_float (o : option float) : json :=
  match o with Some x => JFloat x | None => JNull end.
Definition str_uuids (l : list uuid) : json := JArr (map (fun e => JStr (str_uuid e)) l).

Definition to_json (s : HypothesisSnapshot) : json :=
  JObj [("key", JStr (hs_key s));
        ("description", JStr (hs_description s));
        ("cause_category", jopt_str (cause_category s));
        ("component", jopt_str (component s));
        ("status", JStr (HypothesisStatus_value (hs_status s)));
        ("confidence", jopt_float (hs_confidence s));
        ("supporting_evidence_ids", str_uuids (supporting s));
        ("contradicting_evidence_ids", str_uuids (contradicting s));
        ("missing_evidence", JArr (map JStr (missing_evidence s)))].

(** [sorted(str(e) for e in ids)] *)
Definition sorted_ids (ids : gset uuid) : list string := sorted (map str_uuid (elements ids)).

Definition ungrounded_ids (cited accessible : gset uuid) : list string :=
  sorted_ids (cited ∖ accessible).

(** A problem, when there is one. *)
Definition when (b : bool) (problem : string) : list string := if b then [problem] else [].

(** The loop over [("cause_category", "component")]. *)
Definition fixed_problem (name : string) (given fixed : option string) : list string :=
  match given, fixed with
  | Some g, Some f =>
      when (negb (bool_decide (g = f)))
        (name +++ " is fixed once set (it is " +++ repr_str f +++ ")")
  | _, _ => []
  end.

Definition ids (l : list uuid) : gset uuid := list_to_set l.

Definition check_hypothesis_update (u : HypothesisUpdate) (existing : option HypothesisSnapshot)
    (accessible_evidence : gset uuid) : list string :=
  let supports := ids (hu_supporting_evidence_ids u) in
  let contradicts := ids (hu_contradicting_evidence_ids u) in
  let unknown := ungrounded_ids (supports ∪ contradicts) accessible_evidence in
  when (negb (bool_decide (unknown = [])))
    ("evidence ids not returned to this investigation by any tool: " +++ join ", " unknown)
  ++ when (negb (bool_decide (supports ∩ contradicts = ∅)))
       "the same evidence cannot both support and contradict a hypothesis"
  ++ match existing with
     | None =>
         when (negb (nonempty (default "" (hu_description u))))
           "description is required when creating a hypothesis"
         ++ when (bool_decide (hu_cause_category u = None) || bool_decide (hu_component u = None))
              "cause_category and component are required when creating a hypothesis"
     | Some e =>
         fixed_problem "cause_category" (hu_cause_category u) (cause_category e)
         ++ fixed_problem "component" (hu_component u) (component e)
         ++ when (bool_decide (hs_status e ∈ [H_REJECTED; H_SELECTED]))
              ("hypothesis " +++ hu_key u +++ " is " +++ HypothesisStatus_value (hs_status e)
                 +++ " and cannot change")
     end
  ++ when (bool_decide (hu_status u = Some H_REJECTED)
           && bool_decide (contradicts ∪ ids (default [] (contradicting <$> existing)) = ∅))
       "rejecting a hypothesis requires contradicting evidence"
  ++ when (bool_decide (hu_status u = Some H_SUPPORTED)
           && bool_decide (supports ∪ ids (default [] (supporting <$> existing)) = ∅))
       "marking a hypothesis SUPPORTED requires supporting evidence".

(** [str(sorted(types))] *)
Definition show_types (types : gset string) : string :=
  py_repr (JArr (map JStr (sorted (elements types)))).

Definition evidence_types_of (evidence_types : gmap uuid string) (l : gset uuid) : gset string :=
  list_to_set (omap (fun e => evidence_types !! e) (elements l)).

Definition competing (key : string) (s : HypothesisSnapshot) : bool :=
  negb (bool_decide (hs_key s = key)) && bool_decide (hs_status s ∈ [H_ACTIVE; H_SUPPORTED]).

Definition card (l : gset uuid) : Z := Z.of_nat (size l).

Definition evaluate_conclusion (result : FinalInvestigationResult)
    (hypotheses : list (string * HypothesisSnapshot)) (evidence_types : gmap uuid string)
    (criteria : StoppingCriteria) : list string :=
  match assoc_get (selected_hypothesis_key result) hypotheses with
  | None => ["hypothesis " +++ repr_str (selected_hypothesis_key result) +++ " does not exist"]
  | Some selected =>
      let supports := ids (supporting selected) in
      let contradicts := ids (contradicting selected) in
      let types := evidence_types_of evidence_types supports in
      let acknowledged := ids (map cn_evidence_id (contradicting_evidence (rca result))) in
      let unaddressed := sorted_ids (contradicts ∖ acknowledged) in
      let still_open :=
        sorted (map hs_key (List.filter (competing (hs_key selected)) (hypotheses.*2))) in
      when (negb (bool_decide (hs_status selected = H_SUPPORTED)))
        ("selected hypothesis must be SUPPORTED (it is "
           +++ HypothesisStatus_value (hs_status selected)
           +++ "); update it with supporting evidence first")
      ++ when (card supports <? min_supporting_evidence criteria)
           ("selected hypothesis needs >= " +++ str_Z (min_supporting_evidence criteria)
              +++ " supporting evidence items (has " +++ str_Z (card supports) +++ ")")
      ++ when (Z.of_nat (size types) <? min_supporting_evidence_types criteria)
           ("supporting evidence must span >= " +++ str_Z (min_supporting_evidence_types criteria)
              +++ " evidence types (has " +++ show_types types +++ ")")
      ++ when (negb (bool_decide (contradicts = ∅)) && (card supports <=? card contradicts))
           "selected hypothesis has at least as much contradicting as supporting evidence"
      ++ when (negb (bool_decide (unaddressed = [])))
           ("contradicting evidence on the selected hypothesis must be explained in "
              +++ "rca.contradicting_evidence: " +++ join ", " unaddressed)
      ++ when (bool_decide (ids (gs_evidence_ids (root_cause (rca result))) ∩ supports = ∅))
           "rca.root_cause must cite the selected hypothesis's supporting evidence"
      ++ when (Z.of_nat (length hypotheses) <? min_hypotheses_considered criteria)
           ("consider >= " +++ str_Z (min_hypotheses_considered criteria)
              +++ " competing hypotheses (considered " +++ str_Z (Z.of_nat (length hypotheses)) +++ ")")
      ++ when (negb (bool_decide (still_open = [])))
           ("competing hypotheses must be WEAKENED or REJECTED with evidence first: "
              +++ join ", " still_open)
      ++ when (fltb (fr_confidence result) (min_confidence criteria))
           ("confidence " +++ frepr (fr_confidence result) +++ " is below "
              +++ frepr (min_confidence criteria))
  end.
