(* ===== verification/InvestigationRules.v ===== *)
(** * What the investigation rules accept

    [check_hypothesis_update] and [evaluate_conclusion] return the problems found; here
    an empty list is characterised by the conditions themselves.  And the reading of a
    model turn: every call of the model is accounted for exactly once. *)
From S2P Require Import Prelude PyFloat Json Enums Catalog RemediationDomain.
From S2P Require Import InvestigationDomain.
Local Open Scope Z_scope.

Lemma when_nil b p : when b p = [] <-> b = false.
Proof. by destruct b. Qed.

Lemma fixed_problem_nil name given fixed :
  fixed_problem name given fixed = []
  <-> forall g f, given = Some g -> fixed = Some f -> g = f.
Proof.
  unfold fixed_problem. destruct given as [g|], fixed as [f|]; [|naive_solver..].
  rewrite when_nil, negb_false_iff, bool_decide_eq_true. naive_solver.
Qed.

Lemma sorted_ids_nil l : sorted_ids l = [] <-> l = ∅.
Proof.
  unfold sorted_ids. rewrite sorted_nil. split; [|intros ->; by rewrite elements_empty].
  intros H%map_eq_nil. by apply leibniz_equiv, elements_empty_inv.
Qed.

Lemma difference_empty (X Y : gset uuid) : X ∖ Y = ∅ <-> forall e, e ∈ X -> e ∈ Y.
Proof. split; [by intros ?%empty_difference_subseteq_L|by intros ?%subseteq_empty_difference_L]. Qed.

Lemma elem_of_ids e l : e ∈ ids l <-> e ∈ l.
Proof. unfold ids. set_solver. Qed.

Lemma ids_empty l : ids l = ∅ <-> l = [].
Proof. unfold ids. split; [|by intros ->]. destruct l as [|e l]; [done|]. set_solver. Qed.

(** ** Hypothesis updates *)

(** What an update may do. *)
Definition update_allowed (u : HypothesisUpdate) (existing : option HypothesisSnapshot)
    (accessible : gset uuid) : Prop :=
  (forall e, e ∈ hu_supporting_evidence_ids u \/ e ∈ hu_contradicting_evidence_ids u ->
     e ∈ accessible)
  /\ (forall e, e ∈ hu_supporting_evidence_ids u -> ~ e ∈ hu_contradicting_evidence_ids u)
  /\ match existing with
     | None => (exists t, hu_description u = Some t /\ t <> "")
               /\ hu_cause_category u <> None /\ hu_component u <> None
     | Some h =>
         (forall g f, hu_cause_category u = Some g -> cause_category h = Some f -> g = f)
         /\ (forall g f, hu_component u = Some g -> component h = Some f -> g = f)
         /\ hs_status h <> H_REJECTED /\ hs_status h <> H_SELECTED
     end
  /\ (hu_status u = Some H_REJECTED ->
      hu_contradicting_evidence_ids u <> [] \/ exists h, existing = Some h /\ contradicting h <> [])
  /\ (hu_status u = Some H_SUPPORTED ->
      hu_supporting_evidence_ids u <> [] \/ exists h, existing = Some h /\ supporting h <> []).

(** The evidence a status claims: given now or linked before. *)
Lemma evidence_demanded (claims : bool) (l : list uuid) (existing : option HypothesisSnapshot)
    (get : HypothesisSnapshot -> list uuid) :
  claims && bool_decide (ids l ∪ ids (default [] (get <$> existing)) = ∅) = false
  <-> (claims = true -> l <> [] \/ exists h, existing = Some h /\ get h <> []).
Proof.
  rewrite andb_false_iff, bool_decide_eq_false, empty_union_L, !ids_empty.
  destruct claims; [|naive_solver]. destruct l; [|naive_solver].
  destruct existing as [h|]; simpl; [|naive_solver]. split.
  - intros [?|Hn] _; [done|]. right. exists h. naive_solver.
  - intros H. right. destruct H as [?|(q & [= <-] & ?)]; naive_solver.
Qed.

(** The checks on an update are exactly the rules.  No problem is found with an
    update if and only if it cites only accessible evidence, none of it for both sides,
    creates a complete hypothesis or changes one that is still open without changing
    what is fixed, and has evidence for the status it claims. *)
Lemma update_accepted_iff u existing accessible :
  check_hypothesis_update u existing accessible = [] <-> update_allowed u existing accessible.
Proof.
  unfold check_hypothesis_update, update_allowed, ungrounded_ids. cbv zeta.
  rewrite !app_nil, !when_nil, !negb_false_iff, !bool_decide_eq_true, sorted_ids_nil,
    !evidence_demanded, !bool_decide_eq_true.
  assert (forall A B C D E A' B' C', (A <-> A') -> (B <-> B') -> (C <-> C') ->
            (A /\ B /\ C /\ D /\ E <-> A' /\ B' /\ C' /\ D /\ E)) as Hand by tauto.
  apply Hand.
  - rewrite difference_empty. unfold ids. set_solver.
  - unfold ids. set_solver.
  - destruct existing as [h|].
    + rewrite !app_nil, !fixed_problem_nil, when_nil, bool_decide_eq_false. set_solver.
    + rewrite app_nil, !when_nil, negb_false_iff, orb_false_iff, !bool_decide_eq_false, nonempty_true.
      destruct (hu_description u) as [t|]; naive_solver.
Qed.

(** ** Conclusions *)

(** What justifies selecting a hypothesis. *)
Definition conclusion_warranted (r : FinalInvestigationResult)
    (hypotheses : list (string * HypothesisSnapshot)) (types : gmap uuid string)
    (c : StoppingCriteria) (h : HypothesisSnapshot) : Prop :=
  assoc_get (selected_hypothesis_key r) hypotheses = Some h
  /\ hs_status h = H_SUPPORTED
  /\ min_supporting_evidence c <= card (ids (supporting h))
  /\ min_supporting_evidence_types c
     <= Z.of_nat (size (evidence_types_of types (ids (supporting h))))
  /\ (contradicting h = [] \/ card (ids (contradicting h)) < card (ids (supporting h)))
  /\ (forall e, e ∈ contradicting h -> e ∈ map cn_evidence_id (contradicting_evidence (rca r)))
  /\ (exists e, e ∈ gs_evidence_ids (root_cause (rca r)) /\ e ∈ supporting h)
  /\ min_hypotheses_considered c <= Z.of_nat (length hypotheses)
  /\ (forall k q, (k, q) ∈ hypotheses -> hs_key q <> hs_key h ->
        hs_status q <> H_ACTIVE /\ hs_status q <> H_SUPPORTED)
  /\ fltb (fr_confidence r) (min_confidence c) = false.

Lemma still_open_nil key (l : list (string * HypothesisSnapshot)) :
  sorted (map hs_key (List.filter (competing key) l.*2)) = []
  <-> forall k q, (k, q) ∈ l -> hs_key q <> key -> hs_status q <> H_ACTIVE /\ hs_status q <> H_SUPPORTED.
Proof.
  rewrite sorted_nil. split.
  - intros Hn%map_eq_nil k q Hin Hk.
    assert (competing key q = false) as Hc.
    { destruct (competing key q) eqn:E; [|done].
      assert (In q (List.filter (competing key) l.*2)) as Hq.
      { apply filter_In. split; [|done]. apply list_elem_of_In, list_elem_of_fmap. by exists (k, q). }
      by rewrite Hn in Hq. }
    unfold competing in Hc. rewrite bool_decide_eq_false_2 in Hc by done. simpl in Hc.
    apply bool_decide_eq_false in Hc. set_solver.
  - intros H. destruct (List.filter _ _) as [|q m] eqn:E; [done|].
    assert (In q (List.filter (competing key) l.*2)) as Hq by (rewrite E; by left).
    apply filter_In in Hq as [Hin Hc]. apply list_elem_of_In, list_elem_of_fmap in Hin as ([k q'] & -> & Hin).
    simpl in *. unfold competing in Hc.
    rewrite andb_true_iff, negb_true_iff, bool_decide_eq_false, bool_decide_eq_true in Hc.
    destruct Hc as [Hk Hs]. destruct (H _ _ Hin Hk). set_solver.
Qed.

Lemma shared_evidence (a b : list uuid) :
  bool_decide (ids a ∩ ids b = ∅) = false <-> exists e, e ∈ a /\ e ∈ b.
Proof.
  rewrite bool_decide_eq_false. split.
  - intros (e & He)%set_choose_L. exists e. unfold ids in He. set_solver.
  - intros (e & ? & ?) Hn. unfold ids in Hn. set_solver.
Qed.

(** The stopping criteria are exactly what warrants a conclusion. *)
Lemma conclusion_warranted_iff r hypotheses types c :
  evaluate_conclusion r hypotheses types c = []
  <-> exists h, conclusion_warranted r hypotheses types c h.
Proof.
  unfold evaluate_conclusion, conclusion_warranted.
  destruct (assoc_get (selected_hypothesis_key r) hypotheses) as [h|]; [|naive_solver].
  cbv zeta.
  rewrite !app_nil, !when_nil, shared_evidence, !negb_false_iff, !Z.ltb_ge, !andb_false_iff,
    !bool_decide_eq_true, negb_false_iff, Z.leb_gt, bool_decide_eq_true, ids_empty, sorted_ids_nil,
    difference_empty, still_open_nil.
  setoid_rewrite elem_of_ids. naive_solver.
Qed.

(** ** Model turns *)

(** The calls a decision answers. *)
Definition call_ids (d : InvestigationDecision) : list string :=
  map huc_call_id (hypothesis_updates d) ++ map tr_call_id (tool_requests d)
  ++ match conclusion d with Some c => [cc_call_id c] | None => [] end
  ++ match inconclusive d with Some c => [ic_call_id c] | None => [] end
  ++ map inv_call_id (invalid_calls d).

Section Turn.
Context {MS : ModelSchemas}.

(** What every decision so far satisfies. *)
Definition decision_ok (names : gset string) (d : InvestigationDecision) : Prop :=
  (conclusion d = None \/ inconclusive d = None)
  /\ (forall u, u ∈ hypothesis_updates d -> batch_ok (batch u) = true)
  /\ (forall c, conclusion d = Some c -> final_result_ok (cc_result c) = true)
  /\ (forall c, inconclusive d = Some c -> declaration_ok (declaration c) = true)
  /\ (forall t, t ∈ tool_requests d -> tr_tool t ∈ names).

Ltac by_permutation :=
  destruct_and?; unfold call_ids; simpl; simplify_option_eq; rewrite ?map_app; simpl; solve_Permutation.

Lemma call_ids_update d x :
  call_ids (d <| hypothesis_updates ::= (fun l => l ++ [x]) |>) ≡ₚ huc_call_id x :: call_ids d.
Proof. by_permutation. Qed.
Lemma call_ids_tool d x :
  call_ids (d <| tool_requests ::= (fun l => l ++ [x]) |>) ≡ₚ tr_call_id x :: call_ids d.
Proof. by_permutation. Qed.
Lemma call_ids_invalid d x :
  call_ids (d <| invalid_calls ::= (fun l => l ++ [x]) |>) ≡ₚ inv_call_id x :: call_ids d.
Proof. by_permutation. Qed.
Lemma call_ids_conclusion d x :
  conclusion d = None -> call_ids (d <| conclusion := Some x |>) ≡ₚ cc_call_id x :: call_ids d.
Proof. intros E. unfold call_ids. simpl. rewrite E. solve_Permutation. Qed.
Lemma call_ids_inconclusive d x :
  inconclusive d = None -> call_ids (d <| inconclusive := Some x |>) ≡ₚ ic_call_id x :: call_ids d.
Proof. intros E. unfold call_ids. simpl. rewrite E. solve_Permutation. Qed.

Lemma only_one_terminal_true d :
  only_one_terminal d = true -> conclusion d = None /\ inconclusive d = None.
Proof.
  unfold only_one_terminal. rewrite andb_true_iff, !negb_true_iff, !bool_decide_eq_false.
  rewrite <- !eq_None_not_Some. done.
Qed.

Lemma interpret_action_ok names d a d' :
  decision_ok names d -> interpret_action names d a = inr d' ->
  decision_ok names d' /\ call_ids d' ≡ₚ act_call_id a :: call_ids d.
Proof.
  intros (H1 & H2 & H3 & H4 & H5). unfold interpret_action.
  repeat case_match; intros; simplify_eq;
    repeat match goal with H : only_one_terminal _ = true |- _ =>
      apply only_one_terminal_true in H as [? ?] end.
  - split; [|apply call_ids_update]. split_and!; try done. intros u [?|Hu]%elem_of_app; [auto|].
    apply list_elem_of_singleton in Hu as ->. by eapply validate_batch_ok.
  - split; [|by apply call_ids_conclusion]. split_and!; simpl; auto.
    intros c [= <-]. by eapply validate_result_ok.
  - split; [|by apply call_ids_inconclusive]. split_and!; simpl; auto.
    intros c [= <-]. by eapply validate_declaration_ok.
  - split; [|apply call_ids_tool]. split_and!; try done. intros t [?|Ht]%elem_of_app; [auto|].
    apply list_elem_of_singleton in Ht as ->. by eapply bool_decide_eq_true.
Qed.

Lemma interpret_step_ok names d a :
  decision_ok names d ->
  decision_ok names (interpret_step names d a)
  /\ call_ids (interpret_step names d a) ≡ₚ act_call_id a :: call_ids d.
Proof.
  intros Hd. unfold interpret_step. destruct (interpret_action names d a) as [e|d'] eqn:E.
  - split; [|apply call_ids_invalid]. by destruct Hd as (? & ? & ? & ? & ?).
  - by apply interpret_action_ok.
Qed.

Lemma no_decision_ok text names : decision_ok names (no_decision text).
Proof. unfold decision_ok. simpl. split_and!; try done; [by left|intros ? ?%elem_of_nil..]; done. Qed.

(** Nothing a model says is lost or invented.  A turn is always read; the calls of
    the decision are exactly the calls of the model, each answered once as an update, a
    tool request, a conclusion, a declaration or an invalid call; what is accepted
    satisfies its schema, tools are known ones and at most one call is terminal. *)
Lemma turn_is_accounted_for text actions names :
  exists d, interpret_turn text actions names = Ok d
    /\ call_ids d ≡ₚ map act_call_id actions
    /\ decision_ok names d.
Proof.
  unfold interpret_turn.
  assert (forall l d, decision_ok names d ->
            decision_ok names (foldl (interpret_step names) d l)
            /\ call_ids (foldl (interpret_step names) d l) ≡ₚ map act_call_id l ++ call_ids d) as Hfold.
  { induction l as [|a l IH]; intros d Hd; [done|]. simpl.
    destruct (interpret_step_ok names d a Hd) as [Hs Hc]. destruct (IH _ Hs) as [Hd' Hp].
    split; [done|]. rewrite Hp, Hc. solve_Permutation. }
  destruct (Hfold actions (no_decision text) (no_decision_ok _ _)) as [Hd Hp].
  eexists. split; [|split; [by rewrite Hp, app_nil_r|exact Hd]].
  unfold _one_terminal. by destruct Hd as [[-> | ->] _]; [|case_match].
Qed.
End Turn.
