(* ===== verification/Store.v ===== *)
(** * The [incident_core] store ([packages/incident/db/models.py], [repository.py])

    Tables as finite maps from primary keys (append-only tables as lists), one
    record per row class with the columns of its model, the transaction monad
    [Tx] and the persistence functions.  A transaction reads and writes the
    database and may raise; [atomically] commits its effect or rolls it back. Row
    locks make the transactions of one aggregate serial, so a command is one step.

    Reads inside a transaction see its earlier writes: the sessions are created
    with autoflush off, but every write the code reads back by a query is flushed
    before that query. All clock reads of one command return the same instant. *)
From S2P Require Import Prelude PyFloat Json Enums VerificationDomain Catalog RemediationDomain.
From S2P Require Import InvestigationDomain.
Local Open Scope Z_scope.

(** ** Rows *)

Record IncidentRow := {
  i_id : uuid;
  i_status : IncidentStatus;
  i_severity : AlertSeverity;
  i_service : string;
  i_environment : string;
  i_correlation_key : string;
  i_attempt_count : Z;
  i_version : Z;
  i_created_at : instant;
  i_updated_at : instant;
  i_closed_at : option instant;
}.
#[export] Instance IncidentRow_rebuild : Rebuild IncidentRow := fun r =>
  Build_IncidentRow (i_id r) (i_status r) (i_severity r) (i_service r) (i_environment r)
    (i_correlation_key r) (i_attempt_count r) (i_version r) (i_created_at r)
    (i_updated_at r) (i_closed_at r).

Record AlertRow := {
  a_id : uuid;
  a_external_id : option string;
  a_source : AlertSource;
  a_fingerprint : string;
  a_labels : labels_t;
  a_annotations : labels_t;
  a_severity : AlertSeverity;
  a_status : AlertStatus;
  a_incident_id : option uuid;
  a_raw_payload : json;
  a_received_at : instant;
  a_resolved_at : option instant;
}.
#[export] Instance AlertRow_rebuild : Rebuild AlertRow := fun r =>
  Build_AlertRow (a_id r) (a_external_id r) (a_source r) (a_fingerprint r) (a_labels r)
    (a_annotations r) (a_severity r) (a_status r) (a_incident_id r) (a_raw_payload r)
    (a_received_at r) (a_resolved_at r).

(** Event payloads ([packages/domain/events.py]). *)
Record IncidentStatusChangedPayload := {
  isc_incident_id : uuid; isc_from_status : string; isc_to_status : string;
  isc_reason : string; isc_version : Z
}.
Record RemediationEventPayload := {
  rep_remediation_id : uuid; rep_incident_id : uuid; rep_action_id : string;
  rep_catalog_version : string; rep_status : string; rep_proposal_hash : string;
  rep_actor : string; rep_policy_version : option string;
  rep_policy_decision : option string; rep_detail : json
}.
Record VerificationRequestedPayload := {
  vrp_verification_id : uuid; vrp_remediation_id : uuid; vrp_incident_id : uuid;
  vrp_action_id : string; vrp_target_service : string; vrp_requirements : list json
}.
Record KillSwitchChangedPayload := {
  ksp_scope : string; ksp_engaged : bool; ksp_actor : string; ksp_reason : option string
}.
Record VerificationEventPayload := {
  vep_verification_id : uuid; vep_incident_id : uuid; vep_remediation_id : uuid;
  vep_status : string; vep_policy_version : string; vep_claim_attempt : Z;
  vep_result : option string; vep_reason : option string; vep_next_action : option string
}.
Record IncidentClosureEventPayload := {
  icp_incident_id : uuid; icp_status : string; icp_reason : string;
  icp_verification_id : option uuid; icp_remediation_id : option uuid
}.
Record AlertReceivedPayload := {
  arp_alert_id : uuid; arp_fingerprint : string; arp_source : AlertSource; arp_incident_id : uuid
}.
Record IncidentCreatedPayload := {
  icr_incident_id : uuid; icr_correlation_key : string; icr_initial_severity : AlertSeverity;
  icr_service : string; icr_environment : string; icr_best_candidate_score : float;
  icr_matched_signals : list string
}.
Record AlertCorrelatedPayload := {
  acp_alert_id : uuid; acp_incident_id : uuid; acp_score : float;
  acp_matched_signals : list string
}.
Record AlertResolvedPayload := {
  alp_alert_id : uuid; alp_incident_id : uuid; alp_firing_alerts_remaining : Z
}.
Record EvidenceRefRegisteredPayload := {
  erp_evidence_id : uuid; erp_incident_id : uuid; erp_evidence_type : string;
  erp_source_system : string; erp_content_hash : string
}.

Record InvestigationStartedPayload := {
  isp_investigation_id : uuid; isp_incident_id : uuid; isp_attempt_number : Z;
  isp_model_provider : string; isp_model_name : string
}.
Record InvestigationCompletedPayload := {
  icm_investigation_id : uuid; icm_incident_id : uuid; icm_selected_hypothesis_id : uuid;
  icm_rca_report_id : uuid
}.
Record InvestigationFailedPayload := {
  ifp_investigation_id : uuid; ifp_incident_id : uuid; ifp_outcome : string;
  ifp_reason_code : string
}.

Inductive payload :=
| PIncidentStatusChanged (p : IncidentStatusChangedPayload)
| PRemediation (p : RemediationEventPayload)
| PVerificationRequested (p : VerificationRequestedPayload)
| PKillSwitchChanged (p : KillSwitchChangedPayload)
| PVerification (p : VerificationEventPayload)
| PIncidentClosure (p : IncidentClosureEventPayload)
| PAlertReceived (p : AlertReceivedPayload)
| PIncidentCreated (p : IncidentCreatedPayload)
| PAlertCorrelated (p : AlertCorrelatedPayload)
| PAlertResolved (p : AlertResolvedPayload)
| PEvidenceRefRegistered (p : EvidenceRefRegisteredPayload)
| PInvestigationStarted (p : InvestigationStartedPayload)
| PInvestigationCompleted (p : InvestigationCompletedPayload)
| PInvestigationFailed (p : InvestigationFailedPayload).

Record OutboxEventRow := {
  oe_sequence : Z;
  oe_event_id : uuid;
  oe_event_type : string;
  oe_schema_version : Z;
  oe_aggregate_type : string;
  oe_aggregate_id : uuid;
  oe_correlation_id : option uuid;
  oe_producer : string;
  oe_payload : payload;
  oe_occurred_at : instant;
  oe_published_at : option instant;
  oe_publish_attempts : Z;
  oe_last_publish_error : option string;
}.
#[export] Instance OutboxEventRow_rebuild : Rebuild OutboxEventRow := fun r =>
  Build_OutboxEventRow (oe_sequence r) (oe_event_id r) (oe_event_type r) (oe_schema_version r)
    (oe_aggregate_type r) (oe_aggregate_id r) (oe_correlation_id r) (oe_producer r)
    (oe_payload r) (oe_occurred_at r) (oe_published_at r) (oe_publish_attempts r)
    (oe_last_publish_error r).

(** [AlertReceivedResult] ([packages/domain/results.py]), as it is stored in the
    ledger of processed commands. *)
Record AlertReceivedResult := {
  ar_alert_id : uuid;
  ar_incident_id : option uuid;
  ar_incident_created : bool;
  ar_incident_status : option string;
}.

Record EvidenceRefRow := {
  er_id : uuid;
  er_incident_id : uuid;
  er_investigation_id : option uuid;
  er_evidence_type : string;
  er_content_hash : string;
  er_source_system : string;
  er_collected_at : instant;
}.

(** [model_config], [budget] and [final_result] are the documents stored. *)
Record InvestigationRow := {
  inv_id : uuid;
  inv_incident_id : uuid;
  inv_attempt_number : Z;
  inv_status : InvestigationStatus;
  inv_model_provider : string;
  inv_model_name : string;
  inv_model_config : json;
  inv_budget : InvestigationBudget;
  inv_iteration_count : Z;
  inv_tool_call_count : Z;
  inv_evidence_count : Z;
  inv_input_tokens : Z;
  inv_output_tokens : Z;
  inv_cache_read_tokens : Z;
  inv_cache_creation_tokens : Z;
  inv_last_action : option string;
  inv_failure_reason : option string;
  inv_escalation_reason : option string;
  inv_inconclusive_reason : option string;
  inv_selected_hypothesis_id : option uuid;
  inv_final_result : option json;
  inv_lease_owner : option string;
  inv_lease_expires_at : option instant;
  inv_created_at : instant;
  inv_started_at : option instant;
  inv_completed_at : option instant;
  inv_updated_at : instant;
}.
#[export] Instance InvestigationRow_rebuild : Rebuild InvestigationRow := fun r =>
  Build_InvestigationRow (inv_id r) (inv_incident_id r) (inv_attempt_number r) (inv_status r)
    (inv_model_provider r) (inv_model_name r) (inv_model_config r) (inv_budget r)
    (inv_iteration_count r) (inv_tool_call_count r) (inv_evidence_count r)
    (inv_input_tokens r) (inv_output_tokens r) (inv_cache_read_tokens r)
    (inv_cache_creation_tokens r) (inv_last_action r) (inv_failure_reason r)
    (inv_escalation_reason r) (inv_inconclusive_reason r) (inv_selected_hypothesis_id r)
    (inv_final_result r) (inv_lease_owner r) (inv_lease_expires_at r) (inv_created_at r)
    (inv_started_at r) (inv_completed_at r) (inv_updated_at r).

(** [confidence] is a [Numeric(3, 2)], read back as the float of its two decimals. *)
Record HypothesisRow := {
  h_id : uuid;
  h_investigation_id : uuid;
  h_key : string;
  h_description : string;
  h_status : HypothesisStatus;
  h_confidence : option float;
  h_missing_evidence : list string;
  h_cause_category : option string;
  h_component : option string;
  h_created_at : instant;
  h_updated_at : instant;
}.
#[export] Instance HypothesisRow_rebuild : Rebuild HypothesisRow := fun r =>
  Build_HypothesisRow (h_id r) (h_investigation_id r) (h_key r) (h_description r) (h_status r)
    (h_confidence r) (h_missing_evidence r) (h_cause_category r) (h_component r)
    (h_created_at r) (h_updated_at r).

Inductive LinkRelation := supports | contradicts.
#[export] Instance LinkRelation_eq_dec : EqDecision LinkRelation.
Proof. solve_decision. Defined.

Record HypothesisEvidenceLinkRow := {
  lk_hypothesis_id : uuid;
  lk_evidence_id : uuid;
  lk_relation : LinkRelation;
  lk_linked_at : instant;
}.

Record InvestigationStepRow := {
  st_id : uuid;
  st_investigation_id : uuid;
  st_sequence : Z;
  st_iteration : Z;
  st_kind : StepKind;
  st_call_id : option string;
  st_payload : json;
  st_latency_ms : option Z;
  st_created_at : instant;
}.

Record RcaReportRow := {
  rca_id : uuid;
  rca_incident_id : uuid;
  rca_investigation_id : uuid;
  rca_root_cause_hypothesis_id : uuid;
  rca_report : json;
  rca_summary : string;
  rca_generated_at : instant;
}.

Record RemediationRow := {
  rm_id : uuid;
  rm_incident_id : uuid;
  rm_investigation_id : option uuid;
  rm_idempotency_key : string;
  rm_action_id : string;
  rm_catalog_version : string;
  rm_parameters : params_t;
  rm_target_service : string;
  rm_environment : string;
  rm_reason : string;
  rm_expected_effect : string;
  rm_blast_radius_tier : option Z;
  rm_proposal_hash : string;
  rm_source : string;
  rm_proposed_by : string;
  rm_status : RemediationStatus;
  rm_policy_decision_id : option uuid;
  rm_approval_status : option string;
  rm_execution_status : option ExecutionStatus;
  rm_execution_attempts : Z;
  rm_executor_result : option json;
  rm_failure_reason : option string;
  rm_verification_ref : option uuid;
  rm_correlation_id : uuid;
  rm_lease_owner : option string;
  rm_lease_expires_at : option instant;
  rm_version : Z;
  rm_created_at : instant;
  rm_updated_at : instant;
  rm_completed_at : option instant;
}.
#[export] Instance RemediationRow_rebuild : Rebuild RemediationRow := fun r =>
  Build_RemediationRow (rm_id r) (rm_incident_id r) (rm_investigation_id r)
    (rm_idempotency_key r) (rm_action_id r) (rm_catalog_version r) (rm_parameters r)
    (rm_target_service r) (rm_environment r) (rm_reason r) (rm_expected_effect r)
    (rm_blast_radius_tier r) (rm_proposal_hash r) (rm_source r) (rm_proposed_by r)
    (rm_status r) (rm_policy_decision_id r) (rm_approval_status r) (rm_execution_status r)
    (rm_execution_attempts r) (rm_executor_result r) (rm_failure_reason r)
    (rm_verification_ref r) (rm_correlation_id r) (rm_lease_owner r) (rm_lease_expires_at r)
    (rm_version r) (rm_created_at r) (rm_updated_at r) (rm_completed_at r).

Record RemediationPolicyDecisionRow := {
  dec_id : uuid;
  dec_remediation_id : uuid;
  dec_proposal_hash : string;
  dec_policy_version : string;
  dec_catalog_version : option string;
  dec_catalog_digest : string;
  dec_decision : PolicyVerdict;
  dec_blast_radius_tier : option Z;
  dec_required_approver_roles : list string;
  dec_rules : list RuleOutcome;
  dec_reasons : list string;
  dec_policy_context : PolicyEvaluationContext;
  dec_evaluated_at : instant;
}.

Inductive ApprovalDecision := approved | rejected | timed_out.
#[export] Instance ApprovalDecision_eq_dec : EqDecision ApprovalDecision.
Proof. solve_decision. Defined.
Definition ApprovalDecision_value (d : ApprovalDecision) : string :=
  match d with approved => "approved" | rejected => "rejected" | timed_out => "timed_out" end.

Record RemediationApprovalRow := {
  ap_id : uuid;
  ap_remediation_id : uuid;
  ap_policy_decision_id : uuid;
  ap_proposal_hash : string;
  ap_decision : ApprovalDecision;
  ap_approver : string;
  ap_approver_role : option string;
  ap_comment : option string;
  ap_decided_at : instant;
}.

Record RemediationExecutionRow := {
  ex_id : uuid;
  ex_remediation_id : uuid;
  ex_attempt_number : Z;
  ex_idempotency_key : string;
  ex_status : ExecutionStatus;
  ex_executor : string;
  ex_owner : string;
  ex_started_at : instant;
  ex_deadline_at : instant;
  ex_completed_at : option instant;
  ex_result : option json;
  ex_error : option string;
}.
#[export] Instance RemediationExecutionRow_rebuild : Rebuild RemediationExecutionRow := fun r =>
  Build_RemediationExecutionRow (ex_id r) (ex_remediation_id r) (ex_attempt_number r)
    (ex_idempotency_key r) (ex_status r) (ex_executor r) (ex_owner r) (ex_started_at r)
    (ex_deadline_at r) (ex_completed_at r) (ex_result r) (ex_error r).

Record RemediationTimelineRow := {
  tl_remediation_id : uuid;
  tl_sequence : Z;
  tl_event : string;
  tl_from_status : option RemediationStatus;
  tl_to_status : option RemediationStatus;
  tl_actor : string;
  tl_correlation_id : uuid;
  tl_action_id : string;
  tl_catalog_version : string;
  tl_policy_version : option string;
  tl_details : json;
  tl_occurred_at : instant;
}.

Record KillSwitchRow := {
  ks_scope : string;
  ks_engaged : bool;
  ks_changed_by : option string;
  ks_reason : option string;
  ks_changed_at : instant;
}.

Record RemediationBaselineRow := {
  bl_remediation_id : uuid;
  bl_status : string;
  bl_values : list (string * json);
  bl_evidence_ids : list uuid;
  bl_captured_at : instant;
}.

Record VerificationRow := {
  v_id : uuid;
  v_incident_id : uuid;
  v_remediation_id : uuid;
  v_verification_type : string;
  v_policy_version : string;
  v_spec : VerificationSpec;
  v_baseline : option json;
  v_status : VerificationStatus;
  v_consecutive_successes : Z;
  v_observation_count : Z;
  v_conclusive_count : Z;
  v_result : option string;
  v_failure_reason : option string;
  v_next_action : option string;
  v_correlation_id : uuid;
  v_grace_until : option instant;
  v_deadline_at : option instant;
  v_next_poll_at : option instant;
  v_lease_owner : option string;
  v_lease_expires_at : option instant;
  v_claim_attempt : Z;
  v_known_alert_ids : list uuid;
  v_started_at : option instant;
  v_completed_at : option instant;
  v_created_at : instant;
  v_updated_at : instant;
}.
#[export] Instance VerificationRow_rebuild : Rebuild VerificationRow := fun r =>
  Build_VerificationRow (v_id r) (v_incident_id r) (v_remediation_id r) (v_verification_type r)
    (v_policy_version r) (v_spec r) (v_baseline r) (v_status r) (v_consecutive_successes r)
    (v_observation_count r) (v_conclusive_count r) (v_result r) (v_failure_reason r)
    (v_next_action r) (v_correlation_id r) (v_grace_until r) (v_deadline_at r)
    (v_next_poll_at r) (v_lease_owner r) (v_lease_expires_at r) (v_claim_attempt r)
    (v_known_alert_ids r) (v_started_at r) (v_completed_at r) (v_created_at r) (v_updated_at r).

Record VerificationObservationRow := {
  ob_verification_id : uuid;
  ob_sequence : Z;
  ob_claim_attempt : Z;
  ob_observed_at : instant;
  ob_passed : bool;
  ob_conclusive : bool;
  ob_checks : list CheckResult;
  ob_errors : list string;
  ob_evidence_ids : list uuid;
}.

Record VerificationEvidenceRow := {
  ve_verification_id : uuid;
  ve_evidence_id : uuid;
  ve_poll_sequence : Z;
  ve_role : string;
  ve_collected_at : instant;
}.

(** ** The database *)

Record db := {
  uuid_supply : uuid;
  incidents : gmap uuid IncidentRow;
  alerts : gmap uuid AlertRow;
  outbox_events : list OutboxEventRow;
  processed_commands : gmap (string * string) AlertReceivedResult;
  consumed_events : gset (string * uuid);
  evidence_refs : gmap uuid EvidenceRefRow;
  investigations : gmap uuid InvestigationRow;
  hypotheses : gmap uuid HypothesisRow;
  evidence_links : gmap (uuid * uuid) HypothesisEvidenceLinkRow;
  investigation_steps : list InvestigationStepRow;
  rca_reports : gmap uuid RcaReportRow;
  remediations : gmap uuid RemediationRow;
  policy_decisions : gmap uuid RemediationPolicyDecisionRow;
  approvals : gmap uuid RemediationApprovalRow;
  executions : gmap uuid RemediationExecutionRow;
  timeline : list RemediationTimelineRow;
  kill_switches : gmap string KillSwitchRow;
  baselines : gmap uuid RemediationBaselineRow;
  verifications : gmap uuid VerificationRow;
  observations : list VerificationObservationRow;
  verification_evidence : gmap (uuid * uuid) VerificationEvidenceRow;
}.
#[export] Instance db_rebuild : Rebuild db := fun d =>
  Build_db (uuid_supply d) (incidents d) (alerts d) (outbox_events d) (processed_commands d)
    (consumed_events d) (evidence_refs d) (investigations d) (hypotheses d) (evidence_links d)
    (investigation_steps d) (rca_reports d) (remediations d)
    (policy_decisions d) (approvals d) (executions d) (timeline d) (kill_switches d)
    (baselines d) (verifications d) (observations d) (verification_evidence d).

Definition empty_db : db :=
  Build_db 1 ∅ ∅ [] ∅ ∅ ∅ ∅ ∅ ∅ [] ∅ ∅ ∅ ∅ ∅ [] ∅ ∅ ∅ [] ∅.

(** ** Transactions *)

Definition Tx (A : Type) : Type := db -> result (A * db).

#[export] Instance Tx_ret : MRet Tx := fun A a d => Ok (a, d).
#[export] Instance Tx_bind : MBind Tx := fun A B k m d =>
  match m d with Ok (a, d') => k a d' | Err e => Err e end.

Definition raise {A} (e : exn) : Tx A := fun _ => Err e.
Definition reads {A} (f : db -> A) : Tx A := fun d => Ok (f d, d).
Definition writes (f : db -> db) : Tx () := fun d => Ok ((), f d).
Definition lift {A} (r : result A) : Tx A := fun d =>
  match r with Ok a => Ok (a, d) | Err e => Err e end.
Definition assert_ (b : bool) (msg : string) : Tx () :=
  if b then mret () else raise (AssertionError msg).

(** A lookup that must succeed, or the exception raised otherwise. *)
Definition must {A} (o : option A) (e : exn) : Tx A :=
  match o with Some a => mret a | None => raise e end.

(** [with self._session_factory() as session: ...; session.commit()]: the
    effect of a transaction that raises is rolled back. *)
Definition atomically {A} (m : Tx A) (d : db) : result A * db :=
  match m d with Ok (a, d') => (Ok a, d') | Err e => (Err e, d) end.

(** [uuid.uuid4()]: an identifier never issued before. *)
Definition uuid4 : Tx uuid := fun d =>
  Ok (uuid_supply d, d <| uuid_supply ::= N.succ |>).

(** ** Row access *)

Definition put_incident (r : IncidentRow) : Tx () :=
  writes (fun d => d <| incidents ::= <[i_id r := r]> |>).
Definition put_alert (r : AlertRow) : Tx () :=
  writes (fun d => d <| alerts ::= <[a_id r := r]> |>).
Definition put_remediation (r : RemediationRow) : Tx () :=
  writes (fun d => d <| remediations ::= <[rm_id r := r]> |>).
Definition put_execution (r : RemediationExecutionRow) : Tx () :=
  writes (fun d => d <| executions ::= <[ex_id r := r]> |>).
Definition put_investigation (r : InvestigationRow) : Tx () :=
  writes (fun d => d <| investigations ::= <[inv_id r := r]> |>).
Definition put_hypothesis (r : HypothesisRow) : Tx () :=
  writes (fun d => d <| hypotheses ::= <[h_id r := r]> |>).
Definition put_verification (r : VerificationRow) : Tx () :=
  writes (fun d => d <| verifications ::= <[v_id r := r]> |>).

(** ** Repository functions *)

(** [insert_outbox_event] *)
Definition insert_outbox_event (now : instant) (event_type aggregate_type : string)
    (aggregate_id : uuid) (correlation_id : option uuid) (p : payload) : Tx () :=
  event_id ← uuid4;
  writes (fun d => d <| outbox_events ::= (fun l => l ++
    [ {| oe_sequence := Z.of_nat (length l) + 1;
         oe_event_id := event_id;
         oe_event_type := event_type;
         oe_schema_version := 1;
         oe_aggregate_type := aggregate_type;
         oe_aggregate_id := aggregate_id;
         oe_correlation_id := correlation_id;
         oe_producer := "incident-core";
         oe_payload := p;
         oe_occurred_at := now;
         oe_published_at := None;
         oe_publish_attempts := 0;
         oe_last_publish_error := None |} ]) |>).

(** [transition_incident_status]: [UPDATE ... WHERE version = :expected]. The
    caller holds a copy of the row; [None] when its version moved. *)
Definition transition_incident_status (incident : IncidentRow) (to_status : IncidentStatus)
    (now : instant) (closes : bool) : Tx (option IncidentRow) :=
  current ← reads (fun d => incidents d !! i_id incident);
  match current with
  | Some row =>
      if i_version row =? i_version incident then
        let row' := row <| i_status := to_status |> <| i_version := i_version incident + 1 |>
                        <| i_updated_at := now |>
                        <| i_closed_at ::= (fun c => if closes then Some now else c) |> in
        put_incident row' ;;
        mret (Some row')
      else mret None
  | None => mret None
  end.

(** [count_firing_alerts] *)
Definition firing_of (incident_id : uuid) (r : AlertRow) : bool :=
  bool_decide (a_incident_id r = Some incident_id) && bool_decide (a_status r = FIRING).
Definition rows {A} (m : gmap uuid A) : list A := (map_to_list m).*2.
Definition count_firing (d : db) (incident_id : uuid) : Z :=
  Z.of_nat (length (List.filter (firing_of incident_id) (rows (alerts d)))).
Definition count_firing_alerts (incident_id : uuid) : Tx Z :=
  reads (fun d => count_firing d incident_id).

(** The status-change event every service emits after a transition. *)
Definition status_changed_event (now : instant) (incident : IncidentRow)
    (from_status : IncidentStatus) (reason : string) : Tx () :=
  insert_outbox_event now "IncidentStatusChanged" "Incident" (i_id incident)
    (Some (i_id incident))
    (PIncidentStatusChanged
       {| isc_incident_id := i_id incident;
          isc_from_status := IncidentStatus_value from_status;
          isc_to_status := IncidentStatus_value (i_status incident);
          isc_reason := reason;
          isc_version := i_version incident |}).

(** [transition_incident_status], raising on a conflict, then the event. *)
Definition transition_with_event (now : instant) (incident : IncidentRow)
    (to_status : IncidentStatus) (closes : bool) (reason conflict : string) : Tx IncidentRow :=
  moved ← transition_incident_status incident to_status now closes;
  match moved with
  | None => raise (ConcurrentModificationError conflict)
  | Some incident' =>
      status_changed_event now incident' (i_status incident) reason ;;
      mret incident'
  end.
