(* ===== verification/TxLogic.v ===== *)
(** * Reasoning about transactions

    Inversion of successful runs of [Tx] programs, and [relates]: a preorder on
    databases that every successful run of a program respects, proved
    compositionally from its primitives. *)
From S2P Require Import Prelude PyFloat Json Enums Store.
Local Open Scope Z_scope.

(** ** Successful runs *)

Lemma bind_Ok {A B} (m : Tx A) (k : A -> Tx B) d b d' :
  (m ≫= k) d = Ok (b, d') <-> exists a d1, m d = Ok (a, d1) /\ k a d1 = Ok (b, d').
Proof.
  unfold mbind, Tx_bind. destruct (m d) as [[a d1]|e]; split; intros Hr;
    [by exists a, d1|destruct Hr as (? & ? & ? & ?); by simplify_eq|done|
     destruct Hr as (? & ? & ? & ?); by simplify_eq].
Qed.

Lemma ret_Ok {A} (a : A) d b d' : (mret a : Tx A) d = Ok (b, d') <-> b = a /\ d' = d.
Proof. unfold mret, Tx_ret. split; [intros ?; by simplify_eq|by intros [-> ->]]. Qed.

Lemma raise_Ok {A} e d (b : A) d' : raise e d = Ok (b, d') <-> False.
Proof. done. Qed.

Lemma reads_Ok {A} (f : db -> A) d b d' : reads f d = Ok (b, d') <-> b = f d /\ d' = d.
Proof. unfold reads. split; [intros ?; by simplify_eq|by intros [-> ->]]. Qed.

Lemma writes_Ok f d b d' : writes f d = Ok (b, d') <-> d' = f d.
Proof. unfold writes. destruct b. split; [intros ?; by simplify_eq|by intros ->]. Qed.

Lemma lift_Ok {A} (r : result A) d b d' : lift r d = Ok (b, d') <-> r = Ok b /\ d' = d.
Proof. unfold lift. destruct r; split; naive_solver. Qed.

Lemma must_Ok {A} (o : option A) e d b d' : must o e d = Ok (b, d') <-> o = Some b /\ d' = d.
Proof.
  unfold must. destruct o; [rewrite ret_Ok|rewrite raise_Ok]; naive_solver.
Qed.

Lemma uuid4_Ok d b d' :
  uuid4 d = Ok (b, d') <-> b = uuid_supply d /\ d' = d <| uuid_supply ::= N.succ |>.
Proof. unfold uuid4. split; [intros ?; by simplify_eq|by intros [-> ->]]. Qed.

Create HintDb tx.
#[export] Hint Rewrite @ret_Ok @raise_Ok @reads_Ok writes_Ok @lift_Ok @must_Ok uuid4_Ok : tx.

(** Inverts every hypothesis that states a successful run of a composed program;
    [if] and [match] on the way are split. *)
Ltac tx_inv1 :=
  match goal with
  | H : (_ ≫= _) _ = Ok _ |- _ => apply bind_Ok in H as (? & ? & ? & H)
  | H : (mret _ : Tx _) _ = Ok _ |- _ => apply ret_Ok in H as [? ?]; simplify_eq
  | H : mret _ _ = Ok _ |- _ => apply ret_Ok in H as [? ?]; simplify_eq
  | H : raise _ _ = Ok _ |- _ => by apply raise_Ok in H
  | H : reads _ _ = Ok _ |- _ => apply reads_Ok in H as [? ?]; simplify_eq
  | H : writes _ _ = Ok _ |- _ => apply writes_Ok in H; simplify_eq
  | H : lift _ _ = Ok _ |- _ => apply lift_Ok in H as [? ?]; simplify_eq
  | H : must _ _ _ = Ok _ |- _ => apply must_Ok in H as [? ?]; simplify_eq
  | H : uuid4 _ = Ok _ |- _ => apply uuid4_Ok in H as [? ?]; simplify_eq
  end.
Ltac tx_inv := repeat (tx_inv1; cbv beta zeta in * ).

(** ** Preorders every run respects *)

Definition relates {A} (R : relation db) (m : Tx A) : Prop :=
  forall d a d', m d = Ok (a, d') -> R d d'.

Section Relates.
Context (R : relation db) `{!PreOrder R}.

Lemma relates_ret {A} (a : A) : relates R (mret a : Tx A).
Proof. intros d b d' [_ ->]%ret_Ok. reflexivity. Qed.

Lemma relates_raise {A} e : relates R (raise e : Tx A).
Proof. intros d b d' ?. by tx_inv. Qed.

Lemma relates_reads {A} (f : db -> A) : relates R (reads f).
Proof. intros d b d' [_ ->]%reads_Ok. reflexivity. Qed.

Lemma relates_lift {A} (r : result A) : relates R (lift r).
Proof. intros d b d' [_ ->]%lift_Ok. reflexivity. Qed.

Lemma relates_must {A} (o : option A) e : relates R (must o e).
Proof. intros d b d' [_ ->]%must_Ok. reflexivity. Qed.

Lemma relates_bind {A B} (m : Tx A) (k : A -> Tx B) :
  relates R m -> (forall a, relates R (k a)) -> relates R (m ≫= k).
Proof.
  intros Hm Hk d b d' (a & d1 & H1 & H2)%bind_Ok. transitivity d1; [by eapply Hm|by eapply Hk].
Qed.

Lemma relates_writes f : (forall d, R d (f d)) -> relates R (writes f).
Proof. intros Hf d b d' ->%writes_Ok. apply Hf. Qed.

Lemma atomically_relates {A} (m : Tx A) d : relates R m -> R d (atomically m d).2.
Proof. intros Hm. unfold atomically. destruct (m d) as [[a d']|e] eqn:E; simpl; [by eapply Hm|done]. Qed.
End Relates.

Create HintDb relates.
#[export] Hint Resolve relates_ret relates_raise relates_reads relates_lift relates_must : relates.

(** Decomposes a program into its primitives; what [relates] knows is closed. *)
Ltac relates_step :=
  match goal with
  | |- relates _ (_ ≫= _) => apply relates_bind; [typeclasses eauto| |intros ?]
  | |- relates _ (match ?x with _ => _ end) => destruct x
  | |- relates _ (let _ := _ in _) => cbv zeta
  | |- relates _ _ => solve [auto 3 with relates typeclass_instances]
  end.
Ltac relates_auto := intros; repeat relates_step.

(** ** Transactions that only publish *)

(** Nothing but the outbox and the identifier supply differs. *)
Definition quiet (d d' : db) : Prop :=
  d' = d <| uuid_supply := uuid_supply d' |> <| outbox_events := outbox_events d' |>
  /\ (uuid_supply d <= uuid_supply d')%N.

#[export] Instance quiet_preorder : PreOrder quiet.
Proof.
  split.
  - intros d. split; [by destruct d|lia].
  - intros d1 d2 d3 [H1 ?] [H2 ?]. split; [|lia]. rewrite H2 at 1. rewrite H1. done.
Qed.

Lemma quiet_uuid4 : relates quiet uuid4.
Proof. intros d a d' [-> ->]%uuid4_Ok. split; [by destruct d|simpl; lia]. Qed.
#[export] Hint Resolve quiet_uuid4 : relates.

Lemma quiet_outbox now et at_ ai ci p : relates quiet (insert_outbox_event now et at_ ai ci p).
Proof.
  unfold insert_outbox_event. apply relates_bind; [typeclasses eauto|apply quiet_uuid4|].
  intros e. apply relates_writes. intros d. split; [by destruct d|simpl; lia].
Qed.
#[export] Hint Resolve quiet_outbox : relates.

Lemma quiet_run {A} (m : Tx A) d a d' : relates quiet m -> m d = Ok (a, d') -> quiet d d'.
Proof. intros Hm Hr. by eapply Hm. Qed.

(** Turns each run of a quiet helper into [quiet]. *)
Ltac quiet_runs :=
  repeat match goal with
  | Hr : ?m ?d = Ok (_, ?d') |- _ =>
      let Hq := fresh "Hquiet" in
      assert (quiet d d') as Hq by (eapply (quiet_run m); [solve [auto 2 with relates]|exact Hr]);
      clear Hr
  end.

Lemma count_firing_ext d d1 i : alerts d1 = alerts d -> count_firing d1 i = count_firing d i.
Proof. unfold count_firing. by intros ->. Qed.

(** ** Transactions that register evidence *)

(** They write the references and the outbox. *)
Definition evidence_frame (d d' : db) : Prop :=
  d' = d <| uuid_supply := uuid_supply d' |> <| outbox_events := outbox_events d' |>
         <| evidence_refs := evidence_refs d' |>
  /\ (uuid_supply d <= uuid_supply d')%N.
#[export] Instance evidence_frame_preorder : PreOrder evidence_frame.
Proof.
  split.
  - intros d. split; [by destruct d|lia].
  - intros d1 d2 d3 [H1 ?] [H2 ?]. split; [|lia]. rewrite H2 at 1. rewrite H1. done.
Qed.

(** ** Programs that do not raise *)

(** [m] goes through in [d]. *)
Definition total {A} (m : Tx A) (d : db) : Prop := exists a d', m d = Ok (a, d').

Lemma total_bind {A B} (m : Tx A) (k : A -> Tx B) d :
  total m d -> (forall a d1, m d = Ok (a, d1) -> total (k a) d1) -> total (m ≫= k) d.
Proof.
  intros (a & d1 & Hm) Hk. destruct (Hk a d1 Hm) as (b & d2 & Hb).
  exists b, d2. apply bind_Ok. eauto.
Qed.

Lemma total_ret {A} (a : A) d : total (mret a : Tx A) d.
Proof. by exists a, d. Qed.
Lemma total_reads {A} (f : db -> A) d : total (reads f) d.
Proof. by exists (f d), d. Qed.
Lemma total_writes f d : total (writes f) d.
Proof. by exists (), (f d). Qed.
Lemma total_uuid4 d : total uuid4 d.
Proof. by eexists _, _. Qed.
Create HintDb total.
#[export] Hint Resolve total_ret total_reads total_writes total_uuid4 : total.

Lemma total_outbox now et at_ ai ci p d : total (insert_outbox_event now et at_ ai ci p) d.
Proof. unfold insert_outbox_event. by eexists _, _. Qed.
#[export] Hint Resolve total_outbox : total.

Lemma total_must {A} (o : option A) e d : is_Some o -> total (must o e) d.
Proof. intros [a ->]. by exists a, d. Qed.
Lemma total_lift {A} (r : result A) a d : r = Ok a -> total (lift r) d.
Proof. intros ->. by exists a, d. Qed.

(** ** Incident transitions *)

(** The row a transition writes. *)
Definition moved_row (now : instant) (to : IncidentStatus) (closes : bool) (inc : IncidentRow)
    : IncidentRow :=
  inc <| i_status := to |> <| i_version := i_version inc + 1 |> <| i_updated_at := now |>
      <| i_closed_at ::= (fun c => if closes then Some now else c) |>.

(** From the row as it is stored, a transition goes through. *)
Lemma transition_status_run inc to now closes d o d' :
  transition_incident_status inc to now closes d = Ok (o, d') -> incidents d !! i_id inc = Some inc ->
  o = Some (moved_row now to closes inc)
  /\ d' = d <| incidents ::= <[i_id inc := moved_row now to closes inc]> |>.
Proof.
  unfold transition_incident_status, put_incident. intros Hr Hi. tx_inv. rewrite Hi in *. simpl in *.
  rewrite Z.eqb_refl in *. by tx_inv.
Qed.

Lemma transition_with_event_run now inc to closes reason conflict d inc' d' :
  transition_with_event now inc to closes reason conflict d = Ok (inc', d') ->
  incidents d !! i_id inc = Some inc ->
  inc' = moved_row now to closes inc
  /\ quiet (d <| incidents ::= <[i_id inc := inc']> |>) d'.
Proof.
  unfold transition_with_event, status_changed_event. intros Hr Hi. tx_inv.
  match goal with H : transition_incident_status _ _ _ _ _ = _ |- _ =>
    apply transition_status_run in H as [-> ->]; [|done] end.
  tx_inv. quiet_runs. split; [done|]. done.
Qed.

Lemma total_transition_with_event now inc to closes reason conflict d :
  incidents d !! i_id inc = Some inc ->
  total (transition_with_event now inc to closes reason conflict) d.
Proof.
  intros Hi. unfold transition_with_event, transition_incident_status, total.
  unfold mbind, Tx_bind, reads. rewrite Hi, Z.eqb_refl. by eexists _, _.
Qed.
