(* ===== verification/Prog.v ===== *)
(** * Programs that keep what they wrote

    [Prog S A]: a program over a state that returns or raises, and keeps the writes made
    before an exception, as code outside a transaction does.  The state is a Redis key
    space ([Redis]), a database, or several of these side by side; [transact] runs one
    database transaction, committed or rolled back. *)
From S2P Require Import Prelude PyFloat Json Store.

Definition Prog (S A : Type) : Type := S -> result A * S.

#[export] Instance Prog_ret {S} : MRet (Prog S) := fun A a s => (Ok a, s).
#[export] Instance Prog_bind {S} : MBind (Prog S) := fun A B k m s =>
  match m s with
  | (Ok a, s') => k a s'
  | (Err e, s') => (Err e, s')
  end.

Definition throw {S A} (e : exn) : Prog S A := fun s => (Err e, s).
Definition pure {S A} (r : result A) : Prog S A := fun s => (r, s).
(** [try: ...], the exception as a value *)
Definition attempt {S A} (m : Prog S A) : Prog S (result A) := fun s =>
  let '(r, s') := m s in (Ok r, s').
(** A program over one component of a pair. *)
Definition on_left {S T A} (m : Prog S A) : Prog (S * T) A := fun s =>
  let '(r, s1) := m s.1 in (r, (s1, s.2)).
Definition on_right {S T A} (m : Prog T A) : Prog (S * T) A := fun s =>
  let '(r, s2) := m s.2 in (r, (s.1, s2)).
(** [with self._session_factory() as session: ...; session.commit()] *)
Definition transact {A} (m : Tx A) : Prog db A := atomically m.

Lemma prog_bind_run {S A B} (m : Prog S A) (k : A -> Prog S B) s b s' :
  (m ≫= k) s = (Ok b, s') <-> exists a s1, m s = (Ok a, s1) /\ k a s1 = (Ok b, s').
Proof.
  unfold mbind, Prog_bind. destruct (m s) as [[a|e] s1]; naive_solver.
Qed.

(** Any run of a sequence: it stops at the first, or goes on. *)
Lemma prog_bind_cases {S A B} (m : Prog S A) (k : A -> Prog S B) s r s' :
  (m ≫= k) s = (r, s') ->
  (exists e, m s = (Err e, s') /\ r = Err e) \/ (exists a s1, m s = (Ok a, s1) /\ k a s1 = (r, s')).
Proof.
  unfold mbind, Prog_bind. destruct (m s) as [[a|e] s1]; [right; eauto|].
  intros [= <- <-]. left. eauto.
Qed.

Lemma prog_ret_run {S A} (a : A) (s : S) r s' :
  (mret a : Prog S A) s = (r, s') -> r = Ok a /\ s' = s.
Proof. by intros [= <- <-]. Qed.

Lemma transact_cases {A} (m : Tx A) d r d' :
  transact m d = (r, d') -> (exists a, r = Ok a /\ m d = Ok (a, d')) \/ (exists e, r = Err e) /\ d' = d.
Proof. unfold transact, atomically. destruct (m d) as [[a d1]|e]; intros [= <- <-]; eauto. Qed.

(** ** What every run respects *)

Section Keeps.
Context {S : Type} (R : relation S) `{!PreOrder R}.

(** Whether it returns or raises. *)
Definition respects {A} (m : Prog S A) : Prop := forall s, R s (m s).2.

Lemma respects_ret {A} (a : A) : respects (mret a).
Proof. intros s. reflexivity. Qed.
Lemma respects_pure {A} (r : result A) : respects (pure r).
Proof. intros s. simpl. reflexivity. Qed.
Lemma respects_throw {A} e : respects (throw (A := A) e).
Proof. intros s. simpl. reflexivity. Qed.
Lemma respects_bind {A B} (m : Prog S A) (k : A -> Prog S B) :
  respects m -> (forall a, respects (k a)) -> respects (m ≫= k).
Proof.
  intros Hm Hk s. specialize (Hm s). unfold mbind, Prog_bind.
  destruct (m s) as [[a|e] s1]; simpl in *; [|done]. transitivity s1; [done|]. apply Hk.
Qed.
Lemma respects_attempt {A} (m : Prog S A) : respects m -> respects (attempt m).
Proof. intros Hm s. specialize (Hm s). unfold attempt. by destruct (m s). Qed.
End Keeps.
