(* ===== verification/Redis.v ===== *)
(** * The Redis commands the workers use

    Redis is a service outside the repository: a key space and its commands are an
    interface [Redis], with the documented effect of each command as its laws.  A text
    written by [json.dumps] and read back by [json.loads] is kept as the document it
    denotes ([Doc]).  Programs over the key space are [Prog]rams.  The last section gives an implementation of the
    interface by finite maps, on which programs evaluate. *)
From S2P Require Import Prelude PyFloat Json Store Prog.

(** What is stored under a key. *)
Inductive rtext := Text (s : string) | Doc (j : json).
Inductive rvalue :=
| RStr (t : rtext)
| RList (l : list rtext)
| RHash (h : gmap string string).

Definition WRONGTYPE : exn :=
  ResponseError "WRONGTYPE Operation against a key holding the wrong kind of value".

Class Redis := {
  keyspace : Type;
  (** what the keys hold *)
  view : keyspace -> gmap string rvalue;
  SET : string -> rtext -> keyspace -> keyspace;
  DEL : string -> keyspace -> keyspace;
  GET : string -> keyspace -> result (option rtext);
  LRANGE : string -> keyspace -> result (list rtext);
  RPUSH : string -> rtext -> keyspace -> result keyspace;
  HGET : string -> string -> keyspace -> result (option string);
  HSET : string -> string -> string -> keyspace -> result keyspace;
  (** [json.loads] of a text no modelled [json.dumps] wrote *)
  loads_text : string -> result json;
  (** [json.dumps] *)
  dumps_text : json -> string;
  view_SET : forall k t s, view (SET k t s) = <[k := RStr t]> (view s);
  view_DEL : forall k s, view (DEL k s) = delete k (view s);
  GET_view : forall k s, GET k s = match view s !! k with
                                   | None => Ok None
                                   | Some (RStr t) => Ok (Some t)
                                   | Some _ => Err WRONGTYPE
                                   end;
  LRANGE_view : forall k s, LRANGE k s = match view s !! k with
                                         | None => Ok []
                                         | Some (RList l) => Ok l
                                         | Some _ => Err WRONGTYPE
                                         end;
  RPUSH_err : forall k t s e, RPUSH k t s = Err e <->
    e = WRONGTYPE /\ exists v, view s !! k = Some v /\ forall l, v <> RList l;
  RPUSH_view : forall k t s s', RPUSH k t s = Ok s' ->
    exists l, LRANGE k s = Ok l /\ view s' = <[k := RList (l ++ [t])]> (view s);
  HGET_view : forall k f s, HGET k f s = match view s !! k with
                                         | None => Ok None
                                         | Some (RHash h) => Ok (h !! f)
                                         | Some _ => Err WRONGTYPE
                                         end;
  HSET_err : forall k f x s e, HSET k f x s = Err e <->
    e = WRONGTYPE /\ exists v, view s !! k = Some v /\ forall h, v <> RHash h;
  HSET_view : forall k f x s s', HSET k f x s = Ok s' ->
    exists h, (view s !! k = None /\ h = ∅ \/ view s !! k = Some (RHash h))
      /\ view s' = <[k := RHash (<[f := x]> h)]> (view s);
}.

(** ** Programs *)

Abbreviation Rd := (Prog keyspace).

Section Programs.
Context {RD : Redis}.

Definition asks {A} (f : keyspace -> result A) : Rd A := fun s => (f s, s).
Definition tells (f : keyspace -> result keyspace) : Rd () := fun s =>
  match f s with Ok s' => (Ok (), s') | Err e => (Err e, s) end.

Definition redis_set (k : string) (t : rtext) : Rd () := tells (fun s => Ok (SET k t s)).
Definition redis_delete (k : string) : Rd () := tells (fun s => Ok (DEL k s)).
Definition redis_get (k : string) : Rd (option rtext) := asks (GET k).
Definition redis_lrange (k : string) : Rd (list rtext) := asks (LRANGE k).
Definition redis_rpush (k : string) (t : rtext) : Rd () := tells (RPUSH k t).
Definition redis_hget (k f : string) : Rd (option string) := asks (HGET k f).
Definition redis_hset (k f x : string) : Rd () := tells (HSET k f x).

(** [lindex(key, -1)] *)
Definition redis_last (k : string) : Rd (option rtext) := l ← redis_lrange k; mret (last l).

(** [json.loads(raw) if raw else None] *)
Definition loads (t : rtext) : result json :=
  match t with Doc j => Ok j | Text s => loads_text s end.
Definition has_text (t : rtext) : bool :=
  match t with Doc _ => true | Text s => nonempty s end.
Definition text_of (t : rtext) : string :=
  match t with Doc j => dumps_text j | Text s => s end.
Definition loads_opt (t : option rtext) : result (option json) :=
  match t with
  | Some t => if has_text t then j <-! loads t; Ok (Some j) else Ok None
  | None => Ok None
  end.

(** [j.get(k)]: only a dictionary has it. *)
Definition get_attr (k : string) (j : json) : result json :=
  match j with
  | JObj _ => Ok (jget k j)
  | _ => Err (AttributeError "object has no attribute 'get'")
  end.

(** ** Runs *)

Lemma redis_set_run k t s : redis_set k t s = (Ok (), SET k t s).
Proof. done. Qed.
Lemma redis_delete_run k s : redis_delete k s = (Ok (), DEL k s).
Proof. done. Qed.

(** A program writes only keys that satisfy [P], whether it returns or raises. *)
Definition within (P : string -> Prop) {A} (m : Rd A) : Prop :=
  forall s, forall k, ~ P k -> view ((m s).2) !! k = view s !! k.

(** A program writes nothing. *)
Definition reader {A} (m : Rd A) : Prop := forall s, (m s).2 = s.

Lemma within_ret P {A} (a : A) : within P (mret a).
Proof. by intros s k. Qed.
Lemma within_throw P {A} e : within P (throw (A := A) e).
Proof. by intros s k. Qed.
Lemma within_pure P {A} (r : result A) : within P (pure r).
Proof. by intros s k. Qed.
Lemma within_asks P {A} (f : keyspace -> result A) : within P (asks f).
Proof. by intros s k. Qed.
Lemma within_bind P {A B} (m : Rd A) (k : A -> Rd B) :
  within P m -> (forall a, within P (k a)) -> within P (m ≫= k).
Proof.
  intros Hm Hk s key Hkey. specialize (Hm s key Hkey).
  unfold mbind, Prog_bind. destruct (m s) as [[a|e] s1]; simpl in *; [|done].
  by rewrite (Hk a s1 key Hkey).
Qed.
Lemma within_set (P : string -> Prop) key t : P key -> within P (redis_set key t).
Proof.
  intros HP s k Hk. unfold redis_set, tells. simpl. rewrite view_SET.
  apply lookup_insert_ne. by intros <-.
Qed.
Lemma within_delete (P : string -> Prop) key : P key -> within P (redis_delete key).
Proof.
  intros HP s k Hk. unfold redis_delete, tells. simpl. rewrite view_DEL.
  apply lookup_delete_ne. by intros <-.
Qed.
Lemma within_rpush (P : string -> Prop) key t : P key -> within P (redis_rpush key t).
Proof.
  intros HP s k Hk. unfold redis_rpush, tells. destruct (RPUSH key t s) as [s'|] eqn:E; [|done].
  apply RPUSH_view in E as (l & _ & Hv). simpl. rewrite Hv. apply lookup_insert_ne. by intros <-.
Qed.
Lemma within_hset (P : string -> Prop) key f x : P key -> within P (redis_hset key f x).
Proof.
  intros HP s k Hk. unfold redis_hset, tells. destruct (HSET key f x s) as [s'|] eqn:E; [|done].
  apply HSET_view in E as (h & _ & Hv). simpl. rewrite Hv. apply lookup_insert_ne. by intros <-.
Qed.
End Programs.

#[export] Hint Resolve within_ret within_throw within_pure within_asks within_bind within_set
  within_delete within_rpush within_hset : redis.

(** ** An implementation *)

#[export] Instance map_redis : Redis.
Proof.
  refine {|
    keyspace := gmap string rvalue;
    view := fun s => s;
    SET := fun k t s => <[k := RStr t]> s;
    DEL := fun k s => delete k s;
    GET := fun k s => match s !! k with
                      | None => Ok None | Some (RStr t) => Ok (Some t) | Some _ => Err WRONGTYPE end;
    LRANGE := fun k s => match s !! k with
                         | None => Ok [] | Some (RList l) => Ok l | Some _ => Err WRONGTYPE end;
    RPUSH := fun k t s => match s !! k with
                          | None => Ok (<[k := RList [t]]> s)
                          | Some (RList l) => Ok (<[k := RList (l ++ [t])]> s)
                          | Some _ => Err WRONGTYPE end;
    HGET := fun k f s => match s !! k with
                         | None => Ok None | Some (RHash h) => Ok (h !! f) | Some _ => Err WRONGTYPE end;
    HSET := fun k f x s => match s !! k with
                           | None => Ok (<[k := RHash {[f := x]}]> s)
                           | Some (RHash h) => Ok (<[k := RHash (<[f := x]> h)]> s)
                           | Some _ => Err WRONGTYPE end;
    loads_text := fun t => match parse_int t with
                           | Some n => Ok (JInt n) | None => Err (ValueError "Expecting value") end;
    dumps_text := json_dumps |};
    try done.
  - intros k t s e. destruct (s !! k) as [[]|]; naive_solver.
  - intros k t s s' H. destruct (s !! k) as [[]|]; naive_solver.
  - intros k f x s e. destruct (s !! k) as [[]|]; naive_solver.
  - intros k f x s s' H. destruct (s !! k) as [[]|]; naive_solver.
Defined.
