(* ===== verification/Executor.v ===== *)
(** * The remediation executor ([packages/remediation/executor.py])

    [SimulatorRemediationExecutor]: one catalog action per request against the simulated
    production environment, which is the Redis keys of a service: its fault, its desired
    replicas and feature flags, its deployment and configuration registries.  The clock
    readings and the [uuid4] of a call are one [Stamp]. *)
From S2P Require Import Prelude PyFloat Json VerificationDomain Catalog RemediationDomain Store Prog Redis.
Local Open Scope Z_scope.

(** ** Keys ([packages/evidence/adapters/changes.py]) *)
Definition DEPLOYMENTS_KEY (service : string) : string := "changes:deployments:" +++ service.
Definition CONFIG_KEY (service : string) : string := "changes:config:" +++ service.
Definition REPLICAS_KEY (service : string) : string := "sim:replicas:" +++ service.
Definition FLAGS_KEY (service : string) : string := "sim:flags:" +++ service.
Definition APPLIED_KEY (key : string) : string := "sim:remediation:applied:" +++ key.
Definition OPS_LOG_KEY (service : string) : string := "sim:ops:" +++ service.
Definition fault_key (service : string) : string := "chaos:" +++ service.

Definition MAX_REPLICAS : Z := 10.
Definition RESTART_CLEARS : list string := ["memory-leak"; "high-cpu"].
Definition CONFIG_KEY_NAME : string := "request_pipeline_config_version".
Definition ACTOR : string := "remediation-executor".

(** [datetime.now(UTC)], [time.time()] and [uuid.uuid4()] of one call. *)
Record Stamp := { st_now : instant; st_time : float; st_fresh : uuid }.

Record ExecutionRequest := {
  rq_execution_id : string;
  rq_idempotency_key : string;
  rq_action_id : string;
  rq_catalog_version : string;
  rq_parameters : params_t;
  rq_target_service : string;
  rq_environment : string;
  rq_deadline : instant;
}.

(** [detail] and [error] are read back from a stored document as they are. *)
Record ExecutorResult := {
  res_succeeded : bool;
  res_detail : json;
  res_error : json;
  res_retryable : bool;
}.
#[export] Instance ExecutorResult_rebuild : Rebuild ExecutorResult := fun r =>
  Build_ExecutorResult (res_succeeded r) (res_detail r) (res_error r) (res_retryable r).

Definition succeeded (detail : list (string * json)) : ExecutorResult :=
  {| res_succeeded := true; res_detail := JObj detail; res_error := JNull; res_retryable := false |}.
Definition failed (detail : list (string * json)) (error : string) : ExecutorResult :=
  {| res_succeeded := false; res_detail := JObj detail; res_error := JStr error;
     res_retryable := false |}.

Definition result_to_json (r : ExecutorResult) : json :=
  JObj [("succeeded", JBool (res_succeeded r)); ("detail", res_detail r);
        ("error", res_error r); ("retryable", JBool (res_retryable r))].

(** [data["succeeded"]] and [data.get(...)]: only a dictionary has both. *)
Definition result_from_json (data : json) : result ExecutorResult :=
  match data with
  | JObj l =>
      ok <-! jitem "succeeded" l;
      Ok {| res_succeeded := truthy ok;
            res_detail := or_empty (jget "detail" data);
            res_error := jget "error" data;
            res_retryable := truthy (jget "retryable" data) |}
  | _ => Err (TypeError "result record is not a dictionary")
  end.

Definition jobj_or_empty (o : option json) : json :=
  match o with Some j => or_empty j | None => JObj [] end.

Section Executor.
Context {PY : Pydantic} {RD : Redis}.

(** ** [SimulatedChangeSystem] *)

Definition _latest (key : string) : Rd (option json) :=
  raw ← redis_last key;
  pure (loads_opt raw).

Definition current_deployment (service : string) : Rd (option json) :=
  _latest (DEPLOYMENTS_KEY service).
Definition current_config (service : string) : Rd (option json) := _latest (CONFIG_KEY service).

(** The first of the texts whose document has the version. *)
Fixpoint first_version (version : string) (l : list rtext) : result (option json) :=
  match l with
  | [] => Ok None
  | raw :: l' =>
      record <-! loads raw;
      v <-! get_attr "version" record;
      if py_eq v (JStr version) then Ok (Some record) else first_version version l'
  end.

Definition find_deployment (service version : string) : Rd (option json) :=
  l ← redis_lrange (DEPLOYMENTS_KEY service);
  pure (first_version version (reverse l)).

Definition rollback_record (st : Stamp) (service environment to_version : string)
    (previous commit_sha : json) : json :=
  JObj [("deployment_id", JStr (str_uuid (st_fresh st))); ("service", JStr service);
        ("environment", JStr environment); ("version", JStr to_version);
        ("previous_version", previous); ("commit_sha", commit_sha);
        ("deployed_at", JStr (isoformat (st_now st))); ("deployed_by", JStr ACTOR);
        ("change_type", JStr "rollback")].

Definition record_rollback (st : Stamp) (service environment to_version : string)
    (commit_sha : json) : Rd json :=
  current ← current_deployment service;
  previous ← pure (get_attr "version" (jobj_or_empty current));
  let record := rollback_record st service environment to_version previous commit_sha in
  redis_rpush (DEPLOYMENTS_KEY service) (Doc record) ;;
  mret record.

Definition config_record (st : Stamp) (service environment : string) (old : json)
    (new_value : string) : json :=
  JObj [("change_id", JStr (str_uuid (st_fresh st))); ("service", JStr service);
        ("environment", JStr environment); ("key", JStr CONFIG_KEY_NAME);
        ("old_value", old); ("new_value", JStr new_value);
        ("changed_at", JStr (isoformat (st_now st))); ("changed_by", JStr ACTOR)].

Definition record_config (st : Stamp) (service environment new_value : string) : Rd json :=
  current ← current_config service;
  old ← pure (get_attr "new_value" (jobj_or_empty current));
  let record := config_record st service environment old new_value in
  redis_rpush (CONFIG_KEY service) (Doc record) ;;
  mret record.

(** ** Actions *)

Definition _fault (service : string) : Rd (option json) :=
  raw ← redis_get (fault_key service);
  pure (loads_opt raw).

(** [v in scenarios], a set of strings: lists and dictionaries are not hashable. *)
Definition in_scenarios (v : json) (scenarios : list string) : result (option string) :=
  match v with
  | JStr s => Ok (if bool_decide (s ∈ scenarios) then Some s else None)
  | JArr _ | JObj _ => Err (TypeError "unhashable type")
  | _ => Ok None
  end.

Definition fault_scenario (fault : option json) (scenarios : list string)
    : result (option string) :=
  match fault with
  | Some f =>
      if truthy f then v <-! get_attr "scenario" f; in_scenarios v scenarios else Ok None
  | None => Ok None
  end.

Definition _clear_fault (service : string) (scenarios : list string) : Rd (option string) :=
  fault ← _fault service;
  found ← pure (fault_scenario fault scenarios);
  match found with
  | Some s => redis_delete (fault_key service) ;; mret (Some s)
  | None => mret None
  end.

Definition _restart_service (service : string) : Rd ExecutorResult :=
  cleared ← _clear_fault service RESTART_CLEARS;
  mret (succeeded [("restarted", JStr service); ("cleared_fault", jopt_str cleared)]).

(** [int(raw or 1)] *)
Definition replicas_of (raw : option rtext) : result Z :=
  match raw with
  | Some t => if has_text t then py_int (JStr (text_of t)) else Ok 1
  | None => Ok 1
  end.

Definition _scale_service (service : string) (increase_by : Z) : Rd ExecutorResult :=
  raw ← redis_get (REPLICAS_KEY service);
  before ← pure (replicas_of raw);
  let after := before + increase_by in
  if MAX_REPLICAS <? after then
    mret (failed [("replicas", JInt before)]
            ("would exceed " +++ str_Z MAX_REPLICAS +++ " replicas"))
  else
    redis_set (REPLICAS_KEY service) (Text (str_Z after)) ;;
    mret (succeeded [("replicas_before", JInt before); ("replicas_after", JInt after)]).

Definition _rollback_deployment (st : Stamp) (environment service from_version to_version : string)
    : Rd ExecutorResult :=
  current ← current_deployment service;
  running ← pure (get_attr "version" (jobj_or_empty current));
  if py_eq running (JStr to_version) then
    cleared ← _clear_fault service ["bad-deployment"];
    mret (succeeded [("already_at", JStr to_version); ("cleared_fault", jopt_str cleared);
                     ("no_op", JBool true)])
  else if negb (py_eq running (JStr from_version)) then
    mret (failed [("running", running)]
            ("target changed: " +++ service +++ " runs " +++ py_str running +++ ", not "
               +++ from_version))
  else
    target ← find_deployment service to_version;
    sha ← pure (get_attr "commit_sha" (jobj_or_empty target));
    record ← record_rollback st service environment to_version sha;
    cleared ← _clear_fault service ["bad-deployment"];
    mret (succeeded [("deployment_id", jget "deployment_id" record);
                     ("from_version", JStr from_version); ("to_version", JStr to_version);
                     ("cleared_fault", jopt_str cleared)]).

Definition _disable_feature_flag (service flag : string) : Rd ExecutorResult :=
  previous ← redis_hget (FLAGS_KEY service) flag;
  redis_hset (FLAGS_KEY service) flag "false" ;;
  mret (succeeded [("flag", JStr flag); ("previous", jopt_str previous); ("now", JStr "false")]).

Definition _revert_configuration (st : Stamp) (environment service key : string)
    (from_value to_value : json) : Rd ExecutorResult :=
  if negb (bool_decide (key = CONFIG_KEY_NAME)) then
    mret (failed [] ("unknown configuration key " +++ repr_str key))
  else
    latest ← current_config service;
    current ← pure (get_attr "new_value" (jobj_or_empty latest));
    if py_eq current to_value then
      cleared ← _clear_fault service ["bad-configuration"];
      mret (succeeded [("already", current); ("cleared_fault", jopt_str cleared);
                       ("no_op", JBool true)])
    else if negb (py_eq current from_value) then
      mret (failed [("current", current)]
              ("target changed: " +++ key +++ " is " +++ py_repr current +++ ", not "
                 +++ py_repr from_value))
    else
      record ← record_config st service environment (py_str to_value);
      cleared ← _clear_fault service ["bad-configuration"];
      mret (succeeded [("change_id", jget "change_id" record); ("key", JStr key);
                       ("now", to_value); ("cleared_fault", jopt_str cleared)]).

(** [getattr(self, f"_{request.action_id}")]: a catalog entry's parameters are of the
    class of its handler. *)
Definition handler (st : Stamp) (environment : string) (p : Params) : Rd ExecutorResult :=
  match p with
  | RestartServiceParams s => _restart_service s
  | ScaleServiceParams s n => _scale_service s n
  | RollbackDeploymentParams s f t => _rollback_deployment st environment s f t
  | DisableFeatureFlagParams s f => _disable_feature_flag s f
  | RevertConfigurationParams s k f t => _revert_configuration st environment s k f t
  end.

(** ** [inspect] and [execute] *)

Definition inspect (idempotency_key : string) : Rd (option ExecutorResult) :=
  raw ← redis_get (APPLIED_KEY idempotency_key);
  data ← pure (loads_opt raw);
  match data with
  | Some j => r ← pure (result_from_json j); mret (Some r)
  | None => mret None
  end.

Definition operation_entry (st : Stamp) (rq : ExecutionRequest) (r : ExecutorResult) : json :=
  JObj [("at", JFloat (st_time st)); ("action", JStr (rq_action_id rq));
        ("parameters", JObj (rq_parameters rq));
        ("idempotency_key", JStr (rq_idempotency_key rq));
        ("succeeded", JBool (res_succeeded r)); ("error", res_error r)].

(** Why a request is refused before anything is done, or the parsed parameters. *)
Definition authorize (rq : ExecutionRequest) : Params + ExecutorResult :=
  match get_entry (rq_action_id rq) with
  | Some entry =>
      if negb (bool_decide (rq_catalog_version rq = CATALOG_VERSION)) then
        inr (failed [] (rq_action_id rq +++ " is not a current catalog action"))
      else
        match validate entry (rq_parameters rq) with
        | (None, problems) => inr (failed [] ("invalid parameters: " +++ join "; " problems))
        | (Some params, _) =>
            if negb (bool_decide (params_service params = rq_target_service rq)) then
              inr (failed [] "parameters target a different service")
            else if negb (bool_decide (rq_environment rq ∈ allowed_environments entry)) then
              inr (failed [] (rq_action_id rq +++ " not allowed in " +++ rq_environment rq))
            else inl params
        end
  | None => inr (failed [] (rq_action_id rq +++ " is not a current catalog action"))
  end.

Definition execute (st : Stamp) (rq : ExecutionRequest) : Rd ExecutorResult :=
  previous ← inspect (rq_idempotency_key rq);
  match previous with
  | Some r => mret r
  | None =>
      match authorize rq with
      | inr refused => mret refused
      | inl params =>
          if rq_deadline rq <=? st_now st then
            throw (ExecutionTimeout "deadline passed before the action started")
          else
            r ← handler st (rq_environment rq) params;
            redis_set (APPLIED_KEY (rq_idempotency_key rq)) (Doc (result_to_json r)) ;;
            redis_rpush (OPS_LOG_KEY (rq_target_service rq)) (Doc (operation_entry st rq r)) ;;
            mret r
      end
  end.
End Executor.
