(* ===== verification/ExecutorSafety.v ===== *)
(** * What the executor does to the simulated environment

    A request acts only as authorised and only on its target ([acts_only_as_authorised]),
    a recorded request is answered from its record ([recorded_request_is_replayed]), a
    record reads back as it was written ([stored_result_reads_back]), and an action the
    catalog marks as safe to retry acts again only when it reverts a configuration to
    something that is no text ([retry_cannot_act_twice]). *)
From S2P Require Import Prelude PyFloat Json VerificationDomain Catalog RemediationDomain.
From S2P Require Import Store Prog Redis Executor.
Local Open Scope Z_scope.

(** The keys that are the simulated production of a service. *)
Definition environment_keys (service : string) : list string :=
  [fault_key service; REPLICAS_KEY service; FLAGS_KEY service; DEPLOYMENTS_KEY service;
   CONFIG_KEY service].

Section Executor.
Context {PY : Pydantic} {RD : Redis}.

(** ** What is read *)

(** [(latest or {}).get(field)] of a registry. *)
Definition registry_at (key fld : string) (s : keyspace) : result json :=
  l <-! LRANGE key s;
  o <-! loads_opt (last l);
  get_attr fld (jobj_or_empty o).

Definition scenario_at (service : string) (scenarios : list string) (s : keyspace)
    : result (option string) :=
  raw <-! GET (fault_key service) s;
  fault <-! loads_opt raw;
  fault_scenario fault scenarios.

Lemma latest_run {A} key fld (k : json -> Rd A) s :
  (current ← _latest key; v ← pure (get_attr fld (jobj_or_empty current)); k v) s
  = match registry_at key fld s with Ok v => k v s | Err e => (Err e, s) end.
Proof.
  unfold _latest, redis_last, redis_lrange, registry_at, asks, pure, mbind, Prog_bind, mret, Prog_ret.
  destruct (LRANGE key s) as [l|]; simpl; [|done].
  destruct (loads_opt (last l)) as [o|]; simpl; [|done].
  by destruct (get_attr fld (jobj_or_empty o)).
Qed.

Lemma clear_fault_run service scenarios s :
  _clear_fault service scenarios s
  = match scenario_at service scenarios s with
    | Ok (Some x) => (Ok (Some x), DEL (fault_key service) s)
    | Ok None => (Ok None, s)
    | Err e => (Err e, s)
    end.
Proof.
  unfold _clear_fault, _fault, redis_get, scenario_at, asks, pure, mbind, Prog_bind, mret, Prog_ret.
  destruct (GET _ s) as [raw|]; simpl; [|done].
  destruct (loads_opt raw) as [o|]; simpl; [|done].
  by destruct (fault_scenario o scenarios) as [[]|].
Qed.

Lemma registry_ext key fld s s' :
  view s' !! key = view s !! key -> registry_at key fld s' = registry_at key fld s.
Proof. intros H. unfold registry_at. by rewrite !LRANGE_view, H. Qed.

Lemma scenario_ext service scenarios s s' :
  view s' !! fault_key service = view s !! fault_key service ->
  scenario_at service scenarios s' = scenario_at service scenarios s.
Proof. intros H. unfold scenario_at. by rewrite !GET_view, H. Qed.

Lemma clear_fault_done service scenarios s c s1 :
  _clear_fault service scenarios s = (Ok c, s1) -> scenario_at service scenarios s1 = Ok None.
Proof.
  rewrite clear_fault_run.
  destruct (scenario_at service scenarios s) as [[x|]|] eqn:E; intros; simplify_eq; [|done].
  unfold scenario_at. rewrite GET_view, view_DEL, lookup_delete_eq. done.
Qed.

(** A push makes its document the latest. *)
Lemma pushed_latest key fld l s s1 :
  RPUSH key (Doc (JObj l)) s = Ok s1 -> l <> [] -> registry_at key fld s1 = Ok (jget fld (JObj l)).
Proof.
  intros (l0 & _ & Hv)%RPUSH_view Hl. unfold registry_at.
  rewrite LRANGE_view, Hv, lookup_insert_eq. simpl. rewrite last_snoc. simpl.
  destruct l; done.
Qed.

Lemma record_rollback_run st service environment to sha s :
  record_rollback st service environment to sha s
  = match registry_at (DEPLOYMENTS_KEY service) "version" s with
    | Ok previous =>
        match RPUSH (DEPLOYMENTS_KEY service)
                (Doc (rollback_record st service environment to previous sha)) s with
        | Ok s1 => (Ok (rollback_record st service environment to previous sha), s1)
        | Err e => (Err e, s)
        end
    | Err e => (Err e, s)
    end.
Proof.
  unfold record_rollback, current_deployment. rewrite latest_run.
  destruct (registry_at _ _ s) as [v|]; [|done].
  unfold redis_rpush, tells, mbind, Prog_bind. by destruct (RPUSH _ _ s).
Qed.

Lemma record_config_run st service environment value s :
  record_config st service environment value s
  = match registry_at (CONFIG_KEY service) "new_value" s with
    | Ok old =>
        match RPUSH (CONFIG_KEY service)
                (Doc (config_record st service environment old value)) s with
        | Ok s1 => (Ok (config_record st service environment old value), s1)
        | Err e => (Err e, s)
        end
    | Err e => (Err e, s)
    end.
Proof.
  unfold record_config, current_config. rewrite latest_run.
  destruct (registry_at _ _ s) as [v|]; [|done].
  unfold redis_rpush, tells, mbind, Prog_bind. by destruct (RPUSH _ _ s).
Qed.

(** ** What is written *)

Ltac within_step :=
  first [ apply within_bind; [|intros ?] | apply within_ret | apply within_throw
        | apply within_pure | apply within_asks | apply within_set | apply within_delete
        | apply within_rpush | apply within_hset ].

Lemma clear_fault_within service scenarios (P : string -> Prop) :
  P (fault_key service) -> within P (_clear_fault service scenarios).
Proof.
  intros HP. unfold _clear_fault, _fault, redis_get.
  repeat first [within_step | case_match | done].
Qed.

Lemma record_rollback_within st service environment to sha (P : string -> Prop) :
  P (DEPLOYMENTS_KEY service) -> within P (record_rollback st service environment to sha).
Proof.
  intros HP. unfold record_rollback, current_deployment, _latest, redis_last, redis_lrange.
  repeat first [within_step | done].
Qed.

Lemma record_config_within st service environment value (P : string -> Prop) :
  P (CONFIG_KEY service) -> within P (record_config st service environment value).
Proof.
  intros HP. unfold record_config, current_config, _latest, redis_last, redis_lrange.
  repeat first [within_step | done].
Qed.

(** Scaling is the action whose repetition adds up. *)
Definition scales (p : Params) : bool :=
  match p with ScaleServiceParams _ _ => true | _ => false end.

(** Every handler keeps to the keys of its target; only scaling writes the replicas. *)
Lemma handler_within st environment p :
  within (fun k => k ∈ environment_keys (params_service p)
                   /\ (scales p = false -> k <> REPLICAS_KEY (params_service p)))
    (handler st environment p).
Proof.
  destruct p as [v|v n|v f t|v f|v key f t]; simpl;
    [unfold _restart_service|unfold _scale_service, redis_get|unfold _rollback_deployment,
     current_deployment, find_deployment, _latest, redis_last, redis_lrange
    |unfold _disable_feature_flag, redis_hget|unfold _revert_configuration, current_config,
     _latest, redis_last, redis_lrange];
    repeat first [ apply clear_fault_within | apply record_rollback_within
                 | apply record_config_within | within_step | case_match ];
    (split; [unfold environment_keys; set_solver|discriminate]).
Qed.

(** Replicas are only ever set within the bound. *)
Lemma handler_replicas st environment p s service :
  view (handler st environment p s).2 !! REPLICAS_KEY service <> view s !! REPLICAS_KEY service ->
  exists n, n <= MAX_REPLICAS
    /\ view (handler st environment p s).2 !! REPLICAS_KEY service = Some (RStr (Text (str_Z n))).
Proof.
  intros Hne. destruct (scales p) eqn:Hp; cycle 1.
  - exfalso. apply Hne, (handler_within st environment p). intros [Hin Hrep].
    rewrite Hp in Hrep. unfold environment_keys in Hin.
    repeat (apply elem_of_cons in Hin as [Hin|Hin]; [try discriminate|]); [|by apply not_elem_of_nil in Hin].
    by apply (Hrep eq_refl).
  - destruct p as [|v n| | |]; try done. simpl in *. revert Hne.
    unfold _scale_service, redis_get, asks, pure, mbind, Prog_bind, mret, Prog_ret.
    destruct (GET _ s) as [raw|]; simpl; [|done].
    destruct (replicas_of raw) as [before|]; simpl; [|done].
    destruct (Z.ltb_spec MAX_REPLICAS (before + n)); simpl; [done|].
    rewrite view_SET. intros Hne. exists (before + n). split; [done|].
    destruct (decide (REPLICAS_KEY service = REPLICAS_KEY v)) as [->|Hk].
    + by rewrite lookup_insert_eq.
    + by rewrite lookup_insert_ne in Hne.
Qed.

Lemma handler_detail st environment p s r s1 :
  handler st environment p s = (Ok r, s1) -> or_empty (res_detail r) = res_detail r.
Proof.
  destruct p; simpl;
    unfold _restart_service, _scale_service, _rollback_deployment, _disable_feature_flag,
      _revert_configuration; intros H;
    repeat first [ apply prog_bind_run in H as (? & ? & _ & H) | case_match ];
    unfold mret, Prog_ret in H; simplify_eq; done.
Qed.

Lemma environment_keys_bookkeeping service k key service' :
  k ∈ environment_keys service -> k <> APPLIED_KEY key /\ k <> OPS_LOG_KEY service'.
Proof.
  unfold environment_keys. rewrite !elem_of_cons, elem_of_nil.
  intros [->|[->|[->|[->|[->|[]]]]]]; split; discriminate.
Qed.

Lemma applied_not_ops key service : APPLIED_KEY key <> OPS_LOG_KEY service.
Proof. discriminate. Qed.

(** ** [execute], case by case *)

Lemma inspect_run {A} key (k : option ExecutorResult -> Rd A) s :
  (previous ← inspect key; k previous) s
  = match (inspect key s).1 with Ok previous => k previous s | Err e => (Err e, s) end.
Proof.
  unfold inspect, redis_get, asks, pure, mbind, Prog_bind, mret, Prog_ret.
  destruct (GET _ s) as [raw|]; simpl; [|done].
  destruct (loads_opt raw) as [[j|]|]; simpl; [|done|done].
  by destruct (result_from_json j).
Qed.

Lemma inspect_ext key s s' :
  view s' !! APPLIED_KEY key = view s !! APPLIED_KEY key -> (inspect key s').1 = (inspect key s).1.
Proof.
  intros H. unfold inspect, redis_get, asks, pure, mbind, Prog_bind, mret, Prog_ret.
  rewrite !GET_view, H. destruct (view s !! APPLIED_KEY key) as [[t| |]|]; try done; simpl.
  destruct (if has_text t then _ else _) as [[j|]|]; simpl; [|done|done].
  by destruct (result_from_json j).
Qed.

Lemma stored_result r : result_from_json (result_to_json r) = Ok (r <| res_detail := or_empty (res_detail r) |>).
Proof. by destruct r. Qed.

(** What a request does: it is answered from its record, refused, late, or acts; an
    action that raises is not recorded. *)
Definition acts (st : Stamp) (rq : ExecutionRequest) (p : Params) (s : keyspace) : Prop :=
  (inspect (rq_idempotency_key rq) s).1 = Ok None /\ authorize rq = inl p
  /\ st_now st < rq_deadline rq.

Lemma execute_cases st rq s :
  (execute st rq s).2 = s /\
    ((exists r, (inspect (rq_idempotency_key rq) s).1 = Ok (Some r) /\ (execute st rq s).1 = Ok r)
     \/ (exists r, (inspect (rq_idempotency_key rq) s).1 = Ok None /\ authorize rq = inr r
                   /\ (execute st rq s).1 = Ok r)
     \/ exists e, (execute st rq s).1 = Err e)
  \/ exists p, acts st rq p s /\
       ((exists e s1, handler st (rq_environment rq) p s = (Err e, s1)
                      /\ execute st rq s = (Err e, s1))
        \/ exists r s1, handler st (rq_environment rq) p s = (Ok r, s1)
             /\ execute st rq s
                = match RPUSH (OPS_LOG_KEY (rq_target_service rq)) (Doc (operation_entry st rq r))
                          (SET (APPLIED_KEY (rq_idempotency_key rq)) (Doc (result_to_json r)) s1) with
                  | Ok s2 => (Ok r, s2)
                  | Err e => (Err e, SET (APPLIED_KEY (rq_idempotency_key rq)) (Doc (result_to_json r)) s1)
                  end).
Proof.
  unfold execute, acts. rewrite inspect_run.
  destruct (inspect _ s).1 as [[r|]|e]; simpl; [left; eauto| |left; eauto 6].
  destruct (authorize rq) as [p|r]; simpl; [|left; eauto 10].
  destruct (Z.leb_spec (rq_deadline rq) (st_now st)); simpl; [left; eauto 6|].
  right. exists p. split; [done|].
  unfold redis_set, redis_rpush, tells, mbind, Prog_bind, mret, Prog_ret.
  destruct (handler st (rq_environment rq) p s) as [[r|e] s1] eqn:E; simpl; [right|left; eauto].
  exists r, s1. split; [done|]. by destruct (RPUSH _ _ _).
Qed.

Lemma authorize_inl rq p :
  authorize rq = inl p ->
  exists e ps, get_entry (rq_action_id rq) = Some e /\ rq_catalog_version rq = CATALOG_VERSION
    /\ validate e (rq_parameters rq) = (Some p, ps) /\ params_service p = rq_target_service rq
    /\ rq_environment rq ∈ allowed_environments e.
Proof.
  unfold authorize. destruct (get_entry _) as [e|]; [|done].
  destruct (bool_decide (rq_catalog_version rq = _)) eqn:Ev; simpl; [|done].
  destruct (validate e _) as [[q|] ps] eqn:E; simpl; [|done].
  destruct (bool_decide (params_service q = _)) eqn:Es; simpl; [|done].
  destruct (bool_decide (rq_environment rq ∈ _)) eqn:En; simpl; [|done].
  intros [= ->]. exists e, ps. repeat split; try done; by eapply bool_decide_eq_true_1.
Qed.

(** The bookkeeping after an action touches no environment key. *)
Lemma execute_environment st rq s k service :
  k ∈ environment_keys service ->
  view (execute st rq s).2 !! k = view s !! k
  \/ exists p, acts st rq p s
       /\ view (execute st rq s).2 !! k = view (handler st (rq_environment rq) p s).2 !! k.
Proof.
  intros Hk. destruct (environment_keys_bookkeeping _ _ (rq_idempotency_key rq) (rq_target_service rq) Hk) as [Ha Ho].
  destruct (execute_cases st rq s) as [[-> _]|(p & Hacts & [(e & s1 & Hh & ->)|(r & s1 & Hh & ->)])];
    [by left|right; exists p; split; [done|]; by rewrite Hh|].
  right. exists p. split; [done|]. rewrite Hh.
  assert (view (SET (APPLIED_KEY (rq_idempotency_key rq)) (Doc (result_to_json r)) s1) !! k
          = view s1 !! k) as Hset by (rewrite view_SET; by apply lookup_insert_ne).
  destruct (RPUSH _ _ _) as [s2|e] eqn:E; simpl; [|done].
  apply RPUSH_view in E as (l & _ & ->). by rewrite lookup_insert_ne.
Qed.
(** ** Doing it again *)

Lemma clear_then {A} service scenarios (k : option string -> A) s :
  (cleared ← _clear_fault service scenarios; mret (k cleared)) s
  = match scenario_at service scenarios s with
    | Ok (Some x) => (Ok (k (Some x)), DEL (fault_key service) s)
    | Ok None => (Ok (k None), s)
    | Err e => (Err e, s)
    end.
Proof.
  unfold mbind, Prog_bind. rewrite clear_fault_run.
  by destruct (scenario_at service scenarios s) as [[x|]|].
Qed.

Lemma clear_then_done {A} service scenarios (k : option string -> A) s a s1 :
  (cleared ← _clear_fault service scenarios; mret (k cleared)) s = (Ok a, s1) ->
  scenario_at service scenarios s1 = Ok None
  /\ forall key, key <> fault_key service -> view s1 !! key = view s !! key.
Proof.
  intros H. split.
  - unfold mbind at 1, Prog_bind in H.
    destruct (_clear_fault service scenarios s) as [[c|] s2] eqn:E; [|done].
    unfold mret, Prog_ret in H. simplify_eq. by eapply clear_fault_done.
  - intros key Hkey. rewrite clear_then in H.
    destruct (scenario_at service scenarios s) as [[x|]|]; simplify_eq; [|done].
    rewrite view_DEL. by apply lookup_delete_ne.
Qed.

Lemma clear_then_again {A} service scenarios (k : option string -> A) s :
  scenario_at service scenarios s = Ok None ->
  ((cleared ← _clear_fault service scenarios; mret (k cleared)) s).2 = s.
Proof. intros H. rewrite clear_then, H. done. Qed.

Section Twice.
Context (st st' : Stamp) (environment environment' : string).
Context (s s1 s1' : keyspace) (r : ExecutorResult).

Lemma restart_twice v :
  _restart_service v s = (Ok r, s1) ->
  view s1' !! fault_key v = view s1 !! fault_key v ->
  (_restart_service v s1').2 = s1'.
Proof.
  intros [H _]%clear_then_done Hv. apply clear_then_again.
  by rewrite (scenario_ext _ _ _ _ Hv).
Qed.

Lemma rollback_twice v f t :
  _rollback_deployment st environment v f t s = (Ok r, s1) ->
  view s1' !! fault_key v = view s1 !! fault_key v ->
  view s1' !! DEPLOYMENTS_KEY v = view s1 !! DEPLOYMENTS_KEY v ->
  (_rollback_deployment st' environment' v f t s1').2 = s1'.
Proof.
  unfold _rollback_deployment, current_deployment. rewrite !latest_run. intros H Hf Hd.
  rewrite (registry_ext _ _ _ _ Hd).
  destruct (registry_at (DEPLOYMENTS_KEY v) "version" s) as [running|] eqn:Er; [|done].
  destruct (py_eq running (JStr t)) eqn:Et; cycle 1.
  - destruct (py_eq running (JStr f)) eqn:Ef; simpl in H; cycle 1.
    { unfold mret, Prog_ret in H. simplify_eq. rewrite Er, Et, Ef. done. }
    apply prog_bind_run in H as (target & s2 & Ht & H).
    apply prog_bind_run in H as (sha & s3 & Hs & H).
    apply prog_bind_run in H as (rec & s4 & Hr & H).
    assert (s3 = s) as ->.
    { unfold find_deployment, redis_lrange, asks, pure, mbind, Prog_bind in Ht, Hs.
      destruct (LRANGE _ s); simplify_eq. done. }
    rewrite record_rollback_run in Hr.
    destruct (registry_at _ _ s) as [previous|]; [|done].
    destruct (RPUSH _ _ s) as [s5|] eqn:Ep; simplify_eq.
    eapply pushed_latest with (fld := "version") in Ep; [|done].
    apply clear_then_done in H as [Hc Hk].
    rewrite (registry_ext _ _ _ _ (Hk (DEPLOYMENTS_KEY v) ltac:(discriminate))), Ep. simpl.
    rewrite bool_decide_true by done. apply clear_then_again. by rewrite (scenario_ext _ _ _ _ Hf).
  - apply clear_then_done in H as [Hc Hk].
    rewrite (registry_ext _ _ _ _ (Hk (DEPLOYMENTS_KEY v) ltac:(discriminate))), Er, Et.
    apply clear_then_again. by rewrite (scenario_ext _ _ _ _ Hf).
Qed.

Lemma revert_twice v key f t :
  _revert_configuration st environment v key f (JStr t) s = (Ok r, s1) ->
  view s1' !! fault_key v = view s1 !! fault_key v ->
  view s1' !! CONFIG_KEY v = view s1 !! CONFIG_KEY v ->
  (_revert_configuration st' environment' v key f (JStr t) s1').2 = s1'.
Proof.
  unfold _revert_configuration, current_config.
  destruct (negb (bool_decide (key = CONFIG_KEY_NAME))); [done|]. rewrite !latest_run. intros H Hf Hd.
  rewrite (registry_ext _ _ _ _ Hd).
  destruct (registry_at (CONFIG_KEY v) "new_value" s) as [current|] eqn:Er; [|done].
  destruct (py_eq current (JStr t)) eqn:Et; cycle 1.
  - destruct (py_eq current f) eqn:Ef; simpl in H; cycle 1.
    { unfold mret, Prog_ret in H. simplify_eq. rewrite Er, Et, Ef. done. }
    apply prog_bind_run in H as (rec & s4 & Hr & H).
    rewrite record_config_run in Hr.
    destruct (registry_at _ _ s) as [previous|]; [|done].
    destruct (RPUSH _ _ s) as [s5|] eqn:Ep; simplify_eq.
    eapply pushed_latest with (fld := "new_value") in Ep; [|done].
    apply clear_then_done in H as [Hc Hk].
    rewrite (registry_ext _ _ _ _ (Hk (CONFIG_KEY v) ltac:(discriminate))), Ep. simpl.
    rewrite bool_decide_true by done. apply clear_then_again. by rewrite (scenario_ext _ _ _ _ Hf).
  - apply clear_then_done in H as [Hc Hk].
    rewrite (registry_ext _ _ _ _ (Hk (CONFIG_KEY v) ltac:(discriminate))), Er, Et.
    apply clear_then_again. by rewrite (scenario_ext _ _ _ _ Hf).
Qed.

(** Whatever it reverts to, a repeated reversion writes the configuration at most. *)
Lemma revert_again v key f t k :
  _revert_configuration st environment v key f t s = (Ok r, s1) ->
  view s1' !! fault_key v = view s1 !! fault_key v ->
  view s1' !! CONFIG_KEY v = view s1 !! CONFIG_KEY v -> k <> CONFIG_KEY v ->
  view (_revert_configuration st' environment' v key f t s1').2 !! k = view s1' !! k.
Proof.
  unfold _revert_configuration, current_config.
  destruct (negb (bool_decide (key = CONFIG_KEY_NAME))); [done|]. rewrite !latest_run. intros H Hf Hd Hk.
  rewrite (registry_ext _ _ _ _ Hd).
  destruct (registry_at (CONFIG_KEY v) "new_value" s) as [current|] eqn:Er; [|done].
  assert (scenario_at v ["bad-configuration"] s1 = Ok None
          \/ s1 = s /\ py_eq current t = false /\ py_eq current f = false) as [Hc|(-> & Et & Ef)].
  { destruct (py_eq current t) eqn:Et; [left; by apply clear_then_done in H as [? _]|].
    destruct (py_eq current f) eqn:Ef; simpl in H; [left|right; unfold mret, Prog_ret in H; by simplify_eq].
    apply prog_bind_run in H as (rec & s4 & _ & H). by apply clear_then_done in H as [? _]. }
  2:{ by rewrite Er, Et, Ef. }
  rewrite <-(scenario_ext _ _ _ _ Hf) in Hc.
  destruct (registry_at (CONFIG_KEY v) "new_value" s1) as [now|] eqn:En; [|done].
  destruct (py_eq now t); [by rewrite clear_then_again|]. destruct (py_eq now f); simpl; [|done].
  unfold mbind at 1, Prog_bind at 1. rewrite record_config_run, (registry_ext _ _ _ _ Hd), En.
  destruct (RPUSH _ _ s1') as [s2|] eqn:Ep; simpl; [|done]. apply RPUSH_view in Ep as (l & _ & E).
  rewrite clear_then_again; [by rewrite E, lookup_insert_ne|].
  rewrite (scenario_ext _ _ s1'); [done|]. by rewrite E, lookup_insert_ne.
Qed.

Lemma disable_twice v f k :
  _disable_feature_flag v f s = (Ok r, s1) ->
  view s1' !! FLAGS_KEY v = view s1 !! FLAGS_KEY v ->
  view (_disable_feature_flag v f s1').2 !! k = view s1' !! k.
Proof.
  unfold _disable_feature_flag, redis_hget, redis_hset, asks, tells, mbind, Prog_bind, mret, Prog_ret.
  intros H Hv. destruct (HGET _ _ s); [|done]. destruct (HSET _ _ _ s) as [s2|] eqn:E; simplify_eq.
  apply HSET_view in E as (h & _ & E). rewrite E, lookup_insert_eq in Hv.
  destruct (HGET _ _ s1'); [|done]. destruct (HSET _ _ _ s1') as [s3|] eqn:E'; [|done].
  apply HSET_view in E' as (h' & [[? _]|Hh] & E'); [congruence|]. simpl. rewrite E'.
  rewrite Hv in Hh. injection Hh as <-. rewrite insert_insert_eq.
  destruct (decide (k = FLAGS_KEY v)) as [->|]; [by rewrite lookup_insert_eq|by rewrite lookup_insert_ne].
Qed.

(** The key a repeated action may write after all. *)
Definition rewritable (p : Params) (k : string) : Prop :=
  match p with
  | RevertConfigurationParams v _ _ t => k = CONFIG_KEY v /\ forall x, t <> JStr x
  | _ => False
  end.

Lemma handler_twice p :
  scales p = false -> handler st environment p s = (Ok r, s1) ->
  (forall k, k ∈ environment_keys (params_service p) -> view s1' !! k = view s1 !! k) ->
  forall k, view (handler st' environment' p s1').2 !! k = view s1' !! k \/ rewritable p k.
Proof.
  unfold environment_keys.
  destruct p as [v|v n|v f t|v f|v key f t]; simpl; [| done | | |]; intros _ H Henv k.
  - left. rewrite (restart_twice v) by (done || (apply Henv; set_solver)). done.
  - left. rewrite (rollback_twice v f t) by (done || (apply Henv; set_solver)). done.
  - left. apply (disable_twice v f k H). apply Henv; set_solver.
  - assert ((exists x, t = JStr x) \/ forall x, t <> JStr x) as [[x ->]|Ht]
      by (destruct t; eauto; right; done).
    + left. rewrite (revert_twice v key f x) by (done || (apply Henv; set_solver)). done.
    + destruct (decide (k = CONFIG_KEY v)) as [->|Hk]; [by right|left].
      apply (revert_again v key f t k H); [apply Henv; set_solver..|done].
Qed.
End Twice.
(** ** Theorems *)

(** C17: the executor acts only as authorised.  Whatever a request changes, its action is
    one of the current catalog, its parameters are valid for it and name the target
    service, the environment is allowed, the deadline has not passed, and no earlier
    result is recorded under its key; only keys of the target's simulated production,
    the record and the operations log of the target change, and the replicas are set
    within the bound. *)
Theorem acts_only_as_authorised st rq s key :
  view (execute st rq s).2 !! key <> view s !! key ->
  exists e p ps, get_entry (rq_action_id rq) = Some e /\ rq_catalog_version rq = CATALOG_VERSION
    /\ validate e (rq_parameters rq) = (Some p, ps) /\ params_service p = rq_target_service rq
    /\ rq_environment rq ∈ allowed_environments e
    /\ st_now st < rq_deadline rq /\ (inspect (rq_idempotency_key rq) s).1 = Ok None
    /\ (key ∈ environment_keys (rq_target_service rq)
        \/ key = APPLIED_KEY (rq_idempotency_key rq) \/ key = OPS_LOG_KEY (rq_target_service rq))
    /\ forall service, key = REPLICAS_KEY service ->
         exists n, n <= MAX_REPLICAS
           /\ view (execute st rq s).2 !! key = Some (RStr (Text (str_Z n))).
Proof.
  intros Hne. destruct (execute_cases st rq s) as [[Hs _]|(p & Hacts & Hrun)];
    [by rewrite Hs in Hne|].
  destruct (Hacts) as (Hi & Ha & Ht). apply authorize_inl in Ha as (e & ps & He & Hv & Hp & Hsv & Hen).
  exists e, p, ps. repeat (split; [done|]). rewrite <- Hsv. split.
  - destruct (decide (key ∈ environment_keys (params_service p))) as [|Hk]; [by left|].
    right. pose proof (handler_within st (rq_environment rq) p s key ltac:(tauto)) as Hh.
    destruct Hrun as [(x & s1 & Hr & Hx)|(r & s1 & Hr & Hx)]; rewrite Hr in Hh; rewrite Hx in Hne;
      simpl in *; [done|].
    destruct (decide (key = APPLIED_KEY (rq_idempotency_key rq))) as [|Hap]; [by left|right].
    destruct (decide (key = OPS_LOG_KEY (params_service p))) as [|Hop]; [done|].
    exfalso. apply Hne. rewrite Hsv in Hop.
    assert (view (SET (APPLIED_KEY (rq_idempotency_key rq)) (Doc (result_to_json r)) s1) !! key
            = view s !! key) as Hset by (rewrite view_SET, lookup_insert_ne; done).
    destruct (RPUSH _ _ _) as [s2|x] eqn:E; simpl; [|done].
    apply RPUSH_view in E as (l & _ & E). by rewrite E, lookup_insert_ne.
  - intros service ->.
    destruct (execute_environment st rq s (REPLICAS_KEY service) service) as [H|(q & _ & H)];
      [unfold environment_keys; set_solver|done|].
    rewrite H in *. by apply handler_replicas.
Qed.

(** A request that acted is answered from its record ever after: as long as the
    record is kept, any request with its key, whatever else it says and whatever the
    environment has become, gets the recorded result and changes nothing. *)
Theorem recorded_request_is_replayed st rq p s r s1 st' rq' s' :
  acts st rq p s -> execute st rq s = (Ok r, s1) ->
  rq_idempotency_key rq' = rq_idempotency_key rq ->
  view s' !! APPLIED_KEY (rq_idempotency_key rq) = view s1 !! APPLIED_KEY (rq_idempotency_key rq) ->
  execute st' rq' s' = (Ok r, s').
Proof.
  intros (Hi & Ha & Ht) Hx Hkey Hview.
  destruct (execute_cases st rq s) as [[_ [(q & H & _)|[(q & _ & H & _)|(e & H)]]]|(q & _ & Hrun)];
    [congruence|congruence|rewrite Hx in H; done|].
  destruct Hrun as [(e & s2 & _ & H)|(q' & s2 & Hh & H)]; rewrite Hx in H; [done|].
  destruct (RPUSH _ _ _) as [s3|] eqn:E; simplify_eq. apply RPUSH_view in E as (l & _ & E).
  rewrite E, lookup_insert_ne, view_SET, lookup_insert_eq in Hview by (apply not_eq_sym, applied_not_ops).
  unfold execute. rewrite inspect_run, Hkey.
  assert ((inspect (rq_idempotency_key rq) s').1 = Ok (Some q')) as ->; [|done].
  unfold inspect, redis_get, asks, pure, mbind, Prog_bind, mret, Prog_ret.
  rewrite GET_view, Hview. simpl. apply handler_detail in Hh. destruct q'; simpl in *. by rewrite Hh.
Qed.

(** The same action on the same target. *)
Definition same_action (rq rq' : ExecutionRequest) : Prop :=
  rq_action_id rq' = rq_action_id rq /\ rq_catalog_version rq' = rq_catalog_version rq
  /\ rq_parameters rq' = rq_parameters rq /\ rq_target_service rq' = rq_target_service rq
  /\ rq_environment rq' = rq_environment rq.

Lemma same_authorize rq rq' : same_action rq rq' -> authorize rq' = authorize rq.
Proof. unfold same_action, authorize. by intros (-> & -> & -> & -> & ->). Qed.

Lemma get_entry_catalog id e : get_entry id = Some e -> e ∈ CATALOG.
Proof. intros H%List.find_some. apply list_elem_of_In, H. Qed.

Lemma retry_safe_scales e d p ps :
  e ∈ CATALOG -> retry_safe e = true -> validate e d = (Some p, ps) -> scales p = false.
Proof.
  intros He Hr [Hm _]%validate_Some. apply model_validate_inl in Hm as [Hp _].
  unfold CATALOG in He.
  repeat (apply elem_of_cons in He as [->|He]; [by destruct p|]).
  by apply not_elem_of_nil in He.
Qed.

(** C11: a retry cannot act twice, but in one case.  An action the catalog marks as safe to
    retry, executed again at once under any key after a first execution, new under its
    key, that returned, leaves the simulated production of every service as the first
    execution left it; only a configuration reverted to something that is no text may be
    recorded again, and nothing but the configuration of its target is then written. *)
Theorem retry_cannot_act_twice st st' rq rq' e s r s1 service key :
  get_entry (rq_action_id rq) = Some e -> retry_safe e = true ->
  same_action rq rq' -> (inspect (rq_idempotency_key rq) s).1 = Ok None ->
  execute st rq s = (Ok r, s1) -> key ∈ environment_keys service ->
  view (execute st' rq' s1).2 !! key = view s1 !! key
  \/ rq_action_id rq = "revert_configuration" /\ key = CONFIG_KEY (rq_target_service rq)
     /\ exists v, assoc_get "to_value" (rq_parameters rq) = Some v /\ forall t, v <> JStr t.
Proof.
  intros He Hsafe Hsame Hi Hx Hkey.
  destruct (execute_environment st' rq' s1 key service Hkey) as [|(p & Hacts & ->)]; [by left|].
  destruct (Hacts) as (_ & Ha & _). rewrite (same_authorize _ _ Hsame) in Ha.
  destruct (execute_cases st rq s) as [[_ [(q & H & _)|[(q & _ & H & _)|(x & H)]]]|(q & (_ & Hq & _) & Hrun)];
    [congruence|congruence|rewrite Hx in H; done|].
  assert (q = p) as -> by congruence.
  destruct Hrun as [(x & s2 & _ & H)|(r' & s2 & Hh & H)]; rewrite Hx in H; [done|].
  assert (forall k, k ∈ environment_keys (params_service p) -> view s1 !! k = view s2 !! k) as Henv.
  { intros k Hk.
    destruct (environment_keys_bookkeeping _ _ (rq_idempotency_key rq) (rq_target_service rq) Hk).
    destruct (RPUSH _ _ _) as [s3|] eqn:E; simplify_eq. apply RPUSH_view in E as (l & _ & ->).
    rewrite lookup_insert_ne, view_SET by done. by apply lookup_insert_ne. }
  apply authorize_inl in Ha as (e' & ps & He' & _ & Hv & Hsv & _).
  assert (e' = e) as -> by congruence.
  destruct (handler_twice st st' (rq_environment rq) (rq_environment rq') s s2 s1 r' p
              (retry_safe_scales _ _ _ _ (get_entry_catalog _ _ He) Hsafe Hv) Hh Henv key) as [|Hr]; [by left|right].
  destruct p as [| | | |v k f t]; try done. destruct Hr as [-> Ht]. simpl in Hsv. rewrite <-Hsv.
  apply validate_Some in Hv as [Hm _]. apply model_validate_inl in Hm as [Hp _].
  split; [|split; [done|]].
  - apply get_entry_catalog in He as Hc. apply List.find_some in He as [_ <-%bool_decide_eq_true].
    unfold CATALOG in Hc.
    repeat (apply elem_of_cons in Hc as [->|Hc]; [done|]). by apply not_elem_of_nil in Hc.
  - exists t. split; [|done]. destruct (parameters e); simpl in Hp; try done. apply Hp.
Qed.
End Executor.
