(* ===== verification/RemediationLifecycle.v ===== *)
(** * The remediation lifecycle, abstractly

    What [RemediationService] promises, independent of how: the tables that decide
    whether an action may run ([core]), the steps the commands may take on them
    ([rstep]) and the invariant those steps keep ([Inv]).  The refinement of the
    commands to these steps is in [RemediationProofs]. *)
From S2P Require Import Prelude PyFloat Json Enums VerificationDomain Catalog RemediationDomain.
From S2P Require Import Policy Store.
Local Open Scope Z_scope.

(** ** State *)

(** [c_vers] maps each verification to its remediation. *)
Record core := {
  c_next : uuid;
  c_rems : gmap uuid RemediationRow;
  c_decs : gmap uuid RemediationPolicyDecisionRow;
  c_apps : gmap uuid RemediationApprovalRow;
  c_exes : gmap uuid RemediationExecutionRow;
  c_vers : gmap uuid uuid;
}.

Definition core_of (d : db) : core :=
  {| c_next := uuid_supply d; c_rems := remediations d; c_decs := policy_decisions d;
     c_apps := approvals d; c_exes := executions d;
     c_vers := v_remediation_id <$> verifications d |}.

(** The rows that refer to [i]. *)
Definition about {A} (f : A -> uuid) (i : uuid) (m : gmap uuid A) : gmap uuid A :=
  filter (fun kv => f kv.2 = i) m.

Definition apps_of (c : core) (i : uuid) := about ap_remediation_id i (c_apps c).
Definition exes_of (c : core) (i : uuid) := about ex_remediation_id i (c_exes c).
Definition vers_of (c : core) (i : uuid) := about id i (c_vers c).

(** ** Rows that refer to a remediation *)

Section About.
Context {A : Type} (f : A -> uuid).
Implicit Types m : gmap uuid A.

Lemma about_Some i m k x : about f i m !! k = Some x <-> m !! k = Some x /\ f x = i.
Proof. unfold about. by rewrite map_lookup_filter_Some. Qed.

Lemma about_empty i m : (forall k x, m !! k = Some x -> f x <> i) -> about f i m = ∅.
Proof.
  intros Hm. apply map_empty. intros k. apply eq_None_not_Some.
  intros [x [Hk Hf]%about_Some]. by eapply Hm.
Qed.

Lemma about_insert_eq i m k x : f x = i -> about f i (<[k := x]> m) = <[k := x]> (about f i m).
Proof. intros. unfold about. by rewrite map_filter_insert_True. Qed.

Lemma about_insert_ne i m k x :
  f x <> i -> (forall y, m !! k = Some y -> f y <> i) ->
  about f i (<[k := x]> m) = about f i m.
Proof. intros ? Hy. unfold about. rewrite map_filter_insert_not'; naive_solver. Qed.
End About.

(** The columns no command may change after the proposal. *)
Definition proposal_cols (r : RemediationRow) :=
  (rm_id r, rm_incident_id r, rm_investigation_id r, rm_idempotency_key r, rm_action_id r,
   rm_catalog_version r, rm_parameters r, rm_target_service r, rm_environment r, rm_reason r,
   rm_expected_effect r, rm_blast_radius_tier r, rm_proposal_hash r, rm_source r,
   rm_proposed_by r, rm_correlation_id r, rm_created_at r).

(** A command's effect on a row outside its status, attempts and verification. *)
Definition kept (r r' : RemediationRow) : Prop :=
  proposal_cols r' = proposal_cols r /\ rm_policy_decision_id r' = rm_policy_decision_id r.

Definition same_execution (x x' : RemediationExecutionRow) : Prop :=
  ex_id x' = ex_id x /\ ex_remediation_id x' = ex_remediation_id x
  /\ ex_attempt_number x' = ex_attempt_number x
  /\ ex_idempotency_key x' = ex_idempotency_key x.

Section Lifecycle.
Context `{Pydantic, Hashing}.
Context (policy : Policy.Policy).

(** The stored hash is the hash of the stored proposal. *)
Definition hash_ok (r : RemediationRow) : Prop :=
  rm_proposal_hash r = proposal_hash (rm_incident_id r) (rm_investigation_id r)
    (rm_action_id r) (rm_catalog_version r) (rm_parameters r) (rm_environment r).

(** [dec] is the engine's decision on the proposal stored in [r]. *)
Definition decided (r : RemediationRow) (dec : RemediationPolicyDecisionRow) : Prop :=
  rm_policy_decision_id r = Some (dec_id dec)
  /\ dec_remediation_id dec = rm_id r
  /\ dec_proposal_hash dec = rm_proposal_hash r
  /\ exists p, pr_action_id p = rm_action_id r /\ pr_parameters p = rm_parameters r
               /\ pr_source p = rm_source r /\ pr_proposed_by p = rm_proposed_by r
               /\ let pd := evaluate p (get_entry (rm_action_id r)) policy
                              (dec_policy_context dec) in
                  dec_decision dec = pd_decision pd
                  /\ dec_required_approver_roles dec = required_approver_roles pd
                  /\ dec_rules dec = pd_rules pd.

(** [a] is a person's approval of exactly [r] under [dec], by someone entitled. *)
Definition entitled (r : RemediationRow) (dec : RemediationPolicyDecisionRow)
    (a : RemediationApprovalRow) : Prop :=
  ap_decision a = approved
  /\ ap_remediation_id a = rm_id r
  /\ ap_proposal_hash a = rm_proposal_hash r
  /\ ap_policy_decision_id a = dec_id dec
  /\ (exists role, ap_approver_role a = Some role /\ role ∈ dec_required_approver_roles dec)
  /\ ~ (rm_source r = "operator" /\ rm_proposed_by r = ap_approver a).

Definition with_row (c : core) (n : uuid) (r : RemediationRow) : core :=
  {| c_next := n; c_rems := <[rm_id r := r]> (c_rems c); c_decs := c_decs c;
     c_apps := c_apps c; c_exes := c_exes c; c_vers := c_vers c |}.

(** ** Steps *)

Inductive rstep (c : core) : core -> Prop :=
| rs_idle n :
    (c_next c <= n)%N ->
    rstep c {| c_next := n; c_rems := c_rems c; c_decs := c_decs c; c_apps := c_apps c;
               c_exes := c_exes c; c_vers := c_vers c |}
| rs_propose n r dec :
    (c_next c <= rm_id r < n)%N -> (c_next c <= dec_id dec < n)%N ->
    (forall i r0, c_rems c !! i = Some r0 ->
       ~ (rm_incident_id r0 = rm_incident_id r
          /\ rm_idempotency_key r0 = rm_idempotency_key r)) ->
    hash_ok r -> decided r dec ->
    rm_status r = (if bool_decide (dec_decision dec = DENY) then R_POLICY_REJECTED
                   else R_AWAITING_APPROVAL) ->
    rm_execution_attempts r = 0 -> rm_verification_ref r = None ->
    rstep c {| c_next := n; c_rems := <[rm_id r := r]> (c_rems c);
               c_decs := <[dec_id dec := dec]> (c_decs c);
               c_apps := c_apps c; c_exes := c_exes c; c_vers := c_vers c |}
| rs_decide n r r' a :
    c_rems c !! rm_id r = Some r -> (c_next c <= ap_id a < n)%N -> kept r r' ->
    rm_status r = R_AWAITING_APPROVAL ->
    apps_of c (rm_id r) = ∅ -> ap_remediation_id a = rm_id r ->
    (ap_decision a = approved /\ rm_status r' = R_APPROVED
       /\ (exists dec, rm_policy_decision_id r = Some (dec_id dec)
                       /\ c_decs c !! dec_id dec = Some dec /\ entitled r dec a)
     \/ ap_decision a <> approved /\ rm_status r' = R_CANCELLED) ->
    rm_execution_attempts r' = rm_execution_attempts r ->
    rm_verification_ref r' = rm_verification_ref r ->
    rstep c {| c_next := n; c_rems := <[rm_id r := r']> (c_rems c); c_decs := c_decs c;
               c_apps := <[ap_id a := a]> (c_apps c); c_exes := c_exes c;
               c_vers := c_vers c |}
| rs_stop n r r' :
    c_rems c !! rm_id r = Some r -> (c_next c <= n)%N -> kept r r' ->
    can_transition (rm_status r) (rm_status r') = true ->
    (rm_status r' = R_CANCELLED \/ rm_status r' = R_FAILED) ->
    rm_execution_attempts r' = rm_execution_attempts r ->
    rm_verification_ref r' = rm_verification_ref r ->
    rstep c (with_row c n r')
| rs_interrupt n r r' x x' :
    c_rems c !! rm_id r = Some r -> (c_next c <= n)%N -> kept r r' ->
    rm_status r' = rm_status r ->
    rm_execution_attempts r' = rm_execution_attempts r ->
    rm_verification_ref r' = rm_verification_ref r ->
    c_exes c !! ex_id x = Some x -> ex_remediation_id x = rm_id r ->
    ex_status x = X_RUNNING -> same_execution x x' -> ex_status x' = X_UNKNOWN ->
    rstep c {| c_next := n; c_rems := <[rm_id r := r']> (c_rems c); c_decs := c_decs c;
               c_apps := c_apps c; c_exes := <[ex_id x := x']> (c_exes c);
               c_vers := c_vers c |}
| rs_start n r r' x e :
    c_rems c !! rm_id r = Some r -> (c_next c <= ex_id x < n)%N -> kept r r' ->
    (rm_status r = R_APPROVED \/ rm_status r = R_EXECUTING) ->
    rm_status r' = R_EXECUTING ->
    ex_remediation_id x = rm_id r -> ex_status x = X_RUNNING ->
    ex_attempt_number x = rm_execution_attempts r + 1 ->
    rm_execution_attempts r' = rm_execution_attempts r + 1 ->
    get_entry (rm_action_id r) = Some e -> rm_execution_attempts r < max_attempts e ->
    (forall k y, c_exes c !! k = Some y -> ex_remediation_id y = rm_id r ->
       ex_attempt_number y = rm_execution_attempts r -> ex_status y <> X_RUNNING) ->
    rm_verification_ref r' = rm_verification_ref r ->
    rstep c {| c_next := n; c_rems := <[rm_id r := r']> (c_rems c); c_decs := c_decs c;
               c_apps := c_apps c; c_exes := <[ex_id x := x]> (c_exes c);
               c_vers := c_vers c |}
| rs_settle n r r' x x' vers :
    c_rems c !! rm_id r = Some r -> (c_next c <= n)%N -> kept r r' ->
    rm_status r = R_EXECUTING ->
    rm_execution_attempts r' = rm_execution_attempts r ->
    c_exes c !! ex_id x = Some x -> ex_remediation_id x = rm_id r ->
    (ex_status x = X_RUNNING \/ ex_status x = X_UNKNOWN) -> same_execution x x' ->
    ex_status x' <> X_RUNNING -> ex_status x' <> X_UNKNOWN ->
    (rm_status r' = R_EXECUTED /\ ex_status x' = X_SUCCEEDED
       /\ (exists v, (c_next c <= v < n)%N /\ rm_verification_ref r' = Some v
                     /\ vers = <[v := rm_id r]> (c_vers c) /\ vers_of c (rm_id r) = ∅)
     \/ (rm_status r' = R_EXECUTING \/ rm_status r' = R_FAILED)
        /\ rm_verification_ref r' = rm_verification_ref r /\ vers = c_vers c) ->
    rstep c {| c_next := n; c_rems := <[rm_id r := r']> (c_rems c); c_decs := c_decs c;
               c_apps := c_apps c; c_exes := <[ex_id x := x']> (c_exes c);
               c_vers := vers |}.

(** ** The invariant *)

(** The statuses in which the remediation is licensed to act, or has acted. *)
Definition LICENSED : list RemediationStatus := [R_APPROVED; R_EXECUTING; R_EXECUTED].

Definition approvals_ok (dec : RemediationPolicyDecisionRow)
    (A : gmap uuid RemediationApprovalRow) (r : RemediationRow) : Prop :=
  (rm_status r ∈ [R_POLICY_REJECTED; R_AWAITING_APPROVAL] -> A = ∅)
  /\ (rm_status r ∈ LICENSED -> exists a, A = {[ap_id a := a]} /\ entitled r dec a).

Definition attempts_ok (X : gmap uuid RemediationExecutionRow) (r : RemediationRow) : Prop :=
  0 <= rm_execution_attempts r
  /\ (rm_execution_attempts r = 0
      \/ exists e, get_entry (rm_action_id r) = Some e
                   /\ rm_execution_attempts r <= max_attempts e)
  /\ (rm_status r ∈ [R_POLICY_REJECTED; R_AWAITING_APPROVAL; R_APPROVED] ->
        rm_execution_attempts r = 0)
  /\ (forall k x, X !! k = Some x ->
        1 <= ex_attempt_number x <= rm_execution_attempts r
        /\ (ex_status x = X_RUNNING -> ex_attempt_number x = rm_execution_attempts r))
  /\ (forall k x k' x', X !! k = Some x -> X !! k' = Some x' ->
        ex_attempt_number x = ex_attempt_number x' -> k = k')
  /\ (forall n, 1 <= n <= rm_execution_attempts r ->
        exists k x, X !! k = Some x /\ ex_attempt_number x = n).

Definition verification_ok (V : gmap uuid uuid) (r : RemediationRow) : Prop :=
  match rm_status r with
  | R_EXECUTED => exists v, rm_verification_ref r = Some v /\ V = {[v := rm_id r]}
  | _ => V = ∅ /\ rm_verification_ref r = None
  end.

Definition row_ok (c : core) (r : RemediationRow) : Prop :=
  rm_status r <> R_PROPOSED /\ hash_ok r
  /\ (exists dec, c_decs c !! dec_id dec = Some dec /\ decided r dec
        /\ (dec_decision dec = DENY <-> rm_status r = R_POLICY_REJECTED)
        /\ approvals_ok dec (apps_of c (rm_id r)) r)
  /\ attempts_ok (exes_of c (rm_id r)) r
  /\ verification_ok (vers_of c (rm_id r)) r.

Record Inv (c : core) : Prop := {
  inv_rems i r : c_rems c !! i = Some r -> rm_id r = i /\ (i < c_next c)%N;
  inv_decs i r : c_decs c !! i = Some r -> dec_id r = i /\ (i < c_next c)%N;
  inv_apps i r : c_apps c !! i = Some r ->
    ap_id r = i /\ (i < c_next c)%N /\ (ap_remediation_id r < c_next c)%N;
  inv_exes i r : c_exes c !! i = Some r ->
    ex_id r = i /\ (i < c_next c)%N /\ (ex_remediation_id r < c_next c)%N;
  inv_vers i r : c_vers c !! i = Some r -> (i < c_next c)%N /\ (r < c_next c)%N;
  inv_unique i j r s : c_rems c !! i = Some r -> c_rems c !! j = Some s ->
    rm_incident_id r = rm_incident_id s -> rm_idempotency_key r = rm_idempotency_key s ->
    i = j;
  inv_rows i r : c_rems c !! i = Some r -> row_ok c r;
}.

(** ** Preservation *)

Lemma row_ok_frame c c' r :
  row_ok c r -> c_decs c ⊆ c_decs c' ->
  apps_of c' (rm_id r) = apps_of c (rm_id r) ->
  exes_of c' (rm_id r) = exes_of c (rm_id r) ->
  vers_of c' (rm_id r) = vers_of c (rm_id r) ->
  row_ok c' r.
Proof.
  intros (? & ? & (dec & Hd & ?) & ?) Hsub Ha Hx Hv.
  unfold row_ok. rewrite Ha, Hx, Hv. split_and!; try tauto.
  exists dec. split; [|tauto]. by eapply lookup_weaken.
Qed.

(** What a step owes when it rewrites row [r] to [r'] and leaves what refers to
    other remediations alone. *)
Lemma inv_rows_update c c' r r' :
  Inv c -> c_rems c' = <[rm_id r := r']> (c_rems c) -> rm_id r' = rm_id r ->
  c_decs c ⊆ c_decs c' ->
  (forall i, i <> rm_id r -> (i < c_next c)%N -> apps_of c' i = apps_of c i) ->
  (forall i, i <> rm_id r -> (i < c_next c)%N -> exes_of c' i = exes_of c i) ->
  (forall i, i <> rm_id r -> (i < c_next c)%N -> vers_of c' i = vers_of c i) ->
  row_ok c' r' ->
  forall i r0, c_rems c' !! i = Some r0 -> row_ok c' r0.
Proof.
  intros HI Hr Hid Hd Ha Hx Hv Hok i r0. rewrite Hr.
  intros [[<- <-]|[Hne Hl]]%lookup_insert_Some; [done|].
  destruct (inv_rems _ HI _ _ Hl) as [<- ?]. pose proof (inv_rows _ HI _ _ Hl).
  apply (row_ok_frame c); auto.
Qed.

(** [kept] as equations between columns. *)
Lemma kept_eqs r r' :
  kept r r' ->
  rm_id r' = rm_id r /\ rm_incident_id r' = rm_incident_id r
  /\ rm_idempotency_key r' = rm_idempotency_key r /\ rm_action_id r' = rm_action_id r
  /\ rm_investigation_id r' = rm_investigation_id r
  /\ rm_catalog_version r' = rm_catalog_version r /\ rm_parameters r' = rm_parameters r
  /\ rm_environment r' = rm_environment r /\ rm_proposal_hash r' = rm_proposal_hash r
  /\ rm_source r' = rm_source r /\ rm_proposed_by r' = rm_proposed_by r
  /\ rm_policy_decision_id r' = rm_policy_decision_id r.
Proof. intros [Hc Hd]. injection Hc. intros. split_and!; assumption. Qed.

Lemma kept_id r r' : kept r r' -> rm_id r' = rm_id r.
Proof. intros Hk%kept_eqs. tauto. Qed.

Lemma kept_hash_ok r r' : kept r r' -> hash_ok r -> hash_ok r'.
Proof. unfold hash_ok. intros Hk%kept_eqs ?. destruct_and!. congruence. Qed.

Lemma kept_decided r r' dec : kept r r' -> decided r dec -> decided r' dec.
Proof.
  unfold decided. intros Hk%kept_eqs (? & ? & ? & p & ? & ? & ? & ? & Hp). destruct_and!.
  split_and!; try congruence. exists p. repeat (split; [congruence|]).
  by replace (rm_action_id r') with (rm_action_id r) by congruence.
Qed.

Lemma kept_entitled r r' dec a : kept r r' -> entitled r dec a -> entitled r' dec a.
Proof.
  unfold entitled. intros Hk%kept_eqs (? & ? & ? & ? & Hrole & Hself). destruct_and!.
  do 4 (split; [congruence|]). split; [exact Hrole|].
  intros [? ?]. apply Hself. split; congruence.
Qed.

(** The identity clauses survive rewriting one row under its own identity. *)
Lemma unique_update c r r' :
  Inv c -> c_rems c !! rm_id r = Some r -> kept r r' ->
  forall i j s t, <[rm_id r := r']> (c_rems c) !! i = Some s ->
    <[rm_id r := r']> (c_rems c) !! j = Some t ->
    rm_incident_id s = rm_incident_id t -> rm_idempotency_key s = rm_idempotency_key t -> i = j.
Proof.
  intros HI Hr Hk i j s t. apply kept_eqs in Hk. destruct_and!.
  intros [[<- <-]|[? ?]]%lookup_insert_Some [[<- <-]|[? ?]]%lookup_insert_Some ? ?; try done.
  - eapply (inv_unique _ HI _ _ r t); eauto; congruence.
  - eapply (inv_unique _ HI _ _ s r); eauto; congruence.
  - by eapply (inv_unique _ HI _ _ s t).
Qed.

(** Each kind of step keeps what it says of the row it rewrites. *)

Lemma approvals_ok_kept dec A r r' :
  kept r r' -> approvals_ok dec A r ->
  (rm_status r' ∈ [R_POLICY_REJECTED; R_AWAITING_APPROVAL] ->
     rm_status r ∈ [R_POLICY_REJECTED; R_AWAITING_APPROVAL]) ->
  (rm_status r' ∈ LICENSED -> rm_status r ∈ LICENSED) ->
  approvals_ok dec A r'.
Proof.
  intros Hk [H1 H2] Hi Hl. split; [auto|]. intros Hs%Hl%H2.
  destruct Hs as (a & ? & ?). exists a. split; [done|]. by eapply kept_entitled.
Qed.

Lemma attempts_ok_kept X r r' :
  kept r r' -> attempts_ok X r -> rm_execution_attempts r' = rm_execution_attempts r ->
  (rm_status r' ∈ [R_POLICY_REJECTED; R_AWAITING_APPROVAL; R_APPROVED] ->
     rm_execution_attempts r = 0) ->
  attempts_ok X r'.
Proof.
  intros Hk%kept_eqs Hx Hn Hs. unfold attempts_ok in *. rewrite Hn.
  replace (rm_action_id r') with (rm_action_id r) by (destruct_and!; congruence). tauto.
Qed.

(** Replacing an execution row by one with the same identity. *)
Lemma attempts_ok_replace X r k x x' :
  attempts_ok X r -> X !! k = Some x -> same_execution x x' ->
  ex_status x' <> X_RUNNING -> attempts_ok (<[k := x']> X) r.
Proof.
  intros (? & ? & ? & Hb & Hu & He) Hk (_ & _ & Ha & _) Hs. unfold attempts_ok.
  split_and!; try done.
  - intros k0 y [[<- <-]|[? Hy]]%lookup_insert_Some; [|eauto].
    rewrite Ha. split; [by apply (Hb k)|done].
  - intros k1 y1 k2 y2 [[<- <-]|[? ?]]%lookup_insert_Some [[<- <-]|[? ?]]%lookup_insert_Some ?;
      [done|eapply (Hu k x)|eapply (Hu _ _ k x)|by eapply (Hu k1 y1)]; eauto; congruence.
  - intros n Hn. destruct (He n Hn) as (k1 & y & Hy & <-).
    destruct (decide (k1 = k)) as [->|].
    + exists k, x'. rewrite lookup_insert_eq. split; [done|]. by simplify_eq.
    + exists k1, y. by rewrite lookup_insert_ne.
Qed.

(** A new attempt, numbered next. *)
Lemma attempts_ok_start X r r' k x e :
  kept r r' -> attempts_ok X r -> X !! k = None -> rm_status r' = R_EXECUTING ->
  ex_attempt_number x = rm_execution_attempts r + 1 ->
  rm_execution_attempts r' = rm_execution_attempts r + 1 ->
  get_entry (rm_action_id r) = Some e -> rm_execution_attempts r < max_attempts e ->
  (forall k y, X !! k = Some y -> ex_attempt_number y = rm_execution_attempts r ->
     ex_status y <> X_RUNNING) ->
  attempts_ok (<[k := x]> X) r'.
Proof.
  intros Hkept%kept_eqs (? & ? & ? & Hb & Hu & He) Hk Hst Hx Hn Hentry Hlt Hrun.
  unfold attempts_ok. rewrite Hst, Hn.
  replace (rm_action_id r') with (rm_action_id r) by (destruct_and!; congruence).
  split_and!; try lia.
  - right. exists e. split; [done|lia].
  - intros Hin. exfalso. revert Hin. rewrite !elem_of_cons, elem_of_nil. naive_solver.
  - intros k0 y [[<- <-]|[? Hy]]%lookup_insert_Some; [split; [lia|intros; lia]|].
    destruct (Hb _ _ Hy) as [? Hr]. split; [lia|]. intros Hs. by destruct (Hrun _ _ Hy (Hr Hs)).
  - intros k1 y1 k2 y2 [[<- <-]|[? Hy1]]%lookup_insert_Some [[<- <-]|[? Hy2]]%lookup_insert_Some ?;
      [done| | |by eapply (Hu k1 y1)]; exfalso.
    + apply Hb in Hy2. lia.
    + apply Hb in Hy1. lia.
  - intros n Hlen. destruct (decide (n = rm_execution_attempts r + 1)) as [->|].
    + exists k, x. by rewrite lookup_insert_eq.
    + destruct (He n) as (k1 & y & Hy & <-); [lia|]. exists k1, y.
      rewrite lookup_insert_ne; [done|]. by intros ->; simplify_eq.
Qed.

Lemma verification_ok_kept V r r' :
  verification_ok V r -> rm_status r <> R_EXECUTED -> rm_status r' <> R_EXECUTED ->
  rm_verification_ref r' = rm_verification_ref r -> verification_ok V r'.
Proof.
  unfold verification_ok. intros Hv ? ? ->.
  destruct (rm_status r), (rm_status r'); try done; naive_solver.
Qed.

Lemma row_ok_idle c n r :
  row_ok {| c_next := n; c_rems := c_rems c; c_decs := c_decs c; c_apps := c_apps c;
            c_exes := c_exes c; c_vers := c_vers c |} r <-> row_ok c r.
Proof. done. Qed.

Lemma about_fresh {A} (f : A -> uuid) (m : gmap uuid A) i (n : uuid) :
  (forall k x, m !! k = Some x -> (f x < n)%N) -> (n <= i)%N -> about f i m = ∅.
Proof. intros Hm ?. apply about_empty. intros k x Hk%Hm ?. lia. Qed.

Lemma not_in_licensed s : s ∈ [R_POLICY_REJECTED; R_AWAITING_APPROVAL] -> s ∉ LICENSED.
Proof. unfold LICENSED. rewrite !elem_of_cons, !elem_of_nil. destruct s; naive_solver. Qed.

Lemma rows_propose c n r dec :
  Inv c -> (c_next c <= rm_id r < n)%N -> (c_next c <= dec_id dec < n)%N ->
  hash_ok r -> decided r dec ->
  rm_status r = (if bool_decide (dec_decision dec = DENY) then R_POLICY_REJECTED
                 else R_AWAITING_APPROVAL) ->
  rm_execution_attempts r = 0 -> rm_verification_ref r = None ->
  row_ok {| c_next := n; c_rems := <[rm_id r := r]> (c_rems c);
            c_decs := <[dec_id dec := dec]> (c_decs c);
            c_apps := c_apps c; c_exes := c_exes c; c_vers := c_vers c |} r.
Proof.
  intros HI Hr Hd Hh Hdec Hs Hn Hv. unfold row_ok, apps_of, exes_of, vers_of; cbn [c_decs c_apps c_exes c_vers].
  rewrite !(about_fresh _ _ (rm_id r) (c_next c)); try lia;
    try (by intros k x Hk; first [apply (inv_apps _ HI) in Hk|apply (inv_exes _ HI) in Hk
                                 |apply (inv_vers _ HI) in Hk]; tauto).
  assert (rm_status r ∈ [R_POLICY_REJECTED; R_AWAITING_APPROVAL]) as Hin
    by (rewrite Hs; case_bool_decide; set_solver).
  split_and!; [rewrite Hs; by case_bool_decide|done| | |].
  - exists dec. rewrite lookup_insert_eq. split_and!; try done.
    + rewrite Hs. case_bool_decide; naive_solver.
    + split; [done|]. by intros ?%(not_in_licensed _ Hin).
  - unfold attempts_ok. rewrite Hn. split_and!; try done; try lia; try naive_solver.
  - unfold verification_ok. rewrite Hs. by case_bool_decide.
Qed.

(** The identity clauses of the invariant. *)
Record Ids (c : core) : Prop := {
  ids_rems i r : c_rems c !! i = Some r -> rm_id r = i /\ (i < c_next c)%N;
  ids_decs i r : c_decs c !! i = Some r -> dec_id r = i /\ (i < c_next c)%N;
  ids_apps i r : c_apps c !! i = Some r ->
    ap_id r = i /\ (i < c_next c)%N /\ (ap_remediation_id r < c_next c)%N;
  ids_exes i r : c_exes c !! i = Some r ->
    ex_id r = i /\ (i < c_next c)%N /\ (ex_remediation_id r < c_next c)%N;
  ids_vers i r : c_vers c !! i = Some r -> (i < c_next c)%N /\ (r < c_next c)%N;
}.

Lemma Inv_Ids c : Inv c -> Ids c.
Proof. intros []. by constructor. Qed.

Lemma rstep_next c c' : rstep c c' -> (c_next c <= c_next c')%N.
Proof. destruct 1; simpl; lia. Qed.

Lemma rstep_Ids c c' : Inv c -> rstep c c' -> Ids c'.
Proof.
  intros HI Hstep. pose proof (rstep_next _ _ Hstep) as Hle.
  pose proof (Inv_Ids _ HI) as [Hr Hd Ha Hx Hv].
  assert (forall i r, c_rems c !! i = Some r -> rm_id r = i /\ (i < c_next c')%N) as Hr'
    by (intros i r Hl%Hr; intuition lia).
  assert (forall i r, c_decs c !! i = Some r -> dec_id r = i /\ (i < c_next c')%N) as Hd'
    by (intros i r Hl%Hd; intuition lia).
  assert (forall i r, c_apps c !! i = Some r ->
    ap_id r = i /\ (i < c_next c')%N /\ (ap_remediation_id r < c_next c')%N) as Ha'
    by (intros i r Hl%Ha; intuition lia).
  assert (forall i r, c_exes c !! i = Some r ->
    ex_id r = i /\ (i < c_next c')%N /\ (ex_remediation_id r < c_next c')%N) as Hx'
    by (intros i r Hl%Hx; intuition lia).
  assert (forall i r, c_vers c !! i = Some r -> (i < c_next c')%N /\ (r < c_next c')%N) as Hv'
    by (intros i r Hl%Hv; intuition lia).
  clear Hr Hd Ha Hx Hv HI.
  destruct Hstep; unfold with_row in *;
    cbn [c_next c_rems c_decs c_apps c_exes c_vers] in *;
    try match goal with
        | Hk : kept _ _ |- _ => pose proof (kept_id _ _ Hk)
        end;
    try match goal with
        | Hr : c_rems c !! rm_id ?r = Some ?r |- _ =>
            pose proof (Hr' _ _ Hr)
        end;
    try match goal with
        | Hs : same_execution ?x ?x', Hx : c_exes c !! _ = Some ?x |- _ =>
            pose proof (Hx' _ _ Hx); destruct Hs as (? & ? & ? & ?)
        end.
  all: try match goal with
        | Hor : _ \/ _, v : gmap uuid uuid |- _ =>
            destruct Hor as [(? & ? & w & ? & ? & -> & ?)|(? & ? & ->)]
        end.
  all: constructor; cbn [c_next c_rems c_decs c_apps c_exes c_vers]; intros i0 r0;
    try (intros [[? ?]|[? ?]]%lookup_insert_Some; [|by eauto]; subst);
    try by eauto.
  all: intuition (try lia; try congruence).
Qed.

Lemma rstep_unique c c' : Inv c -> rstep c c' ->
  forall i j r s, c_rems c' !! i = Some r -> c_rems c' !! j = Some s ->
    rm_incident_id r = rm_incident_id s -> rm_idempotency_key r = rm_idempotency_key s -> i = j.
Proof.
  intros HI [n Hn|n r dec Hr Hd Hfresh| | | | |];
    try (unfold with_row; cbn [c_rems];
         match goal with
         | Hl : c_rems c !! rm_id ?r = Some ?r, Hk : kept ?r ?r' |- _ =>
             first [rewrite <- (kept_id _ _ Hk)|idtac];
             let Hu := fresh in
             pose proof (unique_update c r r' HI Hl Hk) as Hu;
             rewrite ?(kept_id _ _ Hk) in *; exact Hu
         end).
  - intros i j s t; simpl. apply (inv_unique _ HI).
  - intros i j s t; cbn [c_rems].
    intros [[<- <-]|[? ?]]%lookup_insert_Some [[<- <-]|[? ?]]%lookup_insert_Some ? ?;
      [done| | |by eapply (inv_unique _ HI)]; exfalso; eapply Hfresh; eauto.
Qed.

(** A rewritten row is well formed when its approvals, attempts and verification
    are; what the proposal and the decision say carries over. *)
Lemma row_ok_kept c c' r r' :
  row_ok c r -> kept r r' -> c_decs c' = c_decs c ->
  rm_status r <> R_POLICY_REJECTED ->
  rm_status r' <> R_POLICY_REJECTED -> rm_status r' <> R_PROPOSED ->
  (forall dec, c_decs c !! dec_id dec = Some dec ->
     rm_policy_decision_id r = Some (dec_id dec) ->
     approvals_ok dec (apps_of c (rm_id r)) r -> approvals_ok dec (apps_of c' (rm_id r)) r') ->
  (attempts_ok (exes_of c (rm_id r)) r -> attempts_ok (exes_of c' (rm_id r)) r') ->
  (verification_ok (vers_of c (rm_id r)) r -> verification_ok (vers_of c' (rm_id r)) r') ->
  row_ok c' r'.
Proof.
  intros (_ & Hh & (dec & Hd & Hdec & Hdeny & Ha) & Hx & Hv) Hk Hdecs Hs Hs' Hp Hap Hat Hve.
  unfold row_ok. rewrite (kept_id _ _ Hk). split_and!; auto; [by eapply kept_hash_ok|].
  exists dec. rewrite Hdecs. split_and!; auto; [by eapply kept_decided|naive_solver|].
  apply Hap; auto. by destruct Hdec.
Qed.

Lemma row_of c r : Inv c -> c_rems c !! rm_id r = Some r -> row_ok c r.
Proof. intros HI. apply (inv_rows _ HI). Qed.

Lemma not_licensed_cancelled s : s = R_CANCELLED \/ s = R_FAILED -> s ∉ LICENSED.
Proof. unfold LICENSED. rewrite !elem_of_cons, !elem_of_nil. naive_solver. Qed.

Lemma rows_decide c n r r' a :
  Inv c -> c_rems c !! rm_id r = Some r -> kept r r' ->
  rm_status r = R_AWAITING_APPROVAL ->
  apps_of c (rm_id r) = ∅ -> ap_remediation_id a = rm_id r ->
  (ap_decision a = approved /\ rm_status r' = R_APPROVED
     /\ (exists dec, rm_policy_decision_id r = Some (dec_id dec)
                     /\ c_decs c !! dec_id dec = Some dec /\ entitled r dec a)
   \/ ap_decision a <> approved /\ rm_status r' = R_CANCELLED) ->
  rm_execution_attempts r' = rm_execution_attempts r ->
  rm_verification_ref r' = rm_verification_ref r ->
  row_ok {| c_next := n; c_rems := <[rm_id r := r']> (c_rems c); c_decs := c_decs c;
            c_apps := <[ap_id a := a]> (c_apps c); c_exes := c_exes c;
            c_vers := c_vers c |} r'.
Proof.
  intros HI Hr Hk Hs Hnone Ha Hcase Hn Hv.
  assert (rm_status r' = R_APPROVED \/ rm_status r' = R_CANCELLED) as Hs' by naive_solver.
  assert (rm_status r' ∉ [R_POLICY_REJECTED; R_AWAITING_APPROVAL]) as Hs2
    by (destruct Hs' as [-> | ->]; set_solver).
  eapply (row_ok_kept c); eauto using row_of; try (destruct Hs' as [-> | ->]; done);
    try (by rewrite Hs).
  - intros dec Hd Hdid _. unfold apps_of at 1. cbn [c_apps].
    rewrite about_insert_eq by done. fold (apps_of c (rm_id r)). rewrite Hnone.
    split; [naive_solver|]. intros Hl. destruct Hcase as [(? & ? & dec' & Hd' & Hdl & He)|[? Hc]].
    + exists a. split; [done|]. replace dec with dec' by congruence. by eapply kept_entitled.
    + rewrite Hc in Hl. by apply not_licensed_cancelled in Hl; [|auto].
  - intros Hx. eapply attempts_ok_kept; eauto. intros _. apply Hx. rewrite Hs. set_solver.
  - intros Hver. eapply verification_ok_kept; eauto; [by rewrite Hs|by destruct Hs' as [-> | ->]].
Qed.

Lemma rows_stop c n r r' :
  Inv c -> c_rems c !! rm_id r = Some r -> kept r r' ->
  can_transition (rm_status r) (rm_status r') = true ->
  (rm_status r' = R_CANCELLED \/ rm_status r' = R_FAILED) ->
  rm_execution_attempts r' = rm_execution_attempts r ->
  rm_verification_ref r' = rm_verification_ref r ->
  row_ok (with_row c n r') r'.
Proof.
  intros HI Hr Hk Hc Hs' Hn Hv.
  assert (rm_status r ∉ TERMINAL_REMEDIATION_STATUSES) as Ht.
  { intros Hin%(can_transition_terminal _ (rm_status r')). congruence. }
  assert (rm_status r <> R_POLICY_REJECTED /\ rm_status r <> R_EXECUTED) as [? ?]
    by (split; intros E; rewrite E in Ht; apply Ht; set_solver).
  eapply (row_ok_kept c); eauto using row_of; try (by destruct Hs' as [-> | ->]).
  - intros dec _ _ Ha. eapply approvals_ok_kept; eauto; [by destruct Hs' as [-> | ->]; set_solver|].
    by intros ?%not_licensed_cancelled.
  - intros Hx. eapply attempts_ok_kept; eauto. destruct Hs' as [-> | ->]; set_solver.
  - intros Hver. eapply verification_ok_kept; eauto. by destruct Hs' as [-> | ->].
Qed.

Lemma rows_interrupt c n r r' x x' :
  Inv c -> c_rems c !! rm_id r = Some r -> kept r r' ->
  rm_status r' = rm_status r ->
  rm_execution_attempts r' = rm_execution_attempts r ->
  rm_verification_ref r' = rm_verification_ref r ->
  c_exes c !! ex_id x = Some x -> ex_remediation_id x = rm_id r ->
  ex_status x = X_RUNNING -> same_execution x x' -> ex_status x' = X_UNKNOWN ->
  row_ok {| c_next := n; c_rems := <[rm_id r := r']> (c_rems c); c_decs := c_decs c;
            c_apps := c_apps c; c_exes := <[ex_id x := x']> (c_exes c);
            c_vers := c_vers c |} r'.
Proof.
  intros HI Hr Hk Hs Hn Hv Hx Hxr Hrun Hsame Hunk.
  pose proof (row_of _ _ HI Hr) as Hok. destruct Hok as (Hp & ? & ? & Hat & ?).
  assert (exes_of c (rm_id r) !! ex_id x = Some x) as Hxl by by apply about_Some.
  assert (rm_status r <> R_POLICY_REJECTED) as Hnr.
  { intros E. destruct Hat as (_ & _ & H0' & Hb & _). rewrite E in H0'.
    apply Hb in Hxl. rewrite H0' in Hxl by set_solver. lia. }
  eapply (row_ok_kept c); eauto using row_of; try congruence.
  - intros dec _ _ Ha. eapply approvals_ok_kept; eauto; by rewrite Hs.
  - intros _. unfold exes_of. cbn [c_exes].
    rewrite about_insert_eq by (destruct Hsame as (? & ? & ?); congruence).
    eapply attempts_ok_kept; [done| |done|].
    + eapply attempts_ok_replace; eauto. congruence.
    + rewrite Hs. by apply Hat.
  - intros Hver. unfold verification_ok in *. rewrite Hs, Hv, (kept_id _ _ Hk). exact Hver.
Qed.

Lemma licensed_started s : s = R_APPROVED \/ s = R_EXECUTING -> s ∈ LICENSED.
Proof. unfold LICENSED. rewrite !elem_of_cons, !elem_of_nil. naive_solver. Qed.

Lemma rows_start c n r r' x e :
  Inv c -> c_rems c !! rm_id r = Some r -> (c_next c <= ex_id x < n)%N -> kept r r' ->
  (rm_status r = R_APPROVED \/ rm_status r = R_EXECUTING) ->
  rm_status r' = R_EXECUTING ->
  ex_remediation_id x = rm_id r -> ex_attempt_number x = rm_execution_attempts r + 1 ->
  rm_execution_attempts r' = rm_execution_attempts r + 1 ->
  get_entry (rm_action_id r) = Some e -> rm_execution_attempts r < max_attempts e ->
  (forall k y, c_exes c !! k = Some y -> ex_remediation_id y = rm_id r ->
     ex_attempt_number y = rm_execution_attempts r -> ex_status y <> X_RUNNING) ->
  rm_verification_ref r' = rm_verification_ref r ->
  row_ok {| c_next := n; c_rems := <[rm_id r := r']> (c_rems c); c_decs := c_decs c;
            c_apps := c_apps c; c_exes := <[ex_id x := x]> (c_exes c);
            c_vers := c_vers c |} r'.
Proof.
  intros HI Hr Hid Hk Hs Hs' Hxr Hxn Hn Hentry Hlt Hrun Hv.
  eapply (row_ok_kept c); eauto using row_of; try congruence; try (by destruct Hs as [-> | ->]).
  - intros dec _ _ Ha. eapply approvals_ok_kept; eauto; rewrite Hs'; [set_solver|].
    intros _. by apply licensed_started.
  - intros Hat. unfold exes_of. cbn [c_exes]. rewrite about_insert_eq by done.
    eapply attempts_ok_start; eauto.
    + apply eq_None_not_Some. intros [y [Hy _]%about_Some]. apply (inv_exes _ HI) in Hy. lia.
    + intros k y [Hy ?]%about_Some. by eapply Hrun.
  - intros Hver. eapply verification_ok_kept; eauto; [by destruct Hs as [-> | ->]|congruence].
Qed.

Lemma rows_settle c n r r' x x' vers :
  Inv c -> c_rems c !! rm_id r = Some r -> kept r r' -> rm_status r = R_EXECUTING ->
  rm_execution_attempts r' = rm_execution_attempts r ->
  c_exes c !! ex_id x = Some x -> ex_remediation_id x = rm_id r ->
  same_execution x x' -> ex_status x' <> X_RUNNING ->
  (rm_status r' = R_EXECUTED
     /\ (exists v, rm_verification_ref r' = Some v
                   /\ vers = <[v := rm_id r]> (c_vers c) /\ vers_of c (rm_id r) = ∅)
   \/ (rm_status r' = R_EXECUTING \/ rm_status r' = R_FAILED)
      /\ rm_verification_ref r' = rm_verification_ref r /\ vers = c_vers c) ->
  row_ok {| c_next := n; c_rems := <[rm_id r := r']> (c_rems c); c_decs := c_decs c;
            c_apps := c_apps c; c_exes := <[ex_id x := x']> (c_exes c);
            c_vers := vers |} r'.
Proof.
  intros HI Hr Hk Hs Hn Hx Hxr Hsame Hrun Hcase.
  assert (rm_status r' = R_EXECUTED \/ rm_status r' = R_EXECUTING \/ rm_status r' = R_FAILED)
    as Hs' by naive_solver.
  assert (exes_of c (rm_id r) !! ex_id x = Some x) as Hxl by by apply about_Some.
  eapply (row_ok_kept c); eauto using row_of; try (by rewrite Hs);
    try (by destruct Hs' as [-> |[-> | ->]]).
  - intros dec _ _ Ha. eapply approvals_ok_kept; eauto.
    + destruct Hs' as [-> |[-> | ->]]; set_solver.
    + intros _. apply licensed_started. by right.
  - intros Hat. unfold exes_of. cbn [c_exes].
    rewrite about_insert_eq by (destruct Hsame as (? & ? & ?); congruence).
    eapply attempts_ok_kept; [done| |done|destruct Hs' as [-> |[-> | ->]]; set_solver].
    by eapply attempts_ok_replace.
  - intros Hver. destruct Hcase as [(Hex & v & Hv & -> & Hnone)|(Hnx & Hv & ->)].
    + unfold verification_ok. rewrite Hex. exists v. split; [done|].
      unfold vers_of. cbn [c_vers]. rewrite about_insert_eq by done.
      fold (vers_of c (rm_id r)). rewrite Hnone, (kept_id _ _ Hk). done.
    + eapply verification_ok_kept; eauto; [by rewrite Hs|by destruct Hnx as [-> | ->]].
Qed.

(** Rows about other remediations are not touched by inserting a row about [r]. *)
Lemma about_other {A} (f : A -> uuid) (m : gmap uuid A) k x i :
  f x <> i -> (m !! k = None \/ exists y, m !! k = Some y /\ f y = f x) ->
  about f i (<[k := x]> m) = about f i m.
Proof. intros Hx Hm. apply about_insert_ne; [done|]. intros y Hy. naive_solver congruence. Qed.

Lemma fresh_None {A} (m : gmap uuid A) (n k : uuid) :
  (forall i x, m !! i = Some x -> (i < n)%N) -> (n <= k)%N -> m !! k = None.
Proof. intros Hm Hk. apply eq_None_not_Some. intros [x Hx%Hm]. lia. Qed.

Lemma apps_fresh c k : Inv c -> (c_next c <= k)%N -> c_apps c !! k = None.
Proof. intros HI. apply fresh_None. intros i x Hx. by apply (inv_apps _ HI) in Hx as (? & ? & ?). Qed.
Lemma exes_fresh c k : Inv c -> (c_next c <= k)%N -> c_exes c !! k = None.
Proof. intros HI. apply fresh_None. intros i x Hx. by apply (inv_exes _ HI) in Hx as (? & ? & ?). Qed.
Lemma vers_fresh c k : Inv c -> (c_next c <= k)%N -> c_vers c !! k = None.
Proof. intros HI. apply fresh_None. intros i x Hx. by apply (inv_vers _ HI) in Hx as (? & ?). Qed.
Lemma decs_fresh c k : Inv c -> (c_next c <= k)%N -> c_decs c !! k = None.
Proof. intros HI. apply fresh_None. intros i x Hx. by apply (inv_decs _ HI) in Hx as (? & ?). Qed.

Lemma rstep_rows c c' : Inv c -> rstep c c' ->
  forall i r, c_rems c' !! i = Some r -> row_ok c' r.
Proof.
  intros HI [n Hn
    |n r dec Hid Hdid Hfresh Hh Hdec Hs Hn Hv
    |n r r' a Hr Hid Hk Hs Hnone Ha Hcase Hn Hv
    |n r r' Hr Hn Hk Hc Hs' Ha Hv
    |n r r' x x' Hr Hn Hk Hs Ha Hv Hx Hxr Hrun Hsame Hunk
    |n r r' x e Hr Hid Hk Hs Hs' Hxr Hxs Hxn Hn He Hlt Hrun Hv
    |n r r' x x' vers Hr Hn Hk Hs Ha Hx Hxr Hxs Hsame Hrun Hunk Hcase].
  - intros i r Hr. apply row_ok_idle. by apply (inv_rows _ HI i).
  - intros i r0; cbn [c_rems]. intros [[<- <-]|[Hne Hl]]%lookup_insert_Some.
    + by apply rows_propose.
    + apply (row_ok_frame c); try done; [by eapply (inv_rows _ HI)|].
      apply insert_subseteq, decs_fresh; [done|lia].
  - eapply (inv_rows_update c); eauto using kept_id; [|by apply rows_decide].
    intros i Hi _. unfold apps_of; cbn [c_apps]. apply about_other; [congruence|].
    left. apply apps_fresh; [done|lia].
  - eapply (inv_rows_update c); eauto using kept_id. by eapply rows_stop.
  - eapply (inv_rows_update c); eauto using kept_id; [|by eapply rows_interrupt].
    intros i Hi _. destruct Hsame as (? & ? & ?).
    unfold exes_of; cbn [c_exes]. apply about_other; [congruence|]. right. exists x. split; [done|congruence].
  - eapply (inv_rows_update c); eauto using kept_id; [|by eapply rows_start].
    intros i Hi _. unfold exes_of; cbn [c_exes]. apply about_other; [congruence|].
    left. apply exes_fresh; [done|lia].
  - eapply (inv_rows_update c); eauto using kept_id.
    + intros i Hi _. destruct Hsame as (? & ? & ?).
      unfold exes_of; cbn [c_exes]. apply about_other; [congruence|]. right. exists x. split; [done|congruence].
    + intros i Hi _. destruct Hcase as [(_ & _ & v & ? & _ & -> & _)|(_ & _ & ->)]; [|done].
      unfold vers_of; cbn [c_vers]. apply about_other; [unfold id; congruence|].
      left. apply vers_fresh; [done|lia].
    + eapply rows_settle; eauto.
      destruct Hcase as [(? & ? & v & ? & ? & ? & ?)|?]; [left|by right].
      split; [done|]. by exists v.
Qed.

Lemma rstep_Inv c c' : Inv c -> rstep c c' -> Inv c'.
Proof.
  intros HI Hs. destruct (rstep_Ids _ _ HI Hs). constructor; eauto using rstep_rows, rstep_unique.
Qed.

(** ** What one step may do to a row *)

Definition advanced (r r' : RemediationRow) : Prop :=
  kept r r'
  /\ (rm_status r' = rm_status r \/ can_transition (rm_status r) (rm_status r') = true)
  /\ rm_execution_attempts r <= rm_execution_attempts r'.

Lemma advanced_refl r : advanced r r.
Proof. split; [by split|]. split; [by left|lia]. Qed.

Lemma rstep_advances c c' i r :
  Inv c -> rstep c c' -> c_rems c !! i = Some r ->
  exists r', c_rems c' !! i = Some r' /\ advanced r r'.
Proof.
  intros HI Hstep Hi.
  assert (forall (m : gmap uuid RemediationRow) r0 r1,
    c_rems c !! rm_id r0 = Some r0 -> kept r0 r1 ->
    (rm_status r1 = rm_status r0 \/ can_transition (rm_status r0) (rm_status r1) = true) ->
    rm_execution_attempts r0 <= rm_execution_attempts r1 ->
    m = <[rm_id r0 := r1]> (c_rems c) ->
    exists r', m !! i = Some r' /\ advanced r r') as Hput.
  { intros m r0 r1 Hl0 Hk Hs Hn ->. destruct (decide (i = rm_id r0)) as [->|].
    - exists r1. rewrite lookup_insert_eq. split; [done|]. by simplify_eq.
    - exists r. rewrite lookup_insert_ne by done. split; [done|apply advanced_refl]. }
  destruct Hstep as [n Hn|n r0 dec Hid|n r0 r1 a Hr Hid Hk Hs Hnone Ha Hcase Hn Hv
    |n r0 r1 Hr Hn Hk Hc Hs' Ha Hv|n r0 r1 x x' Hr Hn Hk Hs Ha
    |n r0 r1 x e Hr Hid Hk Hs Hs' Hxr Hxs Hxn Hn|n r0 r1 x x' vers Hr Hn Hk Hs Ha Hx Hxr Hxs Hsame Hrun Hunk Hcase];
    cbn [c_rems].
  - exists r. split; [done|apply advanced_refl].
  - exists r. split; [|apply advanced_refl]. rewrite lookup_insert_ne; [done|].
    intros <-. apply (inv_rems _ HI) in Hi. lia.
  - eapply (Hput _ r0 r1); eauto; [|lia]. right. rewrite Hs.
    destruct Hcase as [(_ & -> & _)|[_ ->]]; done.
  - eapply (Hput _ r0 r1); eauto; [lia|]. unfold with_row. cbn [c_rems]. by rewrite (kept_id _ _ Hk).
  - eapply (Hput _ r0 r1); eauto. lia.
  - eapply (Hput _ r0 r1); eauto; [|lia]. right. rewrite Hs'. by destruct Hs as [-> | ->].
  - eapply (Hput _ r0 r1); eauto; [|lia]. right. rewrite Hs.
    destruct Hcase as [(-> & _)|([-> | ->] & _)]; done.
Qed.
End Lifecycle.
