(* ===== verification/RemediationService.v ===== *)
(** * incident-core's remediation commands ([packages/incident/remediations.py])

    [RemediationCoreService]: propose, decide_approval, expire_approvals, cancel,
    revise, claim_execution, complete_execution, record_baseline, the kill switches
    and the reads.  Each command is one transaction of [Store]; [revise] and
    [expire_approvals] are sequences of transactions.  Logging and metrics are
    left out. *)
From S2P Require Import Prelude PyFloat Json Enums VerificationDomain Catalog.
From S2P Require Import RemediationDomain Policy Store.
Local Open Scope Z_scope.

Definition GLOBAL_SCOPE : string := "global".
Definition service_scope (service : string) : string := "service:" +++ service.

(** The service catalog the context builder consults ([ServiceTopology]). *)
Class ServiceTopology := {
  services : gset string;
  neighborhood : string -> gset string;
}.

(** Values computed by libraries: the catalog digest (a hash over pydantic's
    JSON schemas) and [uuid5] in the URL namespace. *)
Class Digests := { catalog_digest : string; uuid5_url : string -> uuid }.

(** Constructor arguments of the service. *)
Record ServiceConfig := {
  cfg_policy : Policy.Policy;
  cfg_approval_timeout : Z;
  cfg_verification_time_scale : float;
}.

Definition default_config : ServiceConfig :=
  {| cfg_policy := DEFAULT_POLICY; cfg_approval_timeout := seconds (30 * 60);
     cfg_verification_time_scale := fone |}.

Inductive TicketMode := execute | reconcile.
#[export] Instance TicketMode_eq_dec : EqDecision TicketMode.
Proof. solve_decision. Defined.

(** [RemediationView]: the row with the decision's verdict resolved. *)
Record RemediationView := { vw_row : RemediationRow; vw_policy_decision : option string }.

Record ExecutionTicket := {
  tk_mode : TicketMode;
  tk_remediation : RemediationView;
  tk_execution_id : uuid;
  tk_attempt : Z;
  tk_idempotency_key : string;
  tk_deadline : instant;
  tk_action_id : string;
  tk_catalog_version : string;
  tk_parameters : params_t;
  tk_target_service : string;
  tk_environment : string;
}.

Definition str_list (l : list string) : json := JArr (map JStr l).
Definition str_list_of_uuids (l : list uuid) : json := JArr (map (fun u => JStr (str_uuid u)) l).

(** [{**a, **b}]: later entries win, first positions are kept. *)
Definition dict_set (d : list (string * json)) (k : string) (v : json) : list (string * json) :=
  if bool_decide (k ∈ d.*1)
  then map (fun kv => if bool_decide (kv.1 = k) then (k, v) else kv) d
  else d ++ [(k, v)].
Definition dict_merge (a b : list (string * json)) : list (string * json) :=
  foldl (fun d kv => dict_set d kv.1 kv.2) a b.

Section Service.
Context `{Pydantic, Hashing, ServiceTopology, Digests}.
Context (cfg : ServiceConfig).

(** ** Internals *)

Definition decision_of (d : db) (row : RemediationRow) : option RemediationPolicyDecisionRow :=
  i ← rm_policy_decision_id row; policy_decisions d !! i.

Definition _view (row : RemediationRow) : Tx RemediationView :=
  reads (fun d => {| vw_row := row;
                     vw_policy_decision :=
                       PolicyVerdict_value ∘ dec_decision <$> decision_of d row |}).

Definition _lock (remediation_id : uuid) : Tx RemediationRow :=
  row ← reads (fun d => remediations d !! remediation_id);
  must row (RemediationNotFoundError (str_uuid remediation_id)).

Definition _lock_incident (incident_id : uuid) : Tx IncidentRow :=
  row ← reads (fun d => incidents d !! incident_id);
  must row (IncidentNotFoundError (str_uuid incident_id)).

Definition _engaged_scopes (d : db) : list string :=
  map ks_scope (List.filter ks_engaged ((map_to_list (kill_switches d)).*2)).

Definition max_sequence (l : list RemediationTimelineRow) (id : uuid) : Z :=
  foldr (fun r m => if bool_decide (tl_remediation_id r = id)
                    then Z.max (tl_sequence r) m else m) 0 l.

Definition _timeline (now : instant) (row : RemediationRow) (event : string)
    (from_status to_status : option RemediationStatus) (actor : string) (details : json)
    (policy_version : option string) : Tx () :=
  writes (fun d => d <| timeline ::= (fun l => l ++
    [ {| tl_remediation_id := rm_id row;
         tl_sequence := max_sequence l (rm_id row) + 1;
         tl_event := event;
         tl_from_status := from_status;
         tl_to_status := to_status;
         tl_actor := actor;
         tl_correlation_id := rm_correlation_id row;
         tl_action_id := rm_action_id row;
         tl_catalog_version := rm_catalog_version row;
         tl_policy_version :=
           match policy_version with
           | Some v => Some v
           | None => dec_policy_version <$> decision_of d row
           end;
         tl_details := details;
         tl_occurred_at := now |} ]) |>).

Definition _event (now : instant) (row : RemediationRow) (event_type actor : string)
    (decision_row : option RemediationPolicyDecisionRow) : Tx () :=
  dec ← reads (fun d => match decision_row with
                        | Some r => Some r | None => decision_of d row end);
  insert_outbox_event now event_type "Remediation" (rm_id row) (Some (rm_correlation_id row))
    (PRemediation
       {| rep_remediation_id := rm_id row;
          rep_incident_id := rm_incident_id row;
          rep_action_id := rm_action_id row;
          rep_catalog_version := rm_catalog_version row;
          rep_status := RemediationStatus_value (rm_status row);
          rep_proposal_hash := rm_proposal_hash row;
          rep_actor := actor;
          rep_policy_version := dec_policy_version <$> dec;
          rep_policy_decision := PolicyVerdict_value ∘ dec_decision <$> dec;
          rep_detail := match rm_failure_reason row with
                        | Some r => if nonempty r then JObj [("failure_reason", JStr r)]
                                    else JObj []
                        | None => JObj []
                        end |}).

Definition _transition (now : instant) (row : RemediationRow) (to_status : RemediationStatus)
    (event actor : string) (details : json) (policy_version : option string)
    : Tx RemediationRow :=
  if can_transition (rm_status row) to_status then
    let row' := row <| rm_status := to_status |> <| rm_version ::= Z.succ |>
                    <| rm_updated_at := now |> in
    put_remediation row' ;;
    _timeline now row' event (Some (rm_status row)) (Some to_status) actor details
      policy_version ;;
    mret row'
  else raise (RemediationStateError
    (RemediationStatus_value (rm_status row) +++ " -> " +++ RemediationStatus_value to_status
       +++ " is not allowed")).

(** [_move_incident]: only along the edges this service owns; an incident a
    human moved elsewhere is left alone. *)
Definition _move_incident (now : instant) (incident : IncidentRow)
    (from_statuses : list IncidentStatus) (to_status : IncidentStatus) (reason : string)
    : Tx () :=
  if bool_decide (i_status incident ∈ from_statuses) then
    _ ← transition_with_event now incident to_status false reason
          ("incident " +++ str_uuid (i_id incident) +++ " changed concurrently");
    mret ()
  else mret ().

Definition clear_lease (row : RemediationRow) : RemediationRow :=
  row <| rm_lease_owner := None |> <| rm_lease_expires_at := None |>.

Definition _finish_failed (now : instant) (row : RemediationRow) (incident : IncidentRow)
    (code text actor : string) : Tx RemediationRow :=
  let row1 := clear_lease (row <| rm_failure_reason := Some (take_str 2000 (code +++ ": " +++ text)) |>)
                <| rm_completed_at := Some now |> in
  row2 ← _transition now row1 R_FAILED "failed" actor
           (JObj [("code", JStr code); ("detail", JStr text)]) None;
  _event now row2 "RemediationFailed" actor None ;;
  _move_incident now incident [REMEDIATION_IN_PROGRESS; AWAITING_APPROVAL] ESCALATED
    ("remediation_failed:" +++ code) ;;
  mret row2.

Definition _finish_cancelled (now : instant) (row : RemediationRow) (incident : IncidentRow)
    (event actor reason : string) (incident_to : IncidentStatus) (event_type : string)
    (decision_row : option RemediationPolicyDecisionRow) : Tx RemediationRow :=
  let row1 := clear_lease (row <| rm_failure_reason := Some (take_str 2000 reason) |>)
                <| rm_completed_at := Some now |> in
  row2 ← _transition now row1 R_CANCELLED event actor (JObj [("reason", JStr reason)]) None;
  _event now row2 event_type actor decision_row ;;
  _move_incident now incident [AWAITING_APPROVAL; REMEDIATION_IN_PROGRESS] incident_to
    ("remediation_" +++ event) ;;
  mret row2.

(** ** Proposal and policy *)

(** The latest investigation of the incident (optionally a given one). *)
Definition _rca_investigation (d : db) (incident_id : uuid) (investigation_id : option uuid)
    : option InvestigationRow :=
  foldr (fun r best =>
    if bool_decide (inv_incident_id r = incident_id)
       && match investigation_id with
          | Some i => bool_decide (inv_id r = i) | None => true end
    then match best with
         | Some b => if inv_attempt_number b <? inv_attempt_number r then Some r else best
         | None => Some r
         end
    else best) None (rows (investigations d)).

Definition count {A} (p : A -> bool) (l : list A) : Z := Z.of_nat (length (List.filter p l)).

Definition attempted_count (d : db) (incident_id : uuid) : Z :=
  count (fun r => bool_decide (rm_incident_id r = incident_id)
                  && bool_decide (rm_status r ∈ ATTEMPTED_REMEDIATION_STATUSES))
    (rows (remediations d)).

Definition recent_executions (d : db) (target : string) (since : instant) : Z :=
  count (fun x => match remediations d !! ex_remediation_id x with
                  | Some r => bool_decide (rm_target_service r = target)
                              && (since <=? ex_started_at x)
                  | None => false
                  end) (rows (executions d)).

Definition _context (now : instant) (incident : IncidentRow) (proposal : RemediationProposal)
    (tier : option Z) : Tx PolicyEvaluationContext :=
  d ← reads id;
  let investigation := _rca_investigation d (i_id incident) (pr_investigation_id proposal) in
  let rca := inv ← investigation;
             List.find (fun r => bool_decide (rca_investigation_id r = inv_id inv))
               (rows (rca_reports d)) in
  let root := match rca with
              | Some r => or_empty (jget "root_cause_hypothesis" (rca_report r))
              | None => JObj []
              end in
  let target := target_service proposal in
  let target_s := default "" target in
  let switches := _engaged_scopes d in
  category ← lift (opt_str_field (jget "cause_category" root));
  component ← lift (opt_str_field (jget "component" root));
  cid ← uuid4;
  mret {| context_id := cid;
          captured_at := now;
          ctx_incident_id := i_id incident;
          incident_environment := i_environment incident;
          incident_severity := AlertSeverity_value (i_severity incident);
          incident_service := i_service incident;
          incident_status := IncidentStatus_value (i_status incident);
          investigation_status := InvestigationStatus_value ∘ inv_status <$> investigation;
          rca_available :=
            match rca, investigation with
            | Some _, Some i => bool_decide (inv_status i = I_COMPLETED)
            | _, _ => false
            end;
          rca_cause_category := category;
          rca_component := component;
          ctx_target_service := target;
          target_known := nonempty target_s && bool_decide (target_s ∈ services);
          target_in_incident_scope :=
            nonempty target_s && bool_decide (target_s ∈ neighborhood (i_service incident));
          action_blast_radius_tier := tier;
          attempted_remediations_this_incident := attempted_count d (i_id incident);
          remediation_executions_last_hour_for_target :=
            recent_executions d target_s (now - seconds 3600);
          global_kill_switch_engaged := bool_decide (GLOBAL_SCOPE ∈ switches);
          service_kill_switch_engaged :=
            nonempty target_s && bool_decide (service_scope target_s ∈ switches);
          proposal_source := pr_source proposal |}.

Definition _record_decision (now : instant) (row : RemediationRow) (decision : PolicyDecision)
    (context : PolicyEvaluationContext) : Tx (RemediationRow * RemediationPolicyDecisionRow) :=
  id ← uuid4;
  let decision_row :=
    {| dec_id := id;
       dec_remediation_id := rm_id row;
       dec_proposal_hash := rm_proposal_hash row;
       dec_policy_version := pd_policy_version decision;
       dec_catalog_version := pd_catalog_version decision;
       dec_catalog_digest := catalog_digest;
       dec_decision := pd_decision decision;
       dec_blast_radius_tier := pd_blast_radius_tier decision;
       dec_required_approver_roles := required_approver_roles decision;
       dec_rules := pd_rules decision;
       dec_reasons := reasons decision;
       dec_policy_context := context;
       dec_evaluated_at := now |} in
  writes (fun d => d <| policy_decisions ::= <[id := decision_row]> |>) ;;
  let row' := row <| rm_policy_decision_id := Some id |> in
  put_remediation row' ;;
  _timeline now row' "policy_evaluated" (Some R_PROPOSED) (Some R_PROPOSED) "policy-engine"
    (JObj [("decision", JStr (PolicyVerdict_value (pd_decision decision)));
           ("policy_decision_id", JStr (str_uuid id));
           ("denying_rules", str_list (denying_rules decision));
           ("reasons", str_list (reasons decision));
           ("blast_radius_tier", jopt_int (pd_blast_radius_tier decision));
           ("catalog_digest", JStr catalog_digest)])
    (Some (pd_policy_version decision)) ;;
  _event now row' "RemediationPolicyEvaluated" "policy-engine" (Some decision_row) ;;
  mret (row', decision_row).

Definition by_key (incident_id : uuid) (key : string) (r : RemediationRow) : bool :=
  bool_decide (rm_incident_id r = incident_id) && bool_decide (rm_idempotency_key r = key).

(** The row [propose] inserts. *)
Definition new_row (now : instant) (id : uuid) (incident : IncidentRow)
    (proposal : RemediationProposal) (idempotency_key : string)
    (correlation_id : option uuid) (tier : option Z) : RemediationRow :=
  {| rm_id := id;
     rm_incident_id := i_id incident;
     rm_investigation_id := pr_investigation_id proposal;
     rm_idempotency_key := idempotency_key;
     rm_action_id := pr_action_id proposal;
     rm_catalog_version := CATALOG_VERSION;
     rm_parameters := pr_parameters proposal;
     rm_target_service := default "" (target_service proposal);
     rm_environment := i_environment incident;
     rm_reason := pr_reason proposal;
     rm_expected_effect := pr_expected_effect proposal;
     rm_blast_radius_tier := tier;
     rm_proposal_hash := proposal_hash (i_id incident) (pr_investigation_id proposal)
                           (pr_action_id proposal) CATALOG_VERSION (pr_parameters proposal)
                           (i_environment incident);
     rm_source := pr_source proposal;
     rm_proposed_by := pr_proposed_by proposal;
     rm_status := R_PROPOSED;
     rm_policy_decision_id := None;
     rm_approval_status := None;
     rm_execution_status := None;
     rm_execution_attempts := 0;
     rm_executor_result := None;
     rm_failure_reason := None;
     rm_verification_ref := None;
     rm_correlation_id := default (i_id incident) correlation_id;
     rm_lease_owner := None;
     rm_lease_expires_at := None;
     rm_version := 1;
     rm_created_at := now;
     rm_updated_at := now;
     rm_completed_at := None |}.

(** [session.add(row); session.flush()]: foreign keys and unique constraints. *)
Definition insert_remediation (row : RemediationRow) : Tx () :=
  d ← reads id;
  if match rm_investigation_id row with
     | Some i => bool_decide (is_Some (investigations d !! i)) | None => true end
  then if existsb (by_key (rm_incident_id row) (rm_idempotency_key row)) (rows (remediations d))
       then raise (IntegrityError "uq_remediations_idempotency")
       else put_remediation row
  else raise (IntegrityError "remediations_investigation_id_fkey").

(** The routing of a fresh proposal by its policy decision; [ALLOW] is treated
    like [REQUIRE_APPROVAL]. *)
Definition _route (now : instant) (row : RemediationRow) (incident : IncidentRow)
    (decision : PolicyDecision) (decision_row : RemediationPolicyDecisionRow)
    : Tx RemediationRow :=
  if bool_decide (pd_decision decision = DENY) then
    row1 ← _transition now row R_POLICY_REJECTED "policy_rejected" "policy-engine"
             (JObj [("denying_rules", str_list (denying_rules decision));
                    ("reasons", str_list (reasons decision))])
             (Some (pd_policy_version decision));
    let row2 := row1 <| rm_failure_reason := Some (take_str 2000 (join "; " (reasons decision))) |>
                     <| rm_completed_at := Some now |> in
    put_remediation row2 ;;
    _event now row2 "RemediationFailed" "policy-engine" (Some decision_row) ;;
    _move_incident now incident [RCA_READY] ESCALATED "remediation_policy_rejected" ;;
    mret row2
  else
    row1 ← _transition now row R_AWAITING_APPROVAL "approval_requested" "policy-engine"
             (JObj [("required_approver_roles",
                     str_list (required_approver_roles decision))])
             (Some (pd_policy_version decision));
    let row2 := row1 <| rm_approval_status := Some "pending" |> in
    put_remediation row2 ;;
    _event now row2 "RemediationApprovalRequested" "policy-engine" (Some decision_row) ;;
    _move_incident now incident [RCA_READY] AWAITING_APPROVAL "remediation_awaiting_approval" ;;
    mret row2.

Definition propose (now : instant) (proposal : RemediationProposal) (idempotency_key : string)
    (correlation_id : option uuid) : Tx RemediationView :=
  incident ← _lock_incident (pr_incident_id proposal);
  existing ← reads (fun d => List.find (by_key (pr_incident_id proposal) idempotency_key)
                               (rows (remediations d)));
  match existing with
  | Some row => _view row
  | None =>
      let entry := get_entry (pr_action_id proposal) in
      let params := e ← entry; (validate e (pr_parameters proposal)).1 in
      let tier := e ← entry; p ← params; Some (blast_radius e p) in
      rid ← uuid4;
      let row := new_row now rid incident proposal idempotency_key correlation_id tier in
      insert_remediation row ;;
      let actor := pr_source proposal +++ ":" +++ pr_proposed_by proposal in
      _timeline now row "proposed" None (Some R_PROPOSED) actor
        (JObj [("parameters", JObj (pr_parameters proposal));
               ("reason", JStr (pr_reason proposal));
               ("expected_effect", JStr (pr_expected_effect proposal));
               ("proposal_hash", JStr (rm_proposal_hash row));
               ("idempotency_key", JStr idempotency_key)]) None ;;
      _event now row "RemediationProposed" actor None ;;
      context ← _context now incident proposal tier;
      let decision := evaluate proposal entry (cfg_policy cfg) context in
      '(row1, decision_row) ← _record_decision now row decision context;
      row2 ← _route now row1 incident decision decision_row;
      _view row2
  end.

(** ** Approval *)

Definition approval_of (d : db) (remediation_id : uuid) : option RemediationApprovalRow :=
  List.find (fun a => bool_decide (ap_remediation_id a = remediation_id)) (rows (approvals d)).

(** [session.add(approval); session.flush()]: unique per remediation. *)
Definition insert_approval (a : RemediationApprovalRow) : Tx () :=
  existing ← reads (fun d => approval_of d (ap_remediation_id a));
  match existing with
  | Some _ => raise (IntegrityError "remediation_approvals_remediation_id_key")
  | None => writes (fun d => d <| approvals ::= <[ap_id a := a]> |>)
  end.

Definition same_decision (existing : RemediationApprovalRow) (approver : string)
    (wanted : ApprovalDecision) (hash : string) : bool :=
  bool_decide (ap_approver existing = approver) && bool_decide (ap_decision existing = wanted)
  && bool_decide (ap_proposal_hash existing = hash).

Definition decide_approval (now : instant) (remediation_id : uuid) (approver : string)
    (approver_roles : list string) (approve : bool) (hash : string)
    (policy_decision_id : uuid) (comment : option string) : Tx RemediationView :=
  row ← _lock remediation_id;
  existing ← reads (fun d => approval_of d remediation_id);
  let wanted := if approve then approved else rejected in
  match existing with
  | Some e =>
      if same_decision e approver wanted hash then _view row
      else raise (RemediationStateError
        ("remediation " +++ str_uuid remediation_id +++ " already has a decision ("
           +++ ApprovalDecision_value (ap_decision e) +++ ")"))
  | None =>
      if negb (bool_decide (rm_status row = R_AWAITING_APPROVAL)) then
        raise (RemediationStateError
          ("remediation " +++ str_uuid remediation_id +++ " is "
             +++ RemediationStatus_value (rm_status row) +++ ", not awaiting approval"))
      else if negb (bool_decide (hash = rm_proposal_hash row))
              || negb (bool_decide (Some policy_decision_id = rm_policy_decision_id row)) then
        raise (ApprovalMismatchError
          ("the approval does not match the current proposal and policy decision; "
             +++ "review the current proposal and approve that"))
      else
        found ← reads (fun d => decision_of d row);
        decision_row ← must found (AssertionError "decision_row is not None");
        let eligible :=
          List.filter (fun r => bool_decide (r ∈ dec_required_approver_roles decision_row))
            approver_roles in
        if approve && bool_decide (eligible = []) then
          raise (ApproverNotAuthorizedError
            (approver +++ " holds " +++ py_str (str_list (sorted approver_roles))
               +++ "; this remediation needs one of "
               +++ py_str (str_list (dec_required_approver_roles decision_row))))
        else if approve && bool_decide (rm_source row = "operator")
                && bool_decide (rm_proposed_by row = approver) then
          raise (ApproverNotAuthorizedError "a proposer cannot approve their own proposal")
        else
          aid ← uuid4;
          insert_approval
            {| ap_id := aid;
               ap_remediation_id := rm_id row;
               ap_policy_decision_id := dec_id decision_row;
               ap_proposal_hash := rm_proposal_hash row;
               ap_decision := wanted;
               ap_approver := approver;
               ap_approver_role := head eligible;
               ap_comment := comment;
               ap_decided_at := now |} ;;
          incident ← _lock_incident (rm_incident_id row);
          let actor := "human:" +++ approver in
          if approve then
            row1 ← _transition now (row <| rm_approval_status := Some "approved" |>) R_APPROVED
                     "approved" actor
                     (JObj [("role", jopt_str (head eligible)); ("comment", jopt_str comment)])
                     (Some (dec_policy_version decision_row));
            _event now row1 "RemediationApproved" actor (Some decision_row) ;;
            _move_incident now incident [AWAITING_APPROVAL] REMEDIATION_IN_PROGRESS
              "remediation_approved" ;;
            _view row1
          else
            let tail := match comment with
                        | Some c => if nonempty c then ": " +++ c else ""
                        | None => ""
                        end in
            row1 ← _finish_cancelled now (row <| rm_approval_status := Some "rejected" |>)
                     incident "rejected" actor ("approval rejected by " +++ approver +++ tail)
                     ESCALATED "RemediationRejected" (Some decision_row);
            _view row1
  end.

(** [for x in ids: ...], each iteration a transaction of its own; an exception
    stops the loop, what earlier iterations committed stays. *)
Fixpoint each {A B} (body : A -> Tx B) (l : list A) (d : db) : result (list B) * db :=
  match l with
  | [] => (Ok [], d)
  | a :: l' =>
      match atomically (body a) d with
      | (Ok b, d') => match each body l' d' with
                      | (Ok bs, d'') => (Ok (b :: bs), d'')
                      | (Err e, d'') => (Err e, d'')
                      end
      | (Err e, d') => (Err e, d')
      end
  end.

(** One iteration of [expire_approvals]; [None] is its [continue]. *)
Definition expire_one (now : instant) (remediation_id : uuid) : Tx (option uuid) :=
  row ← _lock remediation_id;
  if negb (bool_decide (rm_status row = R_AWAITING_APPROVAL)) then mret None
  else
    aid ← uuid4;
    incident ← _lock_incident (rm_incident_id row);
    pid ← must (rm_policy_decision_id row)
            (IntegrityError "remediation_approvals.policy_decision_id");
    insert_approval
      {| ap_id := aid;
         ap_remediation_id := rm_id row;
         ap_policy_decision_id := pid;
         ap_proposal_hash := rm_proposal_hash row;
         ap_decision := timed_out;
         ap_approver := "system:approval-timeout";
         ap_approver_role := None;
         ap_comment := None;
         ap_decided_at := now |} ;;
    _ ← _finish_cancelled now (row <| rm_approval_status := Some "timed_out" |>) incident
          "approval_timed_out" "system:approval-timeout"
          ("no approval within " +++ str_timedelta (cfg_approval_timeout cfg))
          ESCALATED "RemediationCancelled" None;
    mret (Some remediation_id).

Definition expirable (now : instant) (d : db) : list uuid :=
  map rm_id (List.filter (fun r => bool_decide (rm_status r = R_AWAITING_APPROVAL)
                              && (rm_updated_at r <? now - cfg_approval_timeout cfg))
                    (rows (remediations d))).

Definition expire_approvals (now : instant) (d : db) : result (list uuid) * db :=
  let '(r, d') := each (expire_one now) (expirable now d) d in
  (match r with Ok l => Ok (omap id l) | Err e => Err e end, d').

Definition cancel (now : instant) (remediation_id : uuid) (actor reason : string)
    : Tx RemediationView :=
  row ← _lock remediation_id;
  if bool_decide (rm_status row ∈ [R_AWAITING_APPROVAL; R_APPROVED]) then
    incident ← _lock_incident (rm_incident_id row);
    row1 ← _finish_cancelled now row incident "cancelled" actor reason RCA_READY
             "RemediationCancelled" None;
    _view row1
  else raise (RemediationStateError
    ("cannot cancel a remediation that is " +++ RemediationStatus_value (rm_status row))).

Definition get (remediation_id : uuid) : Tx RemediationView :=
  row ← reads (fun d => remediations d !! remediation_id);
  row ← must row (RemediationNotFoundError (str_uuid remediation_id));
  _view row.

(** A changed proposal is a new proposal.  Three transactions: the old one is
    read, cancelled, and only then is the new proposal built and submitted. *)
Definition revise (now : instant) (remediation_id : uuid) (parameters : params_t)
    (proposed_by : string) (reason : option string) (idempotency_key : string) (d : db)
    : result RemediationView * db :=
  match atomically (get remediation_id) d with
  | (Err e, d1) => (Err e, d1)
  | (Ok old, d1) =>
      match atomically (cancel now remediation_id ("operator:" +++ proposed_by)
                          "superseded by revision") d1 with
      | (Err e, d2) => (Err e, d2)
      | (Ok _, d2) =>
          match RemediationProposal_new
                  {| pr_incident_id := rm_incident_id (vw_row old);
                     pr_investigation_id := rm_investigation_id (vw_row old);
                     pr_action_id := rm_action_id (vw_row old);
                     pr_parameters := parameters;
                     pr_reason := match reason with
                                  | Some r => if nonempty r then r else rm_reason (vw_row old)
                                  | None => rm_reason (vw_row old)
                                  end;
                     pr_expected_effect := rm_expected_effect (vw_row old);
                     pr_source := "operator";
                     pr_proposed_by := proposed_by |} with
          | Err e => (Err e, d2)
          | Ok proposal =>
              atomically (propose now proposal idempotency_key
                            (Some (rm_correlation_id (vw_row old)))) d2
          end
      end
  end.

(** ** Execution *)

Definition _ticket (row : RemediationRow) (execution : RemediationExecutionRow)
    (mode : TicketMode) : Tx ExecutionTicket :=
  view ← _view row;
  mret {| tk_mode := mode;
          tk_remediation := view;
          tk_execution_id := ex_id execution;
          tk_attempt := ex_attempt_number execution;
          tk_idempotency_key := ex_idempotency_key execution;
          tk_deadline := ex_deadline_at execution;
          tk_action_id := rm_action_id row;
          tk_catalog_version := rm_catalog_version row;
          tk_parameters := rm_parameters row;
          tk_target_service := rm_target_service row;
          tk_environment := rm_environment row |}.

(** The execution with the greatest attempt number. *)
Definition latest_of (remediation_id : uuid) (l : list RemediationExecutionRow)
    : option RemediationExecutionRow :=
  foldr (fun x best =>
    if bool_decide (ex_remediation_id x = remediation_id)
    then match best with
         | Some b => if ex_attempt_number b <? ex_attempt_number x then Some x else best
         | None => Some x
         end
    else best) None l.

Definition _latest_execution (remediation_id : uuid) : Tx (option RemediationExecutionRow) :=
  reads (fun d => latest_of remediation_id (rows (executions d))).

Definition bound_approval (d : db) (row : RemediationRow) : bool :=
  match approval_of d (rm_id row) with
  | Some a => bool_decide (ap_decision a = approved)
              && bool_decide (ap_proposal_hash a = rm_proposal_hash row)
              && bool_decide (Some (ap_policy_decision_id a) = rm_policy_decision_id row)
  | None => false
  end.

Definition switched_off (d : db) (service : string) : bool :=
  bool_decide (GLOBAL_SCOPE ∈ _engaged_scopes d)
  || bool_decide (service_scope service ∈ _engaged_scopes d).

Definition _execution_blocker (d : db) (row : RemediationRow)
    (entry : option ActionCatalogEntry) : option (string * string) :=
  if switched_off d (rm_target_service row) then
    Some ("kill_switch", "remediation kill switch engaged before execution")
  else if negb (bound_approval d row) then
    Some ("approval_invalid", "no approval bound to this exact proposal")
  else
    let stale := Some ("catalog_changed",
                       "catalog entry " +++ rm_action_id row +++ " ("
                         +++ rm_catalog_version row +++ ") is no longer current") in
    match entry with
    | None => stale
    | Some e =>
        if negb (bool_decide (rm_catalog_version row = CATALOG_VERSION)) then stale
        else
          let problems := (validate e (rm_parameters row)).2 in
          if negb (bool_decide (problems = []))
          then Some ("invalid_parameters", join "; " problems)
          else if negb (bool_decide (rm_target_service row ∈ services))
          then Some ("target_invalid",
                     "target " +++ rm_target_service row +++ " is no longer a known service")
          else if max_attempts e <=? rm_execution_attempts row
          then Some ("attempts_exhausted",
                     str_Z (rm_execution_attempts row) +++ " attempt(s) already made")
          else None
    end.

(** Unique keys of an execution attempt, checked at the next flush. *)
Definition insert_execution (x : RemediationExecutionRow) : Tx () :=
  l ← reads (fun d => rows (executions d));
  if existsb (fun y => bool_decide (ex_idempotency_key y = ex_idempotency_key x)) l
  then raise (IntegrityError "remediation_executions_idempotency_key_key")
  else if existsb (fun y => bool_decide (ex_remediation_id y = ex_remediation_id x)
                            && bool_decide (ex_attempt_number y = ex_attempt_number x)) l
  then raise (IntegrityError "uq_execution_attempt")
  else put_execution x.

(** A live lease: another worker may be acting. *)
Definition lease_live (now : instant) (row : RemediationRow) : bool :=
  match rm_lease_expires_at row with Some t => now <? t | None => false end.

(** The worker that held the attempt died mid-call: mark it unknown and hand
    the attempt to [owner] for reconciliation. *)
Definition _interrupt (now : instant) (row : RemediationRow) (latest : RemediationExecutionRow)
    (owner : string) (lease_seconds : Z) : Tx (option ExecutionTicket) :=
  let latest' := latest <| ex_status := X_UNKNOWN |>
      <| ex_error := Some ("worker " +++ ex_owner latest +++ " lost its lease mid-execution") |>
      <| ex_completed_at := Some now |> in
  put_execution latest' ;;
  let row' := row <| rm_execution_status := Some X_UNKNOWN |>
                  <| rm_lease_owner := Some owner |>
                  <| rm_lease_expires_at := Some (now + seconds lease_seconds) |> in
  put_remediation row' ;;
  _timeline now row' "execution_interrupted" (Some (rm_status row)) (Some (rm_status row))
    ("worker:" +++ owner)
    (JObj [("execution_id", JStr (str_uuid (ex_id latest)));
           ("previous_owner", JStr (ex_owner latest))]) None ;;
  t ← _ticket row' latest' reconcile;
  mret (Some t).

(** A new attempt: execution row, idempotency key, lease, EXECUTING. *)
Definition _start_attempt (now : instant) (row : RemediationRow) (entry : ActionCatalogEntry)
    (owner : string) (lease_seconds : Z) : Tx (option ExecutionTicket) :=
  let attempt := rm_execution_attempts row + 1 in
  xid ← uuid4;
  let execution :=
    {| ex_id := xid;
       ex_remediation_id := rm_id row;
       ex_attempt_number := attempt;
       ex_idempotency_key := str_uuid (rm_id row) +++ ":" +++ str_Z attempt;
       ex_status := X_RUNNING;
       ex_executor := "pending";
       ex_owner := owner;
       ex_started_at := now;
       ex_deadline_at := now + seconds (timeout_seconds entry);
       ex_completed_at := None;
       ex_result := None;
       ex_error := None |} in
  insert_execution execution ;;
  let row1 := row <| rm_execution_attempts := attempt |>
                  <| rm_execution_status := Some X_RUNNING |>
                  <| rm_lease_owner := Some owner |>
                  <| rm_lease_expires_at :=
                       Some (now + seconds (Z.max lease_seconds (timeout_seconds entry + 30))) |> in
  row2 ← _transition now row1 R_EXECUTING "execution_started" ("worker:" +++ owner)
           (JObj [("execution_id", JStr (str_uuid xid));
                  ("attempt", JInt attempt);
                  ("idempotency_key", JStr (ex_idempotency_key execution));
                  ("deadline", JStr (isoformat (ex_deadline_at execution)))]) None;
  _event now row2 "RemediationStarted" ("worker:" +++ owner) None ;;
  t ← _ticket row2 execution execute;
  mret (Some t).

(** [latest is not None and latest.status == RUNNING] *)
Definition running (latest : option RemediationExecutionRow) : option RemediationExecutionRow :=
  match latest with
  | Some x => if bool_decide (ex_status x = X_RUNNING) then Some x else None
  | None => None
  end.

Definition claim_execution (now : instant) (remediation_id : uuid) (owner : string)
    (lease_seconds : Z) : Tx (option ExecutionTicket) :=
  row ← _lock remediation_id;
  if negb (bool_decide (rm_status row ∈ [R_APPROVED; R_EXECUTING])) then mret None
  else
    latest ← _latest_execution (rm_id row);
    match running latest with
    | Some x =>
        if lease_live now row then mret None
        else _interrupt now row x owner lease_seconds
    | None =>
        incident ← _lock_incident (rm_incident_id row);
        let entry := get_entry (rm_action_id row) in
        blocker ← reads (fun d => _execution_blocker d row entry);
        match blocker with
        | Some (code, text) =>
            _ ← (if bool_decide (code = "kill_switch")
                 then _finish_cancelled now row incident "cancelled" "system:kill-switch" text
                        ESCALATED "RemediationCancelled" None
                 else _finish_failed now row incident code text "system:pre-execution");
            mret None
        | None =>
            e ← must entry (AssertionError "entry is not None");
            _start_attempt now row e owner lease_seconds
        end
    end.

Definition baseline_doc_of (b : RemediationBaselineRow) : json :=
  JObj (dict_merge (bl_values b)
          [("evidence_ids", str_list_of_uuids (bl_evidence_ids b));
           ("captured_at", JStr (isoformat (bl_captured_at b)))]).

Fixpoint insert_verification_evidence (now : instant) (verification_id : uuid)
    (poll_sequence : Z) (role : string) (ids : list uuid) : Tx () :=
  match ids with
  | [] => mret ()
  | e :: ids' =>
      d ← reads id;
      if bool_decide (is_Some (evidence_refs d !! e)) then
        if bool_decide (is_Some (verification_evidence d !! (verification_id, e)))
        then raise (IntegrityError "verification_evidence_pkey")
        else
          writes (fun d => d <| verification_evidence ::= <[(verification_id, e) :=
            {| ve_verification_id := verification_id; ve_evidence_id := e;
               ve_poll_sequence := poll_sequence; ve_role := role;
               ve_collected_at := now |}]> |>) ;;
          insert_verification_evidence now verification_id poll_sequence role ids'
      else raise (IntegrityError "verification_evidence_evidence_id_fkey")
  end.

Definition verification_for (remediation_id : uuid) (d : db) : option VerificationRow :=
  List.find (fun v => bool_decide (v_remediation_id v = remediation_id))
    (rows (verifications d)).

Definition insert_verification (v : VerificationRow) : Tx () :=
  existing ← reads (verification_for (v_remediation_id v));
  match existing with
  | Some _ => raise (IntegrityError "verifications_remediation_id_key")
  | None => put_verification v
  end.

Definition _request_verification (now : instant) (row : RemediationRow)
    (entry : option ActionCatalogEntry) : Tx RemediationRow :=
  vid ← uuid4;
  let row1 := row <| rm_verification_ref := Some vid |> in
  put_remediation row1 ;;
  baseline ← reads (fun d => baselines d !! rm_id row);
  let baseline_doc := baseline_doc_of <$> baseline in
  spec ← lift (build_spec
                 (match entry with
                  | Some e => verification e
                  | None => VerificationPolicy_mk 0 0 1 1 false []
                  end) (rm_action_id row) (rm_parameters row) baseline_doc
                 (cfg_verification_time_scale cfg));
  insert_verification
    {| v_id := vid;
       v_incident_id := rm_incident_id row;
       v_remediation_id := rm_id row;
       v_verification_type := rm_action_id row;
       v_policy_version := policy_version spec;
       v_spec := spec;
       v_baseline := baseline_doc;
       v_status := V_PENDING;
       v_consecutive_successes := 0;
       v_observation_count := 0;
       v_conclusive_count := 0;
       v_result := None;
       v_failure_reason := None;
       v_next_action := None;
       v_correlation_id := rm_correlation_id row;
       v_grace_until := None;
       v_deadline_at := None;
       v_next_poll_at := None;
       v_lease_owner := None;
       v_lease_expires_at := None;
       v_claim_attempt := 0;
       v_known_alert_ids := [];
       v_started_at := None;
       v_completed_at := None;
       v_created_at := now;
       v_updated_at := now |} ;;
  match baseline with
  | Some b => insert_verification_evidence (bl_captured_at b) vid 0 "baseline"
                (bl_evidence_ids b)
  | None => mret ()
  end ;;
  let requirements := [spec_dump spec] in
  _timeline now row1 "verification_requested" (Some R_EXECUTED) (Some R_EXECUTED)
    "incident-core"
    (JObj [("verification_id", JStr (str_uuid vid)); ("requirements", JArr requirements)])
    None ;;
  insert_outbox_event now "VerificationRequested" "Remediation" (rm_id row)
    (Some (rm_correlation_id row))
    (PVerificationRequested
       {| vrp_verification_id := vid; vrp_remediation_id := rm_id row;
          vrp_incident_id := rm_incident_id row; vrp_action_id := rm_action_id row;
          vrp_target_service := rm_target_service row; vrp_requirements := requirements |}) ;;
  mret row1.

(** The retry condition of a failed attempt. *)
Definition can_retry (entry : option ActionCatalogEntry) (retryable : bool) (attempts : Z)
    : bool :=
  match entry with
  | Some e => retry_safe e && retryable && (attempts <? max_attempts e)
  | None => false
  end.

Definition failure_text (entry : option ActionCatalogEntry) (outcome : string)
    (error : option string) : string :=
  if bool_decide (outcome = "timed_out")
     && negb (match entry with Some e => retry_safe e | None => false end)
  then "timed out; outcome unknown and the action is not retry-safe"
  else outcome +++ ": " +++ default "no detail" error.

Definition or_empty_dict (o : option (list (string * json))) : list (string * json) :=
  default [] o.

(** The attempt succeeded: EXECUTED, with its verification. *)
Definition _settle_success (now : instant) (row : RemediationRow) (incident : IncidentRow)
    (execution : RemediationExecutionRow) (entry : option ActionCatalogEntry) (actor : string)
    (result : list (string * json)) : Tx RemediationRow :=
  put_execution (execution <| ex_status := X_SUCCEEDED |>) ;;
  let row1 := clear_lease (row <| rm_execution_status := Some X_SUCCEEDED |>)
                <| rm_completed_at := Some now |> in
  row2 ← _transition now row1 R_EXECUTED "executed" actor
           (JObj [("execution_id", JStr (str_uuid (ex_id execution)));
                  ("result", JObj result)]) None;
  _event now row2 "RemediationExecuted" actor None ;;
  row3 ← _request_verification now row2 entry;
  _move_incident now incident [REMEDIATION_IN_PROGRESS] VERIFYING "remediation_executed" ;;
  mret row3.

(** The attempt failed or timed out: retried or FAILED. *)
Definition _settle_failure (now : instant) (row : RemediationRow) (incident : IncidentRow)
    (execution : RemediationExecutionRow) (entry : option ActionCatalogEntry)
    (actor outcome : string) (retryable : bool) : Tx RemediationRow :=
  let status := if bool_decide (outcome = "timed_out") then X_TIMED_OUT else X_FAILED in
  put_execution (execution <| ex_status := status |>) ;;
  let row1 := row <| rm_execution_status := Some status |> in
  if can_retry entry retryable (rm_execution_attempts row) then
    let row2 := clear_lease row1 in
    put_remediation row2 ;;
    _timeline now row2 "execution_attempt_failed" (Some R_EXECUTING) (Some R_EXECUTING) actor
      (JObj [("execution_id", JStr (str_uuid (ex_id execution)));
             ("outcome", JStr outcome);
             ("error", jopt_str (ex_error execution));
             ("will_retry", JBool true)]) None ;;
    mret row2
  else
    _finish_failed now row1 incident outcome
      (failure_text entry outcome (ex_error execution)) actor.

Definition complete_execution (now : instant) (execution_id : uuid) (owner outcome : string)
    (executor : string) (result : option (list (string * json))) (error : option string)
    (retryable : bool) : Tx RemediationView :=
  found ← reads (fun d => executions d !! execution_id);
  execution ← must found (RemediationNotFoundError ("execution " +++ str_uuid execution_id));
  row ← _lock (ex_remediation_id execution);
  if negb (bool_decide (rm_status row = R_EXECUTING)) then _view row
  else if negb (bool_decide (rm_lease_owner row = Some owner)) then
    raise (LeaseLostError (owner +++ " does not hold remediation " +++ str_uuid (rm_id row)))
  else if negb (bool_decide (ex_status execution ∈ [X_RUNNING; X_UNKNOWN])) then _view row
  else
    let execution1 := execution <| ex_executor := executor |>
        <| ex_completed_at := Some now |>
        <| ex_result := JObj <$> result |>
        <| ex_error := or_none (take_str 2000 (default "" error)) |> in
    let entry := get_entry (rm_action_id row) in
    incident ← _lock_incident (rm_incident_id row);
    let actor := "executor:" +++ executor in
    let row1 := row <| rm_executor_result :=
        Some (JObj (dict_merge [("attempt", JInt (ex_attempt_number execution))]
                      (or_empty_dict result))) |> in
    row2 ← (if bool_decide (outcome = "succeeded")
            then _settle_success now row1 incident execution1 entry actor (or_empty_dict result)
            else _settle_failure now row1 incident execution1 entry actor outcome retryable);
    _view row2.

(** ** Baselines, kill switches and reads *)

Definition record_baseline (now : instant) (remediation_id : uuid) (owner : string)
    (values : list (string * json)) (evidence_ids : list uuid) : Tx () :=
  row ← _lock remediation_id;
  if negb (bool_decide (rm_lease_owner row = Some owner))
     || negb (bool_decide (rm_status row = R_EXECUTING)) then
    raise (LeaseLostError (owner +++ " does not hold remediation " +++ str_uuid remediation_id))
  else
    existing ← reads (fun d => baselines d !! remediation_id);
    match existing with
    | Some _ => mret ()
    | None =>
        writes (fun d => d <| baselines ::= <[remediation_id :=
          {| bl_remediation_id := remediation_id; bl_status := "captured";
             bl_values := values; bl_evidence_ids := evidence_ids;
             bl_captured_at := now |}]> |>) ;;
        _timeline now row "baseline_captured" (Some R_EXECUTING) (Some R_EXECUTING)
          ("worker:" +++ owner)
          (JObj [("values", JObj values); ("evidence_ids", str_list_of_uuids evidence_ids)])
          None
    end.

Definition baseline (remediation_id : uuid) (d : db) : option json :=
  b ← baselines d !! remediation_id;
  Some (JObj [("status", JStr (bl_status b)); ("values", JObj (bl_values b));
              ("evidence_ids", str_list_of_uuids (bl_evidence_ids b));
              ("captured_at", JStr (isoformat (bl_captured_at b)))]).

Definition awaits_runner (now : instant) (r : RemediationRow) : bool :=
  bool_decide (rm_status r = R_APPROVED)
  || (bool_decide (rm_status r = R_EXECUTING)
      && match rm_lease_expires_at r with None => true | Some t => t <? now end).

(** [ORDER BY key] over rows whose order is otherwise free. *)
Fixpoint insert_by {A} (key : A -> Z) (a : A) (l : list A) : list A :=
  match l with
  | [] => [a]
  | b :: l' => if key a <=? key b then a :: b :: l' else b :: insert_by key a l'
  end.
Definition order_by {A} (key : A -> Z) (l : list A) : list A := foldr (insert_by key) [] l.

Definition pending_executions (now : instant) (d : db) : list uuid :=
  map rm_id (order_by rm_updated_at (List.filter (awaits_runner now) (rows (remediations d)))).

Definition set_kill_switch (now : instant) (scope : string) (engaged : bool) (actor : string)
    (reason : option string) : Tx () :=
  if negb (bool_decide (scope = GLOBAL_SCOPE)) && negb (startswith "service:" scope) then
    raise (ValueError "scope is 'global' or 'service:<name>'")
  else
    writes (fun d => d <| kill_switches ::= <[scope :=
      {| ks_scope := scope; ks_engaged := engaged; ks_changed_by := Some actor;
         ks_reason := reason; ks_changed_at := now |}]> |>) ;;
    insert_outbox_event now "KillSwitchChanged" "KillSwitch" (uuid5_url ("kill-switch:" +++ scope))
      None (PKillSwitchChanged
              {| ksp_scope := scope; ksp_engaged := engaged; ksp_actor := actor;
                 ksp_reason := reason |}).

Definition kill_switch_map (d : db) : list (string * bool) :=
  map (fun r => (ks_scope r, ks_engaged r)) ((map_to_list (kill_switches d)).*2).

Definition list_for_incident (incident_id : uuid) (d : db) : list RemediationRow :=
  order_by rm_created_at
    (List.filter (fun r => bool_decide (rm_incident_id r = incident_id)) (rows (remediations d))).

Definition timeline_of (remediation_id : uuid) (d : db) : list RemediationTimelineRow :=
  order_by tl_sequence
    (List.filter (fun r => bool_decide (tl_remediation_id r = remediation_id)) (timeline d)).

Definition policy_decisions_of (remediation_id : uuid) (d : db)
    : list RemediationPolicyDecisionRow :=
  order_by dec_evaluated_at
    (List.filter (fun r => bool_decide (dec_remediation_id r = remediation_id))
       (rows (policy_decisions d))).

Definition executions_of (remediation_id : uuid) (d : db) : list RemediationExecutionRow :=
  order_by ex_attempt_number
    (List.filter (fun r => bool_decide (ex_remediation_id r = remediation_id))
       (rows (executions d))).
End Service.
