(* ===== verification/Runner.v ===== *)
(** * The remediation runner ([packages/remediation/runner.py])

    [RemediationRunner.run]: claim an attempt, drive it through an executor, report the
    outcome, and again while the remediation is EXECUTING.  The executor is the interface
    [RemediationExecutor]; the simulator of [Executor] implements it.  A [Turn] holds what
    one iteration does not decide itself: the clock readings, and whether the executor's
    result came too late, in which case the action may or may not have been applied. *)
From S2P Require Import Prelude PyFloat Json Enums VerificationDomain Catalog.
From S2P Require Import RemediationDomain Policy Store RemediationService Prog Redis Executor.
Local Open Scope Z_scope.

Class RemediationExecutor := {
  ex_world : Type;
  ex_name : string;
  ex_execute : Stamp -> ExecutionRequest -> ex_world -> result ExecutorResult * ex_world;
  ex_inspect : string -> ex_world -> result (option ExecutorResult) * ex_world;
}.

(** [SimulatorRemediationExecutor] *)
#[export] Instance simulator `{Pydantic, Redis} : RemediationExecutor :=
  {| ex_world := keyspace; ex_name := "simulator"; ex_execute := execute; ex_inspect := inspect |}.

Definition _MAX_CLAIMS : nat := 10.

Record Turn := {
  tn_claim : instant;
  tn_stamp : Stamp;
  (** [Some acted] when no result came before the deadline *)
  tn_late : option bool;
  tn_done : instant;
}.

(** [type(exc).__name__] and [str(exc)] *)
Definition type_name (e : exn) : string :=
  match e with
  | ValueError _ => "ValueError" | TypeError _ => "TypeError" | AttributeError _ => "AttributeError"
  | OverflowError _ => "OverflowError" | KeyError _ => "KeyError"
  | AssertionError _ => "AssertionError" | IntegrityError _ => "IntegrityError"
  | ValidationError _ => "ValidationError" | InvalidAlertError _ => "InvalidAlertError"
  | IncidentNotFoundError _ => "IncidentNotFoundError"
  | EvidenceRefConflictError _ => "EvidenceRefConflictError"
  | ConcurrentModificationError _ => "ConcurrentModificationError"
  | InvalidIncidentTransitionError _ => "InvalidIncidentTransitionError"
  | InvestigationNotFoundError _ => "InvestigationNotFoundError"
  | LeaseLostError _ => "LeaseLostError"
  | RemediationNotFoundError _ => "RemediationNotFoundError"
  | RemediationStateError _ => "RemediationStateError"
  | ApprovalMismatchError _ => "ApprovalMismatchError"
  | ApproverNotAuthorizedError _ => "ApproverNotAuthorizedError"
  | InvalidProposalError _ => "InvalidProposalError"
  | LostIdempotencyRace => "_LostIdempotencyRace"
  | RuntimeError _ => "RuntimeError" | ZeroDivisionError _ => "ZeroDivisionError"
  | ExecutionTimeout _ => "ExecutionTimeout" | ResponseError _ => "ResponseError"
  | PermanentProcessingError _ => "PermanentProcessingError"
  | EvidenceError _ _ _ => "EvidenceError"
  | ModelError _ _ _ => "ModelError" | ModelConfigError _ => "ModelConfigError"
  | HTTPException _ _ => "HTTPException"
  | Stop _ => "_Stop"
  end.
Definition exn_text (e : exn) : string :=
  match e with
  | ValueError m | TypeError m | AttributeError m | OverflowError m | AssertionError m
  | IntegrityError m | ValidationError m | InvalidAlertError m | IncidentNotFoundError m
  | EvidenceRefConflictError m | ConcurrentModificationError m
  | InvalidIncidentTransitionError m | InvestigationNotFoundError m | LeaseLostError m
  | RemediationNotFoundError m | RemediationStateError m | ApprovalMismatchError m
  | ApproverNotAuthorizedError m | InvalidProposalError m | RuntimeError m
  | ZeroDivisionError m | ExecutionTimeout m | ResponseError m | PermanentProcessingError m
  | EvidenceError _ m _ | ModelError _ m _ | ModelConfigError m => m
  | Stop st => "InvestigationStatus." +++ InvestigationStatus_value st
  | HTTPException n m => str_Z n +++ ": " +++ m
  | KeyError k => repr_str k
  | LostIdempotencyRace => ""
  end.

(** [(error or "")[:2000]] needs a text. *)
Definition error_text (j : json) : result (option string) :=
  match j with
  | JStr s => Ok (Some s)
  | _ => if truthy j then Err (TypeError "error is not a text") else Ok None
  end.
Definition detail_items (j : json) : result (list (string * json)) :=
  match j with JObj l => Ok l | _ => Err (TypeError "argument after ** must be a mapping") end.

(** Programs over the executor's world and the database. *)
Abbreviation Work := (Prog (ex_world * db)).

Section Runner.
Context {PY : Pydantic} {HA : Hashing} {TO : ServiceTopology} {DI : Digests}.
Context {EX : RemediationExecutor}.
Context (cfg : ServiceConfig) (owner : string) (lease_seconds : Z).

(** A call of [RemediationCoreService]: one transaction. *)
Definition core_command {A} (m : Tx A) : Work A := on_right (transact m).

(** [BaselineCollector.__call__], or no collector. *)
Context (baseline : option (Turn -> ExecutionTicket -> Work bool)).

Definition _complete (t : Turn) (ticket : ExecutionTicket) (result : ExecutorResult)
    (reconciled : bool) : Work RemediationView :=
  detail ← pure (detail_items (res_detail result));
  error ← pure (error_text (res_error result));
  core_command (complete_execution cfg (tn_done t) (tk_execution_id ticket) owner
    (if res_succeeded result then "succeeded" else "failed") ex_name
    (Some (dict_merge detail (if reconciled then [("reconciled", JBool true)] else [])))
    error (res_retryable result)).

Definition not_applied : ExecutorResult :=
  {| res_succeeded := false; res_detail := JObj [];
     res_error := JStr "no executor record after the previous worker was lost; not applied";
     res_retryable := true |}.

Definition _reconcile (t : Turn) (ticket : ExecutionTicket) : Work RemediationView :=
  known ← on_left (ex_inspect (tk_idempotency_key ticket));
  _complete t ticket (default not_applied known) true.

Definition request_of (ticket : ExecutionTicket) : ExecutionRequest :=
  {| rq_execution_id := str_uuid (tk_execution_id ticket);
     rq_idempotency_key := tk_idempotency_key ticket;
     rq_action_id := tk_action_id ticket;
     rq_catalog_version := tk_catalog_version ticket;
     rq_parameters := tk_parameters ticket;
     rq_target_service := tk_target_service ticket;
     rq_environment := tk_environment ticket;
     rq_deadline := tk_deadline ticket |}.

(** [pool.submit(self._executor.execute, request)] and [future.result(timeout=...)]:
    the result, or the exception raised by waiting for it. *)
Definition run_executor (t : Turn) (ticket : ExecutionTicket) : Work (result ExecutorResult + string) :=
  match tn_late t with
  | Some false => mret (inr "TimeoutError")
  | Some true =>
      _ ← attempt (on_left (ex_execute (tn_stamp t) (request_of ticket)));
      mret (inr "TimeoutError")
  | None =>
      r ← attempt (on_left (ex_execute (tn_stamp t) (request_of ticket)));
      match r with
      | Err (ExecutionTimeout _) => mret (inr "ExecutionTimeout")
      | _ => mret (inl r)
      end
  end.

(** A completion without a result. *)
Definition complete_without (t : Turn) (ticket : ExecutionTicket) (outcome executor error : string)
    : Work RemediationView :=
  core_command (complete_execution cfg (tn_done t) (tk_execution_id ticket) owner outcome executor
              None (Some error) true).

Definition _execute (t : Turn) (ticket : ExecutionTicket) : Work RemediationView :=
  ready ← match baseline with Some collect => collect t ticket | None => mret true end;
  if negb ready then
    complete_without t ticket "failed" "none"
      "pre-remediation baseline unavailable; action not executed"
  else
    waited ← run_executor t ticket;
    match waited with
    | inr name =>
        complete_without t ticket "timed_out" ex_name
          ("no result before the deadline (" +++ name +++ ")")
    | inl (Err e) =>
        complete_without t ticket "failed" ex_name
          (type_name e +++ ": " +++ take_str 300 (exn_text e))
    | inl (Ok result) => _complete t ticket result false
    end.

Definition is_lease_lost (e : exn) : bool := match e with LeaseLostError _ => true | _ => false end.

(** One iteration of [run]: [None] is its [break]. *)
Definition drive (t : Turn) (remediation_id : uuid) : Work (option RemediationView) :=
  claimed ← core_command (claim_execution (tn_claim t) remediation_id owner lease_seconds);
  match claimed with
  | None => mret None
  | Some ticket =>
      r ← attempt (if bool_decide (tk_mode ticket = reconcile)
                   then _reconcile t ticket else _execute t ticket);
      match r with
      | Ok view => mret (Some view)
      | Err e => if is_lease_lost e then mret None else pure (Err e)
      end
  end.

Fixpoint run_loop (turns : nat -> Turn) (claims : nat) (remediation_id : uuid)
    : Work RemediationView :=
  match claims with
  | O => core_command (get remediation_id)
  | S n =>
      view ← drive (turns O) remediation_id;
      match view with
      | None => core_command (get remediation_id)
      | Some v =>
          if bool_decide (rm_status (vw_row v) = R_EXECUTING)
          then run_loop (fun k => turns (S k)) n remediation_id
          else mret v
      end
  end.

Definition run (turns : nat -> Turn) (remediation_id : uuid) : Work RemediationView :=
  run_loop turns _MAX_CLAIMS remediation_id.
End Runner.
