(* ===== verification/IncidentRepository.v ===== *)
(** * incident-core's persistence functions ([packages/incident/repository.py])

    The command ledger, alerts, incidents, correlation candidates, evidence
    references, the outbox's relay side and the consumers' ledger.  An
    [ON CONFLICT DO NOTHING] insert returns what its [RETURNING] clause does: nothing
    when the unique index it names already has the key. *)
From S2P Require Import Prelude PyFloat Json Enums Correlation VerificationDomain Catalog.
From S2P Require Import RemediationDomain Store RemediationService.
Local Open Scope Z_scope.

(** ** Commands ([packages/domain/commands.py]) *)

Definition COMMAND_TYPE_ALERT_RECEIVED : string := "AlertReceivedCommand".
Definition REQUIRED_LABELS : list string := ["service"; "environment"].

Record AlertReceivedCommand := {
  cmd_idempotency_key : string;
  cmd_source : AlertSource;
  cmd_external_id : option string;
  cmd_labels : labels_t;
  cmd_annotations : labels_t;
  cmd_severity : AlertSeverity;
  cmd_status : AlertStatus;
  cmd_raw_payload : json;
}.

(** The validator of [labels]: the required ones are there and not empty. *)
Definition _require_service_and_environment (value : labels_t) : result labels_t :=
  let missing := List.filter (fun k => negb (nonempty (default "" (value !! k)))) REQUIRED_LABELS in
  match missing with
  | [] => Ok value
  | _ => Err (ValueError ("labels missing required keys: " +++ join ", " missing))
  end.

(** The command constructor: [AlertReceivedCommand( ... )].  What a field or a validator
    refuses is a [ValidationError]. *)
Definition alert_received_command (c : AlertReceivedCommand) : result AlertReceivedCommand :=
  if nonempty (cmd_idempotency_key c) then
    match _require_service_and_environment (cmd_labels c) with
    | Err (ValueError msg) => Err (ValidationError ("Value error, " +++ msg))
    | Err e => Err e
    | Ok _ => Ok c
    end
  else Err (ValidationError "String should have at least 1 character").

Definition label_of (k : string) (l : labels_t) : result string :=
  match l !! k with Some v => Ok v | None => Err (KeyError k) end.
Definition service (c : AlertReceivedCommand) : result string := label_of "service" (cmd_labels c).
Definition environment (c : AlertReceivedCommand) : result string :=
  label_of "environment" (cmd_labels c).

Record RegisterEvidenceRefCommand := {
  re_evidence_id : uuid;
  re_incident_id : uuid;
  re_investigation_id : option uuid;
  re_evidence_type : string;
  re_content_hash : string;
  re_source_system : string;
  re_collected_at : instant;
}.

(** ** [processed_commands] *)

Definition get_processed_command (command_type idempotency_key : string)
    : Tx (option AlertReceivedResult) :=
  reads (fun d => processed_commands d !! (command_type, idempotency_key)).

Definition insert_processed_command (command_type idempotency_key : string)
    (result : AlertReceivedResult) : Tx bool :=
  existing ← get_processed_command command_type idempotency_key;
  match existing with
  | Some _ => mret false
  | None =>
      writes (fun d => d <| processed_commands ::= <[(command_type, idempotency_key) := result]> |>) ;;
      mret true
  end.

(** ** Alerts *)

Definition is_episode (source : AlertSource) (external_id : string) (a : AlertRow) : bool :=
  bool_decide (a_source a = source) && bool_decide (a_external_id a = Some external_id).

(** The alert with this source and external id, if any. *)
Definition find_episode (source : AlertSource) (external_id : string) (d : db) : option AlertRow :=
  List.find (is_episode source external_id) (rows (alerts d)).

(** A new row of a command, at a fresh id. *)
Definition new_alert (now : instant) (id : uuid) (c : AlertReceivedCommand) (fingerprint : string)
    (status : AlertStatus) (resolved_at : option instant) : AlertRow :=
  {| a_id := id; a_external_id := cmd_external_id c; a_source := cmd_source c;
     a_fingerprint := fingerprint; a_labels := cmd_labels c; a_annotations := cmd_annotations c;
     a_severity := cmd_severity c; a_status := status; a_incident_id := None;
     a_raw_payload := cmd_raw_payload c; a_received_at := now; a_resolved_at := resolved_at |}.

(** Whether the partial unique index on [(source, external_id)] has the row's key. *)
Definition episode_taken (row : AlertRow) (d : db) : bool :=
  match a_external_id row with
  | Some x => existsb (is_episode (a_source row) x) (rows (alerts d))
  | None => false
  end.

Definition insert_alert_or_get_existing (now : instant) (c : AlertReceivedCommand)
    (fingerprint : string) : Tx (AlertRow * bool) :=
  aid ← uuid4;
  let row := new_alert now aid c fingerprint (cmd_status c) None in
  match cmd_external_id c with
  | Some external_id =>
      taken ← reads (episode_taken row);
      if negb taken then put_alert row ;; mret (row, false)
      else
        found ← reads (find_episode (cmd_source c) external_id);
        existing ← must found (RuntimeError "No row was found when one was required");
        mret (existing, true)
  | None => put_alert row ;; mret (row, false)
  end.

Definition link_alert_to_incident (alert_id incident_id : uuid) : Tx () :=
  found ← reads (fun d => alerts d !! alert_id);
  alert ← must found (AssertionError "alert is not None");
  put_alert (alert <| a_incident_id := Some incident_id |>).

Definition is_open_incident (d : db) (incident_id : uuid) : bool :=
  match incidents d !! incident_id with
  | Some i => negb (bool_decide (i_status i ∈ CLOSED_INCIDENT_STATUSES))
  | None => false
  end.

(** Firing, of this fingerprint and linked to an open incident. *)
Definition resolvable (d : db) (fingerprint : string) (a : AlertRow) : bool :=
  bool_decide (a_fingerprint a = fingerprint) && bool_decide (a_status a = FIRING)
  && match a_incident_id a with Some i => is_open_incident d i | None => false end.

(** [ORDER BY received_at DESC LIMIT 1] *)
Definition most_recent (l : list AlertRow) : option AlertRow :=
  foldr (fun a best =>
    match best with
    | Some b => if a_received_at a <? a_received_at b then best else Some a
    | None => Some a
    end) None l.

Definition find_alert_to_resolve (c : AlertReceivedCommand) (fingerprint : string)
    : Tx (option AlertRow) :=
  match cmd_external_id c with
  | Some external_id => reads (find_episode (cmd_source c) external_id)
  | None => reads (fun d => most_recent (List.filter (resolvable d fingerprint) (rows (alerts d))))
  end.

Definition mark_alert_resolved (alert : AlertRow) (now : instant) : Tx AlertRow :=
  let alert' := alert <| a_status := ALERT_RESOLVED |> <| a_resolved_at := Some now |> in
  put_alert alert' ;;
  mret alert'.

Definition insert_unlinked_resolved_alert (now : instant) (c : AlertReceivedCommand)
    (fingerprint : string) : Tx AlertRow :=
  aid ← uuid4;
  let row := new_alert now aid c fingerprint ALERT_RESOLVED (Some now) in
  taken ← reads (episode_taken row);
  if negb taken then put_alert row ;; mret row
  else raise (IntegrityError "alerts_source_external_id").

(** ** Incidents *)

Definition incident_open (i : IncidentRow) : bool :=
  negb (bool_decide (i_status i ∈ CLOSED_INCIDENT_STATUSES)).

Definition is_open_with_key (correlation_key : string) (i : IncidentRow) : bool :=
  bool_decide (i_correlation_key i = correlation_key) && incident_open i.

Definition _select_open_incident (correlation_key : string) (d : db) : option IncidentRow :=
  List.find (is_open_with_key correlation_key) (rows (incidents d)).

Definition new_incident (now : instant) (id : uuid) (correlation_key : string)
    (severity : AlertSeverity) (service environment : string) : IncidentRow :=
  {| i_id := id; i_status := TRIAGING; i_severity := severity; i_service := service;
     i_environment := environment; i_correlation_key := correlation_key; i_attempt_count := 0;
     i_version := 0; i_created_at := now; i_updated_at := now; i_closed_at := None |}.

(** The insert against the partial unique index [incidents_open_correlation_key]. *)
Definition insert_open_incident (row : IncidentRow) : Tx (option IncidentRow) :=
  taken ← reads (fun d => existsb (is_open_with_key (i_correlation_key row)) (rows (incidents d)));
  if negb taken then put_incident row ;; mret (Some row) else mret None.

Definition get_or_create_open_incident (now : instant) (correlation_key : string)
    (severity : AlertSeverity) (service environment : string) : Tx (IncidentRow * bool) :=
  existing ← reads (_select_open_incident correlation_key);
  match existing with
  | Some row => mret (row, false)
  | None =>
      iid ← uuid4;
      inserted ← insert_open_incident
                   (new_incident now iid correlation_key severity service environment);
      match inserted with
      | Some row => mret (row, true)
      | None =>
          found ← reads (_select_open_incident correlation_key);
          winner ← must found (AssertionError "winner is not None");
          mret (winner, false)
      end
  end.

Definition touch_incident_updated_at (now : instant) (incident : IncidentRow) : Tx IncidentRow :=
  let incident' := incident <| i_updated_at := now |> in
  put_incident incident' ;;
  mret incident'.

(** ** Correlation candidates *)

Definition linked_to (incident_id : uuid) (a : AlertRow) : bool :=
  bool_decide (a_incident_id a = Some incident_id).

(** [max(received_at)] of the alerts of an incident; none when it has none. *)
Definition max_received_at (d : db) (incident_id : uuid) : option instant :=
  foldr (fun a best => Some (match best with
                             | Some t => Z.max (a_received_at a) t
                             | None => a_received_at a
                             end)) None
    (List.filter (linked_to incident_id) (rows (alerts d))).

Definition candidate_of (i : IncidentRow) (a : AlertRow) : Engine.CorrelationCandidate :=
  {| Engine.incident_id := i_id i; Engine.correlation_key := i_correlation_key i;
     Engine.cand_status := IncidentStatus_value (i_status i);
     Engine.cand_service := i_service i; Engine.cand_environment := i_environment i;
     Engine.most_recent_alert_received_at := a_received_at a;
     Engine.most_recent_alert_labels := a_labels a;
     Engine.most_recent_alert_fingerprint := a_fingerprint a |}.

(** The rows the query joins for one incident. *)
Definition candidates_of (d : db) (service environment : string) (cutoff : instant)
    (i : IncidentRow) : list Engine.CorrelationCandidate :=
  match max_received_at d (i_id i) with
  | Some latest =>
      if bool_decide (i_service i = service) && bool_decide (i_environment i = environment)
         && incident_open i && (cutoff <=? latest)
      then map (candidate_of i)
             (List.filter (fun a => linked_to (i_id i) a && (a_received_at a =? latest))
                (rows (alerts d)))
      else []
  | None => []
  end.

Definition find_open_incident_candidates (service environment : string) (now : instant)
    (lookback_seconds : Z) (d : db) : list Engine.CorrelationCandidate :=
  flat_map (candidates_of d service environment (now - seconds lookback_seconds))
    (rows (incidents d)).

(** ** Reads of incidents *)

Definition alerts_of (d : db) (incident_id : uuid) : list AlertRow :=
  List.filter (linked_to incident_id) (rows (alerts d)).

Definition get_incident_with_alerts (incident_id : uuid) (d : db)
    : option (IncidentRow * list AlertRow) :=
  match incidents d !! incident_id with
  | Some incident => Some (incident, alerts_of d incident_id)
  | None => None
  end.

Definition selects (environment : option string) (exclude : option uuid)
    (created_before : option instant) (i : IncidentRow) : bool :=
  match environment with Some e => bool_decide (i_environment i = e) | None => true end
  && match exclude with Some x => negb (bool_decide (i_id i = x)) | None => true end
  && match created_before with Some t => i_created_at i <=? t | None => true end.

(** [ORDER BY created_at DESC, id LIMIT limit], each with its alerts. *)
Definition list_incident_summaries (environment : option string) (exclude : option uuid)
    (created_before : option instant) (limit : nat) (d : db) : list (IncidentRow * list AlertRow) :=
  map (fun i => (i, alerts_of d (i_id i)))
    (take limit
       (order_by (fun i => - i_created_at i)
          (order_by (fun i => Z.of_N (i_id i))
             (List.filter (selects environment exclude created_before) (rows (incidents d)))))).

(** ** Evidence references *)

Definition insert_evidence_ref (r : EvidenceRefRow) : Tx bool :=
  existing ← reads (fun d => evidence_refs d !! er_id r);
  match existing with
  | Some _ => mret false
  | None => writes (fun d => d <| evidence_refs ::= <[er_id r := r]> |>) ;; mret true
  end.

Definition list_evidence_refs (incident_id : uuid) (d : db) : list EvidenceRefRow :=
  order_by er_collected_at
    (order_by (fun r => Z.of_N (er_id r))
       (List.filter (fun r => bool_decide (er_incident_id r = incident_id)) (rows (evidence_refs d)))).

(** ** The outbox, as the relay sees it *)

Definition unpublished (e : OutboxEventRow) : bool := bool_decide (oe_published_at e = None).

(** [ORDER BY sequence LIMIT limit] *)
Definition get_unpublished_outbox_events (limit : nat) (d : db) : list OutboxEventRow :=
  take limit (order_by oe_sequence (List.filter unpublished (outbox_events d))).

(** The row of the session is the row of the table. *)
Definition update_event (sequence : Z) (f : OutboxEventRow -> OutboxEventRow) : Tx () :=
  writes (fun d => d <| outbox_events ::=
    map (fun e => if oe_sequence e =? sequence then f e else e) |>).

Definition mark_outbox_event_published (now : instant) (event : OutboxEventRow) : Tx () :=
  update_event (oe_sequence event) (fun e =>
    e <| oe_published_at := Some now |> <| oe_publish_attempts ::= Z.succ |>
      <| oe_last_publish_error := None |>).

Definition mark_outbox_event_publish_failed (event : OutboxEventRow) (error : string) : Tx () :=
  update_event (oe_sequence event) (fun e =>
    e <| oe_publish_attempts ::= Z.succ |> <| oe_last_publish_error := Some (take_str 2000 error) |>).

(** ** Consumer-side idempotency *)

Definition has_consumed_event (consumer_name : string) (event_id : uuid) (d : db) : bool :=
  bool_decide ((consumer_name, event_id) ∈ consumed_events d).

Definition mark_event_consumed (consumer_name : string) (event_id : uuid) : Tx bool :=
  known ← reads (has_consumed_event consumer_name event_id);
  if negb known then
    writes (fun d => d <| consumed_events ::= union {[(consumer_name, event_id)]} |>) ;; mret true
  else mret false.
