(* ===== verification/AlertIdentity.v ===== *)
(** * The identity of an alert ([packages/domain/correlation.py], [idempotency.py])

    The label fingerprint and the idempotency key alert-ingestion derives for a
    notification.  SHA-256 is the interface [Hashing].  A payload is a JSON value, so
    [json.dumps] never falls back on [default=str]; the time is an instant. *)
From S2P Require Import Prelude PyFloat Json Enums RemediationDomain.
Local Open Scope Z_scope.

Definition DEFAULT_DEBOUNCE_SECONDS : Z := 60.

Definition labels_json (labels : labels_t) : json :=
  JObj (map (fun kv => (kv.1, JStr kv.2)) (map_to_list labels)).

Section Identity.
Context {HA : Hashing}.

Definition compute_fingerprint (source : AlertSource) (labels : labels_t) : string :=
  sha256_hex (json_dumps (JObj [("source", JStr (AlertSource_value source));
                                ("labels", labels_json labels)])).

Definition compute_correlation_key (fingerprint : string) : string := fingerprint.

Definition external_key (source : AlertSource) (external_id : string) (status : AlertStatus)
    : string :=
  let key := AlertSource_value source +++ ":external:" +++ external_id in
  match status with ALERT_RESOLVED => key +++ ":resolved" | FIRING => key end.

Definition content_key (source : AlertSource) (normalized_payload : json) (bucket : Z) : string :=
  AlertSource_value source +++ ":content:" +++ sha256_hex (json_dumps normalized_payload)
    +++ ":" +++ str_Z bucket.

(** [if external_id:] is false on the empty string, too. *)
Definition derive_alert_idempotency_key (source : AlertSource) (external_id : option string)
    (normalized_payload : json) (status : AlertStatus) (debounce_seconds : Z) (now : instant)
    : result string :=
  match external_id with
  | Some x =>
      if nonempty x then Ok (external_key source x status)
      else if debounce_seconds =? 0 then Err (ZeroDivisionError "float floor division by zero")
      else Ok (content_key source normalized_payload (now / seconds debounce_seconds))
  | None =>
      if debounce_seconds =? 0 then Err (ZeroDivisionError "float floor division by zero")
      else Ok (content_key source normalized_payload (now / seconds debounce_seconds))
  end.

(** The text a source and its separator begin a key with: no source's is a prefix of
    another's. *)
Lemma source_prefix (s s' : AlertSource) a b :
  AlertSource_value s +++ ":" +++ a = AlertSource_value s' +++ ":" +++ b -> s = s' /\ a = b.
Proof.
  destruct s, s'; intros H; try (discriminate H);
    (split; [done|]); apply append_inj_l in H; by injection H.
Qed.

Lemma external_key_text s x st :
  external_key s x st = AlertSource_value s +++ ":" +++ "external:" +++ x
    +++ match st with ALERT_RESOLVED => ":resolved" | FIRING => "" end.
Proof.
  unfold external_key. destruct st; [by rewrite append_nil_r|by rewrite !append_assoc].
Qed.

(** When two notifications share an idempotency key.  The keys of two notifications
    with an external id agree exactly when the sources agree and either both say the same
    of the same alert, or one says firing of an alert whose external id is the other's
    resolved alert's followed by [:resolved]. *)
Theorem external_keys_collide_iff s x st s' x' st' :
  external_key s x st = external_key s' x' st'
  <-> s = s'
      /\ ((x = x' /\ st = st')
          \/ (st = FIRING /\ st' = ALERT_RESOLVED /\ x = x' +++ ":resolved")
          \/ (st = ALERT_RESOLVED /\ st' = FIRING /\ x' = x +++ ":resolved")).
Proof.
  rewrite !external_key_text. split.
  - intros [<- H]%source_prefix. split; [done|]. apply append_inj_l in H.
    destruct st, st'; rewrite ?append_nil_r in H; [left| | |left; by apply append_inj_r in H];
      [done|right; left; done|right; right; done].
  - intros (<- & [[<- <-]|[(-> & -> & ->)|(-> & -> & ->)]]); [done| |];
      by rewrite ?append_nil_r, ?append_assoc.
Qed.

(** The two kinds of key never meet.  A notification with an external id and one
    without have different idempotency keys, whatever their sources, payloads and times. *)
Theorem key_kinds_differ s x p st deb now s' p' st' deb' now' k k' :
  x <> "" ->
  derive_alert_idempotency_key s (Some x) p st deb now = Ok k ->
  derive_alert_idempotency_key s' None p' st' deb' now' = Ok k' ->
  k <> k'.
Proof.
  intros Hx%nonempty_true. unfold derive_alert_idempotency_key. rewrite Hx.
  intros [= <-]. case_match; [done|]. intros [= <-]. rewrite external_key_text.
  unfold content_key. intros E.
  apply (source_prefix s s' ("external:" +++ _) ("content:" +++ _)) in E as [_ E]. discriminate E.
Qed.
End Identity.
