(* ===== verification/IncidentService.v ===== *)
(** * incident-core's alert and evidence commands ([packages/incident/service.py])

    [IncidentCoreService]: [handle_alert_received] with its ledger of processed
    commands, the firing and the resolved branch, [register_evidence_ref] and the
    views.  The advisory lock makes the transactions of one service and environment
    serial; the model runs each command as one step, so it has no counterpart. *)
From S2P Require Import Prelude PyFloat Json Enums Correlation VerificationDomain Catalog.
From S2P Require Import RemediationDomain Store RemediationService IncidentRepository AlertIdentity.
Local Open Scope Z_scope.
Import Engine.

Definition _MAX_IDEMPOTENCY_RACE_RETRIES : nat := 3.

(** Constructor arguments of the service. *)
Record IncidentConfig := {
  ic_correlation_engine : CorrelationEngine;
  ic_candidate_lookback_seconds : Z;
}.

Definition default_incident_config : IncidentConfig :=
  {| ic_correlation_engine :=
       default_correlation_engine DEFAULT_THRESHOLD DEFAULT_TEMPORAL_WINDOW_SECONDS None ∅;
     ic_candidate_lookback_seconds := DEFAULT_CANDIDATE_LOOKBACK_SECONDS |}.

Section Commands.
Context {HA : Hashing}.
Context (config : IncidentConfig).

Definition _incident_status (incident_id : option uuid) (d : db) : option string :=
  match incident_id with
  | None => None
  | Some i => (fun r => IncidentStatus_value (i_status r)) <$> incidents d !! i
  end.

Definition _finalize (c : AlertReceivedCommand) (result : AlertReceivedResult) : Tx () :=
  inserted ← insert_processed_command COMMAND_TYPE_ALERT_RECEIVED (cmd_idempotency_key c) result;
  if negb inserted then raise LostIdempotencyRace else mret ().

Definition _finish_resolution (c : AlertReceivedCommand) (alert : AlertRow)
    : Tx AlertReceivedResult :=
  status ← reads (_incident_status (a_incident_id alert));
  let result := {| ar_alert_id := a_id alert; ar_incident_id := a_incident_id alert;
                   ar_incident_created := false; ar_incident_status := status |} in
  _finalize c result ;;
  mret result.

(** The last linked alert stopped firing: the only edge an alert takes. *)
Definition cancel_if_silent (now : instant) (incident : IncidentRow) (remaining : Z) : Tx () :=
  if bool_decide (remaining = 0) && bool_decide (i_status incident = TRIAGING) then
    _ ← transition_with_event now incident CANCELLED true "all_linked_alerts_resolved"
          ("incident " +++ str_uuid (i_id incident) +++ " changed concurrently; retry the command");
    mret ()
  else mret ().

Definition _process_alert_resolved (now : instant) (c : AlertReceivedCommand)
    (fingerprint : string) : Tx AlertReceivedResult :=
  found ← find_alert_to_resolve c fingerprint;
  match found with
  | None =>
      alert ← insert_unlinked_resolved_alert now c fingerprint;
      _finish_resolution c alert
  | Some alert =>
      if bool_decide (a_status alert = ALERT_RESOLVED) then _finish_resolution c alert
      else
        alert1 ← mark_alert_resolved alert now;
        incident_id ← must (a_incident_id alert1)
                        (AssertionError "a firing alert is always linked to an incident");
        found_incident ← reads (fun d => incidents d !! incident_id);
        incident ← must found_incident (AssertionError "incident is not None");
        remaining ← count_firing_alerts (i_id incident);
        insert_outbox_event now "AlertResolved" "Alert" (a_id alert1) (Some (i_id incident))
          (PAlertResolved {| alp_alert_id := a_id alert1; alp_incident_id := i_id incident;
                             alp_firing_alerts_remaining := remaining |}) ;;
        cancel_if_silent now incident remaining ;;
        _finish_resolution c alert1
  end.

(** What follows once the incident of a new alert is known. *)
Definition _attach (now : instant) (c : AlertReceivedCommand) (fingerprint : string)
    (service environment : string) (alert : AlertRow) (decision : CorrelationDecision)
    (incident : IncidentRow) (incident_created : bool) : Tx AlertReceivedResult :=
  link_alert_to_incident (a_id alert) (i_id incident) ;;
  insert_outbox_event now "AlertReceived" "Alert" (a_id alert) (Some (i_id incident))
    (PAlertReceived {| arp_alert_id := a_id alert; arp_fingerprint := fingerprint;
                       arp_source := cmd_source c; arp_incident_id := i_id incident |}) ;;
  (if incident_created then
     insert_outbox_event now "IncidentCreated" "Incident" (i_id incident) (Some (i_id incident))
       (PIncidentCreated
          {| icr_incident_id := i_id incident; icr_correlation_key := i_correlation_key incident;
             icr_initial_severity := cmd_severity c; icr_service := service;
             icr_environment := environment; icr_best_candidate_score := score decision;
             icr_matched_signals := matched_signals decision |})
   else
     insert_outbox_event now "AlertCorrelated" "Incident" (i_id incident) (Some (i_id incident))
       (PAlertCorrelated
          {| acp_alert_id := a_id alert; acp_incident_id := i_id incident;
             acp_score := score decision; acp_matched_signals := matched_signals decision |})) ;;
  let result := {| ar_alert_id := a_id alert; ar_incident_id := Some (i_id incident);
                   ar_incident_created := incident_created;
                   ar_incident_status := Some (IncidentStatus_value (i_status incident)) |} in
  _finalize c result ;;
  mret result.

(** [f"{decision.correlation_key}:{bucket}"] *)
Definition new_incident_key (now : instant) (decision : CorrelationDecision) : string :=
  dec_correlation_key decision +++ ":"
    +++ str_Z (now / seconds (ic_candidate_lookback_seconds config)).

(** The incident a new alert belongs to, and whether it was created for it. *)
Definition _incident_for (now : instant) (c : AlertReceivedCommand)
    (service environment : string) (decision : CorrelationDecision) : Tx (IncidentRow * bool) :=
  if bool_decide (Engine.decision decision = CORRELATE) then
    matched ← must (matched_incident_id decision) (AssertionError "matched_incident_id is not None");
    found ← reads (fun d => incidents d !! matched);
    incident ← must found (AssertionError "incident_row is not None");
    incident' ← touch_incident_updated_at now incident;
    mret (incident', false)
  else if bool_decide (ic_candidate_lookback_seconds config = 0) then
    raise (ZeroDivisionError "float floor division by zero")
  else
    get_or_create_open_incident now (new_incident_key now decision) (cmd_severity c)
      service environment.

Definition alert_context (now : instant) (c : AlertReceivedCommand) (fingerprint : string)
    (service environment : string) : NewAlertContext :=
  {| ctx_source := AlertSource_value (cmd_source c); ctx_fingerprint := fingerprint;
     ctx_labels := cmd_labels c; ctx_service := service; ctx_environment := environment;
     ctx_received_at := now |}.

Definition _process_alert_firing (now : instant) (c : AlertReceivedCommand)
    (fingerprint : string) (service environment : string) : Tx AlertReceivedResult :=
  inserted ← insert_alert_or_get_existing now c fingerprint;
  let '(alert, already_existed) := inserted in
  if (already_existed : bool) then
    status ← reads (_incident_status (a_incident_id alert));
    let result := {| ar_alert_id := a_id alert; ar_incident_id := a_incident_id alert;
                     ar_incident_created := false; ar_incident_status := status |} in
    _finalize c result ;;
    mret result
  else
    candidates ← reads (find_open_incident_candidates service environment now
                          (ic_candidate_lookback_seconds config));
    let decision := decide (ic_correlation_engine config)
                      (alert_context now c fingerprint service environment) candidates in
    chosen ← _incident_for now c service environment decision;
    let '(incident, incident_created) := chosen in
    _attach now c fingerprint service environment alert decision incident incident_created.

Definition _process_alert_received (now : instant) (c : AlertReceivedCommand)
    (fingerprint : string) : Tx AlertReceivedResult :=
  service ← lift (service c);
  environment ← lift (environment c);
  match cmd_status c with
  | ALERT_RESOLVED => _process_alert_resolved now c fingerprint
  | FIRING => _process_alert_firing now c fingerprint service environment
  end.

(** The retry loop: an attempt that lost the race is rolled back and answered with
    the winner's result. *)
Fixpoint race_loop (attempts : nat) (now : instant) (c : AlertReceivedCommand)
    (fingerprint : string) : Tx AlertReceivedResult :=
  match attempts with
  | O => raise (RuntimeError ("failed to process AlertReceivedCommand "
                  +++ repr_str (cmd_idempotency_key c) +++ " after "
                  +++ str_Z (Z.of_nat _MAX_IDEMPOTENCY_RACE_RETRIES) +++ " retries"))
  | S attempts' => fun d =>
      match _process_alert_received now c fingerprint d with
      | Err LostIdempotencyRace =>
          match processed_commands d !! (COMMAND_TYPE_ALERT_RECEIVED, cmd_idempotency_key c) with
          | Some winner => Ok (winner, d)
          | None => race_loop attempts' now c fingerprint d
          end
      | outcome => outcome
      end
  end.

Definition handle_alert_received (now : instant) (c : AlertReceivedCommand)
    : Tx AlertReceivedResult :=
  existing ← get_processed_command COMMAND_TYPE_ALERT_RECEIVED (cmd_idempotency_key c);
  match existing with
  | Some result => mret result
  | None =>
      race_loop _MAX_IDEMPOTENCY_RACE_RETRIES now c
        (compute_fingerprint (cmd_source c) (cmd_labels c))
  end.
End Commands.

(** ** Evidence references *)

Record EvidenceRefRegisteredResult := {
  rr_evidence_id : uuid;
  rr_incident_id : uuid;
  rr_newly_registered : bool;
}.

Definition evidence_row (c : RegisterEvidenceRefCommand) : EvidenceRefRow :=
  {| er_id := re_evidence_id c; er_incident_id := re_incident_id c;
     er_investigation_id := re_investigation_id c; er_evidence_type := re_evidence_type c;
     er_content_hash := re_content_hash c; er_source_system := re_source_system c;
     er_collected_at := re_collected_at c |}.

Definition register_evidence_ref (now : instant) (c : RegisterEvidenceRefCommand)
    : Tx EvidenceRefRegisteredResult :=
  incident ← reads (fun d => incidents d !! re_incident_id c);
  _ ← must incident (IncidentNotFoundError (str_uuid (re_incident_id c)));
  inserted ← insert_evidence_ref (evidence_row c);
  let answer new := {| rr_evidence_id := re_evidence_id c; rr_incident_id := re_incident_id c;
                       rr_newly_registered := new |} in
  if negb inserted then
    found ← reads (fun d => evidence_refs d !! re_evidence_id c);
    existing ← must found (AssertionError "existing is not None");
    if negb (bool_decide (er_content_hash existing = re_content_hash c))
       || negb (bool_decide (er_incident_id existing = re_incident_id c))
    then raise (EvidenceRefConflictError (str_uuid (re_evidence_id c)))
    else mret (answer false)
  else
    insert_outbox_event now "EvidenceRefRegistered" "Incident" (re_incident_id c)
      (Some (re_incident_id c))
      (PEvidenceRefRegistered
         {| erp_evidence_id := re_evidence_id c; erp_incident_id := re_incident_id c;
            erp_evidence_type := re_evidence_type c; erp_source_system := re_source_system c;
            erp_content_hash := re_content_hash c |}) ;;
    mret (answer true).

(** ** Views *)

(** The incident and its alerts, sorted by [(received_at, id)]. *)
Definition get_incident_view (incident_id : uuid) (d : db) : option (IncidentRow * list AlertRow) :=
  match get_incident_with_alerts incident_id d with
  | None => None
  | Some (incident, l) =>
      Some (incident, order_by a_received_at (order_by (fun a => Z.of_N (a_id a)) l))
  end.

(** [tuple(sorted({a.labels[key] for a in alerts if key in a.labels}))] *)
Definition _label_values (l : list AlertRow) (key : string) : list string :=
  sorted (remove_dups (omap (fun a => a_labels a !! key) l)).

Record IncidentSummary := {
  is_id : uuid;
  is_status : IncidentStatus;
  is_severity : AlertSeverity;
  is_service : string;
  is_environment : string;
  is_regions : list string;
  is_alert_types : list string;
  is_created_at : instant;
  is_closed_at : option instant;
}.

Definition summary_of (p : IncidentRow * list AlertRow) : IncidentSummary :=
  let '(i, l) := p in
  {| is_id := i_id i; is_status := i_status i; is_severity := i_severity i;
     is_service := i_service i; is_environment := i_environment i;
     is_regions := _label_values l "region"; is_alert_types := _label_values l "alertname";
     is_created_at := i_created_at i; is_closed_at := i_closed_at i |}.

Definition incident_summaries (environment : option string) (exclude : option uuid)
    (created_before : option instant) (limit : nat) (d : db) : list IncidentSummary :=
  map summary_of (list_incident_summaries environment exclude created_before limit d).
