(* ===== verification/EvidenceScope.v ===== *)
(** * The scope of an evidence query ([packages/evidence/scope.py], [limits.py])

    An incident decides what may be queried for it: the services around its own, a
    bounded window of time, bounded result sizes.  The service catalog, a file read at
    start-up, is data here.  Timestamps are aware instants. *)
From S2P Require Import Prelude PyFloat Json Enums VerificationDomain Catalog.
From S2P Require Import RemediationDomain Store RemediationService IncidentRepository AlertIdentity.
From S2P Require Import IncidentService.
Local Open Scope Z_scope.

(** ** Limits *)

Definition MAX_WINDOW : Z := seconds 10800.
Definition MIN_WINDOW : Z := seconds 60.
Definition DEFAULT_WINDOW : Z := seconds 1800.
Definition MAX_CHANGE_WINDOW : Z := seconds 172800.
Definition MAX_LOOKBACK_BEFORE_INCIDENT : Z := seconds 86400.
Definition MAX_LOG_LINES_RETURNED : Z := 20.
Definition MAX_TRACES : Z := 20.
Definition MAX_DEPLOYMENTS : Z := 20.
Definition MAX_CONFIG_CHANGES : Z := 20.
Definition MAX_COMMITS : Z := 20.
Definition MAX_SIMILAR_INCIDENTS : Z := 10.

(** ** Errors ([packages/evidence/errors.py]) *)

Definition InvalidQueryError (m : string) : exn := EvidenceError "invalid_argument" m false.
Definition ScopeViolationError (m : string) : exn := EvidenceError "scope_violation" m false.
Definition EvidenceIncidentNotFound (m : string) : exn := EvidenceError "incident_not_found" m false.
Definition EvidenceNotFoundError (m : string) : exn := EvidenceError "evidence_not_found" m false.

(** ** The service catalog *)

Record ServiceEntry := { se_dependencies : list string; se_repo_paths : list string }.
Record ServiceCatalog := { cat_services : gmap string ServiceEntry }.

(** The services that name [service] among their dependencies. *)
Definition dependents (c : ServiceCatalog) (service : string) : gset string :=
  dom (filter (fun p => service ∈ se_dependencies p.2) (cat_services c)).

Definition catalog_neighborhood (c : ServiceCatalog) (service : string) : gset string :=
  {[service]}
  ∪ match cat_services c !! service with
    | Some e => list_to_set (se_dependencies e)
    | None => ∅
    end
  ∪ dependents c service.

Definition repo_paths (c : ServiceCatalog) (service : string) : list string :=
  match cat_services c !! service with Some e => se_repo_paths e | None => [] end.

(** The catalog is the topology the remediation commands consult. *)
Definition catalog_topology (c : ServiceCatalog) : ServiceTopology :=
  {| services := dom (cat_services c); neighborhood := catalog_neighborhood c |}.

(** ** The scope *)

Record IncidentScope := {
  sc_incident_id : uuid;
  sc_service : string;
  sc_environment : string;
  sc_status : string;
  sc_created_at : instant;
  sc_allowed_services : gset string;
  sc_regions : list string;
  sc_alert_types : list string;
}.

Definition from_incident (view : IncidentRow * list AlertRow) (c : ServiceCatalog) : IncidentScope :=
  let '(i, l) := view in
  {| sc_incident_id := i_id i; sc_service := i_service i; sc_environment := i_environment i;
     sc_status := IncidentStatus_value (i_status i); sc_created_at := i_created_at i;
     sc_allowed_services := catalog_neighborhood c (i_service i);
     sc_regions := _label_values l "region"; sc_alert_types := _label_values l "alertname" |}.

Definition resolve_scope (c : ServiceCatalog) (incident_id : uuid) (d : db) : result IncidentScope :=
  match get_incident_view incident_id d with
  | None => Err (EvidenceIncidentNotFound ("incident " +++ str_uuid incident_id +++ " not found"))
  | Some view => Ok (from_incident view c)
  end.

(** [re.match] with [$]: a final newline is not looked at. *)
Fixpoint drop_final_newline (s : string) : string :=
  match s with
  | EmptyString => EmptyString
  | String c EmptyString => if bool_decide (Ascii.nat_of_ascii c = 10%nat) then EmptyString else s
  | String c s' => String c (drop_final_newline s')
  end.
Definition _LABEL_VALUE (s : string) : bool :=
  pat_matches _SERVICE s || pat_matches _SERVICE (drop_final_newline s).

Definition service_or_default (sc : IncidentScope) (service : option string) : result string :=
  let target := match service with
                | Some s => if nonempty s then s else sc_service sc
                | None => sc_service sc
                end in
  if negb (_LABEL_VALUE target) then
    Err (InvalidQueryError ("malformed service name " +++ repr_str target))
  else if negb (bool_decide (target ∈ sc_allowed_services sc)) then
    Err (ScopeViolationError ("service " +++ repr_str target +++ " is outside incident "
           +++ str_uuid (sc_incident_id sc) +++ "'s scope (allowed: "
           +++ py_repr (JArr (map JStr (sorted (elements (sc_allowed_services sc))))) +++ ")"))
  else Ok target.

Definition earliest (sc : IncidentScope) : instant :=
  sc_created_at sc - MAX_LOOKBACK_BEFORE_INCIDENT.

Definition window (sc : IncidentScope) (start end_ : option instant) (now : instant)
    (default_length max_length : Z) : result (instant * instant) :=
  let resolved_end := Z.min (default now end_) now in
  let resolved_start := default (Z.max (resolved_end - default_length) (earliest sc)) start in
  let length := resolved_end - resolved_start in
  if resolved_end <=? resolved_start then
    Err (InvalidQueryError "window start must be before its end (and not in the future)")
  else if max_length <? length then
    Err (InvalidQueryError ("window " +++ str_timedelta length +++ " exceeds the maximum "
           +++ str_timedelta max_length))
  else if length <? MIN_WINDOW then
    Err (InvalidQueryError ("window " +++ str_timedelta length +++ " is below the minimum "
           +++ str_timedelta MIN_WINDOW))
  else if resolved_start <? earliest sc then
    Err (ScopeViolationError ("window starts before " +++ isoformat (earliest sc) +++ " ("
           +++ str_timedelta MAX_LOOKBACK_BEFORE_INCIDENT +++ " before the incident opened)"))
  else Ok (resolved_start, resolved_end).

Definition bounded_limit (requested : option Z) (default_ maximum : Z) : result Z :=
  let value := default default_ requested in
  if value <? 1 then Err (InvalidQueryError "limit must be at least 1") else Ok (Z.min value maximum).

(** ** What passes *)

Lemma service_or_default_Ok sc service target :
  service_or_default sc service = Ok target ->
  target ∈ sc_allowed_services sc /\ _LABEL_VALUE target = true.
Proof.
  unfold service_or_default. intros H.
  destruct (negb (_LABEL_VALUE _)) eqn:E1; [done|]. apply negb_false_iff in E1.
  destruct (negb (bool_decide _)) eqn:E2; [done|].
  apply negb_false_iff, bool_decide_eq_true in E2. by simplify_eq.
Qed.

(** A window granted is what was asked for, inside the bounds. *)
Lemma window_Ok sc start end_ now dl ml a b :
  window sc start end_ now dl ml = Ok (a, b) ->
  earliest sc <= a /\ a + MIN_WINDOW <= b /\ b <= a + ml /\ b <= now
  /\ (forall s, start = Some s -> a = s) /\ (forall e, end_ = Some e -> b = Z.min e now).
Proof.
  unfold window. intros H. repeat case_match; simplify_eq;
    rewrite ?Z.leb_gt, ?Z.ltb_ge in *; split_and!; try lia; by intros ? ->.
Qed.

Lemma bounded_limit_Ok requested df m n :
  bounded_limit requested df m = Ok n -> n <= m /\ (1 <= m -> 1 <= n) /\
  forall r, requested = Some r -> n = Z.min r m.
Proof.
  unfold bounded_limit. intros H. case_match eqn:E; simplify_eq. apply Z.ltb_ge in E.
  split_and!; [lia|lia|]. by intros r ->.
Qed.
