(* ===== verification/EvidenceService.v ===== *)
(** * evidence-service ([packages/evidence/service.py], [repository.py], [models.py])

    Every query takes one path: the scope of its incident, the bounds of its parameters,
    an adapter, an immutable record with the hash of what came back, and the reference
    registered with incident-core.

    The adapters call telemetry backends; what they are asked is data ([AdapterQuery]) and
    how they answer is the interface [Adapters].  The records live in the schema of this
    service, a state of its own beside incident-core's.  The last part says what a query
    does to incident-core: it registers evidence and nothing else. *)
From S2P Require Import Prelude PyFloat Json Enums VerificationDomain Catalog.
From S2P Require Import RemediationDomain Store RemediationService IncidentRepository AlertIdentity.
From S2P Require Import IncidentService TxLogic Prog EvidenceScope.
Local Open Scope Z_scope.

(** ** Vocabularies ([packages/evidence/types.py]) *)

Inductive EvidenceType :=
| METRIC | LOG | TRACE | DEPLOYMENT | GIT_CHANGE | CONFIGURATION | INCIDENT_HISTORY.
#[export] Instance EvidenceType_eq_dec : EqDecision EvidenceType.
Proof. solve_decision. Defined.
Definition EvidenceType_value (t : EvidenceType) : string :=
  match t with
  | METRIC => "metric" | LOG => "log" | TRACE => "trace" | DEPLOYMENT => "deployment"
  | GIT_CHANGE => "git_change" | CONFIGURATION => "configuration"
  | INCIDENT_HISTORY => "incident_history"
  end.

Inductive SourceSystem :=
| SRC_PROMETHEUS | SRC_LOKI | SRC_TEMPO | SRC_DEPLOYMENT_REGISTRY | SRC_CONFIG_REGISTRY | SRC_GIT
| SRC_INCIDENT_CORE | SRC_RUNTIME_REGISTRY.
Definition SourceSystem_value (s : SourceSystem) : string :=
  match s with
  | SRC_PROMETHEUS => "prometheus" | SRC_LOKI => "loki" | SRC_TEMPO => "tempo"
  | SRC_DEPLOYMENT_REGISTRY => "deployment-registry" | SRC_CONFIG_REGISTRY => "config-registry"
  | SRC_GIT => "git" | SRC_INCIDENT_CORE => "incident-core"
  | SRC_RUNTIME_REGISTRY => "runtime-registry"
  end.

Definition EXPIRING_TYPES : list EvidenceType := [METRIC; LOG; TRACE].
Definition EVIDENCE_TTL_DAYS : Z := 30.

(** ** Data ([packages/evidence/models.py]) *)

Record Observation := {
  ob_evidence_type : EvidenceType;
  ob_source_system : SourceSystem;
  ob_operation : string;
  ob_subject_service : string;
  ob_query_spec : list (string * json);
  ob_source_reference : list (string * json);
  ob_raw_response : json;
  ob_raw_truncated : bool;
  ob_normalized_payload : list (string * json);
  ob_summary : string;
  ob_result_count : Z;
  ob_observed_at : instant;
  ob_window_start : option instant;
  ob_window_end : option instant;
}.

Record EvidenceRecord := {
  ev_evidence_id : uuid;
  ev_sequence : Z;
  ev_incident_id : uuid;
  ev_investigation_id : option uuid;
  ev_evidence_type : EvidenceType;
  ev_source_system : SourceSystem;
  ev_operation : string;
  ev_subject_service : string;
  ev_query_spec : json;
  ev_source_reference : json;
  ev_observed_at : instant;
  ev_window_start : option instant;
  ev_window_end : option instant;
  ev_collected_at : instant;
  ev_expires_at : option instant;
  ev_requested_by : string;
  ev_content_hash : string;
  ev_raw_response : json;
  ev_raw_truncated : bool;
  ev_normalized_payload : json;
  ev_summary : string;
  ev_result_count : Z;
}.
#[export] Instance EvidenceRecord_rebuild : Rebuild EvidenceRecord := fun r =>
  Build_EvidenceRecord (ev_evidence_id r) (ev_sequence r) (ev_incident_id r)
    (ev_investigation_id r) (ev_evidence_type r) (ev_source_system r) (ev_operation r)
    (ev_subject_service r) (ev_query_spec r) (ev_source_reference r) (ev_observed_at r)
    (ev_window_start r) (ev_window_end r) (ev_collected_at r) (ev_expires_at r)
    (ev_requested_by r) (ev_content_hash r) (ev_raw_response r) (ev_raw_truncated r)
    (ev_normalized_payload r) (ev_summary r) (ev_result_count r).

Record EvidenceItem := {
  it_evidence_id : uuid;
  it_incident_id : uuid;
  it_evidence_type : EvidenceType;
  it_source_system : SourceSystem;
  it_operation : string;
  it_subject_service : string;
  it_observed_at : instant;
  it_collected_at : instant;
  it_content_hash : string;
  it_summary : string;
  it_result_count : Z;
  it_data : json;
}.

Definition to_item (r : EvidenceRecord) : EvidenceItem :=
  {| it_evidence_id := ev_evidence_id r; it_incident_id := ev_incident_id r;
     it_evidence_type := ev_evidence_type r; it_source_system := ev_source_system r;
     it_operation := ev_operation r; it_subject_service := ev_subject_service r;
     it_observed_at := ev_observed_at r; it_collected_at := ev_collected_at r;
     it_content_hash := ev_content_hash r; it_summary := ev_summary r;
     it_result_count := ev_result_count r; it_data := ev_normalized_payload r |}.

(** ** Hashing and sanitizing ([hashing.py], [sanitize.py]) *)

Definition HASH_PREFIX : string := "sha256:".
Definition content_hash `{Hashing} (raw_response : json) : string :=
  HASH_PREFIX +++ sha256_hex (canonical_json raw_response).
Definition verify_content_hash `{Hashing} (raw_response : json) (expected : string) : bool :=
  bool_decide (content_hash raw_response = expected).

(** [value.replace("\x00", "")] *)
Fixpoint without_nul (s : string) : string :=
  match s with
  | EmptyString => EmptyString
  | String c s' =>
      if bool_decide (Ascii.nat_of_ascii c = 0%nat) then without_nul s' else String c (without_nul s')
  end.

(** A dictionary built key by key: a later value replaces an earlier one. *)
Definition set_key (k : string) (v : json) (l : list (string * json)) : list (string * json) :=
  if bool_decide (k ∈ l.*1)
  then map (fun kv => if bool_decide (kv.1 = k) then (k, v) else kv) l
  else l ++ [(k, v)].

Fixpoint strip_nul (j : json) : json :=
  match j with
  | JStr s => JStr (without_nul s)
  | JArr l => JArr (map strip_nul l)
  | JObj l =>
      JObj (foldl (fun acc kv => set_key (without_nul kv.1) kv.2 acc) []
              (map (fun kv => (kv.1, strip_nul kv.2)) l))
  | _ => j
  end.

(** [json.loads(canonical_json(value))]: the same document, its keys in order. *)
Fixpoint reloaded (j : json) : json :=
  match j with
  | JArr l => JArr (map reloaded l)
  | JObj l => JObj (sort_keys (map (fun kv => (kv.1, reloaded kv.2)) l))
  | _ => j
  end.

(** ** What may be asked *)

(** The public operations with their parameters. *)
Inductive EvidenceQuery :=
| get_metric_window (metric : string) (service : option string) (start end_ : option instant)
| get_service_health (service : option string) (at_ : option instant)
| get_logs (service : option string) (start end_ : option instant)
    (severities : option (list string)) (trace_id request_id : option string) (limit : option Z)
| get_trace (trace_id : string)
| get_traces (service : option string) (start end_ : option instant) (mode : string)
    (min_duration_ms limit : option Z)
| get_recent_deployments (service : option string) (start end_ : option instant) (limit : option Z)
| get_config_changes (service : option string) (start end_ : option instant) (limit : option Z)
| get_code_changes (service : option string) (start end_ : option instant) (sha : option string)
    (limit : option Z)
| get_recent_commits (service : option string) (limit : option Z)
| get_runtime_state (service : option string)
| search_similar_incidents (limit : option Z).

(** The calls the adapters get. *)
Inductive AdapterQuery :=
| metric_window (metric service environment : string) (start end_ : instant)
| service_health (service environment : string) (at_ : instant)
| query_logs (service : string) (start end_ : instant) (severities : option (list string))
    (trace_id request_id : option string) (limit : Z)
| trace_by_id (trace_id : string)
| search_traces (service : string) (start end_ : instant) (mode : string)
    (min_duration_ms : option Z) (limit : Z)
| deployments (service environment : string) (start end_ : instant) (limit : Z)
| config_changes (service environment : string) (start end_ : instant) (limit : Z)
| code_changes (service : string) (paths : list string) (start end_ : instant)
    (sha : option string) (limit : Z)
| recent_commits (service : string) (paths : list string) (until reference_time : instant) (limit : Z)
| runtime_state (service environment : string) (at_ : instant)
| search_similar (incident_id : uuid) (service environment : string)
    (regions alert_types : list string) (reference_time : instant) (limit : Z).

Definition SEARCH_MODES : list string := ["recent"; "errors"; "slow"].

(** [s.upper()] *)
Definition upper_char (c : Ascii.ascii) : Ascii.ascii :=
  if is_lower c then Ascii.ascii_of_nat (Ascii.nat_of_ascii c - 32) else c.
Fixpoint upper (s : string) : string :=
  match s with EmptyString => EmptyString | String c s' => String (upper_char c) (upper s') end.

(** [get_error_rate], [get_request_rate] and [get_latency] are metric windows. *)
Definition LATENCY_METRICS : list (string * string) :=
  [("0.5", "latency_p50"); ("0.95", "latency_p95"); ("0.99", "latency_p99")].
Definition get_error_rate := get_metric_window "error_rate".
Definition get_request_rate := get_metric_window "request_rate".
Definition get_latency (quantile : string) (service : option string) (start end_ : option instant)
    : result EvidenceQuery :=
  match assoc_get quantile LATENCY_METRICS with
  | Some metric => Ok (get_metric_window metric service start end_)
  | None => Err (InvalidQueryError ("quantile must be one of "
                   +++ py_repr (JArr (map JStr (sorted LATENCY_METRICS.*1)))))
  end.

Section Service.
Context (catalog : ServiceCatalog).

Definition _change_window (sc : IncidentScope) (start end_ : option instant) (now : instant)
    : result (instant * instant) :=
  window sc start end_ now MAX_CHANGE_WINDOW MAX_CHANGE_WINDOW.

(** The check before the path starts. *)
Definition precheck (q : EvidenceQuery) : result () :=
  match q with
  | get_traces _ _ _ mode _ _ =>
      if bool_decide (mode ∈ SEARCH_MODES) then Ok ()
      else Err (InvalidQueryError ("mode must be one of ('recent', 'errors', 'slow')"))
  | _ => Ok ()
  end.

(** The [collect] of each operation, up to the call of its adapter. *)
Definition collect_metric_window (sc : IncidentScope) (now : instant) (metric : string)
    (service : option string) (start end_ : option instant) : result AdapterQuery :=
  target <-! service_or_default sc service;
  w <-! window sc start end_ now DEFAULT_WINDOW MAX_WINDOW;
  Ok (metric_window metric target (sc_environment sc) w.1 w.2).

Definition collect_service_health (sc : IncidentScope) (now : instant) (service : option string)
    (at_ : option instant) : result AdapterQuery :=
  target <-! service_or_default sc service;
  w <-! window sc None at_ now MIN_WINDOW MAX_WINDOW;
  Ok (service_health target (sc_environment sc) w.2).

(** [tuple(s.upper() for s in severities) if severities else None] *)
Definition upper_severities (severities : option (list string)) : option (list string) :=
  match severities with Some (s :: l) => Some (map upper (s :: l)) | _ => None end.

Definition collect_logs (sc : IncidentScope) (now : instant) (service : option string)
    (start end_ : option instant) (severities : option (list string))
    (trace_id request_id : option string) (limit : option Z) : result AdapterQuery :=
  target <-! service_or_default sc service;
  w <-! window sc start end_ now DEFAULT_WINDOW MAX_WINDOW;
  n <-! bounded_limit limit MAX_LOG_LINES_RETURNED MAX_LOG_LINES_RETURNED;
  Ok (query_logs target w.1 w.2 (upper_severities severities) trace_id request_id n).

Definition collect_traces (sc : IncidentScope) (now : instant) (service : option string)
    (start end_ : option instant) (mode : string) (min_duration_ms limit : option Z)
    : result AdapterQuery :=
  target <-! service_or_default sc service;
  w <-! window sc start end_ now DEFAULT_WINDOW MAX_WINDOW;
  n <-! bounded_limit limit 10 MAX_TRACES;
  Ok (search_traces target w.1 w.2 mode min_duration_ms n).

Definition collect_deployments (sc : IncidentScope) (now : instant) (service : option string)
    (start end_ : option instant) (limit : option Z) : result AdapterQuery :=
  w <-! _change_window sc start end_ now;
  target <-! service_or_default sc service;
  n <-! bounded_limit limit 10 MAX_DEPLOYMENTS;
  Ok (deployments target (sc_environment sc) w.1 w.2 n).

Definition collect_config_changes (sc : IncidentScope) (now : instant) (service : option string)
    (start end_ : option instant) (limit : option Z) : result AdapterQuery :=
  w <-! _change_window sc start end_ now;
  target <-! service_or_default sc service;
  n <-! bounded_limit limit 10 MAX_CONFIG_CHANGES;
  Ok (config_changes target (sc_environment sc) w.1 w.2 n).

Definition collect_code_changes (sc : IncidentScope) (now : instant) (service : option string)
    (start end_ : option instant) (sha : option string) (limit : option Z) : result AdapterQuery :=
  target <-! service_or_default sc service;
  w <-! _change_window sc start end_ now;
  n <-! bounded_limit limit 10 MAX_COMMITS;
  Ok (code_changes target (repo_paths catalog target) w.1 w.2 sha n).

Definition collect_recent_commits (sc : IncidentScope) (now : instant) (service : option string)
    (limit : option Z) : result AdapterQuery :=
  target <-! service_or_default sc service;
  n <-! bounded_limit limit 10 MAX_COMMITS;
  Ok (recent_commits target (repo_paths catalog target) now (sc_created_at sc) n).

Definition collect_runtime_state (sc : IncidentScope) (now : instant) (service : option string)
    : result AdapterQuery :=
  target <-! service_or_default sc service;
  Ok (runtime_state target (sc_environment sc) now).

Definition collect_similar_incidents (sc : IncidentScope) (limit : option Z) : result AdapterQuery :=
  n <-! bounded_limit limit 5 MAX_SIMILAR_INCIDENTS;
  Ok (search_similar (sc_incident_id sc) (sc_service sc) (sc_environment sc) (sc_regions sc)
        (sc_alert_types sc) (sc_created_at sc) n).

Definition plan (sc : IncidentScope) (now : instant) (q : EvidenceQuery) : result AdapterQuery :=
  match q with
  | get_metric_window metric service start end_ =>
      collect_metric_window sc now metric service start end_
  | get_service_health service at_ => collect_service_health sc now service at_
  | get_logs service start end_ severities trace_id request_id limit =>
      collect_logs sc now service start end_ severities trace_id request_id limit
  | get_trace trace_id => Ok (trace_by_id trace_id)
  | get_traces service start end_ mode min_duration_ms limit =>
      collect_traces sc now service start end_ mode min_duration_ms limit
  | get_recent_deployments service start end_ limit =>
      collect_deployments sc now service start end_ limit
  | get_config_changes service start end_ limit =>
      collect_config_changes sc now service start end_ limit
  | get_code_changes service start end_ sha limit =>
      collect_code_changes sc now service start end_ sha limit
  | get_recent_commits service limit => collect_recent_commits sc now service limit
  | get_runtime_state service => collect_runtime_state sc now service
  | search_similar_incidents limit => collect_similar_incidents sc limit
  end.

(** A trace is in scope by the services in it: checked on what came back. *)
Definition services_in (payload : list (string * json)) : list json :=
  match assoc_get "services" payload with Some (JArr l) => l | _ => [] end.
Definition postcheck (sc : IncidentScope) (q : EvidenceQuery) (o : Observation) : result () :=
  match q with
  | get_trace trace_id =>
      let services := services_in (ob_normalized_payload o) in
      if truthy (jget "found" (JObj (ob_normalized_payload o)))
         && negb (existsb (fun s => match s with
                                    | JStr t => bool_decide (t ∈ sc_allowed_services sc)
                                    | _ => false
                                    end) services)
      then Err (ScopeViolationError ("trace " +++ trace_id +++ " involves only "
                  +++ py_repr (JArr (map JStr (sorted (remove_dups (omap as_str services)))))
                  +++ ", outside incident scope"))
      else Ok ()
  | _ => Ok ()
  end.

End Service.

(** ** The path *)

(** How the adapters answer: with an observation, or by raising.  They write nothing of
    incident-core. *)
Class Adapters := {
  ad_world : Type;
  ad_clock : ad_world -> instant * ad_world;
  ask : AdapterQuery -> Prog (ad_world * db) Observation;
  ask_reads : forall q w d, (ask q (w, d)).2.2 = d;
}.

(** The [evidence] schema and the adapters. *)
Record EvidenceWorld `{Adapters} := {
  ew_records : gmap uuid EvidenceRecord;
  ew_next_sequence : Z;
  ew_adapters : ad_world;
}.
#[export] Instance EvidenceWorld_rebuild `{Adapters} : Rebuild EvidenceWorld := fun r =>
  Build_EvidenceWorld _ (ew_records r) (ew_next_sequence r) (ew_adapters r).

Section Path.
Context {HA : Hashing} {AD : Adapters} (catalog : ServiceCatalog).

Abbreviation Ev := (Prog (EvidenceWorld * db)).

Definition ev_clock : Ev instant := fun s =>
  let '(now, a) := ad_clock (ew_adapters s.1) in (Ok now, (s.1 <| ew_adapters := a |>, s.2)).
Definition ask_adapter (q : AdapterQuery) : Ev Observation := fun s =>
  let '(r, (a, d)) := ask q (ew_adapters s.1, s.2) in (r, (s.1 <| ew_adapters := a |>, d)).

(** [repository.insert_record]: the database assigns the sequence. *)
Definition insert_record (r : EvidenceRecord) : Ev EvidenceRecord := fun s =>
  let stored := r <| ev_sequence := ew_next_sequence s.1 |> in
  if bool_decide (is_Some (ew_records s.1 !! ev_evidence_id r))
  then (Err (IntegrityError "evidence_records_pkey"), s)
  else (Ok stored,
        (s.1 <| ew_records ::= <[ev_evidence_id r := stored]> |> <| ew_next_sequence ::= Z.succ |>, s.2)).

Definition new_record (sc : IncidentScope) (o : Observation) (requested_by : string)
    (investigation_id : option uuid) (id : uuid) (collected_at : instant) : EvidenceRecord :=
  let raw := reloaded (strip_nul (ob_raw_response o)) in
  {| ev_evidence_id := id; ev_sequence := 0; ev_incident_id := sc_incident_id sc;
     ev_investigation_id := investigation_id; ev_evidence_type := ob_evidence_type o;
     ev_source_system := ob_source_system o; ev_operation := ob_operation o;
     ev_subject_service := ob_subject_service o;
     ev_query_spec := reloaded (JObj (ob_query_spec o));
     ev_source_reference := reloaded (JObj (ob_source_reference o));
     ev_observed_at := ob_observed_at o; ev_window_start := ob_window_start o;
     ev_window_end := ob_window_end o; ev_collected_at := collected_at;
     ev_expires_at := if bool_decide (ob_evidence_type o ∈ EXPIRING_TYPES)
                      then Some (collected_at + seconds (86400 * EVIDENCE_TTL_DAYS)) else None;
     ev_requested_by := requested_by; ev_content_hash := content_hash raw; ev_raw_response := raw;
     ev_raw_truncated := ob_raw_truncated o;
     ev_normalized_payload := reloaded (strip_nul (JObj (ob_normalized_payload o)));
     ev_summary := ob_summary o; ev_result_count := ob_result_count o |}.

Definition _persist (sc : IncidentScope) (o : Observation) (requested_by : string)
    (investigation_id : option uuid) : Ev EvidenceRecord :=
  collected_at ← ev_clock;
  id ← on_right (transact uuid4);
  insert_record (new_record sc o requested_by investigation_id id collected_at).

Definition _register (now : instant) (r : EvidenceRecord) : Ev () :=
  _ ← on_right (transact (register_evidence_ref now
        {| re_evidence_id := ev_evidence_id r; re_incident_id := ev_incident_id r;
           re_investigation_id := ev_investigation_id r;
           re_evidence_type := EvidenceType_value (ev_evidence_type r);
           re_content_hash := ev_content_hash r;
           re_source_system := SourceSystem_value (ev_source_system r);
           re_collected_at := ev_collected_at r |}));
  mret ().

Definition reading {A} (f : db -> result A) : Ev A := fun s => (f s.2, s).

Definition _run (incident_id : uuid) (requested_by : string) (investigation_id : option uuid)
    (q : EvidenceQuery) : Ev EvidenceItem :=
  _ ← pure (precheck q);
  sc ← reading (resolve_scope catalog incident_id);
  now ← ev_clock;
  a ← pure (plan catalog sc now q);
  o ← ask_adapter a;
  _ ← pure (postcheck sc q o);
  record ← _persist sc o requested_by investigation_id;
  registered_at ← ev_clock;
  _ ← _register registered_at record;
  mret (to_item record).

(** ** Reads *)

(** [ORDER BY collected_at, sequence] *)
Definition get_incident_evidence (incident_id : uuid) : Ev (list EvidenceRecord) := fun s =>
  (Ok (order_by ev_collected_at (order_by ev_sequence
         (List.filter (fun r => bool_decide (ev_incident_id r = incident_id)) (rows (ew_records s.1))))),
   s).

Definition get_evidence (evidence_id : uuid) : Ev EvidenceRecord := fun s =>
  (match ew_records s.1 !! evidence_id with
   | Some r => Ok r
   | None => Err (EvidenceNotFoundError ("evidence " +++ str_uuid evidence_id +++ " not found"))
   end, s).

Record IntegrityReport := {
  content_hash_matches : bool;
  ref_registered : bool;
  ref_matches : bool;
}.
Definition integrity_ok (r : IntegrityReport) : bool :=
  content_hash_matches r && ref_registered r && ref_matches r.

Definition verify (evidence_id : uuid) : Ev IntegrityReport :=
  record ← get_evidence evidence_id;
  refs ← reading (fun d => Ok (list_evidence_refs (ev_incident_id record) d));
  let ref := List.find (fun r => bool_decide (er_id r = evidence_id)) refs in
  mret {| content_hash_matches := verify_content_hash (ev_raw_response record) (ev_content_hash record);
          ref_registered := bool_decide (is_Some ref);
          ref_matches := match ref with
                         | Some r => bool_decide (er_content_hash r = ev_content_hash record)
                                     && bool_decide (er_incident_id r = ev_incident_id record)
                         | None => false
                         end |}.
End Path.

(** ** What evidence-service does to incident-core

    An evidence query writes one thing of incident-core's: the reference of what it
    collected.  [registers] is that effect, and every path through the service has it. *)
(** A reference is registered by a command of incident-core, or an identifier is drawn. *)
Inductive registration (d : db) : db -> Prop :=
| rg_reference now c : registration d (atomically (register_evidence_ref now c) d).2
| rg_identifier : registration d (atomically uuid4 d).2.
Definition registers : relation db := rtc registration.
#[export] Instance registers_preorder : PreOrder registers := _.

(** What that leaves alone: references are added, identifiers and events drawn. *)
Definition adds_refs (d d' : db) : Prop :=
  evidence_frame d d'
  /\ (forall k r, evidence_refs d !! k = Some r -> evidence_refs d' !! k = Some r).
#[export] Instance adds_refs_preorder : PreOrder adds_refs.
Proof.
  split.
  - intros d. split; [reflexivity|done].
  - intros d1 d2 d3 [H1 R1] [H2 R2]. split; [by transitivity d2|eauto].
Qed.
Lemma quiet_adds d d' : quiet d d' -> adds_refs d d'.
Proof.
  intros [H ?]. assert (evidence_refs d' = evidence_refs d) as E by (by rewrite H).
  split; [|by rewrite E]. split; [|done]. rewrite E. rewrite H at 1. by destruct d.
Qed.
Lemma insert_ref_adds r : relates adds_refs (insert_evidence_ref r).
Proof.
  unfold insert_evidence_ref. intros d a d' Hr. tx_inv. case_match eqn:E; tx_inv; [reflexivity|].
  split; [split; [by destruct d|simpl; lia]|]. simpl. intros k q Hk.
  rewrite lookup_insert_ne; [done|]. intros <-. congruence.
Qed.
#[local] Hint Resolve insert_ref_adds : relates.
Lemma register_adds now c : relates adds_refs (register_evidence_ref now c).
Proof.
  assert (forall et at_ ai ci p, relates adds_refs (insert_outbox_event now et at_ ai ci p)) as Ho
    by (intros et at_ ai ci p d a d' Hr; apply quiet_adds; by eapply quiet_run; [apply quiet_outbox|]).
  unfold register_evidence_ref. relates_auto.
Qed.

Lemma registers_adds d d' : registers d d' -> adds_refs d d'.
Proof.
  induction 1 as [d|d d1 d' H _ IH]; [reflexivity|]. transitivity d1; [|exact IH].
  destruct H as [now c|]; apply atomically_relates; try tc_solve; [apply register_adds|].
  intros d0 a d1 Hr. apply quiet_adds. by eapply quiet_run; [apply quiet_uuid4|].
Qed.

Lemma uuid4_registers : relates registers uuid4.
Proof.
  intros d a d' H. pose proof (rg_identifier d) as Hr. unfold atomically in Hr. rewrite H in Hr. by apply rtc_once.
Qed.
Lemma register_registers now c : relates registers (register_evidence_ref now c).
Proof.
  intros d a d' H. pose proof (rg_reference d now c) as Hr. unfold atomically in Hr. rewrite H in Hr.
  by apply rtc_once.
Qed.
#[export] Hint Resolve uuid4_registers : relates.
#[export] Hint Resolve register_registers : relates.

(** ** Programs beside incident-core *)

(** The database, whatever runs beside it. *)
Definition beside {S T} (R : relation T) : relation (S * T) := fun s s' => R s.2 s'.2.
#[export] Instance beside_preorder {S T} (R : relation T) `{!PreOrder R} : PreOrder (@beside S T R).
Proof. split; [intros s; unfold beside; reflexivity|]. intros s1 s2 s3. unfold beside. apply transitivity. Qed.

Lemma respects_transact {S A} (m : Tx A) :
  relates registers m -> respects (beside (S := S) registers) (on_right (transact m)).
Proof.
  intros H s. unfold on_right, transact, beside.
  pose proof (atomically_relates registers m s.2 H) as Hr. by destruct (atomically m s.2).
Qed.

Section Paths.
Context {HA : Hashing} {AD : Adapters} (catalog : ServiceCatalog).

Lemma ev_clock_same (s : EvidenceWorld * db) : (ev_clock s).2.2 = s.2.
Proof. unfold ev_clock. by destruct (ad_clock _). Qed.
Lemma ask_adapter_same q (s : EvidenceWorld * db) : (ask_adapter q s).2.2 = s.2.
Proof.
  unfold ask_adapter. pose proof (ask_reads q (ew_adapters s.1) s.2) as H.
  by destruct (ask q _) as [r [a d]].
Qed.
Lemma insert_record_same r (s : EvidenceWorld * db) : (insert_record r s).2.2 = s.2.
Proof. unfold insert_record. by case_bool_decide. Qed.

Lemma respects_same {A} (m : Prog (EvidenceWorld * db) A) :
  (forall s, (m s).2.2 = s.2) -> respects (beside registers) m.
Proof. intros H s. unfold beside. by rewrite H. Qed.

Lemma persist_registers sc o who inv :
  respects (beside registers) (_persist sc o who inv).
Proof.
  unfold _persist. apply respects_bind; [tc_solve|apply respects_same, ev_clock_same|]. intros at_.
  apply respects_bind; [tc_solve|apply respects_transact, uuid4_registers|]. intros id.
  apply respects_same, insert_record_same.
Qed.
Lemma register_ref_registers now r : respects (beside registers) (_register now r).
Proof.
  unfold _register. apply respects_bind; [tc_solve|apply respects_transact, register_registers|].
  intros _. apply respects_ret. tc_solve.
Qed.

(** Whatever a query comes to, incident-core's tables only gain references. *)
Lemma run_registers i who inv q : respects (beside registers) (_run catalog i who inv q).
Proof.
  unfold _run.
  apply respects_bind; [tc_solve|apply respects_pure; tc_solve|intros _].
  apply respects_bind; [tc_solve|by apply respects_same|intros sc].
  apply respects_bind; [tc_solve|apply respects_same, ev_clock_same|intros now].
  apply respects_bind; [tc_solve|apply respects_pure; tc_solve|intros a].
  apply respects_bind; [tc_solve|apply respects_same, ask_adapter_same|intros o].
  apply respects_bind; [tc_solve|apply respects_pure; tc_solve|intros _].
  apply respects_bind; [tc_solve|apply persist_registers|intros r].
  apply respects_bind; [tc_solve|apply respects_same, ev_clock_same|intros at_].
  apply respects_bind; [tc_solve|apply register_ref_registers|intros _].
  apply respects_ret; tc_solve.
Qed.
End Paths.
