(* ===== verification/RemediationProofs.v ===== *)
(** * The remediation commands refine the lifecycle

    Every transaction of [RemediationService] that commits takes one step of
    [RemediationLifecycle] (or none); the invariant therefore holds in every
    database the commands can produce, and the safety properties follow. *)
From S2P Require Import Prelude PyFloat Json Enums VerificationDomain Catalog.
From S2P Require Import RemediationDomain Policy Store TxLogic RemediationLifecycle.
From S2P Require Import RemediationService.
Local Open Scope Z_scope.

(** ** Effects on the core tables *)

Definition set_next (n : uuid) (c : core) : core :=
  {| c_next := n; c_rems := c_rems c; c_decs := c_decs c; c_apps := c_apps c;
     c_exes := c_exes c; c_vers := c_vers c |}.
Definition put_rem (r : RemediationRow) (c : core) : core := with_row c (c_next c) r.

(** The core of [d'] is [f] of the core of [d], up to identifiers drawn. *)
Definition effect (f : core -> core) (d d' : db) : Prop :=
  core_of d' = set_next (uuid_supply d') (f (core_of d))
  /\ (uuid_supply d <= uuid_supply d')%N.

Definition idle : relation db := effect id.

#[export] Instance idle_preorder : PreOrder idle.
Proof.
  split.
  - intros d. split; [by destruct d|lia].
  - intros d1 d2 d3 [H1 ?] [H2 ?]. split; [|lia]. rewrite H2. unfold id in *. by rewrite H1.
Qed.

Section Idle.
Context {PY : Pydantic} {HA : Hashing} {TO : ServiceTopology} {DI : Digests}.

Lemma idle_writes f :
  (forall d, core_of (f d) = core_of d) -> relates idle (writes f).
Proof.
  intros Hf. apply relates_writes. intros d. pose proof (Hf d) as E. split.
  - rewrite E. unfold set_next, id. by injection E as -> _ _ _ _ _.
  - injection E as -> _ _ _ _ _. lia.
Qed.

Lemma idle_uuid4 : relates idle uuid4.
Proof. intros d a d' [-> ->]%uuid4_Ok. split; [done|simpl; lia]. Qed.
Lemma idle_put_incident r : relates idle (put_incident r).
Proof. by apply idle_writes. Qed.
End Idle.
#[export] Hint Resolve idle_uuid4 idle_put_incident idle_writes : relates.
#[export] Hint Extern 1 (forall d, core_of _ = core_of d) => intros; reflexivity : relates.

Lemma idle_outbox now et at_ ai ci p : relates idle (insert_outbox_event now et at_ ai ci p).
Proof. unfold insert_outbox_event. relates_auto. Qed.
#[export] Hint Resolve idle_outbox : relates.

Lemma idle_transition_with_event now i to c r e :
  relates idle (transition_with_event now i to c r e).
Proof.
  unfold transition_with_event, transition_incident_status, status_changed_event. relates_auto.
Qed.
#[export] Hint Resolve idle_transition_with_event : relates.

Section IdleService.
Context {PY : Pydantic} {HA : Hashing} {TO : ServiceTopology} {DI : Digests}.
Lemma idle_timeline now row e f t a j v : relates idle (_timeline now row e f t a j v).
Proof. unfold _timeline. relates_auto. Qed.
Lemma idle_event now row e a o : relates idle (_event now row e a o).
Proof. unfold _event. relates_auto. Qed.
Lemma idle_move_incident now i fs t r : relates idle (_move_incident now i fs t r).
Proof. unfold _move_incident. relates_auto. Qed.
Lemma idle_view row : relates idle (_view row).
Proof. unfold _view. relates_auto. Qed.
Lemma idle_lock i : relates idle (_lock i).
Proof. unfold _lock. relates_auto. Qed.
Lemma idle_lock_incident i : relates idle (_lock_incident i).
Proof. unfold _lock_incident. relates_auto. Qed.
Lemma idle_ticket row x m : relates idle (_ticket row x m).
Proof. unfold _ticket, _view. relates_auto. Qed.
Lemma idle_context now i p t : relates idle (_context now i p t).
Proof. unfold _context. relates_auto. Qed.
End IdleService.
#[export] Hint Resolve idle_timeline idle_event idle_move_incident idle_view idle_lock
  idle_lock_incident idle_ticket idle_context : relates.

(** ** Runs of the helpers *)

Lemma effect_trans f g d d1 d2 :
  effect f d d1 -> effect g d1 d2 ->
  (forall n c, g (set_next n c) = set_next (c_next (g (set_next n c))) (g c)) ->
  effect (g ∘ f) d d2.
Proof.
  intros [H1 ?] [H2 ?] Hg. split; [|lia]. rewrite H2, H1, Hg. done.
Qed.

Lemma idle_run {A} (m : Tx A) d a d' : relates idle m -> m d = Ok (a, d') -> idle d d'.
Proof. intros Hm Hr. by eapply Hm. Qed.

Lemma idle_core d d' : idle d d' -> core_of d' = set_next (uuid_supply d') (core_of d).
Proof. by intros [? _]. Qed.

Definition transitioned (now : instant) (row : RemediationRow) (to : RemediationStatus)
    : RemediationRow :=
  row <| rm_status := to |> <| rm_version ::= Z.succ |> <| rm_updated_at := now |>.

(** Turns each run of an idle helper into [idle]. *)
Ltac idle_runs :=
  repeat match goal with
  | Hr : ?m ?d = Ok (_, ?d') |- _ =>
      let Hi := fresh "Hidle" in
      assert (idle d d') as Hi by (eapply (idle_run m); [solve [auto 2 with relates]|exact Hr]);
      clear Hr
  end.

Section Runs.
Context {PY : Pydantic} {HA : Hashing} {TO : ServiceTopology} {DI : Digests}.
Context (cfg : ServiceConfig).

Lemma lock_run i d row d' :
  _lock i d = Ok (row, d') -> remediations d !! i = Some row /\ d' = d.
Proof. unfold _lock. intros Hr. by tx_inv. Qed.

Lemma lock_incident_run i d row d' :
  _lock_incident i d = Ok (row, d') -> incidents d !! i = Some row /\ d' = d.
Proof. unfold _lock_incident. intros Hr. by tx_inv. Qed.

Lemma view_run row d v d' : _view row d = Ok (v, d') -> d' = d.
Proof. unfold _view. intros Hr. by tx_inv. Qed.

Lemma transition_run now row to e a j v d row' d' :
  _transition now row to e a j v d = Ok (row', d') ->
  can_transition (rm_status row) to = true /\ row' = transitioned now row to
  /\ effect (put_rem row') d d'.
Proof.
  unfold _transition, put_remediation. intros Hr.
  destruct (can_transition (rm_status row) to) eqn:E; [|by tx_inv].
  tx_inv. idle_runs. split_and!; [done|done|]. destruct Hidle as [Hc ?].
  split; [by rewrite Hc|simpl in *; lia].
Qed.

(** The two ways a remediation ends early. *)
Definition ended (row row' : RemediationRow) (to : RemediationStatus) : Prop :=
  kept row row' /\ can_transition (rm_status row) to = true /\ rm_status row' = to
  /\ rm_execution_attempts row' = rm_execution_attempts row
  /\ rm_verification_ref row' = rm_verification_ref row.

Lemma put_rem_idle row d d1 d' :
  effect (put_rem row) d d1 -> idle d1 d' -> effect (put_rem row) d d'.
Proof. intros [H1 ?] [H2 ?]. split; [|lia]. rewrite H2, H1. done. Qed.

End Runs.

(** Replaces each run of a helper by what it does. *)
Ltac transition_runs :=
  repeat match goal with
  | Hr : _transition _ _ _ _ _ _ _ _ = Ok _ |- _ =>
      let Hc := fresh "Hcan" in let He := fresh "Heff" in
      apply transition_run in Hr as (Hc & -> & He)
  end.
Ltac read_runs :=
  repeat match goal with
  | Hr : _lock _ _ = Ok _ |- _ =>
      let Hl := fresh "Hlock" in apply lock_run in Hr as [Hl ->]
  | Hr : _lock_incident _ _ = Ok _ |- _ =>
      let Hl := fresh "Hinc" in apply lock_incident_run in Hr as [Hl ->]
  | Hr : _view _ _ = Ok _ |- _ => apply view_run in Hr as ->
  end.

Section Ends.
Context {PY : Pydantic} {HA : Hashing} {TO : ServiceTopology} {DI : Digests}.
Context (policy : Policy.Policy).

Lemma finish_cancelled_run now row incident e a r to et dec d row' d' :
  _finish_cancelled now row incident e a r to et dec d = Ok (row', d') ->
  ended row row' R_CANCELLED /\ effect (put_rem row') d d'.
Proof.
  unfold _finish_cancelled. intros Hr. tx_inv. transition_runs. idle_runs.
  split; [done|]. eapply put_rem_idle; [exact Heff|]. by etransitivity.
Qed.

Lemma finish_failed_run now row incident code text a d row' d' :
  _finish_failed now row incident code text a d = Ok (row', d') ->
  ended row row' R_FAILED /\ effect (put_rem row') d d'.
Proof.
  unfold _finish_failed. intros Hr. tx_inv. transition_runs. idle_runs.
  split; [done|]. eapply put_rem_idle; [exact Heff|]. by etransitivity.
Qed.

(** A remediation that ends early takes [rs_stop]. *)
Lemma ended_rstep d d' row row1 row' to :
  remediations d !! rm_id row = Some row -> kept row row1 ->
  rm_status row1 = rm_status row -> rm_execution_attempts row1 = rm_execution_attempts row ->
  rm_verification_ref row1 = rm_verification_ref row ->
  ended row1 row' to -> to = R_CANCELLED \/ to = R_FAILED -> effect (put_rem row') d d' ->
  rstep policy (core_of d) (core_of d').
Proof.
  intros Hl Hk Hs Ha Hv (Hk' & Hc & Hs' & Ha' & Hv') Hto [-> Hn].
  apply (rs_stop _ (core_of d) (uuid_supply d') row row'); try done; try congruence.
  destruct Hk, Hk'. by split; etrans.
Qed.

Lemma Inv_key d i r : Inv policy (core_of d) -> remediations d !! i = Some r -> rm_id r = i.
Proof. intros HI Hl. by apply (inv_rems _ _ HI). Qed.

Lemma cancel_refines now i actor reason d v d' :
  Inv policy (core_of d) -> cancel now i actor reason d = Ok (v, d') ->
  rstep policy (core_of d) (core_of d').
Proof.
  unfold cancel. intros HI Hr. tx_inv. read_runs.
  case_bool_decide; [|by tx_inv]. tx_inv. read_runs.
  match goal with H : _finish_cancelled _ _ _ _ _ _ _ _ _ _ = Ok _ |- _ =>
    apply finish_cancelled_run in H as [Hend Heff] end.
  pose proof (Inv_key _ _ _ HI Hlock) as <-.
  eapply ended_rstep; eauto. done.
Qed.
End Ends.

(** ** Queries over a table *)

Lemma elem_of_rows {A} (m : gmap uuid A) x : x ∈ rows m <-> exists k, m !! k = Some x.
Proof.
  unfold rows. rewrite list_elem_of_fmap. split.
  - intros ([k y] & -> & Hk%elem_of_map_to_list). eauto.
  - intros [k Hk]. exists (k, x). by rewrite elem_of_map_to_list.
Qed.

Lemma elem_of_order_by {A} (key : A -> Z) l a : a ∈ order_by key l <-> a ∈ l.
Proof.
  assert (forall b l, a ∈ insert_by key b l <-> a = b \/ a ∈ l) as Hins.
  { intros b m. induction m as [|x m IH]; simpl; [set_solver|]. case_match; set_solver. }
  induction l as [|b l IH]; [done|]. change (order_by key (b :: l)) with (insert_by key b (order_by key l)).
  rewrite Hins, IH. set_solver.
Qed.

Lemma find_rows_Some {A} (p : A -> bool) (m : gmap uuid A) x :
  List.find p (rows m) = Some x -> (exists k, m !! k = Some x) /\ p x = true.
Proof.
  intros [Hin Hp]%List.find_some. by rewrite <-list_elem_of_In, elem_of_rows in Hin.
Qed.

Lemma find_rows_None {A} (p : A -> bool) (m : gmap uuid A) k x :
  List.find p (rows m) = None -> m !! k = Some x -> p x = false.
Proof.
  intros Hf Hk. eapply List.find_none; [exact Hf|].
  apply list_elem_of_In, elem_of_rows. eauto.
Qed.

Lemma existsb_rows_false {A} (p : A -> bool) (m : gmap uuid A) k x :
  existsb p (rows m) = false -> m !! k = Some x -> p x = false.
Proof.
  intros He Hk. destruct (p x) eqn:E; [|done]. rewrite <-He. symmetry.
  apply existsb_exists. exists x. split; [|done]. apply list_elem_of_In, elem_of_rows. eauto.
Qed.

Lemma find_about_None {A} (f : A -> uuid) (m : gmap uuid A) i :
  List.find (fun x => bool_decide (f x = i)) (rows m) = None <-> about f i m = ∅.
Proof.
  split.
  - intros Hf. apply about_empty. intros k x Hk. pose proof (find_rows_None _ _ _ _ Hf Hk) as Hb.
    by apply bool_decide_eq_false in Hb.
  - intros Hm. destruct (List.find _ _) as [x|] eqn:E; [|done].
    apply find_rows_Some in E as [[k Hk] Hb%bool_decide_eq_true].
    assert (about f i m !! k = Some x) as Ha by by apply about_Some.
    by rewrite Hm, lookup_empty in Ha.
Qed.

Lemma find_about_singleton {A} (f : A -> uuid) (m : gmap uuid A) i k x :
  about f i m = {[k := x]} -> List.find (fun x => bool_decide (f x = i)) (rows m) = Some x.
Proof.
  intros Hm. destruct (List.find _ _) as [y|] eqn:E.
  - apply find_rows_Some in E as [[k' Hk] Hb%bool_decide_eq_true].
    assert (about f i m !! k' = Some y) as Ha by by apply about_Some.
    rewrite Hm in Ha. by apply lookup_singleton_Some in Ha as [_ ->].
  - apply find_about_None in E. rewrite E in Hm.
    assert (({[k := x]} : gmap uuid A) !! k = Some x) as Hk by apply lookup_singleton_eq.
    by rewrite <-Hm, lookup_empty in Hk.
Qed.

Lemma approval_of_None d i : approval_of d i = None <-> apps_of (core_of d) i = ∅.
Proof. apply (find_about_None ap_remediation_id). Qed.

Lemma verification_for_None d i :
  verification_for i d = None <-> vers_of (core_of d) i = ∅.
Proof.
  unfold verification_for. rewrite (find_about_None v_remediation_id).
  unfold vers_of, core_of; cbn [c_vers]. split; intros Hm; apply about_empty; intros k x Hk ?.
  - apply lookup_fmap_Some in Hk as (v & <- & Hk).
    assert (about v_remediation_id i (verifications d) !! k = Some v) as Ha by by apply about_Some.
    by rewrite Hm, lookup_empty in Ha.
  - assert (about id i (v_remediation_id <$> verifications d) !! k = Some i) as Ha.
    { apply about_Some. rewrite lookup_fmap, Hk; simpl. split; [congruence|done]. }
    by rewrite Hm, lookup_empty in Ha.
Qed.

Definition put_dec (r : RemediationPolicyDecisionRow) (c : core) : core :=
  {| c_next := c_next c; c_rems := c_rems c; c_decs := <[dec_id r := r]> (c_decs c);
     c_apps := c_apps c; c_exes := c_exes c; c_vers := c_vers c |}.

(** ** Proposing *)

Section Propose.
Context {PY : Pydantic} {HA : Hashing} {TO : ServiceTopology} {DI : Digests}.
Context (cfg : ServiceConfig).
Notation policy := (cfg_policy cfg).

Lemma record_decision_run now row decision context d row' dec d' :
  _record_decision now row decision context d = Ok ((row', dec), d') ->
  row' = row <| rm_policy_decision_id := Some (dec_id dec) |>
  /\ dec_remediation_id dec = rm_id row /\ dec_proposal_hash dec = rm_proposal_hash row
  /\ dec_policy_context dec = context /\ dec_decision dec = pd_decision decision
  /\ dec_required_approver_roles dec = required_approver_roles decision
  /\ dec_rules dec = pd_rules decision
  /\ dec_id dec = uuid_supply d /\ (uuid_supply d < uuid_supply d')%N
  /\ effect (put_rem row' ∘ put_dec dec) d d'.
Proof.
  unfold _record_decision, put_remediation. intros Hr. tx_inv. idle_runs.
  match goal with
  | H1 : idle ?d0 ?d1, H2 : idle ?d1 ?d2 |- _ =>
      assert (idle d0 d2) as [Hc Hn] by (by transitivity d1); clear H1 H2
  end.
  simpl in Hn. repeat (split; [done|]). split; [lia|]. split; [by rewrite Hc|lia].
Qed.

(** What [_route] makes of the row, by the verdict. *)
Lemma route_run now row incident decision dec d row' d' :
  _route now row incident decision dec d = Ok (row', d') ->
  kept row row'
  /\ rm_status row' = (if bool_decide (pd_decision decision = DENY) then R_POLICY_REJECTED
                       else R_AWAITING_APPROVAL)
  /\ rm_execution_attempts row' = rm_execution_attempts row
  /\ rm_verification_ref row' = rm_verification_ref row
  /\ core_of d' = set_next (uuid_supply d') (put_rem row' (core_of d))
  /\ (uuid_supply d <= uuid_supply d')%N.
Proof.
  unfold _route, put_remediation. intros Hr.
  case_bool_decide; tx_inv; transition_runs; idle_runs;
    (split_and!; try done; destruct Heff as [Hc1 Hn1];
     match goal with
     | H1 : idle ?d0 ?d1, H2 : idle ?d1 ?d2 |- _ =>
         assert (idle d0 d2) as [Hc Hn] by (by transitivity d1); clear H1 H2
     end; simpl in Hn; [|lia]).
  all: rewrite Hc; unfold put_rem, with_row, set_next, core_of, id in *; cbn in *;
    injection Hc1 as -> -> -> -> ->; by rewrite insert_insert_eq.
Qed.

Lemma insert_remediation_run row d u d' :
  insert_remediation row d = Ok (u, d') ->
  (forall k r, remediations d !! k = Some r ->
     by_key (rm_incident_id row) (rm_idempotency_key row) r = false)
  /\ effect (put_rem row) d d'.
Proof.
  unfold insert_remediation, put_remediation. intros Hr. tx_inv.
  match goal with H : (if ?b then _ else _) _ = _ |- _ => destruct b end; [|by tx_inv].
  destruct (existsb _ _) eqn:E; [by tx_inv|]. tx_inv. split; [|split; [done|simpl; lia]].
  intros k r Hk. by eapply existsb_rows_false.
Qed.

Lemma new_row_facts now id incident p key corr tier :
  let row := new_row now id incident p key corr tier in
  rm_id row = id /\ hash_ok row /\ rm_action_id row = pr_action_id p
  /\ rm_parameters row = pr_parameters p /\ rm_source row = pr_source p
  /\ rm_proposed_by row = pr_proposed_by p /\ rm_execution_attempts row = 0
  /\ rm_verification_ref row = None.
Proof. done. Qed.

Lemma propose_refines now proposal key corr d v d' :
  propose cfg now proposal key corr d = Ok (v, d') ->
  rstep policy (core_of d) (core_of d').
Proof.
  unfold propose. intros Hr. tx_inv. read_runs.
  match goal with H : match ?o with _ => _ end _ = _ |- _ => destruct o eqn:Efind end.
  { read_runs. apply rs_idle. done. }
  tx_inv. read_runs.
  match goal with H : (let '(_, _) := ?p in _) _ = _ |- _ => destruct p as [row1 dec] end.
  tx_inv. read_runs.
  repeat match goal with
  | H : insert_remediation _ _ = Ok _ |- _ =>
      apply insert_remediation_run in H as [Hkey [Hc1 Hn1]]
  | H : _route _ _ _ _ _ _ = Ok _ |- _ =>
      apply route_run in H as (Hk & Hs & Ha & Hv & Hc3 & Hn3)
  | H : _record_decision _ _ _ _ _ = Ok _ |- _ =>
      apply record_decision_run in H as (-> & Hdr & Hdh & Hdc & Hdd & Hdq & Hdu & Hdi & Hlt & [Hc2 _])
  end.
  idle_runs.
  match goal with
  | H1 : idle ?d2 ?d3, H2 : idle ?d1 ?d2, H3 : idle ?d0 ?d1 |- _ =>
      assert (idle d0 d3) as [Hc Hn] by (transitivity d1; [done|by transitivity d2]); clear H1 H2 H3
  end.
  match type of Hc1 with context [new_row ?a ?b ?c ?e ?f ?g ?h] =>
    pose proof (new_row_facts a b c e f g h) as (Hf1 & Hf2 & Hf3 & Hf4 & Hf5 & Hf6 & Hf7 & Hf8);
    remember (new_row a b c e f g h) as row eqn:Erow; clear Erow end.
  simpl in Hn1. rename x0 into row2. pose proof (kept_eqs _ _ Hk) as Heqs. simpl in Heqs.
  match goal with |- rstep _ _ (core_of ?dd) =>
    replace (core_of dd) with
      {| c_next := uuid_supply dd; c_rems := <[rm_id row2 := row2]> (c_rems (core_of d));
         c_decs := <[dec_id dec := dec]> (c_decs (core_of d)); c_apps := c_apps (core_of d);
         c_exes := c_exes (core_of d); c_vers := c_vers (core_of d) |} end.
  - assert (rm_id row2 = uuid_supply d) as Hid by (destruct_and!; congruence).
    apply rs_propose; cbn [c_next c_rems core_of].
    + rewrite Hid. lia.
    + lia.
    + intros i r Hl [He1 He2]. specialize (Hkey i r Hl). unfold by_key in Hkey.
      rewrite !bool_decide_eq_true_2 in Hkey by (destruct_and!; congruence). done.
    + eapply kept_hash_ok; [exact Hk|]. exact Hf2.
    + eapply kept_decided; [exact Hk|]. split_and!; try done.
      exists proposal. cbv zeta. rewrite Hdc.
      change (rm_action_id (row <| _ := _ |>)) with (rm_action_id row). rewrite Hf3.
      by repeat split.
    + by rewrite Hs, Hdd.
    + rewrite Ha. exact Hf7.
    + rewrite Hv. exact Hf8.
  - rewrite Hc3, Hc2, Hc, Hc1. unfold set_next, put_rem, put_dec, with_row, id; simpl.
    replace (rm_id row2) with (rm_id row) by (symmetry; apply Heqs).
    by rewrite !insert_insert_eq.
Qed.
End Propose.

(** ** Approving *)

Definition put_app (a : RemediationApprovalRow) (c : core) : core :=
  {| c_next := c_next c; c_rems := c_rems c; c_decs := c_decs c;
     c_apps := <[ap_id a := a]> (c_apps c); c_exes := c_exes c; c_vers := c_vers c |}.

Section Approve.
Context {PY : Pydantic} {HA : Hashing} {TO : ServiceTopology} {DI : Digests}.
Context (cfg : ServiceConfig).
Notation policy := (cfg_policy cfg).

Lemma insert_approval_run a d u d' :
  insert_approval a d = Ok (u, d') ->
  apps_of (core_of d) (ap_remediation_id a) = ∅ /\ effect (put_app a) d d'.
Proof.
  unfold insert_approval. intros Hr. tx_inv.
  destruct (approval_of d (ap_remediation_id a)) eqn:E; tx_inv.
  split; [by apply approval_of_None|]. by split; [|simpl; lia].
Qed.

(** [rs_decide] from the runs of its two halves. *)
Lemma decide_rstep d d1 d2 row row' a :
  remediations d !! rm_id row = Some row -> kept row row' ->
  rm_status row = R_AWAITING_APPROVAL ->
  apps_of (core_of d) (rm_id row) = ∅ -> ap_remediation_id a = rm_id row ->
  ap_id a = uuid_supply d ->
  (ap_decision a = approved /\ rm_status row' = R_APPROVED
     /\ (exists dec, rm_policy_decision_id row = Some (dec_id dec)
                     /\ policy_decisions d !! dec_id dec = Some dec /\ entitled row dec a)
   \/ ap_decision a <> approved /\ rm_status row' = R_CANCELLED) ->
  rm_execution_attempts row' = rm_execution_attempts row ->
  rm_verification_ref row' = rm_verification_ref row ->
  effect (put_app a) (d <| uuid_supply ::= N.succ |>) d1 -> effect (put_rem row') d1 d2 ->
  rstep policy (core_of d) (core_of d2).
Proof.
  intros Hl Hk Hs Hnone Ha Hid Hcase Hat Hv [H1 Hn1] [H2 Hn2]. simpl in Hn1.
  replace (core_of d2) with
    {| c_next := uuid_supply d2; c_rems := <[rm_id row := row']> (c_rems (core_of d));
       c_decs := c_decs (core_of d); c_apps := <[ap_id a := a]> (c_apps (core_of d));
       c_exes := c_exes (core_of d); c_vers := c_vers (core_of d) |}.
  - apply rs_decide; try done. rewrite Hid. simpl. lia.
  - rewrite H2, H1. unfold put_rem, with_row. rewrite (kept_id _ _ Hk). done.
Qed.

Lemma expire_one_refines now i d v d' :
  Inv policy (core_of d) -> expire_one cfg now i d = Ok (v, d') ->
  rstep policy (core_of d) (core_of d').
Proof.
  unfold expire_one. intros HI Hr. tx_inv. read_runs.
  case_bool_decide as Hs; simpl in *; tx_inv; [|by apply rs_idle].
  read_runs. pose proof (Inv_key _ _ _ _ HI Hlock) as <-.
  match goal with H : insert_approval _ _ = Ok _ |- _ =>
    apply insert_approval_run in H as [Hnone Ha] end.
  match goal with H : _finish_cancelled _ _ _ _ _ _ _ _ _ _ = Ok _ |- _ =>
    apply finish_cancelled_run in H as [(Hk & _ & Hs' & Hat & Hv) Heff] end.
  eapply decide_rstep; try exact Ha; try exact Heff; try done. by right.
Qed.

Lemma decide_approval_refines now i approver roles approve hash pid comment d v d' :
  Inv policy (core_of d) ->
  decide_approval now i approver roles approve hash pid comment d = Ok (v, d') ->
  rstep policy (core_of d) (core_of d').
Proof.
  unfold decide_approval. intros HI Hr. tx_inv. read_runs.
  destruct (approval_of d i) as [e|] eqn:Eap.
  { destruct (same_decision _ _ _ _); tx_inv; read_runs. by apply rs_idle. }
  case_bool_decide as Hs; simpl in *; [|by tx_inv].
  case_bool_decide as Hh; simpl in *; [|by tx_inv].
  case_bool_decide as Hpid; simpl in *; [|by tx_inv]. tx_inv.
  pose proof (Inv_key _ _ _ _ HI Hlock) as <-.
  match goal with H : decision_of d _ = Some ?r |- _ =>
    rename r into dec; unfold decision_of in H; rewrite <-Hpid in H; simpl in H;
    pose proof (inv_decs _ _ HI _ _ H) as [<- _]; rename H into Hdec end.
  remember (List.filter _ roles) as eligible eqn:El.
  assert (forall r, head eligible = Some r -> r ∈ dec_required_approver_roles dec) as Hel.
  { intros r Hr'. destruct eligible as [|r0 l]; [done|]. simplify_eq/=.
    assert (In r (List.filter (fun r => bool_decide (r ∈ dec_required_approver_roles dec)) roles))
      as [_ Hb]%List.filter_In by (rewrite <-El; by left).
    by apply bool_decide_eq_true in Hb. }
  clear El.
  match goal with H : (if ?b then _ else _) _ = _ |- _ => destruct b eqn:Eb1 end; [by tx_inv|].
  match goal with H : (if ?b then _ else _) _ = _ |- _ => destruct b eqn:Eb2 end; [by tx_inv|].
  tx_inv. read_runs.
  match goal with H : insert_approval _ _ = Ok _ |- _ =>
    apply insert_approval_run in H as [Hnone Ha] end.
  destruct approve; tx_inv; read_runs.
  - transition_runs. idle_runs. simpl in Eb1, Eb2. apply bool_decide_eq_false in Eb1.
    match type of Heff with effect _ ?d1 _ =>
      match goal with |- rstep _ _ (core_of ?d2) =>
        match type of Heff with effect ?f _ _ =>
          assert (effect f d1 d2) as Hfin
            by (eapply put_rem_idle; [exact Heff|]; by etransitivity) end end end.
    eapply decide_rstep; try exact Ha; try exact Hfin; try done.
    left. split_and!; [done|done|]. exists dec. split_and!; [done|done|].
    split_and!; try done.
    + destruct eligible as [|r l]; [done|]. exists r. split; [done|]. by apply Hel.
    + intros [Hop Hself]. simpl in Hself. by rewrite !bool_decide_eq_true_2 in Eb2.
  - match goal with H : _finish_cancelled _ _ _ _ _ _ _ _ _ _ = Ok _ |- _ =>
      apply finish_cancelled_run in H as [(Hk & _ & Hs' & Hat & Hv) Heff] end.
    eapply decide_rstep; try exact Ha; try exact Heff; try done. by right.
Qed.
End Approve.

(** ** Executing *)

Definition put_exe (x : RemediationExecutionRow) (c : core) : core :=
  {| c_next := c_next c; c_rems := c_rems c; c_decs := c_decs c; c_apps := c_apps c;
     c_exes := <[ex_id x := x]> (c_exes c); c_vers := c_vers c |}.

Lemma latest_of_cons i y l :
  latest_of i (y :: l) =
    if bool_decide (ex_remediation_id y = i)
    then match latest_of i l with
         | Some b => if ex_attempt_number b <? ex_attempt_number y then Some y else Some b
         | None => Some y
         end
    else latest_of i l.
Proof. unfold latest_of at 1. simpl. unfold latest_of. by repeat case_match. Qed.

Lemma latest_of_None i l : latest_of i l = None -> forall x, x ∈ l -> ex_remediation_id x <> i.
Proof.
  induction l as [|y l IH]; [set_solver|]. rewrite latest_of_cons.
  case_bool_decide as E; [|intros Hl x [->|Hx]%elem_of_cons; auto].
  destruct (latest_of i l) as [b|]; [destruct (_ <? _)|]; done.
Qed.

Lemma latest_of_Some i l x :
  latest_of i l = Some x ->
  x ∈ l /\ ex_remediation_id x = i
  /\ forall y, y ∈ l -> ex_remediation_id y = i -> ex_attempt_number y <= ex_attempt_number x.
Proof.
  revert x. induction l as [|y l IH]; [done|]. intros x. rewrite latest_of_cons.
  case_bool_decide as E.
  - destruct (latest_of i l) as [b|] eqn:Eb.
    + destruct (IH b eq_refl) as (Hb & Hi & Hmax).
      destruct (Z.ltb_spec (ex_attempt_number b) (ex_attempt_number y)); intros ?; simplify_eq.
      * split_and!; [set_solver|done|]. intros z [->|Hz]%elem_of_cons ?; [lia|].
        specialize (Hmax z Hz). lia.
      * split_and!; [set_solver|done|]. intros z [->|Hz]%elem_of_cons ?; [lia|auto].
    + intros ?; simplify_eq. split_and!; [set_solver|done|].
      intros z [->|Hz]%elem_of_cons ?; [lia|]. by destruct (latest_of_None _ _ Eb z).
  - intros (Hx & Hi & Hmax)%IH. split_and!; [set_solver|done|].
    intros z [->|Hz]%elem_of_cons ?; [done|auto].
Qed.

Section Execute.
Context {PY : Pydantic} {HA : Hashing} {TO : ServiceTopology} {DI : Digests}.
Context (cfg : ServiceConfig).
Notation policy := (cfg_policy cfg).

Lemma latest_in_table d i x :
  Inv policy (core_of d) -> latest_of i (rows (executions d)) = Some x ->
  executions d !! ex_id x = Some x /\ ex_remediation_id x = i.
Proof.
  intros HI (Hx & Hi & _)%latest_of_Some. apply elem_of_rows in Hx as [k Hk].
  destruct (inv_exes _ _ HI k x Hk) as [<- _]. done.
Qed.

(** No attempt runs when the latest one does not. *)
Lemma not_running d row :
  Inv policy (core_of d) -> remediations d !! rm_id row = Some row ->
  running (latest_of (rm_id row) (rows (executions d))) = None ->
  forall k y, executions d !! k = Some y -> ex_remediation_id y = rm_id row ->
    ex_attempt_number y = rm_execution_attempts row -> ex_status y <> X_RUNNING.
Proof.
  intros HI Hl Hrun k y Hk Hi Hn Hs.
  destruct (inv_rows _ _ HI _ _ Hl) as (_ & _ & _ & (_ & _ & _ & Hb & Hu & _) & _).
  destruct (latest_of (rm_id row) (rows (executions d))) as [x|] eqn:Ex.
  - destruct (latest_in_table _ _ _ HI Ex) as [Hx Hxi].
    destruct (latest_of_Some _ _ _ Ex) as (_ & _ & Hmax).
    assert (y ∈ rows (executions d)) as Hy by (apply elem_of_rows; eauto).
    specialize (Hmax y Hy Hi).
    assert (exes_of (core_of d) (rm_id row) !! ex_id x = Some x) as Hax by by apply about_Some.
    assert (exes_of (core_of d) (rm_id row) !! k = Some y) as Hay by by apply about_Some.
    destruct (Hb _ _ Hax) as [? _].
    assert (k = ex_id x) as -> by (eapply (Hu k y); eauto; lia).
    assert (y = x) as -> by congruence. simpl in Hrun. by rewrite bool_decide_eq_true_2 in Hrun.
  - eapply (latest_of_None _ _ Ex y); [|done]. apply elem_of_rows. eauto.
Qed.

Lemma interrupt_refines now row x owner lease d v d' :
  remediations d !! rm_id row = Some row -> executions d !! ex_id x = Some x ->
  ex_remediation_id x = rm_id row -> ex_status x = X_RUNNING ->
  _interrupt now row x owner lease d = Ok (v, d') ->
  rstep policy (core_of d) (core_of d').
Proof.
  unfold _interrupt, put_execution, put_remediation. intros Hl Hx Hi Hs Hr. tx_inv. idle_runs.
  match goal with
  | H1 : idle ?d1 ?d2, H2 : idle ?d0 ?d1 |- _ =>
      assert (idle d0 d2) as [Hc Hn] by (by transitivity d1); clear H1 H2
  end. simpl in Hn. rewrite Hc.
  by eapply (rs_interrupt _ (core_of d) _ row _ x (x <| ex_status := X_UNKNOWN |>
      <| ex_error := Some ("worker " +++ ex_owner x +++ " lost its lease mid-execution") |>
      <| ex_completed_at := Some now |>)).
Qed.

Lemma start_refines now row e owner lease d v d' :
  Inv policy (core_of d) -> remediations d !! rm_id row = Some row ->
  rm_status row = R_APPROVED \/ rm_status row = R_EXECUTING ->
  running (latest_of (rm_id row) (rows (executions d))) = None ->
  get_entry (rm_action_id row) = Some e -> rm_execution_attempts row < max_attempts e ->
  _start_attempt now row e owner lease d = Ok (v, d') ->
  rstep policy (core_of d) (core_of d').
Proof.
  unfold _start_attempt, insert_execution, put_execution. intros HI Hl Hs Hrun He Hlt Hr. tx_inv.
  match goal with H : (if ?b then _ else _) _ = Ok _ |- _ => destruct b; [by tx_inv|] end.
  match goal with H : (if ?b then _ else _) _ = Ok _ |- _ => destruct b; [by tx_inv|] end.
  tx_inv. transition_runs. idle_runs.
  match goal with
  | H1 : idle ?d1 ?d2, H2 : idle ?d0 ?d1 |- _ =>
      assert (idle d0 d2) as Hi by (by transitivity d1); clear H1 H2
  end.
  pose proof (put_rem_idle _ _ _ _ Heff Hi) as [Hc Hn]. simpl in Hn. rewrite Hc.
  match goal with |- rstep _ _ (set_next ?n (put_rem ?r (core_of ?dd))) =>
    eapply (rs_start _ (core_of d) n row r _ e) end; try done; [simpl; lia|].
  by apply not_running.
Qed.

Lemma claim_refines now i owner lease d v d' :
  Inv policy (core_of d) -> claim_execution now i owner lease d = Ok (v, d') ->
  rstep policy (core_of d) (core_of d').
Proof.
  unfold claim_execution, _latest_execution. intros HI Hr. tx_inv. read_runs.
  pose proof (Inv_key _ _ _ _ HI Hlock) as <-.
  case_bool_decide as Hs; simpl in Hr; [|tx_inv; by apply rs_idle]. tx_inv.
  destruct (running _) as [y|] eqn:Erun.
  - destruct (lease_live _ _); [tx_inv; by apply rs_idle|].
    unfold running in Erun. destruct (latest_of _ _) as [z|] eqn:El; [|done].
    case_bool_decide; simplify_eq. destruct (latest_in_table _ _ _ HI El) as [? ?].
    by eapply interrupt_refines.
  - tx_inv. read_runs. destruct (_execution_blocker _ _ _) as [[code text]|] eqn:Eb.
    + tx_inv. case_bool_decide;
        match goal with
        | H : _finish_cancelled _ _ _ _ _ _ _ _ _ _ = Ok _ |- _ =>
            apply finish_cancelled_run in H as [Hend Heff]
        | H : _finish_failed _ _ _ _ _ _ _ = Ok _ |- _ =>
            apply finish_failed_run in H as [Hend Heff]
        end; eapply ended_rstep; eauto; done.
    + tx_inv. eapply start_refines; eauto.
      * revert Hs. rewrite !elem_of_cons, elem_of_nil. naive_solver.
      * match goal with H : get_entry _ = Some _ |- _ =>
          unfold _execution_blocker in Eb; rewrite H in Eb end.
        repeat case_match; try done. lia.
Qed.
End Execute.

(** ** Settling *)

Definition put_ver (v i : uuid) (c : core) : core :=
  {| c_next := c_next c; c_rems := c_rems c; c_decs := c_decs c; c_apps := c_apps c;
     c_exes := c_exes c; c_vers := <[v := i]> (c_vers c) |}.

Section Settle.
Context {PY : Pydantic} {HA : Hashing} {TO : ServiceTopology} {DI : Digests}.
Context (cfg : ServiceConfig).
Notation policy := (cfg_policy cfg).

Lemma idle_insert_evidence now v n role l :
  relates idle (insert_verification_evidence now v n role l).
Proof.
  induction l as [|e l IH]; simpl; relates_auto.
Qed.

Lemma insert_verification_run v d u d' :
  insert_verification v d = Ok (u, d') ->
  vers_of (core_of d) (v_remediation_id v) = ∅
  /\ effect (put_ver (v_id v) (v_remediation_id v)) d d'.
Proof.
  unfold insert_verification, put_verification. intros Hr. tx_inv.
  destruct (verification_for _ d) eqn:E; tx_inv.
  split; [by apply verification_for_None|]. split; [|simpl; lia].
  unfold core_of, set_next, put_ver; simpl. f_equal. apply fmap_insert.
Qed.

Lemma request_verification_run now row entry d row' d' :
  _request_verification cfg now row entry d = Ok (row', d') ->
  row' = row <| rm_verification_ref := Some (uuid_supply d) |>
  /\ vers_of (core_of d) (rm_id row) = ∅ /\ (uuid_supply d < uuid_supply d')%N
  /\ effect (put_ver (uuid_supply d) (rm_id row) ∘ put_rem row') d d'.
Proof.
  unfold _request_verification, put_remediation. intros Hr. tx_inv.
  match goal with H : insert_verification _ _ = Ok _ |- _ =>
    apply insert_verification_run in H as [Hnone [Hc1 Hn1]] end.
  match goal with H : match ?b with _ => _ end _ = Ok (_, ?d2) |- _ =>
    match type of Hc1 with core_of ?d1 = _ =>
      assert (idle d1 d2) as Hi by
        (destruct b; [by eapply idle_insert_evidence|by tx_inv]); clear H end end.
  idle_runs.
  assert (forall d1 d2 d3 d4 : db, idle d1 d2 -> idle d2 d3 -> idle d3 d4 -> idle d1 d4) as Htr
    by (intros ? ? ? ? ? ? ?; etrans; [|eassumption]; etrans; eassumption).
  match goal with
  | H1 : idle ?d1 ?d2, H2 : idle ?d2 ?d3, H3 : idle ?d3 ?d4 |- _ =>
      pose proof (Htr _ _ _ _ H1 H2 H3) as [Hc Hn]; clear H1 H2 H3
  end. simpl in *.
  split_and!; [done|exact Hnone|lia|]. split; [|lia]. by rewrite Hc, Hc1.
Qed.

Lemma settle_success_run now row incident x entry actor res d row' d' :
  _settle_success cfg now row incident x entry actor res d = Ok (row', d') ->
  exists v x', same_execution x x' /\ ex_status x' = X_SUCCEEDED
  /\ kept row row' /\ rm_status row' = R_EXECUTED
  /\ rm_execution_attempts row' = rm_execution_attempts row
  /\ rm_verification_ref row' = Some v /\ (uuid_supply d <= v < uuid_supply d')%N
  /\ vers_of (core_of d) (rm_id row) = ∅
  /\ effect (put_ver v (rm_id row) ∘ put_rem row' ∘ put_exe x') d d'.
Proof.
  unfold _settle_success, put_execution. intros Hr. tx_inv. transition_runs.
  match goal with H : _request_verification _ _ _ _ _ = Ok _ |- _ =>
    apply request_verification_run in H as (-> & Hnone & Hlt & [Hc2 _]) end.
  idle_runs. destruct Heff as [Hc1 Hn1].
  match type of Hc1 with core_of ?d1 = _ =>
    match goal with H1 : idle d1 ?d2 |- _ => destruct H1 as [Hc Hn] end end.
  match goal with H1 : idle ?d2 ?d3 |- _ => destruct H1 as [Hc3 Hn3] end. simpl in *.
  eexists _, (x <| ex_status := X_SUCCEEDED |>). split_and!; try done.
  - simpl. lia.
  - lia.
  - rewrite Hc, Hc1 in Hnone. exact Hnone.
  - unfold effect. split; [|lia]. rewrite Hc3, Hc2. unfold id, compose.
    rewrite Hc, Hc1. unfold put_rem, with_row, put_ver, put_exe, set_next, id; simpl.
    f_equal. by rewrite insert_insert_eq.
Qed.

Lemma settle_failure_run now row incident x entry actor outcome retryable d row' d' :
  rm_status row = R_EXECUTING ->
  _settle_failure now row incident x entry actor outcome retryable d = Ok (row', d') ->
  exists x', same_execution x x' /\ (ex_status x' = X_FAILED \/ ex_status x' = X_TIMED_OUT)
  /\ kept row row'
  /\ (rm_status row' = R_EXECUTING /\ can_retry entry retryable (rm_execution_attempts row) = true
      \/ rm_status row' = R_FAILED /\ can_retry entry retryable (rm_execution_attempts row) = false)
  /\ rm_execution_attempts row' = rm_execution_attempts row
  /\ rm_verification_ref row' = rm_verification_ref row
  /\ effect (put_rem row' ∘ put_exe x') d d'.
Proof.
  unfold _settle_failure, put_execution, put_remediation. intros Hs Hr. cbv zeta in Hr.
  remember (if bool_decide (outcome = "timed_out") then X_TIMED_OUT else X_FAILED) as st eqn:Est.
  assert (st = X_FAILED \/ st = X_TIMED_OUT) as Hst by (subst; case_bool_decide; auto). clear Est. tx_inv.
  exists (x <| ex_status := st |>). split; [done|].
  split; [exact Hst|].
  destruct (can_retry _ _ _) eqn:Er; tx_inv.
  - idle_runs. match goal with H1 : idle ?d2 ?d3 |- _ => destruct H1 as [Hc3 Hn3] end.
    split_and!; try done. by left.
  - match goal with H : _finish_failed _ _ _ _ _ _ _ = Ok _ |- _ =>
      apply finish_failed_run in H as [(Hk & _ & Hs' & Hat & Hv) [Hc Hn]] end.
    split_and!; try done. by right.
Qed.

Lemma settle_rstep d d' row row' x x' n0 f :
  remediations d !! rm_id row = Some row -> executions d !! ex_id x = Some x ->
  ex_remediation_id x = rm_id row -> rm_status row = R_EXECUTING ->
  ex_status x = X_RUNNING \/ ex_status x = X_UNKNOWN ->
  kept row row' -> same_execution x x' ->
  rm_execution_attempts row' = rm_execution_attempts row ->
  (rm_status row' = R_EXECUTED /\ ex_status x' = X_SUCCEEDED
     /\ rm_verification_ref row' = Some n0 /\ (uuid_supply d <= n0 < uuid_supply d')%N
     /\ vers_of (core_of d) (rm_id row) = ∅ /\ f = put_ver n0 (rm_id row)
   \/ (rm_status row' = R_EXECUTING \/ rm_status row' = R_FAILED)
      /\ (ex_status x' = X_FAILED \/ ex_status x' = X_TIMED_OUT)
      /\ rm_verification_ref row' = rm_verification_ref row /\ f = id) ->
  effect (f ∘ put_rem row' ∘ put_exe x') d d' ->
  rstep policy (core_of d) (core_of d').
Proof.
  intros Hl Hx Hxi Hs Hxs Hk Hsame Ha Hcase [Hc Hn].
  pose proof Hsame as (Hxid & _).
  assert (core_of d' = {| c_next := uuid_supply d';
      c_rems := <[rm_id row := row']> (c_rems (core_of d)); c_decs := c_decs (core_of d);
      c_apps := c_apps (core_of d); c_exes := <[ex_id x := x']> (c_exes (core_of d));
      c_vers := c_vers (f (core_of d)) |}) as E.
  { rewrite Hc. unfold compose, put_rem, with_row. rewrite (kept_id _ _ Hk).
    unfold put_exe. rewrite Hxid.
    destruct Hcase as [(_ & _ & _ & _ & _ & ->)|(_ & _ & _ & ->)]; done. }
  rewrite E. apply (rs_settle _ (core_of d) _ row row' x x'); try done.
  - destruct Hcase as [(_ & -> & _)|(_ & [-> | ->] & _)]; done.
  - destruct Hcase as [(_ & -> & _)|(_ & [-> | ->] & _)]; done.
  - destruct Hcase as [(? & ? & ? & ? & ? & ->)|(? & _ & ? & ->)]; [left|by right].
    split_and!; try done. by exists n0.
Qed.

Lemma complete_refines now xid owner outcome executor res err retryable d v d' :
  Inv policy (core_of d) ->
  complete_execution cfg now xid owner outcome executor res err retryable d = Ok (v, d') ->
  rstep policy (core_of d) (core_of d').
Proof.
  unfold complete_execution. intros HI Hr. tx_inv. read_runs.
  match goal with H : executions d !! xid = Some ?y |- _ => rename H into Hx; rename y into x end.
  pose proof (Inv_key _ _ _ _ HI Hlock) as Hid. rewrite <-Hid in Hlock.
  destruct (inv_exes _ _ HI _ _ Hx) as [<- _].
  case_bool_decide as Hs; simpl in Hr; [|read_runs; by apply rs_idle].
  case_bool_decide as Ho; simpl in Hr; [|by tx_inv].
  case_bool_decide as Hxs; simpl in Hr; [|read_runs; by apply rs_idle].
  assert (ex_status x = X_RUNNING \/ ex_status x = X_UNKNOWN) as Hxs'
    by (revert Hxs; rewrite !elem_of_cons, elem_of_nil; naive_solver).
  tx_inv. read_runs. case_bool_decide as Hout.
  - match goal with H : _settle_success _ _ _ _ _ _ _ _ _ = Ok _ |- _ =>
      apply settle_success_run in H as (w & x' & Hsame & Hst & Hk & Hs' & Ha & Hv & Hw & Hnone & Heff) end.
    eapply (settle_rstep d _ _ _ x x' w (put_ver w _) Hlock); try exact Heff; try done.
    left. done.
  - match goal with H : _settle_failure _ _ _ _ _ _ _ _ _ = Ok _ |- _ =>
      apply settle_failure_run in H as (x' & Hsame & Hst & Hk & Hs' & Ha & Hv & Heff); [|done] end.
    eapply (settle_rstep d _ _ _ x x' 0%N id Hlock); try exact Heff; try done.
    right. split_and!; try done. naive_solver.
Qed.
End Settle.
