(* ===== verification/RemediationSafety.v ===== *)
(** * Safety of the remediation commands

    The commands as a step relation on databases, the databases they can reach
    interleaved with transactions of the other services, and what holds there.  At the
    end, the relations on databases every command respects. *)
From S2P Require Import Prelude PyFloat Json Enums VerificationDomain Catalog.
From S2P Require Import RemediationDomain Policy Store TxLogic RemediationLifecycle.
From S2P Require Import RemediationService RemediationProofs.
Local Open Scope Z_scope.

Section Safety.
Context {PY : Pydantic} {HA : Hashing} {TO : ServiceTopology} {DI : Digests}.
Context (cfg : ServiceConfig).
Notation policy := (cfg_policy cfg).

(** One transaction of this service, committed or rolled back. *)
Inductive remediation_command (d : db) : db -> Prop :=
| rc_propose now p key corr :
    remediation_command d (atomically (propose cfg now p key corr) d).2
| rc_decide now i approver roles approve hash pid comment :
    remediation_command d
      (atomically (decide_approval now i approver roles approve hash pid comment) d).2
| rc_expire now i : remediation_command d (atomically (expire_one cfg now i) d).2
| rc_cancel now i actor reason :
    remediation_command d (atomically (cancel now i actor reason) d).2
| rc_claim now i owner lease :
    remediation_command d (atomically (claim_execution now i owner lease) d).2
| rc_complete now x owner outcome executor res err retryable :
    remediation_command d
      (atomically (complete_execution cfg now x owner outcome executor res err retryable) d).2
| rc_baseline now i owner values ids :
    remediation_command d (atomically (record_baseline now i owner values ids) d).2
| rc_switch now scope engaged actor reason :
    remediation_command d (atomically (set_kill_switch now scope engaged actor reason) d).2.

(** [rt_other] is a transaction of another service: it may write anything but the
    tables of this one. *)
Inductive remediation_step (d : db) : db -> Prop :=
| rt_command d' : remediation_command d d' -> remediation_step d d'
| rt_other d' : idle d d' -> remediation_step d d'.

Definition reachable (d : db) : Prop := rtc remediation_step empty_db d.

Lemma idle_rstep d d' : idle d d' -> rstep policy (core_of d) (core_of d').
Proof. intros [-> Hn]. by apply rs_idle. Qed.

Lemma atomically_rstep {A} (m : Tx A) d :
  (forall a d', m d = Ok (a, d') -> rstep policy (core_of d) (core_of d')) ->
  rstep policy (core_of d) (core_of (atomically m d).2).
Proof.
  intros Hm. unfold atomically. destruct (m d) as [[a d']|e] eqn:E; simpl; [by eapply Hm|].
  by apply rs_idle.
Qed.

Lemma idle_record_baseline now i owner values ids :
  relates idle (record_baseline now i owner values ids).
Proof. unfold record_baseline. relates_auto. Qed.

Lemma idle_set_kill_switch now scope engaged actor reason :
  relates idle (set_kill_switch now scope engaged actor reason).
Proof. unfold set_kill_switch. relates_auto. Qed.

(** Refinement: every transaction is a step of the abstract lifecycle. *)
Lemma step_refines d d' :
  Inv policy (core_of d) -> remediation_step d d' ->
  rstep policy (core_of d) (core_of d').
Proof.
  intros HI [d1 Hc|d1 Hi]; [|by apply idle_rstep].
  destruct Hc; apply atomically_rstep; intros.
  - by eapply propose_refines.
  - by eapply decide_approval_refines.
  - by eapply expire_one_refines.
  - by eapply cancel_refines.
  - by eapply claim_refines.
  - by eapply complete_refines.
  - apply idle_rstep. by eapply idle_record_baseline.
  - apply idle_rstep. by eapply idle_set_kill_switch.
Qed.

Lemma Inv_empty : Inv policy (core_of empty_db).
Proof. constructor; simpl; intros *; rewrite ?fmap_empty, ?lookup_empty; done. Qed.

Lemma reachable_from_Inv d0 d :
  Inv policy (core_of d0) -> rtc remediation_step d0 d -> Inv policy (core_of d).
Proof.
  intros HI Hr. induction Hr as [|d1 d2 d3 Hs _ IH]; [done|].
  apply IH. eapply rstep_Inv; [done|]. by apply step_refines.
Qed.

Lemma reachable_Inv d : reachable d -> Inv policy (core_of d).
Proof. apply reachable_from_Inv, Inv_empty. Qed.

Lemma step_advances d d' i r :
  reachable d -> remediation_step d d' -> remediations d !! i = Some r ->
  exists r', remediations d' !! i = Some r' /\ advanced r r'.
Proof.
  intros Hd%reachable_Inv Hs Hi.
  apply (rstep_advances policy (core_of d) (core_of d') i r Hd); [by apply step_refines|done].
Qed.

Lemma run_advances d d' i r :
  reachable d -> rtc remediation_step d d' -> remediations d !! i = Some r ->
  exists r', remediations d' !! i = Some r' /\ kept r r'
    /\ rm_execution_attempts r <= rm_execution_attempts r'
    /\ (rm_status r ∈ TERMINAL_REMEDIATION_STATUSES -> rm_status r' = rm_status r).
Proof.
  intros Hd Hr. revert r Hd. induction Hr as [d|d d1 d2 Hs Hr IH]; intros r Hd Hi.
  - exists r. split_and!; try done; lia.
  - destruct (step_advances _ _ _ _ Hd Hs Hi) as (r1 & H1 & Hk1 & Hst1 & Ha1).
    assert (reachable d1) as Hd1 by (eapply rtc_r; eauto).
    destruct (IH r1 Hd1 H1) as (r2 & H2 & Hk2 & Ha2 & Hst2).
    exists r2. split_and!; [done| |lia|].
    + destruct Hk1, Hk2. by split; etrans.
    + intros Ht. destruct Hst1 as [Hst1|Hst1].
      * rewrite Hst2; [done|]. by rewrite Hst1.
      * by rewrite (can_transition_terminal _ _ Ht) in Hst1.
Qed.

Lemma row_of_reachable d i r :
  reachable d -> remediations d !! i = Some r -> row_ok policy (core_of d) r /\ rm_id r = i.
Proof.
  intros HI%reachable_Inv Hi. split; [by apply (inv_rows _ _ HI i)|].
  by apply (inv_rems _ _ HI i).
Qed.

Lemma not_denied_permitted p entry context :
  pd_decision (evaluate p entry policy context) <> DENY -> permitted p entry policy context.
Proof.
  pose proof (evaluate_spec p entry policy context) as Hspec. cbv zeta in Hspec.
  revert Hspec. generalize (pd_decision (evaluate p entry policy context)). intros v.
  generalize (permitted p entry policy context). intros P (_ & Hreq & Hall) Hd.
  destruct v; [by apply Hall|done|by apply Hreq].
Qed.

(** What licensed a remediation: the policy's decision on the stored proposal and the
    entitled approval bound to it. *)
Lemma licensed_facts d i r :
  reachable d -> remediations d !! i = Some r ->
  rm_status r ∈ [R_APPROVED; R_EXECUTING; R_EXECUTED] ->
  exists dec a, decision_of d r = Some dec /\ approval_of d i = Some a /\ entitled r dec a
    /\ decided policy r dec /\ dec_decision dec <> DENY /\ hash_ok r.
Proof.
  intros Hd Hi Hs. destruct (row_of_reachable _ _ _ Hd Hi) as [Hok Hid].
  destruct Hok as (_ & Hh & (dec & Hdec & Hdecided & Hdeny & _ & Hap) & _).
  destruct (Hap Hs) as (a & Ha & Hent).
  exists dec, a. split_and!; try done.
  - unfold decision_of. destruct Hdecided as (-> & _). done.
  - unfold approval_of. rewrite <-Hid. eapply (find_about_singleton ap_remediation_id). exact Ha.
  - intros E%Hdeny. rewrite E in Hs. revert Hs. rewrite !elem_of_cons, elem_of_nil. naive_solver.
Qed.

(** C1: only what policy permits and a person approved is executed.  In every
    database the commands can reach, a remediation that is APPROVED, EXECUTING or
    EXECUTED still hashes to its recorded proposal hash, the policy permits its action
    and parameters in the recorded context, and its one approval was given by someone
    entitled, for that very hash and decision. *)
Theorem licensed_means_permitted_and_approved d i r :
  reachable d -> remediations d !! i = Some r ->
  rm_status r ∈ [R_APPROVED; R_EXECUTING; R_EXECUTED] ->
  exists dec a p,
    decision_of d r = Some dec /\ approval_of d i = Some a /\ entitled r dec a
    /\ pr_action_id p = rm_action_id r /\ pr_parameters p = rm_parameters r
    /\ permitted p (get_entry (rm_action_id r)) policy (dec_policy_context dec)
    /\ hash_ok r.
Proof.
  intros Hd Hi Hs.
  destruct (licensed_facts _ _ _ Hd Hi Hs) as (dec & a & Hdec & Ha & Hent & Hdecided & Hnd & Hh).
  destruct Hdecided as (_ & _ & _ & p & Hp1 & Hp2 & _ & _ & Hp3 & _).
  exists dec, a, p. split_and!; try done. apply not_denied_permitted. by rewrite <-Hp3.
Qed.

(** C23: a remediation only moves forward.  Through any sequence of transactions it
    keeps its row and its proposal columns, a terminal status is final, and each single
    transaction leaves the status or moves it along an allowed transition. *)
Theorem lifecycle_only_moves_forward d d' i r :
  reachable d -> rtc remediation_step d d' -> remediations d !! i = Some r ->
  exists r', remediations d' !! i = Some r' /\ proposal_cols r' = proposal_cols r
    /\ (rm_status r ∈ TERMINAL_REMEDIATION_STATUSES -> rm_status r' = rm_status r)
    /\ (remediation_step d d' ->
         rm_status r' = rm_status r \/ can_transition (rm_status r) (rm_status r') = true).
Proof.
  intros Hd Hr Hi. destruct (run_advances _ _ _ _ Hd Hr Hi) as (r' & Hi' & [Hk _] & _ & Ht).
  exists r'. split_and!; [done|done|done|].
  intros Hs. destruct (step_advances _ _ _ _ Hd Hs Hi) as (r1 & H1 & _ & Hst & _). by simplify_eq.
Qed.

(** C30: attempts are bounded.  The executions of a remediation are numbered from 1
    within the attempts counted on its row, which stay within the catalog's maximum;
    no two share a number or run at once; and none exists before the approval. *)
Theorem attempts_are_bounded d i r :
  reachable d -> remediations d !! i = Some r ->
  (forall k x, executions d !! k = Some x -> ex_remediation_id x = i ->
     exists e, get_entry (rm_action_id r) = Some e
       /\ 1 <= ex_attempt_number x <= rm_execution_attempts r
       /\ rm_execution_attempts r <= max_attempts e)
  /\ (forall k x k' x', executions d !! k = Some x -> executions d !! k' = Some x' ->
       ex_remediation_id x = i -> ex_remediation_id x' = i ->
       (ex_attempt_number x = ex_attempt_number x'
        \/ ex_status x = X_RUNNING /\ ex_status x' = X_RUNNING) -> k = k')
  /\ (rm_execution_attempts r > 0 -> rm_status r ∈ [R_EXECUTING; R_EXECUTED; R_FAILED; R_CANCELLED]).
Proof.
  intros Hd Hi. destruct (row_of_reachable _ _ _ Hd Hi) as [Hok Hid].
  destruct Hok as (Hp & _ & _ & (H0 & Hmax & Hz & Hb & Hu & _) & _).
  assert (forall k x, executions d !! k = Some x -> ex_remediation_id x = i ->
            exes_of (core_of d) (rm_id r) !! k = Some x) as Hin
    by (intros k x Hk Hx; apply about_Some; split; [done|congruence]).
  split_and!.
  - intros k x Hk Hx. destruct (Hb _ _ (Hin _ _ Hk Hx)) as [? _].
    destruct Hmax as [?|(e & He & ?)]; [lia|]. by exists e.
  - intros k x k' x' Hk Hk' Hx Hx' [E|[E1 E2]]; [by eapply (Hu k x k' x'); eauto|].
    destruct (Hb _ _ (Hin _ _ Hk Hx)) as [_ Hr1], (Hb _ _ (Hin _ _ Hk' Hx')) as [_ Hr2].
    eapply (Hu k x k' x'); eauto. rewrite Hr1, Hr2; done.
  - intros Hpos.
    destruct (decide (rm_status r ∈ [R_EXECUTING; R_EXECUTED; R_FAILED; R_CANCELLED]))
      as [|Hn]; [done|]. exfalso. rewrite Hz in Hpos; [lia|].
    revert Hn Hp. clear. rewrite !elem_of_cons, !elem_of_nil. destruct (rm_status r); intuition.
Qed.

(** Every executed remediation is verified.  A remediation is EXECUTED exactly
    when a verification of it exists, and its reference is that verification. *)
Theorem executed_iff_verification d i r :
  reachable d -> remediations d !! i = Some r ->
  (rm_status r = R_EXECUTED <-> exists v, verification_for i d = Some v)
  /\ (forall k v, verifications d !! k = Some v -> v_remediation_id v = i ->
       rm_verification_ref r = Some k).
Proof.
  intros Hd Hi. destruct (row_of_reachable _ _ _ Hd Hi) as [Hok Hid].
  destruct Hok as (_ & _ & _ & _ & Hv). subst i.
  assert (forall k v, verifications d !! k = Some v -> v_remediation_id v = rm_id r ->
            vers_of (core_of d) (rm_id r) !! k = Some (rm_id r)) as Hin.
  { intros k v Hk Hvr. apply about_Some. split; [|done].
    unfold core_of; cbn [c_vers]. rewrite lookup_fmap, Hk. simpl. by rewrite Hvr. }
  assert (rm_status r <> R_EXECUTED -> vers_of (core_of d) (rm_id r) = ∅) as Hno
    by (intros Hn; unfold verification_ok in Hv; destruct (rm_status r); by destruct Hv).
  assert (forall k v, verifications d !! k = Some v -> v_remediation_id v = rm_id r ->
            rm_status r = R_EXECUTED) as Hyes.
  { intros k v Hk Hvr. pose proof (Hin _ _ Hk Hvr) as Hl.
    destruct (decide (rm_status r = R_EXECUTED)) as [|Hn]; [done|].
    by rewrite (Hno Hn), lookup_empty in Hl. }
  split; [split|].
  - intros E. unfold verification_ok in Hv. rewrite E in Hv. destruct Hv as (v & _ & HV).
    destruct (verification_for (rm_id r) d) eqn:Ef; [eauto|].
    apply verification_for_None in Ef. rewrite Ef in HV.
    assert (({[v := rm_id r]} : gmap uuid uuid) !! v = Some (rm_id r)) as Hl
      by apply lookup_singleton_eq.
    by rewrite <-HV, lookup_empty in Hl.
  - intros [v Hf]. apply find_rows_Some in Hf as [[k Hk] Hb%bool_decide_eq_true]. by eapply Hyes.
  - intros k v Hk Hvr. pose proof (Hin _ _ Hk Hvr) as Hl. pose proof (Hyes _ _ Hk Hvr) as E.
    unfold verification_ok in Hv. rewrite E in Hv. destruct Hv as (w & Href & HV).
    rewrite HV in Hl. apply lookup_singleton_Some in Hl as [<- _]. exact Href.
Qed.
End Safety.

(** ** Relations every remediation command respects

    A preorder on databases that the primitive writes of the remediation service
    respect is respected by each of its commands.  History, the incident table and
    the view of the verification service are instances. *)
Section Relates.
Context {PY : Pydantic} {HA : Hashing} {TO : ServiceTopology} {DI : Digests}.
Context (cfg : ServiceConfig).

(** What has to be shown of the primitives. *)
Class Respected (R : relation db) : Prop := {
  resp_preorder :: PreOrder R;
  resp_uuid4 : relates R uuid4;
  resp_outbox now et at_ ai ci p : relates R (insert_outbox_event now et at_ ai ci p);
  resp_incident r : relates R (put_incident r);
  resp_remediation r : relates R (put_remediation r);
  resp_execution x : relates R (put_execution x);
  resp_timeline now row e f t a j v : relates R (_timeline now row e f t a j v);
  resp_decisions f : relates R (writes (fun d => d <| policy_decisions ::= f |>));
  resp_approvals f : relates R (writes (fun d => d <| approvals ::= f |>));
  resp_baselines f : relates R (writes (fun d => d <| baselines ::= f |>));
  resp_switches f : relates R (writes (fun d => d <| kill_switches ::= f |>));
  resp_evidence f : relates R (writes (fun d => d <| verification_evidence ::= f |>));
  resp_request now row entry : relates R (_request_verification cfg now row entry);
}.

Context (R : relation db) `{!Respected R}.

Local Hint Resolve resp_uuid4 resp_outbox resp_incident resp_remediation resp_execution
  resp_timeline resp_decisions resp_approvals resp_baselines resp_switches resp_evidence
  resp_request : relates.

Lemma resp_transition_with_event now i to c r e : relates R (transition_with_event now i to c r e).
Proof.
  unfold transition_with_event, transition_incident_status, status_changed_event. relates_auto.
Qed.
Local Hint Resolve resp_transition_with_event : relates.
Lemma resp_event now row e a o : relates R (_event now row e a o).
Proof. unfold _event. relates_auto. Qed.
Lemma resp_move_incident now i fs t r : relates R (_move_incident now i fs t r).
Proof. unfold _move_incident. relates_auto. Qed.
Lemma resp_view row : relates R (_view row).
Proof. unfold _view. relates_auto. Qed.
Lemma resp_lock i : relates R (_lock i).
Proof. unfold _lock. relates_auto. Qed.
Lemma resp_lock_incident i : relates R (_lock_incident i).
Proof. unfold _lock_incident. relates_auto. Qed.
Local Hint Resolve resp_event resp_move_incident resp_view resp_lock resp_lock_incident : relates.

Lemma resp_transition now row to e a j v : relates R (_transition now row to e a j v).
Proof. unfold _transition. relates_auto. Qed.
Local Hint Resolve resp_transition : relates.
Lemma resp_finish_cancelled now row i e a r to et dec :
  relates R (_finish_cancelled now row i e a r to et dec).
Proof. unfold _finish_cancelled. relates_auto. Qed.
Lemma resp_finish_failed now row i c t a : relates R (_finish_failed now row i c t a).
Proof. unfold _finish_failed. relates_auto. Qed.
Local Hint Resolve resp_finish_cancelled resp_finish_failed : relates.

Lemma resp_propose now p key corr : relates R (propose cfg now p key corr).
Proof. unfold propose, insert_remediation, _context, _record_decision, _route. relates_auto. Qed.
Lemma resp_decide now i approver roles approve hash pid comment :
  relates R (decide_approval now i approver roles approve hash pid comment).
Proof. unfold decide_approval, insert_approval. relates_auto. Qed.
Lemma resp_expire now i : relates R (expire_one cfg now i).
Proof. unfold expire_one, insert_approval. relates_auto. Qed.
Lemma resp_cancel now i a r : relates R (cancel now i a r).
Proof. unfold cancel. relates_auto. Qed.
Lemma resp_claim now i o l : relates R (claim_execution now i o l).
Proof.
  unfold claim_execution, _interrupt, _start_attempt, insert_execution, _ticket, _latest_execution.
  relates_auto.
Qed.
Lemma resp_complete now x o oc e r err re :
  relates R (complete_execution cfg now x o oc e r err re).
Proof. unfold complete_execution, _settle_success, _settle_failure. relates_auto. Qed.
Lemma resp_baseline now i o v e : relates R (record_baseline now i o v e).
Proof. unfold record_baseline. relates_auto. Qed.
Lemma resp_switch now s e a r : relates R (set_kill_switch now s e a r).
Proof. unfold set_kill_switch. relates_auto. Qed.

Lemma commands_respect d d' : remediation_command cfg d d' -> R d d'.
Proof.
  destruct 1; apply atomically_relates; try typeclasses eauto;
    [apply resp_propose|apply resp_decide|apply resp_expire|apply resp_cancel|apply resp_claim
    |apply resp_complete|apply resp_baseline|apply resp_switch].
Qed.
End Relates.
