(* ===== verification/RunnerSafety.v ===== *)
(** * What the runner does

    The loop of the runner stops by itself within three claims ([ten_claims_suffice]),
    and a remediation it reports as executed was applied ([executed_means_applied]). *)
From S2P Require Import Prelude PyFloat Json Enums VerificationDomain Catalog.
From S2P Require Import RemediationDomain Policy Store TxLogic RemediationLifecycle.
From S2P Require Import RemediationService RemediationProofs RemediationSafety.
From S2P Require Import Prog Redis Executor ExecutorSafety Runner.
Local Open Scope Z_scope.

(** The tables of the core a run's effect gives. *)
Ltac core_tables Hc :=
  match type of Hc with core_of ?dd = ?c =>
    let Hrems := fresh "Hrems" in let Hexes := fresh "Hexes" in
    assert (remediations dd = c_rems c) as Hrems by exact (f_equal c_rems Hc);
    assert (executions dd = c_exes c) as Hexes by exact (f_equal c_exes Hc);
    cbn [c_rems c_exes set_next put_rem put_exe with_row core_of id compose] in Hrems, Hexes
  end.

Section Commands.
Context {PY : Pydantic} {HA : Hashing} {TO : ServiceTopology} {DI : Digests}.
Context (cfg : ServiceConfig).
Notation policy := (cfg_policy cfg).

(** ** The two commands of a turn *)

Lemma latest_execution_run i d l d' :
  _latest_execution i d = Ok (l, d') -> l = latest_of i (rows (executions d)) /\ d' = d.
Proof. by intros [-> ->]%reads_Ok. Qed.

(** What a claim that hands out a ticket leaves in the tables. *)
Lemma claim_ticket now i owner lease d tk d' :
  Inv policy (core_of d) -> claim_execution now i owner lease d = Ok (Some tk, d') ->
  exists r r' x,
    remediations d !! i = Some r /\ rm_id r = i
    /\ remediations d' !! i = Some r' /\ rm_id r' = i /\ rm_status r' = R_EXECUTING
    /\ rm_lease_owner r' = Some owner /\ rm_action_id r' = rm_action_id r
    /\ executions d' = <[tk_execution_id tk := x]> (executions d)
    /\ ex_id x = tk_execution_id tk /\ ex_remediation_id x = i
    /\ ex_idempotency_key x = tk_idempotency_key tk
    /\ ex_attempt_number x = rm_execution_attempts r'
    /\ (tk_mode tk = RemediationService.execute /\ ex_status x = X_RUNNING
          /\ rm_execution_attempts r' = rm_execution_attempts r + 1
        \/ tk_mode tk = reconcile /\ ex_status x = X_UNKNOWN
          /\ rm_execution_attempts r' = rm_execution_attempts r
          /\ running (latest_of i (rows (executions d))) <> None).
Proof.
  unfold claim_execution. intros HI Hr. tx_inv. read_runs.
  pose proof (Inv_key _ _ _ _ HI Hlock) as Hid.
  case_bool_decide as Hs; simpl in Hr; [|by tx_inv].
  apply bind_Ok in Hr as (l & d1 & [-> ->]%latest_execution_run & Hr).
  rewrite Hid in Hr. destruct (running _) as [y|] eqn:Erun.
  - destruct (lease_live _ _); [by tx_inv|].
    unfold running in Erun. destruct (latest_of i _) as [z|] eqn:El; [|done].
    case_bool_decide as Hz; simplify_eq.
    destruct (latest_in_table cfg _ _ _ HI El) as [Hx Hxi].
    destruct (inv_rows _ _ HI _ _ Hlock) as (_ & _ & _ & (_ & _ & Hz0 & Hb & _) & _).
    assert (exes_of (core_of d) (rm_id x) !! ex_id y = Some y) as Hin
      by (by apply about_Some).
    apply Hb in Hin as [Hpos Hnum].
    unfold _interrupt, put_execution, put_remediation, _ticket in Hr. tx_inv. idle_runs.
    match goal with
    | H1 : idle ?d1 ?d2, H2 : idle ?d0 ?d1 |- _ =>
        assert (idle d0 d2) as [Hc Hn] by (by transitivity d1); clear H1 H2
    | H1 : idle ?d1 ?d2 |- _ => destruct H1 as [Hc Hn]
    end.
    core_tables Hc.
    eexists x, _, _. split; [exact Hlock|]. split; [done|].
    rewrite Hrems, Hexes. simpl. rewrite lookup_insert_eq.
    split; [reflexivity|]. split_and!; try done.
    + simpl. revert Hs. rewrite !elem_of_cons, elem_of_nil. intros [Hs|[Hs|[]]]; [|done].
      rewrite Hz0 in Hpos by (rewrite Hs; set_solver). lia.
    + simpl. by apply Hnum.
    + right. split_and!; done.
  - tx_inv. read_runs. destruct (_execution_blocker _ _ _) as [[code text]|] eqn:Eb; [by tx_inv|].
    tx_inv. unfold _start_attempt, insert_execution, put_execution, _ticket in Hr. tx_inv.
    match goal with H : (if ?b then _ else _) _ = Ok _ |- _ => destruct b; [by tx_inv|] end.
    match goal with H : (if ?b then _ else _) _ = Ok _ |- _ => destruct b; [by tx_inv|] end.
    tx_inv. transition_runs. idle_runs. pose proof (put_rem_idle _ _ _ _ (put_rem_idle _ _ _ _ Heff ltac:(eassumption))
      ltac:(eassumption)) as [Hc _].
    core_tables Hc.
    eexists x, _, _. split; [exact Hlock|]. split; [done|].
    rewrite Hrems, Hexes. simpl. rewrite lookup_insert_eq.
    split; [reflexivity|]. split_and!; try done. left. done.
Qed.

Lemma view_row r d v d' : _view r d = Ok (v, d') -> vw_row v = r /\ d' = d.
Proof. unfold _view. by intros [-> ->]%reads_Ok. Qed.

(** What completing an open attempt leaves in the tables. *)
Lemma complete_ticket now xid owner outcome executor res err retryable d v d' r x :
  Inv policy (core_of d) -> executions d !! xid = Some x -> ex_id x = xid ->
  remediations d !! ex_remediation_id x = Some r -> rm_status r = R_EXECUTING ->
  ex_status x ∈ [X_RUNNING; X_UNKNOWN] ->
  complete_execution cfg now xid owner outcome executor res err retryable d = Ok (v, d') ->
  exists x', remediations d' !! ex_remediation_id x = Some (vw_row v)
    /\ executions d' = <[xid := x']> (executions d) /\ same_execution x x'
    /\ rm_action_id (vw_row v) = rm_action_id r
    /\ rm_execution_attempts (vw_row v) = rm_execution_attempts r
    /\ (outcome = "succeeded" /\ ex_status x' = X_SUCCEEDED /\ rm_status (vw_row v) = R_EXECUTED
        \/ (ex_status x' = X_FAILED \/ ex_status x' = X_TIMED_OUT)
           /\ (rm_status (vw_row v) = R_EXECUTING
                 /\ can_retry (get_entry (rm_action_id r)) retryable (rm_execution_attempts r) = true
               \/ rm_status (vw_row v) = R_FAILED)).
Proof.
  intros HI Hx Hxid Hi Hs Hxs Hr. pose proof (Inv_key _ _ _ _ HI Hi) as Hid.
  unfold complete_execution in Hr.
  apply bind_Ok in Hr as (o & d1 & [-> ->]%reads_Ok & Hr).
  apply bind_Ok in Hr as (y & d1 & [Hy ->]%must_Ok & Hr).
  assert (y = x) as -> by congruence.
  apply bind_Ok in Hr as (q & d1 & [Hq ->]%lock_run & Hr). assert (q = r) as -> by congruence.
  rewrite bool_decide_eq_true_2 in Hr by done. cbn [negb] in Hr.
  destruct (negb (bool_decide (rm_lease_owner r = _))); [by apply raise_Ok in Hr|].
  rewrite bool_decide_eq_true_2 in Hr by done. cbn [negb] in Hr.
  apply bind_Ok in Hr as (inc & d1 & [_ ->]%lock_incident_run & Hr).
  apply bind_Ok in Hr as (r2 & d2 & Hr & Hv). apply view_row in Hv as [Hv ->].
  case_bool_decide as Hout.
  - apply settle_success_run in Hr as (w & x' & Hsame & Hst & Hk & Hs' & Ha & _ & _ & _ & [Hc _]).
    core_tables Hc. rewrite Hrems, Hexes. exists x'.
    pose proof (kept_eqs _ _ Hk) as Heqs. destruct Hsame as (Hx1 & Hx2 & Hx3 & Hx4).
    cbn in Hx1, Hx2, Hx3, Hx4. rewrite Hv.
    split_and!; try done.
    + cbn. replace (rm_id r2) with (ex_remediation_id x) by (rewrite <-Hid; symmetry; apply Heqs).
      apply lookup_insert_eq.
    + cbn. by rewrite Hx1, Hxid.
    + apply Heqs.
    + by left.
  - apply settle_failure_run in Hr as (x' & Hsame & Hst & Hk & Hs' & Ha & _ & [Hc _]); [|done].
    core_tables Hc. rewrite Hrems, Hexes. exists x'.
    pose proof (kept_eqs _ _ Hk) as Heqs. destruct Hsame as (Hx1 & Hx2 & Hx3 & Hx4).
    cbn in Hx1, Hx2, Hx3, Hx4. rewrite Hv.
    split_and!; try done.
    + cbn. replace (rm_id r2) with (ex_remediation_id x) by (rewrite <-Hid; symmetry; apply Heqs).
      apply lookup_insert_eq.
    + cbn. by rewrite Hx1, Hxid.
    + apply Heqs.
    + right. split; [done|]. destruct Hs' as [[? Hcan]|[? _]]; [left; split; [done|exact Hcan]|by right].
Qed.

(** No attempt of a remediation runs in the table that holds one settled in place of the
    only open one. *)
Lemma none_running d i x x' r :
  Inv policy (core_of d) -> executions d !! ex_id x = Some x -> ex_remediation_id x = i ->
  remediations d !! i = Some r -> ex_attempt_number x = rm_execution_attempts r ->
  same_execution x x' -> ex_status x' <> X_RUNNING ->
  running (latest_of i (rows (<[ex_id x := x']> (executions d)))) = None.
Proof.
  intros HI Hx Hxi Hi Hnum Hsame Hs'. pose proof (Inv_key _ _ _ _ HI Hi) as Hid.
  destruct (latest_of i _) as [y|] eqn:E; [|done]. simpl. case_bool_decide as Hy; [|done]. exfalso.
  apply latest_of_Some in E as (Hin & Hyi & _). apply elem_of_rows in Hin as [k Hk].
  apply lookup_insert_Some in Hk as [[<- <-]|[Hne Hk]]; [done|].
  destruct (inv_rows _ _ HI _ _ Hi) as (_ & _ & _ & (_ & _ & _ & Hb & Hu & _) & _).
  assert (exes_of (core_of d) (rm_id r) !! ex_id x = Some x) as H1
    by (rewrite Hid, <- Hxi; by apply about_Some).
  assert (exes_of (core_of d) (rm_id r) !! k = Some y) as H2
    by (rewrite Hid, <- Hyi; by apply about_Some).
  apply Hne. eapply (Hu (ex_id x) x k y); [exact H1|exact H2|].
  destruct (Hb _ _ H2) as [_ ->]; done.
Qed.

Lemma attempts_bound d i r :
  Inv policy (core_of d) -> remediations d !! i = Some r ->
  0 <= rm_execution_attempts r <= 2.
Proof.
  intros HI Hi. destruct (inv_rows _ _ HI _ _ Hi) as (_ & _ & _ & (Hpos & Hmax & _) & _).
  split; [done|]. destruct Hmax as [->|(e & He & Hle)]; [done|].
  apply get_entry_catalog in He. unfold CATALOG in He.
  repeat (apply elem_of_cons in He as [->|He]; [simpl in Hle; lia|]). by apply not_elem_of_nil in He.
Qed.

Lemma running_attempts d i r :
  Inv policy (core_of d) -> remediations d !! i = Some r ->
  running (latest_of i (rows (executions d))) <> None -> 1 <= rm_execution_attempts r.
Proof.
  intros HI Hi Hrun. pose proof (Inv_key _ _ _ _ HI Hi) as Hid.
  destruct (latest_of i _) as [y|] eqn:El; [|done].
  destruct (latest_in_table cfg _ _ _ HI El) as [Hx Hxi].
  destruct (inv_rows _ _ HI _ _ Hi) as (_ & _ & _ & (_ & _ & _ & Hb & _) & _).
  assert (exes_of (core_of d) (rm_id r) !! ex_id y = Some y) as Hin
    by (rewrite Hid, <- Hxi; by apply about_Some).
  apply Hb in Hin. lia.
Qed.

Lemma can_retry_bound id retryable n :
  can_retry (get_entry id) retryable n = true -> n <= 1.
Proof.
  unfold can_retry. destruct (get_entry id) as [e|] eqn:He; [|done].
  intros [_ Hlt]%andb_true_iff. apply Z.ltb_lt in Hlt.
  apply get_entry_catalog in He. unfold CATALOG in He.
  repeat (apply elem_of_cons in He as [->|He]; [simpl in Hlt; lia|]). by apply not_elem_of_nil in He.
Qed.
End Commands.

(** ** One turn *)

Section Turns.
Context {PY : Pydantic} {HA : Hashing} {TO : ServiceTopology} {DI : Digests}.
Context {EX : RemediationExecutor}.
Context (cfg : ServiceConfig) (owner : string) (lease_seconds : Z).
Context (baseline : option (Turn -> ExecutionTicket -> Work bool)).
(** Collecting a baseline registers evidence and records it; it neither drives
    remediations nor acts on the executor's world. *)
Hypothesis baseline_observes : forall collect t tk w d r w' d',
  baseline = Some collect -> collect t tk (w, d) = (r, (w', d')) -> idle d d' /\ w' = w.
Context (i : uuid).

(** The attempt a ticket hands out is open. *)
Definition open_ticket (d : db) (tk : ExecutionTicket) (r : RemediationRow)
    (x : RemediationExecutionRow) : Prop :=
  reachable cfg d /\ remediations d !! i = Some r /\ rm_status r = R_EXECUTING
  /\ executions d !! tk_execution_id tk = Some x /\ ex_id x = tk_execution_id tk
  /\ ex_remediation_id x = i /\ ex_status x ∈ [X_RUNNING; X_UNKNOWN]
  /\ ex_idempotency_key x = tk_idempotency_key tk
  /\ ex_attempt_number x = rm_execution_attempts r.

(** What driving it leaves: nothing settled, or settled, with success for [good] only. *)
Definition settled (good : Prop) (r : RemediationRow) (x : RemediationExecutionRow) (d : db)
    (o : result RemediationView) (d' : db) : Prop :=
  reachable cfg d'
  /\ ((exists e, o = Err e) /\ remediations d' = remediations d /\ executions d' = executions d
      \/ exists v x', o = Ok v /\ remediations d' !! i = Some (vw_row v)
           /\ executions d' = <[ex_id x := x']> (executions d) /\ same_execution x x'
           /\ rm_action_id (vw_row v) = rm_action_id r
           /\ rm_execution_attempts (vw_row v) = rm_execution_attempts r
           /\ (good /\ ex_status x' = X_SUCCEEDED /\ rm_status (vw_row v) = R_EXECUTED
               \/ (ex_status x' = X_FAILED \/ ex_status x' = X_TIMED_OUT)
                  /\ (rm_status (vw_row v) = R_EXECUTING
                        /\ rm_execution_attempts r <= 1
                        /\ running (latest_of i (rows (executions d'))) = None
                      \/ rm_status (vw_row v) = R_FAILED))).

Lemma settled_mono (P Q : Prop) r x d o d' :
  (P -> Q) -> settled P r x d o d' -> settled Q r x d o d'.
Proof.
  intros HPQ [Hd Hc]. split; [done|].
  destruct Hc as [Hc|(v & x' & ? & ? & ? & ? & ? & ? & Hcase)]; [by left|right].
  exists v, x'. repeat (split; [done|]). naive_solver.
Qed.

Lemma settled_raised (P : Prop) tk r x d e :
  open_ticket d tk r x -> settled P r x d (Err e) d.
Proof. intros (Hd & _). split; [done|]. left. eauto. Qed.

Lemma transact_run {A} (m : Tx A) (w : ex_world) (d : db) r w' d' :
  core_command m (w, d) = (r, (w', d')) -> w' = w /\ atomically m d = (r, d').
Proof. unfold core_command, on_right, transact. simpl. destruct (atomically m d) as [q d1]. by intros [= <- <- <-]. Qed.

Lemma atomically_cases {A} (m : Tx A) d r d' :
  atomically m d = (r, d') -> (exists a, r = Ok a /\ m d = Ok (a, d')) \/ (exists e, r = Err e) /\ d' = d.
Proof. unfold atomically. destruct (m d) as [[a d1]|e]; intros [= <- <-]; eauto. Qed.

Lemma reachable_command d d' : reachable cfg d -> remediation_command cfg d d' -> reachable cfg d'.
Proof. intros Hd Hc. eapply rtc_r; [exact Hd|]. by apply rt_command. Qed.

Lemma transact_complete now tk outcome executor res err retryable w d r x o w' d' :
  open_ticket d tk r x ->
  core_command (complete_execution cfg now (tk_execution_id tk) owner outcome executor res err retryable)
    (w, d) = (o, (w', d')) ->
  w' = w /\ settled (outcome = "succeeded") r x d o d'.
Proof.
  intros Hopen Hrun. destruct Hopen as (Hd & Hi & Hs & Hx & Hxid & Hxi & Hxs & Hkey & Hnum).
  apply transact_run in Hrun as [-> Hrun]. split; [done|].
  assert (reachable cfg d') as Hd'.
  { eapply reachable_command; [exact Hd|].
    replace d' with (o, d').2 by done. rewrite <-Hrun. apply rc_complete. }
  split; [done|]. apply atomically_cases in Hrun as [(v & -> & Hrun)|[He ->]]; [right|by left].
  pose proof (reachable_Inv _ _ Hd) as HI.
  apply (complete_ticket cfg _ _ _ _ _ _ _ _ _ _ _ r x HI Hx Hxid) in Hrun
    as (x' & Hr' & Hexes & Hsame & Hact & Hatt & Hcase); [|by rewrite Hxi|done|done].
  exists v, x'. rewrite Hxid, <-Hxi.
  repeat (split; [done|]).
  destruct Hcase as [(? & ? & ?)|[Hst Hcase]]; [by left|right].
  split; [done|]. destruct Hcase as [[Hex Hretry]|?]; [left|by right].
  split; [done|]. split; [by eapply can_retry_bound|].
  rewrite Hexes, <-Hxid. eapply none_running; try done; [by rewrite Hxid|by rewrite Hxi|].
  by destruct Hst as [-> | ->].
Qed.

Lemma completion_run t tk res rec w d r x o w' d' :
  open_ticket d tk r x ->
  _complete cfg owner t tk res rec (w, d) = (o, (w', d')) ->
  w' = w /\ settled (res_succeeded res = true) r x d o d'.
Proof.
  intros Hopen. unfold _complete, pure, mbind, Prog_bind.
  destruct (detail_items (res_detail res)); [|intros [= <- <- <-]; split; [done|by eapply settled_raised]].
  destruct (error_text (res_error res)); [|intros [= <- <- <-]; split; [done|by eapply settled_raised]].
  intros H. eapply transact_complete in H as [-> Hset]; [|done]. split; [done|].
  revert Hset. apply settled_mono. by destruct (res_succeeded res).
Qed.

Lemma reconcile_run t tk w d r x o w' d' :
  open_ticket d tk r x ->
  _reconcile cfg owner t tk (w, d) = (o, (w', d')) ->
  w' = (ex_inspect (tk_idempotency_key tk) w).2
  /\ settled (exists res, (ex_inspect (tk_idempotency_key tk) w).1 = Ok (Some res)
                          /\ res_succeeded res = true) r x d o d'.
Proof.
  intros Hopen. unfold _reconcile, on_left. unfold mbind at 1, Prog_bind. simpl.
  destruct (ex_inspect (tk_idempotency_key tk) w) as [[known|e] w1]; simpl.
  - intros H. eapply completion_run in H as [-> Hset]; [|done]. split; [done|].
    revert Hset. apply settled_mono. destruct known as [res|]; [eauto|done].
  - intros [= <- <- <-]. split; [done|]. by eapply settled_raised.
Qed.

(** The executor was called at most once, and success is what it returned. *)
Lemma run_executor_run t tk w d o w' d' :
  run_executor t tk (w, d) = (o, (w', d')) ->
  d' = d /\ (w' = w \/ w' = (ex_execute (tn_stamp t) (request_of tk) w).2)
  /\ exists a, o = Ok a
       /\ forall res, a = inl (Ok res) -> ex_execute (tn_stamp t) (request_of tk) w = (Ok res, w').
Proof.
  unfold run_executor, attempt, on_left, mbind, Prog_bind, mret, Prog_ret.
  destruct (tn_late t) as [[]|]; simpl.
  - destruct (ex_execute _ _ w) as [q w1]; simpl. intros [= <- <- <-].
    split; [done|split; [by right|]]. by eexists.
  - intros [= <- <- <-]. split; [done|split; [by left|]]. by eexists.
  - destruct (ex_execute _ _ w) as [[res|e] w1]; simpl.
    + intros [= <- <- <-]. split; [done|split; [by right|]]. eexists. split; [done|]. by intros ? [= <-].
    + intros H. destruct e; simplify_eq; (split; [done|split; [by right|]]; by eexists).
Qed.

Lemma open_ticket_idle d d1 tk r x : idle d d1 -> open_ticket d tk r x -> open_ticket d1 tk r x.
Proof.
  intros Hidle (Hd & Hrest). split.
  - eapply rtc_r; [exact Hd|]. by apply rt_other.
  - destruct Hidle as [Hc _]. core_tables Hc. rewrite Hrems, Hexes. exact Hrest.
Qed.

Lemma settled_idle P d d1 r x o d' : idle d d1 -> settled P r x d1 o d' -> settled P r x d o d'.
Proof.
  intros [Hc _] [Hd Hcase]. core_tables Hc. rewrite Hrems, Hexes in Hcase. by split.
Qed.

Lemma execute_run t tk w d r x o w' d' :
  open_ticket d tk r x ->
  _execute cfg owner baseline t tk (w, d) = (o, (w', d')) ->
  (w' = w \/ w' = (ex_execute (tn_stamp t) (request_of tk) w).2)
  /\ settled (exists res, ex_execute (tn_stamp t) (request_of tk) w = (Ok res, w')
                          /\ res_succeeded res = true) r x d o d'.
Proof.
  intros Hopen. unfold _execute. unfold mbind at 1, Prog_bind at 1.
  destruct (match baseline with Some collect => collect t tk | None => mret true end (w, d))
    as [ready [w1 d1]] eqn:Eb.
  assert (idle d d1 /\ w1 = w) as [Hidle ->].
  { destruct baseline as [collect|] eqn:E; [by eapply baseline_observes|].
    unfold mret, Prog_ret in Eb. injection Eb as <- <- <-. split; [reflexivity|done]. }
  pose proof (open_ticket_idle _ _ _ _ _ Hidle Hopen) as Hopen1.
  destruct ready as [ready|e]; cycle 1.
  { intros [= <- <- <-]. split; [by left|]. eapply settled_idle; [done|]. by eapply settled_raised. }
  destruct (negb ready).
  { unfold complete_without. intros H. eapply transact_complete in H as [-> Hset]; [|done].
    split; [by left|]. eapply settled_idle; [done|]. revert Hset. by apply settled_mono. }
  unfold mbind, Prog_bind. destruct (run_executor t tk (w, d1)) as [waited [w2 d2]] eqn:Er.
  apply run_executor_run in Er as (-> & Hw & a & -> & Ha).
  destruct a as [[res|e]|name]; unfold complete_without; intros H.
  - eapply completion_run in H as [-> Hset]; [|done]. split; [done|].
    eapply settled_idle; [done|]. revert Hset. apply settled_mono. eauto.
  - eapply transact_complete in H as [-> Hset]; [|done]. split; [done|].
    eapply settled_idle; [done|]. revert Hset. by apply settled_mono.
  - eapply transact_complete in H as [-> Hset]; [|done]. split; [done|].
    eapply settled_idle; [done|]. revert Hset. by apply settled_mono.
Qed.

Lemma claim_nothing now lease d d' :
  claim_execution now i owner lease d = Ok (None, d') -> executions d' = executions d.
Proof.
  unfold claim_execution. intros Hr. tx_inv. read_runs.
  case_bool_decide as Hs; simpl in Hr; [|by tx_inv].
  apply bind_Ok in Hr as (l & d1 & [-> ->]%latest_execution_run & Hr).
  destruct (running _) as [y|].
  - destruct (lease_live _ _); [by tx_inv|]. unfold _interrupt in Hr. by tx_inv.
  - tx_inv. read_runs. destruct (_execution_blocker _ _ _) as [[code text]|].
    + tx_inv. case_bool_decide;
        match goal with
        | H : _finish_cancelled _ _ _ _ _ _ _ _ _ _ = Ok _ |- _ =>
            apply finish_cancelled_run in H as [_ [Hc _]]
        | H : _finish_failed _ _ _ _ _ _ _ = Ok _ |- _ =>
            apply finish_failed_run in H as [_ [Hc _]]
        end; by core_tables Hc.
    + unfold _start_attempt in Hr. by tx_inv.
Qed.

(** One iteration: nothing handed out, or one attempt driven. *)
Lemma drive_cases t w d o w' d' :
  reachable cfg d ->
  drive cfg owner lease_seconds baseline t i (w, d) = (o, (w', d')) ->
  reachable cfg d' /\
  ((w' = w /\ executions d' = executions d /\ forall v, o <> Ok (Some v))
   \/ exists tk r r0 x d1 q good,
        remediations d !! i = Some r0
        /\ (tk_mode tk = RemediationService.execute
              /\ rm_execution_attempts r = rm_execution_attempts r0 + 1
            \/ rm_execution_attempts r = rm_execution_attempts r0
               /\ running (latest_of i (rows (executions d))) <> None)
        /\ open_ticket d1 tk r x /\ executions d1 = <[ex_id x := x]> (executions d)
        /\ settled good r x d1 q d'
        /\ (forall v, o = Ok (Some v) -> q = Ok v)
        /\ (tk_mode tk = reconcile /\ w' = (ex_inspect (tk_idempotency_key tk) w).2
              /\ (good -> exists res, (ex_inspect (tk_idempotency_key tk) w).1 = Ok (Some res)
                                      /\ res_succeeded res = true)
            \/ (w' = w \/ w' = (ex_execute (tn_stamp t) (request_of tk) w).2)
               /\ (good -> exists res, ex_execute (tn_stamp t) (request_of tk) w = (Ok res, w')
                                       /\ res_succeeded res = true))).
Proof.
  intros Hd. unfold drive. unfold mbind at 1, Prog_bind at 1.
  destruct (core_command _ (w, d)) as [claimed [w1 d1]] eqn:Ec.
  apply transact_run in Ec as [-> Ec].
  assert (reachable cfg d1) as Hd1.
  { eapply reachable_command; [exact Hd|].
    replace d1 with (claimed, d1).2 by done. rewrite <-Ec. apply rc_claim. }
  apply atomically_cases in Ec as [(tko & -> & Ec)|[[e ->] ->]]; cycle 1.
  { intros [= <- <- <-]. split; [done|]. left. done. }
  destruct tko as [tk|]; cycle 1.
  { intros [= <- <- <-]. split; [done|]. left. apply claim_nothing in Ec. done. }
  apply (claim_ticket cfg) in Ec
    as (r0 & r & x & Hr0 & Hid0 & Hr & Hid & Hs & _ & Hact & Hexes & Hxid & Hxi & Hkey & Hnum & Hmode);
    [|by apply reachable_Inv].
  assert (open_ticket d1 tk r x) as Hopen.
  { split_and!; try done; [by rewrite Hexes, lookup_insert_eq|].
    destruct Hmode as [(_ & -> & _)|(_ & -> & _)]; set_solver. }
  unfold attempt, mbind, Prog_bind, mret, Prog_ret, pure.
  match goal with |- context [if bool_decide (tk_mode tk = reconcile) then ?a else ?b] =>
    destruct ((if bool_decide (tk_mode tk = reconcile) then a else b) (w, d1))
      as [q [w2 d2]] eqn:Eq end.
  intros Hrun.
  assert (w' = w2 /\ d' = d2 /\ forall v, o = Ok (Some v) -> q = Ok v) as (-> & -> & Ho).
  { destruct q as [v|e]; simpl in Hrun; [|destruct (is_lease_lost e)]; simplify_eq; split_and!; try done.
    by intros ? [= <-]. }
  case_bool_decide as Hrec.
  - eapply reconcile_run in Eq as [Hw Hset]; [|exact Hopen].
    split; [apply Hset|]. right. exists tk, r, r0, x, d1, q.
    eexists. refine (conj Hr0 (conj _ (conj Hopen (conj _ (conj Hset (conj Ho _)))))); [|by rewrite Hxid|].
    + destruct Hmode as [(Hm & _)|(_ & _ & ? & ?)]; [congruence|by right].
    + left. by split.
  - eapply execute_run in Eq as [Hw Hset]; [|exact Hopen].
    split; [apply Hset|]. right. exists tk, r, r0, x, d1, q.
    eexists. refine (conj Hr0 (conj _ (conj Hopen (conj _ (conj Hset (conj Ho _)))))); [|by rewrite Hxid|].
    + destruct Hmode as [(? & _ & ?)|(? & _)]; [by left|done].
    + right. by split.
Qed.

(** ** The loop *)

(** An iteration after which the loop goes on has used an attempt up. *)
Lemma drive_again t w d v w' d' :
  reachable cfg d ->
  drive cfg owner lease_seconds baseline t i (w, d) = (Ok (Some v), (w', d')) ->
  rm_status (vw_row v) = R_EXECUTING ->
  reachable cfg d' /\ running (latest_of i (rows (executions d'))) = None
  /\ exists r r', remediations d !! i = Some r /\ remediations d' !! i = Some r'
       /\ rm_execution_attempts r' <= 1
       /\ (running (latest_of i (rows (executions d))) = None ->
           rm_execution_attempts r' = rm_execution_attempts r + 1)
       /\ (running (latest_of i (rows (executions d))) <> None -> 1 <= rm_execution_attempts r').
Proof.
  intros Hd Hrun Hv. pose proof Hrun as Hrun'.
  apply drive_cases in Hrun as [Hd' [(_ & _ & Ho)|(tk & r & r0 & x & d1 & q & good & Hr0 & Hmode & Hopen & Hexes & Hset & Ho & _)]];
    [by destruct (Ho v)| |done].
  split; [done|]. specialize (Ho v eq_refl) as ->.
  destruct Hset as [_ [[[e ?] _]|(v' & x' & [= <-] & Hrem & _ & _ & _ & Hatt & Hcase)]]; [done|].
  destruct Hcase as [(_ & _ & ?)|[_ [(_ & Hle & Hnone)|?]]]; try congruence.
  split; [done|]. exists r0, (vw_row v). split_and!; try done.
  - lia.
  - intros Hn. destruct Hmode as [[_ Heq]|[_ Hne]]; [lia|done].
  - intros Hne. pose proof (attempts_bound cfg _ _ _ (reachable_Inv _ _ Hd) Hr0).
    destruct Hmode as [[_ Heq]|[Heq _]]; [lia|].
    pose proof (running_attempts cfg _ _ _ (reachable_Inv _ _ Hd) Hr0 Hne). lia.
Qed.

Lemma run_loop_S turns n s :
  run_loop cfg owner lease_seconds baseline turns (S n) i s
  = match drive cfg owner lease_seconds baseline (turns O) i s with
    | (Ok (Some v), s') =>
        if bool_decide (rm_status (vw_row v) = R_EXECUTING)
        then run_loop cfg owner lease_seconds baseline (fun k => turns (S k)) n i s'
        else (Ok v, s')
    | (Ok None, s') => core_command (get i) s'
    | (Err e, s') => (Err e, s')
    end.
Proof.
  cbn [run_loop]. unfold mbind, Prog_bind.
  destruct (drive _ _ _ _ _ _ s) as [[[v|]|e] s']; try done. by case_bool_decide.
Qed.

(** From a state where nothing runs, the claims are bounded by the attempts left. *)
Lemma loop_quiet m : forall n turns w d,
  reachable cfg d -> running (latest_of i (rows (executions d))) = None ->
  (forall r, remediations d !! i = Some r -> 2 - rm_execution_attempts r <= Z.of_nat m) ->
  run_loop cfg owner lease_seconds baseline turns (S (m + n)) i (w, d)
  = run_loop cfg owner lease_seconds baseline turns (S m) i (w, d).
Proof.
  induction m as [|m IH]; intros n turns w d Hd Hrun Hm;
    rewrite (run_loop_S turns (_ + n)), (run_loop_S turns _);
    destruct (drive _ _ _ _ _ i (w, d)) as [[[v|]|e] [w' d']] eqn:E; try done;
    case_bool_decide as Hs; try done; destruct (drive_again _ _ _ _ _ _ Hd E Hs)
      as (Hd' & Hrun' & r & r' & Hr & Hr' & Hle & Hnext & _);
    specialize (Hm r Hr); specialize (Hnext Hrun).
  - lia.
  - apply IH; [done|done|]. intros r2 Hr2. assert (r2 = r') as -> by congruence. lia.
Qed.

Lemma loop_bounded n turns w d :
  reachable cfg d ->
  run_loop cfg owner lease_seconds baseline turns (S (2 + n)) i (w, d)
  = run_loop cfg owner lease_seconds baseline turns 3 i (w, d).
Proof.
  intros Hd. destruct (running (latest_of i (rows (executions d)))) as [y|] eqn:Hrun; cycle 1.
  { apply loop_quiet; [done|done|]. intros r Hr.
    pose proof (attempts_bound cfg _ _ _ (reachable_Inv _ _ Hd) Hr). lia. }
  rewrite (run_loop_S turns (2 + n)), (run_loop_S turns 2).
  destruct (drive _ _ _ _ _ i (w, d)) as [[[v|]|e] [w' d']] eqn:E; try done.
  case_bool_decide as Hs; [|done]. destruct (drive_again _ _ _ _ _ _ Hd E Hs)
      as (Hd' & Hrun' & r & r' & Hr & Hr' & Hle & _ & Hge).
  apply (loop_quiet 1); [done|done|]. intros r2 Hr2. assert (r2 = r') as -> by congruence.
  specialize (Hge ltac:(congruence)). lia.
Qed.

(** C35: the loop guard never ends a run.  In every reachable database a run stops by
    itself within three claims, whatever the executor answers and whatever was running
    before: any larger bound on the claims, such as the one of the code, gives the same
    run. *)
Theorem ten_claims_suffice n turns w d :
  reachable cfg d -> (3 <= n)%nat ->
  run_loop cfg owner lease_seconds baseline turns n i (w, d)
  = run cfg owner lease_seconds baseline turns i (w, d).
Proof.
  intros Hd Hn. etransitivity; [|symmetry; exact (loop_bounded 7 turns w d Hd)].
  replace n with (S (2 + (n - 3))) by lia. by apply loop_bounded.
Qed.
End Turns.

(** ** With the simulator as executor *)

Section Simulated.
Context {PY : Pydantic} {HA : Hashing} {TO : ServiceTopology} {DI : Digests} {RD : Redis}.
Context (cfg : ServiceConfig) (owner : string) (lease_seconds : Z).
Context (baseline : option (Turn -> ExecutionTicket -> Prog (ex_world (RemediationExecutor := simulator) * db) bool)).
Hypothesis baseline_observes : forall collect t tk w d r w' d',
  baseline = Some collect -> collect t tk (w, d) = (r, (w', d')) -> idle d d' /\ w' = w.
Context (i : uuid).

(** The executor has a record of success under the key. *)
Definition recorded (key : string) (s : keyspace) : Prop :=
  exists res, (inspect key s).1 = Ok (Some res) /\ res_succeeded res = true.

Lemma inspect_reads key s : (inspect key s).2 = s.
Proof.
  unfold inspect, redis_get, asks, pure, mbind, Prog_bind, mret, Prog_ret.
  destruct (GET _ s) as [raw|]; simpl; [|done].
  destruct (loads_opt raw) as [[j|]|]; simpl; [|done|done]. by destruct (result_from_json j).
Qed.

Lemma applied_inj k k' : APPLIED_KEY k = APPLIED_KEY k' -> k = k'.
Proof. apply append_inj_l. Qed.

Lemma bookkeeping_view k rq st r s1 :
  k <> rq_idempotency_key rq ->
  view (match RPUSH (OPS_LOG_KEY (rq_target_service rq)) (Doc (operation_entry st rq r))
                (SET (APPLIED_KEY (rq_idempotency_key rq)) (Doc (result_to_json r)) s1) with
        | Ok s2 => (Ok r, s2)
        | Err e => (Err e, SET (APPLIED_KEY (rq_idempotency_key rq)) (Doc (result_to_json r)) s1)
        end).2 !! APPLIED_KEY k = view s1 !! APPLIED_KEY k.
Proof.
  intros Hk. destruct (RPUSH _ _ _) as [s2|] eqn:E; simpl.
  - apply RPUSH_view in E as (l & _ & ->).
    rewrite lookup_insert_ne by (apply not_eq_sym, applied_not_ops).
    rewrite view_SET. apply lookup_insert_ne. by intros ?%applied_inj.
  - rewrite view_SET. apply lookup_insert_ne. by intros ?%applied_inj.
Qed.

Lemma handler_applied st environment p s k :
  view (handler st environment p s).2 !! APPLIED_KEY k = view s !! APPLIED_KEY k.
Proof.
  apply (handler_within st environment p). intros [Hin _].
  by destruct (environment_keys_bookkeeping _ _ k "" Hin).
Qed.

(** A record is kept by every later call. *)
Lemma recorded_kept key st rq s : recorded key s -> recorded key (execute st rq s).2.
Proof.
  intros (res & Hi & Hs). exists res. split; [|done].
  destruct (execute_cases st rq s) as [[-> _]|(p & (Hnone & _) & Hrun)]; [done|].
  rewrite (inspect_ext key s); [done|].
  destruct Hrun as [(e & s1 & Hh & ->)|(r & s1 & Hh & ->)];
    pose proof (handler_applied st (rq_environment rq) p s key) as Hv; rewrite Hh in Hv; [exact Hv|].
  rewrite bookkeeping_view; [exact Hv|]. intros ->. congruence.
Qed.

(** A call that reports success leaves its record. *)
Lemma success_recorded st rq s r s1 :
  execute st rq s = (Ok r, s1) -> res_succeeded r = true -> recorded (rq_idempotency_key rq) s1.
Proof.
  intros Hx Hs.
  destruct (execute_cases st rq s) as [[Hst [(q & H & Hq)|[(q & _ & H & Hq)|(e & H)]]]|(q & _ & Hrun)].
  - rewrite Hx in Hst, Hq. simpl in *. exists r. split; [|done]. subst s1. congruence.
  - rewrite Hx in Hq. simpl in Hq. assert (q = r) as -> by congruence. exfalso.
    unfold authorize in H. repeat case_match; simplify_eq; done.
  - by rewrite Hx in H.
  - destruct Hrun as [(e & s2 & _ & H)|(q' & s2 & Hh & H)]; rewrite Hx in H; [done|].
    destruct (RPUSH _ _ _) as [s3|] eqn:E; simplify_eq. apply RPUSH_view in E as (l & _ & E).
    exists q'. split; [|done].
    unfold inspect, redis_get, asks, pure, mbind, Prog_bind, mret, Prog_ret.
    rewrite GET_view, E, lookup_insert_ne, view_SET, lookup_insert_eq
      by (apply not_eq_sym, applied_not_ops).
    simpl. apply handler_detail in Hh. destruct q'; simpl in *. by rewrite Hh.
Qed.

(** Every success in [d'] was there before or is recorded. *)
Definition accounted (d : db) (s' : keyspace) (d' : db) : Prop :=
  forall k x, executions d' !! k = Some x -> ex_status x = X_SUCCEEDED ->
    executions d !! k = Some x \/ recorded (ex_idempotency_key x) s'.

Lemma drive_accounted t s d o s' d' :
  reachable cfg d ->
  drive (EX := simulator) cfg owner lease_seconds baseline t i (s, d) = (o, (s', d')) ->
  reachable cfg d' /\ accounted d s' d' /\ forall key, recorded key s -> recorded key s'.
Proof.
  intros Hd Hrun.
  eapply drive_cases in Hrun as [Hd' Hcase]; [|exact baseline_observes|exact Hd].
  split; [exact Hd'|]. destruct Hcase as [(-> & Hx & _)|Hcase].
  { split; [|done]. intros k x Hk _. left. by rewrite <-Hx. }
  destruct Hcase as (tk & r & r0 & x & d1 & q & good & _ & _ & Hopen & Hexes & Hset & _ & Hgood).
  assert ((good -> recorded (ex_idempotency_key x) s')
          /\ forall key, recorded key s -> recorded key s') as [Hrec Hkeep].
  { destruct Hopen as (_ & _ & _ & _ & _ & _ & _ & -> & _).
    destruct Hgood as [(_ & -> & Hg)|[Hw Hg]].
    - simpl in *. rewrite inspect_reads. split; [|done]. intros (res & ? & ?)%Hg. by exists res.
    - split.
      + intros (res & Hx & Hs)%Hg. by eapply success_recorded in Hx.
      + intros key Hk. destruct Hw as [-> | ->]; [done|]. by apply recorded_kept. }
  split; [|done]. intros k y Hk Hy.
  assert (forall y, executions d1 !! k = Some y -> ex_status y = X_SUCCEEDED ->
            executions d !! k = Some y) as Hold.
  { intros z Hz Hs. rewrite Hexes in Hz.
    apply lookup_insert_Some in Hz as [[<- <-]|[_ ?]]; [|done].
    destruct Hopen as (_ & _ & _ & _ & _ & _ & Hst & _). rewrite Hs in Hst. set_solver. }
  destruct Hset as [_ [(_ & _ & Hxs)|(v & x' & _ & _ & Hxs & Hsame & _ & _ & Hout)]];
    rewrite Hxs in Hk; [left; by apply Hold|].
  apply lookup_insert_Some in Hk as [[<- <-]|[_ Hk]]; [|left; by apply Hold].
  right. destruct Hsame as (_ & _ & _ & ->).
  destruct Hout as [(? & _)|[[?|?] _]]; [auto|congruence|congruence].
Qed.

Lemma get_reads s d o s' d' :
  core_command (EX := simulator) (get i) (s, d) = (o, (s', d')) -> d' = d /\ s' = s.
Proof.
  intros H. apply transact_run in H as [-> H]. split; [|done].
  apply atomically_cases in H as [(v & _ & H)|[_ ->]]; [|done].
  unfold get in H. tx_inv. by apply view_row in H as [_ ->].
Qed.

Lemma accounted_refl d s : accounted d s d.
Proof. intros k x Hk _. by left. Qed.

Lemma loop_accounted n : forall turns s d o s' d',
  reachable cfg d ->
  run_loop (EX := simulator) cfg owner lease_seconds baseline turns n i (s, d) = (o, (s', d')) ->
  accounted d s' d' /\ forall key, recorded key s -> recorded key s'.
Proof.
  induction n as [|n IH]; intros turns s d o s' d' Hd Hrun.
  { apply get_reads in Hrun as [-> ->]. split; [apply accounted_refl|done]. }
  rewrite run_loop_S in Hrun.
  destruct (drive _ _ _ _ _ i (s, d)) as [[[v|]|e] [s1 d1]] eqn:E;
    apply drive_accounted in E as (Hd1 & Hacc & Hkeep); try done.
  - case_bool_decide; [|simplify_eq; by split].
    destruct (IH _ _ _ _ _ _ Hd1 Hrun) as [Hacc' Hkeep']. split; [|auto].
    intros k x Hk Hs. destruct (Hacc' k x Hk Hs) as [Hold|]; [|by right].
    destruct (Hacc k x Hold Hs); [by left|right; auto].
  - apply get_reads in Hrun as [-> ->]. by split.
  - simplify_eq. by split.
Qed.

(** C10: executed means applied.  Whatever the runner reports of an attempt, the database
    calls it SUCCEEDED only if the executor has a record, under the idempotency key of
    that very attempt, that its action succeeded: a timeout, a crash, a refusal or a
    missing record never becomes a success. *)
Theorem executed_means_applied turns s d o s' d' k x :
  reachable cfg d ->
  run (EX := simulator) cfg owner lease_seconds baseline turns i (s, d) = (o, (s', d')) ->
  executions d' !! k = Some x -> ex_status x = X_SUCCEEDED ->
  executions d !! k = Some x \/ recorded (ex_idempotency_key x) s'.
Proof. intros Hd Hrun. by apply (loop_accounted _ _ _ _ _ _ _ Hd Hrun). Qed.
End Simulated.
