(* ===== verification/RemediationExample.v ===== *)
(** * A worked remediation

    Concrete instances of the interfaces and a run of the commands on them: the
    incident, its investigation and its report exist, a rollback is proposed,
    approved, claimed and settled. *)
From S2P Require Import Prelude PyFloat Json Enums VerificationDomain Catalog.
From S2P Require Import RemediationDomain InvestigationDomain Policy Store TxLogic RemediationLifecycle.
From S2P Require Import RemediationService RemediationProofs RemediationSafety.
Local Open Scope Z_scope.

#[export] Instance ex_hashing : Hashing := {| sha256_hex := fun s => s |}.
#[export] Instance ex_topology : ServiceTopology :=
  {| services := {["checkout"]}; neighborhood := fun _ => {["checkout"]} |}.
#[export] Instance ex_digests : Digests :=
  {| catalog_digest := "digest"; uuid5_url := fun _ => 7%N |}.

Definition ex_incident : IncidentRow :=
  {| i_id := 1; i_status := RCA_READY; i_severity := CRITICAL; i_service := "checkout";
     i_environment := "production"; i_correlation_key := "k"; i_attempt_count := 0;
     i_version := 1; i_created_at := 0; i_updated_at := 0; i_closed_at := None |}.

Definition ex_investigation : InvestigationRow :=
  {| inv_id := 2; inv_incident_id := 1; inv_attempt_number := 1; inv_status := I_COMPLETED;
     inv_model_provider := "anthropic"; inv_model_name := "model"; inv_model_config := JObj [];
     inv_budget := default_budget; inv_iteration_count := 4; inv_tool_call_count := 3;
     inv_evidence_count := 2; inv_input_tokens := 0; inv_output_tokens := 0;
     inv_cache_read_tokens := 0; inv_cache_creation_tokens := 0;
     inv_last_action := Some "completed"; inv_failure_reason := None;
     inv_escalation_reason := None; inv_inconclusive_reason := None;
     inv_selected_hypothesis_id := Some 4%N; inv_final_result := None; inv_lease_owner := None;
     inv_lease_expires_at := None; inv_created_at := 0; inv_started_at := Some 0;
     inv_completed_at := Some 0; inv_updated_at := 0 |}.

(** What the other services wrote before the proposal. *)
Definition ex_db0 : db :=
  empty_db <| uuid_supply := 10%N |>
    <| incidents := {[1%N := ex_incident]} |>
    <| investigations := {[2%N := ex_investigation]} |>
    <| rca_reports := {[3%N := {| rca_id := 3; rca_incident_id := 1; rca_investigation_id := 2;
         rca_root_cause_hypothesis_id := 4;
         rca_report := JObj [("root_cause_hypothesis", JObj [("component", JStr "checkout")])];
         rca_summary := ""; rca_generated_at := 0 |}]} |>.

Definition ex_proposal : RemediationProposal :=
  {| pr_incident_id := 1; pr_investigation_id := None; pr_action_id := "rollback_deployment";
     pr_parameters := [("service", JStr "checkout"); ("from_version", JStr "v2");
                       ("to_version", JStr "v1")];
     pr_reason := "bad deploy"; pr_expected_effect := "errors drop"; pr_source := "planner";
     pr_proposed_by := "planner" |}.

(** The state after a command, and its result. *)
Definition run {A} (m : Tx A) (d : db) : db := (atomically m d).2.

Definition ex_proposed : db := run (propose default_config 1000 ex_proposal "k1" None) ex_db0.
Definition ex_rid : uuid := 10.
Definition ex_row (d : db) : RemediationRow :=
  default (new_row 0 0 ex_incident ex_proposal "" None None) (remediations d !! ex_rid).

Definition ex_approved : db :=
  run (decide_approval 2000 ex_rid "alice" ["service_owner"] true
         (rm_proposal_hash (ex_row ex_proposed))
         (default 0%N (rm_policy_decision_id (ex_row ex_proposed))) None) ex_proposed.

Definition ex_claimed : db := run (claim_execution 3000 ex_rid "w1" 120) ex_approved.
Definition ex_execution : uuid :=
  match rows (executions ex_claimed) with x :: _ => ex_id x | [] => 0%N end.
Definition ex_executed : db :=
  run (complete_execution default_config 4000 ex_execution "w1" "succeeded" "sim" None None false)
    ex_claimed.


(** The worker [w1] dies; [w2] takes over to reconcile, then [w3] claims too. *)
Definition ex_later : instant := 3000 + seconds 400.
Definition ex_interrupted : db := run (claim_execution ex_later ex_rid "w2" 120) ex_claimed.

(** ** Reachability *)

Lemma ex_db0_reachable : reachable default_config ex_db0.
Proof. apply rtc_once, rt_other. split; [reflexivity|]. vm_compute. discriminate. Qed.

Lemma ex_proposed_reachable : reachable default_config ex_proposed.
Proof. eapply rtc_r; [apply ex_db0_reachable|apply rt_command, rc_propose]. Qed.

Lemma ex_approved_reachable : reachable default_config ex_approved.
Proof. eapply rtc_r; [apply ex_proposed_reachable|apply rt_command, rc_decide]. Qed.

Lemma ex_claimed_reachable : reachable default_config ex_claimed.
Proof. eapply rtc_r; [apply ex_approved_reachable|apply rt_command, rc_claim]. Qed.

Lemma ex_executed_reachable : reachable default_config ex_executed.
Proof. eapply rtc_r; [apply ex_claimed_reachable|apply rt_command, rc_complete]. Qed.

Lemma ex_interrupted_reachable : reachable default_config ex_interrupted.
Proof. eapply rtc_r; [apply ex_claimed_reachable|apply rt_command, rc_claim]. Qed.

Lemma ex_executed_row : remediations ex_executed !! ex_rid = Some (ex_row ex_executed).
Proof. vm_compute. reflexivity. Qed.

Lemma ex_executed_status : rm_status (ex_row ex_executed) = R_EXECUTED.
Proof. vm_compute. reflexivity. Qed.

(** ** Witnesses *)

Lemma licensed_means_permitted_and_approved_witness :
  rm_status (ex_row ex_executed) = R_EXECUTED
  /\ exists a, approval_of ex_executed ex_rid = Some a /\ ap_decision a = approved.
Proof.
  split; [exact ex_executed_status|].
  assert (rm_status (ex_row ex_executed) ∈ [R_APPROVED; R_EXECUTING; R_EXECUTED]) as Hs
    by (rewrite ex_executed_status; set_solver).
  destruct (licensed_means_permitted_and_approved default_config ex_executed ex_rid
              (ex_row ex_executed) ex_executed_reachable ex_executed_row Hs)
    as (dec & a & p & _ & Ha & (Hd & _) & _).
  exists a. split; assumption.
Defined.

Lemma lifecycle_only_moves_forward_witness :
  exists r', remediations ex_executed !! ex_rid = Some r'
    /\ proposal_cols r' = proposal_cols (ex_row ex_claimed).
Proof.
  assert (remediations ex_claimed !! ex_rid = Some (ex_row ex_claimed)) as Hr
    by (vm_compute; reflexivity).
  assert (rtc (remediation_step default_config) ex_claimed ex_executed) as Hrun
    by (apply rtc_once, rt_command, rc_complete).
  destruct (lifecycle_only_moves_forward default_config ex_claimed ex_executed ex_rid _
              ex_claimed_reachable Hrun Hr) as (r' & H1 & H2 & _).
  exists r'. split; assumption.
Defined.

Lemma attempts_are_bounded_witness :
  rm_execution_attempts (ex_row ex_executed) = 1
  /\ rm_status (ex_row ex_executed) ∈ [R_EXECUTING; R_EXECUTED; R_FAILED; R_CANCELLED].
Proof.
  assert (rm_execution_attempts (ex_row ex_executed) = 1) as E by (vm_compute; reflexivity).
  split; [exact E|].
  apply (attempts_are_bounded default_config ex_executed ex_rid (ex_row ex_executed)
           ex_executed_reachable ex_executed_row). rewrite E. reflexivity.
Defined.

Lemma executed_iff_verification_witness :
  exists v, verification_for ex_rid ex_executed = Some v.
Proof.
  apply (executed_iff_verification default_config ex_executed ex_rid (ex_row ex_executed)
           ex_executed_reachable ex_executed_row). exact ex_executed_status.
Defined.

(** A reconciliation in progress does not keep other workers out.  In a
    reachable state the worker [w2] holds a live lease on the interrupted attempt,
    to ask the executor what happened to it, and a claim by [w3] at the same moment
    is answered with a fresh attempt to execute. *)
Theorem reconcile_lease_not_respected :
  reachable default_config ex_interrupted
  /\ rm_lease_owner (ex_row ex_interrupted) = Some "w2"
  /\ lease_live ex_later (ex_row ex_interrupted) = true
  /\ exists t d', claim_execution ex_later ex_rid "w3" 120 ex_interrupted = Ok (Some t, d')
     /\ tk_mode t = execute /\ tk_attempt t = 2
     /\ rm_lease_owner (ex_row d') = Some "w3".
Proof.
  split; [exact ex_interrupted_reachable|].
  split; [vm_compute; reflexivity|]. split; [vm_compute; reflexivity|].
  destruct (claim_execution ex_later ex_rid "w3" 120 ex_interrupted) as [[[t|] d']|e] eqn:E.
  - exists t, d'. split; [reflexivity|].
    assert (match claim_execution ex_later ex_rid "w3" 120 ex_interrupted with
            | Ok (Some t, d') => tk_mode t = execute /\ tk_attempt t = 2
                                 /\ rm_lease_owner (ex_row d') = Some "w3"
            | _ => False end) as H by (vm_compute; split_and!; reflexivity).
    rewrite E in H. exact H.
  - assert (match claim_execution ex_later ex_rid "w3" 120 ex_interrupted with
            | Ok (Some _, _) => true | _ => false end = true) as H by (vm_compute; reflexivity).
    rewrite E in H. discriminate.
  - assert (match claim_execution ex_later ex_rid "w3" 120 ex_interrupted with
            | Ok (Some _, _) => true | _ => false end = true) as H by (vm_compute; reflexivity).
    rewrite E in H. discriminate.
Qed.
