(* ===== verification/RemediationProgress.v ===== *)
(** * Progress and pre-execution checks of the remediation commands

    What a claimed ticket guarantees, and commands that always go through:
    an expired approval is always cancelled, an engaged kill switch always stops
    the next attempt, and a repeated proposal or approval changes nothing.  History is only
    appended. *)
From S2P Require Import Prelude PyFloat Json Enums VerificationDomain Catalog.
From S2P Require Import RemediationDomain Policy Store TxLogic RemediationLifecycle.
From S2P Require Import RemediationService RemediationProofs RemediationSafety.
From S2P Require Import RemediationExample.
Local Open Scope Z_scope.

(** The incidents table, which only [_move_incident] touches. *)
Definition same_incidents : relation db := fun d d' => incidents d' = incidents d.
#[export] Instance same_incidents_preorder : PreOrder same_incidents.
Proof. split; [done|]. intros ? ? ? H1 H2. unfold same_incidents in *. congruence. Qed.

Lemma inc_writes f : (forall d, incidents (f d) = incidents d) -> relates same_incidents (writes f).
Proof. intros Hf. by apply relates_writes. Qed.
Lemma inc_uuid4 : relates same_incidents uuid4.
Proof. by intros d a d' [-> ->]%uuid4_Ok. Qed.
Lemma inc_put_remediation r : relates same_incidents (put_remediation r).
Proof. by apply inc_writes. Qed.
#[export] Hint Resolve inc_writes inc_uuid4 inc_put_remediation : relates.
#[export] Hint Extern 1 (forall d, incidents _ = incidents d) => intros; reflexivity : relates.

Section Incidents.
Context {PY : Pydantic} {HA : Hashing} {TO : ServiceTopology} {DI : Digests}.

Lemma inc_outbox now et at_ ai ci p : relates same_incidents (insert_outbox_event now et at_ ai ci p).
Proof. unfold insert_outbox_event. relates_auto. Qed.
Lemma inc_timeline now row e f t a j v : relates same_incidents (_timeline now row e f t a j v).
Proof. unfold _timeline. relates_auto. Qed.
Lemma inc_event now row e a o : relates same_incidents (_event now row e a o).
Proof.
  unfold _event. apply relates_bind; [typeclasses eauto|apply relates_reads; typeclasses eauto|].
  intros. apply inc_outbox.
Qed.
Lemma inc_insert_approval a : relates same_incidents (insert_approval a).
Proof. unfold insert_approval. relates_auto. Qed.

Lemma inc_transition now row to e a j v : relates same_incidents (_transition now row to e a j v).
Proof.
  unfold _transition. destruct (can_transition _ _); [|apply relates_raise].
  apply relates_bind; [typeclasses eauto|apply inc_put_remediation|intros _].
  apply relates_bind; [typeclasses eauto|apply inc_timeline|intros _].
  apply relates_ret. typeclasses eauto.
Qed.

Lemma total_timeline now row e f t a j v d : total (_timeline now row e f t a j v) d.
Proof. apply total_writes. Qed.
Lemma total_event now row e a o d : total (_event now row e a o) d.
Proof. unfold _event. apply total_bind; [apply total_reads|]. intros. apply total_outbox. Qed.
Lemma total_view row d : total (_view row) d.
Proof. apply total_reads. Qed.

Lemma total_transition now row to e a j v d :
  can_transition (rm_status row) to = true -> total (_transition now row to e a j v) d.
Proof.
  intros Hc. unfold _transition. rewrite Hc. by eexists _, _.
Qed.

(** The incident after [_move_incident]. *)
Definition moved (now : instant) (inc : IncidentRow) (from : list IncidentStatus)
    (to : IncidentStatus) : IncidentRow :=
  if bool_decide (i_status inc ∈ from)
  then inc <| i_status := to |> <| i_version := i_version inc + 1 |> <| i_updated_at := now |>
  else inc.

Lemma move_incident_total now inc from to r d :
  incidents d !! i_id inc = Some inc ->
  exists d', _move_incident now inc from to r d = Ok ((), d')
    /\ incidents d' !! i_id inc = Some (moved now inc from to) /\ core_of d' = set_next (uuid_supply d') (core_of d).
Proof.
  intros Hi. unfold _move_incident, moved. case_bool_decide as Hs.
  - unfold transition_with_event, transition_incident_status.
    eexists. split; [|split].
    + unfold mbind, Tx_bind, reads. rewrite Hi, Z.eqb_refl. reflexivity.
    + simpl. by rewrite lookup_insert_eq.
    + done.
  - exists d. split_and!; [done|done|by destruct d].
Qed.

Lemma finish_cancelled_total now row inc e a r to et dec d :
  can_transition (rm_status row) R_CANCELLED = true -> incidents d !! i_id inc = Some inc ->
  exists row' d', _finish_cancelled now row inc e a r to et dec d = Ok (row', d')
    /\ incidents d' !! i_id inc
       = Some (moved now inc [AWAITING_APPROVAL; REMEDIATION_IN_PROGRESS] to).
Proof.
  intros Hc Hi. unfold _finish_cancelled.
  match goal with |- context [_transition now ?r1 R_CANCELLED e a ?j None] =>
    destruct (total_transition now r1 R_CANCELLED e a j None d Hc) as (row2 & d1 & H1);
    pose proof (inc_transition _ _ _ _ _ _ _ _ _ _ H1) as Hi1 end.
  destruct (total_event now row2 et a dec d1) as ([] & d2 & H2).
  pose proof (inc_event _ _ _ _ _ _ _ _ H2) as Hi2. unfold same_incidents in *.
  assert (incidents d2 !! i_id inc = Some inc) as Hi'
    by (rewrite Hi2, Hi1; exact Hi).
  destruct (move_incident_total now inc [AWAITING_APPROVAL; REMEDIATION_IN_PROGRESS] to
              ("remediation_" +++ e) d2 Hi') as (d3 & H3 & Hm & _).
  exists row2, d3. split; [|exact Hm].
  apply bind_Ok. exists row2, d1. split; [exact H1|].
  apply bind_Ok. exists (), d2. split; [exact H2|].
  apply bind_Ok. exists (), d3. split; [exact H3|done].
Qed.
End Incidents.

Section Progress.
Context {PY : Pydantic} {HA : Hashing} {TO : ServiceTopology} {DI : Digests}.
Context (cfg : ServiceConfig).

Lemma awaiting_facts d i r :
  reachable cfg d -> remediations d !! i = Some r -> rm_status r = R_AWAITING_APPROVAL ->
  rm_id r = i /\ apps_of (core_of d) i = ∅ /\ exists pid, rm_policy_decision_id r = Some pid.
Proof.
  intros Hd Hi Hs. destruct (row_of_reachable _ _ _ _ Hd Hi) as [Hok Hid].
  destruct Hok as (_ & _ & (dec & _ & (Hp & _) & _ & Ha & _) & _).
  split_and!; [done| |eauto]. rewrite <-Hid. apply Ha. rewrite Hs. set_solver.
Qed.

(** Silence is never consent.  In every reachable database, expiring a
    remediation that awaits approval goes through: it is cancelled, a timed-out
    approval row bound to its proposal is recorded, and its incident, if still
    waiting, is escalated. *)
Theorem expiry_cancels_and_escalates now d i r inc :
  reachable cfg d -> remediations d !! i = Some r -> rm_status r = R_AWAITING_APPROVAL ->
  incidents d !! rm_incident_id r = Some inc -> i_id inc = rm_incident_id r ->
  exists d', expire_one cfg now i d = Ok (Some i, d')
    /\ rm_status <$> remediations d' !! i = Some R_CANCELLED
    /\ (exists a, approval_of d' i = Some a /\ ap_decision a = timed_out
                  /\ ap_proposal_hash a = rm_proposal_hash r)
    /\ incidents d' !! rm_incident_id r
       = Some (moved now inc [AWAITING_APPROVAL; REMEDIATION_IN_PROGRESS] ESCALATED).
Proof.
  intros Hd Hi Hs Hinc Hkey.
  destruct (awaiting_facts _ _ _ Hd Hi Hs) as (Hid & Hnone & pid & Hpid).
  set (a := {| ap_id := uuid_supply d; ap_remediation_id := rm_id r;
               ap_policy_decision_id := pid; ap_proposal_hash := rm_proposal_hash r;
               ap_decision := timed_out; ap_approver := "system:approval-timeout";
               ap_approver_role := None; ap_comment := None; ap_decided_at := now |}).
  set (d1 := d <| uuid_supply ::= N.succ |>).
  set (d2 := d1 <| approvals ::= <[ap_id a := a]> |>).
  assert (insert_approval a d1 = Ok ((), d2)) as Hins.
  { apply bind_Ok. exists None, d1. split; [|done]. unfold reads. do 2 f_equal.
    apply (approval_of_None d1). simpl. rewrite Hid. exact Hnone. }
  destruct (finish_cancelled_total now (r <| rm_approval_status := Some "timed_out" |>) inc
              "approval_timed_out" "system:approval-timeout"
              ("no approval within " +++ str_timedelta (cfg_approval_timeout cfg))
              ESCALATED "RemediationCancelled" None d2) as (row' & d' & Hf & Hm).
  { simpl. by rewrite Hs. } { simpl. by rewrite Hkey. }
  pose proof (finish_cancelled_run _ _ _ _ _ _ _ _ _ _ _ _ Hf) as [(Hk & _ & Hs' & _) [Hc _]].
  exists d'. split_and!.
  - unfold expire_one, _lock, _lock_incident. unfold mbind, Tx_bind, reads, must, uuid4.
    rewrite Hi. simpl. rewrite bool_decide_eq_true_2 by done. simpl. rewrite Hinc, Hpid. simpl.
    fold d1. change (insert_approval _ d1) with (insert_approval a d1). rewrite Hins.
    by rewrite Hf.
  - assert (remediations d' = <[rm_id row' := row']> (remediations d)) as ->
      by (injection Hc; done).
    rewrite (kept_id _ _ Hk). simpl. rewrite Hid, lookup_insert_eq. simpl. by rewrite Hs'.
  - exists a. split; [|done]. apply (find_about_singleton ap_remediation_id _ i (ap_id a)).
    assert (approvals d' = <[ap_id a := a]> (approvals d)) as -> by (injection Hc; done).
    rewrite about_insert_eq by done. change (about _ i (approvals d)) with (apps_of (core_of d) i).
    by rewrite Hnone.
  - by rewrite <-Hkey.
Qed.

(** A kill switch stops the next attempt.  Claiming an approved remediation,
    or the next attempt of an executing one, while the global switch or the
    switch of its service is engaged cancels it, escalates its incident and
    hands out nothing. *)
Theorem kill_switch_stops_execution now d i owner lease r inc :
  reachable cfg d -> remediations d !! i = Some r ->
  rm_status r = R_APPROVED
    \/ rm_status r = R_EXECUTING /\ running (latest_of i (rows (executions d))) = None ->
  switched_off d (rm_target_service r) = true ->
  incidents d !! rm_incident_id r = Some inc -> i_id inc = rm_incident_id r ->
  exists d', claim_execution now i owner lease d = Ok (None, d')
    /\ rm_status <$> remediations d' !! i = Some R_CANCELLED
    /\ executions d' = executions d
    /\ incidents d' !! rm_incident_id r
       = Some (moved now inc [AWAITING_APPROVAL; REMEDIATION_IN_PROGRESS] ESCALATED).
Proof.
  intros Hd Hi Hs Hoff Hinc Hkey.
  destruct (row_of_reachable _ _ _ _ Hd Hi) as [Hok Hid].
  assert (running (latest_of (rm_id r) (rows (executions d))) = None) as Hrun.
  { destruct Hs as [Hs|[_ Hrun]]; [|by rewrite Hid].
    destruct (latest_of _ _) as [x|] eqn:El; [|done]. exfalso.
    destruct (latest_in_table cfg _ _ _ (reachable_Inv _ _ Hd) El) as [Hx Hxi].
    destruct Hok as (_ & _ & _ & (_ & _ & Hz & Hb & _) & _).
    assert (exes_of (core_of d) (rm_id r) !! ex_id x = Some x) as Hin by by apply about_Some.
    apply Hb in Hin. rewrite Hz in Hin by (rewrite Hs; set_solver). lia. }
  destruct (finish_cancelled_total now r inc "cancelled" "system:kill-switch"
              "remediation kill switch engaged before execution" ESCALATED
              "RemediationCancelled" None d) as (row' & d' & Hf & Hm).
  { by destruct Hs as [-> |[-> _]]. } { by rewrite Hkey. }
  pose proof (finish_cancelled_run _ _ _ _ _ _ _ _ _ _ _ _ Hf) as [(Hk & _ & Hs' & _) [Hc _]].
  exists d'. split_and!.
  - unfold claim_execution, _lock, _lock_incident, _latest_execution, _execution_blocker.
    unfold mbind, Tx_bind, reads, must. rewrite Hi. cbn [mret Tx_ret].
    rewrite bool_decide_eq_true_2 by (destruct Hs as [-> |[-> _]]; set_solver).
    cbn [negb]. unfold mret, Tx_ret. rewrite Hrun, Hinc, Hoff.
    rewrite bool_decide_eq_true_2 by done. by rewrite Hf.
  - assert (remediations d' = <[rm_id row' := row']> (remediations d)) as ->
      by (injection Hc; done).
    rewrite (kept_id _ _ Hk), Hid, lookup_insert_eq. simpl. by rewrite Hs'.
  - injection Hc. done.
  - by rewrite <-Hkey.
Qed.

Lemma blocker_None d r e :
  get_entry (rm_action_id r) = Some e -> _execution_blocker d r (Some e) = None ->
  switched_off d (rm_target_service r) = false /\ bound_approval d r = true
  /\ rm_catalog_version r = CATALOG_VERSION /\ (validate e (rm_parameters r)).2 = []
  /\ rm_target_service r ∈ services /\ rm_execution_attempts r < max_attempts e.
Proof.
  unfold _execution_blocker. intros He Eb.
  destruct (switched_off _ _); [done|]. destruct (bound_approval _ _); [|done].
  case_bool_decide; [|done]. case_bool_decide; [|done]. case_bool_decide; [|done].
  destruct (Z.leb_spec (max_attempts e) (rm_execution_attempts r)); [done|]. by split_and!.
Qed.

(** The attempt a started execution hands out. *)
Definition handed (now : instant) (r r' : RemediationRow) (e : ActionCatalogEntry)
    (owner : string) (t : ExecutionTicket) : Prop :=
  vw_row (tk_remediation t) = r'
  /\ rm_status r' = R_EXECUTING /\ rm_lease_owner r' = Some owner
  /\ tk_mode t = execute
  /\ tk_attempt t = rm_execution_attempts r + 1
  /\ tk_idempotency_key t = str_uuid (rm_id r) +++ ":" +++ str_Z (tk_attempt t)
  /\ tk_deadline t = now + seconds (timeout_seconds e)
  /\ exists until, rm_lease_expires_at r' = Some until /\ tk_deadline t + seconds 30 <= until.

Lemma start_attempt_run now r e owner lease d v d' :
  _start_attempt now r e owner lease d = Ok (v, d') ->
  exists t r' x, v = Some t /\ handed now r r' e owner t
    /\ remediations d' !! rm_id r = Some r'
    /\ executions d' !! tk_execution_id t = Some x /\ ex_status x = X_RUNNING.
Proof.
  unfold _start_attempt, insert_execution, put_execution, _ticket, _view. intros Hr. tx_inv.
  match goal with H : (if ?b then _ else _) _ = Ok _ |- _ => destruct b; [by tx_inv|] end.
  match goal with H : (if ?b then _ else _) _ = Ok _ |- _ => destruct b; [by tx_inv|] end.
  tx_inv. transition_runs. idle_runs. pose proof (put_rem_idle _ _ _ _ Heff Hidle) as [Hc _].
  match type of Hc with core_of ?d2 = _ =>
    assert (remediations d2 = c_rems (core_of d2) /\ executions d2 = c_exes (core_of d2))
      as [Hrm Hex] by done; rewrite Hc in Hrm, Hex end.
  eexists _, _, _. split; [reflexivity|]. split; [|split; [|split]].
  - unfold handed. do 7 (split; [reflexivity|]). eexists. split; [reflexivity|].
    cbn [tk_deadline ex_deadline_at]. unfold seconds. lia.
  - rewrite Hrm. simpl. apply lookup_insert_eq.
  - rewrite Hex. simpl. apply lookup_insert_eq.
  - done.
Qed.

(** What an execution ticket certifies.  Whoever is handed an attempt to
    execute has, at that moment: no kill switch engaged, an approval bound to the
    exact proposal and decision, a current catalog entry that accepts the
    parameters, a known target and an attempt left; and the attempt is numbered
    next, keyed to the remediation, and leased beyond its deadline. *)
Theorem execute_ticket_certifies now i owner lease d t d' :
  claim_execution now i owner lease d = Ok (Some t, d') -> tk_mode t = execute ->
  exists r e r' x,
    remediations d !! i = Some r /\ rm_status r ∈ [R_APPROVED; R_EXECUTING]
    /\ get_entry (rm_action_id r) = Some e
    /\ (switched_off d (rm_target_service r) = false /\ bound_approval d r = true
        /\ rm_catalog_version r = CATALOG_VERSION /\ (validate e (rm_parameters r)).2 = []
        /\ rm_target_service r ∈ services /\ rm_execution_attempts r < max_attempts e)
    /\ handed now r r' e owner t
    /\ remediations d' !! rm_id r = Some r'
    /\ executions d' !! tk_execution_id t = Some x /\ ex_status x = X_RUNNING.
Proof.
  unfold claim_execution, _latest_execution. intros Hr Hmode. tx_inv. read_runs.
  case_bool_decide as Hs; simpl in Hr; [|by tx_inv]. tx_inv.
  destruct (running _) as [y|].
  { destruct (lease_live _ _); [by tx_inv|]. unfold _interrupt, _ticket in Hr. by tx_inv. }
  tx_inv. read_runs. destruct (_execution_blocker _ _ _) as [[code text]|] eqn:Eb; [by tx_inv|].
  tx_inv. match goal with H : get_entry _ = Some _ |- _ => rename H into He end.
  rewrite He in Eb. apply (blocker_None _ _ _ He) in Eb.
  apply start_attempt_run in Hr as (t' & r' & z & Ht & Hh & Hrm & Hz). simplify_eq.
  eexists _, _, r', z. repeat (split; [eassumption|]). exact Hz.
Qed.

(** Proposing is idempotent per incident and key: a repeated proposal, whatever
    it says, returns the recorded remediation and changes nothing. *)
Theorem propose_is_idempotent now p key corr d i r inc :
  reachable cfg d -> remediations d !! i = Some r ->
  rm_incident_id r = pr_incident_id p -> rm_idempotency_key r = key ->
  incidents d !! pr_incident_id p = Some inc ->
  exists v, propose cfg now p key corr d = Ok (v, d) /\ vw_row v = r.
Proof.
  intros Hd Hi Hinc Hkey Hl.
  assert (List.find (by_key (pr_incident_id p) key) (rows (remediations d)) = Some r) as Hf.
  { destruct (List.find _ _) as [s|] eqn:E.
    - apply find_rows_Some in E as [[j Hj] Hb]. unfold by_key in Hb.
      apply andb_true_iff in Hb as [H1%bool_decide_eq_true H2%bool_decide_eq_true].
      assert (i = j) as <- by
        (eapply (inv_unique _ _ (reachable_Inv _ _ Hd) _ _ r s); eauto; congruence).
      congruence.
    - pose proof (find_rows_None _ _ _ _ E Hi) as Hb. unfold by_key in Hb.
      by rewrite !bool_decide_eq_true_2 in Hb. }
  eexists. split.
  - unfold propose, _lock_incident, mbind, Tx_bind, reads, must. rewrite Hl. cbn [mret Tx_ret].
    unfold mret, Tx_ret. rewrite Hf. reflexivity.
  - done.
Qed.

(** One decision per remediation.  Once a remediation has an approval row, a
    repetition of the same decision returns its state and changes nothing, and any
    other decision is refused. *)
Theorem second_decision_refused now i approver roles approve hash pid comment d r a :
  remediations d !! i = Some r -> approval_of d i = Some a ->
  decide_approval now i approver roles approve hash pid comment d =
    if same_decision a approver (if approve then approved else rejected) hash
    then _view r d
    else Err (RemediationStateError
      ("remediation " +++ str_uuid i +++ " already has a decision ("
         +++ ApprovalDecision_value (ap_decision a) +++ ")")).
Proof.
  intros Hi Ha. unfold decide_approval, _lock, mbind, Tx_bind, reads, must. rewrite Hi.
  cbn [mret Tx_ret]. unfold mret, Tx_ret. rewrite Ha. by destruct (same_decision _ _ _ _).
Qed.

(** The outcome of an attempt.  Only the lease holder can settle an open
    attempt; success makes the remediation EXECUTED, a failure is retried exactly
    when the action is retry-safe, the failure retryable and an attempt left, and
    is final otherwise. *)
Theorem completion_settles now xid owner outcome executor res err retryable d v d' r x :
  reachable cfg d -> executions d !! xid = Some x ->
  remediations d !! ex_remediation_id x = Some r -> rm_status r = R_EXECUTING ->
  ex_status x ∈ [X_RUNNING; X_UNKNOWN] ->
  complete_execution cfg now xid owner outcome executor res err retryable d = Ok (v, d') ->
  rm_lease_owner r = Some owner
  /\ exists r', remediations d' !! ex_remediation_id x = Some r'
    /\ rm_status r' = (if bool_decide (outcome = "succeeded") then R_EXECUTED
                       else if can_retry (get_entry (rm_action_id r)) retryable
                                 (rm_execution_attempts r)
                            then R_EXECUTING else R_FAILED).
Proof.
  intros Hd Hx Hi Hs Hxs Hr. destruct (row_of_reachable _ _ _ _ Hd Hi) as [_ Hid].
  unfold complete_execution in Hr. tx_inv. read_runs. simplify_eq.
  rewrite bool_decide_eq_true_2 in Hr by done. simpl in Hr.
  case_bool_decide as Ho; simpl in Hr; [|by tx_inv]. split; [done|].
  rewrite bool_decide_eq_true_2 in Hr by done. simpl in Hr. tx_inv. read_runs.
  case_bool_decide as Hout.
  - match goal with H : _settle_success _ _ _ _ _ _ _ _ _ = Ok _ |- _ =>
      apply settle_success_run in H as (w & x' & _ & _ & Hk & Hs' & _ & _ & _ & _ & [Hc _]) end.
    eexists. split; [|exact Hs'].
    match type of Hc with core_of ?d2 = _ =>
      change (remediations d2) with (c_rems (core_of d2)) end.
    rewrite Hc. simpl. rewrite (kept_id _ _ Hk). simpl. rewrite Hid. apply lookup_insert_eq.
  - match goal with H : _settle_failure _ _ _ _ _ _ _ _ _ = Ok _ |- _ =>
      apply settle_failure_run in H as (x' & _ & _ & Hk & Hs' & _ & _ & [Hc _]); [|done] end.
    eexists. split.
    + match type of Hc with core_of ?d2 = _ =>
        change (remediations d2) with (c_rems (core_of d2)) end.
      rewrite Hc. simpl. rewrite (kept_id _ _ Hk). simpl. rewrite Hid. apply lookup_insert_eq.
    + simpl in Hs'. destruct Hs' as [[-> ->]|[-> ->]]; done.
Qed.
End Progress.

(** ** Witnesses *)

Definition ex_inc (d : db) : IncidentRow := default ex_incident (incidents d !! 1%N).

Lemma expiry_cancels_and_escalates_witness :
  rm_status (ex_row ex_proposed) = R_AWAITING_APPROVAL
  /\ exists d', expire_one default_config 9000 ex_rid ex_proposed = Ok (Some ex_rid, d').
Proof.
  assert (remediations ex_proposed !! ex_rid = Some (ex_row ex_proposed)) as H1
    by (vm_compute; reflexivity).
  assert (rm_status (ex_row ex_proposed) = R_AWAITING_APPROVAL) as H2 by (vm_compute; reflexivity).
  assert (incidents ex_proposed !! rm_incident_id (ex_row ex_proposed) = Some (ex_inc ex_proposed))
    as H3 by (vm_compute; reflexivity).
  assert (i_id (ex_inc ex_proposed) = rm_incident_id (ex_row ex_proposed)) as H4
    by (vm_compute; reflexivity).
  split; [exact H2|].
  destruct (expiry_cancels_and_escalates default_config 9000 ex_proposed ex_rid _ _
              ex_proposed_reachable H1 H2 H3 H4) as (d' & H & _).
  exists d'. exact H.
Defined.

Definition ex_switched : db :=
  run (set_kill_switch 2500 "global" true "ops" None) ex_approved.

Lemma ex_switched_reachable : reachable default_config ex_switched.
Proof. eapply rtc_r; [apply ex_approved_reachable|apply rt_command, rc_switch]. Qed.

Lemma kill_switch_stops_execution_witness :
  switched_off ex_switched "checkout" = true
  /\ exists d', claim_execution 3000 ex_rid "w1" 120 ex_switched = Ok (None, d').
Proof.
  assert (remediations ex_switched !! ex_rid = Some (ex_row ex_switched)) as H1
    by (vm_compute; reflexivity).
  assert (rm_status (ex_row ex_switched) = R_APPROVED) as H2 by (vm_compute; reflexivity).
  assert (switched_off ex_switched (rm_target_service (ex_row ex_switched)) = true) as H3
    by (vm_compute; reflexivity).
  assert (incidents ex_switched !! rm_incident_id (ex_row ex_switched) = Some (ex_inc ex_switched))
    as H4 by (vm_compute; reflexivity).
  assert (i_id (ex_inc ex_switched) = rm_incident_id (ex_row ex_switched)) as H5
    by (vm_compute; reflexivity).
  split; [vm_compute; reflexivity|].
  destruct (kill_switch_stops_execution default_config 3000 ex_switched ex_rid "w1" 120 _ _
              ex_switched_reachable H1 (or_introl H2) H3 H4 H5) as (d' & H & _).
  exists d'. exact H.
Defined.

(** The ticket [w1] gets. *)
Definition ticket_of (r : result (option ExecutionTicket * db)) : option ExecutionTicket :=
  match r with Ok (t, _) => t | Err _ => None end.

Lemma execute_ticket_certifies_witness :
  exists t, ticket_of (claim_execution 3000 ex_rid "w1" 120 ex_approved) = Some t
    /\ tk_attempt t = 1 /\ tk_deadline t = 3000 + seconds 300.
Proof.
  destruct (claim_execution 3000 ex_rid "w1" 120 ex_approved) as [[[t|] d']|e] eqn:E.
  - assert (tk_mode <$> ticket_of (claim_execution 3000 ex_rid "w1" 120 ex_approved)
            = Some execute) as Hm by (vm_compute; reflexivity).
    rewrite E in Hm. cbn in Hm. injection Hm as Hm.
    destruct (execute_ticket_certifies 3000 ex_rid "w1" 120 ex_approved t d' E Hm)
      as (r & e & r' & x & Hr & _ & He & _ & Hh & _).
    assert (remediations ex_approved !! ex_rid = Some (ex_row ex_approved)) as H1
      by (vm_compute; reflexivity).
    assert (get_entry (rm_action_id (ex_row ex_approved)) = Some entry_rollback_deployment) as H2
      by (vm_compute; reflexivity).
    assert (rm_execution_attempts (ex_row ex_approved) = 0) as H3 by (vm_compute; reflexivity).
    assert (r = ex_row ex_approved) as -> by congruence.
    assert (e = entry_rollback_deployment) as -> by congruence.
    destruct Hh as (_ & _ & _ & _ & Ha & _ & Hd & _).
    exists t. split; [reflexivity|]. split; [rewrite Ha, H3; reflexivity|exact Hd].
  - assert (is_Some (ticket_of (claim_execution 3000 ex_rid "w1" 120 ex_approved))) as [t Ht]
      by (vm_compute; eauto). rewrite E in Ht. discriminate.
  - assert (is_Some (ticket_of (claim_execution 3000 ex_rid "w1" 120 ex_approved))) as [t Ht]
      by (vm_compute; eauto). rewrite E in Ht. discriminate.
Defined.

Lemma propose_is_idempotent_witness :
  exists v, propose default_config 5000 ex_proposal "k1" None ex_executed = Ok (v, ex_executed)
    /\ rm_status (vw_row v) = R_EXECUTED.
Proof.
  assert (rm_incident_id (ex_row ex_executed) = pr_incident_id ex_proposal) as H1
    by (vm_compute; reflexivity).
  assert (rm_idempotency_key (ex_row ex_executed) = "k1") as H2 by (vm_compute; reflexivity).
  assert (incidents ex_executed !! pr_incident_id ex_proposal = Some (ex_inc ex_executed)) as H3
    by (vm_compute; reflexivity).
  destruct (propose_is_idempotent default_config 5000 ex_proposal "k1" None ex_executed ex_rid
              _ _ ex_executed_reachable ex_executed_row H1 H2 H3) as (v & Hv & E).
  exists v. split; [exact Hv|]. rewrite E. exact ex_executed_status.
Defined.

Definition ex_approval : option RemediationApprovalRow := approval_of ex_approved ex_rid.

Lemma second_decision_refused_witness :
  exists e, decide_approval 6000 ex_rid "mallory" ["service_owner"] false "other" 0%N None ex_approved
            = Err e.
Proof.
  assert (remediations ex_approved !! ex_rid = Some (ex_row ex_approved)) as H1
    by (vm_compute; reflexivity).
  destruct ex_approval as [a|] eqn:Ea; [|exfalso; revert Ea; vm_compute; discriminate].
  assert ((fun a => same_decision a "mallory" rejected "other") <$> ex_approval = Some false) as Hs
    by (vm_compute; reflexivity).
  rewrite Ea in Hs. cbn in Hs. injection Hs as Hs.
  eexists. rewrite (second_decision_refused 6000 ex_rid "mallory" ["service_owner"] false "other"
                      0%N None ex_approved _ a H1 Ea).
  cbv iota. rewrite Hs. reflexivity.
Defined.

Lemma completion_settles_witness :
  exists v d' r', complete_execution default_config 4000 ex_execution "w1" "failed" "sim" None
                    (Some "boom") true ex_claimed = Ok (v, d')
    /\ remediations d' !! ex_rid = Some r' /\ rm_status r' = R_EXECUTING.
Proof.
  destruct (complete_execution default_config 4000 ex_execution "w1" "failed" "sim" None
              (Some "boom") true ex_claimed) as [[v d']|e] eqn:E.
  - destruct (executions ex_claimed !! ex_execution) as [x|] eqn:Hx;
      [|exfalso; revert Hx; vm_compute; discriminate].
    assert ((ex_remediation_id <$> executions ex_claimed !! ex_execution) = Some ex_rid) as Hxr
      by (vm_compute; reflexivity).
    assert ((ex_status <$> executions ex_claimed !! ex_execution) = Some X_RUNNING) as Hxs
      by (vm_compute; reflexivity).
    rewrite Hx in Hxr, Hxs. cbn in Hxr, Hxs. injection Hxr as Hxr. injection Hxs as Hxs.
    assert (remediations ex_claimed !! ex_remediation_id x = Some (ex_row ex_claimed)) as H1
      by (rewrite Hxr; vm_compute; reflexivity).
    assert (rm_status (ex_row ex_claimed) = R_EXECUTING) as H2 by (vm_compute; reflexivity).
    assert (ex_status x ∈ [X_RUNNING; X_UNKNOWN]) as H3
      by (rewrite Hxs; apply elem_of_cons; left; reflexivity).
    destruct (completion_settles default_config 4000 ex_execution "w1" "failed" "sim" None
                (Some "boom") true ex_claimed v d' _ x ex_claimed_reachable Hx H1 H2 H3 E)
      as (_ & r' & Hr' & Hs').
    exists v, d', r'. split; [reflexivity|]. split; [rewrite <-Hxr; exact Hr'|].
    rewrite Hs'. vm_compute. reflexivity.
  - exfalso.
    assert (match complete_execution default_config 4000 ex_execution "w1" "failed" "sim" None
              (Some "boom") true ex_claimed with Ok _ => true | Err _ => false end = true) as H
      by (vm_compute; reflexivity).
    rewrite E in H. discriminate.
Defined.

(** ** The remediation history

    The timeline of every remediation is numbered 1, 2, 3, ... without gaps, and
    neither the timeline nor the outbox is ever rewritten by a remediation command:
    what a reader has seen stays. *)
(** The entries of one remediation, in insertion order. *)
Definition entries (i : uuid) (l : list RemediationTimelineRow) : list RemediationTimelineRow :=
  filter (fun r => tl_remediation_id r = i) l.

(** Numbered from 1 without gaps. *)
Definition numbered (l : list RemediationTimelineRow) : Prop :=
  forall i, map tl_sequence (entries i l) = seqZ 1 (Z.of_nat (length (entries i l))).

Definition history (d d' : db) : Prop :=
  (exists es, timeline d' = timeline d ++ es)
  /\ (exists es, outbox_events d' = outbox_events d ++ es
                 /\ Forall (fun e => oe_published_at e = None) es)
  /\ (numbered (timeline d) -> numbered (timeline d')).

#[export] Instance history_preorder : PreOrder history.
Proof.
  split.
  - intros d. split_and!; [exists []|exists []|done]; rewrite app_nil_r; [done|]. by split.
  - intros d1 d2 d3 ((t1 & H1) & (o1 & H2 & F2) & H3) ((t2 & H4) & (o2 & H5 & F5) & H6).
    split_and!.
    + exists (t1 ++ t2). by rewrite H4, H1, app_assoc.
    + exists (o1 ++ o2). rewrite H5, H2, app_assoc. split; [done|]. by apply Forall_app.
    + auto.
Qed.

(** The greatest sequence number is the last of the numbering. *)
Lemma max_sequence_numbered l i :
  map tl_sequence (entries i l) = seqZ 1 (Z.of_nat (length (entries i l))) ->
  max_sequence l i = Z.of_nat (length (entries i l)).
Proof.
  assert (forall l, max_sequence l i = foldr Z.max 0 (map tl_sequence (entries i l))) as Hmax.
  { intros l'. unfold max_sequence, entries. induction l' as [|r l' IH]; [done|].
    rewrite filter_cons. simpl. case_bool_decide as E; simpl.
    - rewrite decide_True by done. simpl. by rewrite IH.
    - rewrite decide_False by done. exact IH. }
  intros Hn. rewrite Hmax, Hn. generalize (length (entries i l)). clear. intros n.
  assert (forall a, 0 <= a -> foldr Z.max 0 (seqZ (a + 1) (Z.of_nat n))
                              = if decide (n = O) then 0 else a + Z.of_nat n) as H.
  { induction n as [|n IH]; intros a Ha; [done|].
    rewrite seqZ_cons by lia. replace (Z.pred (Z.of_nat (S n))) with (Z.of_nat n) by lia.
    cbn [foldr]. replace (Z.succ (a + 1)) with ((a + 1) + 1) by lia. rewrite IH by lia.
    repeat case_decide; lia. }
  specialize (H 0 ltac:(lia)). change (0 + 1) with 1 in H. rewrite H. case_decide; lia.
Qed.

Lemma numbered_snoc l r :
  numbered l -> tl_sequence r = max_sequence l (tl_remediation_id r) + 1 -> numbered (l ++ [r]).
Proof.
  intros Hn Hr i. unfold entries. rewrite filter_app, map_app, length_app.
  fold (entries i l). rewrite filter_cons, filter_nil. case_decide as E; simpl.
  - rewrite Hn. subst i. rewrite Hr, (max_sequence_numbered _ _ (Hn _)).
    replace (Z.of_nat (length (entries (tl_remediation_id r) l) + 1))
      with (Z.of_nat (length (entries (tl_remediation_id r) l)) + 1) by lia.
    rewrite seqZ_app by lia. f_equal. rewrite Z.add_comm. done.
  - by rewrite app_nil_r, Nat.add_0_r, Hn.
Qed.

(** ** Every command only adds history *)

Lemma hist_writes f :
  (forall d, timeline (f d) = timeline d) -> (forall d, outbox_events (f d) = outbox_events d) ->
  relates history (writes f).
Proof.
  intros Ht Ho. apply relates_writes. intros d. unfold history. rewrite Ht, Ho.
  split_and!; [exists []|exists []|done]; rewrite app_nil_r; [done|]. by split.
Qed.
Lemma hist_uuid4 : relates history uuid4.
Proof.
  intros d a d' [-> ->]%uuid4_Ok. split_and!; [exists []|exists []|done]; simpl;
    rewrite app_nil_r; [done|]. by split.
Qed.
Lemma hist_outbox now et at_ ai ci p : relates history (insert_outbox_event now et at_ ai ci p).
Proof.
  unfold insert_outbox_event. apply relates_bind; [typeclasses eauto|apply hist_uuid4|].
  intros eid. apply relates_writes. intros d. split_and!; simpl.
  - exists []. by rewrite app_nil_r.
  - eexists. split; [done|]. by repeat constructor.
  - done.
Qed.

#[export] Hint Resolve hist_uuid4 hist_outbox : relates.
#[export] Hint Extern 1 (relates history (writes _)) =>
  apply hist_writes; intros; reflexivity : relates.
#[export] Hint Unfold put_incident put_remediation put_execution put_verification : relates.

(** The timeline's only writer. *)
Lemma hist_timeline `{!Pydantic, !Hashing, !ServiceTopology, !Digests} now row e f t a j v :
  relates history (_timeline now row e f t a j v).
Proof.
  unfold _timeline. apply relates_writes. intros d. split_and!; simpl.
  - by eexists.
  - exists []. rewrite app_nil_r. by split.
  - intros Hn. by apply numbered_snoc.
Qed.
#[export] Hint Resolve hist_timeline : relates.

Lemma hist_evidence now v n role l : relates history (insert_verification_evidence now v n role l).
Proof. induction l; simpl; relates_auto. Qed.
#[export] Hint Resolve hist_evidence : relates.

Section History.
Context {PY : Pydantic} {HA : Hashing} {TO : ServiceTopology} {DI : Digests}.
Context (cfg : ServiceConfig).

#[export] Instance history_respected : Respected cfg history.
Proof.
  constructor; try typeclasses eauto; intros;
    unfold _request_verification, insert_verification, put_verification, put_incident,
      put_remediation, put_execution; relates_auto.
Qed.

(** History is append-only and numbered.  Every remediation command leaves
    the timeline and the outbox it found as prefixes of the ones it leaves, its
    events are born unpublished, and the entries of every remediation stay numbered
    1, 2, 3, ... without gaps. *)
Theorem commands_append_history d d' :
  remediation_command cfg d d' -> history d d'.
Proof. apply (commands_respect cfg history). Qed.
End History.

Lemma commands_append_history_witness :
  exists es, timeline ex_executed = timeline ex_claimed ++ es.
Proof.
  assert (remediation_command default_config ex_claimed ex_executed) as H by apply rc_complete.
  destruct (commands_append_history default_config _ _ H) as [Ht _]. exact Ht.
Defined.
