(* ===== verification/InvestigationService.v ===== *)
(** * incident-core's investigation commands ([packages/incident/investigations.py])

    [InvestigationCoreService]: starting an investigation, leases, the trace,
    hypothesis updates, conclusions and escalations, and the reads.  A worker proposes;
    these commands validate against the trace and the registered evidence and write.

    The documents stored are built as the code builds them.  Hypotheses sort by their
    key in code-point order; hypothesis keys are unique within an investigation. *)
From S2P Require Import Prelude PyFloat Json Enums VerificationDomain Catalog.
From S2P Require Import RemediationDomain Uuid InvestigationDomain Store RemediationService.
Local Open Scope Z_scope.

Definition _OPEN_INVESTIGATION : list InvestigationStatus := [I_CREATED; I_INVESTIGATING].

Definition is_open_investigation (r : InvestigationRow) : bool :=
  bool_decide (inv_status r ∈ _OPEN_INVESTIGATION).

(** [scalar_one_or_none()] *)
Definition one_or_none {A} (l : list A) : result (option A) :=
  match l with
  | [] => Ok None
  | [a] => Ok (Some a)
  | _ => Err (RuntimeError "Multiple rows were found when one or none was required")
  end.

(** ** The trace *)

(** What a [for] loop runs over. *)
Fixpoint chars (s : string) : list json :=
  match s with EmptyString => [] | String c s' => JStr (String c "") :: chars s' end.
Definition iterate (j : json) : result (list json) :=
  match j with
  | JArr l => Ok l
  | JObj l => Ok (map (fun kv => JStr kv.1) l)
  | JStr s => Ok (chars s)
  | _ => Err (TypeError "object is not iterable")
  end.

(** [uuid.UUID(e)] *)
Definition uuid_of (j : json) : result uuid :=
  match j with
  | JStr s => parse_uuid s
  | JNull => Err (TypeError
      "one of the hex, bytes, bytes_le, fields, or int arguments must be given")
  | _ => Err (AttributeError "object has no attribute 'replace'")
  end.

Fixpoint traverse {A B} (f : A -> result B) (l : list A) : result (list B) :=
  match l with
  | [] => Ok []
  | a :: l' => b <-! f a; bs <-! traverse f l'; Ok (b :: bs)
  end.

(** [[uuid.UUID(e) for e in payload.get("evidence_ids", [])]] *)
Definition payload_ids (payload : json) : result (list uuid) :=
  match payload with
  | JObj l =>
      match assoc_get "evidence_ids" l with
      | None => Ok []
      | Some v => es <-! iterate v; traverse uuid_of es
      end
  | _ => Err (AttributeError "object has no attribute 'get'")
  end.

Definition steps_of (d : db) (investigation_id : uuid) : list InvestigationStepRow :=
  List.filter (fun s => bool_decide (st_investigation_id s = investigation_id))
    (investigation_steps d).

Definition shows_evidence (s : InvestigationStepRow) : bool :=
  bool_decide (st_kind s ∈ [S_CONTEXT; S_TOOL_CALL]).

Definition shown_ids (d : db) (investigation_id : uuid) : result (list uuid) :=
  l <-! traverse (fun s => payload_ids (st_payload s))
          (List.filter shows_evidence (steps_of d investigation_id));
  Ok (concat l).

Definition registered_for (d : db) (incident_id e : uuid) : bool :=
  match evidence_refs d !! e with
  | Some r => bool_decide (er_incident_id r = incident_id)
  | None => false
  end.

Definition accessible (d : db) (row : InvestigationRow) : result (gset uuid) :=
  shown <-! shown_ids d (inv_id row);
  Ok (list_to_set (List.filter (registered_for d (inv_incident_id row)) shown)).

Definition _accessible_evidence (row : InvestigationRow) : Tx (gset uuid) :=
  r ← reads (fun d => accessible d row);
  lift r.

Definition _evidence_types (d : db) (incident_id : uuid) : gmap uuid string :=
  er_evidence_type <$> filter (fun p => er_incident_id p.2 = incident_id) (evidence_refs d).

(** [coalesce(max(sequence), 0)] *)
Definition max_step (d : db) (investigation_id : uuid) : Z :=
  foldr (fun s m => Z.max (st_sequence s) m) 0 (steps_of d investigation_id).

Definition _append_step (now : instant) (row : InvestigationRow) (kind : StepKind) (iteration : Z)
    (payload : json) (call_id : option string) (latency_ms : option Z) : Tx Z :=
  current ← reads (fun d => max_step d (inv_id row));
  let sequence := current + 1 in
  sid ← uuid4;
  writes (fun d => d <| investigation_steps ::= (fun l => l ++
    [{| st_id := sid; st_investigation_id := inv_id row; st_sequence := sequence;
        st_iteration := iteration; st_kind := kind; st_call_id := call_id;
        st_payload := payload; st_latency_ms := latency_ms; st_created_at := now |}]) |>) ;;
  mret sequence.

Definition _steps (d : db) (investigation_id : uuid) : list InvestigationStepRow :=
  order_by st_sequence (steps_of d investigation_id).

(** ** Hypotheses *)

Fixpoint insert_lt {A} (lt : A -> A -> bool) (a : A) (l : list A) : list A :=
  match l with
  | [] => [a]
  | b :: l' => if lt b a then b :: insert_lt lt a l' else a :: l
  end.

(** [ORDER BY created_at, key] *)
Definition hypothesis_lt (a b : HypothesisRow) : bool :=
  (h_created_at a <? h_created_at b)
  || ((h_created_at a =? h_created_at b) && str_ltb (h_key a) (h_key b)).

Definition _hypothesis_rows (d : db) (investigation_id : uuid) : list HypothesisRow :=
  foldr (insert_lt hypothesis_lt) []
    (List.filter (fun h => bool_decide (h_investigation_id h = investigation_id))
       (rows (hypotheses d))).

(** The links of a hypothesis, [ORDER BY linked_at, evidence_id]. *)
Definition links_of (d : db) (hypothesis_id : uuid) : list HypothesisEvidenceLinkRow :=
  order_by lk_linked_at
    (order_by (fun l => Z.of_N (lk_evidence_id l))
       (List.filter (fun l => bool_decide (lk_hypothesis_id l = hypothesis_id))
          ((map_to_list (evidence_links d)).*2))).

Definition linked (relation : LinkRelation) (l : list HypothesisEvidenceLinkRow) : list uuid :=
  map lk_evidence_id (List.filter (fun k => bool_decide (lk_relation k = relation)) l).

Definition snapshot_of (d : db) (r : HypothesisRow) : HypothesisSnapshot :=
  {| hs_key := h_key r; hs_description := h_description r; hs_status := h_status r;
     hs_confidence := h_confidence r; supporting := linked supports (links_of d (h_id r));
     contradicting := linked contradicts (links_of d (h_id r));
     missing_evidence := h_missing_evidence r; cause_category := h_cause_category r;
     component := h_component r |}.

Definition _snapshots (d : db) (l : list HypothesisRow) : list (string * HypothesisSnapshot) :=
  map (fun r => (h_key r, snapshot_of d r)) l.

(** [d[k] = v] *)
Definition assoc_set {A} (k : string) (v : A) (l : list (string * A)) : list (string * A) :=
  if bool_decide (k ∈ l.*1)
  then map (fun kv => if bool_decide (kv.1 = k) then (k, v) else kv) l
  else l ++ [(k, v)].

(** ** Locks and fences *)

Definition _lock (investigation_id : uuid) : Tx InvestigationRow :=
  found ← reads (fun d => investigations d !! investigation_id);
  must found (InvestigationNotFoundError (str_uuid investigation_id)).

(** [f"{owner}"] of an optional value. *)
Definition show_option (o : option string) : string := default "None" o.

Definition fenced (owner : string) (row : InvestigationRow) : bool :=
  bool_decide (inv_status row = I_INVESTIGATING) && bool_decide (inv_lease_owner row = Some owner).

Definition _fenced (investigation_id : uuid) (owner : string) : Tx InvestigationRow :=
  row ← _lock investigation_id;
  if negb (fenced owner row) then
    raise (LeaseLostError (owner +++ " does not hold investigation " +++ str_uuid investigation_id
             +++ " (status " +++ InvestigationStatus_value (inv_status row)
             +++ ", owner " +++ show_option (inv_lease_owner row) +++ ")"))
  else mret row.

(** INVESTIGATING to [to_status]; an incident a human moved elsewhere is left alone. *)
Definition _move_incident (now : instant) (incident : IncidentRow) (to_status : IncidentStatus)
    (reason : string) : Tx () :=
  if negb (bool_decide (i_status incident = INVESTIGATING)) then mret ()
  else
    _ ← transition_with_event now incident to_status false reason
          ("incident " +++ str_uuid (i_id incident) +++ " changed concurrently");
    mret ().

(** ** Starting *)

Record StartedInvestigation := {
  si_investigation_id : uuid;
  si_incident_id : uuid;
  si_created : bool;
}.

Definition new_investigation (now : instant) (id incident_id : uuid) (attempt : Z)
    (model_provider model_name : string) (model_settings : json) (budget : InvestigationBudget)
    : InvestigationRow :=
  {| inv_id := id; inv_incident_id := incident_id; inv_attempt_number := attempt;
     inv_status := I_CREATED; inv_model_provider := model_provider;
     inv_model_name := model_name; inv_model_config := model_settings; inv_budget := budget;
     inv_iteration_count := 0; inv_tool_call_count := 0; inv_evidence_count := 0;
     inv_input_tokens := 0; inv_output_tokens := 0; inv_cache_read_tokens := 0;
     inv_cache_creation_tokens := 0; inv_last_action := None; inv_failure_reason := None;
     inv_escalation_reason := None; inv_inconclusive_reason := None;
     inv_selected_hypothesis_id := None; inv_final_result := None; inv_lease_owner := None;
     inv_lease_expires_at := None; inv_created_at := now; inv_started_at := None;
     inv_completed_at := None; inv_updated_at := now |}.

(** The insert against the unique constraint [uq_investigations_attempt]. *)
Definition same_attempt (a b : InvestigationRow) : bool :=
  bool_decide (inv_incident_id a = inv_incident_id b)
  && bool_decide (inv_attempt_number a = inv_attempt_number b).
Definition insert_investigation (row : InvestigationRow) : Tx () :=
  taken ← reads (fun d => existsb (same_attempt row) (rows (investigations d)));
  if negb taken then put_investigation row else raise (IntegrityError "uq_investigations_attempt").

Definition open_for (incident_id : uuid) (r : InvestigationRow) : bool :=
  bool_decide (inv_incident_id r = incident_id) && is_open_investigation r.
Definition open_investigations (incident_id : uuid) (d : db) : list InvestigationRow :=
  List.filter (open_for incident_id) (rows (investigations d)).

(** TRIAGING or VERIFICATION_FAILED, the states an investigation starts from. *)
Definition STARTS_FROM : list IncidentStatus := [TRIAGING; VERIFICATION_FAILED].

Definition start_reason (from_status : IncidentStatus) : string :=
  if bool_decide (from_status = TRIAGING) then "investigation_started"
  else "reinvestigation_after_failed_verification".

(** The attempt is counted, the incident moves and the investigation exists. *)
Definition start_investigation (now : instant) (incident : IncidentRow)
    (model_provider model_name : string) (model_settings : json) (budget : InvestigationBudget)
    : Tx StartedInvestigation :=
  let incident_id := i_id incident in
  let attempt := i_attempt_count incident + 1 in
  let incident1 := incident <| i_attempt_count := attempt |> in
  put_incident incident1 ;;
  moved ← transition_incident_status incident1 INVESTIGATING now false;
  incident2 ← must moved (ConcurrentModificationError
                ("incident " +++ str_uuid incident_id +++ " changed concurrently"));
  iid ← uuid4;
  insert_investigation
    (new_investigation now iid incident_id attempt model_provider model_name model_settings budget) ;;
  status_changed_event now incident2 (i_status incident) (start_reason (i_status incident)) ;;
  insert_outbox_event now "InvestigationStarted" "Investigation" iid (Some incident_id)
    (PInvestigationStarted
       {| isp_investigation_id := iid; isp_incident_id := incident_id;
          isp_attempt_number := attempt; isp_model_provider := model_provider;
          isp_model_name := model_name |}) ;;
  mret {| si_investigation_id := iid; si_incident_id := incident_id; si_created := true |}.

Definition request_investigation (now : instant) (incident_id : uuid)
    (model_provider model_name : string) (model_settings : json) (budget : InvestigationBudget)
    : Tx StartedInvestigation :=
  found ← reads (fun d => incidents d !! incident_id);
  incident ← must found (IncidentNotFoundError (str_uuid incident_id));
  open ← reads (open_investigations incident_id);
  existing ← lift (one_or_none open);
  match existing with
  | Some row =>
      mret {| si_investigation_id := inv_id row; si_incident_id := incident_id;
              si_created := false |}
  | None =>
      if negb (bool_decide (i_status incident ∈ STARTS_FROM)) then
        raise (InvalidIncidentTransitionError
          ("incident " +++ str_uuid incident_id +++ " is " +++ IncidentStatus_value (i_status incident)
             +++ ", not TRIAGING or VERIFICATION_FAILED"))
      else
        firing ← count_firing_alerts incident_id;
        if bool_decide (firing = 0) then
          raise (InvalidIncidentTransitionError
            ("incident " +++ str_uuid incident_id
               +++ " has no firing alert; nothing to investigate"))
        else start_investigation now incident model_provider model_name model_settings budget
  end.

(** The scheduler's query. *)
Definition due_incident (d : db) (cutoff : instant) (i : IncidentRow) : bool :=
  ((bool_decide (i_status i = TRIAGING) && (i_created_at i <=? cutoff))
   || bool_decide (i_status i = VERIFICATION_FAILED))
  && existsb (firing_of (i_id i)) (rows (alerts d)).
Definition due_for_investigation (now : instant) (debounce_seconds : Z) (limit : nat) (d : db)
    : list uuid :=
  take limit (map i_id (order_by i_created_at
    (List.filter (due_incident d (now - seconds debounce_seconds)) (rows (incidents d))))).

(** ** Leases *)

Record InvestigationState := {
  is_investigation : InvestigationRow;
  is_steps : list InvestigationStepRow;
  is_hypotheses : list (string * HypothesisSnapshot);
  is_accessible_evidence : gset uuid;
  is_evidence_types : gmap uuid string;
}.

Definition load_state (investigation_id : uuid) (d : db) : result InvestigationState :=
  match investigations d !! investigation_id with
  | None => Err (InvestigationNotFoundError (str_uuid investigation_id))
  | Some row =>
      a <-! accessible d row;
      Ok {| is_investigation := row; is_steps := _steps d investigation_id;
            is_hypotheses := _snapshots d (_hypothesis_rows d investigation_id);
            is_accessible_evidence := a;
            is_evidence_types := _evidence_types d (inv_incident_id row) |}
  end.

Definition held_by_another (now : instant) (owner : string) (row : InvestigationRow) : bool :=
  match inv_lease_expires_at row with Some t => now <? t | None => false end
  && negb (bool_decide (inv_lease_owner row = Some owner)).

Definition claimed (now : instant) (owner : string) (lease_seconds : Z) (row : InvestigationRow)
    : InvestigationRow :=
  row <| inv_status := I_INVESTIGATING |> <| inv_lease_owner := Some owner |>
      <| inv_lease_expires_at := Some (now + seconds lease_seconds) |>
      <| inv_started_at := Some (default now (inv_started_at row)) |> <| inv_updated_at := now |>.

(** The transaction of [claim]: whether the worker now owns the investigation. *)
Definition take_lease (now : instant) (investigation_id : uuid) (owner : string)
    (lease_seconds : Z) : Tx bool :=
  row ← _lock investigation_id;
  if bool_decide (inv_status row ∈ TERMINAL_INVESTIGATION_STATUSES) then mret false
  else if held_by_another now owner row then mret false
  else put_investigation (claimed now owner lease_seconds row) ;; mret true.

(** [load_state] runs after the commit: its errors do not take the lease back. *)
Definition claim (now : instant) (investigation_id : uuid) (owner : string) (lease_seconds : Z)
    (d : db) : result (option InvestigationState) * db :=
  match atomically (take_lease now investigation_id owner lease_seconds) d with
  | (Ok true, d') => (s <-! load_state investigation_id d'; Ok (Some s), d')
  | (Ok false, d') => (Ok None, d')
  | (Err e, d') => (Err e, d')
  end.

Definition is_resumable (now : instant) (r : InvestigationRow) : bool :=
  is_open_investigation r
  && match inv_lease_expires_at r with None => true | Some t => t <=? now end.
Definition resumable (now : instant) (limit : nat) (d : db) : list uuid :=
  take limit (map inv_id (order_by inv_created_at
    (List.filter (is_resumable now) (rows (investigations d))))).

Definition release (now : instant) (investigation_id : uuid) (owner : string) : Tx () :=
  row ← _lock investigation_id;
  if bool_decide (inv_lease_owner row = Some owner)
  then put_investigation (row <| inv_lease_expires_at := Some now |>)
  else mret ().

(** ** The worker's writes *)

Definition usage_of (usage : option (list (string * Z))) (k : string) : Z :=
  default 0 (assoc_get k (default [] usage)).

(** The counters of a recorded step. *)
Definition counted (now : instant) (kind : StepKind) (iteration : Z)
    (usage : option (list (string * Z))) (tool_call : bool) (new_evidence : Z)
    (last_action : option string) (lease_seconds : Z) (row : InvestigationRow)
    : InvestigationRow :=
  row <| inv_iteration_count ::= (fun n => if bool_decide (kind = S_MODEL_TURN)
                                           then Z.max n iteration else n) |>
      <| inv_input_tokens ::= Z.add (usage_of usage "input_tokens") |>
      <| inv_output_tokens ::= Z.add (usage_of usage "output_tokens") |>
      <| inv_cache_read_tokens ::= Z.add (usage_of usage "cache_read_input_tokens") |>
      <| inv_cache_creation_tokens ::= Z.add (usage_of usage "cache_creation_input_tokens") |>
      <| inv_tool_call_count ::= (fun n => if tool_call then n + 1 else n) |>
      <| inv_evidence_count ::= Z.add new_evidence |>
      <| inv_last_action ::= (fun a => match last_action with
                                       | Some t => if nonempty t then Some (take_str 200 t) else a
                                       | None => a
                                       end) |>
      <| inv_lease_expires_at := Some (now + seconds lease_seconds) |>
      <| inv_updated_at := now |>.

Definition record_step (now : instant) (investigation_id : uuid) (owner : string)
    (kind : StepKind) (iteration : Z) (payload : list (string * json)) (call_id : option string)
    (latency_ms : option Z) (usage : option (list (string * Z))) (tool_call : bool)
    (new_evidence : Z) (last_action : option string) (lease_seconds : Z) : Tx Z :=
  row ← _fenced investigation_id owner;
  sequence ← _append_step now row kind iteration (JObj payload) call_id latency_ms;
  put_investigation
    (counted now kind iteration usage tool_call new_evidence last_action lease_seconds row) ;;
  mret sequence.

(** ** Hypothesis updates *)

(** [_decimal]: the float of the two decimals stored. *)
Definition _decimal (value : option float) : option float := round2 <$> value.

Definition created (now : instant) (id investigation_id : uuid) (u : HypothesisUpdate)
    : HypothesisRow :=
  {| h_id := id; h_investigation_id := investigation_id; h_key := hu_key u;
     h_description := default "" (hu_description u);
     h_status := default H_ACTIVE (hu_status u); h_confidence := _decimal (hu_confidence u);
     h_missing_evidence := default [] (hu_missing_evidence u);
     h_cause_category := hu_cause_category u; h_component := hu_component u;
     h_created_at := now; h_updated_at := now |}.

Definition edited (now : instant) (u : HypothesisUpdate) (h : HypothesisRow) : HypothesisRow :=
  h <| h_description ::= (fun t => if nonempty (default "" (hu_description u))
                                   then default "" (hu_description u) else t) |>
    <| h_status ::= (fun s => default s (hu_status u)) |>
    <| h_confidence ::= (fun c => match hu_confidence u with
                                  | Some x => Some (round2 x) | None => c end) |>
    <| h_missing_evidence ::= (fun m => default m (hu_missing_evidence u)) |>
    <| h_updated_at := now |>.

(** [INSERT ... ON CONFLICT DO NOTHING]; a new link needs a registered reference. *)
Definition insert_link (l : HypothesisEvidenceLinkRow) : Tx () :=
  d ← reads id;
  if bool_decide (is_Some (evidence_links d !! (lk_hypothesis_id l, lk_evidence_id l)))
  then mret ()
  else if bool_decide (is_Some (evidence_refs d !! lk_evidence_id l)) then
    writes (fun d => d <| evidence_links ::= <[(lk_hypothesis_id l, lk_evidence_id l) := l]> |>)
  else raise (IntegrityError "hypothesis_evidence_links_evidence_id_fkey").

Fixpoint insert_links (now : instant) (hypothesis_id : uuid) (relation : LinkRelation)
    (l : list uuid) : Tx () :=
  match l with
  | [] => mret ()
  | e :: l' =>
      insert_link {| lk_hypothesis_id := hypothesis_id; lk_evidence_id := e;
                     lk_relation := relation; lk_linked_at := now |} ;;
      insert_links now hypothesis_id relation l'
  end.

(** The variables of the loop. *)
Record Applying := {
  ap_hypotheses : list (string * HypothesisRow);
  ap_snapshots : list (string * HypothesisSnapshot);
  ap_applied : list json;
  ap_rejected : list json;
}.

Definition applied_json (u : HypothesisUpdate) (h : HypothesisRow)
    (from_status : option HypothesisStatus) : json :=
  JObj [("key", JStr (hu_key u));
        ("cause_category", jopt_str (h_cause_category h));
        ("component", jopt_str (h_component h));
        ("from_status", jopt_str (HypothesisStatus_value <$> from_status));
        ("to_status", JStr (HypothesisStatus_value (h_status h)));
        ("confidence", jopt_float (hu_confidence u));
        ("added_supporting", str_uuids (hu_supporting_evidence_ids u));
        ("added_contradicting", str_uuids (hu_contradicting_evidence_ids u));
        ("rationale", JStr (hu_rationale u))].

Definition apply_update (now : instant) (investigation_id : uuid) (accessible : gset uuid)
    (s : Applying) (u : HypothesisUpdate) : Tx Applying :=
  match check_hypothesis_update u (assoc_get (hu_key u) (ap_snapshots s)) accessible with
  | [] =>
      chosen ← match assoc_get (hu_key u) (ap_hypotheses s) with
               | None =>
                   hid ← uuid4;
                   mret (created now hid investigation_id u, None)
               | Some h => mret (edited now u h, Some (h_status h))
               end;
      let '(h, from_status) := chosen in
      put_hypothesis h ;;
      insert_links now (h_id h) supports (hu_supporting_evidence_ids u) ;;
      insert_links now (h_id h) contradicts (hu_contradicting_evidence_ids u) ;;
      snapshot ← reads (fun d => snapshot_of d h);
      mret {| ap_hypotheses := assoc_set (hu_key u) h (ap_hypotheses s);
              ap_snapshots := assoc_set (hu_key u) snapshot (ap_snapshots s);
              ap_applied := ap_applied s ++ [applied_json u h from_status];
              ap_rejected := ap_rejected s |}
  | problems =>
      mret {| ap_hypotheses := ap_hypotheses s; ap_snapshots := ap_snapshots s;
              ap_applied := ap_applied s;
              ap_rejected := ap_rejected s ++
                [JObj [("key", JStr (hu_key u)); ("problems", JArr (map JStr problems))]] |}
  end.

Fixpoint apply_updates (now : instant) (investigation_id : uuid) (accessible : gset uuid)
    (s : Applying) (l : list HypothesisUpdate) : Tx Applying :=
  match l with
  | [] => mret s
  | u :: l' =>
      s' ← apply_update now investigation_id accessible s u;
      apply_updates now investigation_id accessible s' l'
  end.

Record HypothesisUpdateOutcome := { applied : list json; rejected : list json }.

Definition loop_start (d : db) (investigation_id : uuid) : Applying :=
  let l := _hypothesis_rows d investigation_id in
  {| ap_hypotheses := map (fun h => (h_key h, h)) l; ap_snapshots := _snapshots d l;
     ap_applied := []; ap_rejected := [] |}.

Definition count_str {A} (l : list A) : string := str_Z (Z.of_nat (length l)).

Definition apply_hypothesis_updates (now : instant) (investigation_id : uuid) (owner : string)
    (iteration : Z) (call_id : string) (b : HypothesisUpdateBatch) : Tx HypothesisUpdateOutcome :=
  row ← _fenced investigation_id owner;
  accessible ← _accessible_evidence row;
  start ← reads (fun d => loop_start d investigation_id);
  s ← apply_updates now investigation_id accessible start (updates b);
  _ ← _append_step now row S_HYPOTHESIS_UPDATE iteration
        (JObj [("applied", JArr (ap_applied s)); ("rejected", JArr (ap_rejected s));
               ("hypotheses", JArr (map to_json (ap_snapshots s).*2))])
        (Some call_id) None;
  put_investigation
    (row <| inv_last_action := Some ("update_hypotheses: " +++ count_str (ap_applied s)
              +++ " applied, " +++ count_str (ap_rejected s) +++ " rejected") |>
         <| inv_updated_at := now |>) ;;
  mret {| applied := ap_applied s; rejected := ap_rejected s |}.

(** ** Conclusions *)

(** [model_dump(mode="json")]; pydantic writes UTC as [Z]. *)
Definition json_instant (t : instant) : json :=
  let s := isoformat t in JStr (take_str (String.length s - 6) s +++ "Z").
(** Any other offset is kept, in hours and minutes. *)
Definition zone_text (offset : Z) : string :=
  let m := Z.abs offset / 60 in
  (if offset <? 0 then "-" else "+") +++ padded 2 (m / 60) +++ ":" +++ padded 2 (m mod 60).
Definition json_datetime (t : instant) (offset : Z) : json :=
  if offset =? 0 then json_instant t else
  let s := isoformat (t + seconds offset) in
  JStr (take_str (String.length s - 6) s +++ zone_text offset).
Example json_datetime_ex :
  json_datetime 1772323199000500 5400 = JStr "2026-03-01T01:29:59.000500+01:30"
  /\ json_datetime 1772323199000000 (-12600) = JStr "2026-02-28T20:29:59-03:30"
  /\ json_datetime 1772323199000000 0 = JStr "2026-02-28T23:59:59Z".
Proof. split_and!; reflexivity. Qed.
Definition statement_json (s : GroundedStatement) : json :=
  JObj [("text", JStr (gs_text s)); ("evidence_ids", str_uuids (gs_evidence_ids s))].
Definition service_json (s : AffectedService) : json :=
  JObj [("service", JStr (as_service s)); ("evidence_ids", str_uuids (as_evidence_ids s))].
Definition timeline_json (t : TimelineEntry) : json :=
  JObj [("at", json_datetime (te_at t) (te_offset t)); ("event", JStr (te_event t));
        ("evidence_ids", str_uuids (te_evidence_ids t))].
Definition note_json (n : ContradictionNote) : json :=
  JObj [("evidence_id", JStr (str_uuid (cn_evidence_id n)));
        ("explanation", JStr (cn_explanation n))].
Definition rca_fields (r : RcaDraft) : list (string * json) :=
  [("incident_summary", statement_json (incident_summary r));
   ("impact", statement_json (impact r));
   ("affected_services", JArr (map service_json (affected_services r)));
   ("timeline", JArr (map timeline_json (rca_timeline r)));
   ("root_cause", statement_json (root_cause r));
   ("contributing_factors", JArr (map statement_json (contributing_factors r)));
   ("contradicting_evidence", JArr (map note_json (contradicting_evidence r)));
   ("unresolved_questions", JArr (map JStr (unresolved_questions r)));
   ("recommended_next_diagnostic_action", jopt_str (recommended_next_diagnostic_action r))].
Definition result_json (r : FinalInvestigationResult) : json :=
  JObj [("selected_hypothesis_key", JStr (selected_hypothesis_key r));
        ("confidence", JFloat (fr_confidence r)); ("rca", JObj (rca_fields (rca r)))].

(** What the investigation did, from the trace. *)
Definition _actions (steps : list InvestigationStepRow) : json :=
  JArr (map (fun s =>
    JObj [("iteration", JInt (st_iteration s));
          ("tool", jget "tool" (st_payload s));
          ("arguments", jget "arguments" (st_payload s));
          ("ok", jget "ok" (st_payload s));
          ("evidence_ids", match st_payload s with
                           | JObj l => default (JArr []) (assoc_get "evidence_ids" l)
                           | _ => JArr [] end);
          ("summary", jget "summary" (st_payload s))])
    (List.filter (fun s => bool_decide (st_kind s = S_TOOL_CALL)) steps)).

(** The rendering of a report: each claim is followed by what backs it. *)
Definition newline : string := String (Ascii.ascii_of_nat 10) "".
Definition cite (l : list uuid) : string :=
  "[" +++ join ", " (map (fun i => take_str 8 (str_uuid i)) l) +++ "]".
Definition said (s : GroundedStatement) : string := gs_text s +++ " " +++ cite (gs_evidence_ids s).
(** A heading and its lines, when there are any. *)
Definition part {A} (heading : string) (line : A -> string) (l : list A) : list string :=
  match l with [] => [] | _ => heading :: map line l end.

Definition render_rca_summary (confidence : float) (r : RcaDraft) : string :=
  join newline
    (["Root cause (confidence " +++ format_2f confidence +++ "): " +++ said (root_cause r);
      "Summary: " +++ said (incident_summary r);
      "Impact: " +++ said (impact r);
      "Affected services: " +++ join "; " (map (fun s => as_service s +++ " "
                                              +++ cite (as_evidence_ids s)) (affected_services r));
      "Timeline:"]
     ++ map (fun t => "  " +++ py_str (json_datetime (te_at t) (te_offset t)) +++ " " +++ te_event t +++ " "
                        +++ cite (te_evidence_ids t)) (rca_timeline r)
     ++ part "Contributing factors:" (fun c => "  " +++ said c) (contributing_factors r)
     ++ part "Contradicting evidence considered:"
          (fun n => "  " +++ take_str 8 (str_uuid (cn_evidence_id n)) +++ ": " +++ cn_explanation n)
          (contradicting_evidence r)
     ++ part "Unresolved questions (not evidence-backed):" (fun q => "  - " +++ q)
          (unresolved_questions r)).

(** The report stored: the draft, and what the application derives. *)
Definition report_json (result : FinalInvestigationResult) (selected : HypothesisRow)
    (snapshot : HypothesisSnapshot) (steps : list InvestigationStepRow)
    (snapshots : list (string * HypothesisSnapshot)) : json :=
  JObj (rca_fields (rca result) ++
    [("confidence", JFloat (fr_confidence result));
     ("root_cause_hypothesis",
      JObj [("key", JStr (h_key selected)); ("description", JStr (h_description selected));
            ("cause_category", jopt_str (h_cause_category selected));
            ("component", jopt_str (h_component selected))]);
     ("supporting_evidence", str_uuids (supporting snapshot));
     ("investigation_actions", _actions steps);
     ("competing_hypotheses",
      JArr (map to_json (List.filter (fun s => negb (bool_decide (hs_key s = h_key selected)))
                           snapshots.*2)))]).

(** The insert against the unique [rca_reports.investigation_id]. *)
Definition insert_report (r : RcaReportRow) : Tx () :=
  taken ← reads (fun d => existsb (fun q => bool_decide (rca_investigation_id q = rca_investigation_id r))
                            (rows (rca_reports d)));
  if negb taken then writes (fun d => d <| rca_reports ::= <[rca_id r := r]> |>)
  else raise (IntegrityError "rca_reports_investigation_id_key").

(** Both outcomes end the lease. *)
Definition ended (now : instant) (status : InvestigationStatus) (final_result : json)
    (last_action : string) (row : InvestigationRow) : InvestigationRow :=
  row <| inv_status := status |> <| inv_final_result := Some final_result |>
      <| inv_completed_at := Some now |> <| inv_updated_at := now |>
      <| inv_lease_owner := None |> <| inv_lease_expires_at := None |>
      <| inv_last_action := Some last_action |>.

Record ConclusionOutcome := {
  accepted : bool;
  unmet_criteria : list string;
  rca_report_id : option uuid;
}.

(** The branch that records why the conclusion was refused. *)
Definition reject_conclusion (now : instant) (row : InvestigationRow) (iteration : Z)
    (call_id : string) (result : FinalInvestigationResult) (unmet : list string)
    : Tx ConclusionOutcome :=
  _ ← _append_step now row S_CONCLUSION_REJECTED iteration
        (JObj [("unmet_criteria", JArr (map JStr unmet)); ("proposed", result_json result)])
        (Some call_id) None;
  put_investigation (row <| inv_last_action := Some "conclusion rejected" |>) ;;
  mret {| accepted := false; unmet_criteria := unmet; rca_report_id := None |}.

Definition selected_row (now : instant) (result : FinalInvestigationResult) (h : HypothesisRow)
    : HypothesisRow :=
  h <| h_status := H_SELECTED |> <| h_confidence := Some (round2 (fr_confidence result)) |>
    <| h_updated_at := now |>.

(** The branch that accepts it. *)
Definition accept_conclusion (now : instant) (row : InvestigationRow) (iteration : Z)
    (call_id : string) (result : FinalInvestigationResult) (hypothesis_rows : list HypothesisRow)
    (snapshots : list (string * HypothesisSnapshot)) : Tx ConclusionOutcome :=
  h ← must (List.find (fun h => bool_decide (h_key h = selected_hypothesis_key result)) hypothesis_rows)
        (RuntimeError "StopIteration");
  let selected := selected_row now result h in
  put_hypothesis selected ;;
  snapshot ← must (assoc_get (h_key selected) snapshots) (KeyError (h_key selected));
  steps ← reads (fun d => _steps d (inv_id row));
  rid ← uuid4;
  insert_report
    {| rca_id := rid; rca_incident_id := inv_incident_id row; rca_investigation_id := inv_id row;
       rca_root_cause_hypothesis_id := h_id selected;
       rca_report := report_json result selected snapshot steps snapshots;
       rca_summary := render_rca_summary (fr_confidence result) (rca result);
       rca_generated_at := now |} ;;
  let row1 := (ended now I_COMPLETED
      (JObj [("outcome", JStr "root_cause_identified"); ("rca_report_id", JStr (str_uuid rid));
             ("selected_hypothesis_key", JStr (h_key selected));
             ("confidence", JFloat (fr_confidence result))])
      "completed" row) <| inv_selected_hypothesis_id := Some (h_id selected) |> in
  put_investigation row1 ;;
  _ ← _append_step now row1 S_OUTCOME iteration
        (JObj [("status", JStr "COMPLETED"); ("rca_report_id", JStr (str_uuid rid))])
        (Some call_id) None;
  found ← reads (fun d => incidents d !! inv_incident_id row);
  incident ← must found (AssertionError "incident is not None");
  _move_incident now incident RCA_READY "root_cause_selected" ;;
  insert_outbox_event now "InvestigationCompleted" "Investigation" (inv_id row)
    (Some (inv_incident_id row))
    (PInvestigationCompleted
       {| icm_investigation_id := inv_id row; icm_incident_id := inv_incident_id row;
          icm_selected_hypothesis_id := h_id selected; icm_rca_report_id := rid |}) ;;
  mret {| accepted := true; unmet_criteria := []; rca_report_id := Some rid |}.

Section Commands.
Context (criteria : StoppingCriteria).

(** Why the conclusion cannot be accepted. *)
Definition unmet_of (result : FinalInvestigationResult) (accessible : gset uuid)
    (snapshots : list (string * HypothesisSnapshot)) (types : gmap uuid string) : list string :=
  let bad := ungrounded_ids (evidence_ids (rca result)) accessible in
  when (negb (bool_decide (bad = [])))
    ("rca cites evidence ids this investigation was never shown: " +++ join ", " bad)
  ++ evaluate_conclusion result snapshots types criteria.

Definition complete (now : instant) (investigation_id : uuid) (owner : string) (iteration : Z)
    (call_id : string) (result : FinalInvestigationResult) : Tx ConclusionOutcome :=
  row ← _fenced investigation_id owner;
  accessible ← _accessible_evidence row;
  hypothesis_rows ← reads (fun d => _hypothesis_rows d investigation_id);
  snapshots ← reads (fun d => _snapshots d hypothesis_rows);
  types ← reads (fun d => _evidence_types d (inv_incident_id row));
  match unmet_of result accessible snapshots types with
  | [] => accept_conclusion now row iteration call_id result hypothesis_rows snapshots
  | unmet => reject_conclusion now row iteration call_id result unmet
  end.
End Commands.

(** ** Endings without a root cause *)

(** [(s.confidence or 0.0, len(s.supporting), s.key)], compared. *)
Definition confidence_or_0 (s : HypothesisSnapshot) : float :=
  match hs_confidence s with Some x => if ftruthy x then x else fzero | None => fzero end.
Definition leads_less (a b : HypothesisSnapshot) : bool :=
  if feqb (confidence_or_0 a) (confidence_or_0 b) then
    if bool_decide (length (supporting a) = length (supporting b)) then str_ltb (hs_key a) (hs_key b)
    else bool_decide ((length (supporting a) < length (supporting b))%nat)
  else fltb (confidence_or_0 a) (confidence_or_0 b).

(** [max]: the first of the greatest. *)
Definition _leading (snapshots : list (string * HypothesisSnapshot)) : option HypothesisSnapshot :=
  foldl (fun best s =>
    match best with
    | Some b => if leads_less b s then Some s else best
    | None => Some s
    end) None
    (List.filter (fun s => bool_decide (hs_status s ∈ [H_SUPPORTED; H_ACTIVE])) snapshots.*2).

Definition incomplete_result (row : InvestigationRow) (outcome : InvestigationStatus)
    (reason_code detail : string) (evidence_gaps : option (list string))
    (snapshots : list (string * HypothesisSnapshot)) (accessible : gset uuid) : json :=
  JObj [("outcome", JStr (InvestigationStatus_value outcome)); ("reason_code", JStr reason_code);
        ("detail", JStr (take_str 2000 detail));
        ("evidence_gaps", JArr (map JStr (default [] evidence_gaps)));
        ("leading_hypothesis", opt_json (to_json <$> _leading snapshots));
        ("hypotheses", JArr (map to_json snapshots.*2));
        ("evidence_ids", JArr (map JStr (sorted_ids accessible)));
        ("budget_usage", JObj [("iterations", JInt (inv_iteration_count row));
                               ("tool_calls", JInt (inv_tool_call_count row));
                               ("evidence_items", JInt (inv_evidence_count row));
                               ("input_tokens", JInt (inv_input_tokens row));
                               ("output_tokens", JInt (inv_output_tokens row))])].

Definition escalate (now : instant) (investigation_id : uuid) (owner : string) (iteration : Z)
    (outcome : InvestigationStatus) (reason_code detail : string)
    (inconclusive_reason : option string) (evidence_gaps : option (list string))
    (call_id : option string) : Tx () :=
  assert_ (bool_decide (outcome ∈ [I_ESCALATED; I_FAILED])) "" ;;
  row ← _fenced investigation_id owner;
  snapshots ← reads (fun d => _snapshots d (_hypothesis_rows d investigation_id));
  accessible ← _accessible_evidence row;
  let reason := Some (take_str 2000 (reason_code +++ ": " +++ detail)) in
  let row1 := (ended now outcome
      (incomplete_result row outcome reason_code detail evidence_gaps snapshots accessible)
      (lower (InvestigationStatus_value outcome) +++ ": " +++ reason_code) row)
      <| inv_failure_reason ::= (fun r => if bool_decide (outcome = I_FAILED) then reason else r) |>
      <| inv_escalation_reason ::= (fun r => if bool_decide (outcome = I_FAILED) then r else reason) |>
      <| inv_inconclusive_reason := inconclusive_reason |> in
  put_investigation row1 ;;
  _ ← _append_step now row1 S_OUTCOME iteration
        (JObj [("status", JStr (InvestigationStatus_value outcome));
               ("reason_code", JStr reason_code); ("detail", JStr (take_str 2000 detail))])
        call_id None;
  found ← reads (fun d => incidents d !! inv_incident_id row);
  incident ← must found (AssertionError "incident is not None");
  _move_incident now incident ESCALATED ("investigation_" +++ reason_code) ;;
  insert_outbox_event now "InvestigationFailed" "Investigation" investigation_id
    (Some (inv_incident_id row))
    (PInvestigationFailed
       {| ifp_investigation_id := investigation_id; ifp_incident_id := inv_incident_id row;
          ifp_outcome := InvestigationStatus_value outcome; ifp_reason_code := reason_code |}).

(** ** Reads *)

Record Transition := {
  t_at : instant;
  t_from : string;
  t_to : string;
  t_reason : string;
}.

(** [ORDER BY sequence] *)
Definition incident_transitions (incident_id : uuid) (d : db) : list Transition :=
  omap (fun e =>
    match oe_payload e with
    | PIncidentStatusChanged p =>
        if bool_decide (oe_aggregate_id e = incident_id)
           && bool_decide (oe_event_type e = "IncidentStatusChanged")
        then Some {| t_at := oe_occurred_at e; t_from := isc_from_status p;
                     t_to := isc_to_status p; t_reason := isc_reason p |}
        else None
    | _ => None
    end) (order_by oe_sequence (outbox_events d)).

(** [ORDER BY attempt_number DESC LIMIT 1] *)
Definition latest_for_incident (incident_id : uuid) (d : db) : option InvestigationRow :=
  head (order_by (fun r => - inv_attempt_number r)
    (List.filter (fun r => bool_decide (inv_incident_id r = incident_id)) (rows (investigations d)))).
