(* ===== verification/AgentTools.v ===== *)
(** * The tools of an investigation ([packages/tools], [packages/agents/toolset.py])

    [ToolExecutor]: schema validation, the budgets on calls and on repeated calls, one
    retry of a transient failure, failures as values.  [InvestigationToolset] puts the
    model-facing names in front of it, adds the listing of recorded evidence and compacts
    what the model sees.

    Validating a dynamic value against a tool's input model is pydantic's and is the
    interface [ToolSchemas]; the constraints the source declares are [input_ok]. *)
From S2P Require Import Prelude PyFloat Json Enums VerificationDomain Catalog.
From S2P Require Import RemediationDomain InvestigationDomain Store RemediationService TxLogic Prog.
From S2P Require Import IncidentRepository AlertIdentity IncidentService EvidenceScope EvidenceService.
From Stdlib Require Import SpecFloat.
Local Open Scope Z_scope.

(** ** Contracts ([packages/tools/contracts.py]) *)

Inductive ToolInput :=
| GetMetricsInput (metric : string) (service : option string) (start end_ : option instant)
| GetServiceHealthInput (service : option string) (at_ : option instant)
| GetLogsInput (service : option string) (start end_ : option instant)
    (severities : option (list string)) (trace_id request_id : option string) (limit : Z)
| GetTraceInput (trace_id : string)
| GetTracesInput (service : option string) (start end_ : option instant) (mode : string)
    (min_duration_ms : option Z) (limit : Z)
| GetDeploysInput (service : option string) (start end_ : option instant) (limit : Z)
| GetConfigHistoryInput (service : option string) (start end_ : option instant) (limit : Z)
| GetGitDiffInput (service : option string) (start end_ : option instant) (sha : option string)
    (limit : Z)
| GetRecentCommitsInput (service : option string) (limit : Z)
| SearchHistoricalIncidentsInput (limit : Z).

Definition MetricName : list string :=
  ["request_rate"; "error_rate"; "latency_p50"; "latency_p95"; "latency_p99";
   "dependency_error_rate"; "cpu_usage"; "memory_usage"; "availability"].
Definition Severity : list string := ["DEBUG"; "INFO"; "WARNING"; "ERROR"; "CRITICAL"].

Definition is_hex (c : Ascii.ascii) : bool := is_digit c || ascii_in 97 102 c || ascii_in 65 70 c.
Definition between (lo hi n : Z) : bool := (lo <=? n) && (n <=? hi).
Definition service_ok (o : option string) : bool := opt_ok (pat_matches _SERVICE) o.
Definition chars_between (lo hi : nat) (p : Ascii.ascii -> bool) (s : string) : bool :=
  length_between lo hi s && all_chars p s.

Definition input_ok (i : ToolInput) : bool :=
  match i with
  | GetMetricsInput metric service _ _ => bool_decide (metric ∈ MetricName) && service_ok service
  | GetServiceHealthInput service _ => service_ok service
  | GetLogsInput service _ _ severities trace_id request_id limit =>
      service_ok service
      && opt_ok (fun l => count_between 0 5 l && forallb (fun s => bool_decide (s ∈ Severity)) l)
           severities
      && opt_ok (chars_between 16 32 is_hex) trace_id
      && opt_ok (chars_between 8 64 (fun c => is_hex c || is_char 45 c)) request_id
      && between 1 MAX_LOG_LINES_RETURNED limit
  | GetTraceInput trace_id => chars_between 16 32 is_hex trace_id
  | GetTracesInput service _ _ mode min_duration_ms limit =>
      service_ok service && bool_decide (mode ∈ SEARCH_MODES)
      && opt_ok (between 1 600000) min_duration_ms && between 1 MAX_TRACES limit
  | GetDeploysInput service _ _ limit => service_ok service && between 1 MAX_DEPLOYMENTS limit
  | GetConfigHistoryInput service _ _ limit =>
      service_ok service && between 1 MAX_CONFIG_CHANGES limit
  | GetGitDiffInput service _ _ sha limit =>
      service_ok service
      && opt_ok (chars_between 7 40 (fun c => is_digit c || ascii_in 97 102 c)) sha
      && between 1 MAX_COMMITS limit
  | GetRecentCommitsInput service limit => service_ok service && between 1 MAX_COMMITS limit
  | SearchHistoricalIncidentsInput limit => between 1 MAX_SIMILAR_INCIDENTS limit
  end.

(** ** The registry ([packages/tools/registry.py]) *)

Definition TOOLS : list string :=
  ["get_metrics"; "get_service_health"; "get_logs"; "get_trace"; "get_traces"; "get_deploys";
   "get_config_history"; "get_git_diff"; "get_recent_commits"; "search_historical_incidents"].
Definition DECISION_TOOL_SPECS : list string := [UPDATE_HYPOTHESES; CONCLUDE; DECLARE_INCONCLUSIVE].

(** The tool an input model belongs to, and its handler. *)
Definition tool_of (i : ToolInput) : string :=
  match i with
  | GetMetricsInput _ _ _ _ => "get_metrics"
  | GetServiceHealthInput _ _ => "get_service_health"
  | GetLogsInput _ _ _ _ _ _ _ => "get_logs"
  | GetTraceInput _ => "get_trace"
  | GetTracesInput _ _ _ _ _ _ => "get_traces"
  | GetDeploysInput _ _ _ _ => "get_deploys"
  | GetConfigHistoryInput _ _ _ _ => "get_config_history"
  | GetGitDiffInput _ _ _ _ _ => "get_git_diff"
  | GetRecentCommitsInput _ _ => "get_recent_commits"
  | SearchHistoricalIncidentsInput _ => "search_historical_incidents"
  end.

Definition handler (i : ToolInput) : EvidenceQuery :=
  match i with
  | GetMetricsInput metric service start end_ => get_metric_window metric service start end_
  | GetServiceHealthInput service at_ => get_service_health service at_
  | GetLogsInput service start end_ severities trace_id request_id limit =>
      get_logs service start end_
        (match severities with Some (s :: l) => Some (s :: l) | _ => None end)
        trace_id request_id (Some limit)
  | GetTraceInput trace_id => get_trace trace_id
  | GetTracesInput service start end_ mode min_duration_ms limit =>
      get_traces service start end_ mode min_duration_ms (Some limit)
  | GetDeploysInput service start end_ limit => get_recent_deployments service start end_ (Some limit)
  | GetConfigHistoryInput service start end_ limit =>
      get_config_changes service start end_ (Some limit)
  | GetGitDiffInput service start end_ sha limit =>
      get_code_changes service start end_ sha (Some limit)
  | GetRecentCommitsInput service limit => get_recent_commits service (Some limit)
  | SearchHistoricalIncidentsInput limit => search_similar_incidents (Some limit)
  end.

(** [model_validate] of the input models; [str(exc)] of the one used directly. *)
Class ToolSchemas := {
  validate_input : string -> json -> list SchemaError + ToolInput;
  validate_listing : json -> string + Z;
  validate_input_ok : forall name j i,
    validate_input name j = inr i -> tool_of i = name /\ input_ok i = true;
  validate_listing_ok : forall j n, validate_listing j = inr n -> 1 <= n <= 40;
}.

(** ** The executor ([packages/tools/executor.py]) *)

Record ToolContext := { tc_incident_id : uuid; tc_investigation_id : option uuid }.

Record ToolBudget := { tb_max_calls : Z; tb_max_identical_calls : Z; tb_max_attempts_per_call : nat }.

Record ToolErrorDetail := { te_code : string; te_message : string; te_retryable : bool }.
Inductive ToolResult :=
| ToolSuccess (item : EvidenceItem)
| ToolFailure (error : ToolErrorDetail).

Definition _fail (code message : string) : ToolResult :=
  ToolFailure {| te_code := code; te_message := message; te_retryable := false |}.

Definition _call_key (tool : string) (arguments : json) : string :=
  tool +++ ":" +++ canonical_json arguments.

(** A JSON text with the field locations and messages of a validation error. *)
Definition problems_text (errors : list SchemaError) : string :=
  join "; " (map (fun e =>
    (if nonempty (join "." (loc e)) then join "." (loc e) else "(root)") +++ ": " +++ msg e) errors).

Section Tools.
Context {HA : Hashing} {AD : Adapters} {TS : ToolSchemas} (catalog : ServiceCatalog).

(** The counters of the executor, before the world of evidence-service. *)
Record ToolState := {
  tl_calls : Z;
  tl_seen : gmap string Z;
  tl_evidence : EvidenceWorld;
}.
#[export] Instance ToolState_rebuild : Rebuild ToolState := fun r =>
  Build_ToolState (tl_calls r) (tl_seen r) (tl_evidence r).

Abbreviation Tool := (Prog (ToolState * db)).

Definition on_evidence {A} (m : Prog (EvidenceWorld * db) A) : Tool A := fun s =>
  let '(r, (e, d)) := m (tl_evidence s.1, s.2) in (r, (s.1 <| tl_evidence := e |>, d)).

(** [self._calls += 1; self._seen[key] += 1] *)
Definition count_call (key : string) (t : ToolState) : ToolState :=
  t <| tl_calls ::= Z.succ |>
    <| tl_seen ::= (fun m => <[key := default 0 (m !! key) + 1]> m) |>.

(** The executor of a resumed run starts from the calls already made. *)
Definition seeded (prior_calls : list (string * json)) (t : ToolState) : ToolState :=
  foldl (fun t c => count_call (_call_key c.1 c.2) t) (t <| tl_calls := 0 |> <| tl_seen := ∅ |>)
    prior_calls.

(** [for attempt in range(1, max_attempts_per_call + 1)] *)
Fixpoint attempts (ctx : ToolContext) (i : ToolInput) (n : nat) : Tool ToolResult :=
  match n with
  | O => throw (AssertionError "unreachable")
  | S n' =>
      r ← attempt (on_evidence (_run catalog (tc_incident_id ctx) ("tool:" +++ tool_of i)
                                  (tc_investigation_id ctx) (handler i)));
      match r with
      | Ok item => mret (ToolSuccess item)
      | Err (EvidenceError code message retryable) =>
          if retryable && negb (bool_decide (n' = O)) then attempts ctx i n'
          else mret (ToolFailure {| te_code := code; te_message := message; te_retryable := retryable |})
      | Err e => throw e
      end
  end.

Definition execute_tool (ctx : ToolContext) (b : ToolBudget) (tool : string) (arguments : json)
    : Tool ToolResult :=
  let arguments := or_empty arguments in
  if negb (bool_decide (tool ∈ TOOLS)) then
    mret (if bool_decide (tool ∈ DECISION_TOOL_SPECS)
          then _fail "decision_tool" (tool +++ " is handled by the investigation engine")
          else _fail "unknown_tool" ("no tool named " +++ repr_str tool))
  else
    t ← (fun s => (Ok s.1, s));
    let key := _call_key tool arguments in
    if tb_max_calls b <=? tl_calls t then
      mret (_fail "budget_exceeded" ("tool call budget of " +++ str_Z (tb_max_calls b) +++ " spent"))
    else if tb_max_identical_calls b <=? default 0 (tl_seen t !! key) then
      mret (_fail "repeated_call" "this exact call was already made; try a different query")
    else
      _ ← (fun s => (Ok (), (count_call key s.1, s.2)));
      match validate_input tool arguments with
      | inl errors => mret (_fail "invalid_argument" (problems_text errors))
      | inr i => attempts ctx i (tb_max_attempts_per_call b)
      end.
End Tools.

(** ** Compaction ([packages/agents/toolset.py]) *)

Definition MAX_RESULT_CHARS : nat := 6000.
Definition MAX_LISTED_EVIDENCE : Z := 40.

(** [[timestamp, value], ...] *)
Definition _is_series (l : list json) : bool :=
  match l with
  | [] => false
  | _ => forallb (fun p => match p with JArr [JStr _; _] => true | _ => false end) l
  end.

(** [sorted({round(i * step) for i in range(keep)})], [step] a float. *)
Fixpoint insert_Z (n : Z) (l : list Z) : list Z :=
  match l with
  | [] => [n]
  | m :: l' => if n <? m then n :: l else if n =? m then l else m :: insert_Z n l'
  end.
Definition float_Z (n : Z) : float := flit n 0.
Definition picks (len keep : nat) : list Z :=
  let step := SFdiv 53 1024 (float_Z (Z.of_nat len - 1)) (float_Z (Z.max (Z.of_nat keep - 1) 1)) in
  foldr insert_Z [] (map (fun i => fround (fmul (float_Z (Z.of_nat i)) step)) (seq 0 keep)).

Fixpoint _trim_lists (keep : nat) (node : json) : json :=
  match node with
  | JArr l =>
      if _is_series l && bool_decide ((keep < length l)%nat) then
        JArr (omap (fun n => nth_error l (Z.to_nat n)) (picks (length l) keep)
              ++ [JStr ("... downsampled from " +++ str_Z (Z.of_nat (length l)) +++ " points")])
      else
        JArr (take keep (map (_trim_lists keep) l)
              ++ (if bool_decide ((keep < length l)%nat)
                  then [JStr ("... " +++ str_Z (Z.of_nat (length l) - Z.of_nat keep) +++ " more")]
                  else []))
  | JObj l => JObj (map (fun kv => (kv.1, _trim_lists keep kv.2)) l)
  | _ => node
  end.

Definition TRUNCATED : string :=
  "..." +++ dquote +++ "[truncated; full record in the evidence store]" +++ dquote.

(** [while len(text) > limit and keep >= 1: ...; keep //= 2] *)
Fixpoint trimmed (limit : nat) (keeps : list nat) (value : json) : json :=
  match keeps with
  | [] => value
  | keep :: keeps' =>
      if bool_decide ((limit < String.length (_json value))%nat)
      then trimmed limit keeps' (_trim_lists keep value) else value
  end.

Definition compact_to (limit : nat) (value : json) : string :=
  let text := _json (trimmed limit [8; 4; 2; 1]%nat value) in
  if bool_decide ((limit < String.length text)%nat)
  then take_str (limit - 60) text +++ TRUNCATED else text.
Definition compact : json -> string := compact_to MAX_RESULT_CHARS.

(** ** What the engine needs of its tools *)

Record ToolOutcome := {
  to_ok : bool;
  to_observation : string;
  to_evidence_ids : list string;
  to_new_evidence : Z;
  to_error_code : option string;
  to_summary : option string;
  to_latency_ms : Z;
}.
#[export] Instance ToolOutcome_rebuild : Rebuild ToolOutcome := fun r =>
  Build_ToolOutcome (to_ok r) (to_observation r) (to_evidence_ids r) (to_new_evidence r)
    (to_error_code r) (to_summary r) (to_latency_ms r).
