(* ===== verification/AgentContext.v ===== *)
(** * What a model is told ([packages/agents/context.py], [engine.py], [sanitize.py])

    The initial context of an incident, the transcript rebuilt from the recorded steps,
    and the counts the engine reads off the trace: pending calls, calls to seed the
    budgets with, trailing invalid turns and trailing backend failures.

    A step's payload is the dictionary that was recorded.  The ellipsis of [clean_text] is
    written as its UTF-8 bytes. *)
From S2P Require Import Prelude PyFloat Json Enums VerificationDomain Catalog.
From S2P Require Import RemediationDomain Uuid InvestigationDomain Store RemediationService.
From S2P Require Import IncidentRepository AlertIdentity IncidentService InvestigationService.
From S2P Require Import EvidenceScope AgentModel.
Local Open Scope Z_scope.

(** ** [clean_text] *)

Definition is_escape (c : Ascii.ascii) : bool := is_char 27 c.
Definition is_control (c : Ascii.ascii) : bool := ascii_in 0 8 c || ascii_in 11 31 c || is_char 127 c.

Fixpoint drop_while (p : Ascii.ascii -> bool) (s : string) : string :=
  match s with
  | String c s' => if p c then drop_while p s' else s
  | EmptyString => EmptyString
  end.

(** What follows an escape character, when it starts a sequence the pattern matches. *)
Definition after_escape (s : string) : option string :=
  match s with
  | String c s' =>
      if is_char 91 c then
        match drop_while (ascii_in 32 47)
                (drop_while (fun c => is_digit c || is_char 59 c || is_char 63 c) s') with
        | String f rest => if ascii_in 64 126 f then Some rest else Some s'
        | EmptyString => Some s'
        end
      else if ascii_in 64 95 c then Some s' else None
  | EmptyString => None
  end.

Fixpoint strip_ansi (fuel : nat) (s : string) : string :=
  match fuel, s with
  | S n, String c s' =>
      match (if is_escape c then after_escape s' else None) with
      | Some rest => strip_ansi n rest
      | None => String c (strip_ansi n s')
      end
  | _, _ => s
  end.

Fixpoint strip_control (s : string) : string :=
  match s with
  | EmptyString => EmptyString
  | String c s' => if is_control c then strip_control s' else String c (strip_control s')
  end.

Definition ellipsis : string :=
  String (Ascii.ascii_of_nat 226) (String (Ascii.ascii_of_nat 128) (String (Ascii.ascii_of_nat 166) "")).

Definition clean_text (value : string) (max_chars : nat) : string :=
  let cleaned := strip_control (strip_ansi (String.length value) value) in
  if bool_decide ((max_chars < String.length cleaned)%nat)
  then take_str (max_chars - 1) cleaned +++ ellipsis else cleaned.

(** ** The context *)

Definition json_iso (t : instant) : json := JStr (isoformat t).

(** [ORDER BY received_at, id] *)
Definition by_arrival (l : list AlertRow) : list AlertRow :=
  order_by a_received_at (order_by (fun a => Z.of_N (a_id a)) l).

Definition fired_events (a : AlertRow) : list (string * string) :=
  let name := default "alert" (a_labels a !! "alertname") in
  (isoformat (a_received_at a), name +++ " fired")
  :: match a_resolved_at a with
     | Some t => [(isoformat t, name +++ " resolved")]
     | None => []
     end.

Definition alert_timeline (alerts : list AlertRow) : list json :=
  map (fun e => JObj [("at", JStr e.1); ("event", JStr e.2)])
    (foldr (insert_lt (fun a b : string * string => str_ltb a.1 b.1)) []
       (flat_map fired_events alerts)).

Definition alert_json (a : AlertRow) : json :=
  JObj [("alertname", jopt_str (a_labels a !! "alertname"));
        ("severity", JStr (AlertSeverity_value (a_severity a)));
        ("status", JStr (AlertStatus_value (a_status a)));
        ("alert_type", jopt_str (a_labels a !! "alert_type"));
        ("fired_at", json_iso (a_received_at a));
        ("resolved_at", opt_json (json_iso <$> a_resolved_at a));
        ("summary", JStr (clean_text (default "" (a_annotations a !! "summary")) 300));
        ("description", JStr (clean_text (default "" (a_annotations a !! "description")) 500))].

Definition ref_json (r : EvidenceRefRow) : json :=
  JObj [("evidence_id", JStr (str_uuid (er_id r))); ("evidence_type", JStr (er_evidence_type r));
        ("source", JStr (er_source_system r)); ("collected_at", json_iso (er_collected_at r))].

Definition strings (l : list string) : json := JArr (map JStr l).

Definition build_context (incident : IncidentRow * list AlertRow) (evidence_refs : list EvidenceRefRow)
    (catalog : ServiceCatalog) (budget : InvestigationBudget) (now : instant) : json :=
  let '(i, l) := incident in
  let alerts := by_arrival l in
  let dependencies := match cat_services catalog !! i_service i with
                      | Some e => se_dependencies e | None => [] end in
  JObj [("incident",
         JObj [("service", JStr (i_service i)); ("environment", JStr (i_environment i));
               ("regions", strings (_label_values alerts "region"));
               ("severity", JStr (AlertSeverity_value (i_severity i)));
               ("status", JStr (IncidentStatus_value (i_status i)));
               ("opened_at", json_iso (i_created_at i)); ("now", json_iso now)]);
        ("alerts", JArr (map alert_json alerts));
        ("alert_timeline", JArr (alert_timeline alerts));
        ("service_topology",
         JObj [("service", JStr (i_service i)); ("calls", strings dependencies);
               ("called_by", strings (sorted (elements (dependents catalog (i_service i)))))]);
        ("existing_evidence", JArr (map ref_json evidence_refs));
        ("budget",
         JObj [("max_turns", JInt (max_iterations budget));
               ("max_evidence_tool_calls", JInt (max_tool_calls budget));
               ("max_evidence_items", JInt (max_evidence_items budget))])].

Definition render_context (context : json) : string :=
  "Investigate this incident. Incident context (JSON):" +++ newline +++ dumps_indent 0 context.

(** ** Reading a recorded payload *)

Definition payload_of (s : InvestigationStepRow) : list (string * json) :=
  match st_payload s with JObj l => l | _ => [] end.
(** [payload.get(k, d)] *)
Definition pget (k : string) (d : json) (s : InvestigationStepRow) : json :=
  default d (assoc_get k (payload_of s)).
(** [payload[k]] *)
Definition pitem (k : string) (s : InvestigationStepRow) : result json := jitem k (payload_of s).
(** [d[k]] of a value *)
Definition item_of (k : string) (j : json) : result json :=
  match j with JObj l => jitem k l | _ => Err (TypeError "indices must be integers") end.

(** [a.model_dump()], and the action read back from its fields. *)
Definition action_json (a : ModelAction) : json :=
  JObj [("call_id", JStr (act_call_id a)); ("name", JStr (act_name a));
        ("arguments", act_arguments a)].
Definition action_of (j : json) : result ModelAction :=
  match j with
  | JObj l =>
      match assoc_get "call_id" l, assoc_get "name" l, assoc_get "arguments" l with
      | Some (JStr c), Some (JStr n), Some (JObj a) =>
          Ok {| act_call_id := c; act_name := n; act_arguments := JObj a |}
      | _, _, _ => Err (ValidationError "validation error for ModelAction")
      end
  | _ => Err (TypeError "argument after ** must be a mapping")
  end.
(** The actions of a recorded turn, [payload.get("actions", [])] read back. *)
Definition actions_of (s : InvestigationStepRow) : result (list ModelAction) :=
  l <-! iterate (pget "actions" (JArr []) s);
  traverse action_of l.

Definition is_kind (k : StepKind) (s : InvestigationStepRow) : bool := bool_decide (st_kind s = k).
Definition has_call_id (s : InvestigationStepRow) : bool :=
  match st_call_id s with Some c => nonempty c | None => false end.
Definition is_action_step (s : InvestigationStepRow) : bool :=
  bool_decide (st_kind s ∈ ACTION_STEP_KINDS).

(** ** The transcript *)

Definition applied_entry (a : json) : result json :=
  key <-! item_of "key" a; from_ <-! item_of "from_status" a; to_ <-! item_of "to_status" a;
  Ok (JObj [("key", key); ("from", from_); ("to", to_)]).
Definition json_length (j : json) : result json :=
  match j with
  | JArr l => Ok (JInt (Z.of_nat (length l)))
  | JObj l => Ok (JInt (Z.of_nat (length l)))
  | JStr s => Ok (JInt (Z.of_nat (String.length s)))
  | _ => Err (TypeError "object has no len()")
  end.
Definition hypothesis_entry (h : json) : result json :=
  key <-! item_of "key" h; status <-! item_of "status" h; confidence <-! item_of "confidence" h;
  s <-! item_of "supporting_evidence_ids" h; ns <-! json_length s;
  c <-! item_of "contradicting_evidence_ids" h; nc <-! json_length c;
  Ok (JObj [("key", key); ("status", status); ("confidence", confidence);
            ("supporting", ns); ("contradicting", nc)]).
(** ["; ".join(l)] *)
Definition join_json (sep : string) (j : json) : result string :=
  l <-! iterate j;
  texts <-! traverse (fun x => match x with JStr s => Ok s
                               | _ => Err (TypeError "sequence item: expected str instance") end) l;
  Ok (join sep texts).

(** What the model was told for an action step. *)
Definition observation_for (s : InvestigationStepRow) : result (json * bool) :=
  match st_kind s with
  | S_TOOL_CALL | S_INVALID_CALL =>
      text <-! pitem "observation" s;
      Ok (text, truthy (pget "is_error" JNull s))
  | S_HYPOTHESIS_UPDATE =>
      let rejected := pget "rejected" (JArr []) s in
      la <-! iterate (pget "applied" (JArr []) s);
      applied <-! traverse applied_entry la;
      lh <-! iterate (pget "hypotheses" (JArr []) s);
      hypotheses <-! traverse hypothesis_entry lh;
      Ok (JStr ("Hypothesis update result: "
                  +++ _json (JObj [("applied", JArr applied); ("rejected", rejected);
                                   ("hypotheses", JArr hypotheses)])),
          truthy rejected)
  | S_CONCLUSION_REJECTED =>
      unmet <-! join_json "; " (pget "unmet_criteria" (JArr []) s);
      Ok (JStr ("Conclusion not accepted. Unmet criteria: " +++ unmet), true)
  | _ => Ok (JStr "", false)
  end.

(** The entries so far, and the results and notices not yet flushed. *)
Record Building := {
  bl_entries : list TranscriptEntry;
  bl_results : list ToolResultEntry;
  bl_notices : list json;
}.

Definition flush (b : Building) : Building :=
  match bl_results b, bl_notices b with
  | [], [] => b
  | r, n => {| bl_entries := bl_entries b ++ [ObservationEntry r n]; bl_results := [];
               bl_notices := [] |}
  end.

Definition transcript_step (b : Building) (s : InvestigationStepRow) : result Building :=
  if is_kind S_CONTEXT s then
    context <-! pitem "context" s;
    Ok {| bl_entries := bl_entries b ++ [ContextEntry (render_context context)];
          bl_results := bl_results b; bl_notices := bl_notices b |}
  else if is_kind S_MODEL_TURN s then
    let b' := flush b in
    actions <-! actions_of s;
    Ok {| bl_entries := bl_entries b' ++
            [AssistantEntry (pget "text" (JStr "") s) actions (pget "provider_payload" (JObj []) s)];
          bl_results := bl_results b'; bl_notices := bl_notices b' |}
  else if is_action_step s && has_call_id s then
    o <-! observation_for s;
    Ok {| bl_entries := bl_entries b;
          bl_results := bl_results b ++
            [{| re_call_id := default "" (st_call_id s); re_content := o.1; re_is_error := o.2 |}];
          bl_notices := bl_notices b |}
  else if is_kind S_FEEDBACK s then
    text <-! pitem "text" s;
    Ok {| bl_entries := bl_entries b; bl_results := bl_results b; bl_notices := bl_notices b ++ [text] |}
  else Ok b.

Fixpoint transcript_steps (b : Building) (steps : list InvestigationStepRow) : result Building :=
  match steps with
  | [] => Ok b
  | s :: l => b' <-! transcript_step b s; transcript_steps b' l
  end.

Definition build_transcript (steps : list InvestigationStepRow) : result (list TranscriptEntry) :=
  b <-! transcript_steps {| bl_entries := []; bl_results := []; bl_notices := [] |} steps;
  Ok (bl_entries (flush b)).

(** ** Counts *)

Definition _BACKEND_FAILURES : list string := ["backend_unavailable"; "backend_timeout"].

Definition model_turns (steps : list InvestigationStepRow) : list InvestigationStepRow :=
  List.filter (is_kind S_MODEL_TURN) steps.

(** Calls already made, to seed the budgets of a resumed run. *)
Definition _prior_calls (steps : list InvestigationStepRow) : result (list (string * json)) :=
  traverse (fun s =>
      tool <-! pitem "tool" s;
      match tool with
      | JStr t => Ok (t, pget "arguments" (JObj []) s)
      | _ => Err (TypeError "unhashable type")
      end)
    (List.filter (fun s => is_kind S_TOOL_CALL s && truthy (pget "counted" JNull s)) steps).

Fixpoint count_while {A} (p : A -> bool) (l : list A) : Z :=
  match l with [] => 0 | a :: l' => if p a then 1 + count_while p l' else 0 end.

(** A turn without a valid action. *)
Definition invalid_turn (steps : list InvestigationStepRow) (turn : InvestigationStepRow) : bool :=
  let answers := List.filter (fun s => (st_iteration s =? st_iteration turn) && has_call_id s) steps in
  let valid := List.filter (fun s => negb (is_kind S_INVALID_CALL s)) answers in
  negb (truthy (pget "actions" JNull turn)) || match valid with [] => true | _ => false end.
Definition _trailing_invalid_turns (steps : list InvestigationStepRow) : Z :=
  count_while (invalid_turn steps) (rev (model_turns steps)).

Definition backend_failure (s : InvestigationStepRow) : bool :=
  negb (truthy (pget "ok" JNull s))
  && match pget "error_code" JNull s with JStr c => bool_decide (c ∈ _BACKEND_FAILURES) | _ => false end.
Definition _trailing_backend_failures (steps : list InvestigationStepRow) : Z :=
  count_while backend_failure (rev (List.filter (is_kind S_TOOL_CALL) steps)).

Definition _budget_notice (state : InvestigationState) (iteration : Z) (final_reason : option string)
    : string :=
  let inv := is_investigation state in
  let budget := inv_budget inv in
  "Budget: turn " +++ str_Z iteration +++ " of " +++ str_Z (max_iterations budget)
  +++ "; evidence tool calls " +++ str_Z (inv_tool_call_count inv) +++ "/"
  +++ str_Z (max_tool_calls budget) +++ "; evidence items " +++ str_Z (inv_evidence_count inv) +++ "/"
  +++ str_Z (max_evidence_items budget) +++ "."
  +++ match final_reason with
      | Some r => " FINAL TURN (" +++ r +++ "): evidence tools are disabled. Call "
                    +++ "conclude_investigation if the criteria are met; otherwise declare_inconclusive."
      | None => ""
      end.
