(* ===== verification/AgentToolset.v ===== *)
(** * The tools of an investigation ([packages/agents/toolset.py])

    [Toolset] is what the engine needs of its tools; [InvestigationToolset] is the
    implementation the platform runs: the model-facing names in front of the tool
    executor, the listing of recorded evidence, and what the model sees of a result. *)
From S2P Require Import Prelude PyFloat Json Enums VerificationDomain Catalog.
From S2P Require Import RemediationDomain Uuid InvestigationDomain Store TxLogic Prog.
From S2P Require Import RemediationService IncidentRepository AlertIdentity IncidentService.
From S2P Require Import InvestigationService EvidenceScope EvidenceService.
From S2P Require Import AgentTools AgentModel AgentContext.
Local Open Scope Z_scope.

(** The model-facing names and the contract behind each. *)
Definition EVIDENCE_TOOL_ALIASES : list (string * string) :=
  [("get_service_health", "get_service_health"); ("get_metric_window", "get_metrics");
   ("get_logs", "get_logs"); ("get_traces", "get_traces"); ("get_trace", "get_trace");
   ("get_recent_deployments", "get_deploys"); ("get_config_changes", "get_config_history");
   ("get_code_changes", "get_git_diff"); ("get_recent_commits", "get_recent_commits");
   ("search_similar_incidents", "search_historical_incidents")].
Definition GET_INCIDENT_EVIDENCE : string := "get_incident_evidence".
Definition EVIDENCE_TOOL_NAMES : gset string :=
  list_to_set (GET_INCIDENT_EVIDENCE :: EVIDENCE_TOOL_ALIASES.*1).

(** ** What the engine needs *)

(** A run builds its tools from the loaded state and calls them by name.  A call writes
    at most references, returns identifiers, and counts at most one new item; listing what
    is recorded counts none. *)
Class Toolset := {
  ts_state : Type;
  ts_object : Type;
  ts_make : InvestigationState -> Prog ts_state ts_object;
  ts_execute : ts_object -> string -> json -> Prog (ts_state * db) ToolOutcome;
  ts_registers : forall o tool arguments, respects (beside registers) (ts_execute o tool arguments);
  ts_readable : forall o tool arguments s out s',
    ts_execute o tool arguments s = (Ok out, s') ->
    exists l, traverse parse_uuid (to_evidence_ids out) = Ok l;
  ts_counts : forall o tool arguments s out s',
    ts_execute o tool arguments s = (Ok out, s') ->
    0 <= to_new_evidence out <= 1 /\ (tool = GET_INCIDENT_EVIDENCE -> to_new_evidence out = 0);
}.

(** ** [InvestigationToolset] *)

Section Live.
Context {HA : Hashing} {AD : Adapters} {TS : ToolSchemas} (catalog : ServiceCatalog).
(** [time.monotonic()], in milliseconds. *)
Context (monotonic_ms : ToolState * db -> Z).

Abbreviation Tool := (Prog (ToolState * db)).

Record InvestigationToolset := {
  tt_incident_id : uuid;
  tt_context : ToolContext;
  tt_budget : ToolBudget;
}.

(** The name behind an alias, itself when it is none. *)
Definition unaliased (tool : string) : string :=
  default tool (assoc_get tool EVIDENCE_TOOL_ALIASES).

(** The constructor, with the calls a resumed run starts from. *)
Definition new_toolset (prior_calls : list (string * json)) (incident_id investigation_id : uuid)
    (max_tool_calls max_identical_calls : Z) : Prog ToolState InvestigationToolset := fun t =>
  (Ok {| tt_incident_id := incident_id;
         tt_context := {| tc_incident_id := incident_id; tc_investigation_id := Some investigation_id |};
         tt_budget := {| tb_max_calls := max_tool_calls; tb_max_identical_calls := max_identical_calls;
                         tb_max_attempts_per_call := 2 |} |},
   seeded (map (fun c => (unaliased c.1, c.2)) prior_calls) t).

(** [engine._live_toolset] *)
Definition _live_toolset (state : InvestigationState) : Prog ToolState InvestigationToolset :=
  let inv := is_investigation state in
  prior ← pure (_prior_calls (is_steps state));
  new_toolset prior (inv_incident_id inv) (inv_id inv) (max_tool_calls (inv_budget inv))
    (max_identical_tool_calls (inv_budget inv)).

(** An outcome with its defaults. *)
Definition outcome (ok : bool) (observation : string) : ToolOutcome :=
  {| to_ok := ok; to_observation := observation; to_evidence_ids := []; to_new_evidence := 0;
     to_error_code := None; to_summary := None; to_latency_ms := 0 |}.

Definition item_payload (i : EvidenceItem) : json :=
  JObj [("evidence_id", JStr (str_uuid (it_evidence_id i)));
        ("evidence_type", JStr (EvidenceType_value (it_evidence_type i)));
        ("source", JStr (SourceSystem_value (it_source_system i)));
        ("service", JStr (it_subject_service i));
        ("observed_at", json_iso (it_observed_at i)); ("summary", JStr (it_summary i));
        ("data", it_data i)].
Definition error_json (e : ToolErrorDetail) : json :=
  JObj [("error", JObj [("code", JStr (te_code e)); ("message", JStr (te_message e));
                        ("retryable", JBool (te_retryable e))])].
Definition error_of (code message : string) : json :=
  JObj [("error", JObj [("code", JStr code); ("message", JStr message)])].

Definition outcome_of (r : ToolResult) : ToolOutcome :=
  match r with
  | ToolSuccess i =>
      outcome true (compact (item_payload i))
        <| to_evidence_ids := [str_uuid (it_evidence_id i)] |> <| to_new_evidence := 1 |>
        <| to_summary := Some (it_summary i) |>
  | ToolFailure e =>
      outcome false (compact (error_json e)) <| to_error_code := Some (te_code e) |>
        <| to_summary := Some (take_str 300 (te_message e)) |>
  end.

Definition _evidence_tool (t : InvestigationToolset) (tool : string) (arguments : json)
    : Tool ToolOutcome :=
  contract ← pure (match assoc_get tool EVIDENCE_TOOL_ALIASES with
                   | Some c => Ok c
                   | None => Err (KeyError tool)
                   end);
  result ← execute_tool catalog (tt_context t) (tt_budget t) contract arguments;
  mret (outcome_of result).

(** [records[-n:]] for a positive [n] *)
Definition last_n {A} (n : Z) (l : list A) : list A := drop (length l - Z.to_nat n) l.

Definition listed_json (r : EvidenceRecord) : json :=
  JObj [("evidence_id", JStr (str_uuid (ev_evidence_id r)));
        ("evidence_type", JStr (EvidenceType_value (ev_evidence_type r)));
        ("operation", JStr (ev_operation r)); ("service", JStr (ev_subject_service r));
        ("observed_at", json_iso (ev_observed_at r));
        ("summary", JStr (take_str 300 (ev_summary r)))].

Definition listing (limit : Z) (records : list EvidenceRecord) : ToolOutcome :=
  let listed := last_n limit records in
  outcome true (compact (JObj [("total_recorded", JInt (Z.of_nat (length records)));
                               ("evidence", JArr (map listed_json listed))]))
    <| to_evidence_ids := map (fun r => str_uuid (ev_evidence_id r)) listed |>
    <| to_summary := Some (str_Z (Z.of_nat (length listed)) +++ " of "
         +++ str_Z (Z.of_nat (length records)) +++ " recorded evidence items listed") |>.

Definition _incident_evidence (t : InvestigationToolset) (arguments : json) : Tool ToolOutcome :=
  match validate_listing arguments with
  | inl message =>
      mret (outcome false (compact (error_of "invalid_argument" message))
              <| to_error_code := Some "invalid_argument" |>)
  | inr limit =>
      r ← attempt (on_evidence (get_incident_evidence (tt_incident_id t)));
      match r with
      | Ok records => mret (listing limit records)
      | Err (EvidenceError code message _) =>
          mret (outcome false (compact (error_of code message)) <| to_error_code := Some code |>)
      | Err e => throw e
      end
  end.

Definition toolset_execute (t : InvestigationToolset) (tool : string) (arguments : json)
    : Tool ToolOutcome := fun s =>
  match (if bool_decide (tool = GET_INCIDENT_EVIDENCE) then _incident_evidence t arguments s
         else _evidence_tool t tool arguments s) with
  | (Ok o, s') => (Ok (o <| to_latency_ms := monotonic_ms s' - monotonic_ms s |>), s')
  | (Err e, s') => (Err e, s')
  end.

(** ** It is a toolset *)

Lemma on_evidence_respects {A} (m : Prog (EvidenceWorld * db) A) :
  respects (beside registers) m -> respects (beside registers) (on_evidence m).
Proof.
  intros H s. pose proof (H (tl_evidence s.1, s.2)) as Hs. unfold on_evidence, beside in *.
  by destruct (m _) as [r [e d]].
Qed.

Lemma attempts_registers ctx i n : respects (beside registers) (attempts catalog ctx i n).
Proof.
  induction n as [|n IH]; [apply respects_throw; tc_solve|]. cbn [attempts].
  apply respects_bind; [tc_solve|apply respects_attempt, on_evidence_respects, run_registers|].
  intros [item|e]; [apply respects_ret; tc_solve|].
  destruct e; try (apply respects_throw; tc_solve). case_match; [done|apply respects_ret; tc_solve].
Qed.

Lemma execute_tool_registers ctx b tool arguments :
  respects (beside registers) (execute_tool catalog ctx b tool arguments).
Proof.
  unfold execute_tool. destruct (negb _); [apply respects_ret; tc_solve|].
  apply respects_bind; [tc_solve|by intros s; unfold beside|]. intros t. cbv zeta.
  destruct (_ <=? _); [apply respects_ret; tc_solve|].
  destruct (_ <=? _); [apply respects_ret; tc_solve|].
  apply respects_bind; [tc_solve|by intros s; unfold beside|]. intros _.
  destruct (validate_input _ _); [apply respects_ret; tc_solve|apply attempts_registers].
Qed.

Lemma toolset_registers t tool arguments :
  respects (beside registers) (toolset_execute t tool arguments).
Proof.
  assert (respects (beside registers) (_incident_evidence t arguments)) as H1.
  { unfold _incident_evidence. destruct (validate_listing _); [apply respects_ret; tc_solve|].
    apply respects_bind; [tc_solve|by apply respects_attempt, on_evidence_respects, respects_same|].
    intros [l|e]; [apply respects_ret; tc_solve|].
    destruct e; try (apply respects_throw; tc_solve); apply respects_ret; tc_solve. }
  assert (respects (beside registers) (_evidence_tool t tool arguments)) as H2.
  { unfold _evidence_tool. apply respects_bind; [tc_solve|apply respects_pure; tc_solve|]. intros c.
    apply respects_bind; [tc_solve|apply execute_tool_registers|]. intros r. apply respects_ret. tc_solve. }
  intros s. specialize (H1 s). specialize (H2 s). unfold toolset_execute.
  case_bool_decide; repeat case_match; simplify_eq/=; done.
Qed.

Lemma traverse_uuids l : exists ids, traverse parse_uuid (map str_uuid l) = Ok ids.
Proof.
  induction l as [|u l [ids IH]]; [by eexists|]. eexists. cbn [map traverse].
  rewrite parse_str_uuid_mod. cbn [rbind]. by rewrite IH.
Qed.

(** What comes back of a call. *)
Definition sound_outcome (tool : string) (o : ToolOutcome) : Prop :=
  (exists l, traverse parse_uuid (to_evidence_ids o) = Ok l)
  /\ 0 <= to_new_evidence o <= 1 /\ (tool = GET_INCIDENT_EVIDENCE -> to_new_evidence o = 0).

(** With the listed identifiers and the count of new items written out. *)
Lemma sound_outcome_is tool o l n :
  to_evidence_ids o = map str_uuid l -> to_new_evidence o = n -> 0 <= n <= 1 ->
  (tool = GET_INCIDENT_EVIDENCE -> n = 0) -> sound_outcome tool o.
Proof. intros Hl Hn ? ?. unfold sound_outcome. rewrite Hl, Hn. split; [apply traverse_uuids|done]. Qed.

Lemma outcome_of_sound tool r : tool <> GET_INCIDENT_EVIDENCE -> sound_outcome tool (outcome_of r).
Proof.
  intros Ht. destruct r as [i|e].
  - by apply (sound_outcome_is _ _ [it_evidence_id i] 1).
  - by apply (sound_outcome_is _ _ [] 0).
Qed.
Lemma listing_sound tool limit l : sound_outcome tool (listing limit l).
Proof.
  apply (sound_outcome_is _ _ (map ev_evidence_id (last_n limit l)) 0); [|done..].
  by rewrite map_map.
Qed.
Lemma failure_sound tool t c : sound_outcome tool (outcome false t <| to_error_code := c |>).
Proof. by apply (sound_outcome_is _ _ [] 0). Qed.

Lemma incident_evidence_sound t tool arguments s o s' :
  _incident_evidence t arguments s = (Ok o, s') -> sound_outcome tool o.
Proof.
  unfold _incident_evidence. intros E. destruct (validate_listing _) as [m|limit].
  - apply prog_ret_run in E as [[= ->] _]. apply failure_sound.
  - apply prog_bind_run in E as (r & s1 & _ & E). destruct r as [l|e].
    + apply prog_ret_run in E as [[= ->] _]. apply listing_sound.
    + destruct e; try discriminate E. apply prog_ret_run in E as [[= ->] _]. apply failure_sound.
Qed.
Lemma evidence_tool_sound t tool arguments s o s' :
  tool <> GET_INCIDENT_EVIDENCE -> _evidence_tool t tool arguments s = (Ok o, s') ->
  sound_outcome tool o.
Proof.
  unfold _evidence_tool. intros Ht E. apply prog_bind_run in E as (c & s1 & _ & E).
  apply prog_bind_run in E as (r & s2 & _ & E). apply prog_ret_run in E as [[= ->] _].
  by apply outcome_of_sound.
Qed.

Lemma toolset_sound t tool arguments s o s' :
  toolset_execute t tool arguments s = (Ok o, s') -> sound_outcome tool o.
Proof.
  unfold toolset_execute. intros H.
  assert (forall o' n, sound_outcome tool o' -> sound_outcome tool (o' <| to_latency_ms := n |>)) as Hl
    by done.
  case_bool_decide as Ht; [destruct (_incident_evidence _ _ _) as [[o'|e] s1] eqn:E
                          |destruct (_evidence_tool _ _ _ _) as [[o'|e] s1] eqn:E]; try discriminate H;
    injection H as <- <-; apply Hl; [by eapply incident_evidence_sound|by eapply evidence_tool_sound].
Qed.

Definition investigation_toolset : Toolset := {|
  ts_make := _live_toolset;
  ts_execute := toolset_execute;
  ts_registers := toolset_registers;
  ts_readable o tool arguments s out s' H := proj1 (toolset_sound o tool arguments s out s' H);
  ts_counts o tool arguments s out s' H := proj2 (toolset_sound o tool arguments s out s' H);
|}.
End Live.
