(* ===== verification/AgentEngine.v ===== *)
(** * The investigation engine ([packages/agents/engine.py])

    [InvestigationEngine.run]: claim the investigation, record its context, and then, as
    long as it is not finished, reload it, answer what the last model turn left pending,
    enforce the budgets, ask the model, record its turn and act on it.

    The model is the interface [AgentWorld], with the clock: reading the clock may raise,
    which is a worker that dies before its next command.  The tools are the interface
    [Toolset] of [AgentToolset].  Each command of incident-core is one transaction.  The waiting between
    attempts, logs and metrics have no counterpart. *)
From S2P Require Import Prelude PyFloat Json Enums VerificationDomain Catalog.
From S2P Require Import RemediationDomain Uuid InvestigationDomain InvestigationRules Store TxLogic.
From S2P Require Import RemediationService IncidentRepository AlertIdentity IncidentService.
From S2P Require Import InvestigationService Prog EvidenceScope AgentModel AgentContext.
From S2P Require Import EvidenceService AgentTools AgentToolset.
Local Open Scope Z_scope.

(** The clock, the model factory, and the model.  The arguments of a call are a
    dictionary; the calls of a turn have identifiers of their own. *)
Class AgentWorld := {
  aw : Type;
  read_clock : Prog aw instant;
  build_model : ModelSpec -> Prog aw ();
  decide : DecisionRequest -> Prog aw ModelTurn;
  decide_typed : forall rq w t w', decide rq w = (Ok t, w') ->
    forall a, a ∈ mt_actions t -> exists l, act_arguments a = JObj l;
  decide_calls : forall rq w t w', decide rq w = (Ok t, w') ->
    NoDup (map act_call_id (mt_actions t)) /\ "" ∉ map act_call_id (mt_actions t);
}.

(** The optional arguments of [_record]. *)
Record StepOptions := {
  so_call_id : option string;
  so_latency_ms : option Z;
  so_usage : option (list (string * Z));
  so_tool_call : bool;
  so_new_evidence : Z;
  so_last_action : option string;
}.
#[export] Instance StepOptions_rebuild : Rebuild StepOptions := fun r =>
  Build_StepOptions (so_call_id r) (so_latency_ms r) (so_usage r) (so_tool_call r)
    (so_new_evidence r) (so_last_action r).
Definition plain : StepOptions :=
  {| so_call_id := None; so_latency_ms := None; so_usage := None; so_tool_call := false;
     so_new_evidence := 0; so_last_action := None |}.

(** What a run returns: the status the investigation ended with, [None], or, for a bound
    on the iterations that was too small, nothing yet. *)
Inductive RunOutcome := Finished (status : InvestigationStatus) | NotRun | OutOfFuel.

Section Engine.
Context {MS : ModelSchemas} {HA : Hashing} {AW : AgentWorld} {TL : Toolset}.
Context (criteria : StoppingCriteria) (catalog : ServiceCatalog) (definitions : list ToolDefinition).
Context (owner : string) (lease_seconds : Z) (retry_attempts : nat).

Definition engine_state : Type := (aw * (ts_state * db))%type.
Abbreviation Run := (Prog engine_state).

Definition clock : Run instant := on_left read_clock.
(** A command of incident-core. *)
Definition command {A} (m : instant -> Tx A) : Run A :=
  now ← clock;
  on_right (on_right (transact (m now))).
Definition reads_db {A} (f : db -> result A) : Run A := fun s => (f s.2.2, s).
Definition reload (investigation_id : uuid) : Run InvestigationState :=
  reads_db (load_state investigation_id).

(** ** Persistence helpers *)

Definition _record (state : InvestigationState) (kind : StepKind) (iteration : Z)
    (payload : list (string * json)) (o : StepOptions) : Run () :=
  _ ← command (fun now => record_step now (inv_id (is_investigation state)) owner kind iteration
                            payload (so_call_id o) (so_latency_ms o) (so_usage o) (so_tool_call o)
                            (so_new_evidence o) (so_last_action o) lease_seconds);
  mret ().

(** It always raises. *)
Definition _escalate {A} (state : InvestigationState) (iteration : Z) (outcome : InvestigationStatus)
    (reason_code detail : string) (inconclusive_reason : option string)
    (evidence_gaps : option (list string)) (call_id : option string) : Run A :=
  _ ← command (fun now => escalate now (inv_id (is_investigation state)) owner iteration outcome
                            reason_code detail inconclusive_reason evidence_gaps call_id);
  throw (Stop outcome).
Definition end_run {A} (state : InvestigationState) (iteration : Z) (outcome : InvestigationStatus)
    (reason_code detail : string) : Run A :=
  _escalate state iteration outcome reason_code detail None None None.

Definition context_payload (incident : IncidentRow * list AlertRow) (refs : list EvidenceRefRow)
    (inv : InvestigationRow) (now : instant) : list (string * json) :=
  [("context", build_context incident refs catalog (inv_budget inv) now);
   ("evidence_ids", str_uuids (map er_id refs));
   ("tools", strings (map td_name definitions));
   ("system_prompt", JStr (system_prompt criteria));
   ("prompt_version", jget "prompt_version" (inv_model_config inv));
   ("stable_prefix_digest", JStr (stable_prefix_digest (system_prompt criteria) definitions));
   ("model", JObj [("provider", JStr (inv_model_provider inv)); ("name", JStr (inv_model_name inv))])].

Definition _record_context (state : InvestigationState) : Run () :=
  let inv := is_investigation state in
  incident ← reads_db (fun d => match get_incident_view (inv_incident_id inv) d with
                                | Some v => Ok v
                                | None => Err (AssertionError "incident is not None")
                                end);
  refs ← reads_db (fun d => Ok (list_evidence_refs (inv_incident_id inv) d));
  now ← clock;
  _record state S_CONTEXT 0 (context_payload incident refs inv now)
    (plain <| so_last_action := Some "context built" |>).

(** ** Budgets *)

(** What ends the investigation before another turn: the status, the reason and its detail. *)
Definition limit_reached (state : InvestigationState) (now : instant)
    : option (InvestigationStatus * string * string) :=
  let inv := is_investigation state in
  let budget := inv_budget inv in
  let total_tokens := inv_input_tokens inv + inv_output_tokens inv + inv_cache_read_tokens inv
                      + inv_cache_creation_tokens inv in
  let elapsed := match inv_started_at inv with Some t => now - t | None => 0 end in
  if bool_decide (is_Some (inv_started_at inv))
     && (seconds (max_wall_clock_seconds budget) <? elapsed) then
    Some (I_ESCALATED, "budget_exhausted",
          "wall clock " +++ str_Z (elapsed / 1000000) +++ "s exceeded "
            +++ str_Z (max_wall_clock_seconds budget) +++ "s")
  else if match max_total_tokens budget with Some n => n <=? total_tokens | None => false end then
    Some (I_ESCALATED, "budget_exhausted",
          "token budget " +++ match max_total_tokens budget with Some n => str_Z n | None => "" end
            +++ " spent (" +++ str_Z total_tokens +++ ")")
  else if max_iterations budget <=? inv_iteration_count inv then
    Some (I_ESCALATED, "budget_exhausted",
          "iteration budget " +++ str_Z (max_iterations budget) +++ " spent")
  else if max_consecutive_invalid_turns budget <=? _trailing_invalid_turns (is_steps state) then
    Some (I_FAILED, "malformed_output",
          str_Z (max_consecutive_invalid_turns budget)
            +++ " consecutive turns without a valid action")
  else if max_consecutive_tool_failures budget <=? _trailing_backend_failures (is_steps state) then
    Some (I_FAILED, "evidence_unavailable",
          str_Z (max_consecutive_tool_failures budget) +++ " consecutive evidence-service failures")
  else None.

Definition _enforce_limits (state : InvestigationState) : Run () :=
  now ← (match inv_started_at (is_investigation state) with
         | Some _ => clock
         | None => mret 0
         end);
  match limit_reached state now with
  | Some (outcome, reason_code, detail) =>
      end_run state (inv_iteration_count (is_investigation state)) outcome reason_code detail
  | None => mret ()
  end.

Definition _final_turn_reason (state : InvestigationState) (iteration : Z) (pending : bool)
    : option string :=
  let inv := is_investigation state in
  let budget := inv_budget inv in
  if max_iterations budget <=? iteration then
    Some ("turn budget " +++ str_Z (max_iterations budget) +++ " reached")
  else if pending then None
  else if max_tool_calls budget <=? inv_tool_call_count inv then
    Some ("evidence tool call budget " +++ str_Z (max_tool_calls budget) +++ " spent")
  else if max_evidence_items budget <=? inv_evidence_count inv then
    Some ("evidence item budget " +++ str_Z (max_evidence_items budget) +++ " spent")
  else None.

(** ** One model turn *)

Definition error_payload (code message : string) (retryable : bool) (attempt : nat)
    : list (string * json) :=
  [("code", JStr code); ("retryable", JBool retryable); ("attempt", JInt (Z.of_nat attempt));
   ("message", JStr (take_str 300 message))].

(** [for attempt in range(1, attempts + 1)], from attempt [n] with [left] to go. *)
Fixpoint call_model (state : InvestigationState) (request : DecisionRequest) (iteration : Z)
    (n left : nat) : Run ModelTurn :=
  match left with
  | O => throw (AssertionError "unreachable")
  | S left' =>
      r ← attempt (on_left (decide request));
      match r with
      | Ok turn => mret turn
      | Err (ModelError code message retryable) =>
          _record state S_MODEL_ERROR iteration (error_payload code message retryable n) plain ;;
          if negb retryable || bool_decide (left' = O) then
            end_run state iteration I_FAILED (if retryable then "model_unavailable" else "model_error")
              (code +++ " after " +++ str_Z (Z.of_nat n) +++ " attempt(s)")
          else call_model state request iteration (S n) left'
      | Err e => throw e
      end
  end.

Definition turn_payload (turn : ModelTurn) : list (string * json) :=
  [("text", JStr (mt_text turn)); ("actions", JArr (map action_json (mt_actions turn)));
   ("stop_reason", JStr (mt_stop_reason turn));
   ("usage", JObj (map (fun kv => (kv.1, JInt kv.2)) (mt_usage turn)));
   ("served_model", JStr (mt_served_model turn)); ("provider_payload", mt_provider_payload turn);
   ("cache", mt_cache turn)].

(** ** Acting on a decision *)

Definition no_action_payload (stop_reason : string) : list (string * json) :=
  [("text", JStr ((if bool_decide (stop_reason = "max_tokens")
                   then "Your response was cut off by the output limit before any tool call completed."
                   else "Your turn made no tool call.")
                  +++ " Act only through tools: gather evidence, update "
                  +++ "hypotheses, conclude_investigation, or declare_inconclusive."));
   ("reason", JStr "no_action")].

Definition invalid_payload (c : InvalidCall) : list (string * json) :=
  [("tool", JStr (inv_name c)); ("error", JStr (inv_error c));
   ("observation", JStr ("Rejected: " +++ inv_error c)); ("is_error", JBool true)].

Definition refused_payload (r : ToolRequest) (code message : string) : list (string * json) :=
  [("tool", JStr (tr_tool r)); ("arguments", tr_arguments r); ("ok", JBool false);
   ("error_code", JStr code); ("observation", JStr ("Not executed: " +++ message));
   ("is_error", JBool true); ("evidence_ids", JArr []); ("counted", JBool false)].

Definition outcome_payload (r : ToolRequest) (o : ToolOutcome) (counted : bool)
    : list (string * json) :=
  [("tool", JStr (tr_tool r)); ("arguments", tr_arguments r); ("ok", JBool (to_ok o));
   ("error_code", jopt_str (to_error_code o)); ("summary", jopt_str (to_summary o));
   ("evidence_ids", strings (to_evidence_ids o)); ("observation", JStr (to_observation o));
   ("is_error", JBool (negb (to_ok o))); ("counted", JBool counted)].

Definition with_call (call_id : string) : StepOptions := plain <| so_call_id := Some call_id |>.

(** Why a tool request is not executed. *)
Definition refusal (state : InvestigationState) (final_reason : option string) (used_evidence : Z)
    (r : ToolRequest) : option (string * string) :=
  match final_reason with
  | Some _ => Some ("final_turn", "Final turn: evidence tools are disabled.")
  | None =>
      if negb (bool_decide (tr_tool r = GET_INCIDENT_EVIDENCE))
         && (max_evidence_items (inv_budget (is_investigation state)) <=? used_evidence)
      then Some ("evidence_budget_exhausted", "The evidence item budget is spent.")
      else None
  end.

Definition is_counted (o : ToolOutcome) : bool :=
  negb (match to_error_code o with
        | Some c => bool_decide (c ∈ ["budget_exceeded"; "repeated_call"])
        | None => false
        end).

(** One request: the evidence used so far is extended. *)
Definition process_request (state : InvestigationState) (iteration : Z)
    (final_reason : option string) (toolset : ts_object) (used_evidence : Z) (r : ToolRequest)
    : Run Z :=
  match refusal state final_reason used_evidence r with
  | Some (code, message) =>
      _record state S_TOOL_CALL iteration (refused_payload r code message)
        (with_call (tr_call_id r)) ;;
      mret used_evidence
  | None =>
      o ← on_right (ts_execute toolset (tr_tool r) (tr_arguments r));
      _record state S_TOOL_CALL iteration (outcome_payload r o (is_counted o))
        {| so_call_id := Some (tr_call_id r); so_latency_ms := Some (to_latency_ms o);
           so_usage := None; so_tool_call := is_counted o; so_new_evidence := to_new_evidence o;
           so_last_action := Some (tr_tool r +++ " -> " +++
             (if to_ok o then "ok" else default "None" (to_error_code o))) |} ;;
      mret (used_evidence + to_new_evidence o)
  end.

Fixpoint process_requests (state : InvestigationState) (iteration : Z)
    (final_reason : option string) (toolset : ts_object) (used_evidence : Z) (l : list ToolRequest)
    : Run () :=
  match l with
  | [] => mret ()
  | r :: l' =>
      used ← process_request state iteration final_reason toolset used_evidence r;
      process_requests state iteration final_reason toolset used l'
  end.

Fixpoint process_updates (state : InvestigationState) (iteration : Z) (l : list HypothesisUpdateCall)
    : Run () :=
  match l with
  | [] => mret ()
  | c :: l' =>
      _ ← command (fun now => apply_hypothesis_updates now (inv_id (is_investigation state)) owner
                                iteration (huc_call_id c) (batch c));
      process_updates state iteration l'
  end.

Fixpoint process_invalid (state : InvestigationState) (iteration : Z) (l : list InvalidCall) : Run () :=
  match l with
  | [] => mret ()
  | c :: l' =>
      _record state S_INVALID_CALL iteration (invalid_payload c) (with_call (inv_call_id c)) ;;
      process_invalid state iteration l'
  end.

(** The terminal call of a turn. *)
Definition process_conclusion (state : InvestigationState) (iteration : Z)
    (c : option ConclusionCall) : Run () :=
  match c with
  | None => mret ()
  | Some c =>
      o ← command (fun now => complete criteria now (inv_id (is_investigation state)) owner iteration
                                (cc_call_id c) (cc_result c));
      if accepted o then throw (Stop I_COMPLETED) else mret ()
  end.
Definition process_declaration (state : InvestigationState) (iteration : Z)
    (c : option InconclusiveCall) : Run () :=
  match c with
  | None => mret ()
  | Some c =>
      let x := declaration c in
      _escalate state iteration I_ESCALATED "inconclusive" (decl_reason x) (Some (decl_reason x))
        (Some (decl_evidence_gaps x)) (Some (ic_call_id c))
  end.

Definition _process (state : InvestigationState) (decision : InvestigationDecision) (iteration : Z)
    (final_reason : option string) (toolset : ts_object) (stop_reason : string) : Run () :=
  if negb (has_actions decision) then
    _record state S_FEEDBACK iteration (no_action_payload stop_reason) plain
  else
    process_updates state iteration (hypothesis_updates decision) ;;
    process_invalid state iteration (invalid_calls decision) ;;
    process_requests state iteration final_reason toolset
      (inv_evidence_count (is_investigation state)) (tool_requests decision) ;;
    process_conclusion state iteration (conclusion decision) ;;
    process_declaration state iteration (inconclusive decision).

Definition final_detail (reason : string) : string :=
  reason +++ "; the final turn did not reach a conclusion".

(** A final turn that reached no conclusion ends the investigation. *)
Definition end_final (state : InvestigationState) (iteration : Z) (final_reason : option string)
    : Run () :=
  match final_reason with
  | Some reason =>
      end_run state iteration I_ESCALATED "budget_exhausted" (final_detail reason)
  | None => mret ()
  end.

(** ** Resuming *)

Definition steps_after (t : InvestigationStepRow) (steps : list InvestigationStepRow)
    : list InvestigationStepRow :=
  List.filter (fun s => st_sequence t <? st_sequence s) steps.
Definition answers (s : InvestigationStepRow) : bool := is_action_step s || has_call_id s.
Definition answered (after : list InvestigationStepRow) (call_id : string) : bool :=
  existsb (fun s => answers s && bool_decide (st_call_id s = Some call_id)) after.
Definition unanswered (after : list InvestigationStepRow) (actions : list ModelAction)
    : list ModelAction :=
  List.filter (fun a => negb (answered after (act_call_id a))) actions.

Definition text_or (d : string) (j : json) : string := match j with JStr s => s | _ => d end.

Definition _resolve_pending (state : InvestigationState) (toolset : ts_object) : Run bool :=
  match last (model_turns (is_steps state)) with
  | None => mret false
  | Some turn =>
      let after := steps_after turn (is_steps state) in
      actions ← pure (actions_of turn);
      match actions, unanswered after actions with
      | [], _ =>
          if existsb (is_kind S_FEEDBACK) after then mret false
          else
            _process state (no_decision "") (st_iteration turn) None toolset
              (text_or "" (pget "stop_reason" (JStr "end_turn") turn)) ;;
            mret true
      | _, [] => mret false
      | _, pending =>
          let final_reason := _final_turn_reason state (st_iteration turn) true in
          text ← pure (match pget "text" (JStr "") turn with
                       | JStr s => Ok s
                       | _ => Err (TypeError "the text of a turn is not a text")
                       end);
          decision ← pure (interpret_turn text pending EVIDENCE_TOOL_NAMES);
          _process state decision (st_iteration turn) final_reason toolset "tool_use" ;;
          end_final state (st_iteration turn) final_reason ;;
          mret true
      end
  end.

(** ** The loop *)

(** The body of the loop once nothing is pending. *)
Definition take_turn (state : InvestigationState) (toolset : ts_object) : Run () :=
  let i := inv_id (is_investigation state) in
  _enforce_limits state ;;
  let iteration := inv_iteration_count (is_investigation state) + 1 in
  let final_reason := _final_turn_reason state iteration false in
  _record state S_FEEDBACK iteration
    [("text", JStr (_budget_notice state iteration final_reason)); ("reason", JStr "budget")] plain ;;
  state' ← reload i;
  transcript ← pure (build_transcript (is_steps state'));
  let request := {| rq_system_prompt := system_prompt criteria; rq_tools := definitions;
                    rq_transcript := transcript |} in
  turn ← call_model state' request iteration 1 retry_attempts;
  _record state' S_MODEL_TURN iteration (turn_payload turn)
    (plain <| so_latency_ms := Some (mt_latency_ms turn) |> <| so_usage := Some (mt_usage turn) |>
       <| so_last_action := Some ("model turn " +++ str_Z iteration +++ ": "
            +++ count_str (mt_actions turn) +++ " tool call(s)") |>) ;;
  decision ← pure (interpret_turn (mt_text turn) (mt_actions turn) EVIDENCE_TOOL_NAMES);
  _process state' decision iteration final_reason toolset (mt_stop_reason turn) ;;
  end_final state' iteration final_reason.

Definition is_terminal (state : InvestigationState) : bool :=
  bool_decide (inv_status (is_investigation state) ∈ TERMINAL_INVESTIGATION_STATUSES).

Fixpoint engine_loop (fuel : nat) (investigation_id : uuid) (toolset : ts_object)
    : Run (option InvestigationStatus) :=
  match fuel with
  | O => mret None
  | S fuel' =>
      state ← reload investigation_id;
      if is_terminal state then mret (Some (inv_status (is_investigation state)))
      else
        resolved ← _resolve_pending state toolset;
        (if resolved : bool then mret () else take_turn state toolset) ;;
        engine_loop fuel' investigation_id toolset
  end.

(** [self._model_factory(spec)]: a configuration it refuses ends the investigation. *)
Definition build (state : InvestigationState) : Run () :=
  let inv := is_investigation state in
  spec ← pure (from_persisted (inv_model_provider inv) (inv_model_name inv) (inv_model_config inv));
  built ← attempt (on_left (build_model spec));
  match built with
  | Ok _ => mret ()
  | Err (ModelConfigError m) =>
      end_run state (inv_iteration_count inv) I_FAILED "model_config_error" (take_str 300 m)
  | Err e => throw e
  end.

(** The state with its context recorded. *)
Definition ensure_context (state : InvestigationState) : Run InvestigationState :=
  if existsb (is_kind S_CONTEXT) (is_steps state) then mret state
  else
    _record_context state ;;
    reload (inv_id (is_investigation state)).

(** The part of [_run] before the loop. *)
Definition prepare (state : InvestigationState) : Run ts_object :=
  build state ;;
  state' ← ensure_context state;
  on_right (on_left (ts_make state')).

Definition run_state (fuel : nat) (state : InvestigationState) : Run (option InvestigationStatus) :=
  toolset ← prepare state;
  engine_loop fuel (inv_id (is_investigation state)) toolset.

Definition run_engine (fuel : nat) (investigation_id : uuid) : Run RunOutcome :=
  now ← clock;
  claimed ← on_right (on_right (claim now investigation_id owner lease_seconds));
  match claimed with
  | None => mret NotRun
  | Some state =>
      r ← attempt (run_state fuel state);
      match r with
      | Ok (Some status) => mret (Finished status)
      | Ok None => mret OutOfFuel
      | Err (Stop status) => mret (Finished status)
      | Err (LeaseLostError _) => mret NotRun
      | Err e => throw e
      end
  end.
End Engine.
