(* ===== verification/VerificationService.v ===== *)
(** * incident-core's verification commands ([packages/incident/verifications.py])

    [VerificationCoreService]: start, claim_due and record_observation, each one
    transaction of [Store], the verdict's application to the incident, the
    scheduling query and the reads.  A stored spec is the spec that was dumped. *)
From S2P Require Import Prelude PyFloat Json Enums VerificationDomain Catalog.
From S2P Require Import RemediationDomain Store RemediationService.
Local Open Scope Z_scope.

Module Core.

Record VerificationTicket := {
  vt_verification_id : uuid;
  vt_incident_id : uuid;
  vt_remediation_id : uuid;
  vt_spec : VerificationSpec;
  vt_owner : string;
  vt_claim_attempt : Z;
}.

(** ** Internals *)

Definition not_found (verification_id : uuid) : exn :=
  RemediationNotFoundError ("verification " +++ str_uuid verification_id).

Definition _lock (verification_id : uuid) : Tx VerificationRow :=
  row ← reads (fun d => verifications d !! verification_id);
  must row (not_found verification_id).

Definition _event (now : instant) (row : VerificationRow) (event_type : string) : Tx () :=
  insert_outbox_event now event_type "Verification" (v_id row) (Some (v_correlation_id row))
    (PVerification
       {| vep_verification_id := v_id row; vep_incident_id := v_incident_id row;
          vep_remediation_id := v_remediation_id row;
          vep_status := VerificationStatus_value (v_status row);
          vep_policy_version := v_policy_version row;
          vep_claim_attempt := v_claim_attempt row;
          vep_result := v_result row; vep_reason := v_failure_reason row;
          vep_next_action := v_next_action row |}).

Definition _move (now : instant) (incident : IncidentRow) (to_status : IncidentStatus)
    (reason : string) : Tx IncidentRow :=
  transition_with_event now incident to_status false reason
    ("incident " +++ str_uuid (i_id incident) +++ " changed concurrently").

Definition _closure (now : instant) (incident : IncidentRow) (event_type reason : string)
    (row : VerificationRow) : Tx () :=
  insert_outbox_event now event_type "Incident" (i_id incident) (Some (i_id incident))
    (PIncidentClosure
       {| icp_incident_id := i_id incident; icp_status := IncidentStatus_value (i_status incident);
          icp_reason := reason; icp_verification_id := Some (v_id row);
          icp_remediation_id := Some (v_remediation_id row) |}).

(** The observations of a verification, newest sequence first. *)
Definition latest_observation (verification_id : uuid) (l : list VerificationObservationRow)
    : option VerificationObservationRow :=
  foldr (fun o best =>
    if bool_decide (ob_verification_id o = verification_id)
    then match best with
         | Some b => if ob_sequence b <? ob_sequence o then Some o else best
         | None => Some o
         end
    else best) None l.

Definition _latest_result (d : db) (row : VerificationRow) : option ObservationResult :=
  o ← latest_observation (v_id row) (observations d);
  Some {| passed := ob_passed o; conclusive := ob_conclusive o; definitive_failure := None;
          o_checks := ob_checks o |}.

Definition is_new_alert (row : VerificationRow) (a : AlertRow) : bool :=
  bool_decide (a_incident_id a = Some (v_incident_id row))
  && bool_decide (a_status a = FIRING)
  && negb (bool_decide (a_id a ∈ v_known_alert_ids row)).

Definition _new_firing_alerts (d : db) (row : VerificationRow) : Z :=
  count (is_new_alert row) (rows (alerts d)).

(** ** Starting and finishing *)

Definition alert_ids_of (d : db) (incident_id : uuid) : list uuid :=
  map a_id (List.filter (fun a => bool_decide (a_incident_id a = Some incident_id))
              (rows (alerts d))).

Definition _start (now : instant) (row : VerificationRow) : Tx VerificationRow :=
  known ← reads (fun d => alert_ids_of d (v_incident_id row));
  grace ← lift (timedelta_seconds (s_grace_seconds (v_spec row)));
  timeout ← lift (timedelta_seconds (s_timeout_seconds (v_spec row)));
  let row' := row <| v_status := V_RUNNING |> <| v_started_at := Some now |>
      <| v_known_alert_ids := known |> <| v_grace_until := Some (now + grace) |>
      <| v_deadline_at := Some (now + timeout) |> <| v_next_poll_at := Some (now + grace) |>
      <| v_updated_at := now |> in
  put_verification row' ;;
  _event now row' "VerificationStarted" ;;
  mret row'.

Definition start (now : instant) (verification_id : uuid) : Tx VerificationRow :=
  row ← _lock verification_id;
  if bool_decide (v_status row = V_PENDING) then _start now row else mret row.

(** Why a verdict may no longer apply to the incident. *)
Definition _staleness (d : db) (row : VerificationRow) (incident : IncidentRow)
    (remediation : RemediationRow) : option string :=
  if negb (bool_decide (i_status incident = VERIFYING)) then
    Some ("incident is " +++ IncidentStatus_value (i_status incident) +++ ", not VERIFYING")
  else if negb (bool_decide (rm_status remediation = R_EXECUTED)) then
    Some ("remediation is " +++ RemediationStatus_value (rm_status remediation))
  else if negb (bool_decide (rm_verification_ref remediation = Some (v_id row))) then
    Some "a newer verification owns this remediation"
  else if 0 <? count (fun r => bool_decide (rm_incident_id r = i_id incident)
                               && (rm_created_at remediation <? rm_created_at r))
                 (rows (remediations d)) then
    Some "a newer remediation exists for the incident"
  else None.

(** The row once the verdict is written to it. *)
Definition finished (now : instant) (row : VerificationRow) (decision : Verdict.Decision)
    : VerificationRow :=
  row <| v_status := Verdict.status decision |>
      <| v_result := Some (VerificationStatus_value (Verdict.status decision)) |>
      <| v_failure_reason := or_none (take_str 2000 (default "" (Verdict.reason decision))) |>
      <| v_completed_at := Some now |> <| v_lease_owner := None |>
      <| v_lease_expires_at := None |> <| v_next_poll_at := None |> <| v_updated_at := now |>.

Section Finalize.
Context (max_attempts : Z).

(** The incident's side of a failed verification: reinvestigated while attempts
    are left and something fires, escalated otherwise. *)
Definition _apply_failure (now : instant) (row : VerificationRow) (incident : IncidentRow)
    : Tx string :=
  incident1 ← _move now incident VERIFICATION_FAILED "verification_failed";
  firing ← count_firing_alerts (i_id incident1);
  if (i_attempt_count incident1 <? max_attempts) && (0 <? firing) then mret "reinvestigate"
  else
    let why := if negb (firing =? 0)
               then "investigation attempts exhausted (" +++ str_Z (i_attempt_count incident1)
                      +++ "/" +++ str_Z max_attempts +++ ")"
               else "no alert still firing to re-investigate" in
    incident2 ← _move now incident1 ESCALATED "verification_failed";
    _closure now incident2 "IncidentEscalated" ("verification failed; " +++ why) row ;;
    mret "escalate".

(** The next action, once the verdict is applied. *)
Definition _apply (now : instant) (row : VerificationRow) (incident : IncidentRow)
    (status : VerificationStatus) : Tx string :=
  match status with
  | V_PASSED =>
      incident1 ← _move now incident RESOLVED "verification_passed";
      _closure now incident1 "IncidentResolved" "verification passed" row ;;
      mret "resolve"
  | V_TIMED_OUT =>
      incident1 ← _move now incident ESCALATED "verification_timed_out";
      _closure now incident1 "IncidentEscalated" "verification timed out" row ;;
      mret "escalate"
  | _ => _apply_failure now row incident
  end.

Definition _finalize (now : instant) (row : VerificationRow) (decision : Verdict.Decision)
    : Tx VerificationRow :=
  let row1 := finished now row decision in
  d ← reads id;
  incident ← must (incidents d !! v_incident_id row)
               (AssertionError "incident is not None and remediation is not None");
  remediation ← must (remediations d !! v_remediation_id row)
                  (AssertionError "incident is not None and remediation is not None");
  row2 ← match _staleness d row1 incident remediation with
         | Some stale =>
             mret (row1 <| v_next_action := Some "none" |>
                        <| v_failure_reason :=
                             Some (strip (default "" (v_failure_reason row1)
                                            +++ " [not applied: " +++ stale +++ "]")) |>)
         | None =>
             next ← _apply now row1 incident (Verdict.status decision);
             mret (row1 <| v_next_action := Some next |>)
         end;
  put_verification row2 ;;
  _event now row2 "VerificationCompleted" ;;
  mret row2.

(** ** Polling *)

Definition lease_held (now : instant) (row : VerificationRow) : bool :=
  match v_lease_owner row, v_lease_expires_at row with
  | Some _, Some t => now <? t
  | _, _ => false
  end.

Definition deadline_passed (now : instant) (row : VerificationRow) : bool :=
  match v_deadline_at row with Some t => t <=? now | None => false end.

Definition too_early (now : instant) (row : VerificationRow) : bool :=
  match v_next_poll_at row with Some t => now <? t | None => false end.

Definition claim_due (now : instant) (verification_id : uuid) (owner : string)
    (lease_seconds : float) : Tx (option VerificationTicket) :=
  row0 ← _lock verification_id;
  row ← (if bool_decide (v_status row0 = V_PENDING) then _start now row0 else mret row0);
  if negb (bool_decide (v_status row = V_RUNNING)) then mret None
  else if lease_held now row then mret None
  else if deadline_passed now row then
    latest ← reads (fun d => _latest_result d row);
    _ ← _finalize now row
          (Verdict.decide (v_spec row) latest (v_consecutive_successes row)
             (v_conclusive_count row) now (default now (v_deadline_at row)));
    mret None
  else if too_early now row then mret None
  else
    lease ← lift (timedelta_seconds lease_seconds);
    let row1 := row <| v_claim_attempt := v_claim_attempt row + 1 |>
        <| v_lease_owner := Some owner |> <| v_lease_expires_at := Some (now + lease) |>
        <| v_updated_at := now |> in
    put_verification row1 ;;
    mret (Some {| vt_verification_id := v_id row1; vt_incident_id := v_incident_id row1;
                  vt_remediation_id := v_remediation_id row1; vt_spec := v_spec row1;
                  vt_owner := owner; vt_claim_attempt := v_claim_attempt row1 |}).

(** [uq_verification_observation] *)
Definition insert_observation (o : VerificationObservationRow) : Tx () :=
  l ← reads observations;
  if existsb (fun p => bool_decide (ob_verification_id p = ob_verification_id o)
                       && bool_decide (ob_sequence p = ob_sequence o)) l
  then raise (IntegrityError "uq_verification_observation")
  else writes (fun d => d <| observations ::= (fun l => l ++ [o]) |>).

(** Whether the ticket still entitles its owner to record. *)
Definition holds (row : VerificationRow) (ticket : VerificationTicket) : bool :=
  bool_decide (v_status row = V_RUNNING)
  && bool_decide (v_lease_owner row = Some (vt_owner ticket))
  && bool_decide (v_claim_attempt row = vt_claim_attempt ticket).

(** The row once an observation is counted and the lease given back. *)
Definition observed_row (now poll : instant) (row : VerificationRow) (result : ObservationResult)
    : VerificationRow :=
  row <| v_observation_count := v_observation_count row + 1 |>
      <| v_conclusive_count := v_conclusive_count row + (if conclusive result then 1 else 0) |>
      <| v_consecutive_successes :=
           if passed result then v_consecutive_successes row + 1 else 0 |>
      <| v_next_poll_at := Some (now + poll) |> <| v_lease_owner := None |>
      <| v_lease_expires_at := None |> <| v_updated_at := now |>.

Definition record_observation (now : instant) (ticket : VerificationTicket) (sample : Sample)
    (evidence_ids : list uuid) (observed_at : instant) : Tx VerificationRow :=
  row ← _lock (vt_verification_id ticket);
  if negb (holds row ticket) then
    raise (LeaseLostError (vt_owner ticket +++ " (claim " +++ str_Z (vt_claim_attempt ticket)
      +++ ") no longer holds verification " +++ str_uuid (v_id row)))
  else
    fresh ← reads (fun d => _new_firing_alerts d row);
    let sample' := sample <| new_firing_alerts := Some fresh |> in
    result ← lift (evaluate_sample (vt_spec ticket) sample');
    poll ← lift (timedelta_seconds (s_poll_interval_seconds (vt_spec ticket)));
    let row1 := observed_row now poll row result in
    insert_observation
      {| ob_verification_id := v_id row; ob_sequence := v_observation_count row1;
         ob_claim_attempt := vt_claim_attempt ticket; ob_observed_at := observed_at;
         ob_passed := passed result; ob_conclusive := conclusive result;
         ob_checks := o_checks result; ob_errors := errors sample'; ob_evidence_ids := evidence_ids |} ;;
    insert_verification_evidence observed_at (v_id row) (v_observation_count row1) "observation"
      evidence_ids ;;
    put_verification row1 ;;
    let decision := Verdict.decide (vt_spec ticket) (Some result) (v_consecutive_successes row1)
                      (v_conclusive_count row1) now (default now (v_deadline_at row1)) in
    if negb (bool_decide (Verdict.status decision = V_RUNNING))
    then _finalize now row1 decision
    else mret row1.
End Finalize.

(** ** Scheduling and reads *)

Definition lease_free (now : instant) (row : VerificationRow) : bool :=
  match v_lease_expires_at row with None => true | Some t => t <? now end.

Definition at_or_before (now : instant) (t : option instant) : bool :=
  match t with Some t => t <=? now | None => false end.

Definition is_due (now : instant) (row : VerificationRow) : bool :=
  bool_decide (v_status row = V_PENDING)
  || (bool_decide (v_status row = V_RUNNING)
      && (at_or_before now (v_next_poll_at row) || at_or_before now (v_deadline_at row))
      && lease_free now row).

(** [ORDER BY next_poll_at NULLS FIRST LIMIT limit] *)
Definition due (now : instant) (limit : nat) (d : db) : list uuid :=
  let l := List.filter (is_due now) (rows (verifications d)) in
  let nulls := List.filter (fun r => bool_decide (v_next_poll_at r = None)) l in
  let polls := List.filter (fun r => negb (bool_decide (v_next_poll_at r = None))) l in
  take limit (map v_id (nulls ++ order_by (fun r => default 0 (v_next_poll_at r)) polls)).

Definition get (verification_id : uuid) : Tx VerificationRow :=
  row ← reads (fun d => verifications d !! verification_id);
  must row (not_found verification_id).

Definition for_incident (incident_id : uuid) (d : db) : list VerificationRow :=
  order_by v_created_at
    (List.filter (fun r => bool_decide (v_incident_id r = incident_id)) (rows (verifications d))).

Definition observations_of (verification_id : uuid) (d : db) : list VerificationObservationRow :=
  order_by ob_sequence
    (List.filter (fun o => bool_decide (ob_verification_id o = verification_id)) (observations d)).

Definition evidence_links (verification_id : uuid) (d : db) : list VerificationEvidenceRow :=
  order_by ve_poll_sequence
    (order_by ve_collected_at
       (List.filter (fun e => bool_decide (ve_verification_id e = verification_id))
          ((map_to_list (verification_evidence d)).*2))).

End Core.
