(* ===== verification/VerificationEngine.v ===== *)
(** * The verification engine ([packages/verification/engine.py], [observer.py])

    [VerificationEngine] drives a verification one poll at a time, [EvidenceObserver]
    makes one observation of a service, and [BaselineCollector] captures the observation
    before an action.  Every value comes from evidence-service, which is the interface
    [EvidenceSource]: an operation returns an evidence item or raises, and does nothing to
    incident-core but register references to evidence. *)
From S2P Require Import Prelude PyFloat Json Enums VerificationDomain Catalog.
From S2P Require Import RemediationDomain Policy Store TxLogic RemediationService VerificationService.
From S2P Require Import Prog EvidenceService.
Local Open Scope Z_scope.

(** One operation for an incident and a service: the evidence id and the data. *)
Class EvidenceSource := {
  fetch : string -> instant -> uuid -> string -> string ->
          Prog db (uuid * list (string * json));
  fetch_registers : forall operation now incident service by_,
    respects registers (fetch operation now incident service by_);
}.

Definition items_of (j : json) : result (list (string * json)) :=
  match j with
  | JObj l => Ok l
  | _ => Err (AttributeError "object has no attribute 'items'")
  end.

Section Engine.
Context {ES : EvidenceSource}.

(** ** [EvidenceObserver.observe] *)

(** What the reads so far have found. *)
Record Found := { f_errors : list string; f_ids : list uuid }.

(** [read(name, call)]: a failing source is noted, any other exception propagates. *)
Definition read (name operation : string) (now : instant) (incident_id : uuid)
    (service requested_by : string) (found : Found)
    : Prog db (Found * option (list (string * json))) :=
  r ← attempt (fetch operation now incident_id service requested_by);
  match r with
  | Ok (evidence_id, data) =>
      mret ({| f_errors := f_errors found; f_ids := f_ids found ++ [evidence_id] |}, Some data)
  | Err (EvidenceError code _ _) =>
      mret ({| f_errors := f_errors found ++ [name +++ ": " +++ code]; f_ids := f_ids found |}, None)
  | Err e => throw e
  end.

(** [{k: (v or {}).get("value") for k, v in signals.items()}] *)
Fixpoint signal_values (l : list (string * json)) : result (list (string * json)) :=
  match l with
  | [] => Ok []
  | (k, v) :: l' =>
      x <-! attr "value" (or_empty v);
      xs <-! signal_values l';
      Ok ((k, x) :: xs)
  end.

Definition health_value (data : list (string * json)) : result json :=
  l <-! items_of (or_empty (dict_get "signals" data));
  signals <-! signal_values l;
  Ok (JObj [("status", dict_get "status" data); ("signals", JObj signals);
            ("violations", default (JArr []) (assoc_get "violations" data))]).

Definition deployment_value (data : list (string * json)) : result json :=
  let current := or_empty (dict_get "current" data) in
  version <-! attr "version" current;
  previous <-! attr "previous_version" current;
  deployed <-! attr "deployed_at" current;
  Ok (JObj [("version", version); ("previous_version", previous); ("deployed_at", deployed)]).

Definition config_value (data : list (string * json)) : result json :=
  Ok (JObj [("effective", or_empty (dict_get "effective_config" data))]).

Definition runtime_value (data : list (string * json)) : result json :=
  Ok (JObj [("replicas", dict_get "replicas" data); ("flags", or_empty (dict_get "flags" data))]).

(** One [if name in needs: ...] block. *)
Definition source_value (needs : gset string) (name operation : string)
    (value : list (string * json) -> result json) (now : instant) (incident_id : uuid)
    (service requested_by : string) (found : Found) : Prog db (Found * option json) :=
  if negb (bool_decide (name ∈ needs)) then mret (found, None)
  else
    '(found', data) ← read name operation now incident_id service requested_by found;
    match data with
    | None => mret (found', None)
    | Some d => v ← pure (value d); mret (found', Some v)
    end.

Definition observe (now : instant) (incident_id : uuid) (service : string) (needs : gset string)
    (requested_by : string) : Prog db (Sample * list uuid) :=
  let start := {| f_errors := []; f_ids := [] |} in
  '(f1, h) ← source_value needs "health" "get_service_health" health_value now incident_id
               service requested_by start;
  '(f2, d) ← source_value needs "deployment" "get_recent_deployments" deployment_value now
               incident_id service requested_by f1;
  '(f3, c) ← source_value needs "config" "get_config_changes" config_value now incident_id
               service requested_by f2;
  '(f4, r) ← source_value needs "runtime" "get_runtime_state" runtime_value now incident_id
               service requested_by f3;
  mret ({| health := h; deployment := d; config := c; runtime := r; new_firing_alerts := None;
           errors := f_errors f4 |}, f_ids f4).

(** ** [VerificationEngine] *)

Section Verifying.
Context (max_attempts : Z) (owner : string) (lease_seconds : float).

(** The clock readings of a tick. *)
Record Tick := { tick_claim : instant; tick_observe : instant; tick_observed : instant;
                 tick_record : instant }.

Definition start_engine (now : instant) (verification_id : uuid) : Prog db VerificationRow :=
  transact (Core.start now verification_id).

Definition tick (t : Tick) (verification_id : uuid) : Prog db (option VerificationRow) :=
  claimed ← transact (Core.claim_due max_attempts (tick_claim t) verification_id owner lease_seconds);
  match claimed with
  | None => mret None
  | Some ticket =>
      '(sample, ids) ← observe (tick_observe t) (Core.vt_incident_id ticket)
                         (s_target_service (Core.vt_spec ticket)) (needs (Core.vt_spec ticket))
                         ("verification:" +++ str_uuid (Core.vt_verification_id ticket));
      r ← attempt (transact (Core.record_observation max_attempts (tick_record t) ticket sample ids
                               (tick_observed t)));
      match r with
      | Ok row => mret (Some row)
      | Err (LeaseLostError _) => mret None
      | Err e => throw e
      end
  end.

Fixpoint tick_loop (ticks : nat -> Tick) (max_ticks : nat) (verification_id : uuid)
    : Prog db VerificationRow :=
  match max_ticks with
  | O => transact (Core.get verification_id)
  | S n =>
      _ ← tick (ticks O) verification_id;
      view ← transact (Core.get verification_id);
      if bool_decide (v_status view ∈ TERMINAL_VERIFICATION_STATUSES) then mret view
      else tick_loop (fun k => ticks (S k)) n verification_id
  end.

Definition run_until_done (now : instant) (ticks : nat -> Tick) (max_ticks : nat)
    (verification_id : uuid) : Prog db VerificationRow :=
  _ ← start_engine now verification_id;
  tick_loop ticks max_ticks verification_id.
End Verifying.

(** ** [BaselineCollector] *)

(** [sample.model_dump(exclude={"errors", "new_firing_alerts"})] *)
Definition sample_values (s : Sample) : list (string * json) :=
  [("health", opt_json (health s)); ("deployment", opt_json (deployment s));
   ("config", opt_json (config s)); ("runtime", opt_json (runtime s))].

Definition collect_baseline (now_observe now_record : instant) (owner : string)
    (ticket : ExecutionTicket) : Prog db bool :=
  match get_entry (tk_action_id ticket) with
  | None => mret true
  | Some entry =>
      if negb (baseline_required (verification entry)) then mret true
      else
        let rid := rm_id (vw_row (tk_remediation ticket)) in
        known ← transact (reads (baseline rid));
        match known with
        | Some _ => mret true
        | None =>
            spec ← pure (build_spec (verification entry) (tk_action_id ticket)
                           (tk_parameters ticket) None fone);
            let wanted := if bool_decide (tk_action_id ticket = "scale_service")
                          then needs spec ∪ {["runtime"]} else needs spec in
            '(sample, ids) ← observe now_observe (rm_incident_id (vw_row (tk_remediation ticket)))
                               (tk_target_service ticket) wanted ("baseline:" +++ str_uuid rid);
            match errors sample with
            | _ :: _ => mret false
            | [] =>
                _ ← transact (record_baseline now_record rid owner (sample_values sample) ids);
                mret true
            end
        end
  end.
End Engine.
