(* ===== verification/VerificationProofs.v ===== *)
(** * What the verification commands keep

    The bookkeeping of a verification (its counts, its streak of successes, its
    claims) agrees with the observations recorded for it in every state, and each
    helper's effect on the tables. *)
From Stdlib Require Import Sorted.
From S2P Require Import Prelude PyFloat Json Enums VerificationDomain Catalog.
From S2P Require Import RemediationDomain Policy Store TxLogic RemediationLifecycle.
From S2P Require Import RemediationService RemediationProofs VerificationService.
Local Open Scope Z_scope.
Import Core.

Lemma filter_none {A} (P : A -> Prop) `{!forall x, Decision (P x)} (l : list A) :
  (forall x, x ∈ l -> ~ P x) -> filter P l = [].
Proof.
  induction l as [|x l IH]; intros Hn; [done|].
  rewrite filter_cons_False by (apply Hn; constructor). apply IH. intros y Hy. apply Hn. by constructor.
Qed.

(** ** Transactions that only publish *)

Lemma quiet_event now row e : relates quiet (_event now row e).
Proof. apply quiet_outbox. Qed.
Lemma quiet_closure now inc e r row : relates quiet (_closure now inc e r row).
Proof. apply quiet_outbox. Qed.
#[export] Hint Resolve quiet_event quiet_closure : relates.

(** The tables a quiet transaction leaves alone. *)
Lemma quiet_tables d d' :
  quiet d d' ->
  incidents d' = incidents d /\ alerts d' = alerts d /\ remediations d' = remediations d
  /\ verifications d' = verifications d /\ observations d' = observations d
  /\ core_of d' = set_next (uuid_supply d') (core_of d).
Proof. intros [-> _]. done. Qed.

(** ** Moving the incident *)

Lemma move_run now inc to r d inc' d' :
  _move now inc to r d = Ok (inc', d') -> incidents d !! i_id inc = Some inc ->
  inc' = inc <| i_status := to |> <| i_version := i_version inc + 1 |> <| i_updated_at := now |>
  /\ incidents d' = <[i_id inc := inc']> (incidents d)
  /\ alerts d' = alerts d /\ remediations d' = remediations d
  /\ verifications d' = verifications d /\ observations d' = observations d
  /\ core_of d' = set_next (uuid_supply d') (core_of d) /\ (uuid_supply d <= uuid_supply d')%N.
Proof.
  unfold _move, transition_with_event, transition_incident_status, status_changed_event,
    put_incident. intros Hr Hi. tx_inv. rewrite Hi in *.
  match goal with H : (if ?b then _ else _) _ = _ |- _ => rewrite Z.eqb_refl in H end.
  tx_inv. quiet_runs.
  match goal with H : quiet _ _ |- _ =>
    pose proof (proj2 H) as Hn; apply quiet_tables in H as (-> & -> & -> & -> & -> & ->) end.
  split_and!; done.
Qed.

(** ** Applying the verdict *)

(** Everything but the incidents and the outbox stays. *)
Definition untouched (d d' : db) : Prop :=
  alerts d' = alerts d /\ remediations d' = remediations d
  /\ verifications d' = verifications d /\ observations d' = observations d
  /\ core_of d' = set_next (uuid_supply d') (core_of d) /\ (uuid_supply d <= uuid_supply d')%N.

#[export] Instance untouched_preorder : PreOrder untouched.
Proof.
  split.
  - intros d. by split_and!.
  - intros d1 d2 d3 (Ha & Hr & Hv & Ho & Hc & Hn) (Ha' & Hr' & Hv' & Ho' & Hc' & Hn').
    split_and!; try congruence; [|lia]. by rewrite Hc', Hc.
Qed.

Lemma quiet_untouched d d' : quiet d d' -> untouched d d'.
Proof.
  intros Hq. pose proof (proj2 Hq). apply quiet_tables in Hq as (_ & ? & ? & ? & ? & ?).
  by split_and!.
Qed.

Lemma move_untouched now inc to r d inc' d' :
  _move now inc to r d = Ok (inc', d') -> incidents d !! i_id inc = Some inc -> untouched d d'.
Proof. intros Hm Hi. apply (move_run _ _ _ _ _ _ _ Hm) in Hi as (_ & _ & Hu). exact Hu. Qed.

Definition moved_to (now : instant) (inc : IncidentRow) (to : IncidentStatus) : IncidentRow :=
  inc <| i_status := to |> <| i_version := i_version inc + 1 |> <| i_updated_at := now |>.

Section Finalize.
Context (max_attempts : Z).

(** What a verdict does to its incident, and the next action it leaves. *)
Definition applied (now : instant) (firing : Z) (inc inc' : IncidentRow)
    (status : VerificationStatus) (next : string) : Prop :=
  match status with
  | V_PASSED => inc' = moved_to now inc RESOLVED /\ next = "resolve"
  | V_TIMED_OUT => inc' = moved_to now inc ESCALATED /\ next = "escalate"
  | _ =>
      if (i_attempt_count inc <? max_attempts) && (0 <? firing)
      then inc' = moved_to now inc VERIFICATION_FAILED /\ next = "reinvestigate"
      else inc' = moved_to now (moved_to now inc VERIFICATION_FAILED) ESCALATED
           /\ next = "escalate"
  end.

Lemma apply_failure_run now row inc d next d' :
  _apply_failure max_attempts now row inc d = Ok (next, d') ->
  incidents d !! i_id inc = Some inc ->
  exists inc', applied now (count_firing d (i_id inc)) inc inc' V_FAILED next
    /\ incidents d' = <[i_id inc := inc']> (incidents d) /\ untouched d d'.
Proof.
  unfold _apply_failure, count_firing_alerts. intros Hr Hi. tx_inv.
  match goal with H : _move _ _ _ _ _ = Ok (?i1, ?d1) |- _ =>
    pose proof (move_untouched _ _ _ _ _ _ _ H Hi) as Hu1;
    apply (move_run _ _ _ _ _ _ _ H) in Hi as (-> & Hi1 & Ha1 & _); clear H end.
  unfold applied. cbn [i_attempt_count i_id].
  match type of Hu1 with untouched d ?d1 =>
    assert (count_firing d1 (i_id inc) = count_firing d (i_id inc)) as Hc
      by (unfold count_firing; by rewrite Ha1) end.
  cbn in Hr |- *. rewrite Hc in Hr.
  destruct ((i_attempt_count inc <? max_attempts) && (0 <? count_firing d (i_id inc))) eqn:E.
  - tx_inv. eexists. split; [done|]. done.
  - tx_inv.
    match goal with H : _move _ ?i1 _ _ ?d1 = Ok _ |- _ =>
      assert (incidents d1 !! i_id i1 = Some i1) as Hi2
        by (rewrite Hi1; apply lookup_insert_eq);
      pose proof (move_untouched _ _ _ _ _ _ _ H Hi2) as Hu2;
      apply (move_run _ _ _ _ _ _ _ H) in Hi2 as (-> & Hi2 & _); clear H end.
    quiet_runs. eexists. split; [done|]. split.
    + match goal with H : quiet _ _ |- _ => apply quiet_tables in H as (-> & _) end.
      rewrite Hi2, Hi1. simpl. by rewrite insert_insert_eq.
    + etrans; [exact Hu1|]. etrans; [exact Hu2|]. by apply quiet_untouched.
Qed.

Lemma apply_run now row inc status d next d' :
  _apply max_attempts now row inc status d = Ok (next, d') ->
  incidents d !! i_id inc = Some inc ->
  exists inc', applied now (count_firing d (i_id inc)) inc inc' status next
    /\ incidents d' = <[i_id inc := inc']> (incidents d) /\ untouched d d'.
Proof.
  intros Hr Hi. unfold _apply in Hr.
  destruct status; try by eapply apply_failure_run.
  all: tx_inv; match goal with H : _move _ _ _ _ _ = Ok (?i1, ?d1) |- _ =>
    pose proof (move_untouched _ _ _ _ _ _ _ H Hi) as Hu1;
    apply (move_run _ _ _ _ _ _ _ H) in Hi as (-> & Hi1 & _); clear H end;
    quiet_runs; eexists; (split; [done|]); split;
    [match goal with H : quiet _ _ |- _ => apply quiet_tables in H as (-> & _) end; done
    |etrans; [exact Hu1|by apply quiet_untouched]].
Qed.

(** The columns a command never changes. *)
Definition ver_cols (v : VerificationRow) :=
  (v_id v, v_incident_id v, v_remediation_id v, v_spec v, v_verification_type v,
   v_policy_version v, v_baseline v, v_correlation_id v, v_created_at v).

(** The bookkeeping. *)
Definition ver_counts (v : VerificationRow) :=
  (v_observation_count v, v_conclusive_count v, v_consecutive_successes v, v_claim_attempt v).

Definition concluded (row row' : VerificationRow) (status : VerificationStatus) : Prop :=
  ver_cols row' = ver_cols row /\ ver_counts row' = ver_counts row
  /\ v_deadline_at row' = v_deadline_at row
  /\ v_status row' = status /\ v_lease_owner row' = None.

Lemma staleness_row d row row' inc rem :
  v_id row' = v_id row -> _staleness d row' inc rem = _staleness d row inc rem.
Proof. unfold _staleness. by intros ->. Qed.

Lemma finalize_run now row decision d row2 d' :
  _finalize max_attempts now row decision d = Ok (row2, d') ->
  (forall i r, incidents d !! i = Some r -> i_id r = i) ->
  concluded row row2 (Verdict.status decision)
  /\ verifications d' = <[v_id row := row2]> (verifications d)
  /\ observations d' = observations d /\ remediations d' = remediations d
  /\ (uuid_supply d <= uuid_supply d')%N
  /\ (forall i r, incidents d' !! i = Some r -> i_id r = i)
  /\ exists inc rem, incidents d !! v_incident_id row = Some inc
     /\ remediations d !! v_remediation_id row = Some rem
     /\ match _staleness d row inc rem with
        | Some _ => incidents d' = incidents d /\ v_next_action row2 = Some "none"
        | None => exists inc' next,
            applied now (count_firing d (i_id inc)) inc inc' (Verdict.status decision) next
            /\ incidents d' = <[i_id inc := inc']> (incidents d)
            /\ v_next_action row2 = Some next
        end.
Proof.
  unfold _finalize, put_verification. intros Hr Hkey. tx_inv. change (id d) with d in *.
  match goal with H : incidents d !! _ = Some ?i |- _ => rename H into Hi; rename i into inc end.
  match goal with H : remediations d !! _ = Some ?i |- _ => rename H into Hrem; rename i into rem end.
  pose proof (Hkey _ _ Hi) as Hid.
  assert (incidents d !! i_id inc = Some inc) as Hi' by (by rewrite Hid).
  rewrite (staleness_row d row) in * by done.
  match goal with H : match _staleness d row inc rem with _ => _ end _ = _ |- _ => rename H into Hap end.
  destruct (_staleness d row inc rem) as [stale|] eqn:Est.
  - tx_inv. quiet_runs.
    match goal with H : quiet _ _ |- _ =>
      pose proof (proj2 H) as Hn; apply quiet_tables in H as (Hinc & _ & Hre & Hve & Hob & _) end.
    rewrite Hinc, Hre, Hve, Hob. split_and!; try done.
    exists inc, rem. rewrite Est. done.
  - tx_inv.
    match goal with H : _apply _ _ _ _ _ _ = Ok _ |- _ =>
      apply apply_run in H as (inc' & Happ & Hinc1 & (_ & Hre1 & Hve1 & Hob1 & _ & Hn1)); [|done] end.
    quiet_runs.
    match goal with H : quiet _ _ |- _ =>
      pose proof (proj2 H) as Hn; apply quiet_tables in H as (Hinc & _ & Hre & Hve & Hob & _) end.
    simpl in Hinc, Hre, Hve, Hob, Hn. rewrite Hinc, Hre, Hve, Hob, Hinc1, Hre1, Hve1, Hob1.
    split_and!; try done; [lia| |].
    + intros i r [[<- <-]|[_ Hl]]%lookup_insert_Some; [|by apply Hkey].
      unfold applied in Happ. destruct (Verdict.status decision); try case_match;
        destruct Happ as [-> _]; done.
    + exists inc, rem. rewrite Est. eauto 10.
Qed.
End Finalize.

(** ** Bookkeeping *)

Definition obs_of (d : db) (i : uuid) : list VerificationObservationRow :=
  filter (fun o => ob_verification_id o = i) (observations d).

(** The number of successes since the last failure. *)
Definition streak_step (n : Z) (o : VerificationObservationRow) : Z :=
  if ob_passed o then n + 1 else 0.
Definition streak (l : list VerificationObservationRow) : Z := foldl streak_step 0 l.

Definition conclusive_in (l : list VerificationObservationRow) : Z :=
  foldl (fun n o => n + (if ob_conclusive o then 1 else 0)) 0 l.

(** The columns of [v] say what its observations [l] say. *)
Definition tallied (l : list VerificationObservationRow) (v : VerificationRow) : Prop :=
  v_observation_count v = Z.of_nat (length l)
  /\ map ob_sequence l = seqZ 1 (Z.of_nat (length l))
  /\ v_conclusive_count v = conclusive_in l
  /\ v_consecutive_successes v = streak l.

(** Every claim recorded at most one observation, in order of the claims; an open
    lease belongs to a claim that has recorded none. *)
Definition claims_ok (l : list VerificationObservationRow) (v : VerificationRow) : Prop :=
  0 <= v_claim_attempt v
  /\ StronglySorted Z.lt (map ob_claim_attempt l)
  /\ Forall (fun o => 1 <= ob_claim_attempt o <= v_claim_attempt v
                      /\ (v_lease_owner v <> None -> ob_claim_attempt o < v_claim_attempt v)
                      /\ (ob_passed o = true -> ob_conclusive o = true)) l
  /\ (v_lease_owner v <> None -> 1 <= v_claim_attempt v /\ v_status v = V_RUNNING).

Definition ver_ok (l : list VerificationObservationRow) (v : VerificationRow) : Prop :=
  tallied l v /\ claims_ok l v
  /\ (v_status v = V_PENDING -> l = [] /\ v_claim_attempt v = 0)
  /\ (v_status v = V_RUNNING -> v_deadline_at v <> None)
  /\ (v_status v = V_PASSED ->
        required_consecutive (v_spec v) <= v_consecutive_successes v).

Record VInv (d : db) : Prop := {
  vinv_rows i v : verifications d !! i = Some v -> v_id v = i /\ ver_ok (obs_of d i) v;
  vinv_obs o : o ∈ observations d -> is_Some (verifications d !! ob_verification_id o);
  vinv_incidents i r : incidents d !! i = Some r -> i_id r = i;
}.

Lemma obs_of_ext d d' i : observations d' = observations d -> obs_of d' i = obs_of d i.
Proof. unfold obs_of. by intros ->. Qed.

Lemma streak_snoc l o : streak (l ++ [o]) = if ob_passed o then streak l + 1 else 0.
Proof. unfold streak. by rewrite foldl_app. Qed.

Lemma conclusive_snoc l o :
  conclusive_in (l ++ [o]) = conclusive_in l + (if ob_conclusive o then 1 else 0).
Proof. unfold conclusive_in. by rewrite foldl_app. Qed.

(** The streak is what it is called: that many of the last observations passed. *)
Lemma streak_passed l n :
  0 <= n <= streak l -> exists l1 l2, l = l1 ++ l2 /\ Z.of_nat (length l2) = n
    /\ Forall (fun o => ob_passed o = true) l2.
Proof.
  revert n. induction l as [|o l IH] using rev_ind; intros n Hn.
  - exists [], []. unfold streak in Hn; simpl in Hn. split_and!; [done|simpl; lia|done].
  - rewrite streak_snoc in Hn. destruct (decide (n = 0)) as [->|].
    + exists (l ++ [o]), []. by rewrite app_nil_r.
    + destruct (ob_passed o) eqn:Ho; [|lia].
      destruct (IH (n - 1)) as (l1 & l2 & -> & Hlen & Hf); [lia|].
      exists l1, (l2 ++ [o]). rewrite app_assoc, length_app. simpl.
      split_and!; [done|lia|]. apply Forall_app. split; [done|by repeat constructor].
Qed.

(** One row changes, and observations of that row may be appended. *)
Lemma VInv_put d d' v os :
  VInv d -> is_Some (verifications d !! v_id v) ->
  verifications d' = <[v_id v := v]> (verifications d) ->
  observations d' = observations d ++ os ->
  Forall (fun o => ob_verification_id o = v_id v) os ->
  (forall i r, incidents d' !! i = Some r -> i_id r = i) ->
  ver_ok (obs_of d (v_id v) ++ os) v ->
  VInv d'.
Proof.
  intros HI Hsome Hv Ho Hos Hinc Hok.
  assert (forall i, obs_of d' i = obs_of d i ++ filter (fun o => ob_verification_id o = i) os) as Hof
    by (intros i; unfold obs_of; by rewrite Ho, filter_app).
  constructor; [| |done].
  - intros i w. rewrite Hv. intros [[<- <-]|[Hne Hl]]%lookup_insert_Some.
    + split; [done|]. rewrite Hof. replace (filter _ os) with os; [done|].
      clear -Hos. induction Hos as [|o os Ho _ IH]; [done|]. by rewrite filter_cons_True, <-IH.
    + destruct (vinv_rows _ HI _ _ Hl) as [? ?]. split; [done|]. rewrite Hof.
      replace (filter _ os) with (@nil VerificationObservationRow); [by rewrite app_nil_r|].
      clear -Hos Hne. induction Hos as [|o os Ho _ IH]; [done|].
      rewrite filter_cons_False; [done|]. by rewrite Ho.
  - intros o. rewrite Ho, elem_of_app, Hv. intros Hin. apply lookup_insert_is_Some'.
    destruct Hin as [Hin|Hin].
    + right. by apply (vinv_obs _ HI).
    + left. rewrite Forall_forall in Hos. symmetry. by apply Hos.
Qed.

Lemma ver_cols_eqs v v' :
  ver_cols v' = ver_cols v ->
  v_id v' = v_id v /\ v_incident_id v' = v_incident_id v /\ v_spec v' = v_spec v
  /\ v_remediation_id v' = v_remediation_id v.
Proof. intros Hc. injection Hc. intros. by split_and!. Qed.

Lemma ver_counts_eqs v v' :
  ver_counts v' = ver_counts v ->
  v_observation_count v' = v_observation_count v /\ v_conclusive_count v' = v_conclusive_count v
  /\ v_consecutive_successes v' = v_consecutive_successes v
  /\ v_claim_attempt v' = v_claim_attempt v.
Proof. intros Hc. injection Hc. intros. by split_and!. Qed.

Lemma tallied_counts l v v' : ver_counts v' = ver_counts v -> tallied l v -> tallied l v'.
Proof. intros (H1 & H2 & H3 & _)%ver_counts_eqs. unfold tallied. by rewrite H1, H2, H3. Qed.

Lemma claims_ok_free l v v' :
  ver_counts v' = ver_counts v -> v_lease_owner v' = None -> claims_ok l v -> claims_ok l v'.
Proof.
  intros (_ & _ & _ & H4)%ver_counts_eqs Hl (H0 & Hs & Hf & _). unfold claims_ok. rewrite H4, Hl.
  split_and!; try done. eapply Forall_impl; [exact Hf|]. naive_solver.
Qed.

Lemma pending_no_lease l v : claims_ok l v -> v_status v = V_PENDING -> v_lease_owner v = None.
Proof.
  intros (_ & _ & _ & Hl) Hs. destruct (v_lease_owner v); [|done].
  destruct Hl as [_ Hr]; [done|]. congruence.
Qed.

Lemma concluded_ok l v v' status :
  ver_ok l v -> concluded v v' status -> status <> V_PENDING -> status <> V_RUNNING ->
  (status = V_PASSED -> required_consecutive (v_spec v) <= v_consecutive_successes v) ->
  ver_ok l v'.
Proof.
  intros (Ht & Hc & _) (Hcols & Hcounts & _ & Hs & Hl) Hp Hr Hpass.
  apply ver_cols_eqs in Hcols as Hspec. apply ver_counts_eqs in Hcounts as Hcs. destruct_and!.
  split; [by eapply tallied_counts|]. split; [by eapply claims_ok_free|].
  rewrite Hs. split_and!; [done|done|]. intros ->.
  replace (v_spec v') with (v_spec v) by congruence.
  replace (v_consecutive_successes v') with (v_consecutive_successes v) by congruence. auto.
Qed.

Lemma sorted_snoc (l : list Z) x : StronglySorted Z.lt l -> Forall (fun y => y < x) l ->
  StronglySorted Z.lt (l ++ [x]).
Proof.
  induction 1 as [|y l Hs IH Hf]; intros Hx; simpl; [by repeat constructor|].
  inversion Hx; subst. constructor; [by apply IH|]. apply Forall_app. split; [done|by repeat constructor].
Qed.

(** ** Runs of the commands *)

Lemma start_run now row d row' d' :
  _start now row d = Ok (row', d') ->
  exists deadline,
    ver_cols row' = ver_cols row /\ ver_counts row' = ver_counts row
    /\ v_status row' = V_RUNNING /\ v_deadline_at row' = Some deadline
    /\ v_lease_owner row' = v_lease_owner row
    /\ v_lease_expires_at row' = v_lease_expires_at row
    /\ verifications d' = <[v_id row := row']> (verifications d)
    /\ observations d' = observations d /\ incidents d' = incidents d
    /\ remediations d' = remediations d /\ (uuid_supply d <= uuid_supply d')%N
    /\ alerts d' = alerts d.
Proof.
  unfold _start, put_verification. intros Hr. tx_inv. quiet_runs.
  match goal with H : quiet _ _ |- _ =>
    pose proof (proj2 H); apply quiet_tables in H as (? & ? & ? & ? & ? & _) end.
  eexists. by split_and!.
Qed.

Lemma started_ok l v v' deadline :
  ver_ok l v -> v_status v = V_PENDING -> ver_cols v' = ver_cols v ->
  ver_counts v' = ver_counts v -> v_status v' = V_RUNNING -> v_deadline_at v' = Some deadline ->
  v_lease_owner v' = v_lease_owner v -> ver_ok l v'.
Proof.
  intros (Ht & Hc & _) Hs Hcols Hcounts Hs' Hd Hl.
  split; [by eapply tallied_counts|].
  split; [eapply claims_ok_free; eauto; rewrite Hl; by eapply pending_no_lease|].
  rewrite Hs', Hd. by split_and!.
Qed.

Lemma VInv_started now row d row' d' :
  VInv d -> verifications d !! v_id row = Some row -> v_status row = V_PENDING ->
  _start now row d = Ok (row', d') ->
  VInv d' /\ verifications d' !! v_id row' = Some row' /\ v_id row' = v_id row.
Proof.
  intros HI Hl Hs Hr. destruct (vinv_rows _ HI _ _ Hl) as [_ Hok].
  destruct (start_run _ _ _ _ _ Hr) as (dl & Hc & Hn & Hst & Hd & Hle & _ & Hv & Ho & Hi & _).
  pose proof (ver_cols_eqs _ _ Hc) as (Hid & _).
  split; [|split; [rewrite Hv, Hid; apply lookup_insert_eq|done]].
  apply (VInv_put d d' row' []); try done.
  - rewrite Hid. eauto.
  - by rewrite Hid.
  - by rewrite app_nil_r.
  - rewrite Hi. apply (vinv_incidents _ HI).
  - rewrite app_nil_r, Hid. by eapply started_ok.
Qed.

(** ** Verdicts *)

Lemma decide_passed spec latest c k now dl :
  Verdict.status (Verdict.decide spec latest c k now dl) = V_PASSED ->
  required_consecutive spec <= c.
Proof.
  unfold Verdict.decide. destruct (Verdict.definitive latest); [done|].
  destruct (Z.leb_spec (required_consecutive spec) c); [done|]. by repeat case_match.
Qed.

Lemma decide_not_pending spec latest c k now dl :
  Verdict.status (Verdict.decide spec latest c k now dl) <> V_PENDING.
Proof. unfold Verdict.decide. by repeat case_match. Qed.

Lemma decide_past_deadline spec latest c k now dl :
  dl <= now -> Verdict.status (Verdict.decide spec latest c k now dl) <> V_RUNNING.
Proof.
  intros Hd. unfold Verdict.decide. destruct (Z.leb_spec dl now); [|lia]. by repeat case_match.
Qed.

Section Commands.
Context (max_attempts : Z).

Lemma VInv_finalize now row decision d row2 d' :
  VInv d -> verifications d !! v_id row = Some row ->
  Verdict.status decision <> V_PENDING -> Verdict.status decision <> V_RUNNING ->
  (Verdict.status decision = V_PASSED ->
     required_consecutive (v_spec row) <= v_consecutive_successes row) ->
  _finalize max_attempts now row decision d = Ok (row2, d') -> VInv d'.
Proof.
  intros HI Hl Hp Hr Hpass Hrun. destruct (vinv_rows _ HI _ _ Hl) as [_ Hok].
  destruct (finalize_run _ _ _ _ _ _ _ Hrun (vinv_incidents _ HI))
    as (Hc & Hv & Ho & _ & _ & Hkey & _).
  assert (v_id row2 = v_id row) as Hid by (destruct Hc as [Hc _]; by apply ver_cols_eqs in Hc as (? & _)).
  apply (VInv_put d d' row2 []); try done.
  - rewrite Hid. eauto.
  - by rewrite Hid.
  - by rewrite app_nil_r.
  - rewrite app_nil_r, Hid. by eapply concluded_ok.
Qed.

Lemma verification_lock_run i d row d' :
  _lock i d = Ok (row, d') -> verifications d !! i = Some row /\ d' = d.
Proof. unfold _lock. intros Hr. by tx_inv. Qed.

Lemma start_keeps now i d v d' : VInv d -> start now i d = Ok (v, d') -> VInv d'.
Proof.
  unfold start. intros HI Hr. tx_inv.
  match goal with H : _lock _ _ = Ok _ |- _ => apply verification_lock_run in H as [Hl ->] end.
  case_bool_decide as Hs; [|by tx_inv].
  destruct (vinv_rows _ HI _ _ Hl) as [<- _]. by eapply VInv_started.
Qed.

(** The claim's part after the row is known to be running. *)
Lemma claimed_ok l v v' :
  ver_ok l v -> v_status v = V_RUNNING -> ver_cols v' = ver_cols v -> v_status v' = V_RUNNING ->
  v_observation_count v' = v_observation_count v -> v_conclusive_count v' = v_conclusive_count v ->
  v_consecutive_successes v' = v_consecutive_successes v ->
  v_claim_attempt v' = v_claim_attempt v + 1 -> v_deadline_at v' = v_deadline_at v ->
  ver_ok l v'.
Proof.
  intros (Ht & (H0 & Hso & Hf & _) & _ & Hd & _) Hs Hc Hs' Hn1 Hn2 Hn3 Hn4 Hdl.
  split; [unfold tallied in *; by rewrite Hn1, Hn2, Hn3|].
  split; [|rewrite Hs', Hdl; split_and!; auto; done].
  unfold claims_ok. rewrite Hn4. split_and!; [lia|done| |intros _; split; [lia|done]].
  eapply Forall_impl; [exact Hf|]. simpl. intros o (Ho & _ & ?).
  split; [lia|]. split; [intros _; lia|done].
Qed.

Lemma claim_keeps now i owner lease d t d' :
  VInv d -> claim_due max_attempts now i owner lease d = Ok (t, d') -> VInv d'.
Proof.
  unfold claim_due, put_verification. intros HI Hr. tx_inv.
  match goal with H : _lock _ _ = Ok _ |- _ => apply verification_lock_run in H as [Hl ->] end.
  match goal with H : _ d = Ok (?row, ?d1) |- _ => rename H into H1; rename row into row1; rename d1 into db1 end.
  assert (VInv db1 /\ verifications db1 !! v_id row1 = Some row1) as [HI1 Hl1].
  { destruct (vinv_rows _ HI _ _ Hl) as [<- _]. clear Hr.
    case_bool_decide as Hs; [|by tx_inv].
    by destruct (VInv_started _ _ _ _ _ HI Hl Hs H1) as (? & ? & _). }
  clear H1 Hl HI.
  case_bool_decide as Hs; simpl in Hr; [|by tx_inv].
  destruct (lease_held now row1); [by tx_inv|].
  destruct (deadline_passed now row1) eqn:Hdl.
  - tx_inv. eapply VInv_finalize; try eassumption; [apply decide_not_pending| |apply decide_passed].
    apply decide_past_deadline. unfold deadline_passed in Hdl.
    destruct (v_deadline_at row1); [|done]. simpl. lia.
  - destruct (too_early now row1); [by tx_inv|]. tx_inv.
    destruct (vinv_rows _ HI1 _ _ Hl1) as [_ Hok].
    match goal with |- VInv (_ <| verifications ::= <[_ := ?v]> |>) =>
      apply (VInv_put db1 _ v []) end; try done.
    + by rewrite app_nil_r.
    + apply (vinv_incidents _ HI1).
    + rewrite app_nil_r. by eapply claimed_ok.
Qed.

Lemma quiet_free_evidence now v n role l :
  relates (fun d d' => incidents d' = incidents d /\ verifications d' = verifications d
                       /\ observations d' = observations d /\ remediations d' = remediations d
                       /\ alerts d' = alerts d /\ core_of d' = core_of d)
    (insert_verification_evidence now v n role l).
Proof.
  induction l as [|e l IH]; intros d u d' Hr; simpl in Hr; tx_inv; [done|].
  case_bool_decide; [|by tx_inv]. case_bool_decide; [by tx_inv|]. tx_inv.
  by apply IH in Hr.
Qed.

Lemma passed_conclusive spec sample r :
  evaluate_sample spec sample = Ok r -> passed r = true -> conclusive r = true.
Proof.
  unfold evaluate_sample. intros (rs & _ & H)%rbind_Ok Hp. simplify_eq/=.
  by apply andb_true_iff in Hp as [? _].
Qed.

(** A recorded observation. *)
Lemma observed_ok l now poll v r o :
  ver_ok l v -> v_status v = V_RUNNING -> v_lease_owner v <> None ->
  ob_sequence o = v_observation_count v + 1 -> ob_claim_attempt o = v_claim_attempt v ->
  ob_passed o = passed r -> ob_conclusive o = conclusive r ->
  (passed r = true -> conclusive r = true) ->
  ver_ok (l ++ [o]) (observed_row now poll v r).
Proof.
  intros ((Hn & Hsq & Hc & Hst) & (H0 & Hso & Hf & Hle) & _ & Hd & _) Hs Hl Hos Hoc Hop Hoo Hpc.
  destruct (Hle Hl) as [H1 _].
  split; [|split; [|split; [|split]]].
  - unfold tallied. rewrite length_app, streak_snoc, conclusive_snoc, map_app, Hsq. simpl.
    rewrite Hop, Hoo, Hos, Hn, Hc, Hst. split; [lia|]. split; [|done].
    replace (Z.of_nat (length l + 1)) with (Z.of_nat (length l) + 1) by lia.
    rewrite seqZ_app by lia. f_equal. unfold seqZ. simpl. f_equal. lia.
  - unfold claims_ok. simpl. rewrite map_app. split_and!; [done| | |done].
    + simpl. rewrite Hoc. apply sorted_snoc; [done|]. rewrite Forall_fmap.
      eapply Forall_impl; [exact Hf|]. simpl. naive_solver.
    + apply Forall_app. split.
      * eapply Forall_impl; [exact Hf|]. simpl. naive_solver.
      * repeat constructor; rewrite ?Hoc, ?Hop, ?Hoo; try lia; try done; auto.
  - simpl. congruence.
  - simpl. auto.
  - simpl. congruence.
Qed.

(** A recorded poll: the row it leaves behind before any verdict. *)
Definition recorded (d d1 : db) (now : instant) (row row1 : VerificationRow)
    (ticket : VerificationTicket) (r : ObservationResult) : Prop :=
  VInv d1 /\ verifications d !! vt_verification_id ticket = Some row
  /\ holds row ticket = true /\ v_id row1 = v_id row
  /\ v_consecutive_successes row1 = (if passed r then v_consecutive_successes row + 1 else 0)
  /\ v_lease_owner row1 = None /\ v_status row1 = V_RUNNING /\ v_deadline_at row1 = v_deadline_at row
  /\ v_incident_id row1 = v_incident_id row /\ v_spec row1 = v_spec row
  /\ v_remediation_id row1 = v_remediation_id row /\ ver_cols row1 = ver_cols row
  /\ verifications d1 = <[v_id row := row1]> (verifications d)
  /\ incidents d1 = incidents d /\ remediations d1 = remediations d /\ alerts d1 = alerts d
  /\ (uuid_supply d <= uuid_supply d1)%N
  /\ v_claim_attempt row1 = v_claim_attempt row
  /\ exists o, observations d1 = observations d ++ [o] /\ ob_passed o = passed r
       /\ ob_verification_id o = v_id row
       /\ ob_sequence o = v_observation_count row + 1 /\ ob_conclusive o = conclusive r
       /\ v_conclusive_count row1 = v_conclusive_count row + (if conclusive r then 1 else 0).

Lemma holds_eqs row ticket :
  holds row ticket = true ->
  v_status row = V_RUNNING /\ v_lease_owner row = Some (vt_owner ticket)
  /\ v_claim_attempt row = vt_claim_attempt ticket.
Proof. unfold holds. rewrite !andb_true_iff, !bool_decide_eq_true. tauto. Qed.

Lemma record_run now ticket sample ids at_ d row' d' :
  VInv d ->
  record_observation max_attempts now ticket sample ids at_ d = Ok (row', d') ->
  exists row row1 r d1, recorded d d1 now row row1 ticket r
    /\ evaluate_sample (vt_spec ticket)
         (sample <| new_firing_alerts := Some (_new_firing_alerts d row) |>) = Ok r
    /\ let decision := Verdict.decide (vt_spec ticket) (Some r) (v_consecutive_successes row1)
                         (v_conclusive_count row1) now (default now (v_deadline_at row1)) in
       if bool_decide (Verdict.status decision = V_RUNNING)
       then row' = row1 /\ d' = d1
       else _finalize max_attempts now row1 decision d1 = Ok (row', d').
Proof.
  unfold record_observation, insert_observation, put_verification. intros HI Hr. tx_inv.
  match goal with H : _lock _ _ = Ok _ |- _ => apply verification_lock_run in H as [Hl ->] end.
  match type of Hl with _ = Some ?x => rename x into row end.
  destruct (holds row ticket) eqn:Hh; simpl in Hr; [|by tx_inv]. tx_inv.
  destruct (holds_eqs _ _ Hh) as (Hs & Hlo & Hca).
  match goal with H : evaluate_sample _ _ = Ok ?x |- _ =>
    rename H into Hev; rename x into r; pose proof (passed_conclusive _ _ _ Hev) as Hpc end.
  match goal with H : (if existsb ?p ?l then _ else _) _ = _ |- _ => destruct (existsb p l); [by tx_inv|] end.
  tx_inv.
  match goal with H : insert_verification_evidence _ _ _ _ _ _ = Ok (_, ?dd) |- _ =>
    pose proof (idle_insert_evidence _ _ _ _ _ _ _ _ H) as [_ Hn];
    apply quiet_free_evidence in H as (Hi & Hv & Ho & Hre & Hal & Hco); rename dd into d2 end.
  simpl in Hi, Hv, Ho, Hre, Hal, Hn.
  match goal with H : timedelta_seconds _ = Ok ?x |- _ => rename x into poll end.
  destruct (vinv_rows _ HI _ _ Hl) as [Hid Hok].
  set (row1 := observed_row now poll row r) in *.
  exists row, row1, r, (d2 <| verifications ::= <[v_id row1 := row1]> |>). split.
  - match type of Ho with _ = _ ++ [?x] => set (o := x) in * end.
    assert (VInv (d2 <| verifications ::= <[v_id row1 := row1]> |>)) as HV.
    { apply (VInv_put d _ row1 [o]); simpl.
      - exact HI.
      - change (v_id row1) with (v_id row). rewrite Hid. eauto.
      - by rewrite Hv.
      - exact Ho.
      - by repeat constructor.
      - rewrite Hi. apply (vinv_incidents _ HI).
      - change (v_id row1) with (v_id row). rewrite Hid.
        apply observed_ok; try done. by rewrite Hlo. }
    split; [exact HV|]. do 11 (split; [done|]). simpl. rewrite Hv.
    repeat (split; [done|]). by exists o.
  - split; [exact Hev|]. cbv zeta. case_bool_decide as Hst; cbn [negb] in Hr.
    + rewrite bool_decide_eq_true_2 by exact Hst. by apply ret_Ok in Hr.
    + rewrite bool_decide_eq_false_2 by exact Hst. exact Hr.
Qed.

Lemma record_keeps now ticket sample ids at_ d row' d' :
  VInv d ->
  (forall v, verifications d !! vt_verification_id ticket = Some v -> vt_spec ticket = v_spec v) ->
  record_observation max_attempts now ticket sample ids at_ d = Ok (row', d') -> VInv d'.
Proof.
  intros HI Hspec Hr. destruct (record_run _ _ _ _ _ _ _ _ HI Hr) as (row & row1 & r & d1 & Hrec & _ & Hd).
  destruct Hrec as (HI1 & Hl & _ & Hid & _ & _ & _ & _ & _ & Hsp & _ & _ & Hv & _).
  cbv zeta in Hd. case_bool_decide as Hst; [by destruct Hd as [_ ->]|].
  eapply (VInv_finalize _ row1); try exact Hd; try done; [|apply decide_not_pending|].
  - rewrite Hv, Hid. apply lookup_insert_eq.
  - rewrite Hsp, <-(Hspec _ Hl). apply decide_passed.
Qed.
End Commands.
