(* ===== verification/VerificationSafety.v ===== *)
(** * The whole loop: remediation and verification commands interleaved

    The verification commands as steps on the same database as the remediation
    commands.  Each of them is [idle] for the remediation lifecycle and each
    remediation command is [foreign] to the bookkeeping of the verifications, so both
    invariants hold in every database the two services and any other respectful
    writer can reach. *)
From S2P Require Import Prelude PyFloat Json Enums VerificationDomain Catalog.
From S2P Require Import RemediationDomain Policy Store TxLogic RemediationLifecycle.
From S2P Require Import RemediationService RemediationProofs RemediationSafety.
From S2P Require Import VerificationService VerificationProofs.
Local Open Scope Z_scope.
Import Core.

(** ** What the remediation lifecycle sees of a verification command *)

(** Nothing, up to the verification rows themselves. *)
Definition beside (d d' : db) : Prop := idle d (d' <| verifications := verifications d |>).

#[export] Instance beside_preorder : PreOrder beside.
Proof.
  split.
  - intros d. unfold beside. by replace (d <| verifications := verifications d |>) with d by by destruct d.
  - intros d1 d2 d3 [H1 N1] [H2 N2]. simpl in *.
    split; [|simpl in *; lia]. unfold core_of, set_next, id in *; simpl in *.
    injection H2 as -> -> -> ->. injection H1 as -> -> -> ->. done.
Qed.

Lemma idle_beside d d' : idle d d' -> beside d d'.
Proof.
  intros [H N]. split; [|done]. unfold core_of, set_next, id in *; simpl in *.
  injection H as -> -> -> -> _. done.
Qed.

Lemma beside_idle d d' :
  beside d d' -> v_remediation_id <$> verifications d' = v_remediation_id <$> verifications d ->
  idle d d'.
Proof.
  intros [H N] Hv. split; [|done]. unfold core_of, set_next, id in *; simpl in *.
  rewrite Hv. injection H as -> -> -> ->. done.
Qed.

Lemma relates_beside {A} (m : Tx A) : relates idle m -> relates beside m.
Proof. intros Hm d a d' Hr. by eapply idle_beside, Hm. Qed.

Lemma beside_put v : relates beside (put_verification v).
Proof. apply relates_writes. intros d. split; [done|simpl; lia]. Qed.
Lemma beside_outbox now et at_ ai ci p : relates beside (insert_outbox_event now et at_ ai ci p).
Proof. apply relates_beside, idle_outbox. Qed.
Lemma beside_transition now i to c r e : relates beside (transition_with_event now i to c r e).
Proof. apply relates_beside, idle_transition_with_event. Qed.
Lemma beside_evidence now v n role l : relates beside (insert_verification_evidence now v n role l).
Proof. intros d a d' Hr. by eapply idle_beside, idle_insert_evidence. Qed.
Lemma beside_observation o : relates beside (insert_observation o).
Proof.
  unfold insert_observation. apply relates_bind; [typeclasses eauto|apply relates_reads; typeclasses eauto|].
  intros l. case_match; [by apply relates_raise|]. apply relates_writes. intros d. split; [done|simpl; lia].
Qed.

Section Beside.
Local Hint Resolve beside_put beside_outbox beside_transition beside_evidence beside_observation
  : relates.

Lemma beside_lock i : relates beside (_lock i).
Proof. unfold _lock. relates_auto. Qed.
Local Hint Resolve beside_lock : relates.
Lemma beside_started now row : relates beside (_start now row).
Proof. unfold _start, _event. relates_auto. Qed.
Local Hint Resolve beside_started : relates.
Lemma beside_start now i : relates beside (start now i).
Proof. unfold start. relates_auto. Qed.
Lemma beside_finalize m now row dec : relates beside (_finalize m now row dec).
Proof.
  unfold _finalize, _apply, _apply_failure, _closure, _event, _move, count_firing_alerts.
  relates_auto.
Qed.
Local Hint Resolve beside_finalize : relates.
Lemma beside_claim m now i o l : relates beside (claim_due m now i o l).
Proof. unfold claim_due. relates_auto. Qed.
Lemma beside_record m now t s ids at_ : relates beside (record_observation m now t s ids at_).
Proof. unfold record_observation. relates_auto. Qed.
End Beside.

(** ** What a verification command does to the tables *)

Definition terminal (s : VerificationStatus) : Prop := s ∈ TERMINAL_VERIFICATION_STATUSES.

Lemma terminal_spec s : terminal s <-> s <> V_PENDING /\ s <> V_RUNNING.
Proof.
  unfold terminal, TERMINAL_VERIFICATION_STATUSES. rewrite !elem_of_cons, elem_of_nil.
  destruct s; intuition congruence.
Qed.

(** Claims only count up; a lease changes hands only through a new claim. *)
Definition progressed (v v' : VerificationRow) : Prop :=
  v_claim_attempt v < v_claim_attempt v'
  \/ v_claim_attempt v' = v_claim_attempt v
     /\ (v_lease_owner v' = v_lease_owner v \/ v_lease_owner v' = None).

#[export] Instance progressed_preorder : PreOrder progressed.
Proof.
  split; [right; auto|]. intros v1 v2 v3 [H1|[H1 L1]] [H2|[H2 L2]]; unfold progressed; [lia..|].
  right. split; [lia|]. destruct L2 as [->| ->]; [exact L1|by right].
Qed.

Section Stepped.
Context (max_attempts : Z).

(** The verdict of [v'] took effect on its incident at [now]. *)
Definition verdict_applied (now : instant) (d d' : db) (v' : VerificationRow) : Prop :=
  exists inc rem inc' next,
    incidents d !! v_incident_id v' = Some inc /\ i_id inc = v_incident_id v'
    /\ remediations d !! v_remediation_id v' = Some rem
    /\ _staleness d v' inc rem = None
    /\ terminal (v_status v')
    /\ applied max_attempts now (count_firing d (i_id inc)) inc inc' (v_status v') next
    /\ v_next_action v' = Some next
    /\ incidents d' = <[i_id inc := inc']> (incidents d).

Definition one_row (now : instant) (d d' : db) (v v' : VerificationRow)
    (os : list VerificationObservationRow) : Prop :=
  verifications d !! v_id v = Some v /\ ~ terminal (v_status v)
  /\ ver_cols v' = ver_cols v /\ progressed v v'
  /\ verifications d' = <[v_id v := v']> (verifications d)
  /\ observations d' = observations d ++ os
  /\ Forall (fun o => ob_verification_id o = v_id v) os
  /\ (incidents d' = incidents d \/ verdict_applied now d d' v').

Definition stepped (now : instant) (d d' : db) : Prop :=
  remediations d' = remediations d
  /\ (verifications d' = verifications d /\ observations d' = observations d
        /\ incidents d' = incidents d
      \/ exists v v' os, one_row now d d' v v' os).

Lemma stepped_refl now d : stepped now d d.
Proof. split; [done|by left]. Qed.

Lemma staleness_ext d d1 row inc rem :
  remediations d1 = remediations d -> _staleness d1 row inc rem = _staleness d row inc rem.
Proof. unfold _staleness. by intros ->. Qed.

(** A verdict reached on a row [row] that is [v] with some columns written: what
    the whole command did to [v]. *)
Lemma finalize_one_row now d d1 d2 v row dec row2 os :
  (forall i r, incidents d !! i = Some r -> i_id r = i) ->
  verifications d !! v_id v = Some v -> ~ terminal (v_status v) ->
  ver_cols row = ver_cols v -> progressed v row ->
  (verifications d1 = verifications d \/ verifications d1 = <[v_id v := row]> (verifications d)) ->
  observations d1 = observations d ++ os ->
  Forall (fun o => ob_verification_id o = v_id v) os ->
  incidents d1 = incidents d -> remediations d1 = remediations d -> alerts d1 = alerts d ->
  terminal (Verdict.status dec) ->
  _finalize max_attempts now row dec d1 = Ok (row2, d2) -> stepped now d d2.
Proof.
  intros Hkey Hl Hnt Hc Hp Hv Ho Hos Hi Hr Ha Ht Hrun.
  pose proof (ver_cols_eqs _ _ Hc) as (Hid & Hinc & _ & Hrem).
  rewrite <-Hi in Hkey.
  destruct (finalize_run _ _ _ _ _ _ _ Hrun Hkey)
    as ((Hc2 & Hn2 & _ & Hs2 & Hlo2) & Hv2 & Ho2 & Hr2 & _ & _ & inc & rem & Hinc1 & Hrem1 & Hap).
  pose proof (ver_cols_eqs _ _ Hc2) as (Hid2 & Hinc2 & _ & Hrem2).
  split; [congruence|]. right. exists v, row2, os.
  split_and!; [done|done|congruence| | |congruence|done|].
  - transitivity row; [done|]. right. apply ver_counts_eqs in Hn2 as (_ & _ & _ & ->). auto.
  - rewrite Hv2, Hid. destruct Hv as [->| ->]; [done|by rewrite insert_insert_eq].
  - destruct (_staleness d1 row inc rem) eqn:Est; [left; destruct Hap; congruence|right].
    destruct Hap as (inc' & next & Happ & Hinc' & Hnext).
    exists inc, rem, inc', next. pose proof (Hkey _ _ Hinc1) as Hk.
    rewrite Hi in Hinc1, Hinc'. rewrite Hr in Hrem1.
    rewrite (count_firing_ext d d1) in Happ by done.
    rewrite (staleness_ext d d1) in Est by done.
    split_and!; [congruence|congruence|congruence| |congruence|congruence|done|done].
    by rewrite (staleness_row d row row2).
Qed.

Lemma stepped_one now d d' v v' os :
  remediations d' = remediations d -> one_row now d d' v v' os -> stepped now d d'.
Proof. intros Hr Ho. split; [done|]. right. eauto. Qed.

(** The part every poll starts with: the row, started if it was not. *)
Lemma opened_run now v d row d1 :
  verifications d !! v_id v = Some v ->
  (if bool_decide (v_status v = V_PENDING) then _start now v else mret v) d = Ok (row, d1) ->
  (row = v /\ d1 = d)
  \/ (v_status v = V_PENDING /\ ver_cols row = ver_cols v /\ progressed v row
      /\ v_status row = V_RUNNING
      /\ verifications d1 = <[v_id v := row]> (verifications d) /\ observations d1 = observations d
      /\ incidents d1 = incidents d /\ remediations d1 = remediations d /\ alerts d1 = alerts d).
Proof.
  intros Hl Hr. case_bool_decide as Hs; [|left; by tx_inv]. right.
  destruct (start_run _ _ _ _ _ Hr) as (dl & Hc & Hn & Hst & _ & Hle & _ & Hv & Ho & Hi & Hre & _ & Ha).
  split_and!; try done. right. apply ver_counts_eqs in Hn as (_ & _ & _ & ->). auto.
Qed.

(** Only the row is written. *)
Lemma put_one_row now d d' v v' os :
  verifications d !! v_id v = Some v -> ~ terminal (v_status v) -> ver_cols v' = ver_cols v ->
  progressed v v' -> verifications d' = <[v_id v := v']> (verifications d) ->
  observations d' = observations d ++ os -> Forall (fun o => ob_verification_id o = v_id v) os ->
  incidents d' = incidents d -> remediations d' = remediations d -> stepped now d d'.
Proof.
  intros. apply (stepped_one now d d' v v' os); [done|]. unfold one_row. eauto 12.
Qed.

Lemma not_terminal s : s = V_PENDING \/ s = V_RUNNING -> ~ terminal s.
Proof. rewrite terminal_spec. naive_solver. Qed.

Lemma start_stepped now i d r d' :
  VInv d -> start now i d = Ok (r, d') -> stepped now d d'.
Proof.
  unfold start. intros HI Hr. tx_inv.
  match goal with H : _lock _ _ = Ok _ |- _ => apply verification_lock_run in H as [Hl ->] end.
  destruct (vinv_rows _ HI _ _ Hl) as [Hid _]. subst i.
  destruct (opened_run _ _ _ _ _ Hl Hr)
    as [[-> ->]|(Hs & Hc & Hp & _ & Hv & Ho & Hi & Hre & _)]; [apply stepped_refl|].
  eapply put_one_row with (os := []); eauto; [apply not_terminal; by left|by rewrite app_nil_r].
Qed.

Lemma claim_stepped now i owner lease d t d' :
  VInv d -> claim_due max_attempts now i owner lease d = Ok (t, d') -> stepped now d d'.
Proof.
  unfold claim_due, put_verification. intros HI Hr. tx_inv.
  match goal with H : _lock _ _ = Ok (?v, _) |- _ => apply verification_lock_run in H as [Hl ->]; rename v into v0 end.
  match goal with H : _ d = Ok (?row, ?d1) |- _ => rename H into H1; rename row into row1; rename d1 into db1 end.
  destruct (vinv_rows _ HI _ _ Hl) as [Hid _]. subst i.
  assert (ver_cols row1 = ver_cols v0 /\ progressed v0 row1
          /\ (verifications db1 = verifications d \/ verifications db1 = <[v_id v0 := row1]> (verifications d))
          /\ observations db1 = observations d ++ [] /\ incidents db1 = incidents d
          /\ remediations db1 = remediations d /\ alerts db1 = alerts d
          /\ (v_status row1 = V_RUNNING -> ~ terminal (v_status v0))
          /\ stepped now d db1) as (Hc & Hp & Hv & Ho & Hi & Hre & Ha & Hnt & Hst).
  { rewrite app_nil_r. destruct (opened_run _ _ _ _ _ Hl H1)
      as [[-> ->]|(Hs & Hc & Hp & _ & Hv & Ho & Hi & Hre & Ha)].
    - split_and!; auto using stepped_refl; [reflexivity|]. intros. apply not_terminal; by right.
    - assert (~ terminal (v_status v0)) by (apply not_terminal; by left). split_and!; auto.
      eapply put_one_row with (os := []); eauto. by rewrite app_nil_r. }
  clear H1. case_bool_decide as Hs; simpl in Hr; [specialize (Hnt Hs)|by tx_inv].
  destruct (lease_held now row1); [by tx_inv|].
  destruct (deadline_passed now row1) eqn:Hdl.
  - tx_inv. pose proof (vinv_incidents _ HI).
    eapply finalize_one_row with (os := []) (v := v0) (row := row1); eauto;
      [unfold ver_cols; congruence|].
    apply terminal_spec. split; [apply decide_not_pending|].
    apply decide_past_deadline. unfold deadline_passed in Hdl.
    destruct (v_deadline_at row1); [|done]. simpl. lia.
  - destruct (too_early now row1); [by tx_inv|]. tx_inv.
    match goal with |- stepped _ _ (_ <| verifications ::= <[_ := ?w]> |>) =>
      eapply put_one_row with (os := []) (v := v0) (v' := w) end; eauto.
    + unfold ver_cols in *; simpl. congruence.
    + transitivity row1; [done|]. left. simpl. lia.
    + simpl. match goal with E : v_id row1 = _ |- _ => rewrite E end. destruct Hv as [->| ->]; [done|by rewrite insert_insert_eq].
Qed.

Lemma record_stepped now ticket sample ids at_ d row' d' :
  VInv d -> record_observation max_attempts now ticket sample ids at_ d = Ok (row', d') ->
  stepped now d d'.
Proof.
  intros HI Hr. destruct (record_run _ _ _ _ _ _ _ _ _ HI Hr) as (row & row1 & r & d1 & Hrec & _ & Hd).
  destruct Hrec as (HI1 & Hl & Hh & Hid & _ & Hlo & Hst1 & _ & _ & _ & _ & Hc & Hv & Hi & Hre & Ha & _ & Hca & o & Ho & _ & Hov & _).
  destruct (vinv_rows _ HI _ _ Hl) as [Hidv Hok]. rewrite <-Hidv in Hl.
  destruct (holds_eqs _ _ Hh) as (Hs & _).
  assert (~ terminal (v_status row)) by (apply not_terminal; by right).
  assert (progressed row row1) as Hp.
  { right. auto. }
  cbv zeta in Hd. case_bool_decide as Hdec.
  - destruct Hd as [-> ->]. eapply put_one_row with (os := [o]) (v := row) (v' := row1); eauto.
  - pose proof (vinv_incidents _ HI).
    eapply finalize_one_row with (os := [o]) (v := row) (row := row1); eauto.
    apply terminal_spec. split; [apply decide_not_pending|done].
Qed.
End Stepped.

(** ** What the verifications see of a foreign transaction *)

(** Verification identifiers come from the supply and incidents keep their keys. *)
Definition well_keyed (d : db) : Prop :=
  (forall i, is_Some (verifications d !! i) -> (i < uuid_supply d)%N)
  /\ (forall i r, incidents d !! i = Some r -> i_id r = i).

(** A verification as a remediation's execution requests it. *)
Definition born (v : VerificationRow) : Prop :=
  v_status v = V_PENDING /\ v_observation_count v = 0 /\ v_conclusive_count v = 0
  /\ v_consecutive_successes v = 0 /\ v_claim_attempt v = 0 /\ v_lease_owner v = None.

(** Verifications are requested, never written; observations are not touched. *)
Definition foreign (d d' : db) : Prop :=
  well_keyed d ->
  well_keyed d' /\ observations d' = observations d
  /\ (forall i v, verifications d !! i = Some v -> verifications d' !! i = Some v)
  /\ (forall i v, verifications d' !! i = Some v ->
        verifications d !! i = Some v \/ verifications d !! i = None /\ v_id v = i /\ born v).

#[export] Instance foreign_preorder : PreOrder foreign.
Proof.
  split.
  - intros d Hw. auto.
  - intros d1 d2 d3 H1 H2 Hw. destruct (H1 Hw) as (Hw2 & Ho2 & Hk2 & Hn2).
    destruct (H2 Hw2) as (Hw3 & Ho3 & Hk3 & Hn3).
    split_and!; [done|congruence|auto|]. intros i v Hl.
    destruct (Hn3 _ _ Hl) as [Hl2|(Hl2 & ? & ?)]; [by apply Hn2|]. right. split; [|done].
    destruct (verifications d1 !! i) eqn:E; [|done]. by rewrite (Hk2 _ _ E) in Hl2.
Qed.

(** Transactions that leave these tables alone. *)
Lemma foreign_same d d' :
  verifications d' = verifications d -> observations d' = observations d ->
  (uuid_supply d <= uuid_supply d')%N ->
  ((forall i r, incidents d !! i = Some r -> i_id r = i) ->
     forall i r, incidents d' !! i = Some r -> i_id r = i) ->
  foreign d d'.
Proof.
  intros Hv Ho Hn Hi [Hw1 Hw2]. rewrite Hv. split_and!; auto. split; [|auto].
  rewrite Hv. intros i Hs. specialize (Hw1 i Hs). lia.
Qed.

Lemma foreign_writes f :
  (forall d, verifications (f d) = verifications d) -> (forall d, observations (f d) = observations d) ->
  (forall d, uuid_supply (f d) = uuid_supply d) -> (forall d, incidents (f d) = incidents d) ->
  relates foreign (writes f).
Proof.
  intros Hv Ho Hn Hi. apply relates_writes. intros d.
  apply foreign_same; [done|done|by rewrite Hn|by rewrite Hi].
Qed.

Lemma foreign_uuid4 : relates foreign uuid4.
Proof. intros d a d' [-> ->]%uuid4_Ok. apply foreign_same; simpl; first [done|lia]. Qed.
Lemma foreign_incident r : relates foreign (put_incident r).
Proof.
  apply relates_writes. intros d. apply foreign_same; simpl; [done|done|lia|].
  intros Hk i w [[<- <-]|[_ Hl]]%lookup_insert_Some; auto.
Qed.

#[export] Hint Resolve foreign_uuid4 foreign_incident : relates.
#[export] Hint Extern 1 (relates foreign (writes _)) =>
  apply foreign_writes; intros; reflexivity : relates.

Section Foreign.
Context {PY : Pydantic} {HA : Hashing} {TO : ServiceTopology} {DI : Digests}.
Context (cfg : ServiceConfig).

Lemma foreign_outbox now et at_ ai ci p : relates foreign (insert_outbox_event now et at_ ai ci p).
Proof. unfold insert_outbox_event. relates_auto. Qed.
Lemma foreign_evidence now v n role l : relates foreign (insert_verification_evidence now v n role l).
Proof. induction l; simpl; relates_auto. Qed.
Lemma foreign_timeline now row e f t a j v : relates foreign (_timeline now row e f t a j v).
Proof. unfold _timeline. relates_auto. Qed.
Local Hint Resolve foreign_outbox foreign_evidence foreign_timeline : relates.

(** The one writer: the verification is new, at an identifier just drawn. *)
Lemma foreign_request now row entry : relates foreign (_request_verification cfg now row entry).
Proof.
  intros d r d' Hr Hw. unfold _request_verification, insert_verification, put_verification,
    put_remediation in Hr. tx_inv.
  match goal with H : match verification_for ?a ?b with _ => _ end _ = _ |- _ =>
    destruct (verification_for a b); [by tx_inv|] end.
  tx_inv.
  match goal with H : match ?o with Some _ => _ | None => _ end ?d2 = Ok (_, ?d3),
    H1 : _timeline _ _ _ _ _ _ _ _ ?d3 = Ok (_, ?d4),
    H2 : insert_outbox_event _ _ _ _ _ _ ?d4 = Ok (_, ?d5) |- _ =>
    assert (foreign d2 d5) as Hf by
      (transitivity d3; [destruct o; [by eapply foreign_evidence|tx_inv; reflexivity]|];
       transitivity d4; [by eapply foreign_timeline|by eapply foreign_outbox]);
    set (d1 := d2) in *; clear H H1 H2 end.
  assert (verifications d !! uuid_supply d = None) as Hnew.
  { destruct (verifications d !! uuid_supply d) eqn:E; [|done].
    pose proof (proj1 Hw (uuid_supply d) ltac:(rewrite E; eauto)). lia. }
  enough (foreign d d1) as Hg by exact (PreOrder_Transitive (R := foreign) _ _ _ Hg Hf Hw).
  intros _. subst d1; simpl. split_and!; [split|done| |].
  - simpl. intros i [<-|[_ Hs]]%lookup_insert_is_Some; [lia|]. pose proof (proj1 Hw i Hs). lia.
  - apply Hw.
  - intros i v Hl. rewrite lookup_insert_ne; [done|]. congruence.
  - intros i v [[<- <-]|[_ Hl]]%lookup_insert_Some; [right|by left]. by split_and!.
Qed.

#[export] Instance foreign_respected : Respected cfg foreign.
Proof.
  constructor; try typeclasses eauto; intros;
    [..|apply foreign_request]; unfold put_remediation, put_execution, _timeline; relates_auto.
Qed.

Lemma remediation_foreign d d' : remediation_command cfg d d' -> foreign d d'.
Proof. apply (commands_respect cfg foreign). Qed.
End Foreign.

(** ** The system *)

Lemma VInv_foreign d d' : VInv d -> well_keyed d -> foreign d d' -> VInv d'.
Proof.
  intros HI Hw Hf. destruct (Hf Hw) as ([_ Hk] & Ho & Hkeep & Hnew). constructor; [| |done].
  - intros i v Hl. rewrite (obs_of_ext d d') by done.
    destruct (Hnew _ _ Hl) as [Hold|(Hnone & Hid & Hs & H1 & H2 & H3 & H4 & H5)];
      [by apply (vinv_rows _ HI)|]. split; [done|].
    assert (obs_of d i = []) as ->.
    { unfold obs_of. apply filter_none. intros o Hin Heq.
      destruct (vinv_obs _ HI o) as [w Hw']; [done|]. by rewrite Heq, Hnone in Hw'. }
    unfold ver_ok, tallied, claims_ok. rewrite Hs, H1, H2, H3, H4, H5.
    split_and!; try done. constructor.
  - intros o. rewrite Ho. intros [v Hv]%(vinv_obs _ HI). exists v. auto.
Qed.

Section System.
Context {PY : Pydantic} {HA : Hashing} {TO : ServiceTopology} {DI : Digests}.
Context (cfg : ServiceConfig) (max_attempts : Z).

(** One transaction of the verification service.  The ticket a worker presents is
    one the service issued: its spec is the one stored with the verification. *)
Inductive verification_command (d : db) : db -> Prop :=
| vc_start now i : verification_command d (atomically (start now i) d).2
| vc_claim now i owner lease :
    verification_command d (atomically (claim_due max_attempts now i owner lease) d).2
| vc_record now ticket sample ids at_ :
    (forall v, verifications d !! vt_verification_id ticket = Some v -> vt_spec ticket = v_spec v) ->
    verification_command d
      (atomically (record_observation max_attempts now ticket sample ids at_) d).2.

(** Both services, and any writer that touches neither's tables. *)
Inductive system_step (d : db) : db -> Prop :=
| st_remediation d' : remediation_command cfg d d' -> system_step d d'
| st_verification d' : verification_command d d' -> system_step d d'
| st_other d' : idle d d' -> foreign d d' -> system_step d d'.

Definition deployed (d : db) : Prop := rtc system_step empty_db d.

Lemma command_stepped d d' :
  VInv d -> verification_command d d' ->
  VInv d' /\ beside d d' /\ exists now, stepped max_attempts now d d'.
Proof.
  intros HI Hc. destruct Hc as [now i|now i owner lease|now ticket sample ids at_ Hg];
    unfold atomically;
    match goal with |- context [?m d] => destruct (m d) as [[a d1]|e] eqn:E end; simpl;
    try (split_and!; [done|reflexivity|exists now; apply stepped_refl]).
  - split_and!; [by eapply start_keeps|by eapply beside_start|]. exists now. by eapply start_stepped.
  - split_and!; [by eapply claim_keeps|by eapply beside_claim|]. exists now. by eapply claim_stepped.
  - split_and!; [by eapply record_keeps|by eapply beside_record|]. exists now. by eapply record_stepped.
Qed.

Lemma stepped_vers now d d' :
  stepped max_attempts now d d' ->
  v_remediation_id <$> verifications d' = v_remediation_id <$> verifications d
  /\ (forall i, is_Some (verifications d' !! i) <-> is_Some (verifications d !! i)).
Proof.
  intros [_ [(-> & _)|(v & v' & os & Hl & _ & Hc & _ & -> & _)]]; [done|].
  apply ver_cols_eqs in Hc as (_ & _ & _ & Hr). split.
  - rewrite fmap_insert, Hr. apply insert_id. by rewrite lookup_fmap, Hl.
  - intros i. rewrite lookup_insert_is_Some. destruct (decide (v_id v = i)) as [<-|]; [|naive_solver].
    rewrite Hl. split; [eauto|by left].
Qed.

(** Refinement: to the remediation lifecycle a verification command is a stutter. *)
Lemma verification_idle d d' : VInv d -> verification_command d d' -> idle d d'.
Proof.
  intros HI Hc. destruct (command_stepped _ _ HI Hc) as (_ & Hb & now & Hs).
  apply beside_idle; [done|]. by apply (stepped_vers now).
Qed.

Record SInv (d : db) : Prop := {
  sinv_core : Inv (cfg_policy cfg) (core_of d);
  sinv_ver : VInv d;
  sinv_keys : well_keyed d;
}.

Lemma system_is_remediation d d' : VInv d -> system_step d d' -> remediation_step cfg d d'.
Proof.
  intros HI [d1 Hc|d1 Hc|d1 Hi _]; [by apply rt_command| |by apply rt_other].
  apply rt_other. by apply verification_idle.
Qed.

Lemma SInv_step d d' : SInv d -> system_step d d' -> SInv d'.
Proof.
  intros [HI HV Hw] Hs. split.
  - eapply rstep_Inv; [done|]. apply step_refines; [done|]. by apply system_is_remediation.
  - destruct Hs as [d1 Hc|d1 Hc|d1 _ Hf].
    + eapply VInv_foreign; [done..|]. by eapply remediation_foreign.
    + by apply (command_stepped d).
    + by eapply VInv_foreign.
  - destruct Hs as [d1 Hc|d1 Hc|d1 _ Hf].
    + by apply (remediation_foreign cfg _ _ Hc).
    + destruct (command_stepped _ _ HV Hc) as (HV' & [_ Hn] & now & Hs). simpl in Hn.
      split; [|apply (vinv_incidents _ HV')]. intros i Hi.
      apply (stepped_vers now d d1 Hs) in Hi. apply Hw in Hi. lia.
    + by apply Hf.
Qed.

Lemma SInv_empty : SInv empty_db.
Proof.
  split; [apply Inv_empty|split|split]; simpl; intros *; rewrite ?lookup_empty; try done.
  by intros ?%elem_of_nil.
Qed.

Lemma SInv_run d d' : SInv d -> rtc system_step d d' -> SInv d'.
Proof. intros HI Hr. induction Hr; [done|]. eauto using SInv_step. Qed.

Lemma deployed_SInv d : deployed d -> SInv d.
Proof. apply SInv_run, SInv_empty. Qed.

Lemma deployed_reachable d : deployed d -> reachable cfg d.
Proof.
  unfold deployed, reachable. generalize SInv_empty. generalize empty_db. intros d0 HI Hr.
  induction Hr as [|d1 d2 d3 Hs _ IH]; [done|].
  eapply rtc_l; [by eapply system_is_remediation, Hs; apply sinv_ver|]. eauto using SInv_step.
Qed.

(** How one verification evolves in a step of the system. *)
Lemma row_evolves d d' i v :
  SInv d -> system_step d d' -> verifications d !! i = Some v ->
  exists v', verifications d' !! i = Some v' /\ progressed v v' /\ ver_cols v' = ver_cols v
    /\ (terminal (v_status v) -> v' = v /\ obs_of d' i = obs_of d i).
Proof.
  intros [HI HV Hw] Hs Hi.
  assert (foreign d d' -> exists v', verifications d' !! i = Some v' /\ progressed v v'
    /\ ver_cols v' = ver_cols v /\ (terminal (v_status v) -> v' = v /\ obs_of d' i = obs_of d i)) as Hforeign.
  { intros Hf. destruct (Hf Hw) as (_ & Ho & Hk & _). exists v.
    split_and!; [by apply Hk|reflexivity|done|]. intros _. split; [done|by apply obs_of_ext]. }
  destruct Hs as [d1 Hc|d1 Hc|d1 _ Hf]; [by eapply Hforeign, remediation_foreign| |auto].
  destruct (command_stepped _ _ HV Hc) as (_ & _ & now & _ & [(Hv & Ho & _)|(w & w' & os & Hone)]).
  { exists v. rewrite Hv. split_and!; [done|reflexivity|done|]. intros _. split; [done|by apply obs_of_ext]. }
  destruct Hone as (Hl & Hnt & Hcols & Hp & Hv & Ho & Hos & _).
  destruct (decide (v_id w = i)) as [<-|Hne].
  - assert (v = w) as -> by congruence. exists w'. rewrite Hv, lookup_insert_eq. do 3 (split; [done|]). intros Ht; by destruct Hnt.
  - exists v. rewrite Hv, lookup_insert_ne by done. split_and!; [done|reflexivity|done|].
    intros _. split; [done|]. unfold obs_of. rewrite Ho, filter_app.
    replace (filter _ os) with (@nil VerificationObservationRow); [by rewrite app_nil_r|].
    symmetry. apply filter_none. intros o Hin Heq. rewrite Forall_forall in Hos.
    specialize (Hos o Hin). congruence.
Qed.

Lemma streak_nonneg l : 0 <= streak l.
Proof.
  induction l as [|o l IH] using rev_ind; [done|]. rewrite streak_snoc. case_match; lia.
Qed.

(** What the verdict PASSED rests on: the last observations, as many as the spec
    asks for, all conclusive and passing. *)
Definition proven (l : list VerificationObservationRow) (v : VerificationRow) : Prop :=
  exists l1 l2, l = l1 ++ l2 /\ Z.of_nat (length l2) = Z.max 0 (required_consecutive (v_spec v))
    /\ Forall (fun o => ob_passed o = true /\ ob_conclusive o = true) l2.

Lemma passed_proven l v : ver_ok l v -> v_status v = V_PASSED -> proven l v.
Proof.
  intros ((_ & _ & _ & Hst) & (_ & _ & Hf & _) & _ & _ & Hp) Hs. specialize (Hp Hs).
  pose proof (streak_nonneg l) as Hnn.
  destruct (streak_passed l (Z.max 0 (required_consecutive (v_spec v)))) as (l1 & l2 & -> & Hlen & Hpass);
    [lia|]. exists l1, l2. split_and!; [done|done|].
  apply Forall_app in Hf as [_ Hf]. rewrite Forall_forall in *. naive_solver.
Qed.

(** The remediation a verdict speaks for, and nothing newer on the incident. *)
Definition current_remediation (d : db) (v : VerificationRow) (r : RemediationRow) : Prop :=
  remediations d !! v_remediation_id v = Some r /\ rm_status r = R_EXECUTED
  /\ rm_verification_ref r = Some (v_id v)
  /\ (forall k r', remediations d !! k = Some r' -> rm_incident_id r' = v_incident_id v ->
        rm_created_at r' <= rm_created_at r).

Lemma count_zero {A} (f : A -> bool) l : (0 <? count f l) = false -> forall x, x ∈ l -> f x = false.
Proof.
  unfold count. intros Hc x Hx. destruct (f x) eqn:E; [|done].
  assert (In x (List.filter f l)) as Hin by (apply filter_In; split; [by apply list_elem_of_In|done]).
  destruct (List.filter f l); [done|]. apply Z.ltb_ge in Hc. cbn [length] in Hc. lia.
Qed.

Lemma not_stale d v inc rem :
  i_id inc = v_incident_id v -> remediations d !! v_remediation_id v = Some rem ->
  _staleness d v inc rem = None ->
  i_status inc = VERIFYING /\ current_remediation d v rem.
Proof.
  unfold _staleness. intros Hid Hr Hs. repeat (case_bool_decide; simpl in Hs; [|done]).
  destruct (0 <? _) eqn:Hc; [done|]. split; [done|]. split_and!; try done.
  intros k r' Hk Hi. pose proof (count_zero _ _ Hc r' (proj2 (elem_of_rows _ _) (ex_intro _ _ Hk))) as Hf. simpl in Hf.
  rewrite bool_decide_eq_true_2 in Hf by congruence. simpl in Hf. lia.
Qed.

(** C2: a resolution is earned.  Whenever a verification command moves an incident
    to RESOLVED, the incident was VERIFYING, a verification of it ended PASSED on as
    many consecutive conclusive passing observations as its spec requires, that
    verification is the current one of an executed remediation with none newer on the
    incident, and that remediation was approved by someone entitled to. *)
Theorem resolution_is_earned d d' n inc inc' :
  deployed d -> verification_command d d' ->
  incidents d !! n = Some inc -> incidents d' !! n = Some inc' ->
  i_status inc <> RESOLVED -> i_status inc' = RESOLVED ->
  exists v r dec a,
    verifications d' !! v_id v = Some v /\ v_status v = V_PASSED /\ v_incident_id v = n
    /\ i_status inc = VERIFYING /\ current_remediation d' v r
    /\ proven (obs_of d' (v_id v)) v
    /\ decision_of d' r = Some dec /\ approval_of d' (rm_id r) = Some a /\ entitled r dec a.
Proof.
  intros Hd Hc Hi Hi' Hn Hres.
  assert (deployed d') as Hd' by (eapply rtc_r; [exact Hd|by apply st_verification]).
  pose proof (deployed_SInv _ Hd) as [_ HV _].
  destruct (command_stepped _ _ HV Hc) as (HV' & _ & now & Hr & Hcase).
  destruct Hcase as [(_ & _ & Heq)|(w & v & os & Hl & _ & Hcols & _ & Hv & _ & _ & [Heq|Hap])];
    [congruence..|].
  destruct Hap as (inc0 & rem & inc1 & next & Hinc & Hid & Hrem & Hst & _ & Happ & _ & Heq).
  rewrite Heq in Hi'. destruct (decide (i_id inc0 = n)) as [Hk|Hk];
    [|rewrite lookup_insert_ne in Hi' by done; congruence].
  rewrite Hk, lookup_insert_eq in Hi'. assert (inc0 = inc) as -> by congruence.
  assert (inc1 = inc') as -> by congruence.
  destruct (not_stale _ _ _ _ Hid Hrem Hst) as [Hver Hcur].
  assert (v_status v = V_PASSED) as Hp.
  { revert Happ. unfold applied. destruct (v_status v); try done;
      try (case_match; intros [-> _]; done); intros [-> _]; done. }
  assert (verifications d' !! v_id v = Some v) as Hlv.
  { rewrite Hv. apply ver_cols_eqs in Hcols as (-> & _). apply lookup_insert_eq. }
  unfold current_remediation in Hcur. rewrite <-Hr in Hcur. fold (current_remediation d' v rem) in Hcur.
  pose proof Hcur as (Hrl & Hrs & _).
  destruct (row_of_reachable cfg d' _ rem (deployed_reachable _ Hd') Hrl) as [_ Hrid].
  destruct (licensed_facts cfg d' _ rem (deployed_reachable _ Hd') Hrl) as (dec & a & Hdec & Ha & Hent & _);
    [rewrite Hrs; by repeat constructor|].
  exists v, rem, dec, a. split_and!; try done; [congruence| |congruence].
  apply passed_proven; [|done]. by apply (vinv_rows _ HV').
Qed.

(** The bookkeeping of a verification is what its observations say, in every
    database the system can reach: they are numbered 1, 2, 3, ..., the conclusive ones
    and the streak of passing ones are counted right, every claim recorded at most one,
    and a PASSED verification ends with the passing streak its spec requires. *)
Theorem bookkeeping_matches_observations d i v :
  deployed d -> verifications d !! i = Some v ->
  tallied (obs_of d i) v /\ claims_ok (obs_of d i) v
  /\ (v_status v = V_PASSED -> proven (obs_of d i) v).
Proof.
  intros Hd%deployed_SInv Hi. destruct (vinv_rows _ (sinv_ver _ Hd) _ _ Hi) as [_ Hok].
  pose proof Hok as (Ht & Hc & _). split_and!; [done|done|]. by apply passed_proven.
Qed.

(** A verdict is final.  Once a verification has PASSED, FAILED or TIMED_OUT,
    no sequence of transactions changes its row or its observations. *)
Theorem verdict_is_final d d' i v :
  deployed d -> rtc system_step d d' ->
  verifications d !! i = Some v -> terminal (v_status v) ->
  verifications d' !! i = Some v /\ obs_of d' i = obs_of d i.
Proof.
  intros Hd%deployed_SInv Hr Hi Ht. induction Hr as [d|d d1 d2 Hs _ IH]; [done|].
  destruct (row_evolves _ _ _ _ Hd Hs Hi) as (v' & Hi' & _ & _ & Hfin).
  destruct (Hfin Ht) as [-> Ho]. rewrite <-Ho. apply IH; [by eapply SInv_step|done].
Qed.

(** ** Tickets *)

(** The claim of [t] has been used or superseded. *)
Definition spent (t : VerificationTicket) (d : db) : Prop :=
  exists v, verifications d !! vt_verification_id t = Some v
    /\ (vt_claim_attempt t < v_claim_attempt v
        \/ v_claim_attempt v = vt_claim_attempt t /\ v_lease_owner v = None).

Lemma spent_kept t d d' : SInv d -> spent t d -> rtc system_step d d' -> spent t d'.
Proof.
  intros HI Hsp Hr. revert HI Hsp. induction Hr as [|d d1 d2 Hs _ IH]; [done|].
  intros HI (v & Hi & Hc). apply IH; [by eapply SInv_step|].
  destruct (row_evolves _ _ _ _ HI Hs Hi) as (v' & Hi' & Hp & _). exists v'. split; [done|].
  destruct Hp as [Hp|[Hp Hl]]; destruct Hc as [Hc|[Hc Hl0]]; [left; lia..|].
  right. split; [lia|]. destruct Hl as [->|]; done.
Qed.

Lemma spent_refused t d now sample ids at_ :
  spent t d -> exists msg,
    atomically (record_observation max_attempts now t sample ids at_) d = (Err (LeaseLostError msg), d).
Proof.
  intros (v & Hi & Hc). unfold atomically, record_observation, _lock.
  assert (holds v t = false) as Hh.
  { destruct (holds v t) eqn:E; [|done]. apply holds_eqs in E as (_ & Hl & Ha).
    destruct Hc as [?|[_ ?]]; [lia|congruence]. }
  assert ((row ← reads (fun d => verifications d !! vt_verification_id t);
           must row (not_found (vt_verification_id t))) d = Ok (v, d)) as Hrow
    by (unfold mbind, Tx_bind, reads; by rewrite Hi).
  unfold mbind at 1, Tx_bind at 1. rewrite Hrow, Hh. by eexists.
Qed.

Lemma finalize_ends now row dec d row2 d2 :
  VInv d -> verifications d !! v_id row = Some row ->
  _finalize max_attempts now row dec d = Ok (row2, d2) ->
  verifications d2 !! v_id row = Some row2 /\ v_lease_owner row2 = None
  /\ v_claim_attempt row2 = v_claim_attempt row /\ v_status row2 = Verdict.status dec
  /\ observations d2 = observations d /\ v_id row2 = v_id row.
Proof.
  intros HI Hl Hr.
  destruct (finalize_run _ _ _ _ _ _ _ Hr (vinv_incidents _ HI)) as ((Hc & Hn & _ & Hs & Hlo) & Hv & Ho & _).
  apply ver_counts_eqs in Hn as (_ & _ & _ & Hca). apply ver_cols_eqs in Hc as (Hid & _).
  rewrite Hv, lookup_insert_eq. by split_and!.
Qed.

(** What recording leaves of the row, verdict or not. *)
Lemma record_ends now t sample ids at_ d v' d' :
  VInv d -> record_observation max_attempts now t sample ids at_ d = Ok (v', d') ->
  exists v r o,
    verifications d !! vt_verification_id t = Some v /\ holds v t = true
    /\ evaluate_sample (vt_spec t) (sample <| new_firing_alerts := Some (_new_firing_alerts d v) |>) = Ok r
    /\ observations d' = observations d ++ [o]
    /\ ob_verification_id o = v_id v /\ ob_sequence o = v_observation_count v + 1
    /\ ob_passed o = passed r /\ ob_conclusive o = conclusive r
    /\ verifications d' !! vt_verification_id t = Some v' /\ v_lease_owner v' = None
    /\ v_claim_attempt v' = v_claim_attempt v
    /\ v_status v' = Verdict.status
         (Verdict.decide (vt_spec t) (Some r)
            (if passed r then v_consecutive_successes v + 1 else 0)
            (v_conclusive_count v + (if conclusive r then 1 else 0))
            now (default now (v_deadline_at v))).
Proof.
  intros HI Hr. destruct (record_run _ _ _ _ _ _ _ _ _ HI Hr) as (v & row1 & r & d1 & Hrec & Hev & Hd).
  destruct Hrec as (HI1 & Hl & Hh & Hid & Hsucc & Hlo & Hst1 & Hdl & _ & _ & _ & _ & Hv & _ & _ & _ & _
                    & Hca & o & Ho & Hop & Hov & Hos & Hoc & Hcc).
  destruct (vinv_rows _ HI _ _ Hl) as [Hidv _].
  assert (verifications d1 !! v_id row1 = Some row1) as Hl1
    by (rewrite Hv, Hid; apply lookup_insert_eq).
  exists v, r, o. cbv zeta in Hd. rewrite Hsucc, Hcc, Hdl in Hd. case_bool_decide as Hdec.
  - destruct Hd as [-> ->]. rewrite <-Hidv, <-Hid. split_and!; congruence.
  - destruct (finalize_ends _ _ _ _ _ _ HI1 Hl1 Hd) as (Hl2 & Hlo2 & Hca2 & Hs2 & Ho2 & _).
    rewrite <-Hidv, <-Hid. split_and!; congruence.
Qed.

(** One poll, one verdict.  A recorded observation is the evaluation of the
    sample with the alerts that fire now and did not when the verification began; it is
    appended under the next number, the lease is given back, and the verification's
    status becomes the verdict on the streak, the conclusive count and the deadline. *)
Theorem poll_settles now t sample ids at_ d v' d' :
  deployed d -> record_observation max_attempts now t sample ids at_ d = Ok (v', d') ->
  exists v r o,
    verifications d !! vt_verification_id t = Some v /\ holds v t = true
    /\ evaluate_sample (vt_spec t) (sample <| new_firing_alerts := Some (_new_firing_alerts d v) |>) = Ok r
    /\ observations d' = observations d ++ [o]
    /\ ob_verification_id o = v_id v /\ ob_sequence o = v_observation_count v + 1
    /\ ob_passed o = passed r /\ ob_conclusive o = conclusive r
    /\ verifications d' !! vt_verification_id t = Some v' /\ v_lease_owner v' = None
    /\ v_status v' = Verdict.status
         (Verdict.decide (vt_spec t) (Some r)
            (if passed r then v_consecutive_successes v + 1 else 0)
            (v_conclusive_count v + (if conclusive r then 1 else 0))
            now (default now (v_deadline_at v))).
Proof.
  intros Hd%deployed_SInv Hr.
  destruct (record_ends _ _ _ _ _ _ _ _ (sinv_ver _ Hd) Hr) as (v & r & o & Hall).
  exists v, r, o. naive_solver.
Qed.

(** A ticket is good for one observation.  After a ticket was used, in every
    later state of the system, the same ticket is refused with LeaseLostError and
    nothing is written. *)
Theorem ticket_is_single_use now t sample ids at_ d r d1 d2 now2 sample2 ids2 at2 :
  deployed d ->
  (forall v, verifications d !! vt_verification_id t = Some v -> vt_spec t = v_spec v) ->
  record_observation max_attempts now t sample ids at_ d = Ok (r, d1) ->
  rtc system_step d1 d2 ->
  exists msg, atomically (record_observation max_attempts now2 t sample2 ids2 at2) d2
              = (Err (LeaseLostError msg), d2).
Proof.
  intros Hd Hg Hr Hsteps. apply spent_refused. apply deployed_SInv in Hd as HI.
  destruct (record_ends _ _ _ _ _ _ _ _ (sinv_ver _ HI) Hr)
    as (v & rr & o & Hi & Hh & _ & _ & _ & _ & _ & _ & Hi1 & Hlo & Hca & _).
  apply holds_eqs in Hh as (_ & _ & Ha).
  eapply (spent_kept t d1 d2); [| |exact Hsteps].
  - eapply SInv_step; [exact HI|]. apply st_verification.
    pose proof (vc_record d now t sample ids at_ Hg) as Hc. unfold atomically in Hc. by rewrite Hr in Hc.
  - exists r. split; [done|]. right. split; [congruence|done].
Qed.

(** ** The deadline *)

Lemma move_total now inc to r d :
  incidents d !! i_id inc = Some inc -> exists inc' d', _move now inc to r d = Ok (inc', d').
Proof.
  intros Hi. unfold _move, transition_with_event, transition_incident_status, mbind, Tx_bind, reads.
  rewrite Hi. cbn -[Z.eqb]. rewrite Z.eqb_refl. do 2 eexists. reflexivity.
Qed.

Lemma closure_total now inc e r row d : exists d', _closure now inc e r row d = Ok ((), d').
Proof. eexists. reflexivity. Qed.

Lemma apply_failure_total now row inc d :
  incidents d !! i_id inc = Some inc ->
  exists next d', _apply_failure max_attempts now row inc d = Ok (next, d').
Proof.
  intros Hi. destruct (move_total now inc VERIFICATION_FAILED "verification_failed" d Hi)
    as (inc1 & d1 & H1).
  destruct (move_run _ _ _ _ _ _ _ H1 Hi) as (-> & Hi1 & _).
  unfold _apply_failure, mbind at 1, Tx_bind at 1. rewrite H1. unfold mbind at 1, Tx_bind at 1.
  cbn [count_firing_alerts reads]. case_match; [by do 2 eexists|].
  match goal with |- context [_move now ?i1 ESCALATED ?r] =>
    destruct (move_total now i1 ESCALATED r d1) as (inc2 & d2 & H2);
      [rewrite Hi1; apply lookup_insert_eq|] end.
  cbv zeta. unfold mbind at 1, Tx_bind at 1. rewrite H2. by do 2 eexists.
Qed.

Lemma apply_total now row inc status d :
  incidents d !! i_id inc = Some inc ->
  exists next d', _apply max_attempts now row inc status d = Ok (next, d').
Proof.
  intros Hi. destruct status; try by apply apply_failure_total.
  - destruct (move_total now inc RESOLVED "verification_passed" d Hi) as (inc1 & d1 & H1).
    unfold _apply, mbind at 1, Tx_bind at 1. rewrite H1. by do 2 eexists.
  - destruct (move_total now inc ESCALATED "verification_timed_out" d Hi) as (inc1 & d1 & H1).
    unfold _apply, mbind at 1, Tx_bind at 1. rewrite H1. by do 2 eexists.
Qed.

Lemma finalize_total now row dec d inc rem :
  incidents d !! v_incident_id row = Some inc -> i_id inc = v_incident_id row ->
  remediations d !! v_remediation_id row = Some rem ->
  exists row2 d', _finalize max_attempts now row dec d = Ok (row2, d').
Proof.
  intros Hi Hid Hr. unfold _finalize, mbind at 1, Tx_bind at 1, reads. cbn [id v_incident_id].
  change (v_incident_id (finished now row dec)) with (v_incident_id row).
  unfold mbind at 1, Tx_bind at 1. rewrite Hi. cbn [must mret Tx_ret].
  unfold mbind at 1, Tx_bind at 1. rewrite Hr. cbn [must mret Tx_ret].
  unfold mbind at 1, Tx_bind at 1.
  match goal with |- context [match _staleness d ?r inc rem with _ => _ end] =>
    destruct (_staleness d r inc rem) end; [by do 2 eexists|].
  rewrite <-Hid in Hi.
  destruct (apply_total now (finished now row dec) inc (Verdict.status dec) d Hi) as (next & d1 & H1).
  unfold mbind at 1, Tx_bind at 1. rewrite H1. by do 2 eexists.
Qed.

Lemma lease_held_by now v :
  lease_held now v = true ->
  exists h t, v_lease_owner v = Some h /\ v_lease_expires_at v = Some t /\ now < t.
Proof.
  unfold lease_held. destruct (v_lease_owner v), (v_lease_expires_at v); try done.
  intros H. eexists _, _. split_and!; [done..|lia].
Qed.

Lemma lease_over now v h t :
  lease_held now v = false -> v_lease_owner v = Some h -> v_lease_expires_at v = Some t -> t <= now.
Proof. unfold lease_held. intros H Hh Ht. rewrite Hh, Ht in H. lia. Qed.

Lemma claim_held now i owner lease d v :
  verifications d !! i = Some v -> v_status v = V_RUNNING -> lease_held now v = true ->
  claim_due max_attempts now i owner lease d = Ok (None, d).
Proof.
  intros Hi Hs Hh. unfold claim_due, _lock, mbind, Tx_bind, reads, must, mret, Tx_ret.
  rewrite Hi, Hs, bool_decide_eq_false_2, Hs by done. by rewrite Hh.
Qed.

(** C37: the deadline brings a verdict.  Claiming a running verification whose deadline
    has passed, with its incident and its remediation stored, hands out no ticket.
    While another worker's lease lasts it changes nothing; once that lease has expired,
    or when there is none, it ends the verification with the verdict on its last
    observation, and the incident moves by that verdict, or, when the verdict is stale,
    not at all. *)
Theorem deadline_brings_verdict now i owner lease d v deadline inc rem :
  deployed d -> verifications d !! i = Some v -> v_status v = V_RUNNING ->
  v_deadline_at v = Some deadline -> deadline <= now ->
  incidents d !! v_incident_id v = Some inc -> remediations d !! v_remediation_id v = Some rem ->
  (exists holder expires, v_lease_owner v = Some holder /\ v_lease_expires_at v = Some expires
     /\ now < expires /\ claim_due max_attempts now i owner lease d = Ok (None, d))
  \/ (forall holder expires, v_lease_owner v = Some holder -> v_lease_expires_at v = Some expires ->
        expires <= now)
     /\ exists d' v' status,
       claim_due max_attempts now i owner lease d = Ok (None, d')
       /\ status = Verdict.status (Verdict.decide (v_spec v) (_latest_result d v)
                     (v_consecutive_successes v) (v_conclusive_count v) now deadline)
       /\ verifications d' !! i = Some v' /\ concluded v v' status /\ terminal status
       /\ match _staleness d v inc rem with
          | Some _ => incidents d' = incidents d /\ v_next_action v' = Some "none"
          | None => exists inc' next,
              applied max_attempts now (count_firing d (i_id inc)) inc inc' status next
              /\ incidents d' !! v_incident_id v = Some inc' /\ v_next_action v' = Some next
          end.
Proof.
  intros Hd%deployed_SInv Hi Hs Hdl Hle Hinc Hrem. destruct Hd as [_ HV _].
  destruct (lease_held now v) eqn:Hheld.
  { left. destruct (lease_held_by _ _ Hheld) as (h & t & ? & ? & ?). exists h, t.
    split_and!; [done..|]. by apply (claim_held _ _ _ _ _ v). }
  right. split; [intros h t; by apply (lease_over now v h t Hheld)|].
  destruct (vinv_rows _ HV _ _ Hi) as [Hid _].
  pose proof (vinv_incidents _ HV _ _ Hinc) as Hkey.
  set (dec := Verdict.decide (v_spec v) (_latest_result d v) (v_consecutive_successes v)
                (v_conclusive_count v) now deadline).
  destruct (finalize_total now v dec d inc rem Hinc Hkey Hrem) as (v' & d' & Hrun).
  destruct (finalize_run _ _ _ _ _ _ _ Hrun (vinv_incidents _ HV))
    as (Hc & Hv & _ & _ & _ & _ & inc0 & rem0 & Hinc0 & Hrem0 & Hap).
  assert (inc0 = inc) as -> by congruence. assert (rem0 = rem) as -> by congruence.
  exists d', v', (Verdict.status dec). split_and!; [|done| |done| |].
  - assert (deadline_passed now v = true) as Hpast by (unfold deadline_passed; rewrite Hdl; lia).
    assert (_lock i d = Ok (v, d)) as Hlock by (unfold _lock, mbind, Tx_bind, reads; by rewrite Hi).
    unfold claim_due, mbind at 1, Tx_bind at 1. rewrite Hlock, Hs.
    unfold mbind at 1, Tx_bind at 1. cbn [mret Tx_ret bool_decide decide].
    rewrite bool_decide_eq_false_2 by done. unfold mret, Tx_ret.
    rewrite Hs, bool_decide_eq_true_2 by done. cbn [negb]. rewrite Hheld, Hpast.
    unfold mbind, Tx_bind, reads. rewrite Hdl. cbn [default id]. fold dec. by rewrite Hrun.
  - rewrite Hv, <-Hid. apply lookup_insert_eq.
  - apply terminal_spec. split; [apply decide_not_pending|by apply decide_past_deadline].
  - destruct (_staleness d v inc rem); [done|].
    destruct Hap as (inc' & next & Happ & -> & Hn). exists inc', next.
    rewrite <-Hkey, lookup_insert_eq. done.
Qed.
End System.
