(* ===== verification/VerificationEngineSafety.v ===== *)
(** * What the verification engine does

    An observation of which a source failed never passes ([unseen_source_never_passes]);
    whatever the engine does to the database is a sequence of the transactions of the
    verification service and of evidence registrations ([engine_is_a_client]); and
    collecting a baseline does not drive remediations ([collect_baseline_idle]), which is
    what the runner relies on. *)
From S2P Require Import Prelude PyFloat Json Enums VerificationDomain Catalog.
From S2P Require Import RemediationDomain Policy Store TxLogic RemediationLifecycle.
From S2P Require Import RemediationService RemediationProofs RemediationSafety VerificationService.
From S2P Require Import VerificationProofs VerificationSafety Prog VerificationEngine EvidenceService.
Local Open Scope Z_scope.

(** What registers evidence touches no table of the two services. *)
Lemma evidence_idle d d' : registers d d' -> idle d d'.
Proof. intros [[H Hn] _]%registers_adds. split; [|done]. rewrite H at 1. reflexivity. Qed.

Lemma evidence_foreign d d' : registers d d' -> foreign d d'.
Proof.
  intros [[H Hn] _]%registers_adds. apply foreign_same; [by rewrite H|by rewrite H|done|].
  assert (incidents d' = incidents d) as -> by (by rewrite H). done.
Qed.

Section Observer.
Context {ES : EvidenceSource}.

(** ** Observing *)

Lemma read_frame name op now i s by_ found :
  respects registers (read name op now i s by_ found).
Proof.
  unfold read. apply respects_bind; [typeclasses eauto|apply respects_attempt, fetch_registers|].
  intros [[e data]|e]; [apply respects_ret; typeclasses eauto|].
  destruct e; first [apply respects_ret|apply respects_throw]; typeclasses eauto.
Qed.

Lemma source_frame needs name op value now i s by_ found :
  respects registers (source_value needs name op value now i s by_ found).
Proof.
  unfold source_value. destruct (negb _); [apply respects_ret; typeclasses eauto|].
  apply respects_bind; [typeclasses eauto|apply read_frame|]. intros [f [data|]];
    [|apply respects_ret; typeclasses eauto].
  apply respects_bind; [typeclasses eauto|apply respects_pure; typeclasses eauto|].
  intros. apply respects_ret. typeclasses eauto.
Qed.

Lemma observe_frame now i s needs by_ : respects registers (observe now i s needs by_).
Proof.
  unfold observe.
  repeat (apply respects_bind; [typeclasses eauto|apply source_frame|intros [? ?]]).
  apply respects_ret. typeclasses eauto.
Qed.

(** A block reads a value, notes an error, or was not asked to read. *)
Lemma source_run needs name op value now i s by_ found d found' v d' :
  source_value needs name op value now i s by_ found d = (Ok (found', v), d') ->
  (v = None -> name ∈ needs -> length (f_errors found) < length (f_errors found'))%nat
  /\ (length (f_errors found) <= length (f_errors found'))%nat.
Proof.
  unfold source_value. case_bool_decide as Hin; simpl.
  - intros H. apply prog_bind_run in H as ([f data] & d1 & Hr & H).
    unfold read in Hr. apply prog_bind_run in Hr as (r & d2 & _ & Hr).
    assert ((exists x, data = Some x) /\ length (f_errors f) = length (f_errors found)
            \/ data = None /\ (length (f_errors found) < length (f_errors f))%nat) as Hf.
    { destruct r as [[e x]|[]]; try done; unfold mret, Prog_ret in Hr; simplify_eq; simpl;
        [left; eauto|right]. split; [done|]. rewrite length_app. simpl. lia. }
    destruct Hf as [[[x ->] Heq]|[-> Hlt]].
    + apply prog_bind_run in H as (y & d2' & _ & H). unfold mret, Prog_ret in H. simplify_eq.
      split; [done|lia].
    + unfold mret, Prog_ret in H. simplify_eq. split; [done|lia].
  - unfold mret, Prog_ret. intros ?. simplify_eq. split; [done|lia].
Qed.

(** The value a sample holds of a source. *)
Definition source_of (name : string) (s : Sample) : option json :=
  if bool_decide (name = "health") then health s
  else if bool_decide (name = "deployment") then deployment s
  else if bool_decide (name = "config") then config s
  else if bool_decide (name = "runtime") then runtime s
  else None.

Lemma observe_errors now i s needs by_ d sample ids d' name :
  observe now i s needs by_ d = (Ok (sample, ids), d') ->
  name ∈ ["health"; "deployment"; "config"; "runtime"] -> name ∈ needs ->
  source_of name sample = None -> errors sample <> [].
Proof.
  unfold observe. intros H Hname Hneed Hnone.
  apply prog_bind_run in H as ([f1 h] & d1 & H1 & H). apply source_run in H1 as [Hh1 Hh2].
  apply prog_bind_run in H as ([f2 dp] & d2 & H2 & H). apply source_run in H2 as [Hd1 Hd2].
  apply prog_bind_run in H as ([f3 c] & d3 & H3 & H). apply source_run in H3 as [Hc1 Hc2].
  apply prog_bind_run in H as ([f4 r] & d4 & H4 & H). apply source_run in H4 as [Hr1 Hr2].
  unfold mret, Prog_ret in H. simplify_eq. simpl in *.
  assert (0 < length (f_errors f4))%nat as Hlen; [|by destruct (f_errors f4); [simpl in Hlen; lia|]].
  repeat (apply elem_of_cons in Hname as [->|Hname]); [..|by apply not_elem_of_nil in Hname].
  - specialize (Hh1 Hnone Hneed). lia.
  - specialize (Hd1 Hnone Hneed). lia.
  - specialize (Hc1 Hnone Hneed). lia.
  - specialize (Hr1 Hnone Hneed). lia.
Qed.

Lemma needs_names spec name : name ∈ needs spec -> name ∈ ["health"; "deployment"; "config"; "runtime"].
Proof.
  unfold needs. assert (forall l (W : gset string),
    (forall n, n ∈ W -> n ∈ ["health"; "deployment"; "config"; "runtime"]) ->
    name ∈ foldl (fun wanted c => match need_of (c_kind c) with
                                  | Some n => {[n]} ∪ wanted | None => wanted end) W l ->
    name ∈ ["health"; "deployment"; "config"; "runtime"]) as Hfold.
  { induction l as [|c l IH]; intros W HW; simpl; [apply HW|].
    apply IH. destruct (c_kind c); simpl; intros n; try apply HW;
      rewrite elem_of_union, elem_of_singleton; intros [->|?]; (by apply HW) || set_solver. }
  apply Hfold. intros n ->%elem_of_singleton. set_solver.
Qed.

(** C33: an unseen source never passes.  Whatever evidence-service does, an observation in
    which a source the spec needs gave no value is, under every evaluation, inconclusive
    and not passed: it can neither complete a streak nor count towards the verdict. *)
Theorem unseen_source_never_passes spec now i s by_ d sample ids d' name alerts res :
  observe now i s (needs spec) by_ d = (Ok (sample, ids), d') ->
  name ∈ needs spec -> source_of name sample = None ->
  evaluate_sample spec (sample <| new_firing_alerts := alerts |>) = Ok res ->
  conclusive res = false /\ passed res = false.
Proof.
  intros Ho Hneed Hnone He.
  pose proof (observe_errors _ _ _ _ _ _ _ _ _ _ Ho (needs_names _ _ Hneed) Hneed Hnone) as Herr.
  unfold evaluate_sample in He. apply rbind_Ok in He as (l & _ & He).
  cbn [errors] in He. change (errors (sample <| new_firing_alerts := alerts |>)) with (errors sample) in He.
  destruct (errors sample); [done|]. by simplify_eq.
Qed.
End Observer.

(** ** Collecting a baseline *)

Section Collector.
Context {PY : Pydantic} {HA : Hashing} {TO : ServiceTopology} {DI : Digests} {ES : EvidenceSource}.

Lemma transact_idle {A} (m : Tx A) : relates idle m -> respects idle (transact m).
Proof.
  intros Hm d. unfold transact. apply atomically_relates; [typeclasses eauto|exact Hm].
Qed.

Lemma collect_baseline_idle now1 now2 owner tk :
  respects idle (collect_baseline now1 now2 owner tk).
Proof.
  unfold collect_baseline. destruct (get_entry _) as [entry|]; [|apply respects_ret; typeclasses eauto].
  destruct (negb _); [apply respects_ret; typeclasses eauto|].
  apply respects_bind; [typeclasses eauto|apply transact_idle, relates_reads; typeclasses eauto|].
  intros [known|]; [apply respects_ret; typeclasses eauto|].
  apply respects_bind; [typeclasses eauto|apply respects_pure; typeclasses eauto|intros spec].
  apply respects_bind; [typeclasses eauto| |].
  { intros d. apply evidence_idle, observe_frame. }
  intros [sample ids]. destruct (errors sample); [|apply respects_ret; typeclasses eauto].
  apply respects_bind; [typeclasses eauto| |intros; apply respects_ret; typeclasses eauto].
  apply transact_idle, idle_record_baseline.
Qed.
End Collector.

(** ** The engine as a client *)

Section Client.
Context {ES : EvidenceSource} (max_attempts : Z) (owner : string) (lease_seconds : float).

(** The steps of a system the commands of the service and registrations of evidence are
    steps of, and what holds of its databases. *)
Context (steps : relation db) {SP : PreOrder steps} (holds : db -> Prop).
Context (holds_ver : forall d, holds d -> VInv d) (holds_steps : forall d d', holds d -> steps d d' -> holds d').
Context (command_steps : forall d d', verification_command max_attempts d d' -> steps d d').
Context (evidence_steps : forall d d', registers d d' -> steps d d').

(** The spec of a ticket is the one stored with its verification. *)
Lemma claim_spec now i d tk d' :
  VInv d -> Core.claim_due max_attempts now i owner lease_seconds d = Ok (Some tk, d') ->
  exists v, verifications d' !! Core.vt_verification_id tk = Some v /\ Core.vt_spec tk = v_spec v.
Proof.
  intros HI Hr. unfold Core.claim_due, put_verification in Hr.
  apply bind_Ok in Hr as (v & d0 & _ & Hr).
  apply bind_Ok in Hr as (row & d1 & _ & Hr).
  destruct (negb _); [by tx_inv|]. destruct (Core.lease_held _ _); [by tx_inv|].
  destruct (Core.deadline_passed _ _); [by tx_inv|]. destruct (Core.too_early _ _); [by tx_inv|].
  tx_inv. eexists. split; [apply lookup_insert_eq|done].
Qed.

Lemma transact_steps {A} (m : Tx A) d r d' :
  transact m d = (r, d') -> verification_command max_attempts d (atomically m d).2 -> steps d d'.
Proof. unfold transact. intros E Hc. rewrite E in Hc. by apply command_steps. Qed.

Lemma tick_steps t i d : holds d ->
  steps d (tick max_attempts owner lease_seconds t i d).2.
Proof.
  intros Hd. unfold tick.
  destruct (transact (Core.claim_due max_attempts (tick_claim t) i owner lease_seconds) d)
    as [c d1] eqn:Ec.
  pose proof (transact_steps _ _ _ _ Ec (vc_claim _ _ _ _ _ _)) as H1.
  unfold mbind at 1, Prog_bind at 1. rewrite Ec.
  apply transact_cases in Ec as [(o & -> & Ec)|[[e ->] ->]]; [|exact H1].
  destruct o as [tk|]; [|exact H1].
  apply claim_spec in Ec as (v & Hv & Hspec); [|by apply holds_ver].
  unfold mbind at 1, Prog_bind at 1.
  match goal with |- context [observe ?a ?b ?c ?e ?f d1] =>
    pose proof (observe_frame a b c e f d1) as H2; destruct (observe a b c e f d1) as [[[sample ids]|e2] d2] end;
    simpl in H2; [|etrans; [exact H1|by apply evidence_steps]].
  assert (verifications d2 !! Core.vt_verification_id tk = Some v) as Hv2
    by (destruct (registers_adds _ _ H2) as [[-> _] _]; exact Hv).
  apply evidence_steps in H2.
  unfold mbind, Prog_bind, attempt.
  match goal with |- context [transact ?m d2] =>
    destruct (transact m d2) as [r d3] eqn:Er;
    pose proof (transact_steps m d2 r d3 Er) as H3 end.
  assert (steps d2 d3) as H3'.
  { apply H3, vc_record. intros v' Hv'. congruence. }
  assert (steps d d3) as Hall by (etrans; [exact H1|]; etrans; [exact H2|exact H3']).
  destruct r as [row|e]; [exact Hall|]. destruct e; exact Hall.
Qed.

Lemma get_steps i d : steps d (transact (Core.get i) d).2.
Proof.
  unfold transact, atomically. destruct (Core.get i d) as [[v d1]|e] eqn:E; simpl; [|done].
  unfold Core.get in E. by tx_inv.
Qed.

Lemma engine_steps now ticks max_ticks i d :
  holds d -> steps d (run_until_done max_attempts owner lease_seconds now ticks max_ticks i d).2.
Proof.
  intros Hd. unfold run_until_done, start_engine, mbind, Prog_bind.
  destruct (transact (Core.start now i) d) as [r d1] eqn:E.
  pose proof (transact_steps _ _ _ _ E (vc_start _ _ _ _)) as H1.
  destruct r as [v|e]; [|exact H1]. etrans; [exact H1|].
  assert (holds d1) as Hd1 by (by eapply holds_steps).
  clear d v E H1 Hd. revert ticks d1 Hd1.
  induction max_ticks as [|n IH]; intros ticks d Hd; cbn [tick_loop]; [apply get_steps|].
  unfold mbind, Prog_bind. pose proof (tick_steps (ticks 0%nat) i d Hd) as Ht.
  destruct (tick _ _ _ (ticks 0%nat) i d) as [[o|e] d1]; simpl in Ht; [|exact Ht].
  etrans; [exact Ht|]. pose proof (get_steps i d1) as Hg.
  destruct (transact (Core.get i) d1) as [[v|e] d2]; simpl in Hg; [|exact Hg].
  etrans; [exact Hg|]. case_bool_decide; [reflexivity|].
  apply IH. eapply holds_steps; [|exact Hg]. by eapply holds_steps.
Qed.
End Client.

(** With the remediation and verification services as the system. *)
Section System.
Context {PY : Pydantic} {HA : Hashing} {TO : ServiceTopology} {DI : Digests} {ES : EvidenceSource}.
Context (cfg : ServiceConfig) (max_attempts : Z) (owner : string) (lease_seconds : float).
Notation steps := (rtc (system_step cfg max_attempts)).

(** The engine is only a client.  Polling a verification until it is done, whatever
    evidence-service answers, whichever poll raises and whatever the clock says, is a
    sequence of commands of the verification service, each presenting the spec stored
    with the verification, and of evidence registrations: everything that holds of the
    databases the services reach holds when the engine drives them. *)
Theorem engine_is_a_client now ticks max_ticks i d :
  deployed cfg max_attempts d ->
  steps d (run_until_done max_attempts owner lease_seconds now ticks max_ticks i d).2
  /\ deployed cfg max_attempts
       (run_until_done max_attempts owner lease_seconds now ticks max_ticks i d).2.
Proof.
  intros Hd. assert (steps d (run_until_done max_attempts owner lease_seconds now ticks max_ticks i d).2)
    as Hs; [|split; [exact Hs|unfold deployed in *; by etrans]].
  apply (engine_steps max_attempts owner lease_seconds steps (deployed cfg max_attempts)); [..|exact Hd].
  - intros d0 H0. apply (sinv_ver _ _ (deployed_SInv _ _ _ H0)).
  - intros d0 d1 H0 H1. unfold deployed in *. by etrans.
  - intros d0 d1 H0. by apply rtc_once, st_verification.
  - intros d0 d1 H0. apply rtc_once, st_other; [by apply evidence_idle|by apply evidence_foreign].
Qed.
End System.
