(* ===== verification/VerificationExample.v ===== *)
(** * A worked verification

    The rollback of [RemediationExample] is verified: three polls in a row pass and
    the incident is resolved.  The run instantiates the theorems of
    [VerificationSafety]. *)
From S2P Require Import Prelude PyFloat Json Enums VerificationDomain Catalog.
From S2P Require Import RemediationDomain Policy Store TxLogic RemediationLifecycle.
From S2P Require Import RemediationService RemediationProofs RemediationSafety.
From S2P Require Import RemediationExample VerificationService VerificationProofs.
From S2P Require Import VerificationSafety.
Local Open Scope Z_scope.
Import Core.

Definition ex_vid : uuid := default 0%N (rm_verification_ref (ex_row ex_executed)).

Definition ex_healthy : Sample :=
  {| health := Some (JObj [("status", JStr "healthy");
                           ("signals", JObj [("error_rate", JInt 0); ("latency_p95", JInt 0)])]);
     deployment := Some (JObj [("version", JStr "v1")]); config := None; runtime := None;
     new_firing_alerts := None; errors := [] |}.

Definition ex_blank : VerificationRow :=
  {| v_id := 0; v_incident_id := 0; v_remediation_id := 0; v_verification_type := "";
     v_policy_version := ""; v_spec := ex_spec; v_baseline := None; v_status := V_PENDING;
     v_consecutive_successes := 0; v_observation_count := 0; v_conclusive_count := 0;
     v_result := None; v_failure_reason := None; v_next_action := None; v_correlation_id := 0;
     v_grace_until := None; v_deadline_at := None; v_next_poll_at := None;
     v_lease_owner := None; v_lease_expires_at := None; v_claim_attempt := 0;
     v_known_alert_ids := []; v_started_at := None; v_completed_at := None;
     v_created_at := 0; v_updated_at := 0 |}.
Definition ex_ver (d : db) : VerificationRow := default ex_blank (verifications d !! ex_vid).
Definition ex_inc (d : db) : IncidentRow := default ex_incident (incidents d !! 1%N).

Definition ex_started : db := run (start 5000 ex_vid) ex_executed.

(** One poll: claimed at [now], recorded a second later. *)
Definition ex_claim (now : instant) (d : db) : db := run (claim_due 2 now ex_vid "w1" (flit 60 0)) d.
Definition ex_ticket (d : db) : VerificationTicket :=
  {| vt_verification_id := ex_vid; vt_incident_id := 1; vt_remediation_id := ex_rid;
     vt_spec := v_spec (ex_ver d); vt_owner := "w1"; vt_claim_attempt := v_claim_attempt (ex_ver d) |}.
Definition ex_record (now : instant) (d : db) : db :=
  run (record_observation 2 now (ex_ticket d) ex_healthy [] now) d.
Definition ex_poll (now : instant) (d : db) : db := ex_record (now + seconds 1) (ex_claim now d).

Definition ex_polled2 : db := ex_poll (seconds 90) (ex_poll (seconds 70) ex_started).
Definition ex_claimed3 : db := ex_claim (seconds 110) ex_polled2.
Definition ex_resolved : db := ex_record (seconds 111) ex_claimed3.

(** A deadline passes with nobody polling. *)
Definition ex_late : instant := seconds 400.

(** ** Reachability *)

Notation reached := (deployed default_config 2).

Lemma reached_step d d' : reached d -> system_step default_config 2 d d' -> reached d'.
Proof. unfold deployed. apply rtc_r. Qed.

Lemma ex_db0_deployed : reached ex_db0.
Proof.
  apply rtc_once, st_other; [split; [reflexivity|vm_compute; discriminate]|].
  apply foreign_same; [reflexivity|reflexivity|vm_compute; discriminate|].
  intros _ i r Hi. change (({[1%N := ex_incident]} : gmap uuid IncidentRow) !! i = Some r) in Hi.
  apply lookup_singleton_Some in Hi as [<- <-]. reflexivity.
Qed.

Lemma ex_proposed_deployed : reached ex_proposed.
Proof. eapply reached_step; [apply ex_db0_deployed|apply st_remediation, rc_propose]. Qed.
Lemma ex_approved_deployed : reached ex_approved.
Proof. eapply reached_step; [apply ex_proposed_deployed|apply st_remediation, rc_decide]. Qed.
Lemma ex_claimed_deployed : reached ex_claimed.
Proof. eapply reached_step; [apply ex_approved_deployed|apply st_remediation, rc_claim]. Qed.
Lemma ex_executed_deployed : reached ex_executed.
Proof. eapply reached_step; [apply ex_claimed_deployed|apply st_remediation, rc_complete]. Qed.

Lemma ex_started_deployed : reached ex_started.
Proof. eapply reached_step; [apply ex_executed_deployed|apply st_verification, vc_start]. Qed.

Lemma ex_ticket_genuine d v :
  verifications d !! vt_verification_id (ex_ticket d) = Some v -> vt_spec (ex_ticket d) = v_spec v.
Proof.
  unfold ex_ticket, ex_ver. cbn [vt_verification_id vt_spec].
  destruct (verifications d !! ex_vid) as [w|]; [|discriminate]. intros [= ->]. reflexivity.
Qed.

Lemma ex_claim_step now d : verification_command 2 d (ex_claim now d).
Proof. apply vc_claim. Qed.
Lemma ex_record_step now d : verification_command 2 d (ex_record now d).
Proof. apply vc_record. apply ex_ticket_genuine. Qed.

Lemma ex_claim_deployed now d : reached d -> reached (ex_claim now d).
Proof. intros Hd. eapply reached_step; [exact Hd|apply st_verification, ex_claim_step]. Qed.
Lemma ex_record_deployed now d : reached d -> reached (ex_record now d).
Proof. intros Hd. eapply reached_step; [exact Hd|apply st_verification, ex_record_step]. Qed.
Lemma ex_poll_deployed now d : reached d -> reached (ex_poll now d).
Proof. intros Hd. apply ex_record_deployed, ex_claim_deployed, Hd. Qed.

Lemma ex_polled2_deployed : reached ex_polled2.
Proof. do 2 apply ex_poll_deployed. apply ex_started_deployed. Qed.
Lemma ex_claimed3_deployed : reached ex_claimed3.
Proof. apply ex_claim_deployed, ex_polled2_deployed. Qed.
Lemma ex_resolved_deployed : reached ex_resolved.
Proof. apply ex_record_deployed, ex_claimed3_deployed. Qed.

Lemma ex_resolved_ver : verifications ex_resolved !! ex_vid = Some (ex_ver ex_resolved).
Proof. vm_compute. reflexivity. Qed.

(** ** Witnesses *)

Lemma resolution_is_earned_witness :
  i_status (ex_inc ex_claimed3) = VERIFYING /\ i_status (ex_inc ex_resolved) = RESOLVED
  /\ exists v, v_status v = V_PASSED /\ proven (obs_of ex_resolved (v_id v)) v.
Proof.
  assert (incidents ex_claimed3 !! 1%N = Some (ex_inc ex_claimed3)) as H1 by (vm_compute; reflexivity).
  assert (incidents ex_resolved !! 1%N = Some (ex_inc ex_resolved)) as H2 by (vm_compute; reflexivity).
  assert (i_status (ex_inc ex_claimed3) = VERIFYING) as S1 by (vm_compute; reflexivity).
  assert (i_status (ex_inc ex_resolved) = RESOLVED) as S2 by (vm_compute; reflexivity).
  split; [exact S1|]. split; [exact S2|].
  assert (i_status (ex_inc ex_claimed3) <> RESOLVED) as N1 by (rewrite S1; discriminate).
  destruct (resolution_is_earned default_config 2 ex_claimed3 ex_resolved 1%N _ _ ex_claimed3_deployed
              (ex_record_step _ _) H1 H2 N1 S2)
    as (v & r & dec & a & _ & Hp & _ & _ & _ & Hpr & _).
  exists v. split; assumption.
Defined.

Lemma bookkeeping_matches_observations_witness :
  v_status (ex_ver ex_resolved) = V_PASSED /\ tallied (obs_of ex_resolved ex_vid) (ex_ver ex_resolved).
Proof.
  split; [vm_compute; reflexivity|].
  apply (bookkeeping_matches_observations default_config 2 ex_resolved ex_vid _
           ex_resolved_deployed ex_resolved_ver).
Defined.

Lemma verdict_is_final_witness :
  verifications (ex_claim ex_late ex_resolved) !! ex_vid = Some (ex_ver ex_resolved).
Proof.
  assert (rtc (system_step default_config 2) ex_resolved (ex_claim ex_late ex_resolved)) as Hr
    by (apply rtc_once, st_verification, ex_claim_step).
  assert (terminal (v_status (ex_ver ex_resolved))) as Ht
    by (replace (v_status (ex_ver ex_resolved)) with V_PASSED by (vm_compute; reflexivity);
        constructor).
  apply (verdict_is_final default_config 2 ex_resolved _ ex_vid _ ex_resolved_deployed Hr
           ex_resolved_ver Ht).
Defined.

(** The state a successful run leaves is the one [run] computes. *)
Lemma run_Ok {A} (m : Tx A) d (a : A) :
  (atomically m d).1 = Ok a -> m d = Ok (a, run m d).
Proof. unfold run, atomically. destruct (m d) as [[b d']|e]; simpl; intros E; by simplify_eq. Qed.

Lemma ex_recorded :
  record_observation 2 (seconds 111) (ex_ticket ex_claimed3) ex_healthy [] (seconds 111) ex_claimed3
  = Ok (ex_ver ex_resolved, ex_resolved).
Proof.
  apply (run_Ok (record_observation 2 (seconds 111) (ex_ticket ex_claimed3) ex_healthy [] (seconds 111))
           ex_claimed3 (ex_ver ex_resolved)).
  vm_compute. reflexivity.
Qed.

Lemma poll_settles_witness :
  exists v o, verifications ex_claimed3 !! ex_vid = Some v
    /\ observations ex_resolved = observations ex_claimed3 ++ [o]
    /\ ob_sequence o = v_observation_count v + 1.
Proof.
  destruct (poll_settles default_config 2 _ _ _ _ _ _ _ _ ex_claimed3_deployed ex_recorded)
    as (v & r & o & Hv & _ & _ & Ho & _ & Hs & _).
  exists v, o. split; [exact Hv|]. split; assumption.
Defined.

Lemma ticket_is_single_use_witness :
  exists msg, atomically (record_observation 2 ex_late (ex_ticket ex_claimed3) ex_healthy [] ex_late)
                ex_resolved = (Err (LeaseLostError msg), ex_resolved).
Proof.
  apply (ticket_is_single_use default_config 2 (seconds 111) (ex_ticket ex_claimed3) ex_healthy []
           (seconds 111) ex_claimed3 (ex_ver ex_resolved) ex_resolved ex_resolved
           ex_late ex_healthy [] ex_late ex_claimed3_deployed (ex_ticket_genuine ex_claimed3)
           ex_recorded).
  apply rtc_refl.
Defined.

Lemma deadline_brings_verdict_witness :
  exists d' v', claim_due 2 ex_late ex_vid "w2" (flit 60 0) ex_started = Ok (None, d')
    /\ verifications d' !! ex_vid = Some v' /\ terminal (v_status v').
Proof.
  assert (verifications ex_started !! ex_vid = Some (ex_ver ex_started)) as Hv by (vm_compute; reflexivity).
  assert (v_status (ex_ver ex_started) = V_RUNNING) as Hs by (vm_compute; reflexivity).
  assert (v_deadline_at (ex_ver ex_started) = Some 390005000) as Hd by (vm_compute; reflexivity).
  assert (390005000 <= ex_late) as Hle by (vm_compute; discriminate).
  assert (incidents ex_started !! v_incident_id (ex_ver ex_started) = Some (ex_inc ex_started)) as Hi
    by (vm_compute; reflexivity).
  assert (remediations ex_started !! v_remediation_id (ex_ver ex_started) = Some (ex_row ex_started)) as Hr
    by (vm_compute; reflexivity).
  destruct (deadline_brings_verdict default_config 2 ex_late ex_vid "w2" (flit 60 0) ex_started _ _ _ _
              ex_started_deployed Hv Hs Hd Hle Hi Hr)
    as [(h & t & Hh & _)|(_ & d' & v' & st & H1 & _ & H2 & (_ & _ & _ & H3 & _) & H4 & _)].
  { vm_compute in Hh. discriminate Hh. }
  exists d', v'. split; [exact H1|]. split; [exact H2|]. rewrite H3. exact H4.
Defined.
