(* ===== verification/RunnerExample.v ===== *)
(** * A worked run of the workers

    The approved rollback of [RemediationExample] is driven by the runner, with the
    simulator as executor and a collector of the baseline, and then verified by the
    engine; an observation with a dead source does not pass.  The executor is run twice on
    the same request. *)
From S2P Require Import Prelude PyFloat Json Enums VerificationDomain Catalog.
From S2P Require Import RemediationDomain Policy Store TxLogic RemediationLifecycle.
From S2P Require Import RemediationService RemediationProofs RemediationSafety RemediationExample.
From S2P Require Import VerificationService VerificationProofs VerificationSafety VerificationExample.
From S2P Require Import Prog Redis Executor ExecutorSafety Runner RunnerSafety.
From S2P Require Import VerificationEngine VerificationEngineSafety.
Local Open Scope Z_scope.

(** Evidence-service answers every operation but the deployments, which it cannot reach. *)
Definition ex_fetch (operation : string) (now : instant) (incident : uuid) (service by_ : string)
    : Prog db (uuid * list (string * json)) :=
  if bool_decide (operation = "get_recent_deployments") then throw (EvidenceError "source_unavailable" "down" true)
  else mret (1%N, [("status", JStr "healthy"); ("signals", JObj [("error_rate", JObj [("value", JInt 0)])])]).
#[export] Instance ex_evidence : EvidenceSource.
Proof.
  refine {| fetch := ex_fetch |}. intros op now i s by_ d. unfold ex_fetch.
  case_bool_decide; simpl; reflexivity.
Defined.

(** ** The runner *)

Definition ex_simulated : gmap string rvalue :=
  {[ DEPLOYMENTS_KEY "checkout" := RList [Doc (JObj [("version", JStr "v1")]);
                                          Doc (JObj [("version", JStr "v2")])] ]}.

Definition ex_turn (n : nat) : Turn :=
  let now := 3000 + 10 * Z.of_nat n in
  {| tn_claim := now; tn_stamp := {| st_now := now; st_time := fone; st_fresh := 77%N |};
     tn_late := None; tn_done := now + 5 |}.

Definition ex_collector (t : Turn) (tk : ExecutionTicket)
    : Prog (ex_world (RemediationExecutor := simulator (H0 := map_redis)) * db) bool :=
  on_right (collect_baseline (tn_claim t) (tn_claim t) "w1" tk).

Lemma ex_collector_observes collect t tk
    (w : ex_world (RemediationExecutor := simulator (H0 := map_redis))) d r w' d' :
  Some ex_collector = Some collect -> collect t tk (w, d) = (r, (w', d')) -> idle d d' /\ w' = w.
Proof.
  intros [= <-] H. unfold ex_collector, on_right in H. cbn [fst snd] in H.
  pose proof (collect_baseline_idle (tn_claim t) (tn_claim t) "w1" tk d) as Hi.
  destruct (collect_baseline _ _ _ _ d) as [r1 d1]. injection H as <- <- <-. split; [exact Hi|reflexivity].
Qed.

Abbreviation simulation := (simulator (H0 := map_redis)).

(** Without a collector the rollback is executed. *)
Definition ex_ran : (ex_world (RemediationExecutor := simulation)) * db :=
  (Runner.run (EX := simulation) default_config "w1" 120 None ex_turn ex_rid
    (ex_simulated, ex_approved)).2.
Definition ex_attempt : RemediationExecutionRow :=
  match rows (executions ex_ran.2) with
  | x :: _ => x
  | [] => Build_RemediationExecutionRow 0 0 0 "" X_RUNNING "" "" 0 0 None None None
  end.

(** With the collector: the baseline needs the deployments, which are down, so each of
    the two attempts fails without acting. *)
Definition ex_blocked (n : nat) :=
  run_loop (EX := simulation) default_config "w1" 120 (Some ex_collector) ex_turn n ex_rid
    (ex_simulated, ex_approved).

Lemma ten_claims_suffice_witness :
  ex_blocked 3 = ex_blocked 10 /\ rm_status (ex_row (ex_blocked 10).2.2) = R_FAILED.
Proof.
  split.
  - exact (ten_claims_suffice (EX := simulation) default_config "w1" 120 (Some ex_collector)
             ex_collector_observes ex_rid 3 ex_turn ex_simulated ex_approved ex_approved_reachable
             (le_n 3)).
  - vm_compute. reflexivity.
Defined.

Lemma executed_means_applied_witness :
  recorded (RD := map_redis) (ex_idempotency_key ex_attempt) ex_ran.1.
Proof.
  assert (executions ex_ran.2 !! ex_id ex_attempt = Some ex_attempt) as Hx by (vm_compute; reflexivity).
  assert (ex_status ex_attempt = X_SUCCEEDED) as Hs by (vm_compute; reflexivity).
  destruct (executed_means_applied (RD := map_redis) default_config "w1" 120 None
              (fun _ _ _ _ _ _ _ _ H => ltac:(discriminate)) ex_rid ex_turn ex_simulated ex_approved
              (Runner.run (EX := simulation) default_config "w1" 120 None ex_turn ex_rid
                 (ex_simulated, ex_approved)).1 ex_ran.1 ex_ran.2 (ex_id ex_attempt) ex_attempt
              ex_approved_reachable) as [H|H].
  - vm_compute. reflexivity.
  - exact Hx.
  - exact Hs.
  - exfalso. revert H. vm_compute. discriminate.
  - exact H.
Defined.

(** ** The engine *)

Definition ex_observed : Sample :=
  match (observe 9 1 "checkout" (needs ex_spec) "verification" ex_executed).1 with
  | Ok (s, _) => s
  | Err _ => ex_healthy
  end.

Lemma unseen_source_never_passes_witness :
  errors ex_observed = ["deployment: source_unavailable"]
  /\ exists r, evaluate_sample ex_spec (ex_observed <| new_firing_alerts := Some 0 |>) = Ok r
       /\ conclusive r = false /\ passed r = false.
Proof.
  split; [vm_compute; reflexivity|].
  destruct (evaluate_sample ex_spec (ex_observed <| new_firing_alerts := Some 0 |>)) as [r|e] eqn:E.
  - exists r. split; [reflexivity|].
    refine (unseen_source_never_passes ex_spec 9 1 "checkout" "verification" ex_executed ex_observed [1%N]
              ex_executed "deployment" (Some 0) r _ _ _ E); vm_compute; reflexivity.
  - revert E. vm_compute. discriminate.
Defined.

Definition ex_tick (n : nat) : Tick :=
  let now := seconds 100 + seconds 20 * Z.of_nat n in
  {| tick_claim := now; tick_observe := now; tick_observed := now; tick_record := now |}.

Lemma engine_is_a_client_witness :
  deployed default_config 2
    (run_until_done 2 "w1" (flit 60 0) 5000 ex_tick 30 ex_vid ex_executed).2.
Proof.
  exact (proj2 (engine_is_a_client default_config 2 "w1" (flit 60 0) 5000 ex_tick 30 ex_vid
                  ex_executed ex_executed_deployed)).
Defined.

(** ** Worked executions

    A rollback of the simulated checkout service and its retry, and a configuration
    reverted to a number, which a retry reverts again. *)
Definition ex_checkout : string := "checkout-service".
Definition ex_stamp (n : Z) : Stamp := {| st_now := n; st_time := fone; st_fresh := Z.to_N n |}.

Definition ex_rollback (attempt : string) : ExecutionRequest :=
  {| rq_execution_id := attempt; rq_idempotency_key := "r:" +++ attempt;
     rq_action_id := "rollback_deployment"; rq_catalog_version := CATALOG_VERSION;
     rq_parameters := [("service", JStr ex_checkout); ("from_version", JStr "1.1.0");
                       ("to_version", JStr "1.0.0")];
     rq_target_service := ex_checkout; rq_environment := "production"; rq_deadline := 1000 |}.

(** Version 1.1.0 runs and is bad. *)
Definition ex_production : gmap string rvalue :=
  {[ DEPLOYMENTS_KEY ex_checkout := RList [Doc (JObj [("version", JStr "1.0.0")]);
                                           Doc (JObj [("version", JStr "1.1.0")])];
     fault_key ex_checkout := RStr (Doc (JObj [("scenario", JStr "bad-deployment")])) ]}.

Definition ex_first : result ExecutorResult * gmap string rvalue :=
  execute (RD := map_redis) (ex_stamp 10) (ex_rollback "1") ex_production.

Definition ex_done : ExecutorResult :=
  succeeded [("deployment_id", JStr (str_uuid 10%N)); ("from_version", JStr "1.1.0");
             ("to_version", JStr "1.0.0"); ("cleared_fault", JStr "bad-deployment")].

Lemma ex_first_run : ex_first = (Ok ex_done, ex_first.2).
Proof. vm_compute. reflexivity. Qed.

Lemma ex_acts : acts (RD := map_redis) (ex_stamp 10) (ex_rollback "1")
                  (RollbackDeploymentParams ex_checkout "1.1.0" "1.0.0") ex_production.
Proof. split; [|split]; vm_compute; reflexivity. Qed.

Lemma acts_only_as_authorised_witness :
  exists e, get_entry "rollback_deployment" = Some e /\ 10 < 1000
    /\ view (Redis := map_redis) ex_first.2 !! fault_key ex_checkout = None.
Proof.
  destruct (acts_only_as_authorised (RD := map_redis) (ex_stamp 10) (ex_rollback "1") ex_production
              (fault_key ex_checkout)) as (e & _ & _ & He & _ & _ & _ & _ & Ht & _).
  - vm_compute. discriminate.
  - exists e. split; [exact He|]. split; [exact Ht|]. vm_compute. reflexivity.
Defined.

Lemma recorded_request_is_replayed_witness :
  execute (RD := map_redis) (ex_stamp 2000) (ex_rollback "1") ex_first.2 = (Ok ex_done, ex_first.2).
Proof.
  exact (recorded_request_is_replayed (RD := map_redis) (ex_stamp 10) (ex_rollback "1") _
           ex_production ex_done ex_first.2 (ex_stamp 2000) (ex_rollback "1") ex_first.2
           ex_acts ex_first_run eq_refl eq_refl).
Defined.

(** The second attempt of the rollback is a no-op. *)
Lemma retry_cannot_act_twice_witness :
  view (Redis := map_redis)
    (execute (RD := map_redis) (ex_stamp 20) (ex_rollback "2") ex_first.2).2
    !! DEPLOYMENTS_KEY ex_checkout
  = view (Redis := map_redis) ex_first.2 !! DEPLOYMENTS_KEY ex_checkout.
Proof.
  destruct (retry_cannot_act_twice (RD := map_redis) (ex_stamp 10) (ex_stamp 20) (ex_rollback "1")
    (ex_rollback "2") entry_rollback_deployment ex_production ex_done ex_first.2 ex_checkout
    (DEPLOYMENTS_KEY ex_checkout) eq_refl eq_refl) as [H|[H _]].
  - repeat split.
  - exact (proj1 ex_acts).
  - exact ex_first_run.
  - unfold environment_keys. set_solver.
  - exact H.
  - discriminate H.
Defined.

(** ** A configuration reverted to a number *)

Definition ex_revert (attempt : string) : ExecutionRequest :=
  {| rq_execution_id := attempt; rq_idempotency_key := "c:" +++ attempt;
     rq_action_id := "revert_configuration"; rq_catalog_version := CATALOG_VERSION;
     rq_parameters := [("service", JStr ex_checkout); ("key", JStr CONFIG_KEY_NAME);
                       ("from_value", JStr "5"); ("to_value", JInt 5)];
     rq_target_service := ex_checkout; rq_environment := "production"; rq_deadline := 1000 |}.

Definition ex_configured : gmap string rvalue :=
  {[ CONFIG_KEY ex_checkout := RList [Doc (JObj [("new_value", JStr "5")])] ]}.

Definition changes_recorded (s : gmap string rvalue) : nat :=
  match s !! CONFIG_KEY ex_checkout with Some (RList l) => length l | _ => 0 end.

(** A retry can act twice.  The registry records the text of the new value, the next
    attempt compares it with the number: reverting from the text 5 to the number 5 is
    retry-safe for the catalog, valid, and records a change on every attempt. *)
Example revert_to_a_number_acts_twice :
  let run st rq s := (execute (RD := map_redis) st rq s).2 in
  let once := run (ex_stamp 10) (ex_revert "1") ex_configured in
  let twice := run (ex_stamp 20) (ex_revert "2") once in
  retry_safe entry_revert_configuration = true
  /\ (changes_recorded ex_configured, changes_recorded once, changes_recorded twice) = (1, 2, 3)%nat.
Proof. vm_compute. split; reflexivity. Qed.
