(* ===== verification/IncidentProofs.v ===== *)
(** * What the alert commands do

    The effect of every branch of [IncidentService] on the tables, and the invariant
    of alerts and incidents those effects keep: rows sit at their keys, a firing alert
    is linked to an incident that exists, a source's external id names one alert and a
    correlation key at most one open incident. *)
From S2P Require Import Prelude PyFloat Json Enums Correlation VerificationDomain Catalog.
From S2P Require Import RemediationDomain Policy Store TxLogic RemediationLifecycle.
From S2P Require Import RemediationService RemediationProofs IncidentRepository AlertIdentity.
From S2P Require Import IncidentService.
Local Open Scope Z_scope.
Import Engine.

Record AInv (d : db) : Prop := {
  ai_alerts i a : alerts d !! i = Some a -> a_id a = i /\ (i < uuid_supply d)%N;
  ai_incidents i r : incidents d !! i = Some r -> i_id r = i /\ (i < uuid_supply d)%N;
  ai_linked i a n : alerts d !! i = Some a -> a_incident_id a = Some n ->
    is_Some (incidents d !! n);
  ai_firing i a : alerts d !! i = Some a -> a_status a = FIRING -> is_Some (a_incident_id a);
  ai_episode i j a b x : alerts d !! i = Some a -> alerts d !! j = Some b ->
    a_external_id a = Some x -> a_external_id b = Some x -> a_source a = a_source b -> i = j;
  ai_open i j r s : incidents d !! i = Some r -> incidents d !! j = Some s ->
    i_correlation_key r = i_correlation_key s -> incident_open r = true ->
    incident_open s = true -> i = j;
}.

(** ** Runs of the helpers *)

Lemma insert_alert_run now c fp d row existed d1 :
  insert_alert_or_get_existing now c fp d = Ok ((row, existed), d1) ->
  let new := new_alert now (uuid_supply d) c fp (cmd_status c) None in
  if existed
  then d1 = d <| uuid_supply ::= N.succ |>
       /\ exists x, cmd_external_id c = Some x /\ find_episode (cmd_source c) x d = Some row
  else row = new /\ episode_taken new d = false
       /\ d1 = d <| uuid_supply ::= N.succ |> <| alerts ::= <[a_id new := new]> |>.
Proof.
  unfold insert_alert_or_get_existing, put_alert. intros Hr. tx_inv.
  destruct (cmd_external_id c) as [x|] eqn:Ex; tx_inv.
  - case_match eqn:Et; tx_inv.
    + split; [done|]. split; [|done]. by apply negb_true_iff in Et.
    + split; [done|]. by exists x.
  - split; [done|]. split; [|done]. unfold episode_taken; simpl. by rewrite Ex.
Qed.

Lemma finalize_ledger c res d u d' :
  _finalize c res d = Ok (u, d') ->
  processed_commands d !! (COMMAND_TYPE_ALERT_RECEIVED, cmd_idempotency_key c) = None
  /\ d' = d <| processed_commands ::=
                 <[(COMMAND_TYPE_ALERT_RECEIVED, cmd_idempotency_key c) := res]> |>.
Proof.
  unfold _finalize, insert_processed_command, get_processed_command. intros Hr. tx_inv.
  destruct (processed_commands d !! _) eqn:E; tx_inv; simpl in *; by tx_inv.
Qed.

Lemma link_run i n d u d' :
  link_alert_to_incident i n d = Ok (u, d') ->
  exists a, alerts d !! i = Some a
    /\ d' = d <| alerts ::= <[a_id a := a <| a_incident_id := Some n |>]> |>.
Proof. unfold link_alert_to_incident, put_alert. intros Hr. tx_inv. by eexists. Qed.

Lemma existsb_find {A} (p : A -> bool) l : existsb p l = true -> List.find p l <> None.
Proof.
  intros (x & Hin & Hp)%existsb_exists Hf. by rewrite (List.find_none _ _ Hf x Hin) in Hp.
Qed.

Lemma find_existsb {A} (p : A -> bool) l : List.find p l = None -> existsb p l = false.
Proof.
  intros Hf. destruct (existsb p l) eqn:E; [|done]. by apply existsb_find in E.
Qed.

Lemma get_or_create_run now key sev svc env d inc created d1 :
  get_or_create_open_incident now key sev svc env d = Ok ((inc, created), d1) ->
  if created
  then inc = new_incident now (uuid_supply d) key sev svc env
       /\ _select_open_incident key d = None
       /\ d1 = d <| uuid_supply ::= N.succ |> <| incidents ::= <[i_id inc := inc]> |>
  else d1 = d /\ _select_open_incident key d = Some inc.
Proof.
  unfold get_or_create_open_incident, insert_open_incident, put_incident. intros Hr. tx_inv.
  destruct (_select_open_incident key d) as [row|] eqn:E; tx_inv; [done|].
  match goal with H : context [existsb] |- _ => cbn [new_incident i_correlation_key incidents] in H end.
  pose proof (find_existsb _ _ E) as Hex. simpl in *. rewrite Hex in *. simpl in *.
  tx_inv. by split_and!.
Qed.

(** ** The incident of a new alert *)

Lemma max_received_le d n a :
  a ∈ rows (alerts d) -> a_incident_id a = Some n ->
  exists t, max_received_at d n = Some t /\ a_received_at a <= t.
Proof.
  unfold max_received_at. induction (rows (alerts d)) as [|b l IH]; [by intros ?%elem_of_nil|].
  intros [<-|Hin]%elem_of_cons Ha; cbn [List.filter].
  - unfold linked_to at 1. rewrite bool_decide_eq_true_2 by done. cbn [foldr].
    eexists. split; [done|]. case_match; lia.
  - destruct (IH Hin Ha) as (t & Ht & Hle). destruct (linked_to n b); [|eauto].
    cbn [foldr]. rewrite Ht. eexists. split; [done|]. lia.
Qed.

(** What a candidate stands for. *)
Lemma candidate_spec svc env now lb d cand :
  cand ∈ find_open_incident_candidates svc env now lb d <->
  exists k i m a latest, incidents d !! k = Some i /\ cand = candidate_of i a
    /\ i_service i = svc /\ i_environment i = env /\ incident_open i = true
    /\ alerts d !! m = Some a /\ a_incident_id a = Some (i_id i)
    /\ max_received_at d (i_id i) = Some latest /\ a_received_at a = latest
    /\ now - seconds lb <= latest.
Proof.
  unfold find_open_incident_candidates. rewrite list_elem_of_In, in_flat_map. split.
  - intros (i & [k Hk]%list_elem_of_In%elem_of_rows & Hin). unfold candidates_of in Hin.
    destruct (max_received_at d (i_id i)) as [latest|] eqn:El; [|done].
    case_match eqn:Eg; [|done].
    apply in_map_iff in Hin as (a & <- & [[m Hm]%list_elem_of_In%elem_of_rows Hf]%filter_In).
    unfold linked_to in Hf. rewrite !andb_true_iff, !bool_decide_eq_true in *.
    destruct Eg as (((? & ?) & ?) & ?), Hf as [? ?].
    exists k, i, m, a, latest. split_and!; try done; lia.
  - intros (k & i & m & a & latest & Hk & -> & Hs & He & Ho & Hm & Ha & Hl & Hr & Hc).
    exists i. split; [apply list_elem_of_In, elem_of_rows; eauto|].
    unfold candidates_of. rewrite Hl, Ho, Hs, He, !bool_decide_eq_true_2 by done. simpl.
    destruct (Z.leb_spec (now - seconds lb) latest); [|lia].
    apply in_map_iff. exists a. split; [done|]. apply filter_In.
    split; [apply list_elem_of_In, elem_of_rows; eauto|]. unfold linked_to.
    rewrite bool_decide_eq_true_2 by done. simpl. lia.
Qed.

Lemma find_best_among e alert cs c :
  best_candidate (find_best e alert cs) = Some c ->
  c ∈ cs /\ best_score (find_best e alert cs) = score_of e alert c.
Proof.
  unfold find_best. induction cs as [|x cs IH] using rev_ind; [done|].
  rewrite foldl_snoc, elem_of_app, list_elem_of_singleton.
  set (b := foldl _ _ _) in *. clearbody b. unfold consider, score_of in *.
  destruct (score_candidate e alert x) as [sc sg] eqn:Ex.
  destruct (best_candidate b) eqn:Eb; [case_match|]; cbn [best_candidate best_score].
  - intros [= <-]. rewrite Ex. auto.
  - intros Hc. rewrite Eb in Hc. destruct (IH Hc). auto.
  - intros [= <-]. rewrite Ex. auto.
Qed.

Lemma decide_matched e alert cs :
  decision (decide e alert cs) = CORRELATE ->
  exists c, c ∈ cs /\ matched_incident_id (decide e alert cs) = Some (incident_id c)
    /\ fleb (threshold e) (score_of e alert c) = true.
Proof.
  unfold decide. destruct (best_candidate _) as [c|] eqn:E; [|done].
  apply find_best_among in E as [Hin Hs]. destruct (fleb _ _) eqn:Ef; [|done].
  intros _. exists c. by rewrite <-Hs.
Qed.

Lemma touch_run now inc d inc' d' :
  touch_incident_updated_at now inc d = Ok (inc', d') ->
  inc' = inc <| i_updated_at := now |> /\ d' = d <| incidents ::= <[i_id inc := inc']> |>.
Proof. unfold touch_incident_updated_at, put_incident. intros Hr. by tx_inv. Qed.

(** An alert that is linked to no incident brings no candidate. *)
Lemma max_received_unlinked d f k new n :
  alerts d !! k = None -> a_incident_id new = None ->
  max_received_at (d <| uuid_supply ::= f |> <| alerts ::= <[k := new]> |>) n = max_received_at d n.
Proof.
  intros Hk Hu. unfold max_received_at, rows. cbn [alerts].
  set (g := fun a (best : option instant) => _).
  assert (forall l l' : list AlertRow, l ≡ₚ l' -> foldr g None (List.filter (linked_to n) l)
            = foldr g None (List.filter (linked_to n) l')) as Hperm.
  { intros l l' Hp. apply (foldr_permutation_proper (=) g None); 
      [intros a b [t|]; unfold g; f_equal; lia|].
    induction Hp as [|a l l' _ IH|a b l|l1 l2 l3 _ IH1 _ IH2]; cbn [List.filter];
      [done|by destruct (linked_to n a); rewrite ?IH| |by rewrite IH1].
    destruct (linked_to n a), (linked_to n b); try done. apply Permutation_swap. }
  etransitivity; [apply Hperm, fmap_Permutation, (map_to_list_insert (alerts d) k new Hk)|].
  cbn [fmap list_fmap List.filter snd]. unfold linked_to at 1. by rewrite Hu.
Qed.

Lemma candidates_unlinked svc env now lb d f k new cand :
  alerts d !! k = None -> a_incident_id new = None ->
  cand ∈ find_open_incident_candidates svc env now lb
           (d <| uuid_supply ::= f |> <| alerts ::= <[k := new]> |>)
  <-> cand ∈ find_open_incident_candidates svc env now lb d.
Proof.
  intros Hk Hu. rewrite !candidate_spec.
  split; intros (j & i & m & a & latest & Hj & -> & Hs & He & Ho & Hm & Ha & Hl & Hr & Hc);
    exists j, i, m, a, latest; rewrite max_received_unlinked in * by done; split_and!; try done.
  - simpl in Hm. apply lookup_insert_Some in Hm as [[_ <-]|[_ ?]]; [congruence|done].
  - simpl. rewrite lookup_insert_ne; [done|congruence].
Qed.

Section Runs.
Context {HA : Hashing}.
Context (config : IncidentConfig).

(** Some alert of the incident [n] is a candidate and scores at least the threshold. *)
Definition correlates (now : instant) (c : AlertReceivedCommand) (svc env fp : string) (d : db)
    (n : uuid) : Prop :=
  exists cand,
    cand ∈ find_open_incident_candidates svc env now (ic_candidate_lookback_seconds config) d
    /\ incident_id cand = n
    /\ fleb (threshold (ic_correlation_engine config))
         (score_of (ic_correlation_engine config) (alert_context now c fp svc env) cand) = true.

(** The key of an incident that has to be opened for the alert. *)
Definition opening_key (now : instant) (c : AlertReceivedCommand) (svc env fp : string) : string :=
  new_key (ic_correlation_engine config) (alert_context now c fp svc env) +++ ":"
    +++ str_Z (now / seconds (ic_candidate_lookback_seconds config)).

(** The alert correlates with no incident; an engine that compares a score that is not
    a number may overlook one. *)
Definition correlates_nowhere (now : instant) (c : AlertReceivedCommand) (svc env fp : string)
    (d : db) : Prop :=
  scored (ic_correlation_engine config) -> forall n, ~ correlates now c svc env fp d n.

(** How an alert finds its incident: a candidate that scored high enough, the open
    incident that already has the key, or a new one. *)
Inductive placed (now : instant) (c : AlertReceivedCommand) (svc env : string) (fp : string)
    (d : db) : IncidentRow -> bool -> db -> Prop :=
| placed_correlated k i :
    incidents d !! k = Some i -> incident_open i = true -> i_service i = svc ->
    i_environment i = env ->
    correlates now c svc env fp d k ->
    placed now c svc env fp d (i <| i_updated_at := now |>) false
      (d <| incidents ::= <[k := i <| i_updated_at := now |>]> |>)
| placed_adopted k i :
    incidents d !! k = Some i -> incident_open i = true ->
    i_correlation_key i = opening_key now c svc env fp -> correlates_nowhere now c svc env fp d ->
    placed now c svc env fp d i false d
| placed_new key i :
    i = new_incident now (uuid_supply d) key (cmd_severity c) svc env ->
    _select_open_incident key d = None -> key = opening_key now c svc env fp ->
    correlates_nowhere now c svc env fp d ->
    placed now c svc env fp d i true
      (d <| uuid_supply ::= N.succ |> <| incidents ::= <[i_id i := i]> |>).

Lemma decide_opening now c svc env fp d :
  let e := ic_correlation_engine config in
  let dec := decide e (alert_context now c fp svc env)
    (find_open_incident_candidates svc env now (ic_candidate_lookback_seconds config) d) in
  decision dec <> CORRELATE ->
  new_incident_key config now dec = opening_key now c svc env fp
  /\ correlates_nowhere now c svc env fp d.
Proof.
  intros e dec Hd. split.
  - unfold new_incident_key, opening_key. f_equal. revert Hd. unfold dec, decide.
    destruct (best_candidate _); [|done]. by destruct (fleb _ _).
  - intros He n (cand & Hin & _ & Hth). apply Hd. apply decide_correlate; [done|eauto].
Qed.

(** The incident found for an alert [new] that the database [d] did not hold yet, and
    whether it was opened for it: it is opened when the alert correlates with none and
    no open incident has the key. *)
Definition found_or_opened (now : instant) (c : AlertReceivedCommand) (svc env fp : string)
    (d : db) (inc : IncidentRow) (created : bool) : Prop :=
  if created then
    incidents d !! i_id inc = None
    /\ inc = new_incident now (i_id inc) (opening_key now c svc env fp) (cmd_severity c) svc env
    /\ correlates_nowhere now c svc env fp d
    /\ (forall m s, incidents d !! m = Some s -> incident_open s = true ->
          i_correlation_key s <> opening_key now c svc env fp)
  else exists old, incidents d !! i_id inc = Some old /\ incident_open old = true
    /\ (correlates now c svc env fp d (i_id inc) /\ inc = old <| i_updated_at := now |>
        \/ correlates_nowhere now c svc env fp d /\ inc = old
           /\ i_correlation_key old = opening_key now c svc env fp).

Lemma correlates_unlinked now c svc env fp d f k new n :
  alerts d !! k = None -> a_incident_id new = None ->
  correlates now c svc env fp (d <| uuid_supply ::= f |> <| alerts ::= <[k := new]> |>) n
  <-> correlates now c svc env fp d n.
Proof.
  intros Hk Hu. unfold correlates.
  split; intros (cand & Hin & ?); exists cand;
    (split; [|done]); revert Hin; by apply candidates_unlinked.
Qed.

Lemma placed_found now c svc env fp d f k new inc created d1 :
  (forall i r, incidents d !! i = Some r -> i_id r = i /\ (i < f (uuid_supply d))%N) ->
  alerts d !! k = None -> a_incident_id new = None ->
  placed now c svc env fp (d <| uuid_supply ::= f |> <| alerts ::= <[k := new]> |>) inc created d1 ->
  found_or_opened now c svc env fp d inc created.
Proof.
  intros Hkey Hk Hu Hpl.
  assert (correlates_nowhere now c svc env fp (d <| uuid_supply ::= f |> <| alerts ::= <[k := new]> |>)
          -> correlates_nowhere now c svc env fp d) as Hno.
  { intros H He n Hc. apply (H He n). by apply correlates_unlinked. }
  destruct Hpl as [i r Hi Ho _ _ Hc|i r Hi Ho Hck Hn|key r -> Hsel -> Hn].
  - destruct (Hkey _ _ Hi) as [<- _]. exists r. apply correlates_unlinked in Hc; [|done..].
    split_and!; [done|done|by left].
  - destruct (Hkey _ _ Hi) as [<- _]. exists r. split_and!; [done|done|right; auto].
  - cbn. split_and!; [|done|auto|].
    + destruct (incidents d !! _) eqn:E; [|done]. destruct (Hkey _ _ E). lia.
    + intros m s Hm Ho Hs. pose proof (find_rows_None _ _ _ _ Hsel Hm) as Hf.
      unfold is_open_with_key in Hf. by rewrite Ho, bool_decide_eq_true_2 in Hf.
Qed.

Lemma incident_for_run now c svc env fp d inc created d1 :
  (forall i r, incidents d !! i = Some r -> i_id r = i) ->
  _incident_for config now c svc env
    (decide (ic_correlation_engine config) (alert_context now c fp svc env)
       (find_open_incident_candidates svc env now (ic_candidate_lookback_seconds config) d)) d
    = Ok ((inc, created), d1) ->
  placed now c svc env fp d inc created d1.
Proof.
  intros Hkey Hr. unfold _incident_for in Hr.
  set (cs := find_open_incident_candidates _ _ _ _ _) in *.
  set (dec := decide _ _ cs) in *.
  case_bool_decide as Hd.
  - destruct (decide_matched _ _ _ Hd) as (cand & Hin & Hm & Hth). fold dec in Hm.
    rewrite Hm in Hr. tx_inv.
    match goal with H : touch_incident_updated_at _ _ _ = _ |- _ => apply touch_run in H as [-> ->] end.
    pose proof Hin as Hin'. apply candidate_spec in Hin'
      as (k & i & m & a & latest & Hk & -> & Hs & He & Ho & _).
    simpl in *. pose proof (Hkey _ _ Hk) as Hid. rewrite Hid in *.
    simplify_eq. eapply placed_correlated; [done..|]. eexists. by split_and!.
  - destruct (decide_opening now c svc env fp d Hd) as [Hkeyo Hnone].
    fold cs dec in Hkeyo.
    case_bool_decide; [by tx_inv|]. apply get_or_create_run in Hr. destruct created.
    + destruct Hr as (-> & Hsel & ->). by eapply placed_new.
    + destruct Hr as [-> Hsel]. unfold _select_open_incident in Hsel.
      apply find_rows_Some in Hsel as [[k Hk] Hp]. unfold is_open_with_key in Hp.
      apply andb_true_iff in Hp as [?%bool_decide_eq_true ?]. eapply placed_adopted; [done|done|congruence|done].
Qed.

(** Everything but alerts, incidents, outbox, ledger and supply stays. *)
Definition others_same (d d' : db) : Prop :=
  d' = d <| uuid_supply := uuid_supply d' |> <| outbox_events := outbox_events d' |>
         <| processed_commands := processed_commands d' |> <| alerts := alerts d' |>
         <| incidents := incidents d' |>
  /\ (uuid_supply d <= uuid_supply d')%N.

(** The ledger gets the command's result, once. *)
Definition recorded_as (c : AlertReceivedCommand) (res : AlertReceivedResult) (d d' : db) : Prop :=
  processed_commands d !! (COMMAND_TYPE_ALERT_RECEIVED, cmd_idempotency_key c) = None
  /\ processed_commands d' =
       <[(COMMAND_TYPE_ALERT_RECEIVED, cmd_idempotency_key c) := res]> (processed_commands d).

(** What the command did to the alerts and incidents, per branch. *)
Inductive alert_effect (now : instant) (c : AlertReceivedCommand) (fp : string) (d d' : db)
    : AlertReceivedResult -> Prop :=
| ae_known a x :
    cmd_external_id c = Some x -> find_episode (cmd_source c) x d = Some a ->
    (cmd_status c = ALERT_RESOLVED -> a_status a = ALERT_RESOLVED) ->
    alerts d' = alerts d -> incidents d' = incidents d -> outbox_events d' = outbox_events d ->
    alert_effect now c fp d d'
      {| ar_alert_id := a_id a; ar_incident_id := a_incident_id a; ar_incident_created := false;
         ar_incident_status := _incident_status (a_incident_id a) d |}
| ae_attached svc env inc created d1 new :
    cmd_status c = FIRING /\ service c = Ok svc /\ environment c = Ok env ->
    new = new_alert now (uuid_supply d) c fp FIRING None ->
    episode_taken new d = false ->
    placed now c svc env fp (d <| uuid_supply ::= N.succ |> <| alerts ::= <[a_id new := new]> |>)
      inc created d1 ->
    alerts d' = <[a_id new := new <| a_incident_id := Some (i_id inc) |>]> (alerts d) ->
    incidents d' = incidents d1 -> (uuid_supply d1 <= uuid_supply d')%N ->
    alert_effect now c fp d d'
      {| ar_alert_id := a_id new; ar_incident_id := Some (i_id inc);
         ar_incident_created := created;
         ar_incident_status := Some (IncidentStatus_value (i_status inc)) |}
| ae_unmatched new :
    cmd_status c = ALERT_RESOLVED ->
    new = new_alert now (uuid_supply d) c fp ALERT_RESOLVED (Some now) ->
    episode_taken new d = false ->
    alerts d' = <[a_id new := new]> (alerts d) -> incidents d' = incidents d ->
    (uuid_supply d < uuid_supply d')%N ->
    alert_effect now c fp d d'
      {| ar_alert_id := a_id new; ar_incident_id := None; ar_incident_created := false;
         ar_incident_status := None |}
| ae_resolved a n inc inc' :
    cmd_status c = ALERT_RESOLVED ->
    (forall x, cmd_external_id c = Some x -> find_episode (cmd_source c) x d = Some a) ->
    alerts d !! a_id a = Some a -> a_status a = FIRING -> a_incident_id a = Some n ->
    incidents d !! n = Some inc ->
    alerts d' = <[a_id a := a <| a_status := ALERT_RESOLVED |> <| a_resolved_at := Some now |>]>
                  (alerts d) ->
    incidents d' = <[n := inc']> (incidents d) ->
    inc' = (if bool_decide (count_firing d' (i_id inc) = 0)
               && bool_decide (i_status inc = TRIAGING)
            then inc <| i_status := CANCELLED |> <| i_version := i_version inc + 1 |>
                     <| i_updated_at := now |> <| i_closed_at := Some now |>
            else inc) ->
    alert_effect now c fp d d'
      {| ar_alert_id := a_id a; ar_incident_id := Some n; ar_incident_created := false;
         ar_incident_status := Some (IncidentStatus_value (i_status inc')) |}.

Definition alert_run (now : instant) (c : AlertReceivedCommand) (fp : string) (d d' : db)
    (res : AlertReceivedResult) : Prop :=
  others_same d d' /\ recorded_as c res d d' /\ alert_effect now c fp d d' res.

#[export] Instance others_same_preorder : PreOrder others_same.
Proof.
  split.
  - intros d. split; [by destruct d|lia].
  - intros d1 d2 d3 [H1 ?] [H2 ?]. split; [|lia]. rewrite H2 at 1. rewrite H1. done.
Qed.

Lemma others_alerts f d : others_same d (d <| alerts ::= f |>).
Proof. split; [by destruct d|simpl; lia]. Qed.
Lemma others_incidents f d : others_same d (d <| incidents ::= f |>).
Proof. split; [by destruct d|simpl; lia]. Qed.
Lemma others_ledger f d : others_same d (d <| processed_commands ::= f |>).
Proof. split; [by destruct d|simpl; lia]. Qed.
Lemma others_supply d : others_same d (d <| uuid_supply ::= N.succ |>).
Proof. split; [by destruct d|simpl; lia]. Qed.

Lemma quiet_others d d' : quiet d d' -> others_same d d'.
Proof. intros [H ?]. split; [|done]. rewrite H. by destruct d. Qed.

(** The tables a quiet transaction leaves to the alert commands. *)
Lemma quiet_alert_tables d d' :
  quiet d d' -> alerts d' = alerts d /\ incidents d' = incidents d
                /\ processed_commands d' = processed_commands d.
Proof. intros [-> _]. done. Qed.

Lemma placed_tables now c svc env fp d inc created d1 :
  placed now c svc env fp d inc created d1 ->
  others_same d d1 /\ alerts d1 = alerts d /\ processed_commands d1 = processed_commands d.
Proof.
  intros []; (split; [|done]); [apply others_incidents|reflexivity|].
  etransitivity; [apply others_supply|apply others_incidents].
Qed.

Lemma attach_run now c fp svc env alert dec inc created d res d' :
  _attach now c fp svc env alert dec inc created d = Ok (res, d') ->
  alerts d !! a_id alert = Some alert ->
  res = {| ar_alert_id := a_id alert; ar_incident_id := Some (i_id inc);
           ar_incident_created := created;
           ar_incident_status := Some (IncidentStatus_value (i_status inc)) |}
  /\ others_same d d' /\ recorded_as c res d d'
  /\ alerts d' = <[a_id alert := alert <| a_incident_id := Some (i_id inc) |>]> (alerts d)
  /\ incidents d' = incidents d.
Proof.
  intros Hr Ha. unfold _attach in Hr. tx_inv.
  match goal with H : link_alert_to_incident _ _ _ = _ |- _ =>
    apply link_run in H as (a & Hl & ->) end.
  assert (a = alert) as -> by congruence.
  match goal with H : _finalize _ _ _ = _ |- _ => apply finalize_ledger in H as [Hn ->] end.
  match goal with H : (if created then _ else _) ?d1 = Ok (_, ?d2) |- _ =>
    assert (quiet d1 d2) as Hq by (destruct created; by eapply quiet_outbox); clear H end.
  quiet_runs.
  match goal with H1 : quiet ?a ?b, H2 : quiet ?b ?e |- _ =>
    assert (quiet a e) as Hqq by (by transitivity b); clear H1 H2 end.
  pose proof (quiet_alert_tables _ _ Hqq) as (Eal & Ein & Epc). simpl in Eal, Ein, Epc.
  split; [done|]. split.
  - etransitivity; [apply others_alerts|]. etransitivity; [apply quiet_others, Hqq|].
    apply others_ledger.
  - unfold recorded_as; simpl. rewrite Eal, Ein, Epc in *. by split_and!.
Qed.

Lemma firing_run now c fp svc env d res d' :
  (forall i r, incidents d !! i = Some r -> i_id r = i) -> cmd_status c = FIRING ->
  service c = Ok svc -> environment c = Ok env ->
  _process_alert_firing config now c fp svc env d = Ok (res, d') ->
  alert_run now c fp d d' res.
Proof.
  intros Hkey Hf Hsvc Henv Hr. unfold _process_alert_firing in Hr. tx_inv.
  match goal with H : insert_alert_or_get_existing _ _ _ _ = Ok (?p, _) |- _ =>
    destruct p as [alert existed]; apply insert_alert_run in H; rename H into Hins end.
  cbv zeta in Hins. rewrite Hf in Hins. destruct existed; tx_inv.
  - destruct Hins as [-> (x & Hx & Hfind)].
    match goal with H : _finalize _ _ _ = _ |- _ => apply finalize_ledger in H as [Hn ->] end.
    split; [etransitivity; [apply others_supply|apply others_ledger]|]. split; [done|].
    assert (cmd_status c = ALERT_RESOLVED -> a_status alert = ALERT_RESOLVED) as Hno by congruence.
    match goal with |- alert_effect _ _ _ _ ?d2 _ =>
      exact (ae_known now c fp d d2 alert x Hx Hfind Hno eq_refl eq_refl eq_refl) end.
  - destruct Hins as (-> & Htaken & ->).
    match goal with H : _incident_for _ _ _ _ _ _ _ = Ok (?p, _) |- _ =>
      destruct p as [inc created]; apply incident_for_run in H; [|exact Hkey]; rename H into Hpl end.
    destruct (placed_tables _ _ _ _ _ _ _ _ _ Hpl) as (Hsame & Hal & Hpc). simpl in Hal, Hpc.
    apply attach_run in Hr as (-> & Ho & [Hn Hrec] & Ha' & Hi'); [|by rewrite Hal; apply lookup_insert_eq].
    split; [etransitivity; [|exact Ho]; etransitivity; [|exact Hsame];
            etransitivity; [apply others_supply|apply others_alerts]|].
    split; [by rewrite Hpc in Hn; split; [|rewrite Hrec, Hpc]|].
    eapply ae_attached; try done; [by rewrite Ha', Hal, insert_insert_eq|apply Ho].
Qed.

Lemma most_recent_in l a : most_recent l = Some a -> a ∈ l.
Proof.
  induction l as [|b l IH]; [done|]. cbn [most_recent foldr]. fold (most_recent l).
  destruct (most_recent l); [case_match|]; intros [= <-]; constructor; auto.
Qed.

Lemma find_alert_run c fp d found d1 :
  find_alert_to_resolve c fp d = Ok (found, d1) ->
  d1 = d /\ match found with
            | None => True
            | Some a => (exists k, alerts d !! k = Some a)
                /\ (forall x, cmd_external_id c = Some x -> find_episode (cmd_source c) x d = Some a)
                /\ (a_status a = ALERT_RESOLVED ->
                      exists x, cmd_external_id c = Some x /\ find_episode (cmd_source c) x d = Some a)
            end.
Proof.
  unfold find_alert_to_resolve. intros Hr. destruct (cmd_external_id c) as [x|]; tx_inv.
  - split; [done|]. destruct (find_episode _ x d) as [a|] eqn:E; [|done].
    split; [by apply find_rows_Some in E as [? _]|]. split; [congruence|]. intros _. by exists x.
  - split; [done|]. destruct (most_recent _) as [a|] eqn:E; [|done].
    apply most_recent_in, list_elem_of_In, filter_In in E as [Hin Hres].
    split; [by apply elem_of_rows, list_elem_of_In|]. split; [done|]. unfold resolvable in Hres.
    rewrite !andb_true_iff, !bool_decide_eq_true in Hres. destruct Hres as [[_ ?] _]. congruence.
Qed.

Lemma cancel_run now inc n d u d' :
  cancel_if_silent now inc n d = Ok (u, d') -> incidents d !! i_id inc = Some inc ->
  others_same d d' /\ alerts d' = alerts d /\ processed_commands d' = processed_commands d
  /\ incidents d' = <[i_id inc :=
       if bool_decide (n = 0) && bool_decide (i_status inc = TRIAGING)
       then inc <| i_status := CANCELLED |> <| i_version := i_version inc + 1 |>
                <| i_updated_at := now |> <| i_closed_at := Some now |>
       else inc]> (incidents d).
Proof.
  unfold cancel_if_silent, transition_with_event, transition_incident_status,
    status_changed_event, put_incident. intros Hr Hi.
  case_match; [|tx_inv; split_and!; [reflexivity|done|done|by rewrite insert_id]].
  tx_inv. rewrite Hi in *. simpl in *. rewrite Z.eqb_refl in *. tx_inv. quiet_runs.
  match goal with H : quiet _ _ |- _ =>
    pose proof (quiet_others _ _ H); apply quiet_alert_tables in H as (-> & -> & ->) end.
  split; [etransitivity; [apply others_incidents|eassumption]|]. by split_and!.
Qed.

Lemma finish_run c alert d res d' :
  _finish_resolution c alert d = Ok (res, d') ->
  res = {| ar_alert_id := a_id alert; ar_incident_id := a_incident_id alert;
           ar_incident_created := false; ar_incident_status := _incident_status (a_incident_id alert) d |}
  /\ recorded_as c res d d' /\ others_same d d' /\ alerts d' = alerts d /\ incidents d' = incidents d
  /\ outbox_events d' = outbox_events d.
Proof.
  unfold _finish_resolution. intros Hr. tx_inv.
  match goal with H : _finalize _ _ _ = _ |- _ => apply finalize_ledger in H as [Hn ->] end.
  do 2 (split; [done|]). split; [apply others_ledger|]. by split_and!.
Qed.

Lemma unmatched_run now c fp d alert d1 :
  insert_unlinked_resolved_alert now c fp d = Ok (alert, d1) ->
  alert = new_alert now (uuid_supply d) c fp ALERT_RESOLVED (Some now)
  /\ episode_taken alert d = false
  /\ d1 = d <| uuid_supply ::= N.succ |> <| alerts ::= <[a_id alert := alert]> |>.
Proof.
  unfold insert_unlinked_resolved_alert, put_alert. intros Hr. tx_inv.
  case_match eqn:Et; tx_inv. apply negb_true_iff in Et. by split_and!.
Qed.

Lemma resolved_run now c fp d res d' :
  (forall i r, incidents d !! i = Some r -> i_id r = i) ->
  (forall i a, alerts d !! i = Some a -> a_id a = i) -> cmd_status c = ALERT_RESOLVED ->
  _process_alert_resolved now c fp d = Ok (res, d') ->
  alert_run now c fp d d' res.
Proof.
  intros Hkey Hakey Hc Hr. unfold _process_alert_resolved, mark_alert_resolved, put_alert,
    count_firing_alerts in Hr. tx_inv.
  match goal with H : find_alert_to_resolve _ _ _ = _ |- _ =>
    apply find_alert_run in H as [-> Hfound] end.
  match type of Hfound with match ?f with _ => _ end => destruct f as [a|] end.
  2:{ tx_inv. match goal with H : insert_unlinked_resolved_alert _ _ _ _ = _ |- _ =>
        apply unmatched_run in H as (-> & Ht & ->) end.
      apply finish_run in Hr as (-> & [Hn Hrec] & Ho & Ha & Hi & _).
      split; [etransitivity; [apply others_supply|]; etransitivity; [apply others_alerts|exact Ho]|].
      split; [done|]. eapply ae_unmatched; try done. destruct Ho as [_ Ho]. simpl in Ho. lia. }
  destruct Hfound as ([k Hk] & Hep & Hres). pose proof (Hakey _ _ Hk) as Hid. subst k.
  case_bool_decide as Hst; tx_inv.
  - destruct (Hres Hst) as (x & Hx & Hf).
    apply finish_run in Hr as (-> & Hrec & Ho & Ha & Hi & Hout).
    split; [done|]. split; [done|]. by eapply ae_known.
  - assert (a_status a = FIRING) as Hfi by (by destruct (a_status a)).
    match goal with H : a_incident_id _ = Some ?n, H2 : incidents _ !! ?n = Some ?i |- _ =>
      simpl in H, H2; rename H into Hlink; rename H2 into Hinc; rename i into inc; rename n into n0 end.
    pose proof (Hkey _ _ Hinc) as Hn. subst n0. quiet_runs.
    match goal with H : quiet _ _ |- _ =>
      pose proof (quiet_others _ _ H) as Hq; apply quiet_alert_tables in H as (Qa & Qi & Qp) end.
    simpl in Qa, Qi, Qp.
    match goal with H : cancel_if_silent _ _ _ _ = _ |- _ =>
      apply cancel_run in H as (Co & Ca & Cp & Ci); [|by rewrite Qi] end.
    rewrite Qi in Ci. rewrite Qa in Ca. rewrite Qp in Cp.
    apply finish_run in Hr as (-> & [Fn Frec] & Fo & Fa & Fi & _).
    rewrite Ca in Fa. rewrite Ci in Fi. rewrite Cp in Fn, Frec.
    match type of Hq with others_same ?m _ =>
      assert (forall i, count_firing m i = count_firing d' i) as Hcount
        by (intros i; apply count_firing_ext; by rewrite Fa) end.
    rewrite Hcount in Ci, Fi. simpl in Frec |- *. rewrite Hlink in *.
    unfold _incident_status in *. rewrite Ci, lookup_insert_eq in *.
    split; [etransitivity; [apply others_alerts|]; etransitivity; [exact Hq|];
            etransitivity; [exact Co|exact Fo]|].
    split; [done|]. by eapply ae_resolved.
Qed.

Lemma process_run now c fp d res d' :
  AInv d -> _process_alert_received config now c fp d = Ok (res, d') -> alert_run now c fp d d' res.
Proof.
  intros HI Hr. unfold _process_alert_received in Hr. tx_inv.
  destruct (cmd_status c) eqn:E.
  - eapply firing_run; [|done|done|done|exact Hr]. intros i r Hi. by apply (ai_incidents _ HI) in Hi as [? _].
  - eapply resolved_run; [| |done|exact Hr].
    + intros i r Hi. by apply (ai_incidents _ HI) in Hi as [? _].
    + intros i a Hi. by apply (ai_alerts _ HI) in Hi as [? _].
Qed.

Lemma race_run n now c fp d res d' :
  AInv d -> processed_commands d !! (COMMAND_TYPE_ALERT_RECEIVED, cmd_idempotency_key c) = None ->
  race_loop config n now c fp d = Ok (res, d') -> alert_run now c fp d d' res.
Proof.
  intros HI Hn. induction n as [|n IH]; [done|]. cbn [race_loop].
  destruct (_process_alert_received config now c fp d) as [[r d1]|e] eqn:E.
  - intros [= <- <-]. by apply process_run.
  - destruct e; try done. rewrite Hn. exact IH.
Qed.

Lemma handle_run now c d res d' :
  AInv d -> handle_alert_received config now c d = Ok (res, d') ->
  match processed_commands d !! (COMMAND_TYPE_ALERT_RECEIVED, cmd_idempotency_key c) with
  | Some r => res = r /\ d' = d
  | None => alert_run now c (compute_fingerprint (cmd_source c) (cmd_labels c)) d d' res
  end.
Proof.
  unfold handle_alert_received, get_processed_command. intros HI Hr. tx_inv.
  destruct (processed_commands d !! _) eqn:E; [by tx_inv|]. by apply race_run in Hr.
Qed.
End Runs.

(** ** The invariant *)

Lemma AInv_same d d' :
  AInv d -> alerts d' = alerts d -> incidents d' = incidents d ->
  (uuid_supply d <= uuid_supply d')%N -> AInv d'.
Proof.
  intros [H1 H2 H3 H4 H5 H6] Ha Hi Hn. constructor; rewrite ?Ha, ?Hi; try done.
  - intros i a Hl. destruct (H1 _ _ Hl). split; [done|lia].
  - intros i r Hl. destruct (H2 _ _ Hl). split; [done|lia].
Qed.

Lemma AInv_alert_put d d' a :
  AInv d -> alerts d' = <[a_id a := a]> (alerts d) -> incidents d' = incidents d ->
  (uuid_supply d <= uuid_supply d')%N -> (a_id a < uuid_supply d')%N ->
  (forall n, a_incident_id a = Some n -> is_Some (incidents d !! n)) ->
  (a_status a = FIRING -> is_Some (a_incident_id a)) ->
  (forall j b x, alerts d !! j = Some b -> a_external_id a = Some x -> a_external_id b = Some x ->
     a_source a = a_source b -> j = a_id a) ->
  AInv d'.
Proof.
  intros [H1 H2 H3 H4 H5 H6] Ha Hi Hn Hid Hl Hf He. constructor; rewrite ?Ha, ?Hi; try done.
  - intros i b [[<- <-]|[_ Hb]]%lookup_insert_Some; [done|]. destruct (H1 _ _ Hb). split; [done|lia].
  - intros i r Hr. destruct (H2 _ _ Hr). split; [done|lia].
  - intros i b n [[<- <-]|[_ Hb]]%lookup_insert_Some; eauto.
  - intros i b [[<- <-]|[_ Hb]]%lookup_insert_Some; eauto.
  - intros i j b e x [[<- <-]|[Hne Hb]]%lookup_insert_Some [[<- <-]|[Hne' Hb']]%lookup_insert_Some
      Hx Hx' Hs; [done|symmetry; by eapply He|by eapply He|by eapply (H5 i j b e)].
Qed.

Lemma AInv_incident_put d d' r :
  AInv d -> alerts d' = alerts d -> incidents d' = <[i_id r := r]> (incidents d) ->
  (uuid_supply d <= uuid_supply d')%N -> (i_id r < uuid_supply d')%N ->
  (forall j s, incidents d !! j = Some s -> i_correlation_key r = i_correlation_key s ->
     incident_open r = true -> incident_open s = true -> j = i_id r) ->
  AInv d'.
Proof.
  intros [H1 H2 H3 H4 H5 H6] Ha Hi Hn Hid Ho. constructor; rewrite ?Ha, ?Hi; try done.
  - intros i b Hb. destruct (H1 _ _ Hb). split; [done|lia].
  - intros i s [[<- <-]|[_ Hs]]%lookup_insert_Some; [done|]. destruct (H2 _ _ Hs). split; [done|lia].
  - intros i b n Hb Hl. apply lookup_insert_is_Some'. right. by eapply H3.
  - intros i j s t [[<- <-]|[Hne Hs]]%lookup_insert_Some [[<- <-]|[Hne' Ht]]%lookup_insert_Some
      Hk Hos Hot; [done|symmetry; by eapply Ho|eapply Ho; by eauto|by eapply (H6 i j s t)].
Qed.

(** A row whose key, and openness at most, is the old row's. *)
Lemma AInv_incident_update d d' n old new :
  AInv d -> alerts d' = alerts d -> incidents d !! n = Some old ->
  incidents d' = <[n := new]> (incidents d) -> (uuid_supply d <= uuid_supply d')%N ->
  i_id new = i_id old -> i_correlation_key new = i_correlation_key old ->
  (incident_open new = true -> incident_open old = true) -> AInv d'.
Proof.
  intros HI Ha Hn Hi Hs Hid Hk Ho. destruct (ai_incidents _ HI _ _ Hn) as [Hkey Hlt].
  eapply (AInv_incident_put d d' new); eauto; [by rewrite Hid, Hkey|rewrite Hid, Hkey; lia|].
  intros j s Hj Hks Hon Hos. rewrite Hid, Hkey.
  apply (ai_open _ HI j n s old Hj Hn); [congruence|done|by apply Ho].
Qed.

Lemma episode_free a d j b x :
  episode_taken a d = false -> alerts d !! j = Some b -> a_external_id a = Some x ->
  a_external_id b = Some x -> a_source a = a_source b -> j = a_id a.
Proof.
  unfold episode_taken. intros Ht Hj Hx Hb Hs. rewrite Hx in Ht.
  pose proof (existsb_rows_false _ _ _ _ Ht Hj) as Hf. unfold is_episode in Hf.
  by rewrite Hb, Hs, !bool_decide_eq_true_2 in Hf.
Qed.

Lemma placed_incidents {HA : Hashing} config now c svc env fp d inc created d1 :
  (forall i r, incidents d !! i = Some r -> i_id r = i /\ (i < uuid_supply d)%N) ->
  (forall i j r s, incidents d !! i = Some r -> incidents d !! j = Some s ->
     i_correlation_key r = i_correlation_key s -> incident_open r = true ->
     incident_open s = true -> i = j) ->
  placed config now c svc env fp d inc created d1 ->
  incidents d1 = <[i_id inc := inc]> (incidents d) /\ (i_id inc < uuid_supply d1)%N
  /\ (uuid_supply d <= uuid_supply d1)%N /\ incident_open inc = true
  /\ (forall j s, incidents d !! j = Some s -> i_correlation_key inc = i_correlation_key s ->
        incident_open s = true -> j = i_id inc)
  /\ (created = false -> exists old, incidents d !! i_id inc = Some old
        /\ inc = old <| i_updated_at := i_updated_at inc |> /\ incident_open old = true)
  /\ (created = true -> incidents d !! i_id inc = None /\ i_status inc = TRIAGING
        /\ i_attempt_count inc = 0).
Proof.
  intros Hkey Hopen [k i Hk Ho _ _ _|k i Hk Ho _ _|key i -> Hsel _ _].
  - destruct (Hkey _ _ Hk) as [<- Hlt]. simpl. split_and!; try done; [|by eauto].
    intros j s Hj Hks Hos. by eapply (Hopen j (i_id i) s i).
  - destruct (Hkey _ _ Hk) as [<- Hlt]. split_and!; try done; [by rewrite insert_id| |].
    + intros j s Hj Hks Hos. by eapply (Hopen j (i_id i) s i).
    + intros _. exists i. split_and!; [done|by destruct i|done].
  - simpl. split_and!; try done; [lia|lia| |].
    + intros j s Hj Hks Hos. exfalso.
      pose proof (find_rows_None _ _ _ _ Hsel Hj) as Hf. unfold is_open_with_key in Hf.
      by rewrite Hos, bool_decide_eq_true_2 in Hf.
    + intros _. split; [|done]. destruct (incidents d !! uuid_supply d) eqn:E; [|done].
      destruct (Hkey _ _ E). lia.
Qed.

Lemma alert_run_AInv {HA : Hashing} config now c fp d d' res :
  AInv d -> alert_run config now c fp d d' res -> AInv d'.
Proof.
  intros HI ([_ Hn] & _ & He).
  destruct He as [a x _ _ _ Ha Hi _|svc env inc created d1 new [Hf _] -> Ht Hpl Ha Hi Hn1
                 |new Hs -> Ht Ha Hi Hn1|a n inc inc' Hs _ Hl Hfi Hlink Hinc Ha Hi Hinc'].
  - by eapply AInv_same.
  - set (new := new_alert now (uuid_supply d) c fp FIRING None) in *.
    apply placed_incidents in Hpl as (Hi1 & Hlt & Hle & Ho & Hu & _ & _).
    2:{ intros i r Hr. destruct (ai_incidents _ HI _ _ Hr). simpl. split; [done|lia]. }
    2:{ apply (ai_open _ HI). }
    simpl in Hi1, Hle. assert (uuid_supply d < uuid_supply d')%N as Hlt' by lia.
    assert (AInv (d' <| alerts := alerts d |>)) as HI'.
    { apply (AInv_incident_put d _ inc); simpl; [done|done|by rewrite Hi|lia|lia|].
      intros j s Hj Hk _ Hos. by eapply Hu. }
    apply (AInv_alert_put _ d' (new <| a_incident_id := Some (i_id inc) |>) HI'); simpl;
      [done|done|lia|done| |by eexists|].
    + intros n [= <-]. rewrite Hi, Hi1, lookup_insert_eq. by eexists.
    + intros j b x Hj Hx Hb Hsrc. by eapply (episode_free new d).
  - eapply (AInv_alert_put d); eauto; [done..|]. intros j b x Hj Hx Hb Hsrc. by eapply episode_free.
  - assert (AInv (d' <| alerts := alerts d |>)) as HI'.
    { destruct (ai_incidents _ HI _ _ Hinc) as [Hid _].
      eapply (AInv_incident_update d); simpl; eauto; subst inc'; case_match; try done. }
    eapply AInv_alert_put; [exact HI'|exact Ha|done|done| | | |].
    + simpl. destruct (ai_alerts _ HI _ _ Hl). lia.
    + simpl. rewrite Hlink, Hi. intros m [= <-]. rewrite lookup_insert_eq. by eexists.
    + done.
    + simpl. intros j b x Hj Hx Hb Hsrc. by eapply (ai_episode _ HI j (a_id a) b a).
Qed.
