(* ===== verification/IncidentSafety.v ===== *)
(** * Safety of the alert commands

    The alert and evidence commands as steps, interleaved with transactions of other
    services that leave the alerts, the ledger and the evidence references alone and
    reopen no incident ([bystander]); what holds in every database they reach. *)
From S2P Require Import Prelude PyFloat Json Enums Correlation VerificationDomain Catalog.
From S2P Require Import RemediationDomain Policy Store TxLogic RemediationLifecycle.
From S2P Require Import RemediationService RemediationProofs IncidentRepository AlertIdentity.
From S2P Require Import IncidentService IncidentProofs.
Local Open Scope Z_scope.
Import Engine.

(** One step of a transaction, when the first command's outcome is known. *)
Lemma bind_step {A B} (m : Tx A) (k : A -> Tx B) d a d' :
  m d = Ok (a, d') -> (m ≫= k) d = k a d'.
Proof. intros H. unfold mbind, Tx_bind. by rewrite H. Qed.

Section Safety.
Context {HA : Hashing}.
Context (config : IncidentConfig).

(** A command as alert-ingestion can build it: its validators passed. *)
Definition valid (c : AlertReceivedCommand) : Prop := alert_received_command c = Ok c.

Inductive alert_command (d : db) : db -> Prop :=
| ac_alert now c : valid c ->
    alert_command d (atomically (handle_alert_received config now c) d).2
| ac_evidence now c : alert_command d (atomically (register_evidence_ref now c) d).2.

Definition bystander (d d' : db) : Prop :=
  alerts d' = alerts d /\ processed_commands d' = processed_commands d
  /\ evidence_refs d' = evidence_refs d /\ (uuid_supply d <= uuid_supply d')%N
  /\ (forall i, is_Some (incidents d !! i) -> is_Some (incidents d' !! i))
  /\ (forall i r', incidents d' !! i = Some r' -> exists r, incidents d !! i = Some r
        /\ i_id r' = i_id r /\ i_correlation_key r' = i_correlation_key r
        /\ (incident_open r' = true -> incident_open r = true)).

Inductive alert_step (d : db) : db -> Prop :=
| as_command d' : alert_command d d' -> alert_step d d'
| as_other d' : bystander d d' -> alert_step d d'.

Definition alerted (d : db) : Prop := rtc alert_step empty_db d.

Lemma register_run now c d r d' :
  register_evidence_ref now c d = Ok (r, d') ->
  is_Some (incidents d !! re_incident_id c)
  /\ ((rr_newly_registered r = true /\ evidence_refs d !! re_evidence_id c = None
       /\ evidence_refs d' = <[re_evidence_id c := evidence_row c]> (evidence_refs d)
       /\ alerts d' = alerts d /\ incidents d' = incidents d
       /\ processed_commands d' = processed_commands d /\ (uuid_supply d <= uuid_supply d')%N)
      \/ (rr_newly_registered r = false /\ d' = d
          /\ exists e, evidence_refs d !! re_evidence_id c = Some e
               /\ er_content_hash e = re_content_hash c /\ er_incident_id e = re_incident_id c)).
Proof.
  unfold register_evidence_ref, insert_evidence_ref. intros Hr. tx_inv.
  split; [by eexists|].
  match goal with H : context [evidence_refs d !! er_id _] |- _ =>
    cbn [evidence_row er_id] in H; destruct (evidence_refs d !! re_evidence_id c) as [e|] eqn:E end;
    tx_inv; simpl in Hr.
  - tx_inv. right. case_match eqn:Eb; [by tx_inv|]. tx_inv.
    split; [done|]. split; [done|]. eexists. split; [done|].
    apply orb_false_iff in Eb as [E1 E2]. rewrite negb_false_iff, bool_decide_eq_true in E1, E2.
    simplify_eq. done.
  - tx_inv. left. quiet_runs.
    match goal with H : quiet _ _ |- _ => destruct H as [-> Hn] end. simpl in *. by split_and!.
Qed.

Lemma AInv_bystander d d' : AInv d -> bystander d d' -> AInv d'.
Proof.
  intros [H1 H2 H3 H4 H5 H6] (Ha & _ & _ & Hn & Hk & Hi). constructor; rewrite ?Ha; try done.
  - intros i a Hl. destruct (H1 _ _ Hl). split; [done|lia].
  - intros i r' Hl. destruct (Hi _ _ Hl) as (r & Hr & -> & _). destruct (H2 _ _ Hr). split; [done|lia].
  - intros i a n Hl Hlink. apply Hk. by eapply H3.
  - intros i j r' s' Hr' Hs' Hks Hor Hos.
    destruct (Hi _ _ Hr') as (r & Hr & _ & Kr & Or), (Hi _ _ Hs') as (s & Hs & _ & Ks & Os).
    eapply (H6 i j r s); eauto. congruence.
Qed.

Lemma AInv_empty : AInv empty_db.
Proof. constructor; simpl; intros *; rewrite ?lookup_empty; done. Qed.

(** A command either changes nothing or runs to its effect. *)
Lemma alert_command_run now c d :
  AInv d ->
  (atomically (handle_alert_received config now c) d).2 = d
  \/ exists res d', handle_alert_received config now c d = Ok (res, d')
       /\ (atomically (handle_alert_received config now c) d).2 = d'
       /\ alert_run config now c (compute_fingerprint (cmd_source c) (cmd_labels c)) d d' res.
Proof.
  intros HI. unfold atomically.
  destruct (handle_alert_received config now c d) as [[res d']|e] eqn:E; [|by left].
  pose proof (handle_run _ _ _ _ _ _ HI E) as Hrun. case_match; [left; by destruct Hrun|].
  right. eauto 10.
Qed.

Lemma evidence_command_run now c d :
  let d' := (atomically (register_evidence_ref now c) d).2 in
  alerts d' = alerts d /\ incidents d' = incidents d /\ processed_commands d' = processed_commands d
  /\ (uuid_supply d <= uuid_supply d')%N
  /\ (forall i e, evidence_refs d !! i = Some e -> evidence_refs d' !! i = Some e).
Proof.
  cbv zeta. unfold atomically.
  destruct (register_evidence_ref now c d) as [[r d']|e] eqn:E; simpl; [|by split_and!].
  destruct (register_run _ _ _ _ _ E) as [_ [(_ & Hnew & He & Ha & Hi & Hp & Hn)|(_ & -> & _)]];
    [|by split_and!].
  split_and!; try done. intros i e Hi'. rewrite He. rewrite lookup_insert_ne; [done|congruence].
Qed.

Lemma AInv_step d d' : AInv d -> alert_step d d' -> AInv d'.
Proof.
  intros HI [d1 [now c Hv|now c]|d1 Hb]; [| |by eapply AInv_bystander].
  - destruct (alert_command_run now c d HI) as [->|(res & d2 & _ & -> & Hrun)]; [done|].
    by eapply alert_run_AInv.
  - destruct (evidence_command_run now c d) as (Ha & Hi & _ & Hn & _). by eapply AInv_same.
Qed.

Lemma AInv_steps d d' : AInv d -> rtc alert_step d d' -> AInv d'.
Proof. intros HI Hr. induction Hr; eauto using AInv_step. Qed.

Lemma alerted_AInv d : alerted d -> AInv d.
Proof. apply AInv_steps, AInv_empty. Qed.

(** The ledger and the evidence references only grow. *)
Lemma records_step d d' :
  AInv d -> alert_step d d' ->
  (forall k r, processed_commands d !! k = Some r -> processed_commands d' !! k = Some r)
  /\ (forall i e, evidence_refs d !! i = Some e -> evidence_refs d' !! i = Some e).
Proof.
  intros HI [d1 [now c Hv|now c]|d1 (_ & -> & -> & _)]; [| |done].
  - destruct (alert_command_run now c d HI) as [->|(res & d2 & _ & -> & [Ho _] & [Hn Hr] & _)]; [done|].
    split.
    + intros k r Hk. rewrite Hr, lookup_insert_ne; [done|congruence].
    + rewrite Ho. done.
  - by destruct (evidence_command_run now c d) as (_ & _ & -> & _ & ?).
Qed.

Lemma records_kept d d' :
  AInv d -> rtc alert_step d d' ->
  (forall k r, processed_commands d !! k = Some r -> processed_commands d' !! k = Some r)
  /\ (forall i e, evidence_refs d !! i = Some e -> evidence_refs d' !! i = Some e).
Proof.
  intros HI Hr. induction Hr as [|d d1 d2 Hs _ IH]; [done|].
  destruct (records_step _ _ HI Hs), (IH (AInv_step _ _ HI Hs)). split; auto.
Qed.

(** C21: alerts and incidents stay consistent.  In every reachable database a firing
    alert is linked to an incident that exists, a source's external id names at most
    one alert, and at most one open incident has any correlation key. *)
Theorem alerts_and_incidents_agree d :
  alerted d ->
  (forall i a, alerts d !! i = Some a -> a_status a = FIRING ->
     exists n r, a_incident_id a = Some n /\ incidents d !! n = Some r)
  /\ (forall i j a b x, alerts d !! i = Some a -> alerts d !! j = Some b ->
        a_source a = a_source b -> a_external_id a = Some x -> a_external_id b = Some x -> i = j)
  /\ (forall i j r s, incidents d !! i = Some r -> incidents d !! j = Some s ->
        i_correlation_key r = i_correlation_key s -> incident_open r = true ->
        incident_open s = true -> i = j).
Proof.
  intros HI%alerted_AInv. split_and!.
  - intros i a Hi Hf. destruct (ai_firing _ HI _ _ Hi Hf) as [n Hn].
    destruct (ai_linked _ HI _ _ _ Hi Hn) as [r Hr]. eauto.
  - intros i j a b x Hi Hj Hs Hx Hy. by eapply (ai_episode _ HI i j a b x).
  - apply (ai_open _ HI).
Qed.

(** An answer is recorded under the key of its command, and given to every later
    command with that key. *)
Lemma answer_is_recorded now c d res d1 :
  AInv d -> handle_alert_received config now c d = Ok (res, d1) ->
  processed_commands d1 !! (COMMAND_TYPE_ALERT_RECEIVED, cmd_idempotency_key c) = Some res.
Proof.
  intros HI Hh. pose proof (handle_run _ _ _ _ _ _ HI Hh) as Hrun. case_match eqn:E.
  - by destruct Hrun as [-> ->].
  - destruct Hrun as (_ & [_ ->] & _). apply lookup_insert_eq.
Qed.

Lemma recorded_answer now c d res :
  processed_commands d !! (COMMAND_TYPE_ALERT_RECEIVED, cmd_idempotency_key c) = Some res ->
  handle_alert_received config now c d = Ok (res, d).
Proof.
  intros Hl. unfold handle_alert_received, get_processed_command, mbind, Tx_bind, reads. by rewrite Hl.
Qed.

Lemma handled_step now c d res d1 :
  valid c -> handle_alert_received config now c d = Ok (res, d1) -> alert_command d d1.
Proof. intros Hv Hh. pose proof (ac_alert d now c Hv) as Hc. unfold atomically in Hc. by rewrite Hh in Hc. Qed.

Lemma answered_again now c d res d1 d2 now2 c2 :
  AInv d -> valid c -> handle_alert_received config now c d = Ok (res, d1) ->
  rtc alert_step d1 d2 -> cmd_idempotency_key c2 = cmd_idempotency_key c ->
  handle_alert_received config now2 c2 d2 = Ok (res, d2).
Proof.
  intros HI Hv Hh Hr Hk. apply recorded_answer. rewrite Hk.
  eapply records_kept; [|exact Hr|by eapply answer_is_recorded].
  eapply AInv_step; [exact HI|]. by eapply as_command, handled_step.
Qed.

(** A command is processed once.  Once a command was answered, every later command
    with its idempotency key, in every later state and whatever else it says, is
    answered with that very result and changes nothing. *)
Theorem command_is_processed_once now c d res d1 d2 now2 c2 :
  alerted d -> valid c -> handle_alert_received config now c d = Ok (res, d1) ->
  rtc alert_step d1 d2 -> cmd_idempotency_key c2 = cmd_idempotency_key c ->
  handle_alert_received config now2 c2 d2 = Ok (res, d2).
Proof. intros Hd%alerted_AInv. by apply answered_again. Qed.

(** No alert of the incident fires. *)
Definition silent (d : db) (n : uuid) : Prop :=
  forall i a, alerts d !! i = Some a -> a_incident_id a = Some n -> a_status a <> FIRING.

Lemma count_firing_silent d n : count_firing d n = 0 <-> silent d n.
Proof.
  unfold count_firing. split.
  - intros Hc i a Hi Hn Hf.
    assert (In a (List.filter (firing_of n) (rows (alerts d)))) as Hin.
    { apply filter_In. split; [apply list_elem_of_In, elem_of_rows; eauto|]. unfold firing_of.
      by rewrite Hn, Hf, !bool_decide_eq_true_2. }
    destruct (List.filter _ _); [done|]. cbn [length] in Hc. lia.
  - intros Hs. destruct (List.filter _ _) as [|a l] eqn:E; [done|].
    assert (In a (List.filter (firing_of n) (rows (alerts d)))) as Hin by (rewrite E; by left).
    apply filter_In in Hin as [[i Hi]%list_elem_of_In%elem_of_rows Hf]. unfold firing_of in Hf.
    rewrite andb_true_iff, !bool_decide_eq_true in Hf. destruct Hf as [Hn Hf].
    exfalso. by apply (Hs i a Hi Hn).
Qed.

(** What an effect does to one incident that exists. *)
Lemma effect_on_incident now c fp d d' res n r r' :
  AInv d -> alert_effect config now c fp d d' res ->
  incidents d !! n = Some r -> incidents d' !! n = Some r' ->
  r' = r <| i_updated_at := i_updated_at r' |>
  \/ (i_status r = TRIAGING /\ i_status r' = CANCELLED /\ i_closed_at r' = Some now /\ silent d' n).
Proof.
  intros HI He Hr Hr'. assert (forall q : IncidentRow, q = q <| i_updated_at := i_updated_at q |>) as Hid
    by (intros []; done).
  destruct He as [a x _ _ _ _ Hi _|svc env inc created d1 new _ -> _ Hpl _ Hi _|new _ -> _ _ Hi _
                 |a m inc inc' _ _ _ _ _ Hinc _ Hi Hinc'].
  - left. rewrite Hi in Hr'. simplify_eq. apply Hid.
  - apply placed_incidents in Hpl as (Hi1 & _ & _ & _ & _ & Hold & Hnew).
    2:{ intros i q Hq. destruct (ai_incidents _ HI _ _ Hq). simpl. split; [done|lia]. }
    2:{ apply (ai_open _ HI). }
    simpl in Hi1, Hold. rewrite Hi, Hi1 in Hr'. left.
    apply lookup_insert_Some in Hr' as [[Hn <-]|[_ Hr']]; [|simplify_eq; apply Hid].
    destruct created.
    + destruct Hnew as [Hnew _]; [done|]. simpl in Hnew. rewrite Hn in Hnew. congruence.
    + destruct Hold as (old & Ho & -> & _); [done|]. simpl in Hn. simplify_eq. by simpl.
  - left. rewrite Hi in Hr'. simplify_eq. apply Hid.
  - rewrite Hi in Hr'. apply lookup_insert_Some in Hr' as [[-> <-]|[_ Hr']];
      [|left; simplify_eq; apply Hid]. simplify_eq.
    destruct (ai_incidents _ HI _ _ Hinc) as [Hkey _].
    case_match eqn:E; [|left; apply Hid]. right.
    rewrite andb_true_iff, !bool_decide_eq_true in E. destruct E as [Hc Hs].
    split_and!; try done. rewrite <-Hkey. by apply count_firing_silent.
Qed.

(** Alerts end an incident only when all is silent.  An alert or evidence command
    leaves the status of every incident, except that a TRIAGING incident becomes
    CANCELLED, and then it is closed and none of its alerts fires any more. *)
Theorem alerts_cancel_only_silent_triage d d' n r r' :
  alerted d -> alert_command d d' ->
  incidents d !! n = Some r -> incidents d' !! n = Some r' ->
  i_status r' = i_status r
  \/ (i_status r = TRIAGING /\ i_status r' = CANCELLED /\ i_closed_at r' <> None /\ silent d' n).
Proof.
  intros Hd%alerted_AInv Hc Hr Hr'. destruct Hc as [now c Hv|now c].
  - destruct (alert_command_run now c d Hd) as [E|(res & d2 & _ & E & _ & _ & He)].
    + rewrite E in Hr'. left. congruence.
    + rewrite E in Hr' |- *. destruct (effect_on_incident _ _ _ _ _ _ _ _ _ Hd He Hr Hr')
        as [->|(? & ? & -> & ?)]; [by left|right; by split_and!].
  - destruct (evidence_command_run now c d) as (_ & Hi & _). rewrite Hi in Hr'. left. congruence.
Qed.

(** An evidence reference is immutable.  Once one was registered, every later
    registration of its id is answered as known when it says the same incident and
    content hash, and is refused otherwise; either way nothing changes. *)
Theorem evidence_reference_is_immutable now c d r d1 d2 now2 c2 :
  alerted d -> register_evidence_ref now c d = Ok (r, d1) -> rtc alert_step d1 d2 ->
  re_evidence_id c2 = re_evidence_id c -> is_Some (incidents d2 !! re_incident_id c2) ->
  evidence_refs d2 !! re_evidence_id c = evidence_refs d1 !! re_evidence_id c
  /\ register_evidence_ref now2 c2 d2 =
       if bool_decide (re_content_hash c2 = re_content_hash c)
          && bool_decide (re_incident_id c2 = re_incident_id c)
       then Ok ({| rr_evidence_id := re_evidence_id c; rr_incident_id := re_incident_id c;
                   rr_newly_registered := false |}, d2)
       else Err (EvidenceRefConflictError (str_uuid (re_evidence_id c))).
Proof.
  intros Hd%alerted_AInv Hc Hr Hid [i Hi].
  assert (AInv d1) as Hd1.
  { apply (AInv_step d); [done|]. pose proof (ac_evidence d now c) as Hs. unfold atomically in Hs.
    rewrite Hc in Hs. by apply as_command. }
  assert (exists e, evidence_refs d1 !! re_evidence_id c = Some e
            /\ er_content_hash e = re_content_hash c /\ er_incident_id e = re_incident_id c)
    as (e & He & Hh & Hn).
  { destruct (register_run _ _ _ _ _ Hc) as [_ [(_ & _ & -> & _)|(_ & -> & He)]]; [|done].
    eexists. by rewrite lookup_insert_eq. }
  destruct (records_kept _ _ Hd1 Hr) as [_ Hk]. apply Hk in He as He2. split; [congruence|].
  unfold register_evidence_ref, insert_evidence_ref.
  rewrite (bind_step _ _ d2 (Some i) d2) by (unfold reads; by rewrite Hi).
  rewrite (bind_step _ _ d2 i d2) by done.
  rewrite (bind_step _ _ d2 false d2).
  2:{ cbn [evidence_row er_id]. by rewrite (bind_step _ _ d2 (Some e) d2)
        by (unfold reads; by rewrite Hid, He2). }
  cbv zeta. cbn [negb]. rewrite (bind_step _ _ d2 (Some e) d2) by (unfold reads; by rewrite Hid, He2).
  rewrite (bind_step _ _ d2 e d2) by done. rewrite Hh, Hn, Hid.
  repeat case_bool_decide; cbn [negb orb andb]; unfold mret, Tx_ret, raise; congruence.
Qed.
End Safety.
