(* ===== verification/IncidentProgress.v ===== *)
(** * The alert commands always answer

    Every branch of [handle_alert_received] runs to a result in a consistent database:
    its assertions hold, its inserts find their keys free and no race is lost.  What a
    firing and a resolved notification leave behind follows from their effects. *)
From S2P Require Import Prelude PyFloat Json Enums Correlation VerificationDomain Catalog.
From S2P Require Import RemediationDomain Policy Store TxLogic RemediationLifecycle.
From S2P Require Import RemediationService RemediationProofs IncidentRepository AlertIdentity.
From S2P Require Import IncidentService IncidentProofs IncidentSafety.
Local Open Scope Z_scope.
Import Engine.

(** [m] runs from [d] to a state with the same ledger in which [P] holds. *)
Definition runs {A} (m : Tx A) (d : db) (P : A -> db -> Prop) : Prop :=
  exists a d', m d = Ok (a, d') /\ processed_commands d' = processed_commands d /\ P a d'.

Lemma runs_bind {A B} (m : Tx A) (k : A -> Tx B) d P Q :
  runs m d P -> (forall a d', P a d' -> runs (k a) d' Q) -> runs (m ≫= k) d Q.
Proof.
  intros (a & d1 & Hm & H1 & HP) Hk. destruct (Hk a d1 HP) as (b & d2 & Hr & H2 & HQ).
  exists b, d2. split; [by apply bind_Ok; eauto|]. split; [congruence|done].
Qed.

Lemma runs_ret {A} (a : A) d (P : A -> db -> Prop) : P a d -> runs (mret a : Tx A) d P.
Proof. intros HP. by exists a, d. Qed.
Lemma runs_reads {A} (f : db -> A) d (P : A -> db -> Prop) : P (f d) d -> runs (reads f) d P.
Proof. intros HP. by exists (f d), d. Qed.
Lemma runs_must {A} (o : option A) e d a (P : A -> db -> Prop) :
  o = Some a -> P a d -> runs (must o e) d P.
Proof. intros -> HP. by exists a, d. Qed.
Lemma runs_writes f d (P : () -> db -> Prop) :
  processed_commands (f d) = processed_commands d -> P () (f d) -> runs (writes f) d P.
Proof. intros Hf HP. by exists (), (f d). Qed.
Lemma runs_uuid4 d (P : uuid -> db -> Prop) :
  P (uuid_supply d) (d <| uuid_supply ::= N.succ |>) -> runs uuid4 d P.
Proof. intros HP. by eexists _, _. Qed.
Lemma runs_outbox now et at_ ai ci p d (P : () -> db -> Prop) :
  (forall d', quiet d d' -> P () d') -> runs (insert_outbox_event now et at_ ai ci p) d P.
Proof.
  intros HP. assert (exists d', insert_outbox_event now et at_ ai ci p d = Ok ((), d')) as [d' Hr]
    by (by eexists).
  exists (), d'. split; [done|]. pose proof (quiet_outbox _ _ _ _ _ _ _ _ _ Hr) as Hq.
  split; [by apply quiet_alert_tables in Hq as (_ & _ & ?)|auto].
Qed.

Lemma answers_bind {A B} (m : Tx A) (k : A -> Tx B) d P :
  runs m d P ->
  (forall a d', P a d' -> processed_commands d' = processed_commands d -> total (k a) d') ->
  total (m ≫= k) d.
Proof.
  intros (a & d1 & Hm & H1 & HP) Hk. destruct (Hk a d1 HP H1) as (b & d2 & Hr).
  exists b, d2. apply bind_Ok. eauto.
Qed.

Section Progress.
Context {HA : Hashing}.
Context (config : IncidentConfig).

Lemma insert_alert_runs now c fp d (P : AlertRow * bool -> db -> Prop) :
  (forall row existed d1, insert_alert_or_get_existing now c fp d = Ok ((row, existed), d1) ->
     P (row, existed) d1) ->
  runs (insert_alert_or_get_existing now c fp) d P.
Proof.
  intros HP. assert (exists p d', insert_alert_or_get_existing now c fp d = Ok (p, d')
    /\ processed_commands d' = processed_commands d) as ([row existed] & d' & Hr & Hpc).
  { unfold insert_alert_or_get_existing, mbind at 1, Tx_bind at 1, uuid4.
    destruct (cmd_external_id c) as [x|] eqn:Ex; [|by do 2 eexists].
    set (d1 := d <| uuid_supply ::= N.succ |>).
    unfold mbind at 1, Tx_bind at 1, reads.
    set (row := new_alert _ _ _ _ _ _). destruct (episode_taken row d1) eqn:Et; [|by do 2 eexists].
    assert (exists a, find_episode (cmd_source c) x d1 = Some a) as [a Ha].
    { unfold episode_taken in Et. cbn [row new_alert a_external_id a_source] in Et. rewrite Ex in Et.
      apply existsb_find in Et. unfold find_episode. destruct (List.find _ _); [eauto|done]. }
    cbn [negb]. unfold mbind at 1, Tx_bind at 1. rewrite Ha. by do 2 eexists. }
  exists (row, existed), d'. auto.
Qed.

Lemma get_or_create_runs now key sev svc env d (P : IncidentRow * bool -> db -> Prop) :
  (forall p d1, get_or_create_open_incident now key sev svc env d = Ok (p, d1) -> P p d1) ->
  runs (get_or_create_open_incident now key sev svc env) d P.
Proof.
  intros HP. assert (exists p d', get_or_create_open_incident now key sev svc env d = Ok (p, d')
    /\ processed_commands d' = processed_commands d) as (p & d' & Hr & Hpc); [|by exists p, d'; auto].
  unfold get_or_create_open_incident, insert_open_incident, mbind at 1, Tx_bind at 1, reads at 1.
  destruct (_select_open_incident key d) as [row|] eqn:E; [by do 2 eexists|].
  pose proof (find_existsb _ _ E) as Hex.
  unfold mbind at 1, Tx_bind at 1, uuid4. unfold mbind at 1, Tx_bind at 1.
  unfold mbind at 1, Tx_bind at 1, reads at 1. cbn [new_incident i_correlation_key].
  change (incidents (d <| uuid_supply ::= N.succ |>)) with (incidents d). rewrite Hex.
  by do 2 eexists.
Qed.

Lemma incident_for_runs now c svc env fp d (P : IncidentRow * bool -> db -> Prop) :
  (forall i r, incidents d !! i = Some r -> i_id r = i) -> ic_candidate_lookback_seconds config <> 0 ->
  (forall inc created d1, placed config now c svc env fp d inc created d1 -> P (inc, created) d1) ->
  runs (_incident_for config now c svc env
          (decide (ic_correlation_engine config) (alert_context now c fp svc env)
             (find_open_incident_candidates svc env now (ic_candidate_lookback_seconds config) d))) d P.
Proof.
  intros Hkey Hlb HP.
  enough (exists p d', _incident_for config now c svc env
          (decide (ic_correlation_engine config) (alert_context now c fp svc env)
             (find_open_incident_candidates svc env now (ic_candidate_lookback_seconds config) d)) d
          = Ok (p, d') /\ processed_commands d' = processed_commands d)
    as ([inc created] & d' & Hr & Hpc).
  { exists (inc, created), d'. split; [done|]. split; [done|]. apply HP.
    by eapply incident_for_run. }
  unfold _incident_for. case_bool_decide as Hd.
  - destruct (decide_matched _ _ _ Hd) as (cand & Hin & Hm & _). rewrite Hm.
    apply candidate_spec in Hin as (k & i & m & a & latest & Hk & -> & _).
    pose proof (Hkey _ _ Hk) as Hid. cbn [candidate_of incident_id]. rewrite Hid.
    unfold mbind at 1, Tx_bind at 1. cbn [must mret Tx_ret].
    unfold mbind at 1, Tx_bind at 1, mret, Tx_ret, reads. unfold mbind at 1, Tx_bind at 1.
    rewrite Hk. by do 2 eexists.
  - rewrite bool_decide_eq_false_2 by done.
    destruct (get_or_create_runs now (new_incident_key config now
      (decide (ic_correlation_engine config) (alert_context now c fp svc env)
         (find_open_incident_candidates svc env now (ic_candidate_lookback_seconds config) d)))
      (cmd_severity c) svc env d (fun _ _ => True)) as (p & d' & Hr & Hpc & _); [done|eauto].
Qed.

(** The ledger's entry is written when the key is free. *)
Lemma ledger_answers c res d :
  processed_commands d !! (COMMAND_TYPE_ALERT_RECEIVED, cmd_idempotency_key c) = None ->
  total (_finalize c res ;; mret res) d.
Proof.
  intros Hn. unfold total, _finalize, insert_processed_command, get_processed_command, mbind,
    Tx_bind, reads. rewrite Hn. by do 2 eexists.
Qed.

Lemma finish_answers c alert d :
  processed_commands d !! (COMMAND_TYPE_ALERT_RECEIVED, cmd_idempotency_key c) = None ->
  total (_finish_resolution c alert) d.
Proof.
  intros Hn. unfold _finish_resolution.
  apply (answers_bind _ _ _ (fun _ _ => True)); [by apply runs_reads|].
  intros a d' _ Hpc. cbv zeta. apply ledger_answers. by rewrite Hpc.
Qed.

Lemma attach_answers now c fp svc env alert dec inc created d :
  processed_commands d !! (COMMAND_TYPE_ALERT_RECEIVED, cmd_idempotency_key c) = None ->
  alerts d !! a_id alert = Some alert ->
  total (_attach now c fp svc env alert dec inc created) d.
Proof.
  intros Hn Ha. unfold _attach.
  apply (answers_bind _ _ _ (fun _ _ => True)).
  { unfold link_alert_to_incident. eapply runs_bind; [by apply (runs_reads _ _ (fun a d' => a = Some alert /\ d' = d))|].
    intros a d' [-> ->]. eapply runs_bind; [by eapply (runs_must _ _ _ _ (fun a d' => d' = d))|].
    intros a d' ->. by apply runs_writes. }
  intros u d1 _ E1. apply (answers_bind _ _ _ (fun _ _ => True)); [by apply runs_outbox|].
  intros u2 d2 _ E2. apply (answers_bind _ _ _ (fun _ _ => True));
    [destruct created; by apply runs_outbox|].
  intros u3 d3 _ E3. apply ledger_answers. by rewrite E3, E2, E1.
Qed.

Lemma firing_answers now c fp svc env d :
  AInv d -> ic_candidate_lookback_seconds config <> 0 -> cmd_status c = FIRING ->
  processed_commands d !! (COMMAND_TYPE_ALERT_RECEIVED, cmd_idempotency_key c) = None ->
  total (_process_alert_firing config now c fp svc env) d.
Proof.
  intros HI Hlb Hf Hn. unfold _process_alert_firing.
  apply (answers_bind _ _ _ (fun p d1 => insert_alert_or_get_existing now c fp d = Ok (p, d1)));
    [by apply insert_alert_runs|].
  intros [alert existed] d1 Hins E1. apply insert_alert_run in Hins. cbv zeta in Hins.
  rewrite <-E1 in Hn. destruct existed.
  - apply (answers_bind _ _ _ (fun _ _ => True)); [by apply runs_reads|].
    intros st d2 _ E2. apply ledger_answers. by rewrite E2.
  - destruct Hins as (-> & _ & ->).
    match goal with |- total _ ?d1 => set (d2 := d1) in * end.
    apply (answers_bind _ _ _ (fun a d' => a = find_open_incident_candidates svc env now
             (ic_candidate_lookback_seconds config) d2 /\ d' = d2)); [by apply runs_reads|].
    intros cs d3 [-> ->] _. cbv zeta.
    apply (answers_bind _ _ _ (fun p d3 => placed config now c svc env fp d2 p.1 p.2 d3)).
    + apply incident_for_runs; [|done|done].
      intros i r Hi. by apply (ai_incidents _ HI) in Hi as [? _].
    + intros [inc created] d3 Hpl E3. cbn in Hpl.
      destruct (placed_tables _ _ _ _ _ _ _ _ _ _ Hpl) as (_ & Hal & _).
      apply attach_answers; [by rewrite E3|]. rewrite Hal. apply lookup_insert_eq.
Qed.

Lemma cancel_runs now inc n d :
  incidents d !! i_id inc = Some inc ->
  runs (cancel_if_silent now inc n) d (fun _ _ => True).
Proof.
  intros Hi. unfold cancel_if_silent. case_match; [|by apply runs_ret].
  unfold transition_with_event, transition_incident_status, put_incident.
  eapply runs_bind; [|intros a d' _; by apply runs_ret].
  eapply runs_bind.
  - eapply runs_bind; [by apply (runs_reads _ _ (fun a d' => a = Some inc /\ d' = d))|].
    intros a d' [-> ->]. rewrite Z.eqb_refl.
    eapply runs_bind; [by apply (runs_writes _ _ (fun _ _ => True))|].
    intros u d' _. by apply (runs_ret _ _ (fun a _ => is_Some a)).
  - intros o d' [inc' ->]. cbv beta.
    eapply runs_bind; [by apply (runs_outbox _ _ _ _ _ _ _ (fun _ _ => True))|].
    intros u d2 _. by apply (runs_ret _ _ (fun _ _ => True)).
Qed.

Lemma resolved_answers now c fp d :
  AInv d -> cmd_status c = ALERT_RESOLVED ->
  processed_commands d !! (COMMAND_TYPE_ALERT_RECEIVED, cmd_idempotency_key c) = None ->
  total (_process_alert_resolved now c fp) d.
Proof.
  intros HI Hs Hn. unfold _process_alert_resolved.
  apply (answers_bind _ _ _ (fun f d1 => find_alert_to_resolve c fp d = Ok (f, d1))).
  { unfold runs, find_alert_to_resolve. destruct (cmd_external_id c); by do 2 eexists. }
  intros found d1 Hf _. pose proof (find_alert_run _ _ _ _ _ Hf) as [-> Hfound].
  destruct found as [a|].
  - destruct Hfound as ([k Hk] & _ & Hres). destruct (ai_alerts _ HI _ _ Hk) as [Hid _].
    case_bool_decide as Hst; [by apply finish_answers|].
    assert (a_status a = FIRING) as Hfi by (by destruct (a_status a)).
    destruct (ai_firing _ HI _ _ Hk Hfi) as [n Hlink].
    destruct (ai_linked _ HI _ _ _ Hk Hlink) as [inc Hinc].
    destruct (ai_incidents _ HI _ _ Hinc) as [Hkey _].
    set (a' := a <| a_status := ALERT_RESOLVED |> <| a_resolved_at := Some now |>).
    set (d1 := d <| alerts ::= <[a_id a' := a']> |>).
    apply (answers_bind _ _ _ (fun x d' => x = a' /\ d' = d1)).
    { unfold mark_alert_resolved, put_alert. eapply runs_bind; [by apply (runs_writes _ _ (fun _ d' => d' = d1))|].
      intros u d' ->. by apply runs_ret. }
    intros x d' [-> ->] _.
    apply (answers_bind _ _ _ (fun x d' => x = n /\ d' = d1)); [by eapply runs_must|].
    intros x d' [-> ->] _.
    apply (answers_bind _ _ _ (fun x d' => x = Some inc /\ d' = d1)); [by apply runs_reads|].
    intros x d' [-> ->] _.
    apply (answers_bind _ _ _ (fun x d' => x = inc /\ d' = d1)); [by eapply runs_must|].
    intros x d' [-> ->] _.
    apply (answers_bind _ _ _ (fun x d' => d' = d1)); [by apply runs_reads|].
    intros rem d' -> _.
    apply (answers_bind _ _ _ (fun _ d' => quiet d1 d')); [by apply runs_outbox|].
    intros u d2 Hq E2. apply quiet_alert_tables in Hq as (_ & Hi2 & _).
    apply (answers_bind _ _ _ (fun _ _ => True)); [apply cancel_runs; by rewrite Hi2, Hkey|].
    intros u2 d3 _ E3. apply finish_answers. by rewrite E3, E2.
  - apply (answers_bind _ _ _ (fun _ _ => True)); [|intros a d1 _ E1; apply finish_answers; by rewrite E1].
    unfold insert_unlinked_resolved_alert, put_alert.
    eapply runs_bind; [by apply (runs_uuid4 _ (fun i d' => d' = d <| uuid_supply ::= N.succ |>))|].
    intros i d1 ->. cbv zeta.
    eapply runs_bind; [apply (runs_reads _ _ (fun t d' => t = false))|].
    + unfold find_alert_to_resolve in Hf. unfold episode_taken. cbn [new_alert a_external_id a_source].
      destruct (cmd_external_id c) as [x|]; [|done]. apply reads_Ok in Hf as [Hf _].
      by apply find_existsb.
    + intros t d1 ->. cbn [negb].
      eapply runs_bind; [by apply (runs_writes _ _ (fun _ _ => True))|].
      intros u d2 _. by apply runs_ret.
Qed.

Lemma valid_labels c :
  valid c -> exists svc env, service c = Ok svc /\ environment c = Ok env.
Proof.
  unfold valid, alert_received_command, _require_service_and_environment, service, environment,
    label_of. case_match; [|done]. simpl.
  destruct (cmd_labels c !! "service"), (cmd_labels c !! "environment"); simpl; eauto;
    repeat case_match; done.
Qed.

Lemma handle_answers now c d :
  AInv d -> valid c -> ic_candidate_lookback_seconds config <> 0 ->
  total (handle_alert_received config now c) d.
Proof.
  intros HI Hv Hlb. unfold handle_alert_received.
  apply (answers_bind _ _ _ (fun r d' => r = processed_commands d !!
           (COMMAND_TYPE_ALERT_RECEIVED, cmd_idempotency_key c) /\ d' = d)); [by apply runs_reads|].
  intros r d' [-> ->] _. destruct (processed_commands d !! _) as [r|] eqn:En; [apply total_ret|].
  enough (total (_process_alert_received config now c
                     (compute_fingerprint (cmd_source c) (cmd_labels c))) d) as (r & d' & Hr).
  { exists r, d'. cbn [race_loop _MAX_IDEMPOTENCY_RACE_RETRIES]. by rewrite Hr. }
  destruct (valid_labels c Hv) as (svc & env & Hsvc & Henv). unfold _process_alert_received.
  apply (answers_bind _ _ _ (fun x d' => x = svc /\ d' = d)); [rewrite Hsvc; by exists svc, d|].
  intros x d' [-> ->] _.
  apply (answers_bind _ _ _ (fun x d' => x = env /\ d' = d)); [rewrite Henv; by exists env, d|].
  intros x d' [-> ->] _. destruct (cmd_status c) eqn:Es;
    [by apply firing_answers|by apply resolved_answers].
Qed.

(** No notification is refused.  In every reachable database every valid command is
    answered: no assertion fails, no unique index is violated and the retry loop is
    never exhausted. *)
Theorem notifications_are_answered now c d :
  alerted config d -> valid c -> ic_candidate_lookback_seconds config <> 0 ->
  exists res d', handle_alert_received config now c d = Ok (res, d').
Proof. intros Hd%alerted_AInv Hv Hlb. by apply handle_answers. Qed.

(** C18: no new firing alert is lost.  A valid firing notification, of an episode not
    seen before and under a key not processed before, is answered (when the look-back is
    not zero) with a new alert that fires and is linked to an open incident.  That is an
    open incident of which a candidate alert scores at least the threshold, only its
    [updated_at] being set; or, when there is none, the open incident that has the key
    of the alert and the current bucket, unchanged; or, when there is none of these
    either, a new TRIAGING incident with that key and the alert's service, environment
    and severity.  Every other alert and incident stays. *)
Theorem firing_alert_is_attached now c d :
  alerted config d -> valid c -> ic_candidate_lookback_seconds config <> 0 ->
  cmd_status c = FIRING ->
  processed_commands d !! (COMMAND_TYPE_ALERT_RECEIVED, cmd_idempotency_key c) = None ->
  (forall x, cmd_external_id c = Some x -> find_episode (cmd_source c) x d = None) ->
  exists svc env res d' a n r,
    service c = Ok svc /\ environment c = Ok env
    /\ handle_alert_received config now c d = Ok (res, d')
    /\ alerts d !! ar_alert_id res = None /\ alerts d' !! ar_alert_id res = Some a
    /\ a_status a = FIRING /\ a_incident_id a = Some n /\ ar_incident_id res = Some n
    /\ incidents d' !! n = Some r /\ i_id r = n /\ incident_open r = true
    /\ found_or_opened config now c svc env (compute_fingerprint (cmd_source c) (cmd_labels c)) d
         r (ar_incident_created res)
    /\ (forall i, i <> ar_alert_id res -> alerts d' !! i = alerts d !! i)
    /\ (forall i, i <> n -> incidents d' !! i = incidents d !! i).
Proof.
  intros Hd%alerted_AInv Hv Hlb Hf Hn Hnew.
  destruct (handle_answers now c d Hd Hv Hlb) as (res & d' & Hr).
  pose proof (handle_run _ _ _ _ _ _ Hd Hr) as Hrun. rewrite Hn in Hrun.
  destruct Hrun as (_ & _ & He).
  destruct He as [a x Hx Hfind _ _ _ _|svc env inc created d1 new (_ & Hsvc & Henv) -> _ Hpl Ha Hi _
                 |new Hs _ _ _ _ _|a m inc inc' Hs _ _ _ _ _ _ _ _]; try congruence;
    [by rewrite (Hnew _ Hx) in Hfind|].
  assert (alerts d !! uuid_supply d = None) as Hfree.
  { destruct (alerts d !! uuid_supply d) eqn:E; [|done]. destruct (ai_alerts _ Hd _ _ E). lia. }
  assert (forall i r, incidents d !! i = Some r -> i_id r = i /\ (i < N.succ (uuid_supply d))%N) as Hkey.
  { intros i q Hq. destruct (ai_incidents _ Hd _ _ Hq). split; [done|lia]. }
  assert (found_or_opened config now c svc env (compute_fingerprint (cmd_source c) (cmd_labels c)) d
            inc created) as Hfound by (eapply placed_found; [exact Hkey|exact Hfree| |exact Hpl]; done).
  apply placed_incidents in Hpl as (Hi1 & _ & _ & Ho & _); [|exact Hkey|apply (ai_open _ Hd)].
  simpl in Hi1. rewrite Hi1 in Hi.
  match type of Ha with alerts d' = <[_ := ?b]> _ => exists svc, env,
    {| ar_alert_id := uuid_supply d; ar_incident_id := Some (i_id inc); ar_incident_created := created;
       ar_incident_status := Some (IncidentStatus_value (i_status inc)) |}, d', b, (i_id inc), inc end.
  cbn [ar_alert_id ar_incident_id ar_incident_created]. rewrite Ha, Hi, !lookup_insert_eq.
  split_and!; try done; intros i Hne; by rewrite lookup_insert_ne.
Qed.

(** A resolution settles its alert.  The resolved notification of a firing alert is
    answered, the alert is RESOLVED, and its incident is cancelled when it is TRIAGING
    and nothing else fires for it, and left as it is otherwise.  Every other alert and
    incident stays. *)
Theorem resolution_settles_alert now c d x a n r :
  alerted config d -> valid c -> ic_candidate_lookback_seconds config <> 0 ->
  cmd_status c = ALERT_RESOLVED -> cmd_external_id c = Some x ->
  processed_commands d !! (COMMAND_TYPE_ALERT_RECEIVED, cmd_idempotency_key c) = None ->
  find_episode (cmd_source c) x d = Some a -> a_status a = FIRING ->
  a_incident_id a = Some n -> incidents d !! n = Some r ->
  exists res d' a' r',
    handle_alert_received config now c d = Ok (res, d')
    /\ alerts d' !! a_id a = Some a' /\ a_status a' = ALERT_RESOLVED
    /\ a_resolved_at a' = Some now
    /\ incidents d' !! n = Some r'
    /\ ((i_status r = TRIAGING /\ silent d' n /\ i_status r' = CANCELLED)
        \/ (~ (i_status r = TRIAGING /\ silent d' n) /\ r' = r))
    /\ (forall i, i <> a_id a -> alerts d' !! i = alerts d !! i)
    /\ (forall i, i <> n -> incidents d' !! i = incidents d !! i).
Proof.
  intros Hd%alerted_AInv Hv Hlb Hs Hx Hn Hfind Hfi Hlink Hinc.
  destruct (handle_answers now c d Hd Hv Hlb) as (res & d' & Hr).
  pose proof (handle_run _ _ _ _ _ _ Hd Hr) as Hrun. rewrite Hn in Hrun.
  destruct Hrun as (_ & _ & He).
  destruct (find_rows_Some _ _ _ Hfind) as [[k Hk] Hep].
  destruct (ai_alerts _ Hd _ _ Hk) as [Hka _]. subst k.
  destruct (ai_incidents _ Hd _ _ Hinc) as [Hkey _].
  destruct He as [b y Hy Hfb Hb _ _ _|svc env inc created d1 new [Hs' _] _ _ _ _ _ _|new _ -> Ht _ _ _
                 |b m inc inc' _ Hb Hl _ Hlb' Hm Ha Hi Hinc'];
    [assert (y = x) as -> by congruence; specialize (Hb Hs); congruence|congruence| |].
  { unfold episode_taken in Ht. cbn [new_alert a_external_id a_source] in Ht. rewrite Hx in Ht.
    rewrite (existsb_rows_false _ _ _ _ Ht Hk) in Hep. done. }
  assert (b = a) as -> by (specialize (Hb _ Hx); congruence).
  assert (m = n) as -> by congruence. assert (inc = r) as -> by congruence.
  match type of Ha with alerts d' = <[_ := ?b]> _ => exists
    {| ar_alert_id := a_id a; ar_incident_id := Some n; ar_incident_created := false;
       ar_incident_status := Some (IncidentStatus_value (i_status inc')) |}, d', b, inc' end.
  split; [exact Hr|]. rewrite Ha, Hi. split; [apply lookup_insert_eq|].
  do 2 (split; [done|]). split; [apply lookup_insert_eq|]. split.
  - rewrite <-count_firing_silent, <-Hkey. rewrite Hinc'. destruct (base.decide (i_status r = TRIAGING)) as [Ht|Ht];
      [|right; split; [tauto|by rewrite (bool_decide_eq_false_2 _ Ht), andb_false_r]].
    rewrite (bool_decide_eq_true_2 _ Ht), andb_true_r. case_bool_decide; [by left|right; tauto].
  - split; intros i Hne; by rewrite lookup_insert_ne.
Qed.
End Progress.
