(* ===== verification/IncidentExample.v ===== *)
(** * Worked alerts

    A firing alert opens an incident, a second one joins it, both resolve; and an
    evidence reference is registered.  The runs discharge the hypotheses of the
    theorems on the alert commands. *)
From S2P Require Import Prelude PyFloat Json Enums Correlation VerificationDomain Catalog.
From S2P Require Import RemediationDomain Policy Store TxLogic RemediationLifecycle.
From S2P Require Import RemediationService RemediationExample IncidentRepository AlertIdentity.
From S2P Require Import IncidentService IncidentProofs IncidentSafety IncidentProgress.
Local Open Scope Z_scope.
Import Engine.

Definition ex_labels : labels_t :=
  list_to_map [("service", "checkout"); ("environment", "production"); ("alertname", "HighErrors")].

Definition ex_alert (key external_id : string) (status : AlertStatus) : AlertReceivedCommand :=
  {| cmd_idempotency_key := key; cmd_source := PROMETHEUS; cmd_external_id := Some external_id;
     cmd_labels := ex_labels; cmd_annotations := ∅; cmd_severity := CRITICAL; cmd_status := status;
     cmd_raw_payload := JObj [] |}.

Definition ex_receive (now : instant) (c : AlertReceivedCommand) (d : db) : db :=
  run (handle_alert_received default_incident_config now c) d.

Definition ex_fired : db := ex_receive 1000 (ex_alert "k1" "a1" FIRING) empty_db.
Definition ex_both : db := ex_receive 2000 (ex_alert "k2" "a2" FIRING) ex_fired.
Definition ex_quieter : db := ex_receive 3000 (ex_alert "k3" "a1" ALERT_RESOLVED) ex_both.
Definition ex_quiet : db := ex_receive 4000 (ex_alert "k4" "a2" ALERT_RESOLVED) ex_quieter.

Lemma ex_alert_valid key x st : nonempty key = true -> valid (ex_alert key x st).
Proof. intros Hk. unfold valid, alert_received_command. cbn [ex_alert cmd_idempotency_key]. by rewrite Hk. Qed.

Lemma ex_receive_step now key x st d :
  nonempty key = true ->
  alert_step default_incident_config d (ex_receive now (ex_alert key x st) d).
Proof. intros Hk. by apply as_command, ac_alert, ex_alert_valid. Qed.

Lemma ex_fired_alerted : alerted default_incident_config ex_fired.
Proof. apply rtc_once. by apply ex_receive_step. Qed.
Lemma ex_both_alerted : alerted default_incident_config ex_both.
Proof. eapply rtc_r; [apply ex_fired_alerted|]. by apply ex_receive_step. Qed.
Lemma ex_quieter_alerted : alerted default_incident_config ex_quieter.
Proof. eapply rtc_r; [apply ex_both_alerted|]. by apply ex_receive_step. Qed.

(** ** The theorems at the run *)

Lemma ex_lookback : ic_candidate_lookback_seconds default_incident_config <> 0.
Proof. vm_compute. discriminate. Qed.

Definition ex_incident_row (d : db) : IncidentRow :=
  default (new_incident 0 0 "" INFO "" "") (incidents d !! 2%N).
Definition ex_alert_row (i : uuid) (d : db) : AlertRow :=
  default (new_alert 0 0 (ex_alert "" "" FIRING) "" FIRING None) (alerts d !! i).

Lemma alerts_and_incidents_agree_witness :
  exists n r, a_incident_id (ex_alert_row 5 ex_quieter) = Some n /\ incidents ex_quieter !! n = Some r.
Proof.
  destruct (alerts_and_incidents_agree default_incident_config ex_quieter ex_quieter_alerted)
    as (H & _ & _).
  apply (H 5%N (ex_alert_row 5 ex_quieter)); vm_compute; reflexivity.
Defined.

Definition ex_result (now : instant) (c : AlertReceivedCommand) (d : db) : AlertReceivedResult :=
  match handle_alert_received default_incident_config now c d with
  | Ok (r, _) => r
  | Err _ => {| ar_alert_id := 0; ar_incident_id := None; ar_incident_created := false;
                ar_incident_status := None |}
  end.

Definition is_ok {A} (r : result A) : bool := match r with Ok _ => true | Err _ => false end.

Lemma ex_received now c d :
  is_ok (handle_alert_received default_incident_config now c d) = true ->
  handle_alert_received default_incident_config now c d
  = Ok (ex_result now c d, ex_receive now c d).
Proof.
  unfold ex_result, ex_receive, run, atomically. destruct (handle_alert_received _ _ _ _) as [[r d']|e];
    [reflexivity|discriminate].
Qed.

(** The redelivered first notification, after both alerts fired. *)
Lemma command_is_processed_once_witness :
  handle_alert_received default_incident_config 9000 (ex_alert "k1" "other" FIRING) ex_both
  = Ok (ex_result 1000 (ex_alert "k1" "a1" FIRING) empty_db, ex_both).
Proof.
  apply (command_is_processed_once default_incident_config 1000 (ex_alert "k1" "a1" FIRING)
           empty_db _ ex_fired ex_both).
  - apply rtc_refl.
  - apply ex_alert_valid. reflexivity.
  - apply ex_received. vm_compute. reflexivity.
  - apply rtc_once. apply ex_receive_step. reflexivity.
  - reflexivity.
Defined.

Lemma alerts_cancel_only_silent_triage_witness :
  i_status (ex_incident_row ex_quiet) = CANCELLED /\ silent ex_quiet 2.
Proof.
  assert (i_status (ex_incident_row ex_quiet) = CANCELLED) as E by (vm_compute; reflexivity).
  split; [exact E|].
  destruct (alerts_cancel_only_silent_triage default_incident_config ex_quieter ex_quiet 2
              (ex_incident_row ex_quieter) (ex_incident_row ex_quiet)) as [H|(_ & _ & _ & H)].
  - exact ex_quieter_alerted.
  - apply ac_alert, ex_alert_valid. reflexivity.
  - vm_compute. reflexivity.
  - vm_compute. reflexivity.
  - rewrite E in H. vm_compute in H. discriminate H.
  - exact H.
Defined.

Lemma notifications_are_answered_witness :
  exists res d', handle_alert_received default_incident_config 9000
                   (ex_alert "k9" "a1" FIRING) ex_quieter = Ok (res, d').
Proof.
  apply (notifications_are_answered default_incident_config 9000 (ex_alert "k9" "a1" FIRING) ex_quieter).
  - exact ex_quieter_alerted.
  - apply ex_alert_valid. reflexivity.
  - exact ex_lookback.
Defined.

(** The second alert correlates with the first one and joins its incident. *)
Lemma firing_alert_is_attached_witness :
  exists res d' n r,
    handle_alert_received default_incident_config 2000 (ex_alert "k2" "a2" FIRING) ex_fired
      = Ok (res, d')
    /\ ar_incident_id res = Some n /\ incidents d' !! n = Some r /\ incident_open r = true
    /\ found_or_opened default_incident_config 2000 (ex_alert "k2" "a2" FIRING) "checkout" "production"
         (compute_fingerprint PROMETHEUS (cmd_labels (ex_alert "k2" "a2" FIRING))) ex_fired
         r (ar_incident_created res).
Proof.
  destruct (firing_alert_is_attached default_incident_config 2000 (ex_alert "k2" "a2" FIRING) ex_fired)
    as (svc & env & res & d' & a & n & r & Es & Ee & H1 & _ & _ & _ & _ & H2 & H3 & _ & H4 & H5 & _).
  - exact ex_fired_alerted.
  - apply ex_alert_valid. reflexivity.
  - exact ex_lookback.
  - reflexivity.
  - vm_compute. reflexivity.
  - intros x Hx. injection Hx as <-. vm_compute. reflexivity.
  - exists res, d', n, r. vm_compute in Es, Ee. injection Es as <-. injection Ee as <-.
    split_and!; assumption.
Defined.

Lemma resolution_settles_alert_witness :
  exists res d' a', handle_alert_received default_incident_config 4000
      (ex_alert "k4" "a2" ALERT_RESOLVED) ex_quieter = Ok (res, d')
    /\ alerts d' !! 5%N = Some a' /\ a_status a' = ALERT_RESOLVED.
Proof.
  destruct (resolution_settles_alert default_incident_config 4000 (ex_alert "k4" "a2" ALERT_RESOLVED)
              ex_quieter "a2" (ex_alert_row 5 ex_quieter) 2 (ex_incident_row ex_quieter))
    as (res & d' & a' & r' & H1 & H2 & H3 & _).
  - exact ex_quieter_alerted.
  - apply ex_alert_valid. reflexivity.
  - exact ex_lookback.
  - reflexivity.
  - reflexivity.
  - vm_compute. reflexivity.
  - vm_compute. reflexivity.
  - vm_compute. reflexivity.
  - vm_compute. reflexivity.
  - vm_compute. reflexivity.
  - exists res, d', a'. split_and!; assumption.
Defined.

(** ** An evidence reference *)

Definition ex_evidence (hash : string) : RegisterEvidenceRefCommand :=
  {| re_evidence_id := 77; re_incident_id := 2; re_investigation_id := None;
     re_evidence_type := "metrics"; re_content_hash := hash; re_source_system := "prometheus";
     re_collected_at := 1500 |}.

Definition ex_registered : db := run (register_evidence_ref 1500 (ex_evidence "h")) ex_fired.

Lemma evidence_reference_is_immutable_witness :
  register_evidence_ref 1600 (ex_evidence "h2") ex_registered
  = Err (EvidenceRefConflictError (str_uuid 77)).
Proof.
  destruct (evidence_reference_is_immutable default_incident_config 1500 (ex_evidence "h") ex_fired
              {| rr_evidence_id := 77; rr_incident_id := 2; rr_newly_registered := true |}
              ex_registered ex_registered 1600 (ex_evidence "h2")) as [_ H].
  - exact ex_fired_alerted.
  - vm_compute. reflexivity.
  - apply rtc_refl.
  - reflexivity.
  - vm_compute. eexists. reflexivity.
  - exact H.
Defined.

Lemma key_kinds_differ_witness :
  exists k, derive_alert_idempotency_key PROMETHEUS None (JObj []) FIRING 60 0 = Ok k
            /\ external_key PROMETHEUS "a1" FIRING <> k.
Proof.
  eexists. split; [reflexivity|].
  apply (key_kinds_differ PROMETHEUS "a1" (JObj []) FIRING 60 0 PROMETHEUS (JObj []) FIRING 60 0);
    [discriminate|reflexivity|reflexivity].
Defined.

(** Since the keys of [a1] resolved and of [a1:resolved] firing agree, the alert
    [a1:resolved] is answered with the resolution of [a1] and is lost. *)
Example colliding_alert_is_lost :
  external_key PROMETHEUS "a1" ALERT_RESOLVED = external_key PROMETHEUS "a1:resolved" FIRING
  /\ let k := external_key PROMETHEUS "a1" ALERT_RESOLVED in
     let d := ex_receive 3000 (ex_alert k "a1" ALERT_RESOLVED) ex_both in
     handle_alert_received default_incident_config 5000 (ex_alert k "a1:resolved" FIRING) d
     = Ok (ex_result 3000 (ex_alert k "a1" ALERT_RESOLVED) ex_both, d).
Proof. split; vm_compute; reflexivity. Qed.
