(* ===== verification/EvidenceSafety.v ===== *)
(** * What evidence-service guarantees

    What the adapters are asked stays within the scope of the incident, but for the lookup
    of a trace by its id, which is judged by what comes back; and what is returned to a
    caller is recorded, registered with incident-core, and keeps verifying. *)
From S2P Require Import Prelude PyFloat Json Enums VerificationDomain Catalog.
From S2P Require Import RemediationDomain Store TxLogic Prog RemediationService IncidentRepository.
From S2P Require Import AlertIdentity IncidentService EvidenceScope EvidenceService.
From S2P Require Import RemediationProofs IncidentSafety.
Local Open Scope Z_scope.

(** ** The scope of what is asked *)

(** A window the incident grants at [now], of at most [length]. *)
Definition timely (sc : IncidentScope) (now : instant) (length : Z) (start end_ : instant) : Prop :=
  earliest sc <= start /\ start + MIN_WINDOW <= end_ /\ end_ <= start + length /\ end_ <= now.

Definition allowed (sc : IncidentScope) (service : string) : Prop := service ∈ sc_allowed_services sc.
Definition here (sc : IncidentScope) (service environment : string) : Prop :=
  allowed sc service /\ environment = sc_environment sc.
Definition sized (n maximum : Z) : Prop := 1 <= n <= maximum.

(** What an adapter may be asked for the query [asked_for].  The adapters of the logs, the
    traces and the commits take no environment; a trace looked up by its id is whatever
    trace the caller named, and is judged by what comes back. *)
Definition in_scope (catalog : ServiceCatalog) (sc : IncidentScope) (now : instant)
    (asked_for : EvidenceQuery) (q : AdapterQuery) : Prop :=
  match q with
  | metric_window _ s e a b => here sc s e /\ timely sc now MAX_WINDOW a b
  | service_health s e t => here sc s e /\ earliest sc + MIN_WINDOW <= t <= now
  | query_logs s a b _ _ _ n =>
      allowed sc s /\ timely sc now MAX_WINDOW a b /\ sized n MAX_LOG_LINES_RETURNED
  | trace_by_id t => asked_for = get_trace t
  | search_traces s a b mode _ n =>
      allowed sc s /\ timely sc now MAX_WINDOW a b /\ mode ∈ SEARCH_MODES /\ sized n MAX_TRACES
  | deployments s e a b n =>
      here sc s e /\ timely sc now MAX_CHANGE_WINDOW a b /\ sized n MAX_DEPLOYMENTS
  | config_changes s e a b n =>
      here sc s e /\ timely sc now MAX_CHANGE_WINDOW a b /\ sized n MAX_CONFIG_CHANGES
  | code_changes s paths a b _ n =>
      allowed sc s /\ paths = repo_paths catalog s /\ timely sc now MAX_CHANGE_WINDOW a b
      /\ sized n MAX_COMMITS
  | recent_commits s paths until t n =>
      allowed sc s /\ paths = repo_paths catalog s /\ until = now /\ t = sc_created_at sc
      /\ sized n MAX_COMMITS
  | runtime_state s e t => here sc s e /\ t = now
  | search_similar i s e _ _ t n =>
      i = sc_incident_id sc /\ s = sc_service sc /\ e = sc_environment sc /\ t = sc_created_at sc
      /\ sized n MAX_SIMILAR_INCIDENTS
  end.

Lemma window_timely sc start end_ now df ml w :
  window sc start end_ now df ml = Ok w -> timely sc now ml w.1 w.2.
Proof. destruct w as [a b]. intros H. apply window_Ok in H. unfold timely. simpl. tauto. Qed.
Lemma limit_sized requested df m n : bounded_limit requested df m = Ok n -> 1 <= m -> sized n m.
Proof. intros H Hm. apply bounded_limit_Ok in H as (? & ? & _). split; [auto|lia]. Qed.

Ltac granted :=
  repeat match goal with
  | H : rbind _ _ = Ok _ |- _ => apply rbind_Ok in H as (? & ? & H)
  | H : service_or_default _ _ = Ok _ |- _ => apply service_or_default_Ok in H as [? _]
  | H : window _ _ _ _ _ _ = Ok _ |- _ => apply window_timely in H
  | H : _change_window _ _ _ _ = Ok _ |- _ => apply window_timely in H
  | H : bounded_limit _ _ _ = Ok _ |- _ => apply limit_sized in H; [|done]
  end.

Lemma plan_in_scope catalog sc now q a :
  precheck q = Ok () -> plan catalog sc now q = Ok a -> in_scope catalog sc now q a.
Proof.
  intros Hpre H. destruct q; simpl in H;
    unfold collect_metric_window, collect_service_health, collect_logs, collect_traces,
      collect_deployments, collect_config_changes, collect_code_changes, collect_recent_commits,
      collect_runtime_state, collect_similar_incidents in H;
    granted; injection H as <-; simpl; unfold here, allowed, timely in *;
    repeat match goal with |- _ /\ _ => split end; try done; try lia; try tauto.
  simpl in Hpre. by case_bool_decide.
Qed.

(** ** What was asked *)

Section Asked.
Context {HA : Hashing} (catalog : ServiceCatalog).
Variable backends : Adapters.

Definition logged_ask (q : AdapterQuery)
    : Prog ((list (AdapterQuery * result Observation) * @ad_world backends) * db) Observation := fun s =>
  let '(r, (a, d)) := @ask backends q (s.1.2, s.2) in (r, ((s.1.1 ++ [(q, r)], a), d)).
Lemma logged_ask_reads q w d : (logged_ask q (w, d)).2.2 = d.
Proof.
  unfold logged_ask. pose proof (@ask_reads backends q w.2 d) as H. simpl.
  by destruct (@ask backends q (w.2, d)) as [r [a d']].
Qed.

(** The same backends, with every query and its answer kept. *)
#[local] Instance logged_adapters : Adapters := {|
  ad_world := list (AdapterQuery * result Observation) * @ad_world backends;
  ad_clock w := let '(t, a) := @ad_clock backends w.2 in (t, (w.1, a));
  ask := logged_ask;
  ask_reads := logged_ask_reads;
|}.

Definition exchanges (s : EvidenceWorld * db) : list (AdapterQuery * result Observation) :=
  (ew_adapters s.1).1.
Definition asked (s : EvidenceWorld * db) : list AdapterQuery := (exchanges s).*1.
Definition time_at (s : EvidenceWorld * db) : instant := (@ad_clock backends (ew_adapters s.1).2).1.

(** No evidence is recorded and nothing of incident-core changes. *)
Definition unstored (s s' : EvidenceWorld * db) : Prop :=
  ew_records s'.1 = ew_records s.1 /\ s'.2 = s.2.

Lemma ev_clock_reads s :
  (ev_clock s).1 = Ok (time_at s) /\ exchanges (ev_clock s).2 = exchanges s /\ unstored s (ev_clock s).2.
Proof.
  unfold ev_clock, exchanges, time_at, unstored. simpl. by destruct (@ad_clock backends _).
Qed.
Lemma ask_adapter_asks q s :
  exchanges (ask_adapter q s).2 = exchanges s ++ [(q, (ask_adapter q s).1)]
  /\ unstored s (ask_adapter q s).2.
Proof.
  unfold ask_adapter, exchanges, unstored. simpl. unfold logged_ask. simpl.
  pose proof (@ask_reads backends q (ew_adapters s.1).2 s.2) as H.
  by destruct (@ask backends q _) as [r [a d]].
Qed.

(** Nothing more is asked. *)
Definition asks_nothing (s s' : EvidenceWorld * db) : Prop := exchanges s' = exchanges s.
#[local] Instance asks_nothing_preorder : PreOrder asks_nothing.
Proof. split; [done|]. intros s1 s2 s3. unfold asks_nothing. congruence. Qed.

Lemma clock_asks_nothing : respects asks_nothing ev_clock.
Proof. intros s. apply ev_clock_reads. Qed.
Lemma database_asks_nothing {A} (m : Prog db A) : respects asks_nothing (on_right m).
Proof. intros s. unfold on_right, asks_nothing. by destruct (m s.2). Qed.
Lemma persist_asks_nothing sc o who inv : respects asks_nothing (_persist sc o who inv).
Proof.
  unfold _persist. apply respects_bind; [tc_solve|apply clock_asks_nothing|]. intros t.
  apply respects_bind; [tc_solve|apply database_asks_nothing|]. intros id s.
  unfold insert_record, asks_nothing. by case_bool_decide.
Qed.
Lemma register_asks_nothing now r : respects asks_nothing (_register now r).
Proof.
  unfold _register. apply respects_bind; [tc_solve|apply database_asks_nothing|]. intros ?.
  apply respects_ret. tc_solve.
Qed.

Lemma rest_asks_nothing sc o who inv : respects asks_nothing (
  record ← _persist sc o who inv;
  registered_at ← ev_clock;
  _ ← _register registered_at record;
  mret (to_item record)).
Proof.
  apply respects_bind; [tc_solve|apply persist_asks_nothing|]. intros record.
  apply respects_bind; [tc_solve|apply clock_asks_nothing|]. intros t.
  apply respects_bind; [tc_solve|apply register_asks_nothing|]. intros ?.
  apply respects_ret. tc_solve.
Qed.

(** What came back for the query is about the scope: a trace that was found touches one
    of its services. *)
Definition about_scope (sc : IncidentScope) (q : EvidenceQuery) (o : Observation) : Prop :=
  match q with
  | get_trace _ =>
      truthy (jget "found" (JObj (ob_normalized_payload o))) = true ->
      exists service, JStr service ∈ services_in (ob_normalized_payload o) /\ allowed sc service
  | _ => True
  end.

Lemma postcheck_about sc q o :
  match postcheck sc q o with
  | Ok _ => about_scope sc q o
  | Err e => exists m, e = ScopeViolationError m
  end.
Proof.
  destruct q; try done. unfold postcheck, about_scope. cbv zeta.
  destruct (truthy _) eqn:Ef; [|done]. cbn [andb].
  destruct (existsb _ _) eqn:E; cbn [negb]; [|by eexists].
  intros _. apply existsb_exists in E as (s & Hin%list_elem_of_In & Hs). destruct s; try done.
  apply bool_decide_eq_true in Hs. eauto.
Qed.

(** How a query ends that asks an adapter for [a] and is answered with [answer]. *)
Definition settles (sc : IncidentScope) (q : EvidenceQuery) (answer : result Observation)
    (r : result EvidenceItem) (s s' : EvidenceWorld * db) : Prop :=
  match answer with
  | Ok o => about_scope sc q o \/ (exists m, r = Err (ScopeViolationError m)) /\ unstored s s'
  | Err e => r = Err e /\ unstored s s'
  end.

(** At most one query, within the scope. *)
Lemma run_settles i who inv q s r s' :
  _run catalog i who inv q s = (r, s') ->
  (exchanges s' = exchanges s /\ unstored s s' /\ exists e, r = Err e)
  \/ exists sc a answer, resolve_scope catalog i s.2 = Ok sc
       /\ exchanges s' = exchanges s ++ [(a, answer)]
       /\ in_scope catalog sc (time_at s) q a /\ settles sc q answer r s s'.
Proof.
  unfold _run. intros E.
  apply prog_bind_cases in E as [(e & [= _ <-] & ->)|([] & s0 & [= Hpre <-] & E)]; [by left; split_and!; [|split|eexists]|].
  apply prog_bind_cases in E as [(e & [= _ <-] & ->)|(sc & s0 & [= Hsc <-] & E)]; [by left; split_and!; [|split|eexists]|].
  destruct (ev_clock_reads s) as (Ht & Hl & [Hu1 Hu2]).
  apply prog_bind_cases in E as [(e & Ec & _)|(now & s1 & Ec & E)]; rewrite Ec in *; [done|].
  simpl in Ht, Hl, Hu1, Hu2. injection Ht as ->.
  apply prog_bind_cases in E as [(e & [= _ <-] & ->)|(a & s0 & [= Hplan <-] & E)]; [by left; split_and!; [|split|eexists]|].
  right. destruct (ask_adapter_asks a s1) as [Ha [Hv1 Hv2]].
  apply prog_bind_cases in E as [(e & Ea & ->)|(o & s2 & Ea & E)]; rewrite Ea in Ha, Hv1, Hv2;
    cbn [fst snd] in Ha, Hv1, Hv2; rewrite Hl in Ha; rewrite Hu1 in Hv1; rewrite Hu2 in Hv2.
  - exists sc, a, (Err e). split_and!; [done..|by eapply plan_in_scope|done].
  - exists sc, a, (Ok o). split; [done|]. pose proof (postcheck_about sc q o) as Hp.
    apply prog_bind_cases in E as [(e & [= He <-] & ->)|([] & s0 & [= He <-] & E)]; rewrite He in Hp.
    + split_and!; [done|by eapply plan_in_scope|]. right. destruct Hp as [m ->]. split; [eauto|done].
    + pose proof (rest_asks_nothing sc o who inv s2) as Hr. rewrite E in Hr. cbn [snd] in Hr.
      unfold asks_nothing in Hr. rewrite Hr. split_and!; [done|by eapply plan_in_scope|by left].
Qed.

Definition asks_within i q s s' : Prop :=
  asked s' = asked s
  \/ exists sc a, resolve_scope catalog i s.2 = Ok sc /\ asked s' = asked s ++ [a]
       /\ in_scope catalog sc (time_at s) q a.

Lemma run_asks i who inv q s : asks_within i q s (_run catalog i who inv q s).2.
Proof.
  destruct (_run catalog i who inv q s) as [r s'] eqn:E. unfold asks_within, asked.
  destruct (run_settles _ _ _ _ _ _ _ E) as [(He & _)|(sc & a & o & Hsc & He & Ha & _)]; cbn [snd];
    rewrite He; [by left|]. right. exists sc, a. by rewrite fmap_app.
Qed.

(** C19: queries stay in scope.  For one query the adapters are asked at most once, and as
    [in_scope] says: for a service of the incident's neighborhood (in its environment,
    where the adapter takes one), over a window, where it takes one, that neither starts
    before the look-back nor ends in the future and is neither too short nor too long,
    and for a bounded number of results, where it takes a limit.  The exception is a
    trace looked up by its id: the adapter is asked for exactly the trace named, and
    unless the trace that is found touches a service of the neighborhood the query is
    refused.  A refused query, and one the adapter fails, stores nothing. *)
Theorem queries_stay_in_scope i who inv q s :
  let '(r, s') := _run catalog i who inv q s in
  (exchanges s' = exchanges s /\ unstored s s' /\ exists e, r = Err e)
  \/ exists sc a answer, resolve_scope catalog i s.2 = Ok sc
       /\ exchanges s' = exchanges s ++ [(a, answer)]
       /\ in_scope catalog sc (time_at s) q a /\ settles sc q answer r s s'.
Proof.
  destruct (_run catalog i who inv q s) as [r s'] eqn:E. by apply run_settles in E.
Qed.
End Asked.

(** ** What was returned *)

(** References are kept under their identifiers. *)
Definition refs_keyed (d : db) : Prop := forall k r, evidence_refs d !! k = Some r -> er_id r = k.

Section Returned.
Context {HA : Hashing} {AD : Adapters} (catalog : ServiceCatalog).

(** Time goes on: queries for evidence, registrations, and whatever else leaves the
    references alone. *)
Inductive evidence_step (s : EvidenceWorld * db) : EvidenceWorld * db -> Prop :=
| es_query i who inv q : evidence_step s (_run catalog i who inv q s).2
| es_register now c : evidence_step s (s.1, (atomically (register_evidence_ref now c) s.2).2)
| es_other d : evidence_refs d = evidence_refs s.2 -> evidence_step s (s.1, d).

(** A record that verifies: stored, its hash the hash of what is stored, and referenced. *)
Definition vouched (s : EvidenceWorld * db) (r : EvidenceRecord) : Prop :=
  ew_records s.1 !! ev_evidence_id r = Some r
  /\ ev_content_hash r = content_hash (ev_raw_response r)
  /\ exists ref, evidence_refs s.2 !! ev_evidence_id r = Some ref
       /\ er_content_hash ref = ev_content_hash r /\ er_incident_id ref = ev_incident_id r.

(** Records are written once, references too. *)
Definition grows (s s' : EvidenceWorld * db) : Prop :=
  (forall k r, ew_records s.1 !! k = Some r -> ew_records s'.1 !! k = Some r)
  /\ (forall k r, evidence_refs s.2 !! k = Some r -> evidence_refs s'.2 !! k = Some r)
  /\ (refs_keyed s.2 -> refs_keyed s'.2).
#[export] Instance grows_preorder : PreOrder grows.
Proof.
  split; [by intros s|]. intros s1 s2 s3 (H1 & H2 & H3) (G1 & G2 & G3).
  split; [eauto|]. split; [eauto|]. intros Hk. by apply G3, H3.
Qed.

Lemma grows_same s s' :
  ew_records s'.1 = ew_records s.1 -> evidence_refs s'.2 = evidence_refs s.2 -> grows s s'.
Proof. intros E1 E2. unfold grows, refs_keyed. rewrite E1, E2. done. Qed.

Lemma register_grows e now c d :
  grows (e, d) (e, (atomically (register_evidence_ref now c) d).2).
Proof.
  unfold atomically. destruct (register_evidence_ref now c d) as [[r d']|x] eqn:E; [|done].
  apply register_run in E as (_ & [(_ & Hnew & Hr & _)|(_ & -> & _)]); [|done].
  unfold grows, refs_keyed. simpl. rewrite Hr. split_and!; [done| |].
  - intros k q Hk. rewrite lookup_insert_ne; [done|]. congruence.
  - intros Hd k q [[<- <-]|[_ Hk]]%lookup_insert_Some; [done|by apply Hd].
Qed.

Lemma clock_grows : respects grows ev_clock.
Proof. intros s. unfold ev_clock. destruct (ad_clock _). by apply grows_same. Qed.
Lemma ask_grows q : respects grows (ask_adapter q).
Proof.
  intros s. pose proof (ask_adapter_same q s) as H. apply grows_same; [|by rewrite H].
  unfold ask_adapter. by destruct (ask q _) as [r [a d]].
Qed.
Lemma insert_grows r : respects grows (insert_record r).
Proof.
  intros s. unfold insert_record. case_bool_decide as Hb; [done|]. split; [|done]. simpl.
  intros k q Hk. rewrite lookup_insert_ne; [done|]. intros <-. apply Hb. by exists q.
Qed.
Lemma supply_grows : respects grows (on_right (transact uuid4)).
Proof. intros s. by apply grows_same. Qed.
Lemma reference_grows now r : respects grows (_register now r).
Proof.
  unfold _register. apply respects_bind; [tc_solve| |intros ?; apply respects_ret; tc_solve].
  intros [e d]. unfold on_right, transact. simpl.
  match goal with |- context [register_evidence_ref now ?c] => pose proof (register_grows e now c d) as H end.
  by destruct (atomically _ d).
Qed.
Lemma persist_grows sc o who inv : respects grows (_persist sc o who inv).
Proof.
  unfold _persist. apply respects_bind; [tc_solve|apply clock_grows|]. intros t.
  apply respects_bind; [tc_solve|apply supply_grows|]. intros id. apply insert_grows.
Qed.

Lemma run_grows i who inv q : respects grows (_run catalog i who inv q).
Proof.
  unfold _run.
  apply respects_bind; [tc_solve|apply respects_pure; tc_solve|intros _].
  apply respects_bind; [tc_solve|by intros s|intros sc].
  apply respects_bind; [tc_solve|apply clock_grows|intros now].
  apply respects_bind; [tc_solve|apply respects_pure; tc_solve|intros a].
  apply respects_bind; [tc_solve|apply ask_grows|intros o].
  apply respects_bind; [tc_solve|apply respects_pure; tc_solve|intros _].
  apply respects_bind; [tc_solve|apply persist_grows|intros r].
  apply respects_bind; [tc_solve|apply clock_grows|intros t].
  apply respects_bind; [tc_solve|apply reference_grows|intros _].
  apply respects_ret; tc_solve.
Qed.

Lemma steps_grow s s' : rtc evidence_step s s' -> grows s s'.
Proof.
  induction 1 as [|s1 s2 s3 H _ IH]; [done|]. transitivity s2; [|done].
  destruct H as [i who inv q|now c|d Hd]; [apply run_grows|destruct s1; apply register_grows|by apply grows_same].
Qed.

Lemma vouched_grows s s' r : grows s s' -> vouched s r -> vouched s' r.
Proof.
  intros (H1 & H2 & _) (Hr & Hh & ref & Href & ?). split; [by apply H1|]. split; [done|]. exists ref.
  split; [by apply H2|done].
Qed.

(** What is stored verifies. *)
Lemma vouched_verifies s r :
  refs_keyed s.2 -> vouched s r ->
  exists report, verify (ev_evidence_id r) s = (Ok report, s) /\ integrity_ok report = true.
Proof.
  intros Hk (Hr & Hh & ref & Href & H1 & H2).
  assert (List.find (fun x => bool_decide (er_id x = ev_evidence_id r))
            (list_evidence_refs (ev_incident_id r) s.2) = Some ref) as Hfind.
  { destruct (List.find _ _) as [x|] eqn:E.
    - apply List.find_some in E as [Hin Hx%bool_decide_eq_true]. f_equal.
      apply list_elem_of_In in Hin. unfold list_evidence_refs in Hin. rewrite !elem_of_order_by in Hin.
      apply list_elem_of_In, filter_In in Hin as [Hin _]. apply list_elem_of_In, elem_of_rows in Hin as [k Hx'].
      pose proof (Hk _ _ Hx') as E. rewrite Hx in E. subst k. congruence.
    - assert (ref ∈ list_evidence_refs (ev_incident_id r) s.2) as Hin.
      { unfold list_evidence_refs. rewrite !elem_of_order_by. apply list_elem_of_In, filter_In.
        rewrite <-list_elem_of_In, elem_of_rows, bool_decide_eq_true. eauto. }
      apply list_elem_of_In in Hin. pose proof (List.find_none _ _ E _ Hin) as Hno. simpl in Hno.
      rewrite (Hk _ _ Href), bool_decide_eq_true_2 in Hno; done. }
  unfold verify, get_evidence. unfold mbind, Prog_bind, reading. rewrite Hr, Hfind. simpl.
  eexists. split; [reflexivity|]. unfold integrity_ok, verify_content_hash. simpl.
  rewrite <-Hh, H1, H2, !bool_decide_eq_true_2; by eauto.
Qed.

Lemma register_vouches now r (e : EvidenceWorld) d s' :
  _register now r (e, d) = (Ok (), s') ->
  s'.1 = e /\ exists ref, evidence_refs s'.2 !! ev_evidence_id r = Some ref
    /\ er_content_hash ref = ev_content_hash r /\ er_incident_id ref = ev_incident_id r.
Proof.
  unfold _register. intros E. apply prog_bind_run in E as (x & s1 & Ex & E). apply prog_ret_run in E as [_ ->].
  unfold on_right, transact, atomically in Ex. simpl in Ex.
  destruct (register_evidence_ref now _ d) as [[y d']|] eqn:Er; [|done]. injection Ex as <- <-.
  split; [done|]. simpl.
  apply register_run in Er as (_ & [(_ & _ & -> & _)|(_ & -> & ref & Href & H1 & H2)]); [|by exists ref].
  simpl. rewrite lookup_insert_eq. by eexists.
Qed.

Lemma persist_stores sc o who inv s r s' :
  _persist sc o who inv s = (Ok r, s') ->
  ew_records s'.1 !! ev_evidence_id r = Some r /\ ew_records s.1 !! ev_evidence_id r = None
  /\ exists id t n, r = new_record sc o who inv id t <| ev_sequence := n |>.
Proof.
  unfold _persist. intros E. apply prog_bind_run in E as (t & s1 & Et & E).
  assert (ew_records s1.1 = ew_records s.1) as <-.
  { unfold ev_clock in Et. destruct (ad_clock _). by injection Et as <- <-. }
  apply prog_bind_run in E as (id & s2 & [= <- <-] & E). unfold insert_record in E. simpl in E.
  case_bool_decide as Hb; [done|]. injection E as <- <-. simpl. rewrite lookup_insert_eq.
  split; [done|]. split; [by apply eq_None_not_Some|]. by eexists _, _, _.
Qed.

Lemma run_vouched i who inv q s item s' :
  _run catalog i who inv q s = (Ok item, s') ->
  exists r sc, vouched s' r /\ item = to_item r /\ resolve_scope catalog i s.2 = Ok sc
    /\ ev_incident_id r = sc_incident_id sc /\ ev_requested_by r = who /\ ev_investigation_id r = inv
    /\ ew_records s.1 !! ev_evidence_id r = None.
Proof.
  unfold _run. intros E.
  apply prog_bind_run in E as ([] & s0 & [= _ <-] & E).
  apply prog_bind_run in E as (sc & s0 & [= Hsc <-] & E).
  apply prog_bind_run in E as (now & s1 & Ec & E).
  apply prog_bind_run in E as (a & s0 & [= _ <-] & E).
  apply prog_bind_run in E as (o & s2 & Ea & E).
  apply prog_bind_run in E as ([] & s0 & [= _ <-] & E).
  apply prog_bind_run in E as (r & s3 & Ep & E).
  apply prog_bind_run in E as (t & s4 & Et & E).
  apply prog_bind_run in E as ([] & s5 & Er & E). apply prog_ret_run in E as [[= ->] ->].
  assert (ew_records s2.1 = ew_records s.1) as E2.
  { unfold ev_clock in Ec. destruct (ad_clock _). injection Ec as _ <-.
    unfold ask_adapter in Ea. destruct (ask _ _) as [? [? ?]]. by injection Ea as _ <-. }
  apply persist_stores in Ep as (Hr & Hnew & id & u & n & Hrec).
  assert (ew_records s4.1 = ew_records s3.1) as E4.
  { unfold ev_clock in Et. destruct (ad_clock _). by injection Et as _ <-. }
  destruct s4 as [e4 d4]. apply register_vouches in Er as [E5 Href].
  exists r, sc. rewrite E2 in Hnew. subst r. split; [|done]. split; [|split; [done|exact Href]].
  simpl in *. by rewrite E5, E4.
Qed.

(** C27: what is returned can be trusted later.  An evidence item returned by a query is
    recorded under a new identifier for the incident that was asked about, and in every
    later state the record is the same, its content hash is the hash of the stored
    response, and incident-core's reference agrees with it: it verifies. *)
Theorem returned_evidence_verifies i who inv q s item s1 s2 :
  refs_keyed s.2 -> _run catalog i who inv q s = (Ok item, s1) -> rtc evidence_step s1 s2 ->
  exists r sc report, item = to_item r /\ ew_records s.1 !! it_evidence_id item = None
    /\ resolve_scope catalog i s.2 = Ok sc /\ ev_incident_id r = sc_incident_id sc
    /\ ew_records s2.1 !! it_evidence_id item = Some r
    /\ verify (it_evidence_id item) s2 = (Ok report, s2) /\ integrity_ok report = true.
Proof.
  intros Hk E Hs. pose proof (run_grows i who inv q s) as (_ & _ & Hk1). rewrite E in Hk1.
  destruct (run_vouched _ _ _ _ _ _ _ E) as (r & sc & Hv & -> & Hsc & Hi & _ & _ & Hnew).
  pose proof (steps_grow _ _ Hs) as Hg. pose proof (vouched_grows _ _ _ Hg Hv) as Hv2.
  destruct (vouched_verifies s2 r (proj2 (proj2 Hg) (Hk1 Hk)) Hv2) as (report & Hr & Hok).
  exists r, sc, report. split_and!; try done. apply Hv2.
Qed.
End Returned.
