(* ===== verification/ToolSafety.v ===== *)
(** * What the tools of an investigation guarantee

    However often and with whatever arguments the executor is called, its budget bounds
    what reaches the evidence adapters; and what a call answers the engine is well formed
    and fits the context of the model. *)
From S2P Require Import Prelude PyFloat Json Enums VerificationDomain Catalog.
From S2P Require Import RemediationDomain Uuid InvestigationDomain Store TxLogic Prog.
From S2P Require Import RemediationService IncidentRepository AlertIdentity IncidentService.
From S2P Require Import InvestigationService EvidenceScope EvidenceService.
From S2P Require Import AgentTools AgentModel AgentContext AgentToolset EvidenceSafety.
Local Open Scope Z_scope.

(** ** The budget of the executor *)

Section Budget.
Context {HA : Hashing} {TS : ToolSchemas} (catalog : ServiceCatalog) (ctx : ToolContext) (b : ToolBudget).
Variable backends : Adapters.
#[local] Hint Extern 0 Adapters => exact (logged_adapters backends) : typeclass_instances.

(** The calls one after the other, whatever each comes to. *)
Definition execute_all (calls : list (string * json)) (s : ToolState * db) : ToolState * db :=
  foldl (fun s c => (execute_tool catalog ctx b c.1 c.2 s).2) s calls.

Definition queries (s : ToolState * db) : Z :=
  Z.of_nat (length (asked backends (tl_evidence s.1, s.2))).
Definition seen (s : ToolState * db) (key : string) : Z := default 0 (tl_seen s.1 !! key).

(** The executor's counters stay, and at most [n] queries are made. *)
Definition spends (n : Z) (s s' : ToolState * db) : Prop :=
  tl_calls s'.1 = tl_calls s.1 /\ tl_seen s'.1 = tl_seen s.1 /\ queries s <= queries s' <= queries s + n.

Lemma evidence_spends i who inv q s : spends 1 s (on_evidence (_run catalog i who inv q) s).2.
Proof.
  unfold on_evidence. pose proof (run_asks catalog backends i who inv q (tl_evidence s.1, s.2)) as H.
  destruct (_run catalog i who inv q (tl_evidence s.1, s.2)) as [r [e d]]. cbn [snd] in *.
  unfold spends, queries. cbn [fst snd]. split; [done|]. split; [done|].
  assert (asked backends (tl_evidence (s.1 <| tl_evidence := e |>), d) = asked backends (e, d)) as -> by done.
  destruct H as [->|(sc & a & _ & -> & _)]; rewrite ?length_app; simpl; lia.
Qed.

Lemma attempts_spend i n s : spends (Z.of_nat n) s (attempts catalog ctx i n s).2.
Proof.
  revert s. induction n as [|n IH]; intros s; [split_and!; simpl; lia || done|].
  cbn [attempts]. unfold mbind, Prog_bind, attempt.
  pose proof (evidence_spends (tc_incident_id ctx) ("tool:" +++ tool_of i) (tc_investigation_id ctx) (handler i) s) as H.
  destruct (on_evidence _ s) as [r s1]. cbn [snd] in H.
  assert (spends (Z.of_nat (S n)) s s1) as H1 by (destruct H as (? & ? & ?); split_and!; [done|done|lia|lia]).
  destruct r as [item|e]; [exact H1|]. destruct e; try exact H1. case_match; [|exact H1].
  destruct H as (E1 & E2 & E3), (IH s1) as (F1 & F2 & F3). split_and!; [congruence|congruence|lia|lia].
Qed.

(** One call: nothing, or one counted call and the attempts it is worth. *)
Definition call_spends (s s' : ToolState * db) : Prop :=
  spends 0 s s'
  \/ exists key, tl_calls s.1 < tb_max_calls b /\ seen s key < tb_max_identical_calls b
       /\ tl_calls s'.1 = tl_calls s.1 + 1 /\ tl_seen s'.1 = <[key := seen s key + 1]> (tl_seen s.1)
       /\ queries s <= queries s' <= queries s + Z.of_nat (tb_max_attempts_per_call b).

Lemma free_call s : call_spends s s.
Proof. left. split_and!; lia || done. Qed.

Lemma execute_spends tool arguments s : call_spends s (execute_tool catalog ctx b tool arguments s).2.
Proof.
  unfold execute_tool. destruct (negb _); [apply free_call|].
  unfold mbind at 1, Prog_bind at 1. cbv beta iota zeta.
  destruct (_ <=? _) eqn:E1; [apply free_call|].
  destruct (tb_max_identical_calls b <=? _) eqn:E2; [apply free_call|].
  right. exists (_call_key tool (or_empty arguments)). apply Z.leb_gt in E1, E2.
  do 2 (split; [done|]). unfold mbind, Prog_bind. set (s1 := (count_call (_call_key tool (or_empty arguments)) s.1, s.2)).
  assert (tl_calls s1.1 = tl_calls s.1 + 1) as C1 by done.
  assert (tl_seen s1.1 = <[_call_key tool (or_empty arguments) := seen s (_call_key tool (or_empty arguments)) + 1]>
            (tl_seen s.1)) as C2 by done.
  assert (queries s1 = queries s) as C3 by done.
  destruct (validate_input _ _) as [errors|i].
  - split; [exact C1|]. split; [exact C2|]. change (queries s <= queries s1 <= queries s + Z.of_nat (tb_max_attempts_per_call b)). lia.
  - destruct (attempts_spend i (tb_max_attempts_per_call b) s1) as (-> & -> & H).
    split; [exact C1|]. split; [exact C2|]. lia.
Qed.

(** C32: the budget bounds what reaches the adapters.  After any sequence of calls the
    executor has counted no more calls than the budget allows, no call more often than an
    identical call may be repeated, and the adapters were asked at most as often as the
    counted calls have attempts, whatever the model asked for. *)
Theorem tool_calls_are_bounded calls s :
  let s' := execute_all calls s in
  tl_calls s.1 <= tl_calls s'.1 <= Z.max (tl_calls s.1) (tb_max_calls b)
  /\ (forall key, seen s' key <= Z.max (seen s key) (tb_max_identical_calls b))
  /\ queries s' <= queries s + Z.of_nat (tb_max_attempts_per_call b) * (tl_calls s'.1 - tl_calls s.1).
Proof.
  cbv zeta. unfold execute_all. revert s. induction calls as [|c calls IH]; intros s; simpl.
  { split_and!; [lia|lia|intros; lia|lia]. }
  specialize (IH (execute_tool catalog ctx b c.1 c.2 s).2) as ((I1 & I2) & I3 & I4).
  destruct (execute_spends c.1 c.2 s) as [(C1 & C2 & C3)|(key & K1 & K2 & C1 & C2 & C3)].
  - rewrite C1 in *. split_and!; [lia|lia| |lia]. intros key. specialize (I3 key).
    unfold seen in *. by rewrite C2 in I3.
  - rewrite C1 in *. split_and!; [lia|lia| |nia]. intros k. specialize (I3 k).
    destruct (base.decide (k = key)) as [->|Hne].
    + assert (seen (execute_tool catalog ctx b c.1 c.2 s).2 key = seen s key + 1) as E
        by (unfold seen; by rewrite C2, lookup_insert_eq). lia.
    + assert (seen (execute_tool catalog ctx b c.1 c.2 s).2 k = seen s k) as E
        by (unfold seen; by rewrite C2, lookup_insert_ne). lia.
Qed.
End Budget.

(** ** What a call answers *)

Lemma compact_fits limit value :
  (60 <= limit)%nat -> (String.length (compact_to limit value) <= limit)%nat.
Proof.
  intros Hl. unfold compact_to. cbv zeta. set (text := _json _). clearbody text. case_bool_decide as Hb; [|lia].
  rewrite append_length. pose proof (take_str_length (limit - 60) text).
  assert (String.length TRUNCATED <= 60)%nat by (vm_compute; lia). lia.
Qed.

Section Answers.
Context {HA : Hashing} {AD : Adapters} {TS : ToolSchemas} (catalog : ServiceCatalog).
Context (monotonic_ms : ToolState * db -> Z).

(** What the model is shown fits, and exactly the failures have a code. *)
Definition presentable (o : ToolOutcome) : Prop :=
  (String.length (to_observation o) <= MAX_RESULT_CHARS)%nat
  /\ (to_ok o = false <-> is_Some (to_error_code o)).

Lemma compact_observation value : (String.length (compact value) <= MAX_RESULT_CHARS)%nat.
Proof. apply compact_fits. apply Nat.leb_le. vm_compute. reflexivity. Qed.

#[local] Opaque compact MAX_RESULT_CHARS.

Lemma presentable_success value ids n summary latency :
  presentable (outcome true (compact value) <| to_evidence_ids := ids |> <| to_new_evidence := n |>
                 <| to_summary := summary |> <| to_latency_ms := latency |>).
Proof. split; [apply compact_observation|]. split; [done|by intros [? ?]]. Qed.
Lemma presentable_failure value code summary latency :
  presentable (outcome false (compact value) <| to_error_code := Some code |>
                 <| to_summary := summary |> <| to_latency_ms := latency |>).
Proof. split; [apply compact_observation|]. by split; eauto. Qed.

Lemma outcome_of_presentable r : presentable (outcome_of r).
Proof. destruct r as [i|e]; [apply presentable_success|apply presentable_failure]. Qed.

Lemma incident_evidence_presentable t arguments s o s' :
  _incident_evidence t arguments s = (Ok o, s') -> presentable o.
Proof.
  unfold _incident_evidence. intros E. destruct (validate_listing _) as [m|limit].
  - apply prog_ret_run in E as [[= ->] _]. apply presentable_failure.
  - apply prog_bind_run in E as (r & s1 & _ & E). destruct r as [l|e].
    + apply prog_ret_run in E as [[= ->] _]. apply presentable_success.
    + destruct e; try discriminate E. apply prog_ret_run in E as [[= ->] _]. apply presentable_failure.
Qed.
Lemma evidence_tool_presentable t tool arguments s o s' :
  _evidence_tool catalog t tool arguments s = (Ok o, s') -> presentable o.
Proof.
  unfold _evidence_tool. intros E. apply prog_bind_run in E as (c & s1 & _ & E).
  apply prog_bind_run in E as (r & s2 & _ & E). apply prog_ret_run in E as [[= ->] _].
  apply outcome_of_presentable.
Qed.

(** A tool call answers the engine in the form it relies on.  The observation fits the
    context of the model, exactly the failures have an error code, the evidence ids can be
    read back as identifiers, and a call counts at most one new item of evidence, listing
    what is recorded none. *)
Theorem tool_outcomes_are_well_formed t tool arguments s o s' :
  toolset_execute catalog monotonic_ms t tool arguments s = (Ok o, s') ->
  (String.length (to_observation o) <= MAX_RESULT_CHARS)%nat
  /\ (to_ok o = false <-> is_Some (to_error_code o))
  /\ (exists l, traverse parse_uuid (to_evidence_ids o) = Ok l)
  /\ 0 <= to_new_evidence o <= 1 /\ (tool = GET_INCIDENT_EVIDENCE -> to_new_evidence o = 0).
Proof.
  intros H. pose proof (toolset_sound catalog monotonic_ms t tool arguments s o s' H) as Hs.
  assert (presentable o) as [? ?]; [|by split].
  unfold toolset_execute in H. case_bool_decide;
    [destruct (_incident_evidence _ _ _) as [[o'|e] s1] eqn:E
    |destruct (_evidence_tool _ _ _ _ _) as [[o'|e] s1] eqn:E]; try discriminate H; injection H as <- _.
  - by apply incident_evidence_presentable in E.
  - by apply evidence_tool_presentable in E.
Qed.
End Answers.
