(* ===== verification/InvestigationProofs.v ===== *)
(** * What the investigation commands do

    The effect of every command on the tables of investigations, and the invariant
    those effects keep: attempts are numbered, at most one investigation of an incident
    is open, and exactly while the incident is INVESTIGATING; a link cites evidence that
    is registered for the incident and that the trace has shown; steps are numbered
    without gaps; a report belongs to a completed investigation. *)
From S2P Require Import Prelude PyFloat Json Enums VerificationDomain Catalog.
From S2P Require Import RemediationDomain Uuid InvestigationDomain InvestigationRules Policy.
From S2P Require Import Store TxLogic RemediationLifecycle RemediationService RemediationProofs.
From S2P Require Import InvestigationService.
Local Open Scope Z_scope.

(** ** What the commands leave alone *)

(** Nothing outside the investigation tables, the incidents, the outbox and the
    identifier supply differs. *)
Definition investigation_frame (d d' : db) : Prop :=
  d' = d <| uuid_supply := uuid_supply d' |> <| outbox_events := outbox_events d' |>
         <| incidents := incidents d' |> <| investigations := investigations d' |>
         <| hypotheses := hypotheses d' |> <| evidence_links := evidence_links d' |>
         <| investigation_steps := investigation_steps d' |> <| rca_reports := rca_reports d' |>
  /\ (uuid_supply d <= uuid_supply d')%N.

#[export] Instance investigation_frame_preorder : PreOrder investigation_frame.
Proof.
  split.
  - intros d. split; [by destruct d|lia].
  - intros d1 d2 d3 [H1 ?] [H2 ?]. split; [|lia]. rewrite H2 at 1. rewrite H1. done.
Qed.

Ltac frame_write := intros; apply relates_writes; intros d; split; [by destruct d|simpl; lia].

Lemma frame_uuid4 : relates investigation_frame uuid4.
Proof. intros d a d' [-> ->]%uuid4_Ok. split; [by destruct d|simpl; lia]. Qed.
Lemma frame_outbox now et at_ ai ci p :
  relates investigation_frame (insert_outbox_event now et at_ ai ci p).
Proof.
  unfold insert_outbox_event. apply relates_bind; [typeclasses eauto|apply frame_uuid4|].
  frame_write.
Qed.
Lemma frame_put_incident r : relates investigation_frame (put_incident r).
Proof. frame_write. Qed.
Lemma frame_put_investigation r : relates investigation_frame (put_investigation r).
Proof. frame_write. Qed.
Lemma frame_put_hypothesis r : relates investigation_frame (put_hypothesis r).
Proof. frame_write. Qed.
#[export] Hint Resolve frame_uuid4 frame_outbox frame_put_incident frame_put_investigation
  frame_put_hypothesis : relates.

Lemma frame_transition now i to c r e :
  relates investigation_frame (transition_with_event now i to c r e).
Proof.
  unfold transition_with_event, transition_incident_status, status_changed_event. relates_auto.
Qed.
Lemma frame_append now row k n p c l : relates investigation_frame (_append_step now row k n p c l).
Proof. unfold _append_step. relates_auto; frame_write. Qed.
Lemma frame_insert_link l : relates investigation_frame (insert_link l).
Proof. unfold insert_link. relates_auto; frame_write. Qed.
#[export] Hint Resolve frame_transition frame_append frame_insert_link : relates.

Lemma frame_insert_links now h rel l : relates investigation_frame (insert_links now h rel l).
Proof. induction l as [|e l IH]; simpl; relates_auto; apply IH. Qed.
Lemma frame_fenced i owner : relates investigation_frame (_fenced i owner).
Proof. unfold _fenced, _lock. relates_auto. Qed.
Lemma frame_accessible row : relates investigation_frame (_accessible_evidence row).
Proof. unfold _accessible_evidence. relates_auto. Qed.
Lemma frame_move now i to r : relates investigation_frame (_move_incident now i to r).
Proof. unfold _move_incident. relates_auto. Qed.
#[export] Hint Resolve frame_insert_links frame_fenced frame_accessible frame_move : relates.

Lemma frame_request now i mp mn ms b :
  relates investigation_frame (request_investigation now i mp mn ms b).
Proof.
  unfold request_investigation, start_investigation, transition_incident_status,
    insert_investigation, status_changed_event, count_firing_alerts. relates_auto.
Qed.
Lemma frame_take_lease now i o l : relates investigation_frame (take_lease now i o l).
Proof. unfold take_lease, _lock. relates_auto. Qed.
Lemma frame_release now i o : relates investigation_frame (release now i o).
Proof. unfold release, _lock. relates_auto. Qed.
Lemma frame_record_step now i o k n p c l u t e a s :
  relates investigation_frame (record_step now i o k n p c l u t e a s).
Proof. unfold record_step. relates_auto. Qed.
Lemma frame_apply_update now i acc s u : relates investigation_frame (apply_update now i acc s u).
Proof. unfold apply_update. relates_auto. Qed.
#[export] Hint Resolve frame_apply_update : relates.
Lemma frame_apply_updates now i acc l s : relates investigation_frame (apply_updates now i acc s l).
Proof. revert s. induction l as [|u l IH]; intros s; simpl; relates_auto; apply IH. Qed.
#[export] Hint Resolve frame_apply_updates : relates.
Lemma frame_apply now i o n c b : relates investigation_frame (apply_hypothesis_updates now i o n c b).
Proof. unfold apply_hypothesis_updates. relates_auto. Qed.
Lemma frame_report r : relates investigation_frame (insert_report r).
Proof. unfold insert_report. relates_auto; frame_write. Qed.
#[export] Hint Resolve frame_report : relates.
Lemma frame_complete c now i o n call r : relates investigation_frame (complete c now i o n call r).
Proof. unfold complete, accept_conclusion, reject_conclusion. relates_auto. Qed.
Lemma frame_escalate now i o n oc rc dt ir eg c :
  relates investigation_frame (escalate now i o n oc rc dt ir eg c).
Proof. unfold escalate, assert_. relates_auto. Qed.

(** ** Runs *)

(** The tables the commands work on, after a run. *)
Definition tables (d' : db) (invs : gmap uuid InvestigationRow) (hyps : gmap uuid HypothesisRow)
    (links : gmap (uuid * uuid) HypothesisEvidenceLinkRow) (steps : list InvestigationStepRow)
    (reports : gmap uuid RcaReportRow) (incs : gmap uuid IncidentRow) : Prop :=
  investigations d' = invs /\ hypotheses d' = hyps /\ evidence_links d' = links
  /\ investigation_steps d' = steps /\ rca_reports d' = reports /\ incidents d' = incs.

Abbreviation unchanged_tables d d' :=
  (tables d' (investigations d) (hypotheses d) (evidence_links d) (investigation_steps d)
     (rca_reports d) (incidents d)).

Lemma quiet_unchanged d d' : quiet d d' -> unchanged_tables d d'.
Proof. intros [-> _]. by split_and!. Qed.

Lemma fenced_run i owner d row d' :
  _fenced i owner d = Ok (row, d') <->
  d' = d /\ investigations d !! i = Some row /\ fenced owner row = true.
Proof.
  unfold _fenced, _lock. split.
  - intros Hr. tx_inv. case_match eqn:E; tx_inv. by apply negb_false_iff in E.
  - intros (-> & Hi & Hf). apply bind_Ok. exists row, d. split.
    + apply bind_Ok. exists (investigations d !! i), d. split; [by apply reads_Ok|].
      apply must_Ok. by rewrite Hi.
    + by rewrite Hf.
Qed.

Lemma accessible_run row d acc d' :
  _accessible_evidence row d = Ok (acc, d') <-> d' = d /\ accessible d row = Ok acc.
Proof.
  unfold _accessible_evidence. rewrite bind_Ok. split.
  - intros (r & d1 & H1 & H2). apply reads_Ok in H1 as [-> ->]. apply lift_Ok in H2 as [? ->]. done.
  - intros [-> H]. exists (accessible d row), d. split; [by apply reads_Ok|]. by apply lift_Ok.
Qed.

Definition new_step (now : instant) (d : db) (row : InvestigationRow) (kind : StepKind)
    (iteration : Z) (payload : json) (call_id : option string) (latency_ms : option Z)
    : InvestigationStepRow :=
  {| st_id := uuid_supply d; st_investigation_id := inv_id row;
     st_sequence := max_step d (inv_id row) + 1; st_iteration := iteration; st_kind := kind;
     st_call_id := call_id; st_payload := payload; st_latency_ms := latency_ms;
     st_created_at := now |}.

Lemma append_run now row k n p c l d sq d' :
  _append_step now row k n p c l d = Ok (sq, d') <->
  sq = max_step d (inv_id row) + 1
  /\ d' = d <| uuid_supply ::= N.succ |>
            <| investigation_steps ::= (fun s => s ++ [new_step now d row k n p c l]) |>.
Proof.
  unfold _append_step. split; [intros Hr; by tx_inv|]. intros [-> ->]. done.
Qed.

Lemma move_incident_run now inc to reason d u d' :
  _move_incident now inc to reason d = Ok (u, d') -> incidents d !! i_id inc = Some inc ->
  tables d' (investigations d) (hypotheses d) (evidence_links d) (investigation_steps d)
    (rca_reports d)
    (if bool_decide (i_status inc = INVESTIGATING)
     then <[i_id inc := moved_row now to false inc]> (incidents d) else incidents d).
Proof.
  unfold _move_incident. intros Hr Hi. case_bool_decide; simpl in Hr; tx_inv; [|by split_and!].
  match goal with H : transition_with_event _ _ _ _ _ _ _ = _ |- _ =>
    apply transition_with_event_run in H as [-> Hq]; [|done] end.
  by apply quiet_unchanged in Hq.
Qed.

Lemma take_lease_run now i owner lease d b d' :
  take_lease now i owner lease d = Ok (b, d') <->
  exists row, investigations d !! i = Some row
    /\ b = negb (bool_decide (inv_status row ∈ TERMINAL_INVESTIGATION_STATUSES))
           && negb (held_by_another now owner row)
    /\ d' = if b then d <| investigations ::= <[inv_id row := claimed now owner lease row]> |> else d.
Proof.
  unfold take_lease, _lock, put_investigation. split.
  - intros Hr. tx_inv. eexists. split; [done|].
    repeat (case_match; tx_inv; simpl); done.
  - intros (row & Hi & -> & ->). apply bind_Ok. exists row, d. split.
    { apply bind_Ok. exists (investigations d !! i), d. split; [by apply reads_Ok|].
      apply must_Ok. by rewrite Hi. }
    repeat (case_match; simpl); try done; by apply ret_Ok.
Qed.

Lemma release_run now i owner d u d' :
  release now i owner d = Ok (u, d') ->
  exists row, investigations d !! i = Some row
    /\ d' = if bool_decide (inv_lease_owner row = Some owner)
            then d <| investigations ::= <[inv_id row := row <| inv_lease_expires_at := Some now |>]> |>
            else d.
Proof.
  unfold release, _lock, put_investigation. intros Hr. tx_inv. eexists. split; [done|].
  case_match; by tx_inv.
Qed.

Lemma record_step_run now i owner k n p c l usage tool ne la lease d sq d' :
  record_step now i owner k n p c l usage tool ne la lease d = Ok (sq, d') ->
  exists row, investigations d !! i = Some row /\ fenced owner row = true
    /\ sq = max_step d (inv_id row) + 1
    /\ tables d' (<[inv_id row := counted now k n usage tool ne la lease row]> (investigations d))
         (hypotheses d) (evidence_links d)
         (investigation_steps d ++ [new_step now d row k n (JObj p) c l]) (rca_reports d) (incidents d).
Proof.
  unfold record_step, put_investigation. intros Hr. apply bind_Ok in Hr as (row & d0 & Hf & Hr).
  apply fenced_run in Hf as (-> & Hi & Hf). exists row. do 2 (split; [done|]).
  apply bind_Ok in Hr as (sq' & d1 & Ha & Hr). apply append_run in Ha as [-> ->]. tx_inv.
  split; [done|]. by split_and!.
Qed.

(** ** Hypothesis updates *)

Definition new_link (now : instant) (hypothesis_id : uuid) (relation : LinkRelation) (e : uuid)
    : HypothesisEvidenceLinkRow :=
  {| lk_hypothesis_id := hypothesis_id; lk_evidence_id := e; lk_relation := relation;
     lk_linked_at := now |}.

(** Links are only added, each where there was none. *)
Definition links_added (now : instant) (hid : uuid) (cites : LinkRelation -> uuid -> Prop)
    (m m' : gmap (uuid * uuid) HypothesisEvidenceLinkRow) : Prop :=
  (forall k x, m !! k = Some x -> m' !! k = Some x)
  /\ (forall k x, m' !! k = Some x ->
        m !! k = Some x
        \/ m !! k = None /\ exists rel e, cites rel e /\ k = (hid, e) /\ x = new_link now hid rel e).

Lemma links_added_refl now hid P m : links_added now hid P m m.
Proof. split; auto. Qed.

Lemma links_added_trans now hid (P Q R : LinkRelation -> uuid -> Prop) m1 m2 m3 :
  links_added now hid P m1 m2 -> links_added now hid Q m2 m3 ->
  (forall rel e, P rel e -> R rel e) -> (forall rel e, Q rel e -> R rel e) ->
  links_added now hid R m1 m3.
Proof.
  intros [K1 N1] [K2 N2] HP HQ. split; [auto|]. intros k x Hx.
  destruct (N2 _ _ Hx) as [H2|(H2 & rel & e & ? & -> & ->)].
  - destruct (N1 _ _ H2) as [?|(? & rel & e & ? & -> & ->)]; [by left|right; eauto 10].
  - right. split; [|eauto 10]. destruct (m1 !! (hid, e)) eqn:E; [|done].
    by rewrite (K1 _ _ E) in H2.
Qed.

Lemma insert_links_run now hid rel l d u d' :
  insert_links now hid rel l d = Ok (u, d') ->
  d' = d <| evidence_links := evidence_links d' |>
  /\ links_added now hid (fun rel' e => rel' = rel /\ e ∈ l /\ is_Some (evidence_refs d !! e))
       (evidence_links d) (evidence_links d').
Proof.
  revert d. induction l as [|e l IH]; intros d; cbn [insert_links].
  - intros [_ ->]%ret_Ok. split; [by destruct d|apply links_added_refl].
  - intros ([] & d1 & H1 & H2)%bind_Ok. apply IH in H2 as [Hd2 H2].
    assert (d1 = d <| evidence_links := evidence_links d1 |>
            /\ links_added now hid (fun rel' e' => rel' = rel /\ e' = e /\ is_Some (evidence_refs d !! e'))
                 (evidence_links d) (evidence_links d1)) as [Hd1 Ha].
    { unfold insert_link in H1. tx_inv. unfold id in *. simpl in *. case_bool_decide as Eo.
      - tx_inv. split; [by destruct d|apply links_added_refl].
      - case_bool_decide; tx_inv. split; [by destruct d|]. simpl. split.
        + intros k x Hk. rewrite lookup_insert_ne; [done|]. intros <-. apply Eo. by rewrite Hk.
        + intros k x [[<- <-]|[? ?]]%lookup_insert_Some; [|by left]. right.
          split; [by apply eq_None_not_Some|]. exists rel, e. done. }
    split; [by rewrite Hd2, Hd1|].
    eapply links_added_trans; [exact Ha|exact H2| |]; simpl.
    + intros rel' e' (-> & -> & ?). set_solver.
    + intros rel' e' (-> & ? & Hr). rewrite Hd1 in Hr. set_solver.
Qed.

(** The row an update creates or edits, and where the identifier supply is then. *)
Inductive update_row (now : instant) (i : uuid) (u : HypothesisUpdate) (d : db)
    : HypothesisRow -> option HypothesisRow -> Prop :=
| ur_created : update_row now i u d (created now (uuid_supply d) i u) None
| ur_edited h : update_row now i u d (edited now u h) (Some h).

Definition cited (u : HypothesisUpdate) (acc : gset uuid) (rel : LinkRelation) (e : uuid) : Prop :=
  e ∈ acc /\ match rel with
             | supports => e ∈ hu_supporting_evidence_ids u
             | contradicts => e ∈ hu_contradicting_evidence_ids u
             end.

(** What an accepted update does. *)
Definition updated (now : instant) (i : uuid) (acc : gset uuid) (u : HypothesisUpdate)
    (h : HypothesisRow) (d d' : db) : Prop :=
  tables d' (investigations d) (<[h_id h := h]> (hypotheses d)) (evidence_links d')
    (investigation_steps d) (rca_reports d) (incidents d)
  /\ links_added now (h_id h) (cited u acc) (evidence_links d) (evidence_links d').

Lemma apply_update_run now i acc s u d s' d' :
  apply_update now i acc s u d = Ok (s', d') ->
  (check_hypothesis_update u (assoc_get (hu_key u) (ap_snapshots s)) acc <> []
   /\ d' = d /\ ap_hypotheses s' = ap_hypotheses s /\ ap_snapshots s' = ap_snapshots s)
  \/ (update_allowed u (assoc_get (hu_key u) (ap_snapshots s)) acc
      /\ exists h, update_row now i u d h (assoc_get (hu_key u) (ap_hypotheses s))
         /\ updated now i acc u h d d'
         /\ (assoc_get (hu_key u) (ap_hypotheses s) = None -> (h_id h < uuid_supply d')%N)
         /\ ap_hypotheses s' = assoc_set (hu_key u) h (ap_hypotheses s)
         /\ ap_snapshots s' = assoc_set (hu_key u) (snapshot_of d' h) (ap_snapshots s)).
Proof.
  unfold apply_update. destruct (check_hypothesis_update _ _ _) as [|p ps] eqn:E.
  2:{ intros Hr. left. tx_inv. done. }
  apply update_accepted_iff in E. intros Hr. right. split; [done|].
  apply bind_Ok in Hr as ([h from] & d1 & H1 & Hr).
  assert (update_row now i u d h (assoc_get (hu_key u) (ap_hypotheses s))
          /\ quiet d d1
          /\ (assoc_get (hu_key u) (ap_hypotheses s) = None -> (h_id h < uuid_supply d1)%N))
    as (Hu & Hq & Hlt).
  { destruct (assoc_get (hu_key u) (ap_hypotheses s)) as [h0|] eqn:E0; tx_inv.
    - split; [constructor|by split].
    - split; [constructor|]. split; [by eapply quiet_uuid4|]. simpl. lia. }
  clear H1. apply bind_Ok in Hr as ([] & d2 & H2 & Hr). apply writes_Ok in H2 as ->.
  apply bind_Ok in Hr as ([] & d3 & H3 & Hr). apply bind_Ok in Hr as ([] & d4 & H4 & Hr). tx_inv.
  apply insert_links_run in H3 as [E3 L3]. apply insert_links_run in H4 as [E4 L4].
  exists h. split; [done|]. split; [|split; [by rewrite E4, E3|done]].
  apply quiet_unchanged in Hq as (Q1 & Q2 & Q3 & Q4 & Q5 & Q6).
  split; [rewrite E4, E3; unfold tables; simpl; by rewrite Q1, Q2, Q4, Q5, Q6|].
  simpl in *. rewrite Q3 in *. destruct E as [Hacc _].
  eapply links_added_trans; [exact L3|exact L4| |]; intros rel e (-> & ? & _); (split; [|done]); auto.
Qed.
