(* ===== verification/InvestigationInvariant.v ===== *)
(** * The invariant of the investigations

    [GInv] and its preservation by the effect of every command, and by transactions of
    other services that keep to their own tables ([onlooker]). *)
From S2P Require Import Prelude PyFloat Json Enums VerificationDomain Catalog.
From S2P Require Import RemediationDomain Uuid InvestigationDomain InvestigationRules Policy.
From S2P Require Import Store TxLogic RemediationLifecycle RemediationService RemediationProofs.
From S2P Require Import InvestigationService InvestigationProofs.
Local Open Scope Z_scope.

(** The evidence is registered for the incident, and the trace has shown it. *)
Definition grounded (d : db) (row : InvestigationRow) (e : uuid) : Prop :=
  registered_for d (inv_incident_id row) e = true
  /\ exists s l, s ∈ steps_of d (inv_id row) /\ shows_evidence s = true
       /\ payload_ids (st_payload s) = Ok l /\ e ∈ l.

Record GInv (d : db) : Prop := {
  gi_incidents i r : incidents d !! i = Some r ->
    i_id r = i /\ (i < uuid_supply d)%N /\ 0 <= i_attempt_count r;
  gi_rows i r : investigations d !! i = Some r ->
    inv_id r = i /\ (i < uuid_supply d)%N
    /\ exists inc, incidents d !! inv_incident_id r = Some inc
         /\ inv_attempt_number r <= i_attempt_count inc;
  gi_attempts i j r s : investigations d !! i = Some r -> investigations d !! j = Some s ->
    inv_incident_id r = inv_incident_id s -> inv_attempt_number r = inv_attempt_number s -> i = j;
  gi_open i j r s : investigations d !! i = Some r -> investigations d !! j = Some s ->
    inv_incident_id r = inv_incident_id s -> is_open_investigation r = true ->
    is_open_investigation s = true -> i = j;
  gi_lease i r : investigations d !! i = Some r -> is_open_investigation r = false ->
    inv_lease_owner r = None;
  gi_investigating n inc : incidents d !! n = Some inc ->
    (i_status inc = INVESTIGATING <->
     exists i r, investigations d !! i = Some r /\ inv_incident_id r = n
                 /\ is_open_investigation r = true);
  gi_hyps h r : hypotheses d !! h = Some r ->
    h_id r = h /\ (h < uuid_supply d)%N /\ is_Some (investigations d !! h_investigation_id r);
  gi_keys g h r s : hypotheses d !! g = Some r -> hypotheses d !! h = Some s ->
    h_investigation_id r = h_investigation_id s -> h_key r = h_key s -> g = h;
  gi_selected h r : hypotheses d !! h = Some r -> h_status r = H_SELECTED ->
    exists row, investigations d !! h_investigation_id r = Some row
      /\ inv_status row = I_COMPLETED /\ inv_selected_hypothesis_id row = Some h;
  gi_links k l : evidence_links d !! k = Some l ->
    k = (lk_hypothesis_id l, lk_evidence_id l)
    /\ exists h row, hypotheses d !! lk_hypothesis_id l = Some h
         /\ investigations d !! h_investigation_id h = Some row
         /\ grounded d row (lk_evidence_id l);
  gi_steps i : map st_sequence (steps_of d i) = seqZ 1 (Z.of_nat (length (steps_of d i)));
  gi_step_rows s : s ∈ investigation_steps d -> is_Some (investigations d !! st_investigation_id s);
  gi_reports k r : rca_reports d !! k = Some r ->
    rca_id r = k /\ (k < uuid_supply d)%N
    /\ exists row, investigations d !! rca_investigation_id r = Some row
         /\ inv_status row = I_COMPLETED /\ inv_incident_id row = rca_incident_id r;
}.

(** ** Small facts *)

Lemma foldr_max_seqZ n : foldr Z.max 0 (seqZ 1 (Z.of_nat n)) = Z.of_nat n.
Proof.
  assert (forall a, 0 <= a -> foldr Z.max a (seqZ 1 (Z.of_nat n)) = Z.max a (Z.of_nat n)) as H;
    [|rewrite H; lia].
  induction n as [|n IH]; intros a Ha; [simpl; lia|].
  rewrite seqZ_S, foldr_app. cbn [foldr]. rewrite IH; lia.
Qed.

Lemma assoc_get_set {A} k k' (v : A) l :
  assoc_get k (assoc_set k' v l) = if decide (k = k') then Some v else assoc_get k l.
Proof.
  unfold assoc_set. case_bool_decide as Hin.
  - case_decide as Hk.
    + subst k'. induction l as [|[k1 v1] l IH]; [set_solver|]. simpl in *.
      case_bool_decide as E1; simpl; [by rewrite bool_decide_eq_true_2|].
      rewrite bool_decide_eq_false_2 by done. apply IH. set_solver.
    + clear Hin. induction l as [|[k1 v1] l IH]; [done|]. simpl.
      case_bool_decide as E1; simpl; subst.
      * by rewrite !bool_decide_eq_false_2.
      * case_bool_decide; [done|exact IH].
  - assert (assoc_get k' l = None) as Hn by (by apply assoc_get_None).
    clear Hin. induction l as [|[k1 v1] l IH]; simpl in *.
    + repeat case_decide; try case_bool_decide; done.
    + case_bool_decide; [done|]. case_bool_decide; [by rewrite decide_False by congruence|]. by apply IH.
Qed.

Lemma steps_of_app d d' l i :
  investigation_steps d' = investigation_steps d ++ l ->
  steps_of d' i = steps_of d i ++ List.filter (fun s => bool_decide (st_investigation_id s = i)) l.
Proof. intros H. unfold steps_of. by rewrite H, List.filter_app. Qed.

Lemma max_step_numbered d i :
  map st_sequence (steps_of d i) = seqZ 1 (Z.of_nat (length (steps_of d i))) ->
  max_step d i = Z.of_nat (length (steps_of d i)).
Proof.
  intros Hn. rewrite <-foldr_max_seqZ, <-Hn. clear Hn. unfold max_step.
  induction (steps_of d i) as [|s l IH]; [done|]. simpl. by rewrite IH.
Qed.

Lemma open_spec r : is_open_investigation r = true <-> inv_status r = I_CREATED \/ inv_status r = I_INVESTIGATING.
Proof.
  unfold is_open_investigation, _OPEN_INVESTIGATION. rewrite bool_decide_eq_true. set_solver.
Qed.

Lemma terminal_open r :
  inv_status r ∈ TERMINAL_INVESTIGATION_STATUSES <-> is_open_investigation r = false.
Proof.
  rewrite <-not_true_iff_false, open_spec. unfold TERMINAL_INVESTIGATION_STATUSES.
  destruct (inv_status r); set_solver.
Qed.

Lemma fenced_spec owner row :
  fenced owner row = true <-> inv_status row = I_INVESTIGATING /\ inv_lease_owner row = Some owner.
Proof. unfold fenced. by rewrite andb_true_iff, !bool_decide_eq_true. Qed.

Lemma fenced_open owner row : fenced owner row = true -> is_open_investigation row = true.
Proof. intros [? _]%fenced_spec. apply open_spec. by right. Qed.

Lemma traverse_Ok {A B} (f : A -> result B) l bs :
  traverse f l = Ok bs -> forall b, b ∈ bs <-> exists a, a ∈ l /\ f a = Ok b.
Proof.
  revert bs. induction l as [|a l IH]; intros bs; simpl.
  - intros [= <-] b. split; [by intros ?%elem_of_nil|by intros (? & ?%elem_of_nil & _)].
  - intros (b & Hb & (bs' & Hbs & [= <-])%rbind_Ok)%rbind_Ok x.
    rewrite elem_of_cons, (IH _ Hbs). split.
    + intros [->|(a' & ? & ?)]; [exists a|exists a']; set_solver.
    + intros (a' & [->|?]%elem_of_cons & Ha); [left; congruence|right; eauto].
Qed.

Lemma accessible_spec d row acc e :
  accessible d row = Ok acc -> (e ∈ acc <-> grounded d row e).
Proof.
  unfold accessible, shown_ids, grounded.
  intros (shown & (l & Hl & [= <-])%rbind_Ok & [= <-])%rbind_Ok.
  rewrite elem_of_list_to_set, list_elem_of_In, filter_In, <-list_elem_of_In, list_elem_of_In, in_concat.
  pose proof (traverse_Ok _ _ _ Hl) as Ht. split.
  - intros [(ids & Hids & He) Hr]. split; [done|].
    apply list_elem_of_In, Ht in Hids as (s & Hs & Hp).
    apply list_elem_of_In, filter_In in Hs as [Hs Hsh].
    exists s, ids. rewrite !list_elem_of_In. by split_and!.
  - intros [Hr (s & ids & Hs & Hsh & Hp & He)]. split; [|done]. exists ids.
    rewrite <- !list_elem_of_In. split; [|done]. apply Ht. exists s. split; [|done].
    apply list_elem_of_In, filter_In. by rewrite <-list_elem_of_In.
Qed.

(** ** What later states keep *)

(** Registered references stay and the trace only grows. *)
Definition grown (d d' : db) : Prop :=
  (forall k r, evidence_refs d !! k = Some r -> evidence_refs d' !! k = Some r)
  /\ (exists l, investigation_steps d' = investigation_steps d ++ l)
  /\ (uuid_supply d <= uuid_supply d')%N.

Lemma grounded_grown d d' row row' e :
  grown d d' -> inv_id row' = inv_id row -> inv_incident_id row' = inv_incident_id row ->
  grounded d row e -> grounded d' row' e.
Proof.
  intros (Hr & [l Hs] & _) Hi Hn [Hreg (s & ids & Hin & ? & ? & ?)]. unfold grounded.
  rewrite Hi, Hn. split.
  - unfold registered_for in *. destruct (evidence_refs d !! e) as [r|] eqn:E; [|done].
    by rewrite (Hr _ _ E).
  - exists s, ids. rewrite (steps_of_app _ _ _ _ Hs), elem_of_app. auto.
Qed.

(** The steps a command appends: none, or the next one of its investigation. *)
Definition next_steps (d : db) (i : uuid) (l : list InvestigationStepRow) : Prop :=
  l = [] \/ exists s, l = [s] /\ st_investigation_id s = i /\ st_sequence s = max_step d i + 1.

Lemma steps_numbered d d' i l :
  GInv d -> investigation_steps d' = investigation_steps d ++ l -> next_steps d i l ->
  forall j, map st_sequence (steps_of d' j) = seqZ 1 (Z.of_nat (length (steps_of d' j))).
Proof.
  intros HI Hs Hl j. rewrite (steps_of_app _ _ _ _ Hs). pose proof (gi_steps _ HI j) as Hn.
  destruct Hl as [->|(s & -> & <- & Hseq)]; simpl; [by rewrite app_nil_r|].
  case_bool_decide as E; [subst j|by rewrite app_nil_r].
  rewrite length_app, map_app, Hn. simpl. rewrite Nat.add_1_r, seqZ_S. do 2 f_equal.
  rewrite Hseq, max_step_numbered by done. lia.
Qed.

Lemma step_rows_kept d d' i l :
  GInv d -> investigation_steps d' = investigation_steps d ++ l -> next_steps d i l ->
  is_Some (investigations d' !! i) ->
  (forall j, is_Some (investigations d !! j) -> is_Some (investigations d' !! j)) ->
  forall s, s ∈ investigation_steps d' -> is_Some (investigations d' !! st_investigation_id s).
Proof.
  intros HI Hs Hl Hi Hk s. rewrite Hs, elem_of_app. intros [Hin|Hin].
  - apply Hk. by apply (gi_step_rows _ HI).
  - destruct Hl as [->|(s' & -> & <- & _)]; [by apply elem_of_nil in Hin|].
    by apply list_elem_of_singleton in Hin as ->.
Qed.

(** ** Rows change in place *)

(** What may change of a row without its investigation ending. *)
Definition same_investigation (row row' : InvestigationRow) : Prop :=
  inv_id row' = inv_id row /\ inv_incident_id row' = inv_incident_id row
  /\ inv_attempt_number row' = inv_attempt_number row
  /\ is_open_investigation row' = is_open_investigation row
  /\ (inv_status row = I_COMPLETED ->
      inv_status row' = I_COMPLETED
      /\ inv_selected_hypothesis_id row' = inv_selected_hypothesis_id row)
  /\ (is_open_investigation row = false -> inv_lease_owner row' = inv_lease_owner row).

Lemma row_before {d : db} {row row' i r} :
  GInv d -> investigations d !! inv_id row = Some row -> same_investigation row row' ->
  <[inv_id row := row']> (investigations d) !! i = Some r ->
  exists r0, investigations d !! i = Some r0 /\ same_investigation r0 r.
Proof.
  intros HI Hl Hsame [[<- <-]|[? Hi]]%lookup_insert_Some; [eauto|].
  exists r. split; [done|]. by split_and!.
Qed.

Lemma row_after {d : db} {row row' i r} :
  investigations d !! inv_id row = Some row -> same_investigation row row' ->
  investigations d !! i = Some r ->
  exists r', <[inv_id row := row']> (investigations d) !! i = Some r' /\ same_investigation r r'.
Proof.
  intros Hl Hsame Hi. destruct (decide (inv_id row = i)) as [<-|Hne].
  - exists row'. rewrite lookup_insert_eq. split; [done|]. by replace r with row by congruence.
  - exists r. rewrite lookup_insert_ne by done. split; [done|]. by split_and!.
Qed.

Lemma GInv_row d d' row row' l :
  GInv d -> investigations d !! inv_id row = Some row -> same_investigation row row' ->
  tables d' (<[inv_id row := row']> (investigations d)) (hypotheses d) (evidence_links d)
    (investigation_steps d ++ l) (rca_reports d) (incidents d) ->
  next_steps d (inv_id row) l -> grown d d' -> GInv d'.
Proof.
  intros HI Hl Hsame (T1 & T2 & T3 & T4 & T5 & T6) Hn Hg.
  assert (forall j, is_Some (investigations d !! j) -> is_Some (investigations d' !! j)) as Hkeep.
  { intros j [r Hr]. rewrite T1. destruct (row_after Hl Hsame Hr) as (r' & -> & _). eauto. }
  pose proof Hg as (_ & _ & Hsup).
  constructor; rewrite ?T2, ?T3, ?T5, ?T6.
  - intros i r Hi. destruct (gi_incidents _ HI _ _ Hi) as (? & ? & ?). split_and!; [done|lia|done].
  - rewrite T1. intros i r Hi. destruct (row_before HI Hl Hsame Hi) as (r0 & E0 & S1 & S2 & S3 & _).
    rewrite S1, S2, S3. destruct (gi_rows _ HI _ _ E0) as (? & ? & ?). split_and!; [done|lia|done].
  - rewrite T1. intros i j r s Hi Hj.
    destruct (row_before HI Hl Hsame Hi) as (r0 & E0 & _ & R2 & R3 & _).
    destruct (row_before HI Hl Hsame Hj) as (s0 & E1 & _ & S2 & S3 & _).
    rewrite R2, R3, S2, S3. by apply (gi_attempts _ HI).
  - rewrite T1. intros i j r s Hi Hj.
    destruct (row_before HI Hl Hsame Hi) as (r0 & E0 & _ & R2 & _ & R4 & _).
    destruct (row_before HI Hl Hsame Hj) as (s0 & E1 & _ & S2 & _ & S4 & _).
    rewrite R2, R4, S2, S4. by apply (gi_open _ HI).
  - rewrite T1. intros i r Hi. destruct (row_before HI Hl Hsame Hi) as (r0 & E0 & _ & _ & _ & S4 & _ & S6).
    rewrite S4. intros Ho. rewrite S6 by done. by apply (gi_lease _ HI i).
  - rewrite T1. intros n inc Hi. rewrite (gi_investigating _ HI _ _ Hi). split.
    + intros (i & r & Hr & ? & ?). destruct (row_after Hl Hsame Hr) as (r' & Hr' & _ & S2 & _ & S4 & _).
      exists i, r'. rewrite S2, S4. done.
    + intros (i & r & Hr & ? & ?). destruct (row_before HI Hl Hsame Hr) as (r0 & E0 & _ & S2 & _ & S4 & _).
      exists i, r0. rewrite <-S2, <-S4. done.
  - intros h r Hh. destruct (gi_hyps _ HI _ _ Hh) as (? & ? & ?). split_and!; [done|lia|auto].
  - apply (gi_keys _ HI).
  - rewrite T1. intros h r Hh Hs. destruct (gi_selected _ HI _ _ Hh Hs) as (q & Hq & Hc & Hsel).
    destruct (row_after Hl Hsame Hq) as (q' & Hq' & _ & _ & _ & _ & S5 & _).
    destruct (S5 Hc) as [S6 S7]. exists q'. rewrite S7. done.
  - rewrite T1. intros k x Hk. destruct (gi_links _ HI _ _ Hk) as (? & h & q & Hh & Hq & Hgr).
    split; [done|]. destruct (row_after Hl Hsame Hq) as (q' & Hq' & S1 & S2 & _).
    exists h, q'. split_and!; [done..|]. by eapply grounded_grown.
  - by apply (steps_numbered d d' (inv_id row) l).
  - apply (step_rows_kept d d' (inv_id row) l); try done. apply Hkeep. eauto.
  - rewrite T1. intros k r Hk. destruct (gi_reports _ HI _ _ Hk) as (? & ? & q & Hq & Hc & ?).
    split_and!; [done|lia|]. destruct (row_after Hl Hsame Hq) as (q' & Hq' & _ & S2 & _ & _ & S5 & _).
    destruct (S5 Hc) as [S6 S7]. exists q'. rewrite S2. done.
Qed.

(** ** Other services *)

(** A transaction that keeps to the tables of another service: references are only
    added, and an incident neither becomes nor stops being INVESTIGATING. *)
Definition onlooker (d d' : db) : Prop :=
  investigations d' = investigations d /\ hypotheses d' = hypotheses d
  /\ evidence_links d' = evidence_links d /\ investigation_steps d' = investigation_steps d
  /\ rca_reports d' = rca_reports d
  /\ (forall k r, evidence_refs d !! k = Some r -> evidence_refs d' !! k = Some r)
  /\ (uuid_supply d <= uuid_supply d')%N
  /\ (forall i r, incidents d !! i = Some r -> exists r', incidents d' !! i = Some r'
        /\ i_id r' = i_id r /\ i_attempt_count r <= i_attempt_count r'
        /\ (i_status r' = INVESTIGATING <-> i_status r = INVESTIGATING))
  /\ (forall i r', incidents d' !! i = Some r' -> incidents d !! i = None ->
        i_id r' = i /\ (i < uuid_supply d')%N /\ i_attempt_count r' = 0
        /\ i_status r' <> INVESTIGATING).

Lemma onlooker_incidents d d' :
  investigations d' = investigations d -> hypotheses d' = hypotheses d ->
  evidence_links d' = evidence_links d -> investigation_steps d' = investigation_steps d ->
  rca_reports d' = rca_reports d ->
  (forall k r, evidence_refs d !! k = Some r -> evidence_refs d' !! k = Some r) ->
  (uuid_supply d <= uuid_supply d')%N -> incidents d' = incidents d -> onlooker d d'.
Proof.
  intros. unfold onlooker. split_and!; try done; intros i r; rewrite H6; [|congruence].
  intros Hi. exists r. split_and!; [done|done|lia|done].
Qed.

Lemma GInv_onlooker d d' : GInv d -> onlooker d d' -> GInv d'.
Proof.
  intros HI (T1 & T2 & T3 & T4 & T5 & Hr & Hs & Hk & Hn).
  assert (grown d d') as Hg.
  { split_and!; [done| |done]. exists []. by rewrite T4, app_nil_r. }
  assert (forall i, steps_of d' i = steps_of d i) as Hso by (intros i; unfold steps_of; by rewrite T4).
  constructor; rewrite ?T1, ?T2, ?T3, ?T4, ?T5.
  - intros i r' Hi. destruct (incidents d !! i) as [r|] eqn:E.
    + destruct (Hk _ _ E) as (q & Hq & E1 & E2 & _). simplify_eq.
      destruct (gi_incidents _ HI _ _ E) as (? & ? & ?). split_and!; [congruence|lia|lia].
    + destruct (Hn _ _ Hi E) as (? & ? & ? & _). split_and!; [done|done|lia].
  - intros i r Hi. destruct (gi_rows _ HI _ _ Hi) as (? & ? & inc & Hinc & Ha).
    destruct (Hk _ _ Hinc) as (inc' & Hinc' & _ & E & _). split_and!; [done|lia|].
    exists inc'. split; [done|lia].
  - apply (gi_attempts _ HI).
  - apply (gi_open _ HI).
  - apply (gi_lease _ HI).
  - intros n r' Hi. destruct (incidents d !! n) as [r|] eqn:E.
    + destruct (Hk _ _ E) as (q & Hq & _ & _ & Hiff). simplify_eq.
      rewrite Hiff. by apply (gi_investigating _ HI).
    + destruct (Hn _ _ Hi E) as (_ & _ & _ & Hne). split; [done|].
      intros (i & r & Hr' & Hinc & _). destruct (gi_rows _ HI _ _ Hr') as (_ & _ & inc & Hl & _).
      congruence.
  - intros h r Hh. destruct (gi_hyps _ HI _ _ Hh) as (? & ? & ?). split_and!; [done|lia|done].
  - apply (gi_keys _ HI).
  - apply (gi_selected _ HI).
  - intros k l Hl. destruct (gi_links _ HI _ _ Hl) as (? & h & row & ? & ? & ?). split; [done|].
    exists h, row. split_and!; [done..|]. by eapply grounded_grown.
  - intros i. rewrite Hso. apply (gi_steps _ HI).
  - apply (gi_step_rows _ HI).
  - intros k r Hk'. destruct (gi_reports _ HI _ _ Hk') as (? & ? & ?). split_and!; [done|lia|done].
Qed.

(** The tables are the same: nothing changes for the invariant. *)
Lemma GInv_ext d d' : GInv d -> unchanged_tables d d' -> grown d d' -> GInv d'.
Proof.
  intros HI (T1 & T2 & T3 & T4 & T5 & T6) (? & _ & ?).
  eapply GInv_onlooker; [done|]. by apply onlooker_incidents.
Qed.

(** ** Hypotheses and links *)

Definition selection_ok (d : db) (h : HypothesisRow) : Prop :=
  h_status h = H_SELECTED ->
  exists row, investigations d !! h_investigation_id h = Some row
    /\ inv_status row = I_COMPLETED /\ inv_selected_hypothesis_id row = Some (h_id h).

Lemma GInv_hypothesis d d' h :
  GInv d ->
  tables d' (investigations d) (<[h_id h := h]> (hypotheses d)) (evidence_links d)
    (investigation_steps d) (rca_reports d) (incidents d) ->
  grown d d' -> (h_id h < uuid_supply d')%N -> selection_ok d h ->
  is_Some (investigations d !! h_investigation_id h) ->
  match hypotheses d !! h_id h with
  | Some h0 => h_investigation_id h0 = h_investigation_id h /\ h_key h0 = h_key h
  | None => forall g r, hypotheses d !! g = Some r -> h_investigation_id r = h_investigation_id h ->
              h_key r <> h_key h
  end -> GInv d'.
Proof.
  intros HI (T1 & T2 & T3 & T4 & T5 & T6) Hg Hlt Hsel Hinv Hold. pose proof Hg as (_ & _ & Hsup).
  assert (forall g r, hypotheses d !! g = Some r -> h_investigation_id r = h_investigation_id h ->
            h_key r = h_key h -> g = h_id h) as Huniq.
  { intros g r Hr Hi Hk. destruct (hypotheses d !! h_id h) as [h0|] eqn:E.
    - destruct Hold. eapply (gi_keys _ HI g (h_id h) r h0); congruence.
    - by destruct (Hold _ _ Hr Hi). }
  constructor; rewrite ?T1, ?T2, ?T3, ?T4, ?T5, ?T6.
  - intros i r Hi. destruct (gi_incidents _ HI _ _ Hi) as (? & ? & ?). split_and!; [done|lia|done].
  - intros i r Hi. destruct (gi_rows _ HI _ _ Hi) as (? & ? & ?). split_and!; [done|lia|done].
  - apply (gi_attempts _ HI).
  - apply (gi_open _ HI).
  - apply (gi_lease _ HI).
  - apply (gi_investigating _ HI).
  - intros i r [[<- <-]|[_ Hi]]%lookup_insert_Some; [by split_and!|].
    destruct (gi_hyps _ HI _ _ Hi) as (? & ? & ?). split_and!; [done|lia|done].
  - intros i j r s [[<- <-]|[Hi1 Hi]]%lookup_insert_Some [[<- <-]|[Hj1 Hj]]%lookup_insert_Some; intros Ei Ek.
    + done.
    + symmetry. by eapply Huniq.
    + by eapply Huniq.
    + by eapply (gi_keys _ HI).
  - intros i r [[<- <-]|[_ Hi]]%lookup_insert_Some; [done|]. by apply (gi_selected _ HI).
  - intros k l Hk. destruct (gi_links _ HI _ _ Hk) as (? & q & row & Hq & Hrow & Hgr).
    split; [done|]. destruct (decide (h_id h = lk_hypothesis_id l)) as [E|E].
    + rewrite <-E in *. rewrite lookup_insert_eq. rewrite Hq in Hold. destruct Hold as [Ei _].
      exists h, row. split_and!; [done|congruence|]. by eapply grounded_grown.
    + exists q, row. rewrite lookup_insert_ne by done. split_and!; [done..|].
      by eapply grounded_grown.
  - intros i. unfold steps_of. rewrite T4. apply (gi_steps _ HI).
  - apply (gi_step_rows _ HI).
  - intros k r Hk. destruct (gi_reports _ HI _ _ Hk) as (? & ? & ?). split_and!; [done|lia|done].
Qed.

Lemma GInv_link d d' now h row (P : LinkRelation -> uuid -> Prop) :
  GInv d ->
  tables d' (investigations d) (hypotheses d) (evidence_links d') (investigation_steps d)
    (rca_reports d) (incidents d) ->
  grown d d' -> links_added now (h_id h) P (evidence_links d) (evidence_links d') ->
  hypotheses d !! h_id h = Some h -> investigations d !! h_investigation_id h = Some row ->
  (forall rel e, P rel e -> grounded d row e) -> GInv d'.
Proof.
  intros HI (T1 & T2 & _ & T4 & T5 & T6) Hg [_ Hnew] Hh Hrow HP. pose proof Hg as (_ & _ & Hsup).
  constructor; rewrite ?T1, ?T2, ?T4, ?T5, ?T6.
  - intros i r Hi. destruct (gi_incidents _ HI _ _ Hi) as (? & ? & ?). split_and!; [done|lia|done].
  - intros i r Hi. destruct (gi_rows _ HI _ _ Hi) as (? & ? & ?). split_and!; [done|lia|done].
  - apply (gi_attempts _ HI).
  - apply (gi_open _ HI).
  - apply (gi_lease _ HI).
  - apply (gi_investigating _ HI).
  - intros i r Hi. destruct (gi_hyps _ HI _ _ Hi) as (? & ? & ?). split_and!; [done|lia|done].
  - apply (gi_keys _ HI).
  - apply (gi_selected _ HI).
  - intros k l Hk. destruct (Hnew _ _ Hk) as [Hold|(_ & rel & e & Hp & -> & ->)].
    + destruct (gi_links _ HI _ _ Hold) as (? & q & row' & ? & ? & ?). split; [done|].
      exists q, row'. split_and!; [done..|]. by eapply grounded_grown.
    + split; [done|]. exists h, row. split_and!; [done..|]. simpl.
      eapply grounded_grown; eauto.
  - intros i. unfold steps_of. rewrite T4. apply (gi_steps _ HI).
  - apply (gi_step_rows _ HI).
  - intros k r Hk. destruct (gi_reports _ HI _ _ Hk) as (? & ? & ?). split_and!; [done|lia|done].
Qed.

(** ** An investigation ends, starts, is reported *)

Lemma open_is_investigating d i row :
  GInv d -> investigations d !! i = Some row -> is_open_investigation row = true ->
  exists inc, incidents d !! inv_incident_id row = Some inc /\ i_id inc = inv_incident_id row
              /\ i_status inc = INVESTIGATING.
Proof.
  intros HI Hi Ho. destruct (gi_rows _ HI _ _ Hi) as (_ & _ & inc & Hinc & _).
  exists inc. split; [done|]. split; [by apply (gi_incidents _ HI)|].
  apply (gi_investigating _ HI _ _ Hinc). eauto.
Qed.

Lemma GInv_closed d d' row row' inc to now l :
  GInv d -> investigations d !! inv_id row = Some row -> is_open_investigation row = true ->
  inv_id row' = inv_id row -> inv_incident_id row' = inv_incident_id row ->
  inv_attempt_number row' = inv_attempt_number row -> is_open_investigation row' = false ->
  inv_lease_owner row' = None ->
  incidents d !! inv_incident_id row = Some inc -> to <> INVESTIGATING ->
  tables d' (<[inv_id row := row']> (investigations d)) (hypotheses d) (evidence_links d)
    (investigation_steps d ++ l) (rca_reports d)
    (<[i_id inc := moved_row now to false inc]> (incidents d)) ->
  next_steps d (inv_id row) l -> grown d d' -> GInv d'.
Proof.
  intros HI Hl Ho R1 R2 R3 R4 R5 Hinc Hto (T1 & T2 & T3 & T4 & T5 & T6) Hn Hg.
  pose proof Hg as (_ & _ & Hsup).
  destruct (gi_incidents _ HI _ _ Hinc) as (Kinc & Ninc & Ainc).
  assert (forall j, is_Some (investigations d !! j) -> is_Some (investigations d' !! j)) as Hkeep.
  { intros j. rewrite T1, lookup_insert_is_Some. destruct (decide (inv_id row = j)); naive_solver. }
  assert (forall i r, <[inv_id row := row']> (investigations d) !! i = Some r ->
            exists r0, investigations d !! i = Some r0 /\ inv_id r = inv_id r0
              /\ inv_incident_id r = inv_incident_id r0 /\ inv_attempt_number r = inv_attempt_number r0
              /\ (is_open_investigation r = true -> r0 = r /\ i <> inv_id row)) as Hback.
  { intros i r [[<- <-]|[? Hi]]%lookup_insert_Some; [|eauto 10].
    exists row. split_and!; try done. congruence. }
  assert (forall i r, investigations d !! i = Some r -> inv_status r = I_COMPLETED ->
            <[inv_id row := row']> (investigations d) !! i = Some r) as Hdone.
  { intros i r Hi Hc. rewrite lookup_insert_ne; [done|]. intros <-. simplify_eq.
    apply open_spec in Ho. destruct Ho; congruence. }
  constructor; rewrite ?T2, ?T3, ?T5, ?T6.
  - intros i r [[<- <-]|[_ Hi]]%lookup_insert_Some; [simpl; split_and!; [done|lia|done]|].
    destruct (gi_incidents _ HI _ _ Hi) as (? & ? & ?). split_and!; [done|lia|done].
  - rewrite T1. intros i r Hi. destruct (Hback _ _ Hi) as (r0 & E0 & -> & -> & -> & _).
    destruct (gi_rows _ HI _ _ E0) as (? & ? & q & Hq & ?). split_and!; [done|lia|].
    destruct (decide (i_id inc = inv_incident_id r0)) as [E|E].
    + rewrite <-E, lookup_insert_eq. eexists. split; [done|]. simpl.
      rewrite <-E, Kinc in Hq. by simplify_eq.
    + rewrite lookup_insert_ne by done. eauto.
  - rewrite T1. intros i j r s Hi Hj. destruct (Hback _ _ Hi) as (r0 & E0 & _ & -> & -> & _).
    destruct (Hback _ _ Hj) as (s0 & E1 & _ & -> & -> & _). by apply (gi_attempts _ HI).
  - rewrite T1. intros i j r s Hi Hj Hrs Or Os.
    destruct (Hback _ _ Hi) as (r0 & E0 & _ & _ & _ & Hor).
    destruct (Hback _ _ Hj) as (s0 & E1 & _ & _ & _ & Hos).
    destruct (Hor Or) as [-> _], (Hos Os) as [-> _]. by eapply (gi_open _ HI i j).
  - rewrite T1. intros i r [[<- <-]|[_ Hi]]%lookup_insert_Some Hc; [done|]. by apply (gi_lease _ HI i).
  - rewrite T1. intros n q [[<- <-]|[Hne Hi]]%lookup_insert_Some.
    + split; [done|]. intros (i & r & Hr & Hrn & Or).
      destruct (Hback _ _ Hr) as (r0 & E0 & _ & _ & _ & Hor). destruct (Hor Or) as [-> Hir].
      exfalso. apply Hir. eapply (gi_open _ HI i (inv_id row)); eauto. congruence.
    + rewrite (gi_investigating _ HI _ _ Hi). split.
      * intros (i & r & Hr & Hrn & Or). exists i, r. split; [|done]. rewrite lookup_insert_ne; [done|].
        intros <-. by simplify_eq.
      * intros (i & r & Hr & Hrn & Or). destruct (Hback _ _ Hr) as (r0 & E0 & _ & _ & _ & Hor).
        destruct (Hor Or) as [-> _]. eauto.
  - intros h r Hh. destruct (gi_hyps _ HI _ _ Hh) as (? & ? & ?). split_and!; [done|lia|auto].
  - apply (gi_keys _ HI).
  - rewrite T1. intros h r Hh Hs. destruct (gi_selected _ HI _ _ Hh Hs) as (q & Hq & Hc & Hsel). eauto.
  - rewrite T1. intros k x Hk. destruct (gi_links _ HI _ _ Hk) as (? & h & q & Hh & Hq & Hgr).
    split; [done|]. destruct (decide (inv_id row = h_investigation_id h)) as [E|E].
    + exists h, row'. rewrite E, lookup_insert_eq. split_and!; [done..|].
      rewrite <-E in Hq. simplify_eq. by eapply grounded_grown.
    + exists h, q. rewrite lookup_insert_ne by done. split_and!; [done..|]. by eapply grounded_grown.
  - by apply (steps_numbered d d' (inv_id row) l).
  - apply (step_rows_kept d d' (inv_id row) l); try done. apply Hkeep. eauto.
  - rewrite T1. intros k r Hk. destruct (gi_reports _ HI _ _ Hk) as (? & ? & q & Hq & Hc & ?).
    split_and!; [done|lia|]. eauto.
Qed.

Lemma GInv_report d d' r row :
  GInv d -> investigations d !! rca_investigation_id r = Some row -> inv_status row = I_COMPLETED ->
  inv_incident_id row = rca_incident_id r -> (rca_id r < uuid_supply d')%N ->
  tables d' (investigations d) (hypotheses d) (evidence_links d) (investigation_steps d)
    (<[rca_id r := r]> (rca_reports d)) (incidents d) ->
  grown d d' -> GInv d'.
Proof.
  intros HI Hrow Hc Hn Hid (T1 & T2 & T3 & T4 & T5 & T6) Hg. pose proof Hg as (Hrefs & _ & Hsup).
  pose proof (GInv_ext d (d' <| rca_reports := rca_reports d |>) HI) as HI'.
  destruct HI' as [I1 I2 I3 I4 I5 I6 I7 I8 I9 I10 I11 I12 _].
  { by split_and!. } { split_and!; [done| |done]. exists []. simpl. by rewrite T4, app_nil_r. }
  constructor; try done. rewrite T1, T5.
  intros k q [[<- <-]|[_ Hk]]%lookup_insert_Some; [split_and!; [done..|]; by exists row|].
  destruct (gi_reports _ HI _ _ Hk) as (? & ? & ?). split_and!; [done|lia|done].
Qed.

Lemma GInv_started d d' row inc inc' :
  GInv d -> incidents d !! inv_incident_id row = Some inc -> i_status inc <> INVESTIGATING ->
  investigations d !! inv_id row = None -> (inv_id row < uuid_supply d')%N ->
  inv_attempt_number row = i_attempt_count inc + 1 -> is_open_investigation row = true ->
  i_id inc' = i_id inc -> i_attempt_count inc' = i_attempt_count inc + 1 ->
  i_status inc' = INVESTIGATING ->
  tables d' (<[inv_id row := row]> (investigations d)) (hypotheses d) (evidence_links d)
    (investigation_steps d) (rca_reports d) (<[i_id inc := inc']> (incidents d)) ->
  grown d d' -> GInv d'.
Proof.
  intros HI Hinc Hst Hfresh Hlt Hatt Hopen Kinc' Ainc' Sinc' (T1 & T2 & T3 & T4 & T5 & T6) Hg.
  pose proof Hg as (_ & _ & Hsup). destruct (gi_incidents _ HI _ _ Hinc) as (Kinc & Ninc & Ainc).
  assert (forall i r, investigations d !! i = Some r -> investigations d' !! i = Some r) as Hkeep.
  { intros i r Hi. rewrite T1, lookup_insert_ne; [done|congruence]. }
  assert (forall i r, investigations d !! i = Some r -> inv_incident_id r = inv_incident_id row ->
            is_open_investigation r = false /\ inv_attempt_number r <= i_attempt_count inc) as Hnone.
  { intros i r Hi Hn. split.
    - destruct (is_open_investigation r) eqn:E; [|done].
      destruct (open_is_investigating _ _ _ HI Hi E) as (q & Hq & _ & ?). rewrite Hn in Hq. congruence.
    - destruct (gi_rows _ HI _ _ Hi) as (_ & _ & q & Hq & ?). rewrite Hn in Hq. by simplify_eq. }
  constructor; rewrite ?T2, ?T3, ?T5, ?T6.
  - intros i r [[<- <-]|[_ Hi]]%lookup_insert_Some; [split_and!; [done|lia|lia]|].
    destruct (gi_incidents _ HI _ _ Hi) as (? & ? & ?). split_and!; [done|lia|done].
  - rewrite T1. intros i r [[<- <-]|[_ Hi]]%lookup_insert_Some.
    + split_and!; [done..|]. exists inc'. rewrite <-Kinc, lookup_insert_eq. split; [done|lia].
    + destruct (gi_rows _ HI _ _ Hi) as (? & ? & q & Hq & ?). split_and!; [done|lia|].
      destruct (decide (i_id inc = inv_incident_id r)) as [E|E].
      * exists inc'. rewrite <-E, lookup_insert_eq. split; [done|]. rewrite <-E, Kinc in Hq.
        simplify_eq. lia.
      * exists q. by rewrite lookup_insert_ne.
  - rewrite T1. intros i j r s [[<- <-]|[_ Hi]]%lookup_insert_Some [[<- <-]|[_ Hj]]%lookup_insert_Some En Ea.
    + done.
    + destruct (Hnone _ _ Hj); [done|lia].
    + destruct (Hnone _ _ Hi); [done|lia].
    + by eapply (gi_attempts _ HI).
  - rewrite T1. intros i j r s [[<- <-]|[_ Hi]]%lookup_insert_Some [[<- <-]|[_ Hj]]%lookup_insert_Some En Or Os.
    + done.
    + destruct (Hnone _ _ Hj); congruence.
    + destruct (Hnone _ _ Hi); congruence.
    + by eapply (gi_open _ HI).
  - rewrite T1. intros i r [[<- <-]|[_ Hi]]%lookup_insert_Some Hc; [congruence|]. by apply (gi_lease _ HI i).
  - intros n q [[<- <-]|[Hne Hi]]%lookup_insert_Some.
    + split; [intros _|done]. exists (inv_id row), row. rewrite T1, lookup_insert_eq. by rewrite Kinc.
    + rewrite (gi_investigating _ HI _ _ Hi). split.
      * intros (i & r & Hr & ? & ?). exists i, r. eauto.
      * rewrite T1. intros (i & r & [[<- <-]|[_ Hr]]%lookup_insert_Some & ? & ?); [congruence|eauto].
  - intros h r Hh. destruct (gi_hyps _ HI _ _ Hh) as (? & ? & q & Hq). split_and!; [done|lia|eauto].
  - apply (gi_keys _ HI).
  - intros h r Hh Hs. destruct (gi_selected _ HI _ _ Hh Hs) as (q & Hq & ? & ?). eauto.
  - intros k x Hk. destruct (gi_links _ HI _ _ Hk) as (? & h & q & Hh & Hq & Hgr).
    split; [done|]. exists h, q. split_and!; [done|auto|]. by eapply grounded_grown.
  - intros i. unfold steps_of. rewrite T4. apply (gi_steps _ HI).
  - rewrite T4. intros s Hs. destruct (gi_step_rows _ HI _ Hs) as [q Hq]. eauto.
  - intros k r Hk. destruct (gi_reports _ HI _ _ Hk) as (? & ? & q & Hq & ?).
    split_and!; [done|lia|]. eauto.
Qed.

Lemma GInv_empty : GInv empty_db.
Proof.
  constructor; simpl; intros *; rewrite ?lookup_empty; try done.
  by intros ?%elem_of_nil.
Qed.
