(* ===== verification/InvestigationKeeps.v ===== *)
(** * What every investigation command keeps

    [kept_history]: what no command takes back; and that every command keeps it
    together with the invariant [GInv].  Then what the steps of an investigation record. *)
From S2P Require Import Prelude PyFloat Json Enums VerificationDomain Catalog.
From S2P Require Import RemediationDomain Uuid InvestigationDomain InvestigationRules Policy.
From S2P Require Import Store TxLogic RemediationLifecycle RemediationService RemediationProofs.
From S2P Require Import InvestigationService InvestigationProofs InvestigationInvariant.
Local Open Scope Z_scope.

Lemma frame_grown d d' l :
  investigation_frame d d' -> investigation_steps d' = investigation_steps d ++ l -> grown d d'.
Proof. intros [-> Hs] Hl. simpl in *. split_and!; [done|by exists l|done]. Qed.

Lemma frame_grown_same d d' :
  investigation_frame d d' -> investigation_steps d' = investigation_steps d -> grown d d'.
Proof. intros Hf Hl. apply (frame_grown d d' []); [done|]. by rewrite app_nil_r. Qed.

(** ** What is never taken back *)

(** The columns of a hypothesis no update changes. *)
Definition same_hypothesis (h h' : HypothesisRow) : Prop :=
  h_id h' = h_id h /\ h_investigation_id h' = h_investigation_id h /\ h_key h' = h_key h
  /\ h_cause_category h' = h_cause_category h /\ h_component h' = h_component h
  /\ (h_status h = H_REJECTED \/ h_status h = H_SELECTED -> h' = h).

Definition identity_cols (r : InvestigationRow) :=
  (inv_id r, inv_incident_id r, inv_attempt_number r, inv_model_provider r, inv_model_name r,
   inv_model_config r, inv_budget r, inv_created_at r).

(** From [d] to [d'] nothing recorded is lost, and what has ended is as it was. *)
Record kept_history (d d' : db) : Prop := {
  kh_hyps g h : hypotheses d !! g = Some h ->
    exists h', hypotheses d' !! g = Some h' /\ same_hypothesis h h';
  kh_links k l : evidence_links d !! k = Some l -> evidence_links d' !! k = Some l;
  kh_reports k r : rca_reports d !! k = Some r -> rca_reports d' !! k = Some r;
  kh_steps : exists l, investigation_steps d' = investigation_steps d ++ l;
  kh_rows i r : investigations d !! i = Some r ->
    exists r', investigations d' !! i = Some r' /\ identity_cols r' = identity_cols r
      /\ (is_open_investigation r = false -> r' = r);
  kh_ended i r : investigations d !! i = Some r -> is_open_investigation r = false ->
    steps_of d' i = steps_of d i
    /\ (forall g h, hypotheses d' !! g = Some h -> h_investigation_id h = i ->
          hypotheses d !! g = Some h);
}.

Lemma same_hypothesis_refl h : same_hypothesis h h.
Proof. by split_and!. Qed.

#[export] Instance kept_history_preorder : PreOrder kept_history.
Proof.
  split.
  - intros d. constructor; eauto using same_hypothesis_refl.
    exists []. by rewrite app_nil_r.
  - intros d1 d2 d3 [H1 L1 R1 S1 I1 E1] [H2 L2 R2 S2 I2 E2]. constructor; auto.
    + intros g h Hg. destruct (H1 _ _ Hg) as (h2 & Hg2 & A1 & A2 & A3 & A4 & A5 & A6).
      destruct (H2 _ _ Hg2) as (h3 & Hg3 & B1 & B2 & B3 & B4 & B5 & B6).
      exists h3. split; [done|]. split_and!; try congruence.
      intros Hs. rewrite <-(A6 Hs). apply B6. by rewrite (A6 Hs).
    + destruct S1 as [l1 S1], S2 as [l2 S2]. exists (l1 ++ l2). by rewrite S2, S1, app_assoc.
    + intros i r Hi. destruct (I1 _ _ Hi) as (r2 & Hi2 & C1 & F1).
      destruct (I2 _ _ Hi2) as (r3 & Hi3 & C2 & F2). exists r3. split; [done|]. split; [congruence|].
      intros Ho. rewrite <-(F1 Ho). apply F2. by rewrite (F1 Ho).
    + intros i r Hi Ho. destruct (E1 _ _ Hi Ho) as [Es1 Eh1]. destruct (I1 _ _ Hi) as (r2 & Hi2 & _ & F1).
      rewrite (F1 Ho) in Hi2. destruct (E2 _ _ Hi2 Ho) as [Es2 Eh2]. split; [congruence|eauto].
Qed.

Lemma other_steps (l : list InvestigationStepRow) i j :
  (forall s, s ∈ l -> st_investigation_id s = i) -> j <> i ->
  List.filter (fun s => bool_decide (st_investigation_id s = j)) l = [].
Proof.
  intros Hl Hne. induction l as [|s l IH]; [done|]. simpl.
  rewrite bool_decide_eq_false_2 by (rewrite (Hl s) by set_solver; congruence).
  apply IH. set_solver.
Qed.

(** A change that adds hypotheses or edits some, appends steps and rewrites one open
    investigation keeps the history. *)
Lemma kept_by_rows d d' l i :
  (forall g h, hypotheses d !! g = Some h ->
     exists h', hypotheses d' !! g = Some h' /\ same_hypothesis h h') ->
  (forall k l, evidence_links d !! k = Some l -> evidence_links d' !! k = Some l) ->
  (forall k r, rca_reports d !! k = Some r -> rca_reports d' !! k = Some r) ->
  investigation_steps d' = investigation_steps d ++ l ->
  (forall j r, investigations d !! j = Some r ->
     exists r', investigations d' !! j = Some r' /\ identity_cols r' = identity_cols r
       /\ (j <> i -> r' = r)) ->
  (forall r, investigations d !! i = Some r -> is_open_investigation r = true) ->
  (forall s, s ∈ l -> st_investigation_id s = i) ->
  (forall g h, hypotheses d' !! g = Some h -> h_investigation_id h <> i ->
     hypotheses d !! g = Some h) ->
  kept_history d d'.
Proof.
  intros Hh Hk Hr Hs Hi Ho Hl Hn.
  assert (forall j r, investigations d !! j = Some r -> is_open_investigation r = false -> j <> i) as Hne.
  { intros j r Hj Hc ->. rewrite (Ho _ Hj) in Hc. done. }
  constructor; try done; [by exists l| |].
  - intros j r Hj. destruct (Hi _ _ Hj) as (r' & ? & ? & ?). eauto 10.
  - intros j r Hj Hc. split.
    + rewrite (steps_of_app _ _ _ _ Hs), (other_steps l i j), app_nil_r by eauto. done.
    + intros g h Hg Hgj. apply Hn; [done|]. rewrite Hgj. eauto.
Qed.

(** The same when no hypothesis changes. *)
Lemma kept_by_row d d' l row row' reports incs :
  investigations d !! inv_id row = Some row -> is_open_investigation row = true ->
  identity_cols row' = identity_cols row ->
  tables d' (<[inv_id row := row']> (investigations d)) (hypotheses d) (evidence_links d)
    (investigation_steps d ++ l) reports incs ->
  (forall k r, rca_reports d !! k = Some r -> reports !! k = Some r) ->
  (forall s, s ∈ l -> st_investigation_id s = inv_id row) -> kept_history d d'.
Proof.
  intros Hl Ho Hc (T1 & T2 & T3 & T4 & T5 & _) Hr Hs.
  apply (kept_by_rows d d' l (inv_id row)); rewrite ?T1, ?T2, ?T3, ?T5; try done; try congruence.
  - eauto using same_hypothesis_refl.
  - intros j r Hj. destruct (decide (inv_id row = j)) as [<-|Hne].
    + exists row'. rewrite lookup_insert_eq. split_and!; [done|congruence|done].
    + exists r. by rewrite lookup_insert_ne.
Qed.

Lemma kept_ext d d' incs :
  tables d' (investigations d) (hypotheses d) (evidence_links d) (investigation_steps d)
    (rca_reports d) incs -> kept_history d d'.
Proof.
  intros (T1 & T2 & T3 & T4 & T5 & _). constructor; rewrite ?T1, ?T2, ?T3, ?T5;
    eauto using same_hypothesis_refl.
  - exists []. by rewrite T4, app_nil_r.
  - intros i r Hi Ho. unfold steps_of. rewrite T4. split; [done|]. congruence.
Qed.

(** ** Commands that write one row *)

Definition keeps (d d' : db) : Prop := GInv d' /\ kept_history d d'.

Lemma keeps_row d d' row row' l :
  GInv d -> investigations d !! inv_id row = Some row -> is_open_investigation row = true ->
  is_open_investigation row' = true -> identity_cols row' = identity_cols row ->
  tables d' (<[inv_id row := row']> (investigations d)) (hypotheses d) (evidence_links d)
    (investigation_steps d ++ l) (rca_reports d) (incidents d) ->
  next_steps d (inv_id row) l -> investigation_frame d d' -> keeps d d'.
Proof.
  intros HI Hl Ho Ho' Hc Ht Hn Hf. split.
  - apply (GInv_row d d' row row' l); try done; [|eapply frame_grown; [done|by destruct Ht as (_ & _ & _ & ? & _)]].
    injection Hc as E1 E2 E3 _ _ _ _ _. split_and!; try congruence.
    intros Hs. apply open_spec in Ho. destruct Ho; congruence.
  - apply (kept_by_row d d' l row row' (rca_reports d) (incidents d)); try done. intros s Hs.
    destruct Hn as [->|(s' & -> & <- & _)]; [by apply elem_of_nil in Hs|].
    by apply list_elem_of_singleton in Hs as ->.
Qed.

Lemma keeps_refl d : GInv d -> keeps d d.
Proof. by split. Qed.

Lemma atomically_keeps {A} (m : Tx A) d :
  GInv d -> (forall a d', m d = Ok (a, d') -> keeps d d') -> keeps d (atomically m d).2.
Proof.
  intros HI Hm. unfold atomically. destruct (m d) as [[a d']|e] eqn:E; [by eapply Hm|].
  by apply keeps_refl.
Qed.

Lemma row_key d i row : GInv d -> investigations d !! i = Some row -> inv_id row = i.
Proof. intros HI Hi. by apply (gi_rows _ HI). Qed.

Lemma take_lease_keeps now i owner lease d b d' :
  GInv d -> take_lease now i owner lease d = Ok (b, d') -> keeps d d'.
Proof.
  intros HI Hr. pose proof (frame_take_lease _ _ _ _ _ _ _ Hr) as Hf.
  apply take_lease_run in Hr as (row & Hi & Hb & ->). destruct b; [|by apply keeps_refl].
  symmetry in Hb. rewrite andb_true_iff, !negb_true_iff, bool_decide_eq_false, terminal_open in Hb.
  destruct Hb as [Ho _]. apply not_false_iff_true in Ho.
  pose proof (row_key _ _ _ HI Hi) as <-.
  apply (keeps_row d _ row (claimed now owner lease row) []); try done; [|by left].
  split_and!; try done. simpl. by rewrite app_nil_r.
Qed.

Lemma release_keeps now i owner d u d' :
  GInv d -> release now i owner d = Ok (u, d') -> keeps d d'.
Proof.
  intros HI Hr. pose proof (frame_release _ _ _ _ _ _ Hr) as Hf.
  apply release_run in Hr as (row & Hi & ->). case_bool_decide as E; [|by apply keeps_refl].
  pose proof (row_key _ _ _ HI Hi) as <-.
  assert (is_open_investigation row = true) as Ho.
  { destruct (is_open_investigation row) eqn:Eo; [done|]. rewrite (gi_lease _ HI _ _ Hi Eo) in E. done. }
  apply (keeps_row d _ row (row <| inv_lease_expires_at := Some now |>) []); try done; [|by left].
  split_and!; try done. simpl. by rewrite app_nil_r.
Qed.

Lemma next_step d now row k n p c l : next_steps d (inv_id row) [new_step now d row k n p c l].
Proof. right. eauto. Qed.

Lemma record_step_keeps now i owner k n p c l usage tool ne la lease d sq d' :
  GInv d -> record_step now i owner k n p c l usage tool ne la lease d = Ok (sq, d') -> keeps d d'.
Proof.
  intros HI Hr. pose proof (frame_record_step _ _ _ _ _ _ _ _ _ _ _ _ _ _ _ _ Hr) as Hf.
  apply record_step_run in Hr as (row & Hi & Hfen & _ & Ht).
  pose proof (row_key _ _ _ HI Hi) as <-. apply fenced_open in Hfen.
  apply (keeps_row d d' row _ _ HI Hi Hfen) in Ht; auto using next_step.
Qed.

(** ** Hypothesis updates *)

Lemma elem_of_insert_lt {A} (lt : A -> A -> bool) a x l : a ∈ insert_lt lt x l <-> a = x \/ a ∈ l.
Proof. induction l as [|b l IH]; simpl; [set_solver|]. case_match; set_solver. Qed.

Lemma elem_of_hypothesis_rows d i h :
  h ∈ _hypothesis_rows d i <-> (exists g, hypotheses d !! g = Some h) /\ h_investigation_id h = i.
Proof.
  unfold _hypothesis_rows.
  transitivity (h ∈ List.filter (fun h => bool_decide (h_investigation_id h = i)) (rows (hypotheses d))).
  - induction (List.filter _ _) as [|x l IH]; [done|]. simpl. rewrite elem_of_insert_lt, IH. set_solver.
  - by rewrite list_elem_of_In, filter_In, <-list_elem_of_In, elem_of_rows, bool_decide_eq_true.
Qed.

Lemma assoc_get_keyed {A B} (key : A -> string) (f : A -> B) k l :
  assoc_get k (map (fun a => (key a, f a)) l) = f <$> assoc_get k (map (fun a => (key a, a)) l).
Proof. induction l as [|a l IH]; [done|]. simpl. by case_bool_decide. Qed.

(** What the loop's dictionaries say of the tables. *)
Record coherent (d : db) (i : uuid) (s : Applying) : Prop := {
  co_rows k h : assoc_get k (ap_hypotheses s) = Some h ->
    hypotheses d !! h_id h = Some h /\ h_investigation_id h = i /\ h_key h = k;
  co_all g h : hypotheses d !! g = Some h -> h_investigation_id h = i ->
    assoc_get (h_key h) (ap_hypotheses s) = Some h;
  co_snapshots k : hs_status <$> assoc_get k (ap_snapshots s)
                   = h_status <$> assoc_get k (ap_hypotheses s);
}.

Lemma coherent_start d i : GInv d -> coherent d i (loop_start d i).
Proof.
  intros HI. constructor; unfold loop_start; cbn [ap_hypotheses ap_snapshots].
  - intros k h Hk. apply assoc_get_elem, list_elem_of_fmap in Hk as (h' & [= -> <-] & Hin).
    apply elem_of_hypothesis_rows in Hin as [[g Hg] ?].
    destruct (gi_hyps _ HI _ _ Hg) as (<- & _ & _). done.
  - intros g h Hg Hi.
    destruct (assoc_get (h_key h) (map (fun h => (h_key h, h)) (_hypothesis_rows d i))) as [h'|] eqn:E.
    + apply assoc_get_elem, list_elem_of_fmap in E as (h2 & [= Hk <-] & Hin).
      apply elem_of_hypothesis_rows in Hin as [[g' Hg'] ?].
      assert (g = g') as -> by (eapply (gi_keys _ HI g g' h h'); congruence). congruence.
    + apply assoc_get_None in E. exfalso. apply E. apply list_elem_of_fmap.
      exists (h_key h, h). split; [done|]. apply list_elem_of_fmap. exists h. split; [done|].
      apply elem_of_hypothesis_rows. eauto.
  - intros k. unfold _snapshots. rewrite (assoc_get_keyed h_key (snapshot_of d)).
    by destruct (assoc_get k _).
Qed.

(** The loop keeps the state the updates are checked against. *)
Record loop_inv (d : db) (row : InvestigationRow) (acc : gset uuid) (s : Applying) : Prop := {
  li_inv : GInv d;
  li_row : investigations d !! inv_id row = Some row;
  li_open : is_open_investigation row = true;
  li_acc e : e ∈ acc -> grounded d row e;
  li_coherent : coherent d (inv_id row) s;
}.

Lemma update_row_facts now u d row s acc h :
  loop_inv d row acc s -> update_ok u = true ->
  update_allowed u (assoc_get (hu_key u) (ap_snapshots s)) acc ->
  update_row now (inv_id row) u d h (assoc_get (hu_key u) (ap_hypotheses s)) ->
  h_investigation_id h = inv_id row /\ h_key h = hu_key u
  /\ h_status h <> H_SELECTED
  /\ match hypotheses d !! h_id h with
     | Some h0 => assoc_get (hu_key u) (ap_hypotheses s) = Some h0 /\ same_hypothesis h0 h
     | None => h_id h = uuid_supply d /\ assoc_get (hu_key u) (ap_hypotheses s) = None
     end.
Proof.
  intros [HI Hl Ho _ Hc] Hok (_ & _ & Hex & _) Hu.
  assert (forall st, hu_status u = Some st -> st <> H_SELECTED) as Hst.
  { intros st Hs. unfold update_ok in Hok. rewrite !andb_true_iff in Hok.
    destruct Hok as [[[[[[[[[_ _] _] _] Hst] _] _] _] _] _]. rewrite Hs in Hst. simpl in Hst.
    apply bool_decide_eq_true in Hst. unfold MODEL_SETTABLE_HYPOTHESIS_STATUSES in Hst. set_solver. }
  pose proof (co_snapshots _ _ _ Hc (hu_key u)) as Hsn.
  destruct (assoc_get (hu_key u) (ap_hypotheses s)) as [h0|] eqn:E; inversion Hu; subst; clear Hu.
  - destruct (co_rows _ _ _ Hc _ _ E) as (Hh0 & Hi & Hk). simpl.
    destruct (assoc_get (hu_key u) (ap_snapshots s)) as [sn|]; [|done]. simpl in Hsn.
    injection Hsn as Hsn. destruct Hex as (_ & _ & Hr & Hsel). rewrite Hsn in Hr, Hsel.
    split_and!; [done|done| |].
    + destruct (hu_status u) as [st|] eqn:Es; simpl; [by apply Hst|done].
    + rewrite Hh0. split; [done|]. split_and!; try done. intros [?|?]; done.
  - split_and!; [done|done| |].
    + destruct (hu_status u) as [st|] eqn:Es; simpl; rewrite ?Es; simpl; [by apply Hst|done].
    + destruct (hypotheses d !! _) as [h0|] eqn:Eh; [|done]. exfalso.
      simpl in Eh. destruct (gi_hyps _ HI _ _ Eh) as (_ & ? & _). lia.
Qed.

Lemma updated_keeps now u d d' row acc s h :
  loop_inv d row acc s -> update_ok u = true ->
  update_allowed u (assoc_get (hu_key u) (ap_snapshots s)) acc ->
  update_row now (inv_id row) u d h (assoc_get (hu_key u) (ap_hypotheses s)) ->
  updated now (inv_id row) acc u h d d' ->
  (assoc_get (hu_key u) (ap_hypotheses s) = None -> (h_id h < uuid_supply d')%N) ->
  investigation_frame d d' -> keeps d d'.
Proof.
  intros HL Hok Hal Hrow [Ht Hlinks] Hlt Hf. pose proof HL as [HI Hl Ho Hacc Hc].
  destruct (update_row_facts _ _ _ _ _ _ _ HL Hok Hal Hrow) as (Hi & Hk & Hsel & Hold).
  pose proof Ht as (T1 & T2 & _ & T4 & T5 & T6).
  assert (grown d d') as Hg by (by apply frame_grown_same).
  set (d1 := d <| uuid_supply := uuid_supply d' |> <| hypotheses ::= <[h_id h := h]> |>).
  assert (grown d d1) as Hg1.
  { split_and!; [done| |apply Hf]. exists []. by rewrite app_nil_r. }
  assert (GInv d1) as HI1.
  { apply (GInv_hypothesis d d1 h HI); [by split_and!|done| | |rewrite Hi; eauto|].
    - simpl. destruct (hypotheses d !! h_id h) as [h0|] eqn:E; [|by apply Hlt, Hold].
      destruct (gi_hyps _ HI _ _ E) as (_ & ? & _). destruct Hf as [_ ?]. lia.
    - by intros ?.
    - destruct (hypotheses d !! h_id h) as [h0|] eqn:E.
      + destruct Hold as (_ & _ & -> & -> & _). done.
      + destruct Hold as [_ Hn]. intros g r Hr Hri Hrk. rewrite Hi in Hri.
        pose proof (co_all _ _ _ Hc _ _ Hr Hri) as Ha. congruence. }
  split.
  - apply (GInv_link d1 d' now h row (cited u acc) HI1); try done.
    + split_and!; [|exists []; by rewrite app_nil_r|done].
      destruct Hg as [Hrefs _]. exact Hrefs.
    + simpl. apply lookup_insert_eq.
    + simpl. by rewrite Hi.
    + intros rel e [He _]. apply (grounded_grown d d1 row row e); auto.
  - apply (kept_by_rows d d' [] (inv_id row)); rewrite ?T1, ?T2, ?T5; try done; eauto.
    + intros g r Hr. destruct (decide (h_id h = g)) as [<-|Hne].
      * rewrite lookup_insert_eq, Hr in *. exists h. split; [done|]. by apply Hold.
      * rewrite lookup_insert_ne by done. eauto using same_hypothesis_refl.
    + apply Hlinks.
    + by rewrite app_nil_r.
    + congruence.
    + by intros ? ?%elem_of_nil.
    + intros g r [[<- <-]|[_ Hr]]%lookup_insert_Some Hne; [congruence|done].
Qed.

Lemma updated_loop now u d d' row acc s s' h :
  loop_inv d row acc s -> update_ok u = true ->
  update_allowed u (assoc_get (hu_key u) (ap_snapshots s)) acc ->
  update_row now (inv_id row) u d h (assoc_get (hu_key u) (ap_hypotheses s)) ->
  updated now (inv_id row) acc u h d d' ->
  keeps d d' -> investigation_frame d d' ->
  ap_hypotheses s' = assoc_set (hu_key u) h (ap_hypotheses s) ->
  ap_snapshots s' = assoc_set (hu_key u) (snapshot_of d' h) (ap_snapshots s) ->
  loop_inv d' row acc s'.
Proof.
  intros HL Hok Hal Hrow [Ht _] [HI' _] Hf E1 E2. pose proof HL as [HI Hl Ho Hacc Hc].
  destruct (update_row_facts _ _ _ _ _ _ _ HL Hok Hal Hrow) as (Hi & Hk & _ & Hold).
  pose proof Ht as (T1 & T2 & _ & T4 & _ & _).
  assert (grown d d') as Hg by (by apply frame_grown_same).
  constructor; rewrite ?T1; try done.
  - intros e He. eapply grounded_grown; eauto.
  - constructor; rewrite ?E1, ?E2, ?T2.
    + intros k r. rewrite assoc_get_set. case_decide as Ek.
      * intros [= <-]. rewrite lookup_insert_eq. subst k. done.
      * intros Hr. destruct (co_rows _ _ _ Hc _ _ Hr) as (Hr1 & ? & ?). split_and!; try done.
        rewrite lookup_insert_ne; [done|]. intros Eid. rewrite <-Eid in Hr1. rewrite Hr1 in Hold.
        destruct Hold as [Hs _]. pose proof (co_rows _ _ _ Hc _ _ Hs) as (_ & _ & ?). congruence.
    + intros g r. rewrite assoc_get_set. intros [[<- <-]|[Hne Hr]]%lookup_insert_Some Hri.
      * by rewrite decide_True.
      * case_decide as Ek; [|by eapply (co_all _ _ _ Hc)]. exfalso. apply Hne.
        pose proof (co_all _ _ _ Hc _ _ Hr Hri) as Ha. rewrite Ek in Ha.
        destruct (hypotheses d !! h_id h) as [h0|] eqn:E.
        -- destruct Hold as [Hs (Eid & _)]. rewrite Hs in Ha. injection Ha as ->.
           rewrite Eid. by apply (gi_hyps _ HI).
        -- destruct Hold as [_ Hn]. congruence.
    + intros k. rewrite !assoc_get_set. case_decide; [done|]. apply (co_snapshots _ _ _ Hc).
Qed.

Lemma apply_updates_keep now row acc l :
  forall s d s' d', loop_inv d row acc s -> forallb update_ok l = true ->
  apply_updates now (inv_id row) acc s l d = Ok (s', d') ->
  keeps d d' /\ loop_inv d' row acc s' /\ investigation_frame d d'
  /\ investigation_steps d' = investigation_steps d.
Proof.
  induction l as [|u l IH]; intros s d s' d' HL Hok Hr; cbn [apply_updates] in Hr.
  - tx_inv. split_and!; [apply keeps_refl, HL|done|reflexivity|done].
  - simpl in Hok. apply andb_true_iff in Hok as [Hu Hok].
    apply bind_Ok in Hr as (s1 & d1 & H1 & H2).
    pose proof (frame_apply_update _ _ _ _ _ _ _ _ H1) as Hf.
    assert (keeps d d1 /\ loop_inv d1 row acc s1 /\ investigation_steps d1 = investigation_steps d)
      as ([HI1 K1] & HL1 & S1).
    { apply apply_update_run in H1 as [(_ & -> & E1 & E2)|(Hal & h & Hrow & Hup & Hlt & E1 & E2)].
      - split_and!; [apply keeps_refl, HL| |done]. destruct HL as [? ? ? ? [C1 C2 C3]].
        split; try done. constructor; by rewrite ?E1, ?E2.
      - assert (keeps d d1) as Hk by (by eapply updated_keeps). split_and!; [done| |].
        + by eapply updated_loop.
        + by destruct Hup as [(_ & _ & _ & ? & _) _]. }
    destruct (IH _ _ _ _ HL1 Hok H2) as ([HI2 K2] & HL2 & F2 & S2).
    split_and!; [|done|by transitivity d1|congruence].
    split; [done|]. by transitivity d1.
Qed.

Lemma keeps_trans d1 d2 d3 : keeps d1 d2 -> (GInv d2 -> keeps d2 d3) -> keeps d1 d3.
Proof.
  intros [HI2 K1] H. destruct (H HI2) as [HI3 K2]. split; [done|]. by transitivity d2.
Qed.

(** Appending a step and rewriting the open row of its investigation. *)
Lemma step_and_row_keep now row row' k n p c l d sq d1 d' :
  GInv d -> investigations d !! inv_id row = Some row -> is_open_investigation row = true ->
  is_open_investigation row' = true -> identity_cols row' = identity_cols row ->
  _append_step now row k n p c l d = Ok (sq, d1) ->
  put_investigation row' d1 = Ok ((), d') -> keeps d d'.
Proof.
  intros HI Hl Ho Ho' Hc Ha Hp. apply append_run in Ha as [-> ->]. unfold put_investigation in Hp.
  apply writes_Ok in Hp as ->.
  apply (keeps_row d _ row row' [new_step now d row k n p c l]); try done.
  - injection Hc as E _. unfold tables. simpl. by rewrite E.
  - apply next_step.
  - split; [by destruct d|simpl; lia].
Qed.

Lemma apply_keeps now i owner n c b d o d' :
  GInv d -> batch_ok b = true ->
  apply_hypothesis_updates now i owner n c b d = Ok (o, d') -> keeps d d'.
Proof.
  intros HI Hb Hr. unfold apply_hypothesis_updates in Hr.
  apply bind_Ok in Hr as (row & d0 & Hf & Hr). apply fenced_run in Hf as (-> & Hi & Hf).
  pose proof (row_key _ _ _ HI Hi) as <-. pose proof (fenced_open _ _ Hf) as Ho.
  apply bind_Ok in Hr as (acc & d0 & Ha & Hr). apply accessible_run in Ha as (-> & Ha).
  apply bind_Ok in Hr as (st & d0 & Hs & Hr). apply reads_Ok in Hs as [-> ->].
  apply bind_Ok in Hr as (s & d1 & Hu & Hr).
  apply andb_true_iff in Hb as [_ Hb].
  assert (loop_inv d row acc (loop_start d (inv_id row))) as HL.
  { constructor; [done..| |by apply coherent_start]. intros e. apply (accessible_spec _ _ _ _ Ha). }
  destruct (apply_updates_keep _ _ _ _ _ _ _ _ HL Hb Hu) as (Hk & [HI1 Hl1 _ _ _] & _ & _).
  eapply keeps_trans; [exact Hk|]. intros _.
  apply bind_Ok in Hr as (sq & d2 & Happ & Hr). apply bind_Ok in Hr as ([] & d3 & Hp & Hr).
  apply ret_Ok in Hr as [_ ->].
  eapply step_and_row_keep; [exact HI1|exact Hl1|exact Ho| | |exact Happ|exact Hp]; done.
Qed.

Lemma reject_keeps now row n c r unmet d o d' :
  GInv d -> investigations d !! inv_id row = Some row -> is_open_investigation row = true ->
  reject_conclusion now row n c r unmet d = Ok (o, d') -> keeps d d'.
Proof.
  intros HI Hl Ho Hr. unfold reject_conclusion in Hr.
  apply bind_Ok in Hr as (sq & d2 & Happ & Hr). apply bind_Ok in Hr as ([] & d3 & Hp & Hr).
  apply ret_Ok in Hr as [_ ->].
  eapply step_and_row_keep; [exact HI|exact Hl|exact Ho| | |exact Happ|exact Hp]; done.
Qed.

(** ** Endings *)

(** The row of an ended investigation, the incident it leaves and the step it records. *)
Lemma ending_keeps now row row' inc to d d' s :
  GInv d -> investigations d !! inv_id row = Some row -> is_open_investigation row = true ->
  identity_cols row' = identity_cols row -> is_open_investigation row' = false ->
  inv_lease_owner row' = None -> to <> INVESTIGATING ->
  incidents d !! inv_incident_id row = Some inc ->
  tables d' (<[inv_id row := row']> (investigations d)) (hypotheses d) (evidence_links d)
    (investigation_steps d ++ [s]) (rca_reports d)
    (if bool_decide (i_status inc = INVESTIGATING)
     then <[i_id inc := moved_row now to false inc]> (incidents d) else incidents d) ->
  st_investigation_id s = inv_id row -> st_sequence s = max_step d (inv_id row) + 1 ->
  investigation_frame d d' -> keeps d d'.
Proof.
  intros HI Hl Ho Hc Ho' Hlease Hto Hinc Ht Hs1 Hs2 Hf.
  destruct (open_is_investigating _ _ _ HI Hl Ho) as (q & Hq & _ & Hst).
  assert (q = inc) as -> by congruence. rewrite bool_decide_eq_true_2 in Ht by done. injection Hc as E1 E2 E3 E4 E5 E6 E7 E8. split.
  - eapply (GInv_closed d d' row row' inc to now [s]); try done; [right; eauto|].
    apply (frame_grown d d' [s]); [done|]. by destruct Ht as (_ & _ & _ & ? & _).
  - eapply (kept_by_row d d' [s] row row'); try done.
    + unfold identity_cols. congruence.
    + by intros s' ->%list_elem_of_singleton.
Qed.

(** An ended row is written, its step recorded and its incident moved. *)
Definition close_investigation (now : instant) (row1 : InvestigationRow) (n : Z) (payload : json)
    (c : option string) (to : IncidentStatus) (reason : string) : Tx () :=
  put_investigation row1 ;;
  _ ← _append_step now row1 S_OUTCOME n payload c None;
  found ← reads (fun d => incidents d !! inv_incident_id row1);
  incident ← must found (AssertionError "incident is not None");
  _move_incident now incident to reason.

Lemma close_run now row1 n p c to reason d u d' :
  (forall k inc, incidents d !! k = Some inc -> i_id inc = k) ->
  close_investigation now row1 n p c to reason d = Ok (u, d') ->
  exists inc, incidents d !! inv_incident_id row1 = Some inc
    /\ tables d' (<[inv_id row1 := row1]> (investigations d)) (hypotheses d) (evidence_links d)
         (investigation_steps d ++ [new_step now d row1 S_OUTCOME n p c None]) (rca_reports d)
         (if bool_decide (i_status inc = INVESTIGATING)
          then <[i_id inc := moved_row now to false inc]> (incidents d) else incidents d)
    /\ investigation_frame d d'.
Proof.
  intros Hkeys Hr.
  assert (investigation_frame d d') as Hf.
  { eapply (_ : relates investigation_frame (close_investigation now row1 n p c to reason)), Hr.
    Unshelve. unfold close_investigation. relates_auto. }
  unfold close_investigation, put_investigation in Hr.
  apply bind_Ok in Hr as ([] & d1 & H1 & Hr). apply writes_Ok in H1 as ->.
  apply bind_Ok in Hr as (sq & d2 & H2 & Hr). apply append_run in H2 as [_ ->].
  apply bind_Ok in Hr as (found & d3 & H3 & Hr). apply reads_Ok in H3 as [-> ->].
  apply bind_Ok in Hr as (inc & d4 & H4 & Hr). apply must_Ok in H4 as [Hinc ->].
  simpl in Hinc. exists inc. split; [done|]. split; [|done].
  apply move_incident_run in Hr; [done|].
  simpl. by rewrite (Hkeys _ _ Hinc).
Qed.

Lemma close_then {A} now row1 n p c to reason incident_id (k : Tx A) d :
  inv_incident_id row1 = incident_id ->
  (put_investigation row1 ;;
   _ ← _append_step now row1 S_OUTCOME n p c None;
   found ← reads (fun d => incidents d !! incident_id);
   incident ← must found (AssertionError "incident is not None");
   _move_incident now incident to reason ;; k) d
  = (close_investigation now row1 n p c to reason ;; k) d.
Proof.
  intros <-. unfold close_investigation, mbind, Tx_bind.
  destruct (put_investigation row1 d) as [[? d1]|]; [|done].
  destruct (_append_step _ _ _ _ _ _ _ d1) as [[? d2]|]; [|done].
  destruct (reads _ d2) as [[found d3]|]; [|done].
  by destruct (must found _ d3) as [[? d4]|].
Qed.

Lemma close_keeps now row row1 n p c to reason d u d' :
  GInv d -> investigations d !! inv_id row = Some row -> is_open_investigation row = true ->
  identity_cols row1 = identity_cols row -> is_open_investigation row1 = false ->
  inv_lease_owner row1 = None -> to <> INVESTIGATING ->
  close_investigation now row1 n p c to reason d = Ok (u, d') -> keeps d d'.
Proof.
  intros HI Hl Ho Hc Ho' Hlease Hto Hr. apply close_run in Hr as (inc & Hinc & Ht & Hf); [|apply HI].
  pose proof Hc as [= E1 E2 _ _ _ _ _ _]. rewrite E1, E2 in *.
  eapply (ending_keeps now row row1 inc to d d' _ HI Hl Ho Hc Ho' Hlease Hto Hinc Ht); try done.
  simpl. by rewrite E1.
Qed.

Lemma quiet_keeps d d' : GInv d -> quiet d d' -> keeps d d'.
Proof.
  intros HI Hq. pose proof (quiet_unchanged _ _ Hq) as Ht. split; [|by eapply kept_ext].
  eapply GInv_ext; [done..|]. destruct Hq as [-> ?]. split_and!; [done| |done].
  exists []. by rewrite app_nil_r.
Qed.

(** An escalation ends the row of the lease holder, then publishes. *)
Lemma escalate_closes now i owner n o rc dt ir eg c d u d' :
  GInv d -> escalate now i owner n o rc dt ir eg c d = Ok (u, d') ->
  exists row row1 p d1, investigations d !! inv_id row = Some row /\ is_open_investigation row = true
    /\ identity_cols row1 = identity_cols row /\ is_open_investigation row1 = false
    /\ inv_lease_owner row1 = None
    /\ close_investigation now row1 n p c ESCALATED ("investigation_" +++ rc) d = Ok ((), d1)
    /\ quiet d1 d'.
Proof.
  intros HI Hr. unfold escalate, assert_ in Hr.
  apply bind_Ok in Hr as ([] & d0 & Ha & Hr). destruct (bool_decide (o ∈ _)) eqn:Hout;
    [apply ret_Ok in Ha as [_ ->]|by apply raise_Ok in Ha].
  apply bind_Ok in Hr as (row & d0 & Hf & Hr). apply fenced_run in Hf as (-> & Hi & Hf).
  pose proof (row_key _ _ _ HI Hi) as <-. pose proof (fenced_open _ _ Hf) as Ho.
  apply bind_Ok in Hr as (sn & d0 & Hs & Hr). apply reads_Ok in Hs as [-> ->].
  apply bind_Ok in Hr as (acc & d0 & Ha & Hr). apply accessible_run in Ha as (-> & Ha).
  cbv zeta in Hr. rewrite close_then in Hr by done. apply bind_Ok in Hr as ([] & d1 & Hc & Hr).
  eexists row, _, _, d1. split_and!; [exact Hi|exact Ho| | | |exact Hc|].
  - done.
  - apply not_true_iff_false. rewrite open_spec. apply bool_decide_eq_true in Hout. simpl. set_solver.
  - done.
  - exact (quiet_run _ _ _ _ (quiet_outbox _ _ _ _ _ _) Hr).
Qed.

Lemma escalate_keeps now i owner n o rc dt ir eg c d u d' :
  GInv d -> escalate now i owner n o rc dt ir eg c d = Ok (u, d') -> keeps d d'.
Proof.
  intros HI Hr. apply escalate_closes in Hr as (row & row1 & p & d1 & Hi & Ho & Hc & Ho1 & Hl & Hr & Hq); [|done].
  eapply keeps_trans; [|intros HI1; by apply quiet_keeps].
  eapply (close_keeps now row row1 n p c ESCALATED); [exact HI|exact Hi|exact Ho|exact Hc|exact Ho1|exact Hl|done|exact Hr].
Qed.

(** ** Conclusions *)

Definition report_of (now : instant) (rid : uuid) (row : InvestigationRow)
    (result : FinalInvestigationResult) (selected : HypothesisRow) (snapshot : HypothesisSnapshot)
    (steps : list InvestigationStepRow) (snapshots : list (string * HypothesisSnapshot))
    : RcaReportRow :=
  {| rca_id := rid; rca_incident_id := inv_incident_id row; rca_investigation_id := inv_id row;
     rca_root_cause_hypothesis_id := h_id selected;
     rca_report := report_json result selected snapshot steps snapshots;
     rca_summary := render_rca_summary (fr_confidence result) (rca result);
     rca_generated_at := now |}.

Definition completed_row (now : instant) (rid : uuid) (result : FinalInvestigationResult)
    (selected : HypothesisRow) (row : InvestigationRow) : InvestigationRow :=
  (ended now I_COMPLETED
      (JObj [("outcome", JStr "root_cause_identified"); ("rca_report_id", JStr (str_uuid rid));
             ("selected_hypothesis_key", JStr (h_key selected));
             ("confidence", JFloat (fr_confidence result))])
      "completed" row) <| inv_selected_hypothesis_id := Some (h_id selected) |>.

Definition outcome_step (now : instant) (d : db) (row : InvestigationRow) (n : Z) (c : string)
    (rid : uuid) : InvestigationStepRow :=
  new_step now (d <| uuid_supply ::= N.succ |>) row S_OUTCOME n
    (JObj [("status", JStr "COMPLETED"); ("rca_report_id", JStr (str_uuid rid))]) (Some c) None.

Lemma accept_run now row n c r hs sn d o d' :
  (forall k inc, incidents d !! k = Some inc -> i_id inc = k) ->
  accept_conclusion now row n c r hs sn d = Ok (o, d') ->
  exists h s inc, List.find (fun h => bool_decide (h_key h = selected_hypothesis_key r)) hs = Some h
    /\ assoc_get (h_key h) sn = Some s
    /\ incidents d !! inv_incident_id row = Some inc
    /\ (forall k q, rca_reports d !! k = Some q -> rca_investigation_id q <> inv_id row)
    /\ o = {| accepted := true; unmet_criteria := []; rca_report_id := Some (uuid_supply d) |}
    /\ tables d' (<[inv_id row := completed_row now (uuid_supply d) r h row]> (investigations d))
         (<[h_id h := selected_row now r h]> (hypotheses d)) (evidence_links d)
         (investigation_steps d ++ [outcome_step now d row n c (uuid_supply d)])
         (<[uuid_supply d := report_of now (uuid_supply d) row r (selected_row now r h) s
                               (_steps d (inv_id row)) sn]> (rca_reports d))
         (if bool_decide (i_status inc = INVESTIGATING)
          then <[i_id inc := moved_row now RCA_READY false inc]> (incidents d) else incidents d)
    /\ (uuid_supply d < uuid_supply d')%N.
Proof.
  intros Hkeys Hr. unfold accept_conclusion in Hr.
  apply bind_Ok in Hr as (h & d0 & H1 & Hr). apply must_Ok in H1 as [Hh ->].
  cbv zeta in Hr. apply bind_Ok in Hr as ([] & d1 & H1 & Hr).
  unfold put_hypothesis in H1. apply writes_Ok in H1 as ->.
  apply bind_Ok in Hr as (s & d2 & H1 & Hr). apply must_Ok in H1 as [Hs ->].
  apply bind_Ok in Hr as (st & d3 & H1 & Hr). apply reads_Ok in H1 as [-> ->].
  apply bind_Ok in Hr as (rid & d4 & H1 & Hr). apply uuid4_Ok in H1 as [-> ->].
  apply bind_Ok in Hr as ([] & d5 & H1 & Hr).
  unfold insert_report in H1. apply bind_Ok in H1 as (taken & d6 & H2 & H1).
  apply reads_Ok in H2 as [-> ->].
  destruct (existsb _ _) eqn:Et; simpl in H1; [done|]. apply writes_Ok in H1 as ->.
  rewrite close_then in Hr by done. apply bind_Ok in Hr as ([] & d7 & Hc & Hr).
  apply close_run in Hc as (inc & Hinc & Ht & [_ Hsup]); [|done].
  apply bind_Ok in Hr as ([] & d8 & Ho & Hr). apply ret_Ok in Hr as [-> ->].
  pose proof (quiet_run _ _ _ _ (quiet_outbox _ _ _ _ _ _) Ho) as Hq.
  simpl in Hinc. exists h, s, inc. do 3 (split; [done|]). split.
  { intros k q Hk Hq'. rewrite <-not_true_iff_false, existsb_exists in Et. apply Et. exists q.
    split; [|by rewrite bool_decide_eq_true]. apply list_elem_of_In, elem_of_rows. by exists k. }
  split; [done|]. split.
  - apply quiet_unchanged in Hq as (Q1 & Q2 & Q3 & Q4 & Q5 & Q6).
    destruct Ht as (T1 & T2 & T3 & T4 & T5 & T6).
    unfold tables. rewrite Q1, Q2, Q3, Q4, Q5, Q6, T1, T2, T3, T4, T5, T6. by split_and!.
  - destruct Hq as [_ Hq]. simpl in Hsup. lia.
Qed.

Lemma complete_run crit now i owner n c r d o d' :
  complete crit now i owner n c r d = Ok (o, d') ->
  exists row acc, investigations d !! i = Some row /\ fenced owner row = true
    /\ accessible d row = Ok acc
    /\ let hs := _hypothesis_rows d i in
       let unmet := unmet_of crit r acc (_snapshots d hs) (_evidence_types d (inv_incident_id row)) in
       (unmet = [] /\ accept_conclusion now row n c r hs (_snapshots d hs) d = Ok (o, d'))
       \/ (unmet <> [] /\ reject_conclusion now row n c r unmet d = Ok (o, d')).
Proof.
  intros Hr. unfold complete in Hr.
  apply bind_Ok in Hr as (row & d0 & Hf & Hr). apply fenced_run in Hf as (-> & Hi & Hf).
  apply bind_Ok in Hr as (acc & d0 & Ha & Hr). apply accessible_run in Ha as (-> & Ha).
  apply bind_Ok in Hr as (hs & d0 & Hs & Hr). apply reads_Ok in Hs as [-> ->].
  apply bind_Ok in Hr as (sn & d0 & Hs & Hr). apply reads_Ok in Hs as [-> ->].
  apply bind_Ok in Hr as (ty & d0 & Hs & Hr). apply reads_Ok in Hs as [-> ->].
  exists row, acc. do 3 (split; [done|]). cbv zeta. simpl in Hr.
  destruct (unmet_of _ _ _ _ _); [by left|by right].
Qed.

Lemma unmet_nil crit r acc sn types :
  unmet_of crit r acc sn types = [] <->
  (forall e, e ∈ evidence_ids (rca r) -> e ∈ acc) /\ exists h, conclusion_warranted r sn types crit h.
Proof.
  unfold unmet_of, ungrounded_ids. cbv zeta.
  rewrite app_nil, when_nil, negb_false_iff, bool_decide_eq_true, sorted_ids_nil, difference_empty,
    conclusion_warranted_iff. done.
Qed.

Lemma snapshot_in d i k s :
  assoc_get k (_snapshots d (_hypothesis_rows d i)) = Some s ->
  exists h, h ∈ _hypothesis_rows d i /\ h_key h = k /\ s = snapshot_of d h.
Proof.
  intros Hk. apply assoc_get_elem, list_elem_of_fmap in Hk as (h & [= -> ->] & Hh). eauto.
Qed.

Lemma hypothesis_row_of d i h :
  GInv d -> h ∈ _hypothesis_rows d i ->
  hypotheses d !! h_id h = Some h /\ h_investigation_id h = i.
Proof.
  intros HI ([g Hg] & Hi)%elem_of_hypothesis_rows.
  by destruct (gi_hyps _ HI _ _ Hg) as (-> & _).
Qed.

(** The hypothesis of an acceptable conclusion. *)
Lemma selected_hypothesis d i r types crit h :
  GInv d -> List.find (fun h => bool_decide (h_key h = selected_hypothesis_key r))
              (_hypothesis_rows d i) = Some h ->
  (exists s, conclusion_warranted r (_snapshots d (_hypothesis_rows d i)) types crit s) ->
  hypotheses d !! h_id h = Some h /\ h_investigation_id h = i /\ h_status h = H_SUPPORTED
  /\ h_key h = selected_hypothesis_key r
  /\ conclusion_warranted r (_snapshots d (_hypothesis_rows d i)) types crit (snapshot_of d h).
Proof.
  intros HI Hf (s & Hw). apply find_some in Hf as [Hin Hk].
  apply list_elem_of_In in Hin. apply bool_decide_eq_true in Hk.
  pose proof Hw as (Hs & Hst & _). apply snapshot_in in Hs as (h' & Hin' & Hk' & ->).
  destruct (hypothesis_row_of _ _ _ HI Hin) as [Hh Hi].
  destruct (hypothesis_row_of _ _ _ HI Hin') as [Hh' Hi'].
  assert (h_id h = h_id h') as E by (eapply (gi_keys _ HI); [exact Hh|exact Hh'|congruence..]).
  assert (h = h') as <- by congruence. done.
Qed.

Lemma grown_to d d' l :
  evidence_refs d' = evidence_refs d -> investigation_steps d' = investigation_steps d ++ l ->
  (uuid_supply d <= uuid_supply d')%N -> grown d d'.
Proof. intros E Hs Hsup. split_and!; [by rewrite E|by exists l|done]. Qed.

(** The invariant of the database an accepted conclusion leaves: the investigation ends,
    then its hypothesis is selected, then the report is written. *)
Lemma GInv_accepted d d' now row row' h h' rep inc l :
  GInv d -> investigations d !! inv_id row = Some row -> is_open_investigation row = true ->
  identity_cols row' = identity_cols row -> inv_status row' = I_COMPLETED ->
  inv_selected_hypothesis_id row' = Some (h_id h) -> inv_lease_owner row' = None ->
  hypotheses d !! h_id h = Some h -> h_investigation_id h = inv_id row ->
  h_id h' = h_id h -> h_investigation_id h' = h_investigation_id h -> h_key h' = h_key h ->
  rca_investigation_id rep = inv_id row -> rca_incident_id rep = inv_incident_id row ->
  (rca_id rep < uuid_supply d')%N ->
  incidents d !! inv_incident_id row = Some inc ->
  tables d' (<[inv_id row := row']> (investigations d)) (<[h_id h := h']> (hypotheses d))
    (evidence_links d) (investigation_steps d ++ l) (<[rca_id rep := rep]> (rca_reports d))
    (<[i_id inc := moved_row now RCA_READY false inc]> (incidents d)) ->
  next_steps d (inv_id row) l -> evidence_refs d' = evidence_refs d ->
  (uuid_supply d <= uuid_supply d')%N -> GInv d'.
Proof.
  intros HI Hl Ho Hc Hst Hsel Hlease Hh Hi K1 K2 K3 R1 R2 Rlt Hinc
    (T1 & T2 & T3 & T4 & T5 & T6) Hn Hrefs Hsup.
  pose proof Hc as [= E1 E2 E3 _ _ _ _ _].
  set (d2 := d' <| rca_reports := rca_reports d |>).
  set (d1 := d2 <| hypotheses := hypotheses d |>).
  assert (GInv d1) as HI1.
  { apply (GInv_closed d d1 row row' inc RCA_READY now l); try done; [|by eapply grown_to].
    unfold is_open_investigation. by rewrite Hst. }
  assert (GInv d2) as HI2.
  { apply (GInv_hypothesis d1 d2 h'); try done.
    - unfold tables. simpl. by rewrite T2, K1.
    - apply (grown_to d1 d2 []); [done|by rewrite app_nil_r|done].
    - simpl. rewrite K1. destruct (gi_hyps _ HI _ _ Hh) as (_ & ? & _). lia.
    - intros _. exists row'. simpl. rewrite K2, Hi, T1, lookup_insert_eq, K1. done.
    - simpl. rewrite K2, Hi, T1, lookup_insert_eq. eauto.
    - simpl. by rewrite K1, Hh. }
  apply (GInv_report d2 d' rep row'); try done.
  - simpl. by rewrite T1, R1, lookup_insert_eq.
  - by rewrite E2, R2.
  - apply (grown_to d2 d' []); [done|by rewrite app_nil_r|done].
Qed.

Lemma complete_keeps crit now i owner n c r d o d' :
  GInv d -> complete crit now i owner n c r d = Ok (o, d') -> keeps d d'.
Proof.
  intros HI Hr. pose proof (frame_complete _ _ _ _ _ _ _ _ _ _ Hr) as Hfr.
  apply complete_run in Hr as (row & acc & Hi & Hf & Ha & Hr). cbv zeta in Hr.
  pose proof (row_key _ _ _ HI Hi) as <-. pose proof (fenced_open _ _ Hf) as Ho.
  destruct Hr as [[Hu Hr]|[_ Hr]]; [|by eapply reject_keeps].
  apply unmet_nil in Hu as [_ Hw].
  apply accept_run in Hr as (h & s & inc & Hh & _ & Hinc & Hfree & _ & Ht & Hlt); [|apply HI].
  destruct (selected_hypothesis _ _ _ _ _ _ HI Hh Hw) as (Hg & Hgi & Hst & _).
  destruct (open_is_investigating _ _ _ HI Hi Ho) as (q & Hq & _ & Hqs).
  assert (q = inc) as -> by congruence. rewrite bool_decide_eq_true_2 in Ht by done.
  assert (evidence_refs d' = evidence_refs d) as Hrefs by (destruct Hfr as [-> _]; done).
  split.
  - eapply (GInv_accepted d d'); try exact Ht; try done; [|lia]. right. eauto.
  - destruct Ht as (T1 & T2 & T3 & T4 & T5 & _).
    apply (kept_by_rows d d' [outcome_step now d row n c (uuid_supply d)] (inv_id row));
      rewrite ?T1, ?T2, ?T3, ?T5; try done.
    + intros g x Hx. destruct (decide (h_id h = g)) as [<-|Hne].
      * rewrite lookup_insert_eq. eexists. split; [done|]. assert (x = h) as -> by congruence.
        split_and!; try done. rewrite Hst. by intros [?|?].
      * rewrite lookup_insert_ne by done. eauto using same_hypothesis_refl.
    + intros k x Hk. rewrite lookup_insert_ne; [done|]. intros <-.
      destruct (gi_reports _ HI _ _ Hk) as (_ & ? & _). lia.
    + intros j x Hj. destruct (decide (inv_id row = j)) as [<-|Hne].
      * rewrite lookup_insert_eq. eexists. split; [done|]. by assert (x = row) as -> by congruence.
      * rewrite lookup_insert_ne by done. eauto.
    + intros x Hx. congruence.
    + by intros x ->%list_elem_of_singleton.
    + intros g x [[<- <-]|[_ Hx]]%lookup_insert_Some Hne; [|done]. done.
Qed.

(** ** Starting *)

Lemma one_or_none_Ok {A} (l : list A) o :
  one_or_none l = Ok o -> l = match o with Some a => [a] | None => [] end.
Proof. destruct l as [|a [|b l]]; simpl; intros; by simplify_eq. Qed.

Definition started_incident (now : instant) (inc : IncidentRow) : IncidentRow :=
  moved_row now INVESTIGATING false (inc <| i_attempt_count := i_attempt_count inc + 1 |>).

Lemma start_investigation_run now inc mp mn ms b d o d' :
  incidents d !! i_id inc = Some inc ->
  start_investigation now inc mp mn ms b d = Ok (o, d') ->
  let row := new_investigation now (uuid_supply d) (i_id inc) (i_attempt_count inc + 1) mp mn ms b in
  o = {| si_investigation_id := uuid_supply d; si_incident_id := i_id inc; si_created := true |}
  /\ tables d' (<[uuid_supply d := row]> (investigations d)) (hypotheses d) (evidence_links d)
       (investigation_steps d) (rca_reports d)
       (<[i_id inc := started_incident now inc]> (incidents d))
  /\ (uuid_supply d < uuid_supply d')%N.
Proof.
  intros Hinc Hr. unfold start_investigation in Hr. cbv zeta in *.
  apply bind_Ok in Hr as ([] & d1 & H1 & Hr). unfold put_incident in H1. apply writes_Ok in H1 as ->.
  apply bind_Ok in Hr as (m & d2 & H1 & Hr).
  apply transition_status_run in H1 as [-> ->]; [|simpl; by rewrite lookup_insert_eq].
  apply bind_Ok in Hr as (inc2 & d3 & H1 & Hr). apply must_Ok in H1 as [[= <-] ->].
  apply bind_Ok in Hr as (iid & d4 & H1 & Hr). apply uuid4_Ok in H1 as [-> ->].
  apply bind_Ok in Hr as ([] & d5 & H1 & Hr).
  unfold insert_investigation, put_investigation in H1. apply bind_Ok in H1 as (taken & d6 & H2 & H1).
  apply reads_Ok in H2 as [-> ->].
  destruct (existsb _ _) eqn:Et; simpl in H1; [done|]. apply writes_Ok in H1 as ->.
  apply bind_Ok in Hr as ([] & d7 & H1 & Hr). apply bind_Ok in Hr as ([] & d8 & H2 & Hr).
  apply ret_Ok in Hr as [-> ->]. unfold status_changed_event in H1.
  pose proof (quiet_run _ _ _ _ (quiet_outbox _ _ _ _ _ _) H1) as Hq1.
  pose proof (quiet_run _ _ _ _ (quiet_outbox _ _ _ _ _ _) H2) as Hq2.
  split; [done|].
  assert (quiet _ d8) as Hq by (etransitivity; [exact Hq1|exact Hq2]). split.
  - apply quiet_unchanged in Hq. simpl in Hq. by rewrite insert_insert_eq in Hq.
  - destruct Hq as [_ Hq]. simpl in Hq. lia.
Qed.

Lemma request_run now i mp mn ms b d o d' :
  (forall k inc, incidents d !! k = Some inc -> i_id inc = k) ->
  request_investigation now i mp mn ms b d = Ok (o, d') ->
  exists inc, incidents d !! i = Some inc
    /\ ((exists row, open_investigations i d = [row] /\ d' = d
         /\ o = {| si_investigation_id := inv_id row; si_incident_id := i; si_created := false |})
        \/ (open_investigations i d = [] /\ i_status inc ∈ STARTS_FROM /\ count_firing d i <> 0
            /\ start_investigation now inc mp mn ms b d = Ok (o, d'))).
Proof.
  intros Hkeys Hr. unfold request_investigation in Hr.
  apply bind_Ok in Hr as (f & d1 & H1 & Hr). apply reads_Ok in H1 as [-> ->].
  apply bind_Ok in Hr as (inc & d1 & H1 & Hr). apply must_Ok in H1 as [Hinc ->].
  apply bind_Ok in Hr as (op & d1 & H1 & Hr). apply reads_Ok in H1 as [-> ->].
  apply bind_Ok in Hr as (ex & d1 & H1 & Hr). apply lift_Ok in H1 as [Hex ->].
  apply one_or_none_Ok in Hex. exists inc. split; [done|]. destruct ex as [row|].
  - apply ret_Ok in Hr as [-> ->]. left. eauto.
  - right. split; [done|]. destruct (bool_decide (i_status inc ∈ _)) eqn:Est; simpl in Hr; [|done].
    apply bool_decide_eq_true in Est. split; [done|].
    apply bind_Ok in Hr as (n & d1 & H1 & Hr). unfold count_firing_alerts in H1.
    apply reads_Ok in H1 as [-> ->]. by case_bool_decide.
Qed.

Lemma open_investigations_nil i d :
  open_investigations i d = [] <->
  forall j r, investigations d !! j = Some r -> inv_incident_id r = i -> is_open_investigation r = false.
Proof.
  unfold open_investigations. split.
  - intros Hn j r Hj Hi. destruct (is_open_investigation r) eqn:E; [|done]. exfalso.
    assert (In r (List.filter (open_for i) (rows (investigations d)))) as Hin; [|by rewrite Hn in Hin].
    apply filter_In. split; [apply list_elem_of_In, elem_of_rows; eauto|].
    unfold open_for. by rewrite bool_decide_eq_true_2.
  - intros Hn. destruct (List.filter _ _) as [|r l] eqn:E; [done|].
    assert (In r (List.filter (open_for i) (rows (investigations d)))) as Hin by (rewrite E; by left).
    apply filter_In in Hin as [Hin Hf]. apply list_elem_of_In, elem_of_rows in Hin as [j Hj].
    unfold open_for in Hf. apply andb_true_iff in Hf as [Hi Ho]. apply bool_decide_eq_true in Hi.
    by rewrite (Hn _ _ Hj Hi) in Ho.
Qed.

Lemma request_keeps now i mp mn ms b d o d' :
  GInv d -> request_investigation now i mp mn ms b d = Ok (o, d') -> keeps d d'.
Proof.
  intros HI Hr. pose proof (frame_request _ _ _ _ _ _ _ _ _ Hr) as Hfr.
  apply request_run in Hr as (inc & Hinc & [(row & _ & -> & _)|(Hop & Hst & _ & Hr)]);
    [by apply keeps_refl| |apply HI].
  destruct (gi_incidents _ HI _ _ Hinc) as (<- & _ & _).
  apply start_investigation_run in Hr as (_ & Ht & Hlt); [|done].
  assert (investigations d !! uuid_supply d = None) as Hfresh.
  { destruct (investigations d !! _) as [x|] eqn:E; [|done].
    destruct (gi_rows _ HI _ _ E) as (_ & ? & _). lia. }
  assert (investigation_steps d' = investigation_steps d) as Hs by (by destruct Ht as (_ & _ & _ & ? & _)).
  split.
  - eapply (GInv_started d d' _ inc); try exact Ht; try done; [|by apply frame_grown_same].
    intros E. rewrite E in Hst. unfold STARTS_FROM in Hst. set_solver.
  - destruct Ht as (T1 & T2 & T3 & T4 & T5 & _).
    apply (kept_by_rows d d' [] (uuid_supply d)); rewrite ?T1, ?T2, ?T3, ?T5, ?app_nil_r; try done.
    + eauto using same_hypothesis_refl.
    + intros j r Hj. rewrite lookup_insert_ne by congruence. eauto.
    + intros r Hj. congruence.
    + by intros ? ?%elem_of_nil.
Qed.

(** ** What the trace gives access to

    The identifiers a step records are read back as they were ([Uuid]), and a
    recorded step makes exactly the registered ones among them citable. *)
(** Identifiers are 128-bit numbers. *)
Definition uuids_ok (l : list uuid) : Prop := forall e, e ∈ l -> (e < 2 ^ 128)%N.

Lemma traverse_text l :
  uuids_ok l -> traverse uuid_of (map (fun e => JStr (str_uuid e)) l) = Ok l.
Proof.
  induction l as [|e l IH]; intros Hl; [done|]. cbn [map traverse uuid_of].
  assert (uuids_ok l) as Hl' by (intros x Hx; apply Hl; by right).
  assert ((e < 2 ^ 128)%N) as He by (apply Hl; left).
  by rewrite (parse_str_uuid e He), (IH Hl').
Qed.

Lemma payload_ids_text p l :
  assoc_get "evidence_ids" p = Some (str_uuids l) -> uuids_ok l -> payload_ids (JObj p) = Ok l.
Proof. intros Hp Hl. unfold payload_ids. rewrite Hp. by apply (traverse_text l). Qed.

Lemma traverse_app {A B} (f : A -> result B) l1 l2 r1 r2 :
  traverse f l1 = Ok r1 -> traverse f l2 = Ok r2 -> traverse f (l1 ++ l2) = Ok (r1 ++ r2).
Proof.
  revert r1. induction l1 as [|a l IH]; intros r1; simpl; [by intros [= <-]|].
  intros (b & Hb & (bs & Hbs & [= <-])%rbind_Ok)%rbind_Ok H2. by rewrite Hb, (IH _ Hbs H2).
Qed.

(** What a tool call showed may be cited, and nothing else.  Once a tool call was
    recorded with the text of the identifiers it returned, the evidence the
    investigation may cite is what it was before and those of the identifiers that are
    registered for its incident. *)
Theorem shown_evidence_is_accessible now i owner n p c l u t ne la lease d sq d' row acc shown :
  investigations d !! i = Some row -> inv_id row = i ->
  record_step now i owner S_TOOL_CALL n p c l u t ne la lease d = Ok (sq, d') ->
  assoc_get "evidence_ids" p = Some (str_uuids shown) -> uuids_ok shown ->
  accessible d row = Ok acc ->
  exists row' acc', investigations d' !! i = Some row' /\ accessible d' row' = Ok acc'
    /\ forall e, e ∈ acc' <->
         e ∈ acc \/ (e ∈ shown /\ registered_for d (inv_incident_id row) e = true).
Proof.
  intros Hi Hk Hr Hp Hok Ha. pose proof (frame_record_step _ _ _ _ _ _ _ _ _ _ _ _ _ _ _ _ Hr) as [Hf _].
  apply record_step_run in Hr as (q & Hq & _ & _ & (T1 & _ & _ & T4 & _)).
  assert (q = row) as -> by congruence. rewrite Hk in T1.
  set (row' := counted now S_TOOL_CALL n u t ne la lease row) in *.
  unfold accessible in Ha. apply rbind_Ok in Ha as (old & Ho & [= <-]).
  unfold shown_ids in Ho. apply rbind_Ok in Ho as (ll & Hll & [= <-]).
  exists row'. eexists. split; [by rewrite T1, lookup_insert_eq|].
  assert (shown_ids d' i = Ok (concat ll ++ shown)) as Hs.
  { unfold shown_ids. rewrite (steps_of_app _ _ _ _ T4), List.filter_app. simpl.
    rewrite Hk, bool_decide_eq_true_2 by done. simpl. rewrite <-Hk.
    rewrite (traverse_app _ _ _ ll [shown] Hll); [|cbn [traverse st_payload new_step]; by rewrite (payload_ids_text _ _ Hp Hok)].
    cbn [rbind]. by rewrite concat_app, (app_nil_r shown : concat [shown] = _). }
  unfold accessible. change (inv_id row') with (inv_id row).
  change (inv_incident_id row') with (inv_incident_id row). rewrite Hk, Hs. split; [done|].
  assert (registered_for d' = registered_for d) as -> by (by rewrite Hf).
  intros e. rewrite !elem_of_list_to_set, !list_elem_of_In, !filter_In, in_app_iff, <- !list_elem_of_In.
  tauto.
Qed.
