(* ===== verification/InvestigationSafety.v ===== *)
(** * Safety of the investigations

    The investigation commands as steps, interleaved with transactions of other
    services that keep to their own tables ([onlooker]); what holds in every database
    they reach, and what no later command changes. *)
From S2P Require Import Prelude PyFloat Json Enums VerificationDomain Catalog.
From S2P Require Import RemediationDomain Uuid InvestigationDomain InvestigationRules Policy.
From S2P Require Import Store TxLogic RemediationLifecycle RemediationService RemediationProofs.
From S2P Require Import InvestigationService InvestigationProofs InvestigationInvariant.
From S2P Require Import InvestigationKeeps.
Local Open Scope Z_scope.

Section Investigations.
Context (criteria : StoppingCriteria).

(** The commands, each one transaction; the updates come out of a validated batch. *)
Inductive investigation_command (d : db) : db -> Prop :=
| ic_request now i mp mn ms b :
    investigation_command d (atomically (request_investigation now i mp mn ms b) d).2
| ic_claim now i owner lease : investigation_command d (claim now i owner lease d).2
| ic_release now i owner : investigation_command d (atomically (release now i owner) d).2
| ic_record now i owner k n p c l usage tool ne la lease :
    investigation_command d
      (atomically (record_step now i owner k n p c l usage tool ne la lease) d).2
| ic_apply now i owner n c b : batch_ok b = true ->
    investigation_command d (atomically (apply_hypothesis_updates now i owner n c b) d).2
| ic_complete now i owner n c r :
    investigation_command d (atomically (complete criteria now i owner n c r) d).2
| ic_escalate now i owner n o rc dt ir eg c :
    investigation_command d (atomically (escalate now i owner n o rc dt ir eg c) d).2.

Inductive investigation_step (d : db) : db -> Prop :=
| is_command d' : investigation_command d d' -> investigation_step d d'
| is_other d' : onlooker d d' -> investigation_step d d'.

Definition investigated (d : db) : Prop := rtc investigation_step empty_db d.

Lemma claim_db now i owner lease d :
  (claim now i owner lease d).2 = (atomically (take_lease now i owner lease) d).2.
Proof. unfold claim. by destruct (atomically _ d) as [[[]|] ?]. Qed.

Lemma command_keeps d d' : GInv d -> investigation_command d d' -> keeps d d'.
Proof.
  intros HI []; [|rewrite claim_db|..]; (apply atomically_keeps; [done|intros ? ? Hr]).
  - by eapply request_keeps.
  - by eapply take_lease_keeps.
  - by eapply release_keeps.
  - by eapply record_step_keeps.
  - by eapply apply_keeps.
  - by eapply complete_keeps.
  - by eapply escalate_keeps.
Qed.

Lemma onlooker_keeps d d' : GInv d -> onlooker d d' -> keeps d d'.
Proof.
  intros HI Ho. split; [by eapply GInv_onlooker|].
  destruct Ho as (? & ? & ? & ? & ? & _). by apply (kept_ext d d' (incidents d')).
Qed.

Lemma step_keeps d d' : GInv d -> investigation_step d d' -> keeps d d'.
Proof. intros HI []; [by apply command_keeps|by apply onlooker_keeps]. Qed.

Lemma steps_keep d d' : GInv d -> rtc investigation_step d d' -> keeps d d'.
Proof.
  intros HI Hs. induction Hs as [|d d1 d' H1 _ IH]; [by apply keeps_refl|].
  eapply keeps_trans; [by apply step_keeps|done].
Qed.

Lemma investigated_GInv d : investigated d -> GInv d.
Proof. intros Hd. by apply (steps_keep empty_db d GInv_empty). Qed.

(** ** Invariants *)

(** C24: an incident is INVESTIGATING exactly while an investigation of it is open.  In
    every reachable database at most one investigation of an incident is open, its
    attempts are distinct and within the count the incident keeps, and an investigation
    that ended holds no lease. *)
Theorem investigating_iff_open d n inc :
  investigated d -> incidents d !! n = Some inc ->
  (i_status inc = INVESTIGATING <-> exists i r, investigations d !! i = Some r
     /\ inv_incident_id r = n /\ is_open_investigation r = true)
  /\ (forall i r, investigations d !! i = Some r -> inv_incident_id r = n ->
        inv_attempt_number r <= i_attempt_count inc
        /\ (is_open_investigation r = false -> inv_lease_owner r = None)
        /\ forall j s, investigations d !! j = Some s -> inv_incident_id s = n -> i <> j ->
             inv_attempt_number r <> inv_attempt_number s
             /\ ~ (is_open_investigation r = true /\ is_open_investigation s = true)).
Proof.
  intros HI%investigated_GInv Hn. split; [by apply gi_investigating|].
  intros i r Hi Hin. destruct (gi_rows _ HI _ _ Hi) as (_ & _ & q & Hq & Ha).
  split; [by replace inc with q by congruence|]. split; [by apply (gi_lease _ HI i)|].
  intros j s Hj Hjn Hne. split.
  - intros E. apply Hne. eapply (gi_attempts _ HI); [exact Hi|exact Hj|congruence|done].
  - intros [Or Os]. apply Hne. eapply (gi_open _ HI); [exact Hi|exact Hj|congruence|done|done].
Qed.

(** No hypothesis cites what the investigation was never shown.  In every reachable
    database the evidence of a link is registered for the incident under investigation
    and named by a context or tool call step of that very investigation. *)
Theorem citations_are_grounded d k l :
  investigated d -> evidence_links d !! k = Some l ->
  exists h row ref s shown, hypotheses d !! lk_hypothesis_id l = Some h
    /\ investigations d !! h_investigation_id h = Some row
    /\ evidence_refs d !! lk_evidence_id l = Some ref
    /\ er_incident_id ref = inv_incident_id row
    /\ s ∈ steps_of d (inv_id row) /\ shows_evidence s = true
    /\ payload_ids (st_payload s) = Ok shown /\ lk_evidence_id l ∈ shown.
Proof.
  intros HI%investigated_GInv Hl.
  destruct (gi_links _ HI _ _ Hl) as (_ & h & row & ? & ? & Hr & s & shown & ? & ? & ? & ?).
  unfold registered_for in Hr. destruct (evidence_refs d !! lk_evidence_id l) as [ref|] eqn:E; [|done].
  apply bool_decide_eq_true in Hr. by exists h, row, ref, s, shown.
Qed.

(** C36: what was found stays found.  Through any sequence of commands a rejected or
    selected hypothesis never changes again, no link, step or report is lost, and an
    investigation that ended keeps its row, its trace and its hypotheses as they were. *)
Theorem findings_are_final d d' :
  investigated d -> rtc investigation_step d d' ->
  (forall g h, hypotheses d !! g = Some h -> h_status h = H_REJECTED \/ h_status h = H_SELECTED ->
     hypotheses d' !! g = Some h)
  /\ (forall k l, evidence_links d !! k = Some l -> evidence_links d' !! k = Some l)
  /\ (forall k r, rca_reports d !! k = Some r -> rca_reports d' !! k = Some r)
  /\ (exists l, investigation_steps d' = investigation_steps d ++ l)
  /\ forall i r, investigations d !! i = Some r -> is_open_investigation r = false ->
       investigations d' !! i = Some r /\ steps_of d' i = steps_of d i
       /\ forall g h, h_investigation_id h = i ->
            (hypotheses d' !! g = Some h <-> hypotheses d !! g = Some h).
Proof.
  intros HI%investigated_GInv Hs. destruct (steps_keep _ _ HI Hs) as [HI' [H L R S I E]].
  split_and!; try done.
  - intros g h Hg Hst. destruct (H _ _ Hg) as (h' & Hg' & _ & _ & _ & _ & _ & Heq).
    by rewrite Hg', Heq.
  - intros i r Hi Ho. destruct (I _ _ Hi) as (r' & Hi' & _ & Heq), (E _ _ Hi Ho) as [Es Eh].
    split; [by rewrite Hi', Heq|]. split; [done|]. intros g h Hh. split; [eauto|].
    intros Hg. destruct (H _ _ Hg) as (h' & Hg' & _ & Hi2 & _).
    pose proof (Eh _ _ Hg') as Hold. rewrite Hi2 in Hold. specialize (Hold Hh). congruence.
Qed.
End Investigations.
