(* ===== verification/InvestigationProgress.v ===== *)
(** * The investigation commands answer

    What each command returns: a worker without the lease is refused before anything
    is written, a conclusion is accepted or refused with reasons unless the stored trace
    cannot be read, an abandoned investigation can be taken over and ended, and an
    investigation starts exactly when there is something to investigate. *)
From S2P Require Import Prelude PyFloat Json Enums VerificationDomain Catalog.
From S2P Require Import RemediationDomain Uuid InvestigationDomain InvestigationRules Policy.
From S2P Require Import Store TxLogic RemediationLifecycle RemediationService RemediationProofs.
From S2P Require Import InvestigationService InvestigationProofs InvestigationInvariant.
From S2P Require Import InvestigationKeeps InvestigationSafety.
Local Open Scope Z_scope.

(** ** Runs that go through *)

Lemma bind_run {A B} (m : Tx A) (k : A -> Tx B) d a d1 : m d = Ok (a, d1) -> (m ≫= k) d = k a d1.
Proof. intros Hm. unfold mbind, Tx_bind. by rewrite Hm. Qed.

Lemma lock_investigation_run i d row : investigations d !! i = Some row -> _lock i d = Ok (row, d).
Proof. intros Hi. unfold _lock, mbind, Tx_bind, reads. by rewrite Hi. Qed.

Lemma total_move now inc to reason d :
  incidents d !! i_id inc = Some inc -> total (_move_incident now inc to reason) d.
Proof.
  intros Hi. unfold _move_incident. case_match; [apply total_ret|].
  apply total_bind; [by apply total_transition_with_event|]. auto with total.
Qed.

Lemma total_close now row1 n p c to reason d :
  (forall k inc, incidents d !! k = Some inc -> i_id inc = k) ->
  is_Some (incidents d !! inv_incident_id row1) ->
  total (close_investigation now row1 n p c to reason) d.
Proof.
  intros Hkeys [inc Hinc]. unfold close_investigation.
  apply total_bind; [apply total_writes|]. intros [] d1 ->%writes_Ok.
  apply total_bind; [unfold _append_step; by eexists _, _|]. intros sq d2 [_ ->]%append_run.
  apply total_bind; [apply total_reads|]. intros f d3 [-> ->]%reads_Ok.
  apply total_bind; [by apply total_must; eexists|]. intros q d4 [Hq ->]%must_Ok.
  apply total_move. simpl in *. by rewrite (Hkeys _ _ Hq).
Qed.

Lemma total_then {A} (m : Tx ()) (k : Tx A) d : total m d -> (forall d1, total k d1) -> total (m ;; k) d.
Proof. intros Hm Hk. apply total_bind; auto. Qed.

(** The same in the shape the commands have. *)
Lemma total_close_then {A} now row1 n p c to reason incident_id (k : Tx A) d :
  inv_incident_id row1 = incident_id ->
  (forall k inc, incidents d !! k = Some inc -> i_id inc = k) ->
  is_Some (incidents d !! incident_id) -> (forall d1, total k d1) ->
  total (put_investigation row1 ;;
         _ ← _append_step now row1 S_OUTCOME n p c None;
         found ← reads (fun d => incidents d !! incident_id);
         incident ← must found (AssertionError "incident is not None");
         _move_incident now incident to reason ;; k) d.
Proof.
  intros Hn Hkeys Hinc Hk. unfold total. rewrite (close_then now row1 n p c to reason) by done.
  apply total_then; [|done]. apply total_close; [done|]. by rewrite Hn.
Qed.

Lemma total_accept now row n c r hs sn d h s :
  GInv d -> investigations d !! inv_id row = Some row -> is_open_investigation row = true ->
  List.find (fun h => bool_decide (h_key h = selected_hypothesis_key r)) hs = Some h ->
  assoc_get (h_key h) sn = Some s -> total (accept_conclusion now row n c r hs sn) d.
Proof.
  intros HI Hi Ho Hh Hs. unfold accept_conclusion. rewrite Hh. cbv zeta.
  apply total_bind; [apply total_ret|]. intros q d0 [-> ->]%ret_Ok.
  apply total_bind; [apply total_writes|]. intros [] d1 ->%writes_Ok.
  simpl. rewrite Hs. apply total_bind; [apply total_ret|]. intros q d0 [-> ->]%ret_Ok.
  apply total_bind; [apply total_reads|]. intros st d2 [-> ->]%reads_Ok.
  apply total_bind; [apply total_uuid4|]. intros rid d3 [-> ->]%uuid4_Ok.
  assert (existsb (fun q => bool_decide (rca_investigation_id q = inv_id row)) (rows (rca_reports d))
          = false) as Hfree.
  { apply not_true_iff_false. intros (q & Hq & E)%existsb_exists.
    apply list_elem_of_In, elem_of_rows in Hq as [k Hk]. apply bool_decide_eq_true in E.
    destruct (gi_reports _ HI _ _ Hk) as (_ & _ & row' & Hr & Hc & _).
    rewrite E, Hi in Hr. injection Hr as <-. apply open_spec in Ho. destruct Ho; congruence. }
  apply total_bind.
  { unfold insert_report. apply total_bind; [apply total_reads|]. intros t d4 [-> ->]%reads_Ok.
    simpl. rewrite Hfree. apply total_writes. }
  intros [] d4 Hd4. unfold insert_report in Hd4.
  apply bind_Ok in Hd4 as (t & d5 & H1 & Hd4). apply reads_Ok in H1 as [-> ->].
  simpl in Hd4. rewrite Hfree in Hd4. apply writes_Ok in Hd4 as ->.
  eapply total_close_then; [done|apply HI| |].
  - simpl. destruct (open_is_investigating _ _ _ HI Hi Ho) as (inc & Hinc & _). eauto.
  - intros d1. apply total_then; [apply total_outbox|]. intros d2. apply total_ret.
Qed.

(** ** The fence *)

Lemma fenced_refused i owner d row :
  investigations d !! i = Some row -> fenced owner row = false ->
  exists m, _fenced i owner d = Err (LeaseLostError m).
Proof.
  intros Hi Hf. eexists. unfold _fenced. rewrite (bind_run _ _ _ _ _ (lock_investigation_run _ _ _ Hi)).
  by rewrite Hf.
Qed.

Lemma bind_raises {A B} (m : Tx A) (k : A -> Tx B) d e : m d = Err e -> (m ≫= k) d = Err e.
Proof. intros Hm. unfold mbind, Tx_bind. by rewrite Hm. Qed.

(** The lease is a fence.  Whoever does not hold the lease of a running
    investigation is refused by every write of the loop, and nothing changes. *)
Theorem lease_is_a_fence crit now i owner d row :
  investigations d !! i = Some row ->
  ~ (inv_status row = I_INVESTIGATING /\ inv_lease_owner row = Some owner) ->
  exists m,
    (forall k n p c l u t e a s,
       atomically (record_step now i owner k n p c l u t e a s) d = (Err (LeaseLostError m), d))
    /\ (forall n c b, atomically (apply_hypothesis_updates now i owner n c b) d = (Err (LeaseLostError m), d))
    /\ (forall n c r, atomically (complete crit now i owner n c r) d = (Err (LeaseLostError m), d))
    /\ (forall n o rc dt ir eg c, o = I_ESCALATED \/ o = I_FAILED ->
          atomically (escalate now i owner n o rc dt ir eg c) d = (Err (LeaseLostError m), d)).
Proof.
  intros Hi Hn. rewrite <-fenced_spec in Hn. apply not_true_iff_false in Hn.
  destruct (fenced_refused _ _ _ _ Hi Hn) as [m Hm]. exists m.
  unfold record_step, apply_hypothesis_updates, complete, escalate, atomically.
  split_and!; intros; [by rewrite (bind_raises _ _ _ _ Hm)..|].
  rewrite (bool_decide_eq_true_2 (o ∈ [I_ESCALATED; I_FAILED])) by set_solver. rewrite (bind_run _ _ d () d) by done.
  by rewrite (bind_raises _ _ _ _ Hm).
Qed.

(** ** Conclusions *)

Section Answers.
Context (criteria : StoppingCriteria).

(** What [complete] checks a conclusion against. *)
Definition unmet_in (d : db) (row : InvestigationRow) (acc : gset uuid)
    (r : FinalInvestigationResult) : list string :=
  unmet_of criteria r acc (_snapshots d (_hypothesis_rows d (inv_id row)))
    (_evidence_types d (inv_incident_id row)).

Lemma complete_is d i owner row acc now n c r :
  investigations d !! i = Some row -> fenced owner row = true -> accessible d row = Ok acc ->
  inv_id row = i ->
  complete criteria now i owner n c r d
  = match unmet_in d row acc r with
    | [] => accept_conclusion now row n c r (_hypothesis_rows d i)
              (_snapshots d (_hypothesis_rows d i)) d
    | unmet => reject_conclusion now row n c r unmet d
    end.
Proof.
  intros Hi Hf Ha <-. unfold complete, unmet_in.
  rewrite (bind_run _ _ d row d) by (by apply fenced_run).
  rewrite (bind_run _ _ d acc d) by (by apply accessible_run).
  do 3 (rewrite (bind_run (reads _) _ d _ d) by (by apply reads_Ok)). cbv beta. by destruct (unmet_of _ _ _ _ _).
Qed.

(** What ending an investigation leaves of its counters. *)
Definition same_counts (row row' : InvestigationRow) : Prop :=
  inv_iteration_count row' = inv_iteration_count row /\ inv_evidence_count row' = inv_evidence_count row
  /\ inv_budget row' = inv_budget row.

(** What [complete] does for the lease holder. *)
Lemma answered_conclusion d i owner row acc now n c r :
  GInv d -> investigations d !! i = Some row -> fenced owner row = true ->
  accessible d row = Ok acc ->
  exists o d', complete criteria now i owner n c r d = Ok (o, d')
    /\ unmet_criteria o = unmet_in d row acc r
    /\ (accepted o = true <-> unmet_in d row acc r = [])
    /\ (accepted o = true ->
        exists row', investigations d' !! i = Some row' /\ inv_status row' = I_COMPLETED
          /\ same_counts row row')
    /\ (accepted o = false ->
        tables d' (<[i := row <| inv_last_action := Some "conclusion rejected" |>]> (investigations d))
          (hypotheses d) (evidence_links d)
          (investigation_steps d ++
             [new_step now d row S_CONCLUSION_REJECTED n
                (JObj [("unmet_criteria", JArr (map JStr (unmet_in d row acc r)));
                       ("proposed", result_json r)]) (Some c) None])
          (rca_reports d) (incidents d)).
Proof.
  intros HI Hi Hf Ha. pose proof (row_key _ _ _ HI Hi) as Hk.
  pose proof (fenced_open _ _ Hf) as Ho. rewrite (complete_is _ _ _ _ _ _ _ _ _ Hi Hf Ha Hk).
  destruct (unmet_in d row acc r) as [|u us] eqn:E.
  - unfold unmet_in in E. apply unmet_nil in E as [_ (s & Hw)]. rewrite Hk in *.
    pose proof Hw as (Hs & _). apply snapshot_in in Hs as (h & Hin & Hkey & _).
    destruct (List.find (fun h => bool_decide (h_key h = selected_hypothesis_key r))
                (_hypothesis_rows d i)) as [h'|] eqn:Ef.
    2:{ apply list_elem_of_In in Hin. apply (find_none _ _ Ef) in Hin.
        by rewrite bool_decide_eq_true_2 in Hin. }
    destruct (selected_hypothesis _ _ _ _ _ _ HI Ef (ex_intro _ s Hw)) as (_ & _ & _ & Hk' & Hw' & _).
    destruct (total_accept now row n c r _ _ d h' _ HI ltac:(by rewrite Hk) Ho Ef
                ltac:(rewrite Hk'; exact Hw')) as (o & d' & Hr).
    exists o, d'. split; [done|].
    apply accept_run in Hr as (? & ? & ? & _ & _ & _ & _ & -> & (T1 & _) & _); [|apply HI].
    split_and!; try done. intros _. rewrite T1, Hk, lookup_insert_eq. eexists. by split_and!.
  - unfold reject_conclusion. eexists _, _. split; [reflexivity|]. simpl.
    split_and!; try done. intros _. rewrite <-Hk. by split_and!.
Qed.

Lemma traverse_err {A B} (f : A -> result B) l e :
  traverse f l = Err e -> exists a, a ∈ l /\ f a = Err e.
Proof.
  induction l as [|a l IH]; [done|]. cbn [traverse]. destruct (f a) as [b|e'] eqn:E; cbn [rbind].
  - intros H. assert (traverse f l = Err e) as Hl by (by destruct (traverse f l)).
    destruct (IH Hl) as (a' & ? & ?). exists a'. split; [by constructor|done].
  - intros [= ->]. exists a. split; [by constructor|done].
Qed.

(** A trace is unreadable because of one of its steps. *)
Lemma unreadable_step d row e :
  accessible d row = Err e ->
  exists s, s ∈ steps_of d (inv_id row) /\ shows_evidence s = true /\ payload_ids (st_payload s) = Err e.
Proof.
  unfold accessible, shown_ids. intros H.
  destruct (traverse _ _) as [l|e'] eqn:E; [done|]. injection H as ->.
  apply traverse_err in E as (s & Hs & He). apply list_elem_of_In, filter_In in Hs as [Hs%list_elem_of_In ?].
  by exists s.
Qed.

(** C34: a proposed conclusion is answered or the stored trace is at fault.  For the
    lease holder, [complete] returns: it accepts exactly when no criterion is unmet, and
    else it lists what is unmet, records the proposal in the trace, and leaves the
    investigation running, the hypotheses and the incident as they were.  The one
    exception is a trace with a context or tool-call step whose evidence ids cannot be
    read: then the error of that step is raised and nothing changes. *)
Theorem conclusion_is_answered d i owner row now n c r :
  investigated criteria d -> investigations d !! i = Some row -> fenced owner row = true ->
  (exists acc o d', accessible d row = Ok acc
    /\ complete criteria now i owner n c r d = Ok (o, d')
    /\ unmet_criteria o = unmet_in d row acc r
    /\ (accepted o = true <-> unmet_in d row acc r = [])
    /\ (accepted o = false ->
        tables d' (<[i := row <| inv_last_action := Some "conclusion rejected" |>]> (investigations d))
          (hypotheses d) (evidence_links d)
          (investigation_steps d ++
             [new_step now d row S_CONCLUSION_REJECTED n
                (JObj [("unmet_criteria", JArr (map JStr (unmet_in d row acc r)));
                       ("proposed", result_json r)]) (Some c) None])
          (rca_reports d) (incidents d)))
  \/ (exists s e, s ∈ steps_of d i /\ shows_evidence s = true /\ payload_ids (st_payload s) = Err e
       /\ atomically (complete criteria now i owner n c r) d = (Err e, d)).
Proof.
  intros HI%investigated_GInv Hi Hf. destruct (accessible d row) as [acc|e] eqn:Ha.
  - left. destruct (answered_conclusion d i owner row acc now n c r HI Hi Hf Ha)
      as (o & d' & ? & ? & ? & _ & ?). by exists acc, o, d'.
  - right. destruct (unreadable_step _ _ _ Ha) as (s & Hs & Hk & He).
    rewrite (row_key _ _ _ HI Hi) in Hs. exists s, e. split_and!; [done..|].
    unfold atomically, complete. rewrite (bind_run _ _ d row d) by (by apply fenced_run).
    unfold mbind at 1, Tx_bind at 1, _accessible_evidence, mbind at 1, Tx_bind at 1, reads at 1.
    by rewrite Ha.
Qed.

Lemma reject_run now row n c r unmet d o d' :
  reject_conclusion now row n c r unmet d = Ok (o, d') -> accepted o = false.
Proof.
  intros Hr. unfold reject_conclusion in Hr.
  apply bind_Ok in Hr as (? & ? & _ & Hr). apply bind_Ok in Hr as (? & ? & _ & Hr).
  by apply ret_Ok in Hr as [-> _].
Qed.

Lemma linked_grounded d h row i e :
  GInv d -> hypotheses d !! h_id h = Some h -> h_investigation_id h = i ->
  investigations d !! i = Some row -> e ∈ supporting (snapshot_of d h) -> grounded d row e.
Proof.
  intros HI Hh Hi Hrow He. simpl in He. unfold linked in He.
  apply list_elem_of_In, in_map_iff in He as (l & <- & Hl). apply filter_In in Hl as [Hl _].
  apply list_elem_of_In in Hl. unfold links_of in Hl.
  rewrite !elem_of_order_by, list_elem_of_In, filter_In, <-list_elem_of_In in Hl.
  destruct Hl as [Hl Hid%bool_decide_eq_true].
  apply list_elem_of_fmap in Hl as ([k l'] & -> & Hk%elem_of_map_to_list).
  destruct (gi_links _ HI _ _ Hk) as (_ & h' & row' & Hh' & Hrow' & Hg). simpl in *.
  rewrite Hid, Hh in Hh'. injection Hh' as <-. rewrite Hi, Hrow in Hrow'. by injection Hrow' as <-.
Qed.

(** C8: a root cause is earned.  Whenever a conclusion is accepted, the worker holds the
    lease, the selected hypothesis of this investigation meets every stopping criterion
    on its own links, and every piece of evidence the report or the hypothesis rests on
    is registered for the incident and was shown by the trace; the investigation is then
    COMPLETED without a lease, the hypothesis SELECTED, the report stored and the
    incident RCA_READY. *)
Theorem root_cause_is_earned now i owner n c r d o d' :
  investigated criteria d -> complete criteria now i owner n c r d = Ok (o, d') ->
  accepted o = true ->
  exists row h inc rep,
    investigations d !! i = Some row /\ fenced owner row = true
    /\ hypotheses d !! h_id h = Some h /\ h_investigation_id h = i
    /\ conclusion_warranted r (_snapshots d (_hypothesis_rows d i))
         (_evidence_types d (inv_incident_id row)) criteria (snapshot_of d h)
    /\ (forall e, e ∈ evidence_ids (rca r) \/ e ∈ supporting (snapshot_of d h) -> grounded d row e)
    /\ incidents d !! inv_incident_id row = Some inc /\ i_status inc = INVESTIGATING
    /\ investigations d' !! i = Some (completed_row now (rca_id rep) r h row)
    /\ hypotheses d' !! h_id h = Some (selected_row now r h)
    /\ rca_report_id o = Some (rca_id rep) /\ rca_reports d' !! rca_id rep = Some rep
    /\ rca_investigation_id rep = i /\ rca_root_cause_hypothesis_id rep = h_id h
    /\ incidents d' !! inv_incident_id row = Some (moved_row now RCA_READY false inc).
Proof.
  intros HI%investigated_GInv Hr Hacc.
  apply complete_run in Hr as (row & acc & Hi & Hf & Ha & Hr). cbv zeta in Hr.
  pose proof (row_key _ _ _ HI Hi) as Hk.
  destruct Hr as [[Hu Hr]|[_ Hr]]; [|by apply reject_run in Hr; rewrite Hr in Hacc].
  apply unmet_nil in Hu as [Hcited Hw].
  apply accept_run in Hr as (h & s & inc & Hh & Hs & Hinc & _ & -> & Ht & _); [|apply HI].
  destruct (selected_hypothesis _ _ _ _ _ _ HI Hh Hw) as (Hg & Hgi & _ & _ & Hw').
  destruct (open_is_investigating _ _ _ HI Hi (fenced_open _ _ Hf)) as (q & Hq & Hqk & Hqs).
  assert (q = inc) as -> by congruence. rewrite bool_decide_eq_true_2 in Ht by done.
  destruct Ht as (T1 & T2 & _ & _ & T5 & T6).
  exists row, h, inc, (report_of now (uuid_supply d) row r (selected_row now r h) s
                  (_steps d (inv_id row)) (_snapshots d (_hypothesis_rows d i))).
  rewrite T1, T2, T5, T6, Hk, <-Hqk, !lookup_insert_eq. rewrite Hqk.
  split_and!; try done. intros e [He|He].
  - by apply (accessible_spec _ _ _ _ Ha), Hcited.
  - by eapply linked_grounded.
Qed.
End Answers.

(** ** Taking over *)

Lemma length_order_by {A} (key : A -> Z) l : length (order_by key l) = length l.
Proof.
  assert (forall b m, length (insert_by key b m) = S (length m)) as Hins.
  { intros b m. induction m as [|x m IH]; [done|]. simpl. case_match; simpl; [done|by rewrite IH]. }
  induction l as [|b l IH]; [done|]. change (order_by key (b :: l)) with (insert_by key b (order_by key l)).
  by rewrite Hins, IH.
Qed.

(** A limit that covers the table leaves nothing out. *)
Lemma elem_of_resumable now limit d i :
  GInv d -> (length (rows (investigations d)) <= limit)%nat ->
  (i ∈ resumable now limit d <->
   exists row, investigations d !! i = Some row /\ is_resumable now row = true).
Proof.
  intros HI Hlim. unfold resumable. rewrite take_ge.
  2:{ rewrite length_map, length_order_by. etransitivity; [apply filter_length_le|done]. }
  rewrite list_elem_of_fmap. split.
  - intros (row & -> & Hin). rewrite elem_of_order_by, list_elem_of_In, filter_In, <-list_elem_of_In in Hin.
    destruct Hin as [[k Hk]%elem_of_rows Hr]. rewrite (row_key _ _ _ HI Hk). eauto.
  - intros (row & Hi & Hr). exists row. split; [by rewrite (row_key _ _ _ HI Hi)|].
    rewrite elem_of_order_by, list_elem_of_In, filter_In, <-list_elem_of_In. split; [|done].
    apply elem_of_rows. eauto.
Qed.

Lemma escalate_run now i owner n o rc dt ir eg c d row acc :
  GInv d -> investigations d !! i = Some row -> fenced owner row = true ->
  accessible d row = Ok acc -> o = I_ESCALATED \/ o = I_FAILED ->
  exists d' row' inc, escalate now i owner n o rc dt ir eg c d = Ok ((), d')
    /\ investigations d' !! i = Some row' /\ inv_status row' = o /\ inv_lease_owner row' = None
    /\ same_counts row row' /\ incidents d !! inv_incident_id row = Some inc
    /\ incidents d' !! inv_incident_id row = Some (moved_row now ESCALATED false inc).
Proof.
  intros HI Hi Hf Ha Ho. pose proof (row_key _ _ _ HI Hi) as Hk.
  destruct (open_is_investigating _ _ _ HI Hi (fenced_open _ _ Hf)) as (inc & Hinc & Hik & His).
  unfold escalate. rewrite (bool_decide_eq_true_2 (o ∈ [I_ESCALATED; I_FAILED])) by set_solver.
  rewrite (bind_run (assert_ true "") _ d () d) by done.
  rewrite (bind_run _ _ d row d) by (by apply fenced_run).
  rewrite (bind_run (reads _) _ d _ d) by (by apply reads_Ok).
  rewrite (bind_run _ _ d acc d) by (by apply accessible_run). cbv zeta.
  rewrite close_then by done.
  match goal with |- context [close_investigation now ?r n ?p c ?t ?rs] => set (row1 := r); set (pl := p) end.
  destruct (total_close now row1 n pl c ESCALATED ("investigation_" +++ rc) d) as ([] & d1 & Hc);
    [apply HI|by eexists|].
  rewrite (bind_run _ _ d () d1 Hc).
  destruct (total_outbox now "InvestigationFailed" "Investigation" i (Some (inv_incident_id row))
    (PInvestigationFailed
       {| ifp_investigation_id := i; ifp_incident_id := inv_incident_id row;
          ifp_outcome := InvestigationStatus_value o; ifp_reason_code := rc |}) d1) as ([] & d2 & Hout).
  apply close_run in Hc as (q & Hq & Ht & _); [|apply HI]. simpl in Hq.
  assert (q = inc) as -> by congruence. rewrite bool_decide_eq_true_2 in Ht by done.
  pose proof (quiet_unchanged _ _ (quiet_run _ _ _ _ (quiet_outbox _ _ _ _ _ _) Hout)) as (Q1 & _ & _ & _ & _ & Q6).
  destruct Ht as (T1 & _ & _ & _ & _ & T6).
  exists d2, row1, inc. split; [exact Hout|].
  rewrite Q1, Q6, T1, T6, <-Hik. change (inv_id row1) with (inv_id row). rewrite Hk, !lookup_insert_eq.
  rewrite Hik. split_and!; done.
Qed.

(** No investigation stays behind.  Whatever happened to its worker, an open
    investigation whose lease ran out is on the list of those to resume; whoever claims
    it is handed its full state, and can end it, which leaves it without a lease and
    the incident ESCALATED: nothing stays INVESTIGATING forever. *)
Theorem abandoned_investigation_is_recovered crit now limit owner lease d i row acc n rc dt ir eg c o :
  investigated crit d -> investigations d !! i = Some row -> is_resumable now row = true ->
  accessible d row = Ok acc -> (length (rows (investigations d)) <= limit)%nat ->
  o = I_ESCALATED \/ o = I_FAILED ->
  i ∈ resumable now limit d
  /\ exists s d1 row2 inc d2, claim now i owner lease d = (Ok (Some s), d1)
       /\ is_investigation s = claimed now owner lease row /\ is_accessible_evidence s = acc
       /\ is_steps s = _steps d i
       /\ escalate now i owner n o rc dt ir eg c d1 = Ok ((), d2)
       /\ investigations d2 !! i = Some row2 /\ inv_status row2 = o /\ inv_lease_owner row2 = None
       /\ incidents d2 !! inv_incident_id row = Some inc /\ i_status inc = ESCALATED.
Proof.
  intros HI%investigated_GInv Hi Hres Ha Hlim Ho. pose proof (row_key _ _ _ HI Hi) as Hk.
  split; [by apply elem_of_resumable; eauto|].
  set (d1 := d <| investigations ::= <[i := claimed now owner lease row]> |>).
  assert (take_lease now i owner lease d = Ok (true, d1)) as Htake.
  { apply take_lease_run. exists row. split; [done|]. unfold is_resumable in Hres.
    apply andb_true_iff in Hres as [Hop Hexp].
    rewrite bool_decide_eq_false_2 by (rewrite terminal_open; congruence).
    assert (held_by_another now owner row = false) as ->; [|by rewrite Hk].
    unfold held_by_another. destruct (inv_lease_expires_at row) as [t|]; [|done].
    apply andb_false_iff. left. apply Z.ltb_ge. by apply Z.leb_le. }
  assert (accessible d1 (claimed now owner lease row) = Ok acc) as Ha1 by exact Ha.
  assert (investigations d1 !! i = Some (claimed now owner lease row)) as Hi1
    by (apply lookup_insert_eq).
  assert (GInv d1) as HI1 by (by eapply take_lease_keeps).
  destruct (escalate_run now i owner n o rc dt ir eg c d1 _ acc HI1 Hi1) as (d2 & row2 & inc & He & Hr2);
    [by apply fenced_spec|done|done|].
  destruct Hr2 as (? & ? & ? & _ & _ & Hinc2).
  eexists _, d1, row2, (moved_row now ESCALATED false inc), d2. split_and!; try done.
  - unfold claim, atomically. rewrite Htake. unfold load_state. rewrite Hi1, Ha1. reflexivity.
  - done.
  - done.
  - done.
Qed.

(** ** Starting *)

(** What [request_investigation] answers. *)
Definition may_start (d : db) (inc : IncidentRow) : Prop :=
  (i_status inc = TRIAGING \/ i_status inc = VERIFICATION_FAILED) /\ count_firing d (i_id inc) <> 0.

Lemma open_unique d n :
  GInv d -> open_investigations n d = [] \/ exists row, open_investigations n d = [row]
    /\ investigations d !! inv_id row = Some row /\ inv_incident_id row = n
    /\ is_open_investigation row = true.
Proof.
  intros HI.
  assert (forall r, In r (open_investigations n d) -> investigations d !! inv_id r = Some r
            /\ inv_incident_id r = n /\ is_open_investigation r = true) as Hin.
  { intros r [Hr Hf]%filter_In. apply list_elem_of_In, elem_of_rows in Hr as [k Hk].
    rewrite (row_key _ _ _ HI Hk). unfold open_for in Hf.
    apply andb_true_iff in Hf as [?%bool_decide_eq_true ?]. done. }
  assert (NoDup (open_investigations n d)) as Hnd.
  { apply NoDup_ListNoDup, List.NoDup_filter, NoDup_ListNoDup. unfold rows.
    apply NoDup_fmap_2_strong; [|apply NoDup_map_to_list].
    intros [k x] [k' x'] Hk%elem_of_map_to_list Hk'%elem_of_map_to_list E. simpl in E. subst x'.
    f_equal. by rewrite <-(row_key _ _ _ HI Hk), <-(row_key _ _ _ HI Hk'). }
  destruct (open_investigations n d) as [|a [|b l]]; [by left|right; exists a; split; [done|apply Hin; by left]|].
  exfalso. destruct (Hin a) as (A1 & A2 & A3); [by left|].
  destruct (Hin b) as (B1 & B2 & B3); [by right; left|].
  assert (inv_id a = inv_id b) as E by (eapply (gi_open _ HI); [exact A1|exact B1|congruence|done..]).
  assert (a = b) as -> by congruence. apply NoDup_cons in Hnd as [Hn _]. apply Hn. by left.
Qed.

Lemma total_start now inc mp mn ms b d :
  GInv d -> incidents d !! i_id inc = Some inc -> total (start_investigation now inc mp mn ms b) d.
Proof.
  intros HI Hinc. unfold start_investigation. cbv zeta.
  apply total_bind; [apply total_writes|]. intros [] d1 ->%writes_Ok.
  apply total_bind.
  { unfold transition_incident_status, total, mbind, Tx_bind, reads. simpl.
    rewrite lookup_insert_eq. simpl. rewrite Z.eqb_refl. by eexists _, _. }
  intros m d2 Hm. apply transition_status_run in Hm as [-> ->]; [|simpl; by rewrite lookup_insert_eq].
  apply total_bind; [apply total_ret|]. intros q d3 [-> ->]%ret_Ok.
  apply total_bind; [apply total_uuid4|]. intros iid d4 [-> ->]%uuid4_Ok.
  apply total_then; [|intros d5; apply total_then; [apply total_outbox|intros d6];
                      apply total_then; [apply total_outbox|intros d7; apply total_ret]].
  unfold insert_investigation. apply total_bind; [apply total_reads|].
  intros taken d5 [-> ->]%reads_Ok. simpl.
  destruct (existsb _ _) eqn:E; [|apply total_writes]. exfalso.
  apply existsb_exists in E as (x & Hx & Hsame). apply list_elem_of_In, elem_of_rows in Hx as [k Hx].
  unfold same_attempt in Hsame. apply andb_true_iff in Hsame as [Hi%bool_decide_eq_true Ha%bool_decide_eq_true].
  simpl in *. destruct (gi_rows _ HI _ _ Hx) as (_ & _ & q & Hq & Hle).
  rewrite <-Hi, Hinc in Hq. injection Hq as <-. lia.
Qed.

(** An investigation starts exactly when there is something to investigate.  A
    request for an incident always gets one of three answers: the open investigation of
    the incident, with nothing changed; a new one, numbered by the attempts of the
    incident, which is then INVESTIGATING, if it was TRIAGING or VERIFICATION_FAILED and
    has a firing alert; and a refusal, with nothing changed, otherwise. *)
Theorem investigation_starts_iff_warranted crit now i mp mn ms b d inc :
  investigated crit d -> incidents d !! i = Some inc ->
  let request := atomically (request_investigation now i mp mn ms b) d in
  (exists row, open_investigations i d = [row]
     /\ request = (Ok {| si_investigation_id := inv_id row; si_incident_id := i;
                         si_created := false |}, d))
  \/ (open_investigations i d = [] /\ may_start d inc
      /\ exists d', request = (Ok {| si_investigation_id := uuid_supply d; si_incident_id := i;
                                     si_created := true |}, d')
         /\ investigations d' = <[uuid_supply d := new_investigation now (uuid_supply d) i
              (i_attempt_count inc + 1) mp mn ms b]> (investigations d)
         /\ investigations d !! uuid_supply d = None
         /\ incidents d' = <[i := started_incident now inc]> (incidents d))
  \/ (open_investigations i d = [] /\ ~ may_start d inc
      /\ exists m, request = (Err (InvalidIncidentTransitionError m), d)).
Proof.
  intros HI%investigated_GInv Hinc. cbv zeta.
  destruct (gi_incidents _ HI _ _ Hinc) as (Hk & _ & _).
  unfold atomically, request_investigation.
  rewrite (bind_run (reads _) _ d _ d) by (by apply reads_Ok).
  cbv beta. rewrite ?Hinc.
  rewrite (bind_run (must _ _) _ d inc d) by done.
  rewrite (bind_run (reads _) _ d _ d) by (by apply reads_Ok).
  destruct (open_unique d i HI) as [Hop|(row & Hop & _)]; rewrite Hop; cbn [one_or_none lift].
  2:{ left. exists row. done. }
  rewrite (bind_run (lift _) _ d None d) by done. right.
  unfold may_start, count_firing_alerts. rewrite Hk.
  destruct (bool_decide (i_status inc ∈ STARTS_FROM)) eqn:Est; cbn [negb].
  2:{ right. split; [done|]. apply bool_decide_eq_false in Est. split; [|by eexists].
      unfold STARTS_FROM in Est. set_solver. }
  apply bool_decide_eq_true in Est.
  rewrite (bind_run (reads _) _ d _ d) by (by apply reads_Ok).
  case_bool_decide as Ef; [right|left; split; [done|]].
  { split; [done|]. split; [tauto|]. by eexists. }
  split; [split; [unfold STARTS_FROM in Est; set_solver|done]|].
  assert (incidents d !! i_id inc = Some inc) as Hinc' by (by rewrite Hk).
  destruct (total_start now inc mp mn ms b d HI Hinc') as (o & d' & Hs). exists d'. rewrite Hs.
  apply start_investigation_run in Hs as (-> & (T1 & _ & _ & _ & _ & T6) & _); [|done].
  rewrite Hk in *. split_and!; try done.
  destruct (investigations d !! _) as [x|] eqn:E; [|done].
  destruct (gi_rows _ HI _ _ E) as (_ & ? & _). lia.
Qed.
