(* ===== verification/AgentTrace.v ===== *)
(** * The trace of an investigation, as the engine reads it back

    [trace]: the steps an engine may have recorded, in order: every payload can be read,
    an action step answers one call of the last model turn that was not answered yet, and
    the model is asked again only when every call of its last turn has its answer.  What
    the engine rebuilds of a trace is total on it, and the transcript a model is shown
    pairs each of its turns with the results of exactly that turn's calls.  Every step the
    engine records is readable in this sense. *)
From S2P Require Import Prelude PyFloat Json Enums VerificationDomain Catalog.
From S2P Require Import RemediationDomain Uuid InvestigationDomain Store RemediationService.
From S2P Require Import IncidentRepository AlertIdentity IncidentService.
From S2P Require Import InvestigationService EvidenceScope AgentModel AgentContext.
From S2P Require Import EvidenceService AgentTools AgentToolset AgentEngine.
From S2P Require Import TxLogic.
Local Open Scope Z_scope.

(** ** The last turn *)

(** The last model turn and the steps since. *)
Fixpoint last_turn (l : list InvestigationStepRow)
    : option (InvestigationStepRow * list InvestigationStepRow) :=
  match l with
  | [] => None
  | s :: l' =>
      match last_turn l' with
      | Some p => Some p
      | None => if is_kind S_MODEL_TURN s then Some (s, l') else None
      end
  end.

Lemma last_turn_snoc l s :
  last_turn (l ++ [s])
  = if is_kind S_MODEL_TURN s then Some (s, [])
    else (fun p => (p.1, p.2 ++ [s])) <$> last_turn l.
Proof.
  induction l as [|a l IH]; simpl; [by case_match|]. rewrite IH.
  destruct (is_kind S_MODEL_TURN s); [done|]. destruct (last_turn l); [done|]. simpl. by case_match.
Qed.

Lemma last_turn_split l t r :
  last_turn l = Some (t, r) ->
  exists p, l = p ++ t :: r /\ is_kind S_MODEL_TURN t = true
            /\ (forall s, s ∈ r -> is_kind S_MODEL_TURN s = false).
Proof.
  revert t r. induction l as [|a l IH]; intros t r; simpl; [done|].
  destruct (last_turn l) as [[t' r']|] eqn:E.
  - intros [= -> ->]. destruct (IH _ _ eq_refl) as (p & -> & ? & ?). by exists (a :: p).
  - destruct (is_kind S_MODEL_TURN a) eqn:Ea; [|done]. intros [= <- <-]. exists []. split_and!; try done.
    clear - E. induction l as [|b l IH]; [by intros s ?%elem_of_nil|]. simpl in E.
    destruct (last_turn l); [done|]. destruct (is_kind S_MODEL_TURN b) eqn:Eb; [done|].
    intros s [->|?]%elem_of_cons; [done|]. by apply IH.
Qed.

Lemma last_turn_None l : last_turn l = None <-> model_turns l = [].
Proof.
  unfold model_turns. induction l as [|a l IH]; [done|]. simpl.
  destruct (is_kind S_MODEL_TURN a); destruct (last_turn l); simpl; naive_solver.
Qed.

Lemma model_turns_app l m : model_turns (l ++ m) = model_turns l ++ model_turns m.
Proof. apply List.filter_app. Qed.

Lemma last_model_turn l : last (model_turns l) = fst <$> last_turn l.
Proof.
  destruct (last_turn l) as [[t r]|] eqn:E; [|by apply last_turn_None in E as ->].
  destruct (last_turn_split _ _ _ E) as (p & -> & Ht & Hr). simpl.
  rewrite model_turns_app. unfold model_turns at 2. simpl. rewrite Ht.
  assert (List.filter (is_kind S_MODEL_TURN) r = []) as ->; [|by rewrite last_snoc].
  clear E. induction r as [|b r IH]; [done|]. simpl. rewrite Hr by set_solver. apply IH. set_solver.
Qed.

(** In a numbered trace, what has a greater number than the last turn is what follows it. *)
Definition numbered (l : list InvestigationStepRow) : Prop :=
  map st_sequence l = seqZ 1 (Z.of_nat (length l)).

Lemma numbered_at l i s : numbered l -> l !! i = Some s -> st_sequence s = Z.of_nat i + 1.
Proof.
  intros Hn Hi. assert (map st_sequence l !! i = Some (st_sequence s)) as H.
  { by rewrite list_lookup_fmap, Hi. }
  rewrite Hn, lookup_seqZ in H. lia.
Qed.

Lemma filter_all {A} (f : A -> bool) l : (forall a, a ∈ l -> f a = true) -> List.filter f l = l.
Proof.
  induction l as [|a l IH]; [done|]. intros H. simpl. rewrite (H a) by set_solver. f_equal.
  apply IH. set_solver.
Qed.
Lemma filter_nothing {A} (f : A -> bool) l : (forall a, a ∈ l -> f a = false) -> List.filter f l = [].
Proof.
  induction l as [|a l IH]; [done|]. intros H. simpl. rewrite (H a) by set_solver. apply IH. set_solver.
Qed.

Lemma steps_after_last l t r : numbered l -> last_turn l = Some (t, r) -> steps_after t l = r.
Proof.
  intros Hn Hl. destruct (last_turn_split _ _ _ Hl) as (p & -> & _ & _).
  assert ((p ++ t :: r) !! length p = Some t) as Ht by (by apply list_lookup_middle).
  unfold steps_after. rewrite List.filter_app. rewrite (filter_nothing _ p).
  - simpl. rewrite Z.ltb_irrefl. apply filter_all. intros s [k Hk]%list_elem_of_lookup.
    rewrite (numbered_at _ _ _ Hn Ht). apply Z.ltb_lt.
    rewrite (numbered_at (p ++ t :: r) (length p + S k) s Hn); [lia|].
    rewrite lookup_app_r by lia. by replace (length p + S k - length p)%nat with (S k) by lia.
  - intros s [k Hk]%list_elem_of_lookup. pose proof (lookup_lt_Some _ _ _ Hk).
    rewrite (numbered_at _ _ _ Hn Ht), (numbered_at (p ++ t :: r) k s Hn); [apply Z.ltb_ge; lia|].
    by apply lookup_app_l_Some.
Qed.

Lemma order_numbered l : numbered l -> order_by st_sequence l = l.
Proof.
  unfold numbered. assert (forall n, map st_sequence l = seqZ n (Z.of_nat (length l)) ->
    order_by st_sequence l = l) as H; [|apply H].
  induction l as [|a l IH]; intros n Hn; [done|].
  cbn [length map] in Hn. rewrite Nat2Z.inj_succ, seqZ_cons in Hn by lia.
  injection Hn as Ha Hl. replace (Z.pred (Z.succ (Z.of_nat (length l)))) with (Z.of_nat (length l)) in Hl by lia.
  change (order_by st_sequence (a :: l)) with (insert_by st_sequence a (order_by st_sequence l)).
  rewrite (IH _ Hl). destruct l as [|b l]; [done|]. cbn [length map] in Hl.
  rewrite Nat2Z.inj_succ, seqZ_cons in Hl by lia. injection Hl as Hb _. simpl.
  by rewrite (proj2 (Z.leb_le _ _)) by lia.
Qed.

(** ** What may be recorded *)

(** The calls of a turn: one result each is due. *)
Definition calls (acts : list ModelAction) : list string := map act_call_id acts.
Definition calls_ok (acts : list ModelAction) : Prop := NoDup (calls acts) /\ "" ∉ calls acts.

(** The calls the steps answer. *)
Definition answers_of (l : list InvestigationStepRow) : list string := omap st_call_id l.

(** Nothing the engine reads of the step raises. *)
Record readable (s : InvestigationStepRow) : Prop := {
  rd_observed : exists o, observation_for s = Ok o;
  rd_ids : shows_evidence s = true -> exists l, payload_ids (st_payload s) = Ok l;
  rd_context : st_kind s = S_CONTEXT -> exists c, pitem "context" s = Ok c;
  rd_actions : st_kind s = S_MODEL_TURN -> exists acts, actions_of s = Ok acts /\ calls_ok acts;
  rd_text : st_kind s = S_MODEL_TURN -> exists t, pget "text" (JStr "") s = JStr t;
  rd_notice : st_kind s = S_FEEDBACK -> exists t, pitem "text" s = Ok t;
  rd_tool : st_kind s = S_TOOL_CALL -> exists t, pitem "tool" s = Ok (JStr t);
}.

(** Every call of the last turn has its answer. *)
Definition settled (l : list InvestigationStepRow) : Prop :=
  forall t r acts, last_turn l = Some (t, r) -> actions_of t = Ok acts ->
    forall c, c ∈ calls acts -> c ∈ answers_of r.

(** A call of the last turn without an answer. *)
Definition due (l : list InvestigationStepRow) (c : string) : Prop :=
  exists t r acts, last_turn l = Some (t, r) /\ actions_of t = Ok acts
    /\ c ∈ calls acts /\ c ∉ answers_of r.

Definition may_follow (l : list InvestigationStepRow) (s : InvestigationStepRow) : Prop :=
  readable s /\
  match st_kind s with
  | S_CONTEXT => st_call_id s = None /\ last_turn l = None
  | S_MODEL_TURN => st_call_id s = None /\ settled l /\ existsb (is_kind S_CONTEXT) l = true
  | S_OUTCOME => False
  | S_FEEDBACK | S_MODEL_ERROR => st_call_id s = None
  | _ => exists c, st_call_id s = Some c /\ due l c
  end.

Inductive trace : list InvestigationStepRow -> Prop :=
| trace_nil : trace []
| trace_snoc l s : trace l -> may_follow l s -> trace (l ++ [s]).

(** An action step, or one without a call. *)
Lemma may_follow_call l s :
  may_follow l s ->
  (is_action_step s = true /\ exists c, st_call_id s = Some c /\ due l c)
  \/ (is_action_step s = false /\ st_call_id s = None).
Proof.
  intros [_ H]. unfold is_action_step. destruct (st_kind s); try done; try (right; split; [done|tauto]);
    left; (split; [done|exact H]).
Qed.

(** What is known of the last turn. *)
Record turn_facts (l : list InvestigationStepRow) (t : InvestigationStepRow)
    (r : list InvestigationStepRow) (acts : list ModelAction) : Prop := {
  tf_actions : actions_of t = Ok acts;
  tf_calls : calls_ok acts;
  tf_answers : NoDup (answers_of r);
  tf_of_turn : forall c, c ∈ answers_of r -> c ∈ calls acts;
  tf_steps : forall s, s ∈ r -> is_action_step s = bool_decide (is_Some (st_call_id s));
  tf_text : exists x, pget "text" (JStr "") t = JStr x;
  tf_context : existsb (is_kind S_CONTEXT) l = true;
}.

Lemma answers_of_snoc r s : answers_of (r ++ [s]) = answers_of r ++ option_list (st_call_id s).
Proof. unfold answers_of. rewrite omap_app. simpl. by destruct (st_call_id s). Qed.

Lemma is_kind_true k s : is_kind k s = true <-> st_kind s = k.
Proof. apply bool_decide_eq_true. Qed.
Lemma is_kind_false k s : is_kind k s = false <-> st_kind s <> k.
Proof. apply bool_decide_eq_false. Qed.

Lemma turn_facts_of l t r : trace l -> last_turn l = Some (t, r) -> exists acts, turn_facts l t r acts.
Proof.
  intros Ht. revert t r. induction Ht as [|l s Hl IH Hs]; [done|]. intros t r.
  rewrite last_turn_snoc. destruct (is_kind S_MODEL_TURN s) eqn:Ek.
  - intros [= <- <-]. apply is_kind_true in Ek. destruct Hs as [Hr Hm]. rewrite Ek in Hm.
    destruct Hm as (_ & _ & Hc). destruct (rd_actions _ Hr Ek) as (acts & Ha & Hok). exists acts.
    split; try done; [constructor|set_solver|set_solver|by apply rd_text|].
    by rewrite existsb_app, Hc.
  - destruct (last_turn l) as [[t' r']|] eqn:El; [|done]. simpl. intros [= <- <-].
    destruct (IH _ _ eq_refl) as (acts & [F1 F2 F3 F4 F5 F6 F7]). exists acts.
    destruct (may_follow_call _ _ Hs) as [(Hact & c & Hc & (t1 & r1 & acts1 & E1 & E2 & Hin & Hnew))|[Hact Hc]].
    + rewrite El in E1. injection E1 as <- <-. rewrite F1 in E2. injection E2 as <-.
      split; rewrite ?answers_of_snoc, ?Hc; simpl; try done.
      * apply NoDup_app. split_and!; [done|set_solver|apply NoDup_singleton].
      * set_solver.
      * intros x [?| ->%list_elem_of_singleton]%elem_of_app; [by apply F5|]. rewrite Hc.
        by rewrite bool_decide_eq_true_2 by eauto.
      * by rewrite existsb_app, F7.
    + split; rewrite ?answers_of_snoc, ?Hc; simpl; rewrite ?app_nil_r; try done.
      * intros x [?| ->%list_elem_of_singleton]%elem_of_app; [by apply F5|]. rewrite Hc.
        by rewrite bool_decide_eq_false_2 by (by intros [? ?]).
      * by rewrite existsb_app, F7.
Qed.

Lemma trace_readable l s : trace l -> s ∈ l -> readable s.
Proof.
  induction 1 as [|l x Hl IH Hx]; [by intros ?%elem_of_nil|].
  intros [?| ->%list_elem_of_singleton]%elem_of_app; [auto|apply Hx].
Qed.

(** The engine's own test for an answer. *)
Lemma answered_iff l t r acts c :
  turn_facts l t r acts -> answered r c = true <-> c ∈ answers_of r.
Proof.
  intros [_ _ _ _ Hs _ _]. unfold answered, answers_of. rewrite existsb_exists, list_elem_of_omap. split.
  - intros (s & Hin%list_elem_of_In & [_ ?%bool_decide_eq_true]%andb_true_iff). eauto.
  - intros (s & Hin & Hc). exists s. rewrite <-list_elem_of_In. split; [done|].
    unfold answers. rewrite (Hs _ Hin), Hc. rewrite !bool_decide_eq_true_2 by eauto. done.
Qed.

Lemma unanswered_calls l t r acts c :
  turn_facts l t r acts ->
  c ∈ calls (unanswered r acts) <-> c ∈ calls acts /\ c ∉ answers_of r.
Proof.
  intros Hf. unfold calls, unanswered. rewrite !list_elem_of_fmap. split.
  - intros (a & -> & [Hin Ha]%list_elem_of_In%filter_In). apply list_elem_of_In in Hin.
    rewrite negb_true_iff, <-not_true_iff_false, (answered_iff _ _ _ _ _ Hf) in Ha. eauto.
  - intros [(a & -> & Hin) Hc]. exists a. split; [done|]. apply list_elem_of_In, filter_In.
    rewrite <-list_elem_of_In, negb_true_iff, <-not_true_iff_false, (answered_iff _ _ _ _ _ Hf). done.
Qed.

Lemma unanswered_nil l t r acts :
  turn_facts l t r acts -> last_turn l = Some (t, r) -> unanswered r acts = [] <-> settled l.
Proof.
  intros Hf Hl. split.
  - intros Hn t' r' acts' E1 E2 c Hc. rewrite Hl in E1. injection E1 as <- <-.
    rewrite (tf_actions _ _ _ _ Hf) in E2. injection E2 as <-.
    destruct (base.decide (c ∈ answers_of r)) as [|Hno]; [done|].
    pose proof (proj2 (unanswered_calls _ _ _ _ c Hf) (conj Hc Hno)) as H. rewrite Hn in H. by apply elem_of_nil in H.
  - intros Hs. destruct (unanswered r acts) as [|a m] eqn:E; [done|].
    assert (act_call_id a ∈ calls (unanswered r acts)) as Ha by (rewrite E; left).
    apply (unanswered_calls _ _ _ _ _ Hf) in Ha as [Hin Hno].
    destruct Hno. by apply (Hs _ _ _ Hl (tf_actions _ _ _ _ Hf)).
Qed.

(** A settled turn has one result for each of its calls. *)
Lemma settled_answers l t r acts :
  trace l -> settled l -> last_turn l = Some (t, r) -> actions_of t = Ok acts ->
  answers_of r ≡ₚ calls acts.
Proof.
  intros Ht Hs Hl Ha. destruct (turn_facts_of _ _ _ Ht Hl) as [acts' Hf].
  pose proof (tf_actions _ _ _ _ Hf) as Ha'. rewrite Ha in Ha'. injection Ha' as <-.
  apply NoDup_Permutation; [by eapply tf_answers|apply (tf_calls _ _ _ _ Hf)|].
  intros c. split; [by apply (tf_of_turn _ _ _ _ Hf)|by eapply Hs].
Qed.

(** ** The transcript *)

(** What may come after an entry.  The results after a turn are those of its calls, one
    each; only a turn without calls may be followed by anything else. *)
Definition follows (prev : option TranscriptEntry) (e : TranscriptEntry) : Prop :=
  match prev, e with
  | Some (AssistantEntry _ acts _), ObservationEntry results _ =>
      map re_call_id results ≡ₚ map act_call_id acts
  | Some (AssistantEntry _ acts _), _ => acts = []
  | _, ObservationEntry results _ => results = []
  | _, _ => True
  end.
(** The end of what is sent: no call is left without its result. *)
Definition may_end (prev : option TranscriptEntry) : Prop :=
  match prev with Some (AssistantEntry _ acts _) => acts = [] | _ => True end.
Fixpoint paired (prev : option TranscriptEntry) (es : list TranscriptEntry) : Prop :=
  match es with
  | [] => may_end prev
  | e :: es' => follows prev e /\ paired (Some e) es'
  end.

(** Each entry after the one before it. *)
Definition linked_entries (es : list TranscriptEntry) : Prop :=
  forall i e, es !! i = Some e -> follows (match i with O => None | S j => es !! j end) e.

Lemma linked_snoc es e : linked_entries es -> follows (last es) e -> linked_entries (es ++ [e]).
Proof.
  intros Hl He i x [Hi|[-> ->]]%lookup_snoc_Some.
  - destruct Hi as [Hlt Hi]. specialize (Hl _ _ Hi). destruct i as [|i]; [done|].
    by rewrite lookup_app_l by lia.
  - rewrite last_lookup in He. destruct (length es) as [|n] eqn:E; [by destruct es|].
    rewrite lookup_app_l by lia. exact He.
Qed.

Lemma linked_paired es : linked_entries es -> may_end (last es) -> paired None es.
Proof.
  assert (forall prev, (forall i e, es !! i = Some e ->
            follows (match i with O => prev | S j => es !! j end) e) ->
          may_end (match es with [] => prev | _ => last es end) -> paired prev es) as H.
  { induction es as [|e es IH]; intros prev Hl He; [exact He|]. split; [by apply (Hl 0%nat)|].
    apply IH; [intros [|i] x Hx; [exact (Hl 1%nat x Hx)|exact (Hl (S (S i)) x Hx)]|by destruct es]. }
  intros Hl He. apply H; [done|]. by destruct es.
Qed.

(** Where the rebuilding is after a part of the trace. *)
Definition built (l : list InvestigationStepRow) (b : Building) : Prop :=
  linked_entries (bl_entries b)
  /\ match last_turn l with
     | None => bl_results b = [] /\ match last (bl_entries b) with
                                   | Some (AssistantEntry _ _ _) => False | _ => True end
     | Some (t, r) => map re_call_id (bl_results b) = answers_of r
         /\ exists acts text p, actions_of t = Ok acts
                               /\ last (bl_entries b) = Some (AssistantEntry text acts p)
     end.

Lemma flush_built l b :
  trace l -> built l b -> settled l ->
  linked_entries (bl_entries (flush b)) /\ may_end (last (bl_entries (flush b)))
  /\ bl_results (flush b) = [] /\ bl_notices (flush b) = [].
Proof.
  intros Hl [Hlink Hb] Hs. unfold flush.
  assert (match bl_results b, bl_notices b with [], [] => True | _, _ =>
            follows (last (bl_entries b)) (ObservationEntry (bl_results b) (bl_notices b)) end
          /\ (bl_results b = [] -> may_end (last (bl_entries b)))) as [Hf He].
  { destruct (last_turn l) as [[t r]|] eqn:E.
    - destruct (turn_facts_of _ _ _ Hl E) as [acts Hf].
      destruct Hb as (Hres & acts' & x & q & Ha & ->). rewrite (tf_actions _ _ _ _ Hf) in Ha.
      injection Ha as <-. assert (map re_call_id (bl_results b) ≡ₚ map act_call_id acts) as Hp.
      { rewrite Hres. apply NoDup_Permutation; [apply Hf|apply Hf|]. intros c.
        split; [apply (tf_of_turn _ _ _ _ Hf)|apply (Hs _ _ _ E (tf_actions _ _ _ _ Hf))]. }
      split; [by repeat case_match|]. intros Hn. rewrite Hn in Hp. simpl in *.
      apply Permutation_nil in Hp. by apply map_eq_nil in Hp.
    - destruct Hb as [-> Hlast]. unfold follows, may_end. destruct (last (bl_entries b)) as [[]|];
        (split; [by repeat case_match|done]) || done. }
  destruct (bl_results b) as [|x m] eqn:Er; [destruct (bl_notices b) as [|y k] eqn:En|];
    simpl; rewrite ?Er, ?En; [by auto|..]; (split_and!; [|by rewrite last_snoc|done..]);
    by apply linked_snoc.
Qed.

Lemma transcript_step_built l b s :
  trace l -> built l b -> may_follow l s ->
  exists b', transcript_step b s = Ok b' /\ built (l ++ [s]) b'.
Proof.
  intros Hl Hb Hs. pose proof Hs as [Hr Hm]. unfold transcript_step.
  assert (forall b', is_kind S_MODEL_TURN s = false ->
    bl_entries b' = bl_entries b ->
    map re_call_id (bl_results b') = map re_call_id (bl_results b) ++ option_list (st_call_id s) ->
    (last_turn l = None -> st_call_id s = None) -> built (l ++ [s]) b') as Hsame.
  { intros b' Hk He Hres Hn. destruct Hb as [Hlink Hb]. split; [by rewrite He|].
    rewrite last_turn_snoc, Hk. destruct (last_turn l) as [[t r]|]; simpl.
    - destruct Hb as (Hres' & Hacts). rewrite answers_of_snoc, Hres, Hres', He. done.
    - destruct Hb as (Hres' & Hlast). rewrite He. split; [|done]. rewrite Hn, Hres' in Hres by done.
      by apply map_eq_nil in Hres. }
  assert (forall c, due l c -> last_turn l <> None) as Hdue
    by (intros c (t & r & acts & E & _); congruence).
  destruct (is_kind S_CONTEXT s) eqn:E1; [|destruct (is_kind S_MODEL_TURN s) eqn:E2].
  - apply is_kind_true in E1 as Ek. rewrite Ek in Hm. destruct Hm as [Hc Hn].
    destruct (rd_context _ Hr Ek) as (c & ->). simpl. eexists. split; [done|].
    destruct Hb as [Hlink Hb]. rewrite Hn in Hb. destruct Hb as [Hres Hlast]. split.
    + apply linked_snoc; [done|]. unfold follows. by destruct (last (bl_entries b)) as [[]|].
    + rewrite last_turn_snoc, (proj2 (is_kind_false S_MODEL_TURN s)) by congruence. rewrite Hn. simpl.
      by rewrite last_snoc.
  - apply is_kind_true in E2 as Ek. rewrite Ek in Hm.
    destruct Hm as (Hc & Hset & _). destruct (rd_actions _ Hr Ek) as (acts & Ha & Hok). rewrite Ha. simpl.
    eexists. split; [done|]. destruct (flush_built _ _ Hl Hb Hset) as (Hlink & Hend & Hres & Hnot). split.
    + apply linked_snoc; [done|]. unfold follows, may_end in *. by destruct (last (bl_entries (flush b))) as [[]|].
    + rewrite last_turn_snoc, (proj2 (is_kind_true S_MODEL_TURN s)) by done. simpl. rewrite Hres. split; [done|].
      rewrite last_snoc. eauto.
  - destruct (may_follow_call _ _ Hs) as [(Hact & c & Hc & Hd)|[Hact Hc]]; rewrite Hact.
    + assert (has_call_id s = true) as ->.
      { unfold has_call_id. rewrite Hc. apply nonempty_true. intros ->. destruct Hd as (t & r & acts & El & Ha & Hin & _).
        destruct (turn_facts_of _ _ _ Hl El) as [acts' Hf]. rewrite (tf_actions _ _ _ _ Hf) in Ha.
        injection Ha as ->. by apply (tf_calls _ _ _ _ Hf). }
      destruct (rd_observed _ Hr) as (o & ->). simpl. eexists. split; [done|]. apply Hsame; try done.
      * cbn [bl_results]. by rewrite map_app, Hc.
      * intros Hn. by apply Hdue in Hd.
    + simpl. destruct (is_kind S_FEEDBACK s) eqn:E3.
      * apply is_kind_true in E3. destruct (rd_notice _ Hr E3) as (x & ->). simpl. eexists. split; [done|].
        apply Hsame; try done. by rewrite Hc, app_nil_r.
      * eexists. split; [done|]. apply Hsame; try done. by rewrite Hc, app_nil_r.
Qed.

(** The transcript of a trace whose calls are all answered is well paired. *)
Lemma transcript_built l :
  trace l -> exists b, transcript_steps {| bl_entries := []; bl_results := []; bl_notices := [] |} l = Ok b
                       /\ built l b.
Proof.
  assert (forall b x m, transcript_steps b (x ++ m)
          = rbind (transcript_steps b x) (fun b' => transcript_steps b' m)) as Happ.
  { intros b x. revert b. induction x as [|s x IH]; intros b m; [done|]. simpl.
    destruct (transcript_step b s); [apply IH|done]. }
  induction 1 as [|l s Hl (b & Hb & Hbuilt) Hs].
  - eexists. split; [done|]. split; [|done]. by intros i e ?%list_elem_of_lookup_2%elem_of_nil.
  - destruct (transcript_step_built _ _ _ Hl Hbuilt Hs) as (b' & Hstep & Hb').
    exists b'. split; [|done]. rewrite Happ, Hb. simpl. by rewrite Hstep.
Qed.

Lemma transcript_paired l :
  trace l -> settled l -> exists es, build_transcript l = Ok es /\ paired None es.
Proof.
  intros Hl Hs. destruct (transcript_built _ Hl) as (b & Hb & Hbuilt). unfold build_transcript. rewrite Hb.
  simpl. eexists. split; [done|]. destruct (flush_built _ _ Hl Hbuilt Hs) as (? & ? & _).
  by apply linked_paired.
Qed.

(** ** What else is read of a trace *)

Lemma traverse_total {A B} (f : A -> result B) l :
  (forall a, a ∈ l -> exists b, f a = Ok b) -> exists bs, traverse f l = Ok bs.
Proof.
  induction l as [|a l IH]; intros H; [by eexists|]. simpl. destruct (H a) as [b ->]; [set_solver|].
  destruct IH as [bs ->]; [set_solver|]. by eexists.
Qed.

Lemma trace_accessible d row :
  trace (steps_of d (inv_id row)) -> exists acc, accessible d row = Ok acc.
Proof.
  intros Ht. unfold accessible, shown_ids.
  destruct (traverse_total (fun s => payload_ids (st_payload s))
              (List.filter shows_evidence (steps_of d (inv_id row)))) as [ids ->].
  - intros s Hs. apply list_elem_of_In, filter_In in Hs as [Hin Hsh]. apply list_elem_of_In in Hin.
    by apply (rd_ids _ (trace_readable _ _ Ht Hin)).
  - by eexists.
Qed.

Lemma trace_prior_calls l : trace l -> exists prior, _prior_calls l = Ok prior.
Proof.
  intros Ht. unfold _prior_calls. apply traverse_total. intros s Hs.
  apply list_elem_of_In, filter_In in Hs as [Hin [Hk _]%andb_true_iff]. apply list_elem_of_In in Hin.
  apply is_kind_true in Hk. destruct (rd_tool _ (trace_readable _ _ Ht Hin) Hk) as (x & ->). by eexists.
Qed.

(** A trace without a context has no turn. *)
Lemma no_context_no_turn l : trace l -> existsb (is_kind S_CONTEXT) l = false -> last_turn l = None.
Proof.
  intros Ht Hc. destruct (last_turn l) as [[t r]|] eqn:E; [|done].
  destruct (turn_facts_of _ _ _ Ht E) as [acts Hf]. pose proof (tf_context _ _ _ _ Hf). congruence.
Qed.

(** ** Every step the engine records can be read back

    One lemma for each kind of step: what [AgentEngine] and incident-core put into the
    payload is what [AgentContext] looks for when it rebuilds the transcript, the budgets
    and the evidence shown. *)
(** A step with this kind, call and payload. *)
Definition step_is (k : StepKind) (c : option string) (p : list (string * json))
    (s : InvestigationStepRow) : Prop :=
  st_kind s = k /\ st_call_id s = c /\ st_payload s = JObj p.

Lemma pget_is k c p s key d : step_is k c p s -> pget key d s = default d (assoc_get key p).
Proof. intros (_ & _ & Hp). unfold pget, payload_of. by rewrite Hp. Qed.
Lemma pitem_is k c p s key v :
  step_is k c p s -> assoc_get key p = Some v -> pitem key s = Ok v.
Proof. intros (_ & _ & Hp) Hv. unfold pitem, payload_of, jitem. by rewrite Hp, Hv. Qed.
Lemma ids_are k c p s l :
  step_is k c p s -> assoc_get "evidence_ids" p = Some (strings l) ->
  (exists ids, traverse parse_uuid l = Ok ids) -> exists ids, payload_ids (st_payload s) = Ok ids.
Proof.
  intros (_ & _ & ->) Hl [ids Hids]. exists ids. unfold payload_ids. rewrite Hl. simpl.
  assert (forall m, traverse uuid_of (map JStr m) = traverse parse_uuid m) as E; [|by rewrite E].
  induction m as [|x m IH]; [done|]. simpl. by rewrite IH.
Qed.

Ltac readable_step k :=
  let H := fresh "H" in intros H; pose proof H as (? & _ & _);
  split; unfold shows_evidence, observation_for;
  try (match goal with E : st_kind _ = k |- _ => rewrite E end; done);
  match goal with E : st_kind _ = k |- _ => rewrite E; try by eexists end.

(** ** Steps the engine records *)

Section Payloads.
Context {HA : Hashing}.

Lemma readable_context criteria catalog definitions incident refs inv now s :
  step_is S_CONTEXT None (context_payload criteria catalog definitions incident refs inv now) s ->
  readable s.
Proof.
  readable_step S_CONTEXT.
  - intros _. eapply ids_are; [exact H| |]; [|apply (traverse_uuids (map er_id refs))].
    unfold strings. rewrite map_map. reflexivity.
  - intros _. eexists. by eapply pitem_is.
Qed.
End Payloads.

Lemma actions_read acts :
  (forall a, a ∈ acts -> exists l, act_arguments a = JObj l) ->
  traverse action_of (map action_json acts) = Ok acts.
Proof.
  induction acts as [|a acts IH]; intros H; [done|]. cbn [map traverse].
  destruct (H a) as [l Hl]; [set_solver|].
  assert (action_of (action_json a) = Ok a) as ->.
  { destruct a as [c n x]. simpl in Hl. subst x. done. }
  cbn [rbind]. rewrite IH by set_solver. done.
Qed.

Lemma turn_actions t c s :
  step_is S_MODEL_TURN c (turn_payload t) s ->
  (forall a, a ∈ mt_actions t -> exists l, act_arguments a = JObj l) ->
  actions_of s = Ok (mt_actions t).
Proof.
  intros Hs Ha. unfold actions_of. rewrite (pget_is _ _ _ _ _ _ Hs). simpl. by apply actions_read.
Qed.

Lemma readable_turn t s :
  step_is S_MODEL_TURN None (turn_payload t) s ->
  (forall a, a ∈ mt_actions t -> exists l, act_arguments a = JObj l) ->
  calls_ok (mt_actions t) -> readable s.
Proof.
  intros Hs Ha Hc. revert Hs. readable_step S_MODEL_TURN.
  - intros _. exists (mt_actions t). split; [by eapply turn_actions|done].
  - intros _. exists (mt_text t). by rewrite (pget_is _ _ _ _ _ _ H).
Qed.

Lemma readable_notice text reason s :
  step_is S_FEEDBACK None [("text", JStr text); ("reason", reason)] s -> readable s.
Proof. readable_step S_FEEDBACK. intros _. eexists. by eapply pitem_is. Qed.

Lemma readable_error code message retryable n s :
  step_is S_MODEL_ERROR None (error_payload code message retryable n) s -> readable s.
Proof. by readable_step S_MODEL_ERROR. Qed.

Lemma readable_invalid c s :
  step_is S_INVALID_CALL (Some (inv_call_id c)) (invalid_payload c) s -> readable s.
Proof. readable_step S_INVALID_CALL. erewrite (pitem_is _ _ _ _ _ _ H) by reflexivity. by eexists. Qed.

Lemma readable_refused r code message c s :
  step_is S_TOOL_CALL c (refused_payload r code message) s -> readable s.
Proof.
  readable_step S_TOOL_CALL.
  - erewrite (pitem_is _ _ _ _ _ _ H) by reflexivity. by eexists.
  - intros _. apply (ids_are _ _ _ _ [] H); [done|by eexists].
  - intros _. eexists. by eapply pitem_is.
Qed.

Lemma readable_outcome r o counted c s :
  (exists l, traverse parse_uuid (to_evidence_ids o) = Ok l) ->
  step_is S_TOOL_CALL c (outcome_payload r o counted) s -> readable s.
Proof.
  intros Hids. readable_step S_TOOL_CALL.
  - erewrite (pitem_is _ _ _ _ _ _ H) by reflexivity. by eexists.
  - intros _. by apply (ids_are _ _ _ _ (to_evidence_ids o) H).
  - intros _. eexists. by eapply pitem_is.
Qed.

(** ** Steps incident-core records *)

Lemma snapshots_read (l : list HypothesisSnapshot) :
  exists m, traverse hypothesis_entry (map to_json l) = Ok m.
Proof. apply traverse_total. intros j (s & -> & _)%list_elem_of_fmap. by eexists. Qed.

Definition applied_ok (l : list json) : Prop := exists m, traverse applied_entry l = Ok m.

Lemma traverse_snoc {A B} (f : A -> result B) l a bs b :
  traverse f l = Ok bs -> f a = Ok b -> traverse f (l ++ [a]) = Ok (bs ++ [b]).
Proof.
  revert bs. induction l as [|x l IH]; intros bs Hl Ha; simpl in *.
  - injection Hl as <-. by rewrite Ha.
  - destruct (f x) as [y|]; [|done]. cbn [rbind] in *. destruct (traverse f l) as [ys|] eqn:E; [|done].
    injection Hl as <-. by rewrite (IH ys).
Qed.

Lemma apply_update_reads now i acc s u d s' d' :
  apply_update now i acc s u d = Ok (s', d') -> applied_ok (ap_applied s) -> applied_ok (ap_applied s').
Proof.
  unfold apply_update. intros Hr [m Hm]. destruct (check_hypothesis_update _ _ _).
  2:{ apply ret_Ok in Hr as [-> _]. by exists m. }
  apply bind_Ok in Hr as ([h from] & d1 & _ & Hr).
  repeat (apply bind_Ok in Hr as (? & ? & _ & Hr)). apply ret_Ok in Hr as [-> _].
  eexists. simpl. by eapply traverse_snoc.
Qed.

Lemma apply_updates_reads now i acc l s d s' d' :
  apply_updates now i acc s l d = Ok (s', d') -> applied_ok (ap_applied s) -> applied_ok (ap_applied s').
Proof.
  revert s d. induction l as [|u l IH]; intros s d Hr Hs; cbn [apply_updates] in Hr.
  - by apply ret_Ok in Hr as [-> _].
  - apply bind_Ok in Hr as (s1 & d1 & H1 & Hr). eapply IH; [exact Hr|]. by eapply apply_update_reads.
Qed.

Definition update_payload (a : Applying) : list (string * json) :=
  [("applied", JArr (ap_applied a)); ("rejected", JArr (ap_rejected a));
   ("hypotheses", JArr (map to_json (ap_snapshots a).*2))].

Lemma readable_update a c s :
  applied_ok (ap_applied a) -> step_is S_HYPOTHESIS_UPDATE c (update_payload a) s -> readable s.
Proof.
  intros [m Hm]. readable_step S_HYPOTHESIS_UPDATE.
  rewrite !(pget_is _ _ _ _ _ _ H). simpl. rewrite Hm. cbn [rbind].
  destruct (snapshots_read (ap_snapshots a).*2) as [k ->]. by eexists.
Qed.

Definition rejection_payload (r : FinalInvestigationResult) (unmet : list string)
    : list (string * json) :=
  [("unmet_criteria", JArr (map JStr unmet)); ("proposed", result_json r)].

Lemma readable_rejection r unmet c s :
  step_is S_CONCLUSION_REJECTED c (rejection_payload r unmet) s -> readable s.
Proof.
  readable_step S_CONCLUSION_REJECTED. rewrite (pget_is _ _ _ _ _ _ H). unfold join_json. simpl.
  destruct (traverse_total (fun x => match x with JStr s => Ok s
      | _ => Err (TypeError "sequence item: expected str instance") end) (map JStr unmet)) as [m ->].
  - intros j (x & -> & _)%list_elem_of_fmap. by eexists.
  - by eexists.
Qed.
