(* ===== verification/AgentHold.v ===== *)
(** * Holding an investigation

    [Held]: a worker owns a running investigation whose trace it can read and whose
    counters are within the budget.  Every command the engine issues then goes through,
    and leaves the investigation held with one more step, or ended.  [wp] is the program
    logic in which the engine is verified. *)
From S2P Require Import Prelude PyFloat Json Enums VerificationDomain Catalog.
From S2P Require Import RemediationDomain Uuid InvestigationDomain InvestigationRules Policy Store TxLogic.
From S2P Require Import RemediationLifecycle RemediationService RemediationProofs.
From S2P Require Import IncidentRepository AlertIdentity IncidentService.
From S2P Require Import InvestigationService EvidenceScope AgentModel AgentContext.
From S2P Require Import EvidenceService AgentTools AgentToolset AgentEngine AgentTrace.
From S2P Require Import InvestigationProofs InvestigationInvariant InvestigationKeeps InvestigationSafety.
From S2P Require Import InvestigationProgress.
From S2P Require Import Prog.
Local Open Scope Z_scope.

(** What no command of a run changes. *)
Definition settings_of (row : InvestigationRow) :=
  (inv_id row, inv_incident_id row, inv_budget row,
   (inv_model_provider row, inv_model_name row, inv_model_config row)).
(** What only recording a turn, or evidence, changes. *)
Definition counts_of (row : InvestigationRow) := (inv_iteration_count row, inv_evidence_count row).

(** An investigation a worker can run or resume. *)
Record Fit (i : uuid) (d : db) (row : InvestigationRow) (l : list InvestigationStepRow) : Prop := {
  ft_inv : GInv d;
  ft_row : investigations d !! i = Some row;
  ft_steps : steps_of d i = l;
  ft_trace : trace l;
  ft_spec : exists spec, from_persisted (inv_model_provider row) (inv_model_name row)
                           (inv_model_config row) = Ok spec;
  ft_turns : Z.of_nat (length (model_turns l)) = inv_iteration_count row;
  ft_max : inv_iteration_count row <= max_iterations (inv_budget row);
  ft_evidence : inv_evidence_count row <= max_evidence_items (inv_budget row);
}.

Section Held.
Context (i : uuid) (owner : string).

Definition Held (d : db) (row : InvestigationRow) (l : list InvestigationStepRow) : Prop :=
  Fit i d row l /\ fenced owner row = true.
Definition Ended (status : InvestigationStatus) (d : db) : Prop :=
  status ∈ TERMINAL_INVESTIGATION_STATUSES
  /\ exists row, investigations d !! i = Some row /\ inv_status row = status
       /\ inv_iteration_count row <= max_iterations (inv_budget row)
       /\ inv_evidence_count row <= max_evidence_items (inv_budget row).

Lemma held_id d row l : Held d row l -> inv_id row = i.
Proof. intros [[HI Hi] _]. by eapply row_key. Qed.
Lemma held_numbered d row l : Held d row l -> numbered l.
Proof. intros [[HI _ <-] _]. apply (gi_steps _ HI). Qed.
Lemma held_accessible d row l : Held d row l -> exists acc, accessible d row = Ok acc.
Proof.
  intros H. apply trace_accessible. rewrite (held_id _ _ _ H). destruct H as [[_ _ -> Ht] _]. done.
Qed.

(** The loaded state: the row, the steps in order. *)
Lemma held_load d row l :
  Held d row l -> exists st, load_state i d = Ok st /\ is_investigation st = row /\ is_steps st = l.
Proof.
  intros H. destruct (held_accessible _ _ _ H) as [acc Ha]. pose proof (held_numbered _ _ _ H) as Hn.
  destruct H as [[HI Hi Hl _] _]. unfold load_state. rewrite Hi, Ha. eexists. split; [done|]. split; [done|].
  simpl. unfold _steps. rewrite Hl. by apply order_numbered.
Qed.

(** A step appended to the trace and the row rewritten. *)
Lemma held_next d d' row row' l s :
  Held d row l -> may_follow l s -> GInv d' -> investigations d' !! i = Some row' ->
  fenced owner row' = true -> settings_of row' = settings_of row ->
  investigation_steps d' = investigation_steps d ++ [s] -> st_investigation_id s = i ->
  (if is_kind S_MODEL_TURN s
   then inv_iteration_count row' = inv_iteration_count row + 1
        /\ inv_iteration_count row < max_iterations (inv_budget row)
   else inv_iteration_count row' = inv_iteration_count row) ->
  inv_evidence_count row' <= max_evidence_items (inv_budget row) ->
  Held d' row' (l ++ [s]).
Proof.
  intros [[HI Hi Hl Ht Hsp Hn Hm He] Hf] Hs HI' Hi' Hf' Hset Hd Hsi Hk He'. split; [|done].
  injection Hset as E1 E2 E3 E4 E5 E6.
  assert (steps_of d' i = l ++ [s]) as Hl'.
  { rewrite (steps_of_app _ _ _ _ Hd), Hl. simpl. by rewrite bool_decide_eq_true_2. }
  split; try done.
  - by constructor.
  - by rewrite E4, E5, E6.
  - rewrite model_turns_app, length_app, Nat2Z.inj_add, Hn. unfold model_turns. simpl.
    destruct (is_kind S_MODEL_TURN s); simpl; lia.
  - rewrite E3. destruct (is_kind S_MODEL_TURN s); lia.
  - by rewrite E3.
Qed.

(** Other services, the tools among them, leave it held. *)
Lemma registers_onlooker d d' : registers d d' -> onlooker d d'.
Proof. intros [[H ?] Hr]%registers_adds. apply onlooker_incidents; try done; by rewrite H. Qed.

Lemma held_registers d d' row l : registers d d' -> Held d row l -> Held d' row l.
Proof.
  intros Hr [[HI Hi Hl Ht Hsp Hn Hm He] Hf]. split; [|done].
  split; try done; [eapply GInv_onlooker; [exact HI|by apply registers_onlooker]|..];
    destruct (registers_adds _ _ Hr) as [[-> _] _]; done.
Qed.

(** ** Recording a step *)

Lemma held_record now k n p c lt us tc ne la lease d row l :
  Held d row l -> (forall s, step_is k c p s -> may_follow l s) ->
  (k = S_MODEL_TURN -> n = inv_iteration_count row + 1
                       /\ inv_iteration_count row < max_iterations (inv_budget row)) ->
  ne + inv_evidence_count row <= max_evidence_items (inv_budget row) ->
  exists sq d' s, record_step now i owner k n p c lt us tc ne la lease d = Ok (sq, d')
    /\ step_is k c p s /\ Held d' (counted now k n us tc ne la lease row) (l ++ [s]).
Proof.
  intros HH Hs Hk Hne. pose proof HH as [[HI Hi _] Hf]. pose proof (held_id _ _ _ HH) as Hid.
  assert (total (record_step now i owner k n p c lt us tc ne la lease) d) as (sq & d' & Hr).
  { unfold record_step. apply total_bind; [exists row, d; by apply fenced_run|].
    intros r0 d0 _. apply total_bind; [eexists _, _; by apply append_run|].
    intros q d1 _. apply total_bind; [apply total_writes|]. intros [] d2 _. apply total_ret. }
  exists sq, d', (new_step now d row k n (JObj p) c lt). split; [done|]. split; [done|].
  pose proof (record_step_keeps _ _ _ _ _ _ _ _ _ _ _ _ _ _ _ _ HI Hr) as [HI' _].
  apply record_step_run in Hr as (row0 & Hi0 & _ & _ & T1 & _ & _ & T4 & _).
  assert (row0 = row) as -> by congruence.
  eapply (held_next d d' row); try done.
  - by apply Hs.
  - by rewrite T1, Hid, lookup_insert_eq.
  - simpl. unfold is_kind. simpl. destruct (bool_decide (k = S_MODEL_TURN)) eqn:Ek; [|done].
    apply bool_decide_eq_true in Ek. destruct (Hk Ek). split; lia.
Qed.

(** ** Hypothesis updates *)

Lemma total_insert_links now h rel l d :
  (forall e, e ∈ l -> is_Some (evidence_refs d !! e)) -> total (insert_links now h rel l) d.
Proof.
  revert d. induction l as [|e l IH]; intros d Hr; cbn [insert_links]; [apply total_ret|].
  assert (total (insert_link {| lk_hypothesis_id := h; lk_evidence_id := e; lk_relation := rel;
                               lk_linked_at := now |}) d) as Ht.
  { unfold insert_link. apply total_bind; [apply total_reads|]. intros d0 d1 [-> ->]%reads_Ok.
    unfold id. simpl. case_bool_decide; [apply total_ret|].
    rewrite bool_decide_eq_true_2 by (apply Hr; set_solver). apply total_writes. }
  apply total_bind; [done|]. intros [] d1 H1. apply IH. intros x Hx.
  assert (evidence_refs d1 = evidence_refs d) as ->; [|apply Hr; set_solver].
  pose proof (frame_insert_link _ _ _ _ H1) as [-> _]. done.
Qed.

Definition all_registered (d : db) (acc : gset uuid) : Prop :=
  forall e, e ∈ acc -> is_Some (evidence_refs d !! e).

Lemma frame_registered d d' acc : investigation_frame d d' -> all_registered d acc -> all_registered d' acc.
Proof. intros [-> _] H. exact H. Qed.

Lemma total_apply_update now j acc s u d :
  all_registered d acc -> total (apply_update now j acc s u) d.
Proof.
  intros Hr. unfold apply_update. destruct (check_hypothesis_update _ _ _) eqn:E; [|apply total_ret].
  apply update_accepted_iff in E as [Hacc _].
  apply total_bind.
  { destruct (assoc_get _ _); [apply total_ret|]. apply total_bind; [apply total_uuid4|].
    intros h d1 _. apply total_ret. }
  intros [h from] d1 H1. assert (evidence_refs d1 = evidence_refs d) as E1.
  { destruct (assoc_get _ _); [by apply ret_Ok in H1 as [_ ->]|].
    apply bind_Ok in H1 as (hid & d2 & H2 & H1). apply uuid4_Ok in H2 as [_ ->].
    by apply ret_Ok in H1 as [_ ->]. }
  apply total_bind; [apply total_writes|]. intros [] d2 ->%writes_Ok.
  apply total_bind; [apply total_insert_links; intros e He; simpl; rewrite E1; apply Hr, Hacc; by left|].
  intros [] d3 H3. pose proof (frame_insert_links _ _ _ _ _ _ _ H3) as [E3 _].
  apply total_bind.
  { apply total_insert_links. intros e He. rewrite E3. simpl. rewrite E1. apply Hr, Hacc. by right. }
  intros [] d4 _. apply total_bind; [apply total_reads|]. intros sn d5 _. apply total_ret.
Qed.

Lemma total_apply_updates now j acc l s d :
  all_registered d acc -> total (apply_updates now j acc s l) d.
Proof.
  revert s d. induction l as [|u l IH]; intros s d Hr; cbn [apply_updates]; [apply total_ret|].
  apply total_bind; [by apply total_apply_update|]. intros s1 d1 H1. apply IH.
  eapply frame_registered; [|exact Hr]. by eapply frame_apply_update.
Qed.

Lemma accessible_registered d row acc : accessible d row = Ok acc -> all_registered d acc.
Proof.
  intros Ha e He. apply (accessible_spec _ _ _ _ Ha) in He as [Hr _]. unfold registered_for in Hr.
  by destruct (evidence_refs d !! e).
Qed.

Definition same_run (row row' : InvestigationRow) : Prop :=
  settings_of row' = settings_of row /\ counts_of row' = counts_of row.

Lemma held_apply now n c b d row l :
  Held d row l -> batch_ok b = true -> due l c ->
  exists o d' row' s, apply_hypothesis_updates now i owner n c b d = Ok (o, d')
    /\ st_kind s = S_HYPOTHESIS_UPDATE /\ st_call_id s = Some c
    /\ same_run row row' /\ Held d' row' (l ++ [s]).
Proof.
  intros HH Hb Hdue. pose proof HH as [[HI Hi Hl _ _ _ _ Hev] Hf]. pose proof (held_id _ _ _ HH) as Hid.
  destruct (held_accessible _ _ _ HH) as [acc Ha].
  destruct (total_apply_updates now i acc (updates b) (loop_start d i) d (accessible_registered _ _ _ Ha))
    as (a & d1 & Hu).
  set (s := new_step now d1 row S_HYPOTHESIS_UPDATE n (JObj (update_payload a)) (Some c) None).
  set (row' := row <| inv_last_action := Some ("update_hypotheses: " +++ count_str (ap_applied a)
              +++ " applied, " +++ count_str (ap_rejected a) +++ " rejected") |>
         <| inv_updated_at := now |>).
  assert (exists o d', apply_hypothesis_updates now i owner n c b d = Ok (o, d')
            /\ investigations d' = <[i := row']> (investigations d1)
            /\ investigation_steps d' = investigation_steps d1 ++ [s]) as (o & d' & Hr & E1 & E2).
  { unfold apply_hypothesis_updates.
    rewrite (bind_run _ _ d row d) by (by apply fenced_run).
    rewrite (bind_run _ _ d acc d) by (by apply accessible_run).
    rewrite (bind_run (reads _) _ d (loop_start d i) d) by (by apply reads_Ok).
    rewrite (bind_run _ _ d a d1 Hu). eexists _, _. split; [reflexivity|]. split; [by rewrite <-Hid|reflexivity]. }
  exists o, d', row', s. split; [done|]. do 2 (split; [done|]). split; [done|].
  pose proof (apply_keeps _ _ _ _ _ _ _ _ _ HI Hb Hr) as [HI' _].
  rewrite <-Hid in Hu.
  assert (loop_inv d row acc (loop_start d (inv_id row))) as HL.
  { constructor; [done|by rewrite Hid|by apply fenced_open in Hf| |by apply coherent_start].
    intros e. apply (accessible_spec _ _ _ _ Ha). }
  apply andb_true_iff in Hb as [_ Hb].
  destruct (apply_updates_keep _ _ _ _ _ _ _ _ HL Hb Hu) as (_ & _ & _ & Hsteps).
  eapply (held_next d d' row row'); try done.
  - split; [|by exists c]. eapply (readable_update a (Some c)); [|done].
    eapply apply_updates_reads; [exact Hu|]. by exists [].
  - by rewrite E1, lookup_insert_eq.
  - by rewrite E2, Hsteps.
Qed.

(** ** Ending *)

Lemma held_complete criteria now n c r d row l :
  Held d row l -> due l c ->
  exists o d', complete criteria now i owner n c r d = Ok (o, d')
    /\ if accepted o then Ended I_COMPLETED d'
       else exists row' s, st_kind s = S_CONCLUSION_REJECTED /\ st_call_id s = Some c
              /\ same_run row row' /\ Held d' row' (l ++ [s]).
Proof.
  intros HH Hdue. pose proof HH as [[HI Hi Hl _ _ _ _ Hev] Hf]. pose proof (held_id _ _ _ HH) as Hid.
  destruct (held_accessible _ _ _ HH) as [acc Ha]. pose proof (fenced_open _ _ Hf) as Ho.
  destruct (answered_conclusion criteria d i owner row acc now n c r HI Hi Hf Ha) as (o & d' & Hr & _ & _ & Hacc & Hrej).
  exists o, d'. split; [done|]. destruct (accepted o) eqn:Eo.
  - destruct (Hacc eq_refl) as (row' & Hi' & Hs & E1 & E2 & E3). split; [by left|]. exists row'.
    rewrite E1, E2, E3. split_and!; try done. by destruct HH as [[] _].
  - destruct (Hrej eq_refl) as (T1 & _ & _ & T4 & _).
    exists (row <| inv_last_action := Some "conclusion rejected" |>),
      (new_step now d row S_CONCLUSION_REJECTED n
         (JObj (rejection_payload r (unmet_in criteria d row acc r))) (Some c) None).
    do 3 (split; [done|]). pose proof (complete_keeps _ _ _ _ _ _ _ _ _ _ HI Hr) as [HI' _].
    eapply (held_next d d' row); try done.
    + split; [by eapply (readable_rejection r (unmet_in criteria d row acc r) (Some c))|by exists c].
    + by rewrite T1, lookup_insert_eq.
Qed.

Lemma held_escalate now n o rc dt ir eg c d row l :
  Held d row l -> o = I_ESCALATED \/ o = I_FAILED ->
  exists d', escalate now i owner n o rc dt ir eg c d = Ok ((), d') /\ Ended o d'.
Proof.
  intros HH Ho. pose proof HH as [[HI Hi Hl _ _ _ _ Hev] Hf].
  destruct (held_accessible _ _ _ HH) as [acc Ha].
  destruct (escalate_run now i owner n o rc dt ir eg c d row acc HI Hi Hf Ha Ho)
    as (d' & row' & inc & Hr & Hi' & Hs & _ & (E1 & E2 & E3) & _). exists d'. split; [done|]. split.
  - unfold TERMINAL_INVESTIGATION_STATUSES. set_solver.
  - exists row'. rewrite E1, E2, E3. split_and!; try done. by destruct HH as [[] _].
Qed.

(** ** Claiming *)

Lemma fit_claim now lease d row l :
  Fit i d row l -> is_open_investigation row = true ->
  (take_lease now i owner lease d = Ok (false, d))
  \/ exists d', take_lease now i owner lease d = Ok (true, d')
       /\ Held d' (claimed now owner lease row) l.
Proof.
  intros [HI Hi Hl Ht Hsp Hn Hm He] Ho. pose proof (row_key _ _ _ HI Hi) as Hid.
  destruct (held_by_another now owner row) eqn:Eh.
  - left. apply take_lease_run. exists row. rewrite Eh, andb_false_r. done.
  - right. eexists. assert (take_lease now i owner lease d
      = Ok (true, d <| investigations ::= <[inv_id row := claimed now owner lease row]> |>)) as Hr.
    { apply take_lease_run. exists row. rewrite Eh, andb_true_r. split; [done|]. split; [|done].
      symmetry. apply negb_true_iff, bool_decide_eq_false. rewrite terminal_open. congruence. }
    split; [exact Hr|]. split; [|by apply fenced_spec]. split; try done.
    + by eapply take_lease_keeps.
    + simpl. by rewrite Hid, lookup_insert_eq.
Qed.
End Held.

(** ** Reasoning about a run of the engine

    [wp]: what a program of the engine may assume and must leave, whether it returns, ends
    the investigation or dies.  The environment (clock, model, tools) is restricted only
    by [Environment]: which exceptions it may raise, and a property of the model's side
    that being asked with a well-paired transcript preserves. *)
(** [W]: what the environment may raise, none of it a signal of the engine's own.
    [G]: what is known of the model's side. *)
Record Environment {AW : AgentWorld} {TL : Toolset} (W : exn -> Prop) (G : aw -> Prop) : Prop := {
  en_stop : forall st, ~ W (Stop st);
  en_lease : forall m, ~ W (LeaseLostError m);
  en_clock : forall w, G w -> G (read_clock w).2 /\ forall e, (read_clock w).1 = Err e -> W e;
  en_build : forall spec w, G w -> G (build_model spec w).2
    /\ forall e, (build_model spec w).1 = Err e -> W e \/ exists m, e = ModelConfigError m;
  en_decide : forall rq w, G w -> paired None (rq_transcript rq) -> G (decide rq w).2
    /\ forall e, (decide rq w).1 = Err e -> W e \/ exists c m b, e = ModelError c m b;
  en_make : forall st t e, trace (is_steps st) -> (ts_make st t).1 = Err e -> W e;
  en_tools : forall o tool arguments s e, tool ∈ EVIDENCE_TOOL_NAMES ->
    (ts_execute o tool arguments s).1 = Err e -> W e;
}.

Section Runs.
Context {MS : ModelSchemas} {HA : Hashing} {AW : AgentWorld} {TL : Toolset}.
Context (criteria : StoppingCriteria) (catalog : ServiceCatalog) (definitions : list ToolDefinition).
Context (i : uuid) (owner : string) (lease_seconds : Z) (retry_attempts : nat).
Context (W : exn -> Prop) (G : aw -> Prop) (EN : Environment W G).

Abbreviation Run := (Prog engine_state).

(** ** The logic *)

(** Where a run is left: at [Q], with the investigation ended, or dead but resumable. *)
Definition post {A} (Q : A -> engine_state -> Prop) (r : result A) (s : engine_state) : Prop :=
  match r with
  | Ok a => Q a s
  | Err (Stop st) => G s.1 /\ Ended i st s.2.2
  | Err e => G s.1 /\ W e /\ exists row l, Fit i s.2.2 row l
  end.
Definition wp {A} (m : Run A) (Q : A -> engine_state -> Prop) (s : engine_state) : Prop :=
  post Q (m s).1 (m s).2.

(** The investigation is held, with this row and this trace. *)
Definition At (row : InvestigationRow) (l : list InvestigationStepRow) (s : engine_state) : Prop :=
  G s.1 /\ Held i owner s.2.2 row l.

Lemma wp_ret {A} (a : A) Q s : Q a s -> wp (mret a) Q s.
Proof. done. Qed.
Lemma wp_bind {A B} (m : Run A) (k : A -> Run B) Q s :
  wp m (fun a s1 => wp (k a) Q s1) s -> wp (m ≫= k) Q s.
Proof.
  unfold wp, mbind, Prog_bind. destruct (m s) as [[a|e] s1]; [done|]. by destruct e.
Qed.
Lemma wp_mono {A} (m : Run A) (Q R : A -> engine_state -> Prop) s :
  wp m Q s -> (forall a s1, Q a s1 -> R a s1) -> wp m R s.
Proof. unfold wp, post. intros H HR. destruct (m s) as [[a|e] s1]; [by apply HR|done]. Qed.

(** What dies, dies with the investigation resumable. *)
Lemma post_dead {A} (Q : A -> engine_state -> Prop) e row l s :
  W e -> At row l s -> post Q (Err e) s.
Proof.
  intros He [HG [HF _]]. unfold post. destruct e; try (split_and!; [done|done|by exists row, l]).
  by apply (en_stop _ _ EN) in He.
Qed.

Lemma wp_pure {A} (r : result A) a Q s : r = Ok a -> Q a s -> wp (pure r) Q s.
Proof. by intros ->. Qed.

Lemma wp_clock row l Q s :
  At row l s -> (forall now s1, At row l s1 -> s1.2 = s.2 -> Q now s1) -> wp clock Q s.
Proof.
  intros [HG HH] HQ. unfold wp, clock, on_left. destruct (en_clock _ _ EN s.1 HG) as [HG' He].
  destruct (read_clock s.1) as [[now|e] w]; simpl in *; [by apply HQ|].
  refine (post_dead Q e row l (w, s.2) _ _); [by apply He|by split].
Qed.

Lemma wp_command {A} (m : instant -> Tx A) row l Q s :
  At row l s ->
  (forall now, exists a d', m now s.2.2 = Ok (a, d')
                            /\ forall s1, G s1.1 -> s1.2.2 = d' -> Q a s1) ->
  wp (command m) Q s.
Proof.
  intros HA' Hm. unfold command. apply wp_bind. eapply wp_clock; [exact HA'|].
  intros now s1 [HG _] E. destruct (Hm now) as (a & d' & Hr & HQ).
  unfold wp, on_right, transact, atomically. rewrite E, Hr. by apply HQ.
Qed.

Lemma wp_reload row l Q s :
  At row l s ->
  (forall st, is_investigation st = row -> is_steps st = l -> Q st s) -> wp (reload i) Q s.
Proof.
  intros [_ HH] HQ. destruct (held_load _ _ _ _ _ HH) as (st & Hl & Hr & Hs).
  unfold wp, reload, reads_db. rewrite Hl. by apply HQ.
Qed.

(** ** Recording and ending *)

(** The row after a recorded step. *)
Definition recorded_row (k : StepKind) (ne : Z) (row row' : InvestigationRow) : Prop :=
  settings_of row' = settings_of row
  /\ inv_iteration_count row' = inv_iteration_count row + (if bool_decide (k = S_MODEL_TURN) then 1 else 0)
  /\ inv_evidence_count row' = inv_evidence_count row + ne.

Lemma wp_record state k n p o row l Q s :
  At row l s -> inv_id (is_investigation state) = i ->
  (forall st, step_is k (so_call_id o) p st -> may_follow l st) ->
  (k = S_MODEL_TURN -> n = inv_iteration_count row + 1
                       /\ inv_iteration_count row < max_iterations (inv_budget row)) ->
  inv_evidence_count row + so_new_evidence o <= max_evidence_items (inv_budget row) ->
  (forall row' st s1, step_is k (so_call_id o) p st -> recorded_row k (so_new_evidence o) row row' ->
     At row' (l ++ [st]) s1 -> Q () s1) ->
  wp (_record owner lease_seconds state k n p o) Q s.
Proof.
  intros HA' Hi Hst Hk Hne HQ. unfold _record. apply wp_bind. eapply wp_command; [exact HA'|].
  intros now. rewrite Hi. destruct HA' as [_ HH].
  destruct (held_record i owner now k n p (so_call_id o) (so_latency_ms o) (so_usage o) (so_tool_call o)
    (so_new_evidence o) (so_last_action o) lease_seconds s.2.2 row l HH Hst Hk ltac:(lia))
    as (sq & d' & st & Hr & His & HH').
  exists sq, d'. split; [exact Hr|]. intros s1 HG E. apply wp_ret.
  eapply HQ; [exact His| |split; [done|rewrite E; exact HH']].
  split_and!; [done| |simpl; lia]. simpl. case_bool_decide as Ek; [destruct (Hk Ek); lia|lia].
Qed.

Lemma wp_escalate {A} state n o rc dt ir eg c row l (Q : A -> engine_state -> Prop) s :
  At row l s -> inv_id (is_investigation state) = i -> o = I_ESCALATED \/ o = I_FAILED ->
  wp (_escalate owner state n o rc dt ir eg c) Q s.
Proof.
  intros HA' Hi Ho. unfold _escalate. apply wp_bind. eapply wp_command; [exact HA'|].
  intros now. rewrite Hi. destruct HA' as [_ HH].
  destruct (held_escalate i owner now n o rc dt ir eg c s.2.2 row l HH Ho) as (d' & Hr & He).
  exists (), d'. split; [exact Hr|]. intros s1 HG <-. done.
Qed.
Lemma wp_end_run {A} state n o rc dt row l (Q : A -> engine_state -> Prop) s :
  At row l s -> inv_id (is_investigation state) = i -> o = I_ESCALATED \/ o = I_FAILED ->
  wp (end_run owner state n o rc dt) Q s.
Proof. apply wp_escalate. Qed.

Lemma at_id row l s : At row l s -> inv_id row = i.
Proof. intros [_ HH]. by eapply held_id. Qed.
Lemma at_trace row l s : At row l s -> trace l.
Proof. by intros [_ [[] _]]. Qed.
Lemma at_budget row l s : At row l s -> inv_evidence_count row <= max_evidence_items (inv_budget row).
Proof. by intros [_ [[] _]]. Qed.
Lemma same_settings {row row'} : settings_of row' = settings_of row ->
  inv_id row' = inv_id row /\ inv_budget row' = inv_budget row.
Proof. by intros [= -> _ -> _ _ _]. Qed.
End Runs.
