(* ===== verification/AgentActs.v ===== *)
(** * Acting on a decision

    The loops of [_process] over the calls of a decision: each answers exactly its calls,
    in whatever way they come out, and leaves the investigation held or ended. *)
From S2P Require Import Prelude PyFloat Json Enums VerificationDomain Catalog.
From S2P Require Import RemediationDomain Uuid InvestigationDomain InvestigationRules Policy Store TxLogic Prog.
From S2P Require Import RemediationLifecycle RemediationService RemediationProofs.
From S2P Require Import IncidentRepository AlertIdentity IncidentService.
From S2P Require Import InvestigationService EvidenceScope AgentModel AgentContext.
From S2P Require Import EvidenceService AgentTools AgentToolset AgentEngine AgentTrace.
From S2P Require Import InvestigationProofs InvestigationInvariant InvestigationKeeps InvestigationSafety.
From S2P Require Import InvestigationProgress AgentHold.
Local Open Scope Z_scope.

(** ** Answers as they come *)

(** The trace goes on within the turn, answering these calls. *)
Definition extends (l l' : list InvestigationStepRow) (ids : list string) : Prop :=
  exists t r x, last_turn l = Some (t, r) /\ l' = l ++ x /\ last_turn l' = Some (t, r ++ x)
                /\ answers_of x = ids.

Lemma extends_refl l p : last_turn l = Some p -> extends l l [].
Proof. destruct p as [t r]. intros E. exists t, r, []. rewrite !app_nil_r. done. Qed.

Lemma answers_of_app x y : answers_of (x ++ y) = answers_of x ++ answers_of y.
Proof. apply omap_app. Qed.

Lemma extends_trans l1 l2 l3 a b : extends l1 l2 a -> extends l2 l3 b -> extends l1 l3 (a ++ b).
Proof.
  intros (t & r & x & E1 & -> & E2 & <-) (t' & r' & y & E3 & -> & E4 & <-).
  rewrite E2 in E3. injection E3 as <- <-. exists t, r, (x ++ y). rewrite !app_assoc, answers_of_app.
  done.
Qed.

Lemma extends_step l p s :
  last_turn l = Some p -> is_kind S_MODEL_TURN s = false -> extends l (l ++ [s]) (option_list (st_call_id s)).
Proof.
  destruct p as [t r]. intros E Hk. exists t, r, [s]. rewrite last_turn_snoc, Hk, E.
  by split_and!.
Qed.

Lemma extends_turn l l' ids : extends l l' ids -> exists p q, last_turn l = Some p /\ last_turn l' = Some q.
Proof. intros (t & r & x & ? & _ & ? & _). eauto. Qed.

(** Calls still to be answered, once each. *)
Definition todo (l : list InvestigationStepRow) (ids : list string) : Prop :=
  NoDup ids /\ forall c, c ∈ ids -> due l c.

Lemma todo_app_l l a b : todo l (a ++ b) -> todo l a.
Proof. intros [Hn Hd]. split; [by apply NoDup_app in Hn as [? _]|]. intros c Hc. apply Hd. set_solver. Qed.

Lemma todo_extends l l' a b : todo l (a ++ b) -> extends l l' a -> todo l' b.
Proof.
  intros [Hn Hd] (t & r & x & E1 & -> & E2 & <-). apply NoDup_app in Hn as (_ & Hx & Hb). split; [done|].
  intros c Hc. destruct (Hd c ltac:(set_solver)) as (t' & r' & acts & E & Ha & Hin & Hno).
  rewrite E1 in E. injection E as <- <-. exists t, (r ++ x), acts. split_and!; try done.
  rewrite answers_of_app. intros [?|?]%elem_of_app; [done|]. by eapply Hx.
Qed.

Lemma todo_cons l c a : todo l (c :: a) -> due l c.
Proof. intros [_ Hd]. apply Hd. by left. Qed.
Lemma todo_turn l c a : todo l (c :: a) -> exists p, last_turn l = Some p.
Proof. intros (t & r & _ & E & _)%todo_cons. by exists (t, r). Qed.

(** What the actions of a turn leave of the row. *)
Definition later (row row' : InvestigationRow) : Prop :=
  settings_of row' = settings_of row /\ inv_iteration_count row' = inv_iteration_count row.
#[export] Instance later_preorder : PreOrder later.
Proof. split; [by intros ?|]. intros a b c [H1 E1] [H2 E2]. split; congruence. Qed.

Lemma recorded_later k ne row row' : k <> S_MODEL_TURN -> recorded_row k ne row row' -> later row row'.
Proof. intros Hk (? & E & _). rewrite bool_decide_eq_false_2 in E by done. split; [done|lia]. Qed.
Lemma same_run_later row row' : same_run row row' -> later row row'.
Proof. intros [? [= ? _]]. by split. Qed.

Section Acts.
Context {MS : ModelSchemas} {HA : Hashing} {AW : AgentWorld} {TL : Toolset}.
Context (criteria : StoppingCriteria).
Context (i : uuid) (owner : string) (lease_seconds : Z).
Context (W : exn -> Prop) (G : aw -> Prop) (EN : Environment W G).
Context (state : InvestigationState) (Hstate : inv_id (is_investigation state) = i).

Abbreviation At := (At i owner G).
Abbreviation wp := (wp i W G).

Lemma wp_updates n us row l Q s :
  At row l s -> (forall u, u ∈ us -> batch_ok (batch u) = true) ->
  todo l (map huc_call_id us) -> is_Some (last_turn l) ->
  (forall row' l' s1, At row' l' s1 -> later row row' ->
     inv_evidence_count row' = inv_evidence_count row ->
     extends l l' (map huc_call_id us) -> Q () s1) ->
  wp (process_updates owner state n us) Q s.
Proof.
  revert row l s. induction us as [|u us IH]; intros row l s HA' Hb Ht [p Hp] HQ; cbn [process_updates].
  { apply wp_ret. eapply HQ; [exact HA'|reflexivity|done|by eapply extends_refl]. }
  apply wp_bind. eapply wp_command; [exact EN|exact HA'|]. intros now. rewrite Hstate.
  destruct (held_apply i owner now n (huc_call_id u) (batch u) s.2.2 row l) as (o & d' & row' & st & Hr & Hk & Hc & Hrun & HH).
  { apply HA'. } { apply Hb. set_solver. } { by eapply todo_cons. }
  exists o, d'. split; [exact Hr|]. intros s1 HG E.
  assert (extends l (l ++ [st]) [huc_call_id u]) as Hx.
  { pose proof (extends_step l p st Hp) as Hx. rewrite Hc in Hx. apply Hx. apply is_kind_false. congruence. }
  apply (IH row' (l ++ [st])); [split; [done|by rewrite E]|set_solver| | |].
  - by eapply (todo_extends _ _ [_]).
  - destruct (extends_turn _ _ _ Hx) as (_ & q & _ & ?). by exists q.
  - intros row2 l2 s2 HA2 Hl2 He2 Hx2. pose proof Hrun as [_ [= _ He]]. eapply HQ; [exact HA2| | |].
    + etransitivity; [by apply same_run_later|done].
    + congruence.
    + by eapply (extends_trans _ _ _ [_]).
Qed.

(** One recorded answer. *)
Lemma wp_answer k n p o c row l Q s :
  At row l s -> so_call_id o = Some c -> due l c ->
  k = S_TOOL_CALL \/ k = S_INVALID_CALL ->
  (forall st, step_is k (Some c) p st -> readable st) ->
  inv_evidence_count row + so_new_evidence o <= max_evidence_items (inv_budget row) ->
  (forall row' l' s1, At row' l' s1 -> later row row' ->
     inv_evidence_count row' = inv_evidence_count row + so_new_evidence o ->
     extends l l' [c] -> Q () s1) ->
  wp (_record owner lease_seconds state k n p o) Q s.
Proof.
  intros HA' Hc Hd Hk Hread Hev HQ.
  assert (k <> S_MODEL_TURN) as Hnt by (destruct Hk; congruence).
  eapply wp_record; [exact EN|exact HA'|exact Hstate| |done|exact Hev|].
  - rewrite Hc. intros st Hst. split; [by apply Hread|]. destruct Hst as (-> & -> & _).
    destruct Hk as [-> | ->]; by exists c.
  - rewrite Hc. intros row' st s1 Hst Hrec HA1.
    eapply HQ; [exact HA1|by eapply recorded_later|by destruct Hrec as (_ & _ & ?)|].
    destruct Hd as (t & r & acts & E & _). destruct Hst as (Hst & Hsc & _).
    pose proof (extends_step l (t, r) st E) as Hx. rewrite Hsc in Hx. apply Hx.
    apply is_kind_false. congruence.
Qed.

Lemma wp_invalid n cs row l Q s :
  At row l s -> todo l (map inv_call_id cs) -> is_Some (last_turn l) ->
  (forall row' l' s1, At row' l' s1 -> later row row' ->
     inv_evidence_count row' = inv_evidence_count row ->
     extends l l' (map inv_call_id cs) -> Q () s1) ->
  wp (process_invalid owner lease_seconds state n cs) Q s.
Proof.
  revert row l s. induction cs as [|c cs IH]; intros row l s HA' Ht [p Hp] HQ; cbn [process_invalid].
  { apply wp_ret. eapply HQ; [exact HA'|reflexivity|done|by eapply extends_refl]. }
  apply wp_bind. eapply wp_answer; [exact HA'|reflexivity|by eapply todo_cons|by right
    |by intros; eapply readable_invalid| |].
  { simpl. rewrite Z.add_0_r. by eapply at_budget. }
  intros row' l' s1 HA1 Hl He Hx. simpl in He. apply (IH row' l'); [done| | |].
  - by eapply (todo_extends _ _ [_]).
  - destruct (extends_turn _ _ _ Hx) as (_ & q & _ & ?). by exists q.
  - intros row2 l2 s2 HA2 Hl2 He2 Hx2. eapply HQ; [exact HA2|by transitivity row'|lia|].
    by eapply (extends_trans _ _ _ [_]).
Qed.

(** The tools run beside the held investigation. *)
Lemma wp_tool toolset tool arguments row l Q s :
  At row l s -> tool ∈ EVIDENCE_TOOL_NAMES ->
  (forall o s1, At row l s1 -> sound_outcome tool o -> Q o s1) ->
  wp (on_right (ts_execute toolset tool arguments)) Q s.
Proof.
  intros HA' Ht HQ. pose proof (ts_registers toolset tool arguments s.2) as Hr.
  unfold wp, on_right. destruct (ts_execute toolset tool arguments s.2) as [r s2] eqn:E.
  assert (At row l (s.1, s2)) as HA1.
  { destruct HA' as [HG HH]. split; [done|]. by eapply held_registers. }
  destruct r as [o|e]; simpl.
  - apply HQ; [done|]. split; [by eapply ts_readable|by eapply ts_counts].
  - refine (post_dead i owner W G EN Q e row l (s.1, s2) _ HA1).
    eapply (en_tools _ _ EN toolset tool arguments s.2); [done|]. by rewrite E.
Qed.

Lemma wp_request n final_reason toolset used r row l Q s :
  At row l s -> inv_budget (is_investigation state) = inv_budget row ->
  used = inv_evidence_count row -> due l (tr_call_id r) -> tr_tool r ∈ EVIDENCE_TOOL_NAMES ->
  (forall row' l' s1, At row' l' s1 -> later row row' -> extends l l' [tr_call_id r] ->
     Q (inv_evidence_count row') s1) ->
  wp (process_request owner lease_seconds state n final_reason toolset used r) Q s.
Proof.
  intros HA' Hb -> Hd Ht HQ. unfold process_request. destruct (refusal _ _ _ _) as [[code message]|] eqn:Er.
  - apply wp_bind. eapply wp_answer; [exact HA'|reflexivity|done|by left|by intros; eapply readable_refused| |].
    { simpl. rewrite Z.add_0_r. by eapply at_budget. }
    intros row' l' s1 HA1 Hl He Hx. apply wp_ret. simpl in He. rewrite Z.add_0_r in He. rewrite <-He. by eapply HQ.
  - apply wp_bind. eapply wp_tool; [exact HA'|done|]. intros o s1 HA1 (Hids & Hnew & Hlist).
    apply wp_bind. eapply wp_answer; [exact HA1|reflexivity|done|by left|by intros; eapply readable_outcome| |].
    + simpl. pose proof (at_budget _ _ _ _ _ _ HA1) as Hmax. unfold refusal in Er. rewrite Hb in Er.
      destruct final_reason; [done|]. case_bool_decide as El; simpl in Er.
      * rewrite (Hlist El). lia.
      * destruct (Z.leb_spec (max_evidence_items (inv_budget row)) (inv_evidence_count row)); [done|lia].
    + intros row' l' s2 HA2 Hl He Hx. apply wp_ret. simpl in He. rewrite <-He. by eapply HQ.
Qed.

Lemma wp_requests n final_reason toolset rs used row l Q s :
  At row l s -> inv_budget (is_investigation state) = inv_budget row ->
  used = inv_evidence_count row -> (forall r, r ∈ rs -> tr_tool r ∈ EVIDENCE_TOOL_NAMES) ->
  todo l (map tr_call_id rs) -> is_Some (last_turn l) ->
  (forall row' l' s1, At row' l' s1 -> later row row' -> extends l l' (map tr_call_id rs) -> Q () s1) ->
  wp (process_requests owner lease_seconds state n final_reason toolset used rs) Q s.
Proof.
  revert used row l s. induction rs as [|r rs IH]; intros used row l s HA' Hb Hu Hn Ht [p Hp] HQ;
    cbn [process_requests].
  { apply wp_ret. eapply HQ; [exact HA'|reflexivity|by eapply extends_refl]. }
  apply wp_bind. eapply wp_request; [exact HA'|done|done|by eapply todo_cons|apply Hn; set_solver|].
  intros row' l' s1 HA1 Hl Hx. apply (IH _ row' l'); try done.
  - destruct Hl as [Hset _]. rewrite Hb. symmetry. by apply same_settings.
  - set_solver.
  - by eapply (todo_extends _ _ [_]).
  - destruct (extends_turn _ _ _ Hx) as (_ & q & _ & ?). by exists q.
  - intros row2 l2 s2 HA2 Hl2 Hx2. eapply HQ; [exact HA2|by transitivity row'|].
    by eapply (extends_trans _ _ _ [_]).
Qed.

Lemma wp_conclusion n c row l Q s :
  At row l s -> todo l (match c with Some c => [cc_call_id c] | None => [] end) ->
  is_Some (last_turn l) ->
  (forall row' l' s1, At row' l' s1 -> later row row' ->
     extends l l' (match c with Some c => [cc_call_id c] | None => [] end) -> Q () s1) ->
  wp (process_conclusion criteria owner state n c) Q s.
Proof.
  intros HA' Ht [p Hp] HQ. destruct c as [c|]; cbn [process_conclusion].
  2:{ apply wp_ret. eapply HQ; [exact HA'|reflexivity|by eapply extends_refl]. }
  apply wp_bind. eapply wp_command; [exact EN|exact HA'|]. intros now. rewrite Hstate.
  destruct (held_complete i owner criteria now n (cc_call_id c) (cc_result c) s.2.2 row l) as (o & d' & Hr & Ho).
  { apply HA'. } { by eapply todo_cons. }
  exists o, d'. split; [exact Hr|]. intros s1 HG E. destruct (accepted o).
  - split; [done|]. simpl. by rewrite E.
  - destruct Ho as (row' & st & Hk & Hc & Hrun & HH). apply wp_ret.
    eapply (HQ row' (l ++ [st])); [split; [done|by rewrite E]|by apply same_run_later|].
    pose proof (extends_step l p st Hp) as Hx. rewrite Hc in Hx. apply Hx, is_kind_false. congruence.
Qed.
End Acts.
