(* ===== verification/AgentLoop.v ===== *)
(** * The loop of the engine

    A decision is carried out completely; a pending turn is finished before the model is
    asked again; every turn counts; so the loop ends the investigation within the turns
    its budget has left. *)
From S2P Require Import Prelude PyFloat Json Enums VerificationDomain Catalog.
From S2P Require Import RemediationDomain Uuid InvestigationDomain InvestigationRules Policy Store TxLogic Prog.
From S2P Require Import RemediationLifecycle RemediationService RemediationProofs.
From S2P Require Import IncidentRepository AlertIdentity IncidentService.
From S2P Require Import InvestigationService EvidenceScope AgentModel AgentContext.
From S2P Require Import EvidenceService AgentTools AgentToolset AgentEngine AgentTrace.
From S2P Require Import InvestigationProofs InvestigationInvariant InvestigationKeeps InvestigationSafety.
From S2P Require Import InvestigationProgress AgentHold AgentActs.
Local Open Scope Z_scope.

(** ** Nothing pending *)

(** A turn without calls was told so. *)
Definition noticed (l : list InvestigationStepRow) : Prop :=
  forall t r, last_turn l = Some (t, r) -> actions_of t = Ok [] -> existsb (is_kind S_FEEDBACK) r = true.
Definition resolved (l : list InvestigationStepRow) : Prop := settled l /\ noticed l.
Definition has_context (l : list InvestigationStepRow) : Prop := existsb (is_kind S_CONTEXT) l = true.
(** The last turn is still the last one. *)
Definition same_turn (l l' : list InvestigationStepRow) : Prop :=
  fst <$> last_turn l' = fst <$> last_turn l.

Lemma settled_extends l l' ids : settled l -> extends l l' ids -> settled l'.
Proof.
  intros Hs (t & r & x & E & -> & E' & _) t' r' acts E1 Ha c Hc. rewrite E' in E1. injection E1 as <- <-.
  rewrite answers_of_app. apply elem_of_app. left. by eapply Hs.
Qed.
Lemma noticed_extends l l' ids : noticed l -> extends l l' ids -> noticed l'.
Proof.
  intros Hs (t & r & x & E & -> & E' & _) t' r' E1 Ha. rewrite E' in E1. injection E1 as <- <-.
  by rewrite existsb_app, (Hs _ _ E Ha).
Qed.
Lemma has_context_app l x : has_context l -> has_context (l ++ x).
Proof. unfold has_context. intros H. by rewrite existsb_app, H. Qed.
Lemma turn_context l t r : trace l -> last_turn l = Some (t, r) -> has_context l.
Proof. intros Ht E. destruct (turn_facts_of _ _ _ Ht E) as [acts Hf]. apply Hf. Qed.

(** A step that is no turn and answers nothing. *)
Lemma settled_snoc l s : settled l -> is_kind S_MODEL_TURN s = false -> settled (l ++ [s]).
Proof.
  intros Hs Hk t r acts. rewrite last_turn_snoc, Hk. destruct (last_turn l) as [[t' r']|] eqn:E; [|done].
  simpl. intros [= <- <-] Ha c Hc. rewrite answers_of_app. apply elem_of_app. left. by eapply Hs.
Qed.

Lemma has_actions_iff d : has_actions d = false <-> call_ids d = [].
Proof.
  unfold has_actions, call_ids. destruct (hypothesis_updates d), (tool_requests d), (conclusion d),
    (inconclusive d), (invalid_calls d); simpl; naive_solver.
Qed.

Section Loop.
Context {MS : ModelSchemas} {HA : Hashing} {AW : AgentWorld} {TL : Toolset}.
Context (criteria : StoppingCriteria) (catalog : ServiceCatalog) (definitions : list ToolDefinition).
Context (i : uuid) (owner : string) (lease_seconds : Z) (retry_attempts : nat).
Context (W : exn -> Prop) (G : aw -> Prop) (EN : Environment W G).

Abbreviation At := (At i owner G).
Abbreviation wp := (wp i W G).

(** A notice of the engine. *)
Lemma wp_notice state n text reason row l Q s :
  At row l s -> inv_id (is_investigation state) = i ->
  (forall row' st s1, st_kind st = S_FEEDBACK -> later row row' ->
     inv_evidence_count row' = inv_evidence_count row -> At row' (l ++ [st]) s1 -> Q () s1) ->
  wp (_record owner lease_seconds state S_FEEDBACK n [("text", JStr text); ("reason", reason)] plain) Q s.
Proof.
  intros HA' Hi HQ. eapply wp_record; [exact EN|exact HA'|exact Hi| |done| |].
  - intros st Hst. split; [by eapply readable_notice|]. by destruct Hst as (-> & -> & _).
  - simpl. rewrite Z.add_0_r. by eapply at_budget.
  - intros row' st s1 Hst Hrec HA1. eapply HQ; [by destruct Hst| | |exact HA1].
    + by apply (recorded_later S_FEEDBACK _ _ _ ltac:(done) Hrec).
    + destruct Hrec as (_ & _ & He). simpl in He. lia.
Qed.

(** Every call of the decision is answered, or the investigation ends. *)
Lemma wp_process state decision n final_reason toolset stop row l t r acts Q s :
  At row l s -> inv_id (is_investigation state) = i ->
  inv_budget (is_investigation state) = inv_budget row ->
  inv_evidence_count (is_investigation state) = inv_evidence_count row ->
  decision_ok EVIDENCE_TOOL_NAMES decision ->
  last_turn l = Some (t, r) -> turn_facts l t r acts ->
  call_ids decision ≡ₚ calls (unanswered r acts) ->
  (forall row' l' s1, At row' l' s1 -> later row row' -> resolved l' -> has_context l' ->
     same_turn l l' -> Q () s1) ->
  wp (_process criteria owner lease_seconds state decision n final_reason toolset stop) Q s.
Proof.
  intros HA' Hi Hb He (_ & Hbatch & _ & _ & Hnames) Hl Hf Hids HQ.
  pose proof (tf_actions _ _ _ _ Hf) as Hacts. unfold _process.
  destruct (has_actions decision) eqn:Eact; simpl.
  2:{ apply has_actions_iff in Eact as Hnone. rewrite Hnone in Hids. apply Permutation_nil_l in Hids. symmetry in Hids.
      apply map_eq_nil in Hids. apply (unanswered_nil _ _ _ _ Hf Hl) in Hids.
      eapply wp_notice; [exact HA'|exact Hi|]. intros row' st s1 Hk Hlat _ HA1.
      assert (is_kind S_MODEL_TURN st = false) as Hnt by (apply is_kind_false; congruence).
      eapply HQ; [exact HA1|done| |apply has_context_app; by eapply turn_context; [eapply at_trace|]
        |unfold same_turn; by rewrite last_turn_snoc, Hnt, Hl].
      split; [by apply settled_snoc|]. intros t' r'. rewrite last_turn_snoc, Hnt, Hl. simpl.
      intros [= <- <-] _. rewrite existsb_app. simpl. unfold is_kind at 2.
      rewrite bool_decide_eq_true_2 by done. by rewrite orb_true_r. }
  set (u := map huc_call_id (hypothesis_updates decision)). set (v := map inv_call_id (invalid_calls decision)).
  set (w := map tr_call_id (tool_requests decision)).
  set (c := match conclusion decision with Some c => [cc_call_id c] | None => [] end).
  set (x := match inconclusive decision with Some c => [ic_call_id c] | None => [] end).
  assert (call_ids decision ≡ₚ u ++ v ++ w ++ c ++ x) as Hperm.
  { unfold call_ids. fold u v w c x. solve_Permutation. }
  assert (todo l (u ++ v ++ w ++ c ++ x)) as Htodo.
  { split.
    - rewrite <-Hperm, Hids. unfold calls, unanswered. pose proof (proj1 (tf_calls _ _ _ _ Hf)) as Hn.
      unfold calls in Hn. clear - Hn. induction acts as [|a acts IH]; [constructor|]. simpl in *.
      apply NoDup_cons in Hn as [Ha Hn]. destruct (negb _); [|auto]. simpl. constructor; [|auto].
      intros (b & Eb & [Hin _]%list_elem_of_In%filter_In)%list_elem_of_fmap. apply Ha. rewrite Eb.
      apply list_elem_of_fmap. exists b. by rewrite list_elem_of_In.
    - intros y Hy. rewrite <-Hperm, Hids in Hy. apply (unanswered_calls _ _ _ _ _ Hf) in Hy as [? ?].
      by exists t, r, acts. }
  assert (is_Some (last_turn l)) as Hsome by (by exists (t, r)).
  apply wp_bind. eapply wp_updates; [exact EN|exact Hi|exact HA'|exact Hbatch|by eapply todo_app_l|done|].
  intros row1 l1 s1 HA1 Hl1 He1 Hx1. pose proof (todo_extends _ _ _ _ Htodo Hx1) as Ht1.
  destruct (extends_turn _ _ _ Hx1) as (_ & q1 & _ & Hq1).
  apply wp_bind. eapply wp_invalid; [exact EN|exact Hi|exact HA1|by eapply todo_app_l|by exists q1|].
  intros row2 l2 s2 HA2 Hl2 He2 Hx2. pose proof (todo_extends _ _ _ _ Ht1 Hx2) as Ht2.
  destruct (extends_turn _ _ _ Hx2) as (_ & q2 & _ & Hq2).
  apply wp_bind. eapply wp_requests; [exact EN|exact Hi|exact HA2| | |exact Hnames|by eapply todo_app_l|by exists q2|].
  { rewrite Hb. destruct Hl1 as [S1 _], Hl2 as [S2 _]. symmetry. apply same_settings. congruence. }
  { congruence. }
  intros row3 l3 s3 HA3 Hl3 Hx3. pose proof (todo_extends _ _ _ _ Ht2 Hx3) as Ht3.
  destruct (extends_turn _ _ _ Hx3) as (_ & q3 & _ & Hq3).
  apply wp_bind. eapply wp_conclusion; [exact EN|exact Hi|exact HA3|by eapply todo_app_l|by exists q3|].
  intros row4 l4 s4 HA4 Hl4 Hx4. unfold process_declaration, x in *.
  destruct (inconclusive decision) as [dc|]; [eapply wp_escalate; [exact EN|exact HA4|exact Hi|by left]|].
  apply wp_ret. assert (extends l l4 (u ++ v ++ w ++ c)) as Hx.
  { eapply extends_trans; [exact Hx1|]. eapply extends_trans; [exact Hx2|].
    eapply extends_trans; [exact Hx3|exact Hx4]. }
  assert (later row row4) as Hlat by (transitivity row1; [done|]; transitivity row2; [done|]; by transitivity row3).
  destruct Hx as (t' & r' & y & E1 & -> & E2 & Hy). rewrite Hl in E1. injection E1 as <- <-.
  eapply HQ; [exact HA4|done| |by eapply turn_context; [eapply at_trace|exact E2]
    |unfold same_turn; by rewrite E2, Hl].
  split.
  - intros t' r' acts' E Ha z Hz. rewrite E2 in E. injection E as <- <-. rewrite Hacts in Ha.
    injection Ha as <-. rewrite answers_of_app, Hy. apply elem_of_app.
    destruct (base.decide (z ∈ answers_of r)) as [|Hno]; [by left|right].
    assert (z ∈ calls (unanswered r acts)) as Hz' by (by apply (unanswered_calls _ _ _ _ _ Hf)).
    rewrite <-Hids, Hperm, !app_nil_r in Hz'. done.
  - intros t' r' E Ha. rewrite E2 in E. injection E as <- <-. rewrite Hacts in Ha. injection Ha as ->.
    exfalso. simpl in Hids. apply Permutation_nil_r in Hids. apply has_actions_iff in Hids. congruence.
Qed.

Lemma wp_end_final state n final_reason row l Q s :
  At row l s -> inv_id (is_investigation state) = i -> Q () s ->
  wp (end_final owner state n final_reason) Q s.
Proof.
  intros HA' Hi HQ. unfold end_final. destruct final_reason; [|by apply wp_ret].
  eapply wp_end_run; [exact EN|exact HA'|exact Hi|by left].
Qed.

(** ** Resuming *)

Lemma wp_resolve state toolset row l Q s :
  At row l s -> is_investigation state = row -> is_steps state = l ->
  (resolved l -> Q false s) ->
  (forall row' l' s1, ~ resolved l -> At row' l' s1 -> later row row' -> resolved l' ->
     has_context l' -> same_turn l l' -> Q true s1) ->
  wp (_resolve_pending criteria owner lease_seconds state toolset) Q s.
Proof.
  intros HA' Hrow Hsteps HQf HQt. pose proof (at_trace _ _ _ _ _ _ HA') as Ht.
  pose proof (at_id _ _ _ _ _ _ HA') as Hid. rewrite <-Hrow in Hid.
  assert (numbered l) as Hnum by (destruct HA' as [_ HH]; by eapply held_numbered).
  unfold _resolve_pending. rewrite Hsteps, last_model_turn.
  destruct (last_turn l) as [[t r]|] eqn:El; cbn [fmap option_fmap option_map fst].
  2:{ apply wp_ret, HQf. split; intros t r; congruence. }
  rewrite (steps_after_last _ _ _ Hnum El).
  destruct (turn_facts_of _ _ _ Ht El) as [acts Hf]. pose proof (tf_actions _ _ _ _ Hf) as Ha.
  apply wp_bind. eapply wp_pure; [exact Ha|]. cbv beta.
  assert (forall ids, actions_of t = Ok ids -> ids = acts) as Hsame by (intros ids E; congruence).
  destruct (unanswered r acts) as [|b pending] eqn:Ep; destruct acts as [|a acts]; [| |done|].
  - destruct (existsb (is_kind S_FEEDBACK) r) eqn:Efb.
    + apply wp_ret, HQf. split; [by eapply unanswered_nil|]. intros t' r' E _. congruence.
    + apply wp_bind. eapply wp_process; [exact HA'|exact Hid|by rewrite Hrow|by rewrite Hrow
        |apply no_decision_ok|exact El|exact Hf|done|].
      intros row' l' s1 HA1 Hlat Hres Hc Hsame'. apply wp_ret. eapply HQt; try done.
      intros [_ Hn]. by rewrite (Hn _ _ El Ha) in Efb.
  - rewrite Ep. apply wp_ret, HQf. split; [by eapply unanswered_nil|].
    intros t' r' E Hnil. rewrite El in E. injection E as <- <-. by apply Hsame in Hnil.
  - rewrite Ep. apply wp_bind. destruct (tf_text _ _ _ _ Hf) as [x Hx].
    eapply wp_pure; [by rewrite Hx|]. cbv beta. apply wp_bind.
    destruct (turn_is_accounted_for x (b :: pending) EVIDENCE_TOOL_NAMES) as (d & Hd & Hcalls & Hok).
    eapply wp_pure; [exact Hd|]. cbv beta. apply wp_bind.
    eapply wp_process; [exact HA'|exact Hid|by rewrite Hrow|by rewrite Hrow|exact Hok|exact El|exact Hf
      |by rewrite Ep|].
    intros row' l' s1 HA1 Hlat Hres Hc Hsame'. apply wp_bind.
    eapply wp_end_final; [exact HA1|exact Hid|]. apply wp_ret. eapply HQt; try done.
    intros [Hset _]. apply (unanswered_nil _ _ _ _ Hf El) in Hset. by rewrite Ep in Hset.
Qed.

(** ** A turn *)

Lemma limit_reached_turns state now :
  limit_reached state now = None ->
  inv_iteration_count (is_investigation state) < max_iterations (inv_budget (is_investigation state)).
Proof.
  unfold limit_reached. intros H. repeat (case_match; [done|]).
  by match goal with E : (max_iterations _ <=? _) = false |- _ => apply Z.leb_gt in E end.
Qed.
Lemma limit_reached_outcome state now o rc dt :
  limit_reached state now = Some (o, rc, dt) -> o = I_ESCALATED \/ o = I_FAILED.
Proof. unfold limit_reached. intros H. repeat (case_match; simplify_eq; auto). Qed.

Lemma wp_limits state row l Q s :
  At row l s -> is_investigation state = row ->
  (forall s1, At row l s1 -> inv_iteration_count row < max_iterations (inv_budget row) -> Q () s1) ->
  wp (_enforce_limits owner state) Q s.
Proof.
  intros HA' Hrow HQ. pose proof (at_id _ _ _ _ _ _ HA') as Hid. rewrite <-Hrow in Hid.
  unfold _enforce_limits. apply wp_bind.
  apply wp_mono with (fun _ s1 => At row l s1).
  { destruct (inv_started_at _); [|by apply wp_ret]. by eapply wp_clock. }
  intros now s1 HA1. destruct (limit_reached state now) as [[[o rc] dt]|] eqn:E.
  - eapply wp_end_run; [exact EN|exact HA1|exact Hid|by eapply limit_reached_outcome].
  - apply wp_ret, HQ; [done|]. apply limit_reached_turns in E. by rewrite Hrow in E.
Qed.

(** A turn the model gave. *)
Definition sound_turn (t : ModelTurn) : Prop :=
  (forall a, a ∈ mt_actions t -> exists l, act_arguments a = JObj l) /\ calls_ok (mt_actions t).

Lemma wp_call_model state rq n k left row l Q s :
  At row l s -> inv_id (is_investigation state) = i -> paired None (rq_transcript rq) ->
  settled l -> has_context l -> (1 <= left)%nat ->
  (forall row' l' t s1, At row' l' s1 -> later row row' ->
     inv_evidence_count row' = inv_evidence_count row -> settled l' -> has_context l' ->
     sound_turn t -> Q t s1) ->
  wp (call_model owner lease_seconds state rq n k left) Q s.
Proof.
  revert k row l s. induction left as [|left IH]; intros k row l s HA' Hi Hp Hset Hc Hleft HQ; [lia|].
  cbn [call_model]. apply wp_bind. pose proof HA' as [HG HH].
  destruct (en_decide _ _ EN rq s.1 HG Hp) as [HG' Herr].
  unfold wp, attempt, on_left. destruct (decide rq s.1) as [[t|e] w] eqn:Ed; simpl in *.
  { eapply (HQ row l); [by split|reflexivity|done|done|done|]. split; [by eapply decide_typed|by eapply decide_calls]. }
  assert (At row l (w, s.2)) as HA1 by (by split).
  assert (forall code m b, wp
            (_record owner lease_seconds state S_MODEL_ERROR n (error_payload code m b k) plain ;;
             if negb b || bool_decide (left = 0%nat)
             then end_run owner state n I_FAILED (if b then "model_unavailable" else "model_error")
                    (code +++ " after " +++ str_Z (Z.of_nat k) +++ " attempt(s)")
             else call_model owner lease_seconds state rq n (S k) left) Q (w, s.2)) as Hagain.
  { intros code m b. apply wp_bind. eapply wp_record; [exact EN|exact HA1|exact Hi| |done| |].
    - intros st Hst. split; [by eapply readable_error|]. by destruct Hst as (-> & -> & _).
    - simpl. rewrite Z.add_0_r. by eapply at_budget.
    - intros row' st s1 (Hk & _) Hrec HA2. pose proof (recorded_later S_MODEL_ERROR _ _ _ ltac:(done) Hrec) as Hlat.
      destruct Hrec as (_ & _ & He). simpl in He.
      destruct (negb b || bool_decide (left = 0%nat)) eqn:Eb.
      + eapply wp_end_run; [exact EN|exact HA2|exact Hi|by right].
      + apply orb_false_iff in Eb as [_ Eb%bool_decide_eq_false].
        eapply IH; [exact HA2|exact Hi|exact Hp| |by apply has_context_app|lia|].
        * apply settled_snoc; [done|]. apply is_kind_false. congruence.
        * intros row2 l2 t s2 HA3 Hl2 He2 Hs2 Hc2 Ht2.
          apply (HQ row2 l2); [done|by transitivity row'|lia|done..]. }
  destruct (Herr e eq_refl) as [HW|(c & m & b & ->)]; [|apply Hagain].
  assert (post i W G Q (Err e) (w, s.2)) as Hdead by (by apply (post_dead i owner W G EN Q e row l)).
  destruct e; first [exact Hdead|apply Hagain].
Qed.

Lemma wp_turn state toolset row l Q s :
  At row l s -> is_investigation state = row -> is_steps state = l -> (1 <= retry_attempts)%nat ->
  resolved l -> has_context l ->
  (forall row' l' s1, At row' l' s1 -> settings_of row' = settings_of row ->
     inv_iteration_count row' = inv_iteration_count row + 1 ->
     inv_iteration_count row < max_iterations (inv_budget row) ->
     resolved l' -> has_context l' -> Q () s1) ->
  wp (take_turn criteria definitions owner lease_seconds retry_attempts state toolset) Q s.
Proof.
  intros HA' Hrow Hsteps Hretry [Hset _] Hc HQ. pose proof (at_id _ _ _ _ _ _ HA') as Hid.
  assert (inv_id (is_investigation state) = i) as Hid' by (by rewrite Hrow).
  unfold take_turn. apply wp_bind. eapply wp_limits; [exact HA'|exact Hrow|]. intros s1 HA1 Hlt. cbv zeta.
  apply wp_bind. eapply wp_notice; [exact HA1|exact Hid'|]. intros row1 fb s2 Hfb Hlat1 Hev1 HA2.
  assert (is_kind S_MODEL_TURN fb = false) as Hnt by (apply is_kind_false; congruence).
  pose proof (settled_snoc _ _ Hset Hnt) as Hset1. pose proof (has_context_app _ [fb] Hc) as Hc1.
  apply wp_bind. rewrite Hid'. eapply wp_reload; [exact HA2|]. intros state' Hrow1 Hsteps1.
  assert (inv_id (is_investigation state') = i) as Hid1 by (rewrite Hrow1; by eapply at_id).
  destruct (transcript_paired _ (at_trace _ _ _ _ _ _ HA2) Hset1) as (es & Hes & Hpaired).
  apply wp_bind. eapply wp_pure; [by rewrite Hsteps1|]. cbv beta zeta.
  apply wp_bind. eapply wp_call_model; [exact HA2|exact Hid1|exact Hpaired|exact Hset1|exact Hc1|exact Hretry|].
  intros row2 l2 turn s3 HA3 Hlat2 Hev2 Hset2 Hc2 [Htyped Hcalls].
  assert (later row row2) as Hlat by (by transitivity row1).
  destruct (same_settings (proj1 Hlat)) as [_ Hbud]. pose proof (proj2 Hlat) as Hit. rewrite Hrow.
  apply wp_bind. eapply wp_record; [exact EN|exact HA3|exact Hid1| | | |].
  { intros st Hst. split; [by eapply readable_turn|]. by destruct Hst as (-> & -> & _). }
  { intros _. rewrite Hbud. split; lia. }
  { simpl. rewrite Z.add_0_r. by eapply at_budget. }
  intros row3 st s4 Hst (Hset3 & Hit3 & Hev3) HA4. rewrite bool_decide_eq_true_2 in Hit3 by done.
  simpl in Hev3. destruct (turn_is_accounted_for (mt_text turn) (mt_actions turn) EVIDENCE_TOOL_NAMES)
    as (d & Hd & Hdc & Hdok).
  apply wp_bind. eapply wp_pure; [exact Hd|]. cbv beta.
  assert (last_turn (l2 ++ [st]) = Some (st, [])) as Hlast.
  { rewrite last_turn_snoc. by rewrite (proj2 (is_kind_true S_MODEL_TURN st)) by (by destruct Hst). }
  destruct (turn_facts_of _ _ _ (at_trace _ _ _ _ _ _ HA4) Hlast) as [acts Hf].
  assert (acts = mt_actions turn) as ->.
  { pose proof (tf_actions _ _ _ _ Hf) as Ha. rewrite (turn_actions _ _ _ Hst Htyped) in Ha. congruence. }
  apply wp_bind. eapply wp_process; [exact HA4|exact Hid1| | |exact Hdok|exact Hlast|exact Hf| |].
  { rewrite Hrow1. destruct (same_settings (proj1 Hlat1)) as [_ ->], (same_settings Hset3) as [_ ->]. done. }
  { rewrite Hrow1. lia. }
  { unfold unanswered. rewrite filter_all by done. exact Hdc. }
  intros row4 l4 s5 HA5 Hlat4 Hres Hc4 _. eapply wp_end_final; [exact HA5|exact Hid1|].
  eapply HQ; [exact HA5| | |exact Hlt|done|done].
  - destruct Hlat4 as [-> _]. rewrite Hset3. apply Hlat.
  - destruct Hlat4 as [_ ->]. lia.
Qed.

(** ** The loop *)

(** One round of the loop: a turn more, or a pending turn resolved. *)
Lemma wp_round fuel toolset row l Q s :
  At row l s -> (1 <= retry_attempts)%nat -> has_context l ->
  (forall row' l' s1, At row' l' s1 -> settings_of row' = settings_of row ->
     resolved l' -> has_context l' ->
     (~ resolved l /\ inv_iteration_count row' = inv_iteration_count row)
     \/ (inv_iteration_count row' = inv_iteration_count row + 1
         /\ inv_iteration_count row < max_iterations (inv_budget row)) ->
     wp (engine_loop criteria definitions owner lease_seconds retry_attempts fuel i toolset) Q s1) ->
  wp (engine_loop criteria definitions owner lease_seconds retry_attempts (S fuel) i toolset) Q s.
Proof.
  intros HA' Hretry Hc HQ. cbn [engine_loop]. apply wp_bind. eapply wp_reload; [exact HA'|].
  intros state Hrow Hsteps. assert (is_terminal state = false) as ->.
  { unfold is_terminal. apply bool_decide_eq_false. rewrite Hrow, terminal_open.
    destruct HA' as [_ [_ Hf]]. apply fenced_open in Hf. congruence. }
  apply wp_bind. eapply wp_resolve; [exact HA'|exact Hrow|exact Hsteps| |].
  - intros Hres. apply wp_bind. eapply wp_turn; [exact HA'|exact Hrow|exact Hsteps|done|exact Hres|exact Hc|].
    intros row' l' s1 HA1 Hset Hit Hlt Hres' Hc'. by apply (HQ row' l'); [..|right].
  - intros row' l' s1 Hno HA1 [Hset Hit] Hres' Hc' _. apply wp_bind, wp_ret. by apply (HQ row' l'); [..|left].
Qed.

(** Enough fuel for the turns that are left: the loop does not return, it ends the
    investigation. *)
Lemma wp_loop_resolved fuel toolset row l s :
  At row l s -> (1 <= retry_attempts)%nat -> resolved l -> has_context l ->
  (Z.to_nat (max_iterations (inv_budget row) - inv_iteration_count row) < fuel)%nat ->
  wp (engine_loop criteria definitions owner lease_seconds retry_attempts fuel i toolset)
    (fun _ _ => False) s.
Proof.
  intros HA' Hretry Hres Hc. revert row l s HA' Hres Hc.
  induction fuel as [|fuel IH]; intros row l s HA' Hres Hc Hf; [lia|].
  eapply wp_round; [exact HA'|done|done|]. intros row' l' s1 HA1 Hset Hres' Hc' [[? _]|[Hit Hlt]]; [done|].
  apply (IH row' l'); [done..|]. destruct (same_settings Hset) as [_ ->]. lia.
Qed.

Lemma wp_loop fuel toolset row l s :
  At row l s -> (1 <= retry_attempts)%nat -> has_context l ->
  (Z.to_nat (max_iterations (inv_budget row) - inv_iteration_count row) + 1 < fuel)%nat ->
  wp (engine_loop criteria definitions owner lease_seconds retry_attempts fuel i toolset)
    (fun _ _ => False) s.
Proof.
  intros HA' Hretry Hc Hf. destruct fuel as [|fuel]; [lia|].
  eapply wp_round; [exact HA'|done|done|]. intros row' l' s1 HA1 Hset Hres' Hc' Hit.
  apply (wp_loop_resolved _ _ row' l'); [done..|]. destruct (same_settings Hset) as [_ ->].
  destruct Hit as [[_ ->]|[-> ?]]; lia.
Qed.

(** ** Getting ready *)

Lemma wp_build state row l Q s :
  At row l s -> is_investigation state = row -> (forall s1, At row l s1 -> Q () s1) ->
  wp (build owner state) Q s.
Proof.
  intros HA' Hrow HQ. assert (inv_id (is_investigation state) = i) as Hid by (rewrite Hrow; by eapply at_id).
  assert (exists spec, from_persisted (inv_model_provider row) (inv_model_name row) (inv_model_config row)
            = Ok spec) as [spec Hspec] by (destruct HA' as [_ [[] _]]; done).
  unfold build. apply wp_bind. eapply wp_pure; [by rewrite Hrow|]. cbv beta.
  apply wp_bind. pose proof HA' as [HG HH]. destruct (en_build _ _ EN spec s.1 HG) as [HG' Herr].
  unfold wp at 1, attempt, on_left. destruct (build_model spec s.1) as [[u|e] w] eqn:Eb; simpl in *;
    [apply wp_ret, HQ; by split|].
  assert (At row l (w, s.2)) as HA1 by (by split).
  assert (forall m, wp (end_run owner state (inv_iteration_count (is_investigation state)) I_FAILED
            "model_config_error" (take_str 300 m)) Q (w, s.2)) as Hend
    by (intros m; eapply wp_end_run; [exact EN|exact HA1|exact Hid|by right]).
  destruct (Herr e eq_refl) as [HW|[m ->]]; [|apply Hend].
  pose proof (post_dead i owner W G EN Q e row l (w, s.2) HW HA1) as Hdead.
  destruct e; first [exact Hdead|apply Hend].
Qed.

Lemma wp_context state row l Q s :
  At row l s -> is_investigation state = row -> is_steps state = l ->
  (forall row' l' state' s1, At row' l' s1 -> later row row' -> is_steps state' = l' ->
     has_context l' -> Q state' s1) ->
  wp (ensure_context criteria catalog definitions owner lease_seconds state) Q s.
Proof.
  intros HA' Hrow Hsteps HQ. assert (inv_id (is_investigation state) = i) as Hid by (rewrite Hrow; by eapply at_id).
  unfold ensure_context. rewrite Hsteps. destruct (existsb (is_kind S_CONTEXT) l) eqn:Ec.
  { apply wp_ret. by apply (HQ row l). }
  pose proof (no_context_no_turn _ (at_trace _ _ _ _ _ _ HA') Ec) as Hno.
  apply wp_bind. unfold _record_context. apply wp_bind.
  assert (exists view, get_incident_view (inv_incident_id row) s.2.2 = Some view) as [view Hview].
  { destruct HA' as [_ [[HI Hi _] Hf]]. destruct (open_is_investigating _ _ _ HI Hi (fenced_open _ _ Hf))
      as (inc & Hinc & _). unfold get_incident_view, get_incident_with_alerts. rewrite Hinc. by eexists. }
  unfold wp at 1, reads_db. rewrite Hrow. cbn [fst snd]. rewrite Hview. cbn [post].
  apply wp_bind. unfold wp at 1. cbn [post fst snd].
  apply wp_bind. eapply wp_clock; [exact EN|exact HA'|]. intros now s1 HA1 _.
  eapply wp_record; [exact EN|exact HA1|exact Hid| |done| |].
  - intros st Hst. split; [by eapply readable_context|]. by destruct Hst as (-> & -> & _).
  - simpl. rewrite Z.add_0_r. by eapply at_budget.
  - intros row' st s2 (Hk & _) Hrec HA2. rewrite (at_id _ _ _ _ _ _ HA'). eapply wp_reload; [exact HA2|].
    intros state' _ Hsteps'. eapply (HQ row'); [exact HA2| |exact Hsteps'|].
    + by apply (recorded_later S_CONTEXT _ _ _ ltac:(done) Hrec).
    + unfold has_context. rewrite existsb_app. simpl. rewrite (proj2 (is_kind_true S_CONTEXT st)) by done.
      by rewrite orb_true_r.
Qed.

Lemma wp_prepare state row l Q s :
  At row l s -> is_investigation state = row -> is_steps state = l ->
  (forall row' l' toolset s1, At row' l' s1 -> later row row' -> has_context l' -> Q toolset s1) ->
  wp (prepare criteria catalog definitions owner lease_seconds state) Q s.
Proof.
  intros HA' Hrow Hsteps HQ. unfold prepare. apply wp_bind. eapply wp_build; [exact HA'|exact Hrow|].
  intros s1 HA1. apply wp_bind. eapply wp_context; [exact HA1|exact Hrow|exact Hsteps|].
  intros row' l' state' s2 HA2 Hlat Hst Hc. unfold wp, on_right, on_left.
  destruct (ts_make state' s2.2.1) as [r t] eqn:Em.
  assert (At row' l' (s2.1, (t, s2.2.2))) as HA3 by done. destruct r as [toolset|e]; simpl; [by eapply HQ|].
  refine (post_dead i owner W G EN Q e row' l' _ _ HA3).
  eapply (en_make _ _ EN state' s2.2.1); [rewrite Hst; by eapply at_trace|by rewrite Em].
Qed.
End Loop.
