(* ===== verification/AgentLive.v ===== *)
(** * The tools the platform runs are the tools the engine assumes

    [investigation_toolset] raises none of the engine's own signals, and can be built of
    any trace the engine left: with it, a model and a clock that raise no signal either are
    an [Environment]. *)
From S2P Require Import Prelude PyFloat Json Enums VerificationDomain Catalog.
From S2P Require Import RemediationDomain Uuid InvestigationDomain Store TxLogic Prog.
From S2P Require Import RemediationService IncidentRepository AlertIdentity IncidentService.
From S2P Require Import InvestigationService EvidenceScope EvidenceService.
From S2P Require Import AgentTools AgentModel AgentContext AgentToolset AgentEngine AgentTrace AgentHold.
Local Open Scope Z_scope.

(** Not one of the exceptions the engine raises and catches itself. *)
Definition no_signal (e : exn) : Prop :=
  match e with Stop _ | LeaseLostError _ => False | _ => True end.

(** A program, a transaction, a value that raises no signal. *)
Definition plainly {S A} (m : Prog S A) : Prop := forall s e, (m s).1 = Err e -> no_signal e.
Definition tx_plainly {A} (m : Tx A) : Prop := forall d e, m d = Err e -> no_signal e.
Definition plain_result {A} (r : result A) : Prop := forall e, r = Err e -> no_signal e.

Create HintDb plain.

Lemma plainly_ret {S A} (a : A) : plainly (S := S) (mret a).
Proof. done. Qed.
Lemma plainly_pure {S A} (r : result A) : plain_result r -> plainly (S := S) (pure r).
Proof. intros H s e. apply H. Qed.
Lemma plainly_throw {S A} e : no_signal e -> plainly (S := S) (throw (A := A) e).
Proof. by intros H s x [= <-]. Qed.
Lemma plainly_bind {S A B} (m : Prog S A) (k : A -> Prog S B) :
  plainly m -> (forall a, plainly (k a)) -> plainly (m ≫= k).
Proof.
  intros Hm Hk s e. unfold mbind, Prog_bind. pose proof (Hm s) as H.
  destruct (m s) as [[a|x] s1]; [apply Hk|]. intros [= ->]. by apply H.
Qed.
Lemma plainly_attempt {S A} (m : Prog S A) : plainly (attempt m).
Proof. intros s e. unfold attempt. by destruct (m s). Qed.
Lemma plainly_right {S T A} (m : Prog T A) : plainly m -> plainly (S := S * T) (on_right m).
Proof. intros H s e. unfold on_right. pose proof (H s.2) as Hs. destruct (m s.2). apply Hs. Qed.
Lemma plainly_transact {A} (m : Tx A) : tx_plainly m -> plainly (transact m).
Proof. intros H d e. unfold transact, atomically. destruct (m d) as [[a d']|x] eqn:E; [done|]. intros [= <-]. by eapply H. Qed.

Lemma tx_bind {A B} (m : Tx A) (k : A -> Tx B) :
  tx_plainly m -> (forall a, tx_plainly (k a)) -> tx_plainly (m ≫= k).
Proof.
  intros Hm Hk d e. unfold mbind, Tx_bind. destruct (m d) as [[a d1]|x] eqn:E; [apply Hk|].
  intros [= <-]. by eapply Hm.
Qed.
Lemma tx_ret {A} (a : A) : tx_plainly (mret a).
Proof. done. Qed.
Lemma tx_reads {A} (f : db -> A) : tx_plainly (reads f).
Proof. done. Qed.
Lemma tx_writes f : tx_plainly (writes f).
Proof. done. Qed.
Lemma tx_raise {A} e : no_signal e -> tx_plainly (raise (A := A) e).
Proof. by intros H d x [= <-]. Qed.
Lemma tx_must {A} (o : option A) e : no_signal e -> tx_plainly (must o e).
Proof. intros H. destruct o; [done|by apply tx_raise]. Qed.

Lemma plain_bind {A B} (r : result A) (k : A -> result B) :
  plain_result r -> (forall a, plain_result (k a)) -> plain_result (rbind r k).
Proof. intros Hr Hk e. destruct r as [a|x]; [apply Hk|]. intros [= <-]. by apply Hr. Qed.
Lemma plain_ok {A} (a : A) : plain_result (Ok a).
Proof. done. Qed.
Lemma plain_err {A} e : no_signal e -> plain_result (A := A) (Err e).
Proof. by intros H x [= <-]. Qed.

#[export] Hint Resolve plainly_ret plainly_pure plainly_throw plainly_attempt plainly_right
  plainly_transact tx_ret tx_reads tx_writes tx_raise tx_must plain_ok plain_err : plain.
#[export] Hint Extern 0 (no_signal _) => exact I : plain.

Ltac plain_step :=
  first
    [ progress auto with plain
    | simple apply plainly_bind; [|intros ?]
    | simple apply tx_bind; [|intros ?]
    | simple apply plain_bind; [|intros ?]
    | match goal with
      | |- _ (match ?x with _ => _ end) => destruct x
      | |- _ (let _ := _ in _) => cbv zeta
      end ].
Ltac plain_auto := intros; repeat plain_step.

(** ** The evidence service *)

Lemma window_plain sc start end_ now df ml : plain_result (window sc start end_ now df ml).
Proof. unfold window. plain_auto. Qed.
Lemma service_plain sc service : plain_result (service_or_default sc service).
Proof. unfold service_or_default. plain_auto. Qed.
Lemma limit_plain requested df m : plain_result (bounded_limit requested df m).
Proof. unfold bounded_limit. plain_auto. Qed.
#[export] Hint Resolve window_plain service_plain limit_plain : plain.

Lemma plan_plain catalog sc now q : plain_result (plan catalog sc now q).
Proof.
  destruct q; cbn [plan];
    unfold collect_metric_window, collect_service_health, collect_logs, collect_traces,
      collect_deployments, collect_config_changes, collect_code_changes, collect_recent_commits,
      collect_runtime_state, collect_similar_incidents, _change_window; plain_auto.
Qed.
Lemma checks_plain q : plain_result (precheck q).
Proof. unfold precheck. plain_auto. Qed.
Lemma postcheck_plain sc q o : plain_result (postcheck sc q o).
Proof. unfold postcheck. plain_auto. Qed.
Lemma scope_plain catalog i d : plain_result (resolve_scope catalog i d).
Proof. unfold resolve_scope. plain_auto. Qed.
#[export] Hint Resolve plan_plain checks_plain postcheck_plain : plain.

Lemma uuid4_plain : tx_plainly uuid4.
Proof. done. Qed.
#[export] Hint Resolve uuid4_plain : plain.
Lemma register_ref_plain now c : tx_plainly (register_evidence_ref now c).
Proof. unfold register_evidence_ref, insert_evidence_ref, insert_outbox_event. plain_auto. Qed.
#[export] Hint Resolve register_ref_plain : plain.

Section Live.
Context {HA : Hashing} {AD : Adapters} {TS : ToolSchemas} (catalog : ServiceCatalog).
Context (monotonic_ms : ToolState * db -> Z).
(** The backends raise none of the engine's signals. *)
Context (ask_plain : forall q, plainly (ask q)).

Lemma ev_clock_plain : plainly ev_clock.
Proof. intros s e. unfold ev_clock. by destruct (ad_clock _). Qed.
Lemma ask_adapter_plain q : plainly (ask_adapter q).
Proof.
  intros s e. unfold ask_adapter. pose proof (ask_plain q (ew_adapters s.1, s.2)) as H.
  destruct (ask q _) as [r [a d]]. apply H.
Qed.
Lemma insert_record_plain r : plainly (insert_record r).
Proof. intros s e. unfold insert_record. case_bool_decide; [by intros [= <-]|done]. Qed.
Lemma reading_plain {A} (f : db -> result A) : (forall d, plain_result (f d)) -> plainly (reading f).
Proof. intros H s e. apply H. Qed.
#[local] Hint Resolve ev_clock_plain ask_adapter_plain insert_record_plain reading_plain scope_plain : plain.

Lemma run_plain i who inv q : plainly (_run catalog i who inv q).
Proof. unfold _run, _persist, _register. plain_auto. Qed.

Lemma on_evidence_plain {A} (m : Prog (EvidenceWorld * db) A) : plainly m -> plainly (on_evidence m).
Proof.
  intros H s e. unfold on_evidence. pose proof (H (tl_evidence s.1, s.2)) as Hs.
  destruct (m _) as [r [x d]]. apply Hs.
Qed.

(** An exception that is caught and raised again. *)
Lemma plainly_caught {S A B} (m : Prog S A) (k : result A -> Prog S B) :
  plainly m -> (forall r, plain_result r -> plainly (k r)) -> plainly (attempt m ≫= k).
Proof.
  intros Hm Hk s e. unfold mbind, Prog_bind, attempt. pose proof (Hm s) as H.
  destruct (m s) as [r s1]. by apply Hk.
Qed.

Lemma attempts_plain ctx i n : plainly (attempts catalog ctx i n).
Proof.
  induction n as [|n IH]; [by apply plainly_throw|]. cbn [attempts].
  apply plainly_caught; [apply on_evidence_plain, run_plain|]. intros [item|e] Hr; [apply plainly_ret|].
  pose proof (Hr e eq_refl) as He.
  destruct e; try (by apply plainly_throw). case_match; [done|apply plainly_ret].
Qed.
#[local] Hint Resolve attempts_plain : plain.

Lemma execute_tool_plain ctx b tool arguments : plainly (execute_tool catalog ctx b tool arguments).
Proof.
  unfold execute_tool. destruct (negb _); [apply plainly_ret|].
  apply plainly_bind; [done|]. intros t. cbv zeta.
  destruct (_ <=? _); [apply plainly_ret|]. destruct (_ <=? _); [apply plainly_ret|].
  apply plainly_bind; [done|]. intros _. destruct (validate_input _ _); plain_auto.
Qed.

Lemma listing_plain t arguments : plainly (_incident_evidence t arguments).
Proof.
  unfold _incident_evidence. destruct (validate_listing _); [apply plainly_ret|].
  apply plainly_caught; [by apply on_evidence_plain|]. intros [l|e] Hr; [apply plainly_ret|].
  pose proof (Hr e eq_refl) as He. destruct e; try (by apply plainly_throw). apply plainly_ret.
Qed.

Lemma toolset_execute_plain t tool arguments :
  tool ∈ EVIDENCE_TOOL_NAMES -> plainly (toolset_execute catalog monotonic_ms t tool arguments).
Proof.
  intros _ s e. unfold toolset_execute.
  assert (plainly (_evidence_tool catalog t tool arguments)) as H1.
  { unfold _evidence_tool. apply plainly_bind; [apply plainly_pure; plain_auto|]. intros c.
    apply plainly_bind; [apply execute_tool_plain|]. intros r. apply plainly_ret. }
  pose proof (listing_plain t arguments s) as H2. specialize (H1 s).
  case_bool_decide; [destruct (_incident_evidence _ _ _) as [[o|x] s1]
                    |destruct (_evidence_tool _ _ _ _ _) as [[o|x] s1]]; try done; intros [= <-]; auto.
Qed.

(** The engine's environment, with the tools of the platform. *)
Lemma live_environment {AW : AgentWorld} :
  plainly read_clock ->
  (forall spec, plainly (build_model spec)) -> (forall rq, plainly (decide rq)) ->
  @Environment AW (investigation_toolset catalog monotonic_ms) no_signal (fun _ => True).
Proof.
  intros Hc Hb Hd. split.
  - intros st H. exact H.
  - intros m H. exact H.
  - intros w _. split; [done|]. apply Hc.
  - intros spec w _. split; [done|]. intros e He. left. by apply (Hb spec w).
  - intros rq w _ _. split; [done|]. intros e He. left. by apply (Hd rq w).
  - intros st t e Ht. destruct (trace_prior_calls _ Ht) as [prior Hp].
    unfold ts_make, investigation_toolset, _live_toolset. unfold mbind, Prog_bind, pure.
    rewrite Hp. intros [=].
  - intros o tool arguments s e Hin. by apply toolset_execute_plain.
Qed.
End Live.
