(* ===== verification/AgentClient.v ===== *)
(** * The engine is a client of incident-core

    Whatever the model says and however the run comes out, the database after it is
    reached from the database before it by commands of incident-core and by transactions
    of other services: so everything that holds along such steps holds along a run. *)
From S2P Require Import Prelude PyFloat Json Enums VerificationDomain Catalog.
From S2P Require Import RemediationDomain Uuid InvestigationDomain InvestigationRules Policy Store TxLogic Prog.
From S2P Require Import RemediationLifecycle RemediationService RemediationProofs.
From S2P Require Import IncidentRepository AlertIdentity IncidentService.
From S2P Require Import InvestigationService EvidenceScope AgentModel AgentContext.
From S2P Require Import EvidenceService AgentTools AgentToolset AgentEngine.
From S2P Require Import InvestigationProofs InvestigationInvariant InvestigationKeeps InvestigationSafety.
From S2P Require Import AgentTrace AgentHold.
Local Open Scope Z_scope.

Create HintDb client.

Section Client.
Context {MS : ModelSchemas} {HA : Hashing} {AW : AgentWorld} {TL : Toolset}.
Context (criteria : StoppingCriteria) (catalog : ServiceCatalog) (definitions : list ToolDefinition).
Context (owner : string) (lease_seconds : Z) (retry_attempts : nat).

(** What a run respects when the calls it makes do: the clock, the commands, the tools. *)
Context (R : relation engine_state) {RP : PreOrder R}.
Context (R_clock : respects R clock).
Context (R_command : forall A (m : instant -> Tx A),
  (forall now d, investigation_command criteria d (atomically (m now) d).2) -> respects R (command m)).
Context (R_tool : forall toolset tool arguments, respects R (on_right (ts_execute toolset tool arguments))).

Abbreviation Client m := (respects R m).

Lemma client_ret {A} (a : A) : Client (mret a).
Proof. apply respects_ret. tc_solve. Qed.
Lemma client_pure {A} (r : result A) : Client (pure r).
Proof. apply respects_pure. tc_solve. Qed.
Lemma client_throw {A} e : Client (throw (A := A) e).
Proof. apply respects_throw. tc_solve. Qed.
Lemma client_bind {A B} (m : Prog engine_state A) (k : A -> Prog engine_state B) :
  Client m -> (forall a, Client (k a)) -> Client (m ≫= k).
Proof. apply respects_bind. tc_solve. Qed.
Lemma client_attempt {A} (m : Prog engine_state A) : Client m -> Client (attempt m).
Proof. apply respects_attempt. Qed.
Lemma client_reads {A} (f : db -> result A) : Client (reads_db f).
Proof. intros s. simpl. reflexivity. Qed.
#[local] Hint Resolve client_ret client_pure client_throw client_reads R_clock R_tool : client.

(** What a decision read from a turn is used for. *)
Lemma client_interpreted {A} text acts (k : InvestigationDecision -> Prog engine_state A) :
  (forall d, decision_ok EVIDENCE_TOOL_NAMES d -> Client (k d)) ->
  Client (d ← pure (interpret_turn text acts EVIDENCE_TOOL_NAMES); k d).
Proof.
  intros Hk s. destruct (turn_is_accounted_for text acts EVIDENCE_TOOL_NAMES) as (d & -> & _ & Hd).
  by apply (Hk d Hd).
Qed.

Ltac client_step :=
  first
    [ progress auto with client
    | simple apply client_attempt
    | simple apply client_interpreted; intros ? ?
    | simple apply client_bind; [|intros ?]
    | match goal with
      | |- respects _ (match ?x with _ => _ end) => destruct x
      | |- respects _ (let _ := _ in _) => cbv zeta
      end ].
Ltac client_auto := intros; repeat client_step.

Lemma client_record state k n p o : Client (_record owner lease_seconds state k n p o).
Proof. unfold _record. client_auto. apply R_command. intros. apply ic_record. Qed.
Lemma client_escalate {A} state n o rc dt ir eg c : Client (_escalate (A := A) owner state n o rc dt ir eg c).
Proof. unfold _escalate. client_auto. apply R_command. intros. apply ic_escalate. Qed.
Lemma client_end_run {A} state n o rc dt : Client (end_run (A := A) owner state n o rc dt).
Proof. apply client_escalate. Qed.
Lemma client_reload i : Client (reload i).
Proof. apply client_reads. Qed.
#[local] Hint Resolve client_record client_escalate client_end_run client_reload : client.

Lemma client_limits state : Client (_enforce_limits owner state).
Proof. unfold _enforce_limits. client_auto. Qed.
Lemma client_updates state n us :
  (forall u, u ∈ us -> batch_ok (batch u) = true) -> Client (process_updates owner state n us).
Proof.
  induction us as [|u us IH]; intros Hb; cbn [process_updates]; [apply client_ret|].
  apply client_bind; [|intros _; apply IH; set_solver]. apply R_command. intros.
  apply ic_apply. apply Hb. left.
Qed.
Lemma client_invalid state n cs : Client (process_invalid owner lease_seconds state n cs).
Proof. induction cs; cbn [process_invalid]; client_auto. Qed.
Lemma client_requests state n fr toolset rs used :
  Client (process_requests owner lease_seconds state n fr toolset used rs).
Proof.
  revert used. induction rs as [|r rs IH]; intros used; cbn [process_requests]; [apply client_ret|].
  apply client_bind; [|auto]. unfold process_request. client_auto.
Qed.
Lemma client_conclusion state n c : Client (process_conclusion criteria owner state n c).
Proof. unfold process_conclusion. client_auto. apply R_command. intros. apply ic_complete. Qed.
Lemma client_declaration state n c : Client (process_declaration owner state n c).
Proof. unfold process_declaration. client_auto. Qed.
#[local] Hint Resolve client_limits client_invalid client_requests client_conclusion
  client_declaration : client.

Lemma client_process state d n fr toolset stop :
  decision_ok EVIDENCE_TOOL_NAMES d ->
  Client (_process criteria owner lease_seconds state d n fr toolset stop).
Proof. intros (_ & Hb & _). unfold _process. client_auto. by apply client_updates. Qed.
Lemma client_end_final state n fr : Client (end_final owner state n fr).
Proof. unfold end_final. client_auto. Qed.
#[local] Hint Resolve client_end_final : client.

Lemma client_resolve state toolset : Client (_resolve_pending criteria owner lease_seconds state toolset).
Proof.
  unfold _resolve_pending. client_auto; apply client_process; [apply no_decision_ok|done].
Qed.
#[local] Hint Resolve client_resolve : client.

(** A whole run also asks the model, builds it and its tools, and claims. *)
Context (R_left : forall A (m : Prog aw A), respects R (on_left m)).
Context (R_make : forall A (m : Prog ts_state A), respects R (on_right (on_left m))).
Context (R_claim : forall now i, respects R (on_right (on_right (claim now i owner lease_seconds)))).
#[local] Hint Resolve R_left R_make R_claim : client.

Lemma client_call_model state rq n k left : Client (call_model owner lease_seconds state rq n k left).
Proof. revert k. induction left as [|left IH]; intros k; cbn [call_model]; client_auto. Qed.
#[local] Hint Resolve client_call_model : client.
Lemma client_turn state toolset :
  Client (take_turn criteria definitions owner lease_seconds retry_attempts state toolset).
Proof. unfold take_turn. client_auto. by apply client_process. Qed.
#[local] Hint Resolve client_turn : client.

Lemma client_loop fuel i toolset :
  Client (engine_loop criteria definitions owner lease_seconds retry_attempts fuel i toolset).
Proof. induction fuel as [|fuel IH]; cbn [engine_loop]; client_auto. Qed.
Lemma client_prepare state :
  Client (prepare criteria catalog definitions owner lease_seconds state).
Proof. unfold prepare, build, ensure_context, _record_context. client_auto. Qed.
#[local] Hint Resolve client_loop client_prepare : client.

Lemma client_run fuel i :
  Client (run_engine criteria catalog definitions owner lease_seconds retry_attempts fuel i).
Proof. unfold run_engine, run_state. client_auto. Qed.
End Client.

Section Steps.
Context {MS : ModelSchemas} {HA : Hashing} {AW : AgentWorld} {TL : Toolset}.
Context (criteria : StoppingCriteria).

(** The database moves along the steps of the investigations. *)
Definition stepwise (s s' : engine_state) : Prop := rtc (investigation_step criteria) s.2.2 s'.2.2.
#[export] Instance stepwise_preorder : PreOrder stepwise.
Proof. split; [intros s; apply rtc_refl|intros s1 s2 s3; unfold stepwise; by etransitivity]. Qed.

Lemma stepwise_left {A} (m : Prog aw A) : respects stepwise (on_left m).
Proof. intros s. unfold on_left. destruct (m s.1). apply rtc_refl. Qed.
Lemma stepwise_command {A} (m : instant -> Tx A) :
  (forall now d, investigation_command criteria d (atomically (m now) d).2) ->
  respects stepwise (command m).
Proof.
  intros Hm. unfold command. apply respects_bind; [tc_solve|apply stepwise_left|]. intros now s.
  unfold on_right, transact, stepwise. pose proof (Hm now s.2.2) as H. destruct (atomically (m now) s.2.2).
  apply rtc_once. by apply is_command.
Qed.

(** The engine is a client of incident-core.  However a run comes out, the database
    it leaves is reached from the one it found by commands of the investigation service
    and by registrations of evidence. *)
Theorem run_is_a_client catalog definitions owner lease_seconds retry_attempts fuel i s :
  rtc (investigation_step criteria) s.2.2
    (run_engine criteria catalog definitions owner lease_seconds retry_attempts fuel i s).2.2.2.
Proof.
  apply (client_run criteria catalog definitions owner lease_seconds retry_attempts stepwise).
  - apply stepwise_left.
  - apply @stepwise_command.
  - intros toolset tool arguments s0. unfold on_right, stepwise.
    pose proof (ts_registers toolset tool arguments s0.2) as H. destruct (ts_execute _ _ _ _).
    apply rtc_once, is_other. by apply registers_onlooker.
  - apply @stepwise_left.
  - intros A m s0. unfold on_right, on_left. destruct (m s0.2.1). apply rtc_refl.
  - intros now j s0. unfold on_right, stepwise.
    pose proof (ic_claim criteria s0.2.2 now j owner lease_seconds) as H.
    destruct (claim now j owner lease_seconds s0.2.2). apply rtc_once. by apply is_command.
Qed.
End Steps.
