(* ===== verification/AgentSafety.v ===== *)
(** * What a run of the engine guarantees

    Every run of [run_engine] ends the investigation, finds it taken, or dies of an
    exception of its environment with the investigation ready to be resumed; the model is
    only ever shown well-paired transcripts; the budget bounds what a run does; and all
    it does to the database are commands of incident-core and registrations of evidence. *)
From S2P Require Import Prelude PyFloat Json Enums VerificationDomain Catalog.
From S2P Require Import RemediationDomain Uuid InvestigationDomain InvestigationRules Policy Store TxLogic Prog.
From S2P Require Import RemediationLifecycle RemediationService RemediationProofs.
From S2P Require Import IncidentRepository AlertIdentity IncidentService.
From S2P Require Import InvestigationService EvidenceScope AgentModel AgentContext.
From S2P Require Import EvidenceService AgentTools AgentToolset AgentEngine AgentTrace.
From S2P Require Import InvestigationProofs InvestigationInvariant InvestigationKeeps InvestigationSafety.
From S2P Require Import InvestigationProgress AgentHold AgentActs AgentLoop AgentClient.
Local Open Scope Z_scope.

Section Safety.
Context {MS : ModelSchemas} {HA : Hashing} {TL : Toolset}.
Context (criteria : StoppingCriteria) (catalog : ServiceCatalog) (definitions : list ToolDefinition).
Context (i : uuid) (owner : string) (lease_seconds : Z) (retry_attempts : nat).

Section OneWorld.
Context {AW : AgentWorld} (W : exn -> Prop) (G : aw -> Prop).

(** How a run may come out. *)
Definition run_outcome (row : InvestigationRow) (s : engine_state) (r : result RunOutcome)
    (s' : engine_state) : Prop :=
  match r with
  | Ok (Finished st) => Ended i st s'.2.2
  | Ok NotRun => s'.2 = s.2 /\ exists now, held_by_another now owner row = true
  | Ok OutOfFuel => False
  | Err e => W e /\ exists row' l', Fit i s'.2.2 row' l'
  end.

(** Turns enough for the budget that is left, and the round that notices it is spent. *)
Definition enough_fuel (row : InvestigationRow) (fuel : nat) : Prop :=
  (Z.to_nat (max_iterations (inv_budget row) - inv_iteration_count row) + 1 < fuel)%nat.

Abbreviation engine fuel :=
  (run_engine criteria catalog definitions owner lease_seconds retry_attempts fuel i).

(** The run of a claimed investigation. *)
Lemma run_state_spec fuel state s row l r s' :
  Environment W G -> At i owner G row l s -> is_investigation state = row -> is_steps state = l ->
  (1 <= retry_attempts)%nat -> enough_fuel row fuel ->
  run_state criteria catalog definitions owner lease_seconds retry_attempts fuel state s = (r, s') ->
  G s'.1 /\ exists e, r = Err e
    /\ ((exists st, e = Stop st /\ Ended i st s'.2.2) \/ (W e /\ exists row l, Fit i s'.2.2 row l)).
Proof.
  intros EN HA' Hrow Hsteps Hretry Hfuel E.
  assert (wp i W G (run_state criteria catalog definitions owner lease_seconds retry_attempts fuel state)
            (fun _ _ => False) s) as Hwp.
  { unfold run_state. apply wp_bind. eapply wp_prepare; [exact EN|exact HA'|exact Hrow|exact Hsteps|].
    intros row' l' toolset s2 HA2 [Hset Hit] Hc.
    assert (inv_id (is_investigation state) = i) as -> by (rewrite Hrow; by eapply at_id).
    eapply wp_loop; [exact EN|exact HA2|done|exact Hc|]. destruct (same_settings Hset) as [_ ->].
    rewrite Hit. exact Hfuel. }
  unfold wp in Hwp. rewrite E in Hwp. destruct r as [x|e]; [done|]. simpl in Hwp.
  destruct e; destruct Hwp as [HG Hrest]; (split; [done|]); eexists; (split; [done|]); eauto.
Qed.

Lemma run_spec fuel s row l r s' :
  Environment W G -> G s.1 -> Fit i s.2.2 row l -> is_open_investigation row = true ->
  (1 <= retry_attempts)%nat -> enough_fuel row fuel -> engine fuel s = (r, s') ->
  G s'.1 /\ run_outcome row s r s'.
Proof.
  intros EN HG HF Ho Hretry Hfuel E. unfold run_engine in E.
  apply prog_bind_cases in E as [(e & Ec & ->)|(now & s1 & Ec & E)];
    unfold clock, on_left in Ec; destruct (en_clock _ _ EN s.1 HG) as [HG' Herr];
    destruct (read_clock s.1) as [[t|x] w]; try discriminate Ec; injection Ec as <- <-;
    simpl in HG', Herr.
  { split; [done|]. split; [by apply Herr|]. by exists row, l. }
  apply prog_bind_cases in E as [(e & Ec & ->)|(claimed & s2 & Ec & E)];
    unfold on_right, claim, atomically in Ec; simpl in Ec;
    destruct (fit_claim i owner t lease_seconds s.2.2 row l HF Ho) as [Hr|(d' & Hr & HH)]; rewrite Hr in Ec.
  - done.
  - destruct (held_load i owner d' _ _ HH) as (state & Hload & _). by rewrite Hload in Ec.
  - injection Ec as <- <-. apply prog_ret_run in E as [-> ->]. split; [done|]. split; [by destruct s as [? []]|].
    exists t. apply take_lease_run in Hr as (row0 & Hi & Hb & _).
    assert (row0 = row) as -> by (destruct HF; congruence).
    symmetry in Hb. rewrite bool_decide_eq_false_2 in Hb by (rewrite terminal_open; congruence).
    by apply negb_false_iff in Hb.
  - destruct (held_load i owner d' _ _ HH) as (state & Hload & Hrow & Hsteps). rewrite Hload in Ec.
    injection Ec as <- <-. unfold mbind, Prog_bind, attempt in E.
    destruct (run_state _ _ _ _ _ _ _ _ _) as [r1 s3] eqn:Es.
    destruct (run_state_spec fuel state (w, (s.2.1, d')) _ _ _ _ EN (conj HG' HH) Hrow Hsteps Hretry Hfuel Es)
      as (HG3 & e & -> & [(st & -> & He)|(HW & HF3)]); [by injection E as <- <-|].
    destruct e; try (exfalso; by eapply (en_lease _ _ EN)); try (exfalso; by eapply (en_stop _ _ EN));
      injection E as <- <-; by split.
Qed.
End OneWorld.

(** ** What a run promises *)

(** C12: every run comes to an end the platform can go on from.  Whatever the model answers
    and the tools bring, a run either ends the investigation with a terminal status, or
    finds that another worker holds the lease and changes nothing, or dies of an exception
    of its environment and leaves the investigation ready to be resumed.  The turns left
    in the budget bound its loop, and in every case the turns taken and the evidence
    collected stay within the budget the investigation was requested with. *)
Theorem run_ends_the_investigation {AW : AgentWorld} (W : exn -> Prop) fuel s row l r s' :
  Environment W (fun _ => True) -> Fit i s.2.2 row l -> is_open_investigation row = true ->
  (1 <= retry_attempts)%nat -> enough_fuel row fuel ->
  run_engine criteria catalog definitions owner lease_seconds retry_attempts fuel i s = (r, s') ->
  run_outcome W row s r s'.
Proof. intros EN HF Ho Hretry Hfuel E. by eapply run_spec. Qed.

End Safety.

(** ** What is sent to the model *)

Section Sent.
Context {MS : ModelSchemas} {HA : Hashing} {TL : Toolset}.
Context (criteria : StoppingCriteria) (catalog : ServiceCatalog) (definitions : list ToolDefinition).
Context (i : uuid) (owner : string) (lease_seconds : Z) (retry_attempts : nat).
Variable world : AgentWorld.

Definition logged_decide (rq : DecisionRequest) : Prog (list DecisionRequest * @aw world) ModelTurn :=
  fun w => let '(r, w') := @decide world rq w.2 in (r, (w.1 ++ [rq], w')).
Lemma logged_decide_run rq w t w' :
  logged_decide rq w = (Ok t, w') -> exists v, @decide world rq w.2 = (Ok t, v).
Proof. unfold logged_decide. destruct (@decide world rq w.2) as [r v]. intros [= -> _]. by exists v. Qed.
Lemma logged_typed rq w t w' :
  logged_decide rq w = (Ok t, w') -> forall a, a ∈ mt_actions t -> exists l, act_arguments a = JObj l.
Proof. intros [v H]%logged_decide_run. by eapply decide_typed. Qed.
Lemma logged_calls rq w t w' :
  logged_decide rq w = (Ok t, w') ->
  NoDup (map act_call_id (mt_actions t)) /\ "" ∉ map act_call_id (mt_actions t).
Proof. intros [v H]%logged_decide_run. by eapply decide_calls. Qed.

(** The same clock and the same model, with every request kept. *)
#[local] Instance logged : AgentWorld := {|
  aw := list DecisionRequest * @aw world;
  read_clock := on_right (@read_clock world);
  build_model spec := on_right (@build_model world spec);
  decide := logged_decide;
  decide_typed := logged_typed;
  decide_calls := logged_calls;
|}.

Definition well_paired (rq : DecisionRequest) : Prop := paired None (rq_transcript rq).
Definition log_paired (w : @aw logged) : Prop := Forall well_paired w.1.

Lemma logged_environment W :
  @Environment world TL W (fun _ => True) -> Environment W log_paired.
Proof.
  intros [E1 E2 E3 E4 E5 E6 E7]. split; try done.
  - intros [log w] HG. destruct (E3 w I) as [_ He]. simpl. unfold on_right. simpl.
    by destruct (@read_clock world w).
  - intros spec [log w] HG. destruct (E4 spec w I) as [_ He]. simpl. unfold on_right. simpl.
    by destruct (@build_model world spec w).
  - intros rq [log w] HG Hp. destruct (E5 rq w I Hp) as [_ He]. simpl. unfold logged_decide. simpl.
    destruct (@decide world rq w) as [r v]. split; [|done]. apply Forall_app. split; [done|].
    by constructor.
Qed.

(** C14: a model never sees a dangling tool call.  In every request of a run, however
    often the run was interrupted and resumed before, each turn of the model with calls
    is followed at once by exactly one result for each of them, results occur nowhere
    else, and no call is left without one. *)
Theorem model_sees_paired_transcripts W fuel s row l r s' :
  @Environment world TL W (fun _ => True) -> s.1.1 = [] ->
  Fit i s.2.2 row l -> is_open_investigation row = true ->
  (1 <= retry_attempts)%nat -> enough_fuel row fuel ->
  run_engine criteria catalog definitions owner lease_seconds retry_attempts fuel i s = (r, s') ->
  forall rq, rq ∈ s'.1.1 -> paired None (rq_transcript rq).
Proof.
  intros EN Hlog HF Ho Hretry Hfuel E.
  assert (log_paired s.1) as HG by (unfold log_paired; by rewrite Hlog).
  destruct (run_spec criteria catalog definitions i owner lease_seconds retry_attempts W log_paired
    fuel s row l r s' (logged_environment W EN) HG HF Ho Hretry Hfuel E) as [HG' _].
  by apply Forall_forall.
Qed.

(** Nothing was asked. *)
Definition same_log (s s' : engine_state) : Prop := s'.1.1 = s.1.1.
#[local] Instance same_log_preorder : PreOrder same_log.
Proof. split; [done|]. intros s1 s2 s3. unfold same_log. congruence. Qed.

Lemma same_log_clock : respects same_log clock.
Proof. intros s. unfold clock, on_left, same_log. simpl. unfold on_right. by destruct (@read_clock world _). Qed.
Lemma same_log_right {A} (m : Prog (ts_state * db) A) : respects same_log (on_right m).
Proof. intros s. unfold on_right, same_log. by destruct (m _). Qed.

Lemma resolve_asks_nothing state toolset s :
  (_resolve_pending criteria owner lease_seconds state toolset s).2.1.1 = s.1.1.
Proof.
  refine (client_resolve criteria owner lease_seconds same_log same_log_clock _ _ state toolset s).
  - intros A m _. apply respects_bind; [tc_solve|apply same_log_clock|]. intros now. apply same_log_right.
  - intros o tool arguments. apply same_log_right.
Qed.

(** C28: an interrupted turn is finished, not repeated.  When a worker takes up a trace
    whose last turn still has calls without a result, it answers exactly those calls, so
    that each call of the turn has one result, and asks the model nothing. *)
Theorem pending_turn_is_finished W state toolset (s : engine_state) row l t r acts res s' :
  @Environment world TL W (fun _ => True) -> s.1.1 = [] ->
  Held i owner s.2.2 row l -> load_state i s.2.2 = Ok state ->
  last_turn l = Some (t, r) -> actions_of t = Ok acts -> unanswered r acts <> [] ->
  _resolve_pending criteria owner lease_seconds state toolset s = (res, s') ->
  s'.1.1 = []
  /\ match res with
     | Ok b => b = true /\ exists row' l' r', Held i owner s'.2.2 row' l'
                 /\ last_turn l' = Some (t, r') /\ answers_of r' ≡ₚ map act_call_id acts
     | Err (Stop st) => Ended i st s'.2.2
     | Err e => W e /\ exists row' l', Fit i s'.2.2 row' l'
     end.
Proof.
  intros EN Hlog HH Hload Hlast Hacts Hpend E. split.
  { pose proof (resolve_asks_nothing state toolset s) as Hn. rewrite E in Hn. by rewrite Hlog in Hn. }
  assert (At i owner log_paired row l s) as HA'
    by (split; [unfold log_paired; by rewrite (Hlog : s.1.1 = [])|done]).
  destruct (held_load _ _ _ _ _ HH) as (st & Hst & Hrow & Hsteps).
  rewrite Hload in Hst. injection Hst as <-.
  assert (wp i W log_paired (_resolve_pending criteria owner lease_seconds state toolset)
    (fun b s1 => b = true /\ exists row' l' r', Held i owner s1.2.2 row' l'
       /\ last_turn l' = Some (t, r') /\ answers_of r' ≡ₚ map act_call_id acts) s) as Hwp.
  { eapply wp_resolve; [by apply logged_environment|exact HA'|exact Hrow|exact Hsteps| |].
    - intros [Hset _]. destruct (turn_facts_of _ _ _ (at_trace _ _ _ _ _ _ HA') Hlast) as [acts' Hf].
      pose proof (tf_actions _ _ _ _ Hf) as Ha. rewrite Hacts in Ha. injection Ha as <-.
      by apply (unanswered_nil _ _ _ _ Hf Hlast) in Hset.
    - intros row' l' s1 _ HA1 _ [Hset _] _ Hsame. split; [done|]. unfold same_turn in Hsame.
      rewrite Hlast in Hsame. destruct (last_turn l') as [[t' r']|] eqn:El; [|done].
      injection Hsame as ->. exists row', l', r'. split; [apply HA1|]. split; [done|].
      by eapply settled_answers; [eapply at_trace|..]. }
  unfold wp in Hwp. rewrite E in Hwp. destruct res as [b|e]; [exact Hwp|].
  destruct e; simpl in Hwp; tauto.
Qed.
End Sent.
