(* ===== verification/InvestigationExample.v ===== *)
(** * A worked investigation

    An alert has opened an incident and two pieces of evidence are registered for it;
    an investigation is requested, claimed and run to a conclusion, once with a
    proposal that is refused first, and once it is abandoned and taken over.  The runs
    discharge the hypotheses of the theorems on the investigation commands. *)
From S2P Require Import Prelude PyFloat Json Enums VerificationDomain Catalog.
From S2P Require Import RemediationDomain Uuid InvestigationDomain InvestigationRules Policy.
From S2P Require Import Store TxLogic RemediationLifecycle RemediationService RemediationProofs.
From S2P Require Import RemediationExample IncidentRepository AlertIdentity IncidentService.
From S2P Require Import InvestigationService InvestigationProofs InvestigationInvariant.
From S2P Require Import InvestigationKeeps InvestigationSafety InvestigationProgress.
From S2P Require Import IncidentExample.
Local Open Scope Z_scope.

Definition ex_reference (id : uuid) (type : string) : RegisterEvidenceRefCommand :=
  {| re_evidence_id := id; re_incident_id := 2; re_investigation_id := None;
     re_evidence_type := type; re_content_hash := "h"; re_source_system := type;
     re_collected_at := 1400 |}.
Definition ex_gathered : db :=
  run (register_evidence_ref 1500 (ex_reference 52 "logs"))
    (run (register_evidence_ref 1500 (ex_reference 51 "metrics")) ex_fired).

Lemma ex_gathered_onlooker : onlooker empty_db ex_gathered.
Proof.
  assert (incidents ex_gathered = {[2%N := ex_incident_row ex_gathered]}) as Hi by (vm_compute; reflexivity).
  unfold onlooker. rewrite Hi. do 5 (split; [vm_compute; reflexivity|]).
  split; [done|]. split; [vm_compute; discriminate|]. split; [done|].
  intros i r [<- <-]%lookup_singleton_Some _. split_and!; vm_compute; try reflexivity; discriminate.
Qed.

(** ** Up to a conclusion *)

Definition ex_requested : db :=
  run (request_investigation 2000 2 "anthropic" "model" (JObj []) default_budget) ex_gathered.
Definition ex_iid : uuid := 7.

Definition ex_owner : string := "worker-1".
Definition ex_owned : db := (claim 2100 ex_iid ex_owner 120 ex_requested).2.
Definition ex_payload : list (string * json) :=
  [("tool", JStr "query_metrics"); ("evidence_ids", str_uuids [51%N; 52%N; 99%N])].
Definition ex_record : Tx Z :=
  record_step 2200 ex_iid ex_owner S_TOOL_CALL 1 ex_payload (Some "c1") (Some 12) None true 3
    (Some "query_metrics") 120.
Definition ex_seen : db := run ex_record ex_owned.

Definition ex_update (key : string) (status : HypothesisStatus) (pro con : list uuid) : HypothesisUpdate :=
  {| hu_key := key; hu_description := Some "it broke"; hu_cause_category := Some "deployment";
     hu_component := Some "checkout"; hu_status := Some status; hu_confidence := Some (flit 8 1);
     hu_supporting_evidence_ids := pro; hu_contradicting_evidence_ids := con;
     hu_missing_evidence := None; hu_rationale := "because" |}.
Definition ex_batch : HypothesisUpdateBatch :=
  {| updates := [ex_update "H1" H_SUPPORTED [51%N; 52%N] []; ex_update "H2" H_REJECTED [] [51%N]] |}.
Definition ex_weighed : db := run (apply_hypothesis_updates 2300 ex_iid ex_owner 2 "c2" ex_batch) ex_seen.

Definition ex_statement (cites : list uuid) : GroundedStatement :=
  {| gs_text := "the deploy broke checkout"; gs_evidence_ids := cites |}.
Definition ex_result (confidence : float) : FinalInvestigationResult :=
  {| selected_hypothesis_key := "H1"; fr_confidence := confidence;
     rca := {| incident_summary := ex_statement [51%N]; impact := ex_statement [52%N];
               affected_services := [{| as_service := "checkout"; as_evidence_ids := [51%N] |}];
               rca_timeline := [{| te_at := 1000; te_offset := 0; te_event := "deploy"; te_evidence_ids := [52%N] |}];
               root_cause := ex_statement [51%N; 52%N]; contributing_factors := [];
               contradicting_evidence := []; unresolved_questions := [];
               recommended_next_diagnostic_action := None |} |}.
Definition ex_complete (confidence : float) : Tx ConclusionOutcome :=
  complete default_criteria 2400 ex_iid ex_owner 3 "c3" (ex_result confidence).
Definition ex_concluded : db := run (ex_complete (flit 9 1)) ex_weighed.

Definition ex_inv (d : db) : InvestigationRow :=
  default (new_investigation 0 0 0 0 "" "" JNull default_budget) (investigations d !! ex_iid).

Example ex_course :
  (map (fun d => (inv_status (ex_inv d), i_status (ex_incident_row d), Z.of_nat (length (investigation_steps d))))
     [ex_requested; ex_owned; ex_seen; ex_weighed; ex_concluded])
  = [(I_CREATED, INVESTIGATING, 0); (I_INVESTIGATING, INVESTIGATING, 0);
     (I_INVESTIGATING, INVESTIGATING, 1); (I_INVESTIGATING, INVESTIGATING, 2);
     (I_COMPLETED, RCA_READY, 3)].
Proof. vm_compute. reflexivity. Qed.

Abbreviation steps := (rtc (investigation_step default_criteria)).
Abbreviation reached := (investigated default_criteria).

Lemma ex_gathered_reached : reached ex_gathered.
Proof. apply rtc_once, is_other, ex_gathered_onlooker. Qed.
Lemma ex_requested_reached : reached ex_requested.
Proof. eapply rtc_r; [apply ex_gathered_reached|]. apply is_command, ic_request. Qed.
Lemma ex_owned_reached : reached ex_owned.
Proof. eapply rtc_r; [apply ex_requested_reached|]. apply is_command, ic_claim. Qed.
Lemma ex_seen_reached : reached ex_seen.
Proof. eapply rtc_r; [apply ex_owned_reached|]. apply is_command, ic_record. Qed.
Lemma ex_weighed_step : steps ex_seen ex_weighed.
Proof. apply rtc_once, is_command, ic_apply. vm_compute. reflexivity. Qed.
Lemma ex_weighed_reached : reached ex_weighed.
Proof. unfold investigated. etransitivity; [apply ex_seen_reached|apply ex_weighed_step]. Qed.
Lemma ex_concluded_step : steps ex_weighed ex_concluded.
Proof. apply rtc_once, is_command, ic_complete. Qed.

(** ** The theorems at the run *)

Lemma ex_row_is d :
  bool_decide (is_Some (investigations d !! ex_iid)) = true -> investigations d !! ex_iid = Some (ex_inv d).
Proof. intros [r Hr]%bool_decide_eq_true. unfold ex_inv. by rewrite Hr. Qed.

Lemma investigating_iff_open_witness : i_status (ex_incident_row ex_requested) = INVESTIGATING.
Proof.
  apply (investigating_iff_open default_criteria ex_requested 2 (ex_incident_row ex_requested)
           ex_requested_reached); [vm_compute; reflexivity|].
  exists ex_iid, (ex_inv ex_requested). split; [|split]; vm_compute; reflexivity.
Defined.

Definition ex_hypothesis (key : string) (d : db) : option HypothesisRow :=
  List.find (fun h => bool_decide (h_key h = key)) (rows (hypotheses d)).
Definition ex_hid (key : string) (d : db) : uuid := default 0%N (h_id <$> ex_hypothesis key d).

Lemma citations_are_grounded_witness :
  exists h, hypotheses ex_weighed !! ex_hid "H2" ex_weighed = Some h /\ h_key h = "H2".
Proof.
  destruct (citations_are_grounded default_criteria ex_weighed (ex_hid "H2" ex_weighed, 51%N)
              {| lk_hypothesis_id := ex_hid "H2" ex_weighed; lk_evidence_id := 51;
                 lk_relation := contradicts; lk_linked_at := 2300 |} ex_weighed_reached)
    as (h & _ & _ & _ & _ & Hh & _); [vm_compute; reflexivity|].
  exists h. split; [exact Hh|].
  assert (h_key <$> hypotheses ex_weighed !! ex_hid "H2" ex_weighed = Some "H2") as E
    by (vm_compute; reflexivity).
  cbn [lk_hypothesis_id] in Hh. rewrite Hh in E. injection E as E. exact E.
Defined.

Lemma findings_are_final_witness :
  exists h, ex_hypothesis "H2" ex_weighed = Some h
    /\ hypotheses ex_concluded !! ex_hid "H2" ex_weighed = Some h.
Proof.
  destruct (ex_hypothesis "H2" ex_weighed) as [h|] eqn:E; [|vm_compute in E; discriminate].
  exists h. split; [reflexivity|].
  destruct (findings_are_final default_criteria ex_weighed ex_concluded ex_weighed_reached
              ex_concluded_step) as (H & _).
  apply H.
  - rewrite <-E. vm_compute. reflexivity.
  - assert (h_status <$> ex_hypothesis "H2" ex_weighed = Some H_REJECTED) as Hs
      by (vm_compute; reflexivity).
    rewrite E in Hs. injection Hs as Hs. left. exact Hs.
Defined.

Lemma lease_is_a_fence_witness :
  exists m, atomically (complete default_criteria 2400 ex_iid "worker-2" 3 "c3" (ex_result (flit 9 1)))
              ex_weighed = (Err (LeaseLostError m), ex_weighed).
Proof.
  destruct (lease_is_a_fence default_criteria 2400 ex_iid "worker-2" ex_weighed (ex_inv ex_weighed))
    as (m & _ & _ & H & _).
  - apply ex_row_is. vm_compute. reflexivity.
  - intros [_ Ho]. vm_compute in Ho. discriminate.
  - exists m. apply H.
Defined.

Definition ex_accessible (d : db) : gset uuid :=
  match accessible d (ex_inv d) with Ok a => a | Err _ => ∅ end.

(** A low confidence is refused. *)
Lemma conclusion_is_answered_witness :
  exists o d', ex_complete (flit 1 1) ex_weighed = Ok (o, d') /\ accepted o = false.
Proof.
  destruct (conclusion_is_answered default_criteria ex_weighed ex_iid ex_owner (ex_inv ex_weighed)
              2400 3 "c3" (ex_result (flit 1 1)) ex_weighed_reached)
    as [(acc & o & d' & Hacc & Hr & _ & Ha & _)|(s & e & _ & _ & _ & Hr)].
  - apply ex_row_is. vm_compute. reflexivity.
  - vm_compute. reflexivity.
  - exists o, d'. split; [exact Hr|]. destruct (accepted o); [|reflexivity].
    apply proj1 in Ha. specialize (Ha eq_refl).
    assert (acc = ex_accessible ex_weighed) as -> by (unfold ex_accessible; rewrite Hacc; reflexivity).
    vm_compute in Ha. discriminate.
  - apply (f_equal (fun p => is_ok p.1)) in Hr. vm_compute in Hr. discriminate Hr.
Defined.

Definition ex_answer : option ConclusionOutcome :=
  match ex_complete (flit 9 1) ex_weighed with Ok (o, _) => Some o | Err _ => None end.

Lemma root_cause_is_earned_witness :
  exists n inc, incidents ex_concluded !! n = Some inc /\ i_status inc = RCA_READY.
Proof.
  assert (accepted <$> ex_answer = Some true) as Ho by (vm_compute; reflexivity).
  unfold ex_answer in Ho. unfold ex_concluded, run, atomically.
  destruct (ex_complete (flit 9 1) ex_weighed) as [[o d']|e] eqn:E; [|discriminate].
  injection Ho as Ho.
  destruct (root_cause_is_earned default_criteria 2400 ex_iid ex_owner 3 "c3" (ex_result (flit 9 1))
              ex_weighed o d' ex_weighed_reached E Ho)
    as (row & h & inc & rep & _ & _ & _ & _ & _ & _ & _ & _ & _ & _ & _ & _ & _ & _ & Hinc).
  eexists _, _. split; [exact Hinc|]. reflexivity.
Defined.

(** The worker stops after its first step; another one takes over and gives up. *)
Lemma abandoned_investigation_is_recovered_witness :
  ex_iid ∈ resumable (seconds 200) 10 ex_seen.
Proof.
  apply (abandoned_investigation_is_recovered default_criteria (seconds 200) 10 "worker-2" 120 ex_seen
           ex_iid (ex_inv ex_seen) (ex_accessible ex_seen) 2 "timeout" "" None None None I_ESCALATED
           ex_seen_reached).
  - apply ex_row_is. vm_compute. reflexivity.
  - vm_compute. reflexivity.
  - vm_compute. reflexivity.
  - vm_compute. lia.
  - left. reflexivity.
Defined.

Lemma investigation_starts_iff_warranted_witness :
  open_investigations 2 ex_gathered = [] /\ i_status (ex_incident_row ex_gathered) = TRIAGING.
Proof.
  destruct (investigation_starts_iff_warranted default_criteria 2000 2 "anthropic" "model" (JObj [])
              default_budget ex_gathered (ex_incident_row ex_gathered) ex_gathered_reached)
    as [(row & H & _)|[(H & _)|(H & Hn & _)]].
  - vm_compute. reflexivity.
  - vm_compute in H. discriminate.
  - split; [exact H|]. vm_compute. reflexivity.
  - exfalso. apply Hn. split; [left; vm_compute; reflexivity|]. vm_compute. discriminate.
Defined.

(** 99 is not registered: it was shown, but may not be cited. *)
Lemma shown_evidence_is_accessible_witness :
  51%N ∈ ex_accessible ex_seen /\ ~ 99%N ∈ ex_accessible ex_seen.
Proof.
  assert (exists sq d', ex_record ex_owned = Ok (sq, d') /\ d' = ex_seen) as (sq & d' & Hr & ->).
  { unfold ex_seen, run, atomically. destruct (ex_record ex_owned) as [[sq d']|e] eqn:E; [eauto|].
    assert (bool_decide (is_Some (match ex_record ex_owned with
                                  | Ok p => Some p | Err _ => None end)) = true) as H
      by (vm_compute; reflexivity).
    rewrite E in H. discriminate. }
  destruct (shown_evidence_is_accessible 2200 ex_iid ex_owner 1 ex_payload (Some "c1") (Some 12) None true 3
              (Some "query_metrics") 120 ex_owned sq ex_seen (ex_inv ex_owned) (ex_accessible ex_owned)
              [51%N; 52%N; 99%N]) as (row' & acc' & Hrow & Hacc & He).
  - apply ex_row_is. vm_compute. reflexivity.
  - vm_compute. reflexivity.
  - exact Hr.
  - vm_compute. reflexivity.
  - unfold uuids_ok. apply Forall_forall. repeat constructor.
  - vm_compute. reflexivity.
  - rewrite (ex_row_is ex_seen) in Hrow by (vm_compute; reflexivity). injection Hrow as <-.
    unfold ex_accessible. rewrite Hacc, !He. split.
    + right. split; [left|vm_compute; reflexivity].
    + intros [H|[_ H]]; [|vm_compute in H; discriminate].
      revert H. apply (bool_decide_eq_false (99%N ∈ ex_accessible ex_owned)). vm_compute. reflexivity.
Defined.

(** ** A rejection without contradicting evidence *)

(** The evidence already supports the hypothesis; citing it again, as contradicting,
    satisfies the check, and the insert keeps the supporting link. *)
Definition ex_turned : db :=
  run (apply_hypothesis_updates 2300 ex_iid ex_owner 2 "c2"
         {| updates := [ex_update "H3" H_ACTIVE [51%N] []; ex_update "H3" H_REJECTED [] [51%N]] |}) ex_seen.

(** A hypothesis can be rejected with no evidence against it.  In a reachable
    database a hypothesis is REJECTED, which is final, while no link contradicts it and
    its one link supports it: the rejection cited as contradicting the evidence already
    linked as supporting, and that link was never stored. *)
Theorem rejected_without_contradiction :
  reached ex_turned
  /\ exists h, ex_hypothesis "H3" ex_turned = Some h /\ h_status h = H_REJECTED
       /\ contradicting (snapshot_of ex_turned h) = [] /\ supporting (snapshot_of ex_turned h) = [51%N].
Proof.
  split.
  - eapply rtc_r; [apply ex_seen_reached|]. apply is_command, ic_apply. vm_compute. reflexivity.
  - assert ((fun h => (h_status h, contradicting (snapshot_of ex_turned h), supporting (snapshot_of ex_turned h)))
              <$> ex_hypothesis "H3" ex_turned = Some (H_REJECTED, [], [51%N])) as H
      by (vm_compute; reflexivity).
    apply fmap_Some in H as (h & Hh & H). exists h.
    apply eq_sym, pair_equal_spec in H as [H H3]. apply pair_equal_spec in H as [H1 H2].
    split; [exact Hh|]. split; [exact H1|]. split; [exact H2|exact H3].
Qed.
