(* ===== verification/AgentExample.v ===== *)
(** * A worked run of the engine

    A backend that always answers, a model that first reads the logs and then gives up,
    and an investigation requested for the incident of [IncidentExample].  The runs
    discharge the hypotheses of the theorems on evidence, tools and engine. *)
From S2P Require Import Prelude PyFloat Json Enums VerificationDomain Catalog.
From S2P Require Import RemediationDomain Uuid InvestigationDomain InvestigationRules Policy.
From S2P Require Import Store TxLogic Prog RemediationLifecycle RemediationService RemediationProofs.
From S2P Require Import RemediationExample IncidentRepository AlertIdentity IncidentService.
From S2P Require Import InvestigationService EvidenceScope EvidenceService EvidenceSafety.
From S2P Require Import AgentTools AgentModel AgentContext AgentToolset AgentEngine ToolSafety.
From S2P Require Import InvestigationProofs InvestigationInvariant InvestigationKeeps InvestigationSafety.
From S2P Require Import AgentTrace AgentHold AgentActs AgentLoop AgentLive AgentClient.
From S2P Require Import AgentSafety.
From S2P Require Import IncidentExample InvestigationExample.
Local Open Scope Z_scope.

(** ** Backends and tools *)

Definition ex_observation (now : instant) : Observation :=
  {| ob_evidence_type := LOG; ob_source_system := SRC_LOKI; ob_operation := "get_logs";
     ob_subject_service := "checkout"; ob_query_spec := [("limit", JInt 20)];
     ob_source_reference := []; ob_raw_response := JObj [("lines", JArr [JStr "error"])];
     ob_raw_truncated := false; ob_normalized_payload := [("count", JInt 1)];
     ob_summary := "1 line"; ob_result_count := 1; ob_observed_at := now; ob_window_start := None;
     ob_window_end := None |}.

(** A clock that ticks, and one observation for every question. *)
#[export] Instance ex_adapters : Adapters :=
  {| ad_world := instant; ad_clock w := (w, w + 1);
     ask q := fun s => (Ok (ex_observation s.1), s); ask_reads q w d := eq_refl |}.

(** Only reading the logs is described. *)
Definition ex_validate_input (name : string) (j : json) : list SchemaError + ToolInput :=
  if bool_decide (name = "get_logs") then inr (GetLogsInput None None None None None None 20)
  else inl [].
Lemma ex_validate_input_ok name j i :
  ex_validate_input name j = inr i -> tool_of i = name /\ input_ok i = true.
Proof.
  unfold ex_validate_input. case_bool_decide as E; [|discriminate]. intros [= <-].
  split; [by rewrite E|vm_compute; reflexivity].
Qed.
#[export] Instance ex_tool_schemas : ToolSchemas :=
  {| validate_input := ex_validate_input; validate_listing j := inl "";
     validate_input_ok := ex_validate_input_ok; validate_listing_ok j n H := match H with end |}.

Definition ex_catalog : ServiceCatalog :=
  {| cat_services := {["checkout" := {| se_dependencies := ["payments"]; se_repo_paths := ["checkout/"] |}]} |}.
Definition ex_world : EvidenceWorld :=
  {| ew_records := ∅; ew_next_sequence := 1; ew_adapters := seconds 7200 |}.

(** ** Evidence *)

Definition ex_query : EvidenceQuery := get_logs None None None None None None None.
Definition ex_collected : result EvidenceItem * (EvidenceWorld * db) :=
  _run ex_catalog 2 "tool:get_logs" None ex_query (ex_world, ex_fired).

Lemma ex_fired_keyed : refs_keyed ex_fired.
Proof.
  assert (evidence_refs ex_fired = ∅) as E by (vm_compute; reflexivity).
  intros k r Hk. rewrite E in Hk. discriminate Hk.
Qed.

Lemma returned_evidence_verifies_witness :
  exists item, ex_collected.1 = Ok item
    /\ exists report, verify (it_evidence_id item) ex_collected.2 = (Ok report, ex_collected.2)
         /\ integrity_ok report = true.
Proof.
  destruct ex_collected as [r s1] eqn:E.
  assert (exists item, r = Ok item) as [item ->].
  { assert (bool_decide (is_Some (match ex_collected.1 with Ok i => Some i | Err _ => None end)) = true) as H
      by (vm_compute; reflexivity).
    rewrite E in H. destruct r as [i|e]; [exists i; reflexivity|discriminate H]. }
  exists item. split; [reflexivity|].
  destruct (returned_evidence_verifies ex_catalog 2 "tool:get_logs" None ex_query (ex_world, ex_fired)
    item s1 s1 ex_fired_keyed E) as (rec & sc & report & _ & _ & _ & _ & _ & Hv & Hok).
  - apply rtc_refl.
  - exists report. split; [exact Hv|exact Hok].
Defined.

Definition ex_tools : ToolState := {| tl_calls := 0; tl_seen := ∅; tl_evidence := ex_world |}.
Definition ex_toolset : InvestigationToolset :=
  {| tt_incident_id := 2; tt_context := {| tc_incident_id := 2; tc_investigation_id := None |};
     tt_budget := {| tb_max_calls := 25; tb_max_identical_calls := 2; tb_max_attempts_per_call := 2 |} |}.
Definition ex_called : result ToolOutcome * (ToolState * db) :=
  toolset_execute ex_catalog (fun _ => 0) ex_toolset "get_logs" (JObj []) (ex_tools, ex_fired).

Lemma tool_outcomes_are_well_formed_witness :
  exists o, ex_called.1 = Ok o /\ to_ok o = true /\ (String.length (to_observation o) <= MAX_RESULT_CHARS)%nat.
Proof.
  destruct ex_called as [r s1] eqn:E.
  assert ((match ex_called.1 with Ok o => to_ok o | Err _ => false end) = true) as H
    by (vm_compute; reflexivity).
  rewrite E in H. destruct r as [o|e]; [|discriminate H]. exists o. split; [reflexivity|].
  split; [exact H|].
  exact (proj1 (tool_outcomes_are_well_formed ex_catalog (fun _ => 0) ex_toolset "get_logs" (JObj [])
    (ex_tools, ex_fired) o s1 E)).
Defined.

(** ** A run *)

Definition ex_declaration : InconclusiveDeclaration :=
  {| decl_reason := "no cause found"; decl_evidence_gaps := ["no traces"]; leading_hypothesis_key := None |}.
#[export] Instance ex_model_schemas : ModelSchemas :=
  {| validate_batch j := inl []; validate_result j := inl []; validate_declaration j := inr ex_declaration;
     validate_batch_ok j b H := match H with end; validate_result_ok j r H := match H with end;
     validate_declaration_ok j d H := match H with eq_refl => eq_refl end |}.

Definition ex_call (id name : string) : ModelAction :=
  {| act_call_id := id; act_name := name; act_arguments := JObj [] |}.
(** The logs first, then a declaration. *)
Definition ex_turn (n : nat) : ModelTurn :=
  {| mt_text := "looking"; mt_actions := [match n with
       | O => ex_call "c1" "get_logs" | _ => ex_call "c2" DECLARE_INCONCLUSIVE end];
     mt_stop_reason := "tool_use"; mt_usage := [("input_tokens", 10)]; mt_provider_payload := JNull;
     mt_served_model := "model"; mt_latency_ms := 5; mt_cache := JNull |}.

Lemma ex_turn_typed n a : a ∈ mt_actions (ex_turn n) -> exists l, act_arguments a = JObj l.
Proof. intros ->%list_elem_of_singleton. exists []. by destruct n. Qed.
Lemma ex_turn_calls n :
  NoDup (map act_call_id (mt_actions (ex_turn n))) /\ "" ∉ map act_call_id (mt_actions (ex_turn n)).
Proof. split; [apply NoDup_singleton|]. intros H%list_elem_of_singleton. by destruct n. Qed.

Definition ex_decide (rq : DecisionRequest) : Prog (instant * nat) ModelTurn := fun w =>
  (Ok (ex_turn w.2), (w.1, S w.2)).
Lemma ex_decide_typed rq w t w' :
  ex_decide rq w = (Ok t, w') -> forall a, a ∈ mt_actions t -> exists l, act_arguments a = JObj l.
Proof. intros [= <- _]. apply ex_turn_typed. Qed.
Lemma ex_decide_calls rq w t w' :
  ex_decide rq w = (Ok t, w') ->
  NoDup (map act_call_id (mt_actions t)) /\ "" ∉ map act_call_id (mt_actions t).
Proof. intros [= <- _]. apply ex_turn_calls. Qed.
#[export] Instance ex_agent : AgentWorld :=
  {| aw := instant * nat; read_clock := fun w => (Ok w.1, (w.1 + seconds 1, w.2));
     build_model spec := mret (); decide := ex_decide;
     decide_typed := ex_decide_typed; decide_calls := ex_decide_calls |}.

#[export] Instance ex_live : Toolset := investigation_toolset ex_catalog (fun _ => 0).
Lemma ex_environment : Environment no_signal (fun _ => True).
Proof. apply live_environment; done. Qed.

Definition ex_settings : json :=
  JObj [("thinking", JStr "adaptive"); ("effort", JStr "high"); ("max_tokens", JInt 16000);
        ("timeout_seconds", JInt 120); ("max_retries", JInt 2)].
Definition ex_ready : db :=
  run (request_investigation 2000 2 "anthropic" "model" ex_settings default_budget) ex_gathered.
Lemma ex_ready_reached : reached ex_ready.
Proof. eapply rtc_r; [apply ex_gathered_reached|]. apply is_command, ic_request. Qed.

(** The parts of [Fit] that are computed. *)
Lemma ex_fit d :
  GInv d -> bool_decide (is_Some (investigations d !! ex_iid)) = true -> steps_of d ex_iid = [] ->
  (inv_model_config (ex_inv d), inv_budget (ex_inv d)) = (ex_settings, default_budget) ->
  (inv_iteration_count (ex_inv d), inv_evidence_count (ex_inv d)) = (0, 0) ->
  Fit ex_iid d (ex_inv d) [].
Proof.
  intros HI Hi Hs [= Hset Hb] [= Hit He]. split; [exact HI|by apply ex_row_is|exact Hs|constructor| | | |].
  - rewrite Hset. eexists. reflexivity.
  - by rewrite Hit.
  - rewrite Hit, Hb. vm_compute. discriminate.
  - rewrite He, Hb. vm_compute. discriminate.
Qed.
Lemma ex_ready_fit : Fit ex_iid ex_ready (ex_inv ex_ready) [].
Proof.
  apply ex_fit; [apply (investigated_GInv _ _ ex_ready_reached)|vm_compute; reflexivity..].
Qed.

Definition ex_fuel : nat := 20.
Lemma ex_enough : enough_fuel (ex_inv ex_ready) ex_fuel.
Proof. vm_compute. lia. Qed.

Definition ex_start : engine_state := ((seconds 7200, 0%nat), (ex_tools, ex_ready)).
Definition ex_run : result RunOutcome * engine_state :=
  run_engine default_criteria ex_catalog [] ex_owner 120 3 ex_fuel ex_iid ex_start.

Lemma run_ends_the_investigation_witness :
  exists row, investigations ex_run.2.2.2 !! ex_iid = Some row /\ inv_status row = I_ESCALATED.
Proof.
  destruct ex_run as [r s'] eqn:E.
  pose proof (run_ends_the_investigation default_criteria ex_catalog [] ex_iid ex_owner 120 3 no_signal
    ex_fuel ex_start (ex_inv ex_ready) [] r s' ex_environment ex_ready_fit) as H.
  assert (r = Ok (Finished I_ESCALATED)) as ->.
  { assert (ex_run.1 = Ok (Finished I_ESCALATED)) as Hr by (vm_compute; reflexivity).
    rewrite E in Hr. exact Hr. }
  destruct H as (_ & row & Hi & Hs & _).
  - vm_compute. reflexivity.
  - lia.
  - exact ex_enough.
  - exact E.
  - exists row. split; [exact Hi|exact Hs].
Defined.

(** The same run with its requests kept. *)
Definition ex_logged_start : @engine_state (logged ex_agent) ex_live :=
  (([], (seconds 7200, 0%nat)), (ex_tools, ex_ready)).
Definition ex_logged_run :=
  @run_engine ex_model_schemas ex_hashing (logged ex_agent) ex_live default_criteria ex_catalog [] ex_owner
    120 3 ex_fuel ex_iid ex_logged_start.

Lemma model_sees_paired_transcripts_witness :
  length ex_logged_run.2.1.1 = 2%nat
  /\ forall rq, rq ∈ ex_logged_run.2.1.1 -> paired None (rq_transcript rq).
Proof.
  split; [vm_compute; reflexivity|]. destruct ex_logged_run as [r s'] eqn:E.
  apply (model_sees_paired_transcripts default_criteria ex_catalog [] ex_iid ex_owner 120 3 ex_agent no_signal
    ex_fuel ex_logged_start (ex_inv ex_ready) [] r s' ex_environment).
  - reflexivity.
  - exact ex_ready_fit.
  - vm_compute. reflexivity.
  - lia.
  - exact ex_enough.
  - exact E.
Defined.

(** ** An interrupted turn *)

(** The worker recorded the context and its first turn, and died. *)
Definition ex_taken : db := run (take_lease 2100 ex_iid ex_owner 120) ex_ready.
Definition ex_context : list (string * json) :=
  context_payload default_criteria ex_catalog [] (ex_incident_row ex_taken, []) [] (ex_inv ex_taken) 2200.
Definition ex_wrote (k : StepKind) (n : Z) (p : list (string * json)) (d : db) : db :=
  run (record_step 2200 ex_iid ex_owner k n p None None None false 0 None 120) d.
Definition ex_begun : db := ex_wrote S_CONTEXT 0 ex_context ex_taken.
Definition ex_pending : db := ex_wrote S_MODEL_TURN 1 (turn_payload (ex_turn 0)) ex_begun.

Lemma ex_held_record k n p d row l :
  Held ex_iid ex_owner d row l -> (forall s, step_is k None p s -> may_follow l s) ->
  (k = S_MODEL_TURN -> n = inv_iteration_count row + 1
                       /\ inv_iteration_count row < max_iterations (inv_budget row)) ->
  exists s, step_is k None p s
    /\ Held ex_iid ex_owner (ex_wrote k n p d) (counted 2200 k n None false 0 None 120 row) (l ++ [s]).
Proof.
  intros HH Hs Hk. pose proof HH as [[_ _ _ _ _ _ _ He] _].
  destruct (held_record ex_iid ex_owner 2200 k n p None None None false 0 None 120 d row l HH Hs Hk He)
    as (sq & d' & s & Hr & His & HH').
  exists s. split; [exact His|]. unfold ex_wrote, run, atomically. by rewrite Hr.
Qed.

Lemma ex_pending_held :
  exists row c t, Held ex_iid ex_owner ex_pending row [c; t] /\ st_kind c = S_CONTEXT
    /\ step_is S_MODEL_TURN None (turn_payload (ex_turn 0)) t.
Proof.
  assert (inv_iteration_count (ex_inv ex_ready) = 0 /\ max_iterations (inv_budget (ex_inv ex_ready)) = 15)
    as [Hit Hmax] by (vm_compute; split; reflexivity).
  destruct (fit_claim ex_iid ex_owner 2100 120 _ _ _ ex_ready_fit) as [Hr|(d' & Hr & HH)].
  { vm_compute. reflexivity. }
  { apply (f_equal (fun r => match r with Ok (b, _) => b | Err _ => false end)) in Hr.
    vm_compute in Hr. discriminate Hr. }
  assert (ex_taken = d') as Hd by (unfold ex_taken, run, atomically; by rewrite Hr).
  rewrite <-Hd in HH.
  destruct (ex_held_record S_CONTEXT 0 ex_context _ _ _ HH) as (c & Hc & HH1); [|discriminate|].
  { intros s Hs. split; [by eapply readable_context|]. by destruct Hs as (-> & -> & _). }
  destruct (ex_held_record S_MODEL_TURN 1 (turn_payload (ex_turn 0)) _ _ _ HH1) as (t & Ht & HH2).
  { intros s Hs. split; [eapply readable_turn; [exact Hs|apply ex_turn_typed|apply ex_turn_calls]|].
    destruct Hs as (-> & -> & _). split; [done|]. split; [intros ? ? ?; rewrite last_turn_snoc|];
      cbn [app existsb]; unfold is_kind; destruct Hc as (-> & _); done. }
  { intros _. cbn -[ex_inv]. rewrite Hit, Hmax. vm_compute. split; reflexivity. }
  eexists _, c, t. split; [exact HH2|]. split; [apply Hc|exact Ht].
Qed.

Lemma pending_turn_is_finished_witness :
  exists state s' row' l' r', load_state ex_iid ex_pending = Ok state
    /\ @_resolve_pending ex_model_schemas (logged ex_agent) ex_live default_criteria ex_owner 120
         state ex_toolset (([], (seconds 7200, 1%nat)), (ex_tools, ex_pending)) = (Ok true, s')
    /\ Held ex_iid ex_owner s'.2.2 row' l' /\ last_turn l' <> None /\ answers_of r' = ["c1"].
Proof.
  destruct ex_pending_held as (row & c & t & HH & Hc & Ht).
  assert (is_kind S_MODEL_TURN t = true) as Hk by (apply is_kind_true, Ht).
  assert (last_turn [c; t] = Some (t, [])) as Hl by (cbn [last_turn]; rewrite Hk; reflexivity).
  pose proof (turn_actions _ _ _ Ht (ex_turn_typed 0)) as Ha.
  destruct (held_load _ _ _ _ _ HH) as (state & Hload & _ & _).
  set (start := (([], (seconds 7200, 1%nat)), (ex_tools, ex_pending)) : @engine_state (logged ex_agent) ex_live).
  destruct (@_resolve_pending ex_model_schemas (logged ex_agent) ex_live default_criteria ex_owner 120
              state ex_toolset start) as [res s'] eqn:E.
  assert (match load_state ex_iid ex_pending with
          | Ok st => match (@_resolve_pending ex_model_schemas (logged ex_agent) ex_live
                              default_criteria ex_owner 120 st ex_toolset start).1 with
                     | Ok b => b | Err _ => false end
          | Err _ => false end = true) as Hres by (vm_compute; reflexivity).
  rewrite Hload, E in Hres.
  destruct (pending_turn_is_finished (TL := ex_live) default_criteria ex_iid ex_owner 120 ex_agent no_signal state ex_toolset
              start row [c; t] t [] (mt_actions (ex_turn 0)) res s' ex_environment eq_refl HH Hload Hl Ha)
    as [_ H]; [discriminate|exact E|].
  destruct res as [b|e]; [|discriminate Hres].
  destruct H as (-> & row' & l' & r' & HH' & Hl' & Hp).
  exists state, s', row', l', r'. split; [exact Hload|]. split; [exact E|]. split; [exact HH'|].
  split; [rewrite Hl'; discriminate|]. simpl in Hp. apply Permutation_sym, Permutation_length_1_inv in Hp.
  exact Hp.
Defined.
