(* ===== verification/IncidentWalk.v ===== *)
(** * How the services move an incident

    Every write of an incident's status goes through [transition_with_event] with a row
    read in the same transaction.  [walks edges d d'] says that every incident of [d] is
    still there and got where it is along [edges]; the remediation and the verification
    commands walk along the edges they own, read off the calls they make. *)
From S2P Require Import Prelude PyFloat Json Enums VerificationDomain Catalog.
From S2P Require Import RemediationDomain Policy Store TxLogic RemediationLifecycle.
From S2P Require Import RemediationService RemediationProofs RemediationSafety RemediationExample.
From S2P Require Import RemediationProgress VerificationService VerificationProofs.
From S2P Require Import VerificationSafety.
Local Open Scope Z_scope.

Definition edges : Type := list (IncidentStatus * IncidentStatus).
Definition along (E : edges) (a b : IncidentStatus) : Prop := (a, b) ∈ E.

Definition keyed (d : db) : Prop := forall n r, incidents d !! n = Some r -> i_id r = n.

(** The row is the same incident, further along. *)
Definition walked (E : edges) (r r' : IncidentRow) : Prop :=
  i_id r' = i_id r /\ i_correlation_key r' = i_correlation_key r
  /\ i_attempt_count r <= i_attempt_count r'
  /\ rtc (along E) (i_status r) (i_status r').

Lemma walked_refl E r : walked E r r.
Proof. by split_and!. Qed.
Lemma walked_trans E r1 r2 r3 : walked E r1 r2 -> walked E r2 r3 -> walked E r1 r3.
Proof.
  intros (? & ? & ? & ?) (? & ? & ? & ?). split_and!; [congruence..|lia|by etransitivity].
Qed.

Definition walks (E : edges) (d d' : db) : Prop :=
  keyed d -> keyed d'
  /\ (forall n r, incidents d !! n = Some r -> exists r', incidents d' !! n = Some r' /\ walked E r r')
  /\ (forall n, incidents d !! n = None -> incidents d' !! n = None).

#[export] Instance walks_preorder E : PreOrder (walks E).
Proof.
  split.
  - intros d Hk. split_and!; eauto using walked_refl.
  - intros d1 d2 d3 H1 H2 Hk. destruct (H1 Hk) as (Hk2 & W1 & N1), (H2 Hk2) as (Hk3 & W2 & N2).
    split_and!; [done| |auto]. intros n r Hn. destruct (W1 _ _ Hn) as (r2 & Hn2 & V1).
    destruct (W2 _ _ Hn2) as (r3 & Hn3 & V2). eauto using walked_trans.
Qed.

Lemma walks_same E d d' : incidents d' = incidents d -> walks E d d'.
Proof. intros H Hk. unfold keyed. rewrite H. split_and!; eauto using walked_refl. Qed.

Lemma walks_mono E F d d' : (forall e, e ∈ E -> e ∈ F) -> walks E d d' -> walks F d d'.
Proof.
  intros HEF H Hk. destruct (H Hk) as (Hk' & W & N). split_and!; [done| |done].
  intros n r Hn. destruct (W _ _ Hn) as (r' & Hn' & ? & ? & ? & Hr). exists r'. split; [done|].
  split_and!; try done. eapply rtc_subrel; [|exact Hr]. intros a b. apply HEF.
Qed.

(** Nothing is moved: only tables other than the incidents are written. *)
Lemma walks_unmoved {A} E (m : Tx A) : relates same_incidents m -> relates (walks E) m.
Proof. intros Hm d a d' Hr. by eapply walks_same, Hm. Qed.

(** ** Programs that hold a row *)

Definition held (inc : IncidentRow) (d : db) : Prop := incidents d !! i_id inc = Some inc.

Definition walks_from {A} (E : edges) (inc : IncidentRow) (m : Tx A) : Prop :=
  forall d a d', held inc d -> m d = Ok (a, d') -> walks E d d'.

Section From.
Context (E : edges).

Lemma from_relates {A} inc (m : Tx A) : relates (walks E) m -> walks_from E inc m.
Proof. intros Hm d a d' _ Hr. by eapply Hm. Qed.

(** Before the move nothing touches the incidents; after it, anything that walks. *)
Lemma from_before {A B} inc (m : Tx A) (k : A -> Tx B) :
  relates same_incidents m -> (forall a, walks_from E inc (k a)) -> walks_from E inc (m ≫= k).
Proof.
  intros Hm Hk d b d' Hh (a & d1 & H1 & H2)%bind_Ok. specialize (Hm _ _ _ H1).
  transitivity d1; [by apply walks_same|]. eapply Hk; [|exact H2]. unfold held. by rewrite Hm.
Qed.
Lemma from_after {A B} inc (m : Tx A) (k : A -> Tx B) :
  walks_from E inc m -> (forall a, relates (walks E) (k a)) -> walks_from E inc (m ≫= k).
Proof.
  intros Hm Hk d b d' Hh (a & d1 & H1 & H2)%bind_Ok. transitivity d1; [by eapply Hm|by eapply Hk].
Qed.

(** The row a transaction reads by its key is held. *)
Lemma walks_read {A} n e (k : IncidentRow -> Tx A) :
  (forall inc, i_id inc = n -> walks_from E inc (k inc)) ->
  relates (walks E) (found ← reads (fun d => incidents d !! n); incident ← must found e; k incident).
Proof.
  intros Hk d b d' (f & d1 & H1 & H2)%bind_Ok Hkeyed. apply reads_Ok in H1 as [-> ->].
  apply bind_Ok in H2 as (inc & d1 & H1 & H2). apply must_Ok in H1 as [Hn ->].
  pose proof (Hkeyed _ _ Hn) as Hi. eapply (Hk inc Hi); [|exact H2|exact Hkeyed].
  unfold held. by rewrite Hi.
Qed.

Lemma walks_moved now inc to closes d :
  held inc d -> along E (i_status inc) to ->
  walks E d (d <| incidents ::= <[i_id inc := moved_row now to closes inc]> |>).
Proof.
  intros Hh He Hk. split_and!; simpl.
  - unfold keyed. simpl. intros n r [[<- <-]|[_ Hn]]%lookup_insert_Some; [done|by apply Hk].
  - intros n r Hn. destruct (decide (i_id inc = n)) as [<-|Hne].
    + exists (moved_row now to closes inc). rewrite lookup_insert_eq.
      unfold held in Hh. assert (r = inc) as -> by congruence. split; [done|].
      split_and!; simpl; [done|done|lia|by apply rtc_once].
    + exists r. rewrite lookup_insert_ne by done. eauto using walked_refl.
  - intros n Hn. rewrite lookup_insert_ne; [done|]. intros <-. unfold held in Hh. congruence.
Qed.

(** A move, and what follows with the row it wrote. *)
Lemma from_transition {A} now inc to closes reason conflict (k : IncidentRow -> Tx A) :
  along E (i_status inc) to ->
  (forall inc', i_id inc' = i_id inc -> i_status inc' = to -> walks_from E inc' (k inc')) ->
  walks_from E inc (transition_with_event now inc to closes reason conflict ≫= k).
Proof.
  intros He Hk d b d' Hh (inc' & d1 & H1 & H2)%bind_Ok.
  apply transition_with_event_run in H1 as [-> [Hq _]]; [|exact Hh].
  assert (incidents d1 = <[i_id inc := moved_row now to closes inc]> (incidents d)) as Hi by (by rewrite Hq).
  transitivity (d <| incidents ::= <[i_id inc := moved_row now to closes inc]> |>); [by apply walks_moved|].
  transitivity d1; [by apply walks_same|].
  eapply (Hk (moved_row now to closes inc)); [done|done| |exact H2].
  unfold held. rewrite Hi. apply lookup_insert_eq.
Qed.
End From.

Ltac unmoved := solve [relates_auto].

(** ** Remediation *)

Definition REMEDIATION_EDGES : edges :=
  [(RCA_READY, ESCALATED); (RCA_READY, AWAITING_APPROVAL);
   (AWAITING_APPROVAL, REMEDIATION_IN_PROGRESS); (AWAITING_APPROVAL, ESCALATED);
   (AWAITING_APPROVAL, RCA_READY); (REMEDIATION_IN_PROGRESS, VERIFYING);
   (REMEDIATION_IN_PROGRESS, ESCALATED); (REMEDIATION_IN_PROGRESS, RCA_READY)].

Section Remediation.
Context {PY : Pydantic} {HA : Hashing} {TO : ServiceTopology} {DI : Digests}.
Context (cfg : ServiceConfig).
Abbreviation E := REMEDIATION_EDGES.

Lemma from_move_incident {A} now inc froms to reason (k : () -> Tx A) :
  (forall s, s ∈ froms -> along E s to) -> (forall u, relates same_incidents (k u)) ->
  walks_from E inc (_move_incident now inc froms to reason ≫= k).
Proof.
  intros Hs Hk. apply from_after; [|intros u; by apply walks_unmoved].
  unfold _move_incident. case_bool_decide as Hin.
  - apply from_transition; [by apply Hs|]. intros inc' _ _. apply from_relates, relates_ret. typeclasses eauto.
  - apply from_relates, relates_ret. typeclasses eauto.
Qed.

Lemma walks_lock_incident {A} n (k : IncidentRow -> Tx A) :
  (forall inc, walks_from E inc (k inc)) -> relates (walks E) (_lock_incident n ≫= k).
Proof.
  intros Hk d b d' (inc & d1 & H1 & H2)%bind_Ok. unfold _lock_incident in H1.
  eapply (walks_read E n (IncidentNotFoundError (str_uuid n)) k); [by intros; apply Hk|].
  apply bind_Ok in H1 as (f & d2 & H0 & H1). apply bind_Ok. exists f, d2. split; [exact H0|].
  apply bind_Ok. by exists inc, d1.
Qed.

(** *** What leaves the incidents alone *)

Local Hint Resolve inc_outbox inc_timeline inc_event inc_insert_approval inc_transition : relates.
Lemma inc_view row : relates same_incidents (_view row).
Proof. unfold _view. relates_auto. Qed.
Lemma inc_lock i : relates same_incidents (RemediationService._lock i).
Proof. unfold RemediationService._lock. relates_auto. Qed.
Lemma inc_latest i : relates same_incidents (_latest_execution i).
Proof. unfold _latest_execution. relates_auto. Qed.
Local Hint Resolve inc_view inc_lock inc_latest : relates.
Lemma inc_insert_remediation r : relates same_incidents (insert_remediation r).
Proof. unfold insert_remediation. relates_auto. Qed.
Lemma inc_context now inc p t : relates same_incidents (_context now inc p t).
Proof. unfold _context. relates_auto. Qed.
Lemma inc_record_decision now row dec ctx : relates same_incidents (_record_decision now row dec ctx).
Proof. unfold _record_decision. relates_auto. Qed.
Lemma inc_put_execution x : relates same_incidents (put_execution x).
Proof. by apply inc_writes. Qed.
Local Hint Resolve inc_put_execution : relates.
Lemma inc_insert_execution x : relates same_incidents (insert_execution x).
Proof. unfold insert_execution. relates_auto. Qed.
Lemma inc_ticket row x m : relates same_incidents (_ticket row x m).
Proof. unfold _ticket. relates_auto. Qed.
Local Hint Resolve inc_insert_execution inc_ticket : relates.
Lemma inc_interrupt now row x o l : relates same_incidents (_interrupt now row x o l).
Proof. unfold _interrupt. relates_auto. Qed.
Lemma inc_start_attempt now row e o l : relates same_incidents (_start_attempt now row e o l).
Proof. unfold _start_attempt. relates_auto. Qed.
Lemma inc_insert_evidence now v n role l :
  relates same_incidents (insert_verification_evidence now v n role l).
Proof. induction l as [|e l IH]; simpl; relates_auto; apply IH. Qed.
Local Hint Resolve inc_insert_evidence : relates.
Lemma inc_insert_verification v : relates same_incidents (insert_verification v).
Proof. unfold insert_verification, put_verification. relates_auto. Qed.
Local Hint Resolve inc_insert_verification : relates.
Lemma inc_request_verification now row e : relates same_incidents (_request_verification cfg now row e).
Proof. unfold _request_verification. relates_auto. Qed.
Local Hint Resolve inc_insert_remediation inc_context inc_record_decision
  inc_interrupt inc_start_attempt inc_request_verification : relates.

Ltac edge := unfold along, E; let s := fresh in let Hs := fresh in intros s Hs; set_solver.
Ltac walk_step :=
  match goal with
  | |- relates (walks _) (_lock_incident _ ≫= _) => apply walks_lock_incident; intros ?
  | |- relates (walks _) (_ ≫= _) =>
      apply relates_bind; [typeclasses eauto|apply walks_unmoved; unmoved|intros ?]
  | |- relates (walks _) (match ?x with _ => _ end) => destruct x
  | |- relates (walks _) _ => apply walks_unmoved; unmoved
  | |- walks_from _ _ (_move_incident _ _ _ _ _ ≫= _) =>
      apply from_move_incident; [edge|intros ?; unmoved]
  | |- walks_from _ _ (match ?x with _ => _ end) => destruct x
  | |- walks_from _ _ (_ ≫= _) => apply from_before; [unmoved|intros ?]
  | |- walks_from _ _ _ => apply from_relates, walks_unmoved; unmoved
  end.
Ltac walk := intros; repeat (cbv zeta; walk_step).

Lemma walk_route now row inc dec drow : walks_from E inc (_route now row inc dec drow).
Proof. unfold _route. walk. Qed.
Lemma walk_finish_cancelled now row inc e a r to et dec :
  to = ESCALATED \/ to = RCA_READY -> walks_from E inc (_finish_cancelled now row inc e a r to et dec).
Proof. intros [-> | ->]; unfold _finish_cancelled; walk. Qed.
Lemma walk_finish_failed now row inc c t a : walks_from E inc (_finish_failed now row inc c t a).
Proof. unfold _finish_failed. walk. Qed.
Lemma walk_settle_success now row inc x e a r :
  walks_from E inc (_settle_success cfg now row inc x e a r).
Proof. unfold _settle_success. walk. Qed.
Lemma walk_settle_failure now row inc x e a o r :
  walks_from E inc (_settle_failure now row inc x e a o r).
Proof.
  unfold _settle_failure. apply from_before; [unmoved|intros _].
  case_match; [walk|apply walk_finish_failed].
Qed.

Lemma walk_propose now p key corr : relates (walks E) (propose cfg now p key corr).
Proof.
  unfold propose. walk_step. walk_step. case_match; [walk|]. cbv zeta.
  do 5 (apply from_before; [unmoved|intros ?]). apply from_before; [unmoved|]. intros [row1 drow].
  apply from_after; [apply walk_route|]. walk.
Qed.

(** The helper that moves, then what leaves the incidents alone. *)
Lemma from_helper {A B} inc (m : Tx A) (k : A -> Tx B) :
  walks_from E inc m -> (forall a, relates same_incidents (k a)) -> walks_from E inc (m ≫= k).
Proof. intros Hm Hk. apply from_after; [done|]. intros a. by apply walks_unmoved. Qed.

Lemma walk_decide now i approver roles approve hash pid comment :
  relates (walks E) (decide_approval now i approver roles approve hash pid comment).
Proof.
  unfold decide_approval. do 2 walk_step. do 3 (walk_step; [walk|]). do 2 walk_step.
  cbv zeta. do 2 (walk_step; [walk|]). do 3 walk_step. cbv zeta. walk_step; [walk|].
  apply from_helper; [apply walk_finish_cancelled; by left|]. intros; unmoved.
Qed.
Lemma walk_expire now i : relates (walks E) (expire_one cfg now i).
Proof.
  unfold expire_one. walk_step. walk_step; [walk|]. do 2 walk_step. do 2 walk_step.
  apply from_helper; [apply walk_finish_cancelled; by left|]. intros; unmoved.
Qed.
Lemma walk_cancel now i a r : relates (walks E) (cancel now i a r).
Proof.
  unfold cancel. walk_step. walk_step; [|walk]. walk_step.
  apply from_helper; [apply walk_finish_cancelled; by right|]. intros; unmoved.
Qed.
Lemma walk_claim now i o l : relates (walks E) (claim_execution now i o l).
Proof.
  unfold claim_execution. walk_step. walk_step; [walk|]. walk_step. walk_step; [walk|]. walk_step.
  cbv zeta. walk_step.
  match goal with |- walks_from _ _ (match ?x with _ => _ end) => destruct x as [[code text]|] end; [|walk].
  apply from_helper; [|intros; unmoved].
  case_match; [apply walk_finish_cancelled; by left|apply walk_finish_failed].
Qed.
Lemma walk_complete now x o oc e r err re :
  relates (walks E) (complete_execution cfg now x o oc e r err re).
Proof.
  unfold complete_execution. do 3 walk_step. do 3 (walk_step; [walk|]). cbv zeta. walk_step.
  apply from_helper; [|intros; unmoved].
  case_match; [apply walk_settle_success|apply walk_settle_failure].
Qed.
Lemma walk_baseline now i o v e : relates (walks E) (record_baseline now i o v e).
Proof. unfold record_baseline. walk. Qed.
Lemma walk_switch now s e a r : relates (walks E) (set_kill_switch now s e a r).
Proof. unfold set_kill_switch. walk. Qed.

Lemma remediation_walks d d' : remediation_command cfg d d' -> walks E d d'.
Proof.
  destruct 1; apply atomically_relates; try typeclasses eauto;
    [apply walk_propose|apply walk_decide|apply walk_expire|apply walk_cancel|apply walk_claim
    |apply walk_complete|apply walk_baseline|apply walk_switch].
Qed.
End Remediation.

(** ** Verification *)

Definition VERIFICATION_EDGES : edges :=
  [(VERIFYING, RESOLVED); (VERIFYING, VERIFICATION_FAILED); (VERIFYING, ESCALATED);
   (VERIFICATION_FAILED, ESCALATED)].

Section Verification.
Context {PY : Pydantic} {HA : Hashing} {TO : ServiceTopology} {DI : Digests}.
Context (max_attempts : Z).
Abbreviation E := VERIFICATION_EDGES.

Local Hint Resolve inc_outbox : relates.
Lemma inc_put_verification v : relates same_incidents (put_verification v).
Proof. by apply inc_writes. Qed.
Lemma inc_verification_event now row e : relates same_incidents (Core._event now row e).
Proof. unfold Core._event. relates_auto. Qed.
Lemma inc_closure now i e r row : relates same_incidents (Core._closure now i e r row).
Proof. unfold Core._closure. relates_auto. Qed.
Lemma inc_verification_lock i : relates same_incidents (Core._lock i).
Proof. unfold Core._lock. relates_auto. Qed.
Lemma inc_observation o : relates same_incidents (Core.insert_observation o).
Proof. unfold Core.insert_observation. relates_auto. Qed.
Local Hint Resolve inc_put_verification inc_verification_event inc_closure inc_verification_lock
  inc_observation inc_insert_evidence : relates.
Lemma inc_started now row : relates same_incidents (Core._start now row).
Proof. unfold Core._start. relates_auto. Qed.
Local Hint Resolve inc_started : relates.

Lemma walk_apply now row inc st :
  i_status inc = VERIFYING -> walks_from E inc (Core._apply max_attempts now row inc st).
Proof.
  intros Hs. assert (forall to, to = RESOLVED \/ to = VERIFICATION_FAILED \/ to = ESCALATED ->
                       along E (i_status inc) to) as He.
  { intros to. rewrite Hs. unfold along, E. set_solver. }
  unfold Core._apply, Core._apply_failure, Core._move, count_firing_alerts.
  destruct st; (apply from_transition; [apply He; auto|intros inc' _ Hs'];
    try (apply from_relates, walks_unmoved; unmoved)).
  all: apply from_before; [unmoved|intros n]; case_match;
    [apply from_relates, walks_unmoved; unmoved|cbv zeta].
  all: apply from_transition; [rewrite Hs'; unfold along, E; set_solver|].
  all: intros inc2 _ _; apply from_relates, walks_unmoved; unmoved.
Qed.

Lemma walk_finalize now row dec : relates (walks E) (Core._finalize max_attempts now row dec).
Proof.
  intros d b d' Hr Hk. enough (walks E d d') as H by (by apply H). unfold Core._finalize in Hr. cbv zeta in Hr.
  apply bind_Ok in Hr as (x & d1 & H1 & Hr). apply reads_Ok in H1 as [-> ->]. unfold id in Hr.
  apply bind_Ok in Hr as (inc & d1 & H1 & Hr). apply must_Ok in H1 as [Hinc ->].
  apply bind_Ok in Hr as (rem & d1 & H1 & Hr). apply must_Ok in H1 as [_ ->].
  apply bind_Ok in Hr as (row2 & d1 & H1 & Hr).
  assert (relates (walks E) (put_verification row2 ;; Core._event now row2 "VerificationCompleted" ;;
                             mret row2)) as Hend by (apply walks_unmoved; unmoved).
  transitivity d1; [|by eapply Hend]. clear Hr.
  destruct (Core._staleness _ _ _ _) as [stale|] eqn:Est; [by apply ret_Ok in H1 as [_ ->]|].
  assert (i_status inc = VERIFYING) as Hs.
  { unfold Core._staleness in Est. case_match eqn:Ev; [done|]. clear Est.
    by apply negb_false_iff, bool_decide_eq_true in Ev. }
  apply bind_Ok in H1 as (next & d2 & H1 & H2). apply ret_Ok in H2 as [_ ->].
  eapply walk_apply; [exact Hs| |exact H1]. unfold held. by rewrite (Hk _ _ Hinc).
Qed.

Lemma verification_walks d d' : verification_command max_attempts d d' -> walks E d d'.
Proof.
  assert (forall {A} (m : Tx A), relates (walks E) m -> walks E d (atomically m d).2) as Hat.
  { intros A m Hm. apply atomically_relates; [typeclasses eauto|done]. }
  assert (forall {A B} (m : Tx A) (k : A -> Tx B), relates same_incidents m ->
            (forall a, relates (walks E) (k a)) -> relates (walks E) (m ≫= k)) as Hbind.
  { intros A B m k Hm Hk. apply relates_bind; [typeclasses eauto|by apply walks_unmoved|done]. }
  destruct 1 as [now i|now i owner lease|now ticket sample ids at_ _]; apply Hat.
  - apply walks_unmoved. unfold Core.start. unmoved.
  - unfold Core.claim_due. apply Hbind; [unmoved|intros row0].
    apply Hbind; [unmoved|intros row].
    do 2 (case_match; [apply walks_unmoved; unmoved|]).
    case_match; [|apply walks_unmoved; unmoved].
    apply Hbind; [unmoved|intros latest]. apply relates_bind; [typeclasses eauto|apply walk_finalize|].
    intros ?. apply walks_unmoved. unmoved.
  - unfold Core.record_observation. apply Hbind; [unmoved|intros row].
    case_match; [apply walks_unmoved; unmoved|].
    do 3 (apply Hbind; [unmoved|intros ?]). cbv zeta.
    do 3 (apply Hbind; [unmoved|intros ?]).
    case_match; [apply walk_finalize|apply walks_unmoved; unmoved].
Qed.
End Verification.
