(* ===== verification/Platform.v ===== *)
(** * The platform: the services on one database

    Alert, remediation, verification and investigation commands interleaved, and the
    bookkeeping of the events they publish.  Each
    service keeps to its own tables, so the assumption each safety file makes of the
    other services holds of the real ones, and every invariant holds in every database
    they reach together; and the incidents follow one state machine. *)
From S2P Require Import Prelude PyFloat Json Enums Correlation VerificationDomain Catalog.
From S2P Require Import RemediationDomain Uuid InvestigationDomain InvestigationRules Policy.
From S2P Require Import Store TxLogic RemediationLifecycle RemediationService RemediationProofs.
From S2P Require Import RemediationSafety RemediationExample RemediationProgress.
From S2P Require Import IncidentRepository AlertIdentity IncidentService IncidentProofs IncidentSafety.
From S2P Require Import EvidenceService.
From S2P Require Import InvestigationService InvestigationProofs InvestigationInvariant.
From S2P Require Import InvestigationKeeps InvestigationSafety.
From S2P Require Import VerificationService VerificationProofs VerificationSafety IncidentWalk.
Local Open Scope Z_scope.

(** ** Tables the remediation and verification services leave alone *)

Definition beyond (d d' : db) : Prop :=
  alerts d' = alerts d /\ processed_commands d' = processed_commands d
  /\ evidence_refs d' = evidence_refs d /\ investigations d' = investigations d
  /\ hypotheses d' = hypotheses d /\ evidence_links d' = evidence_links d
  /\ investigation_steps d' = investigation_steps d /\ rca_reports d' = rca_reports d
  /\ (uuid_supply d <= uuid_supply d')%N.

#[export] Instance beyond_preorder : PreOrder beyond.
Proof.
  split; [intros d; unfold beyond; by split_and!|]. unfold beyond. intros d1 d2 d3 H1 H2.
  destruct_and?. split_and!; try congruence. lia.
Qed.

Lemma beyond_quiet d d' : quiet d d' -> beyond d d'.
Proof. intros [-> ?]. by split_and!. Qed.

Lemma beyond_uuid4 : relates beyond uuid4.
Proof. intros d a d' Hr. by eapply beyond_quiet, quiet_uuid4. Qed.
Lemma beyond_outbox now et at_ ai ci p : relates beyond (insert_outbox_event now et at_ ai ci p).
Proof. intros d a d' Hr. by eapply beyond_quiet, quiet_outbox. Qed.
Ltac beyond_write := intros; apply relates_writes; let d := fresh in intros d; by split_and!.
Lemma beyond_put_incident r : relates beyond (put_incident r).
Proof. beyond_write. Qed.
Lemma beyond_put_verification v : relates beyond (put_verification v).
Proof. beyond_write. Qed.
Lemma beyond_put_remediation r : relates beyond (put_remediation r).
Proof. beyond_write. Qed.
#[export] Hint Resolve beyond_uuid4 beyond_outbox beyond_put_incident beyond_put_verification
  beyond_put_remediation : relates.

Section Platform.
Context {PY : Pydantic} {HA : Hashing} {TO : ServiceTopology} {DI : Digests}.
Context (cfg : ServiceConfig) (max_attempts : Z) (config : IncidentConfig) (criteria : StoppingCriteria).

Lemma beyond_evidence now v n role l : relates beyond (insert_verification_evidence now v n role l).
Proof. induction l as [|e l IH]; simpl; relates_auto; try apply IH. beyond_write. Qed.
Lemma beyond_transition now i to c r e : relates beyond (transition_with_event now i to c r e).
Proof. unfold transition_with_event, transition_incident_status, status_changed_event. relates_auto. Qed.
Local Hint Resolve beyond_evidence beyond_transition : relates.

#[export] Instance beyond_respected : Respected cfg beyond.
Proof.
  constructor; try typeclasses eauto; try (intros; solve [auto with relates | beyond_write]).
  intros. unfold _request_verification, insert_verification, _timeline. relates_auto; beyond_write.
Qed.

Lemma remediation_beyond d d' : remediation_command cfg d d' -> beyond d d'.
Proof. apply commands_respect. typeclasses eauto. Qed.

Lemma verification_beyond d d' : verification_command max_attempts d d' -> beyond d d'.
Proof.
  assert (forall now row, relates beyond (Core._start now row)) as Hs
    by (intros; unfold Core._start, Core._event; relates_auto).
  assert (forall now row dec, relates beyond (Core._finalize max_attempts now row dec)) as Hf.
  { intros. unfold Core._finalize, Core._apply, Core._apply_failure, Core._closure, Core._event,
      Core._move, count_firing_alerts. relates_auto. }
  destruct 1 as [now i|now i owner lease|now t s ids at_ _]; apply atomically_relates;
    try typeclasses eauto.
  - unfold Core.start, Core._lock. relates_auto.
  - unfold Core.claim_due, Core._lock. relates_auto.
  - unfold Core.record_observation, Core._lock, Core.insert_observation.
    relates_auto; beyond_write.
Qed.

(** ** Each service is the other services' bystander *)

Lemma along_open E s s' :
  forallb (fun e => is_open e.1) E = true -> rtc (along E) s s' -> is_open s' = true -> is_open s = true.
Proof.
  intros HE Hr Ho. destruct Hr as [s|s t s' Hst _]; [done|].
  rewrite forallb_forall in HE. by apply (HE (s, t)), list_elem_of_In.
Qed.

Definition avoids (E : edges) (s : IncidentStatus) : bool :=
  forallb (fun e => negb (bool_decide (e.1 = s)) && negb (bool_decide (e.2 = s))) E.

Lemma along_avoids E s a b :
  avoids E s = true -> rtc (along E) a b -> (b = s <-> a = s).
Proof.
  intros HE Hr. induction Hr as [a|a c b Hac _ IH]; [done|]. rewrite IH.
  unfold avoids in HE. rewrite forallb_forall in HE.
  specialize (HE (a, c) ltac:(by apply list_elem_of_In)). simpl in HE.
  rewrite andb_true_iff, !negb_true_iff, !bool_decide_eq_false in HE. destruct HE. done.
Qed.

Lemma walks_bystander E d d' :
  forallb (fun e => is_open e.1) E = true -> keyed d -> walks E d d' ->
  alerts d' = alerts d -> processed_commands d' = processed_commands d ->
  evidence_refs d' = evidence_refs d -> (uuid_supply d <= uuid_supply d')%N -> bystander d d'.
Proof.
  intros HE Hk Hw Ha Hp He Hn. destruct (Hw Hk) as (Hk' & W & N).
  split_and!; try done.
  - intros i [r Hr]. destruct (W _ _ Hr) as (r' & -> & _). eauto.
  - intros i r' Hr'. destruct (incidents d !! i) as [r|] eqn:Hr; [|rewrite N in Hr'; done].
    destruct (W _ _ Hr) as (q & Hq & Hid & Hkey & _ & Hrtc).
    assert (q = r') as -> by congruence. exists r. split_and!; try done.
    by apply along_open with E.
Qed.

Lemma walks_onlooker E d d' :
  avoids E INVESTIGATING = true -> keyed d -> walks E d d' -> beyond d d' -> onlooker d d'.
Proof.
  intros HE Hk Hw (_ & _ & He & H1 & H2 & H3 & H4 & H5 & Hn). destruct (Hw Hk) as (Hk' & W & N).
  split_and!; try done; [by rewrite He| |].
  - intros i r Hr. destruct (W _ _ Hr) as (r' & Hr' & Hid & _ & Ha & Hrtc). exists r'.
    split_and!; try done. by apply along_avoids with E.
  - intros i r' Hr' Hr. by rewrite (N _ Hr) in Hr'.
Qed.

Lemma remediation_beside d d' :
  keyed d -> remediation_command cfg d d' -> bystander d d' /\ onlooker d d'.
Proof.
  intros Hk Hc. pose proof (remediation_walks cfg _ _ Hc) as Hw. pose proof (remediation_beyond _ _ Hc) as Hb.
  split; [|by apply (walks_onlooker REMEDIATION_EDGES)]. pose proof Hb as (? & ? & ? & _ & _ & _ & _ & _ & ?).
  by apply (walks_bystander REMEDIATION_EDGES).
Qed.

Lemma verification_beside d d' :
  keyed d -> verification_command max_attempts d d' -> bystander d d' /\ onlooker d d'.
Proof.
  intros Hk Hc. pose proof (verification_walks max_attempts _ _ Hc) as Hw.
  pose proof (verification_beyond _ _ Hc) as Hb.
  split; [|by apply (walks_onlooker VERIFICATION_EDGES)]. pose proof Hb as (? & ? & ? & _ & _ & _ & _ & _ & ?).
  by apply (walks_bystander VERIFICATION_EDGES).
Qed.

(** ** Investigations *)

Definition INVESTIGATION_EDGES : edges :=
  [(TRIAGING, INVESTIGATING); (VERIFICATION_FAILED, INVESTIGATING);
   (INVESTIGATING, RCA_READY); (INVESTIGATING, ESCALATED)].

Lemma walks_put E d d' inc inc' :
  incidents d !! i_id inc = Some inc -> incidents d' = <[i_id inc := inc']> (incidents d) ->
  walked E inc inc' -> walks E d d'.
Proof.
  intros Hi He Hw Hk. unfold keyed. rewrite He. split_and!.
  - intros n r [[<- <-]|[_ Hn]]%lookup_insert_Some; [apply Hw|by apply Hk].
  - intros n r Hn. destruct (base.decide (i_id inc = n)) as [<-|Hne].
    + rewrite lookup_insert_eq. assert (r = inc) as -> by congruence. eauto.
    + rewrite lookup_insert_ne by done. eauto using walked_refl.
  - intros n Hn. rewrite lookup_insert_ne; [done|]. intros <-. congruence.
Qed.

Lemma walked_moved E now to closes inc :
  along E (i_status inc) to -> walked E inc (moved_row now to closes inc).
Proof. intros He. split_and!; simpl; [done|done|lia|by apply rtc_once]. Qed.

(** The incidents after an investigation ended. *)
Lemma walks_ended now d d' inc to :
  (to = RCA_READY \/ to = ESCALATED) -> incidents d !! i_id inc = Some inc ->
  incidents d' = (if bool_decide (i_status inc = INVESTIGATING)
                  then <[i_id inc := moved_row now to false inc]> (incidents d) else incidents d) ->
  walks INVESTIGATION_EDGES d d'.
Proof.
  intros Hto Hi He. case_bool_decide as Hs; [|by apply walks_same].
  eapply walks_put; [exact Hi|exact He|]. apply walked_moved. rewrite Hs.
  unfold along, INVESTIGATION_EDGES. destruct Hto as [-> | ->]; set_solver.
Qed.

Lemma GInv_keyed d : GInv d -> keyed d.
Proof. intros HI n r Hn. by apply (gi_incidents _ HI). Qed.

Lemma atomically_walks {A} (m : Tx A) d :
  (forall a d', m d = Ok (a, d') -> walks INVESTIGATION_EDGES d d') ->
  walks INVESTIGATION_EDGES d (atomically m d).2.
Proof. intros Hm. unfold atomically. destruct (m d) as [[a d']|e] eqn:E; [by eapply Hm|done]. Qed.

Lemma inc_insert_links now h rel l : relates same_incidents (insert_links now h rel l).
Proof.
  assert (forall k, relates same_incidents (insert_link k)) as Hl by (unfold insert_link; relates_auto).
  induction l as [|e l IH]; simpl; [relates_auto|].
  apply relates_bind; [typeclasses eauto|apply Hl|intros _; apply IH].
Qed.
Lemma inc_apply_updates now i acc l s : relates same_incidents (apply_updates now i acc s l).
Proof.
  assert (forall s u, relates same_incidents (apply_update now i acc s u)) as Hu.
  { intros. unfold apply_update, put_hypothesis. relates_auto; apply inc_insert_links. }
  revert s. induction l as [|u l IH]; intros s; simpl; [relates_auto|].
  apply relates_bind; [typeclasses eauto|apply Hu|intros s'; apply IH].
Qed.
Lemma inc_append now row k n p c l : relates same_incidents (_append_step now row k n p c l).
Proof. unfold _append_step. relates_auto. Qed.
Lemma inc_fenced i owner : relates same_incidents (_fenced i owner).
Proof. unfold _fenced, InvestigationService._lock. relates_auto. Qed.
Local Hint Resolve inc_apply_updates inc_append inc_fenced : relates.
Lemma inc_apply now i o n c b : relates same_incidents (apply_hypothesis_updates now i o n c b).
Proof. unfold apply_hypothesis_updates, put_investigation, _accessible_evidence. relates_auto. Qed.
Lemma inc_record now i o k n p c l u t e a s :
  relates same_incidents (record_step now i o k n p c l u t e a s).
Proof. unfold record_step, put_investigation. relates_auto. Qed.
Lemma inc_reject now row n c r u : relates same_incidents (reject_conclusion now row n c r u).
Proof. unfold reject_conclusion, put_investigation. relates_auto. Qed.
Lemma inc_take_lease now i o l : relates same_incidents (take_lease now i o l).
Proof. unfold take_lease, InvestigationService._lock, put_investigation. relates_auto. Qed.
Lemma inc_release now i o : relates same_incidents (release now i o).
Proof. unfold release, InvestigationService._lock, put_investigation. relates_auto. Qed.

Lemma investigation_walks d d' :
  GInv d -> investigation_command criteria d d' -> walks INVESTIGATION_EDGES d d'.
Proof.
  intros HI Hc. pose proof (GInv_keyed _ HI) as Hk.
  assert (forall A (m : Tx A), relates same_incidents m -> walks INVESTIGATION_EDGES d (atomically m d).2) as Hsame.
  { intros A m Hm. apply atomically_walks. intros a d1 Hr. by eapply walks_same, Hm. }
  destruct Hc as [now i mp mn ms b|now i owner lease|now i owner|now i owner k n p c l u t e a s
                 |now i owner n c b _|now i owner n c r|now i owner n o rc dt ir eg c];
    [|rewrite claim_db; apply Hsame, inc_take_lease|apply Hsame, inc_release|apply Hsame, inc_record
     |apply Hsame, inc_apply| |]; apply atomically_walks; intros x d1 Hr.
  - apply request_run in Hr as (inc & Hinc & [(row & _ & -> & _)|(_ & Hst & _ & Hr)]);
      [by apply walks_same| |done].
    pose proof (Hk _ _ Hinc) as <-. apply start_investigation_run in Hr as (_ & (_ & _ & _ & _ & _ & T6) & _); [|done].
    eapply walks_put; [exact Hinc|exact T6|]. split_and!; simpl; [done|done|lia|]. apply rtc_once.
    unfold along, INVESTIGATION_EDGES. change (i_status (started_incident now inc)) with INVESTIGATING.
    apply elem_of_cons in Hst as [->|Hst]; [left|].
    apply list_elem_of_singleton in Hst as ->. right. left.
  - apply complete_run in Hr as (row & acc & Hi & _ & _ & [[_ Hr]|[_ Hr]]);
      [|by eapply walks_same, inc_reject].
    apply accept_run in Hr as (h & s & inc & _ & _ & Hinc & _ & _ & (_ & _ & _ & _ & _ & T6) & _); [|done].
    pose proof (Hk _ _ Hinc) as Hid. rewrite <-Hid in Hinc.
    eapply walks_ended; [by left|exact Hinc|exact T6].
  - apply escalate_closes in Hr as (row & row1 & p & d2 & _ & _ & _ & _ & _ & Hr & Hq); [|done].
    apply close_run in Hr as (inc & Hinc & (_ & _ & _ & _ & _ & T6) & _); [|done].
    pose proof (Hk _ _ Hinc) as Hid. rewrite <-Hid in Hinc.
    apply quiet_unchanged in Hq as (_ & _ & _ & _ & _ & Q6). rewrite <-Q6 in T6.
    eapply walks_ended; [by right|exact Hinc|exact T6].
Qed.

Lemma investigation_framed d d' : investigation_command criteria d d' -> investigation_frame d d'.
Proof.
  destruct 1; [|rewrite claim_db|..]; apply atomically_relates; try typeclasses eauto.
  - apply frame_request.
  - apply frame_take_lease.
  - apply frame_release.
  - apply frame_record_step.
  - apply frame_apply.
  - apply frame_complete.
  - apply frame_escalate.
Qed.

Lemma investigation_beside d d' :
  GInv d -> investigation_command criteria d d' -> bystander d d' /\ idle d d' /\ foreign d d'.
Proof.
  intros HI Hc. pose proof (investigation_walks _ _ HI Hc) as Hw. pose proof (GInv_keyed _ HI) as Hk.
  destruct (investigation_framed _ _ Hc) as [Hf Hn]. split; [|split].
  - apply (walks_bystander INVESTIGATION_EDGES); try done; by rewrite Hf.
  - split; [|done]. rewrite Hf at 1. reflexivity.
  - apply foreign_same; [by rewrite Hf|by rewrite Hf|done|]. intros _. apply (Hw Hk).
Qed.

(** ** Alerts *)

Definition ALERT_EDGES : edges := [(TRIAGING, CANCELLED)].

(** Incidents only walk, and the new ones are TRIAGING. *)
Definition opened (E : edges) (d d' : db) : Prop :=
  keyed d'
  /\ (forall n r, incidents d !! n = Some r -> exists r', incidents d' !! n = Some r' /\ walked E r r')
  /\ (forall n r', incidents d' !! n = Some r' -> incidents d !! n = None ->
        (n < uuid_supply d')%N /\ i_status r' = TRIAGING /\ i_attempt_count r' = 0).

Lemma opened_same E d d' : keyed d -> incidents d' = incidents d -> opened E d d'.
Proof.
  intros Hk H. unfold opened, keyed. rewrite H. split_and!; [done|eauto using walked_refl|congruence].
Qed.

Lemma walks_opened E d d' : keyed d -> walks E d d' -> opened E d d'.
Proof.
  intros Hk Hw. destruct (Hw Hk) as (Hk' & W & N). split_and!; [done|done|].
  intros n r' Hr' Hr. by rewrite (N _ Hr) in Hr'.
Qed.

Lemma alert_effect_opened now c fp d d' res :
  AInv d -> others_same d d' -> alert_effect config now c fp d d' res -> opened ALERT_EDGES d d'.
Proof.
  intros HI [_ Hsup] He.
  assert (keyed d) as Hk by (intros n r Hn; by apply (ai_incidents _ HI)).
  destruct He as [a x _ _ _ _ Hi _|svc env inc created d1 new _ -> _ Hpl _ Hi Hn|new _ -> _ _ Hi _
                 |a m inc inc' _ _ _ _ _ Hinc _ Hi Hinc']; try (by apply opened_same).
  - apply placed_incidents in Hpl as (Hi1 & Hlt & _ & _ & _ & Hold & Hnew).
    2:{ intros i q Hq. destruct (ai_incidents _ HI _ _ Hq). simpl. split; [done|lia]. }
    2:{ apply (ai_open _ HI). }
    simpl in Hi1, Hold, Hnew. unfold opened, keyed. rewrite Hi, Hi1. split_and!.
    + intros n r [[<- <-]|[_ Hr]]%lookup_insert_Some; [done|by apply Hk].
    + intros n r Hr. destruct (base.decide (i_id inc = n)) as [<-|Hne];
        [|rewrite lookup_insert_ne by done; eauto using walked_refl].
      rewrite lookup_insert_eq. exists inc. split; [done|]. destruct created.
      * destruct Hnew as [Hnew _]; [done|]. congruence.
      * destruct Hold as (old & Ho & -> & _); [done|]. simpl in Ho.
        assert (old = r) as -> by congruence. by split_and!.
    + intros n r' [[<- <-]|[_ Hr]]%lookup_insert_Some Hnone; [|congruence].
      destruct created; [|destruct Hold as (old & ? & _); [done|congruence]].
      destruct Hnew as (_ & ? & ?); [done|]. split_and!; [lia|done|done].
  - apply walks_opened; [done|]. pose proof (Hk _ _ Hinc) as <-. eapply walks_put; [exact Hinc|exact Hi|].
    rewrite Hinc'. destruct (bool_decide (count_firing d' (i_id inc) = 0)); simpl; [|apply walked_refl].
    case_bool_decide as Ht; [|apply walked_refl]. split_and!; simpl; [done|done|lia|].
    rewrite Ht. apply rtc_once. unfold along, ALERT_EDGES. left.
Qed.

Lemma alert_opened d d' : AInv d -> alert_command config d d' -> opened ALERT_EDGES d d'.
Proof.
  intros HI Hc. assert (keyed d) as Hk by (intros n r Hn; by apply (ai_incidents _ HI)).
  destruct Hc as [now c _|now c].
  - destruct (alert_command_run config now c d HI) as [->|(res & d2 & _ & -> & Ho & _ & He)];
      [by apply opened_same|by eapply alert_effect_opened].
  - apply opened_same; [done|]. by destruct (evidence_command_run now c d) as (_ & ? & _).
Qed.

Lemma opened_onlooker d d' :
  keyed d -> opened ALERT_EDGES d d' ->
  investigations d' = investigations d -> hypotheses d' = hypotheses d ->
  evidence_links d' = evidence_links d -> investigation_steps d' = investigation_steps d ->
  rca_reports d' = rca_reports d ->
  (forall k r, evidence_refs d !! k = Some r -> evidence_refs d' !! k = Some r) ->
  (uuid_supply d <= uuid_supply d')%N -> onlooker d d'.
Proof.
  intros Hk (Hk' & W & N) H1 H2 H3 H4 H5 Hr Hn. split_and!; try done.
  - intros i r Hi. destruct (W _ _ Hi) as (r' & Hi' & ? & _ & ? & Hrtc). exists r'.
    split_and!; try done. by apply along_avoids with ALERT_EDGES.
  - intros i r' Hi' Hi. destruct (N _ _ Hi' Hi) as (? & Hs & ?). split_and!; [by apply Hk'|done|done|].
    by rewrite Hs.
Qed.

Lemma alert_beside d d' :
  AInv d -> alert_command config d d' -> onlooker d d' /\ idle d d' /\ foreign d d'.
Proof.
  intros HI Hc. pose proof (alert_opened _ _ HI Hc) as Hop.
  assert (keyed d) as Hk by (intros n r Hn; by apply (ai_incidents _ HI)).
  assert (keyed d') as Hk' by apply Hop.
  destruct Hc as [now c _|now c].
  - destruct (alert_command_run config now c d HI) as [E|(res & d2 & _ & E & [Ho Hn] & _)].
    + rewrite E. split; [by apply onlooker_incidents|]. by split.
    + rewrite E in *. split; [|split].
      * apply opened_onlooker; try done; by rewrite Ho.
      * split; [|done]. rewrite Ho at 1. reflexivity.
      * apply foreign_same; [by rewrite Ho|by rewrite Ho|done|done].
  - pose proof (evidence_command_run now c d) as (_ & _ & _ & _ & He).
    assert (adds_refs d (atomically (register_evidence_ref now c) d).2) as [[Ho Hn] _]
      by (apply atomically_relates; [typeclasses eauto|apply register_adds]).
    set (d2 := (atomically (register_evidence_ref now c) d).2) in *. split; [|split].
    + apply opened_onlooker; try done; by rewrite Ho.
    + split; [|done]. rewrite Ho at 1. reflexivity.
    + apply foreign_same; [by rewrite Ho|by rewrite Ho|done|done].
Qed.

(** ** Bookkeeping *)

(** The relay marks what it published, a consumer what it processed; and identifiers are
    drawn for what is stored elsewhere. *)
Inductive bookkeeping (d : db) : db -> Prop :=
| bk_published now row : bookkeeping d (atomically (mark_outbox_event_published now row) d).2
| bk_failed row error : bookkeeping d (atomically (mark_outbox_event_publish_failed row error) d).2
| bk_consumed name event : bookkeeping d (atomically (mark_event_consumed name event) d).2
| bk_identifier : bookkeeping d (atomically uuid4 d).2.

(** None of it is a table of a service. *)
Lemma bookkeeping_frame d d' :
  bookkeeping d d' ->
  d' = d <| uuid_supply := uuid_supply d' |> <| outbox_events := outbox_events d' |>
         <| consumed_events := consumed_events d' |>
  /\ (uuid_supply d <= uuid_supply d')%N.
Proof.
  destruct 1 as [now row|row error|name event|];
    unfold atomically, mark_outbox_event_published, mark_outbox_event_publish_failed, update_event, writes,
      mark_event_consumed, reads, mbind, Tx_bind, uuid4.
  1,2,4: split; [by destruct d|simpl; lia].
  destruct (negb _); (split; [by destruct d|simpl; lia]).
Qed.

Lemma bookkeeping_beside d d' :
  keyed d -> bookkeeping d d' -> bystander d d' /\ onlooker d d' /\ idle d d' /\ foreign d d'.
Proof.
  intros Hk [E Hn]%bookkeeping_frame. assert (incidents d' = incidents d) as Ei by (by rewrite E).
  split_and!.
  - split_and!; try (by rewrite E). intros i r'. rewrite Ei. eauto.
  - apply onlooker_incidents; try done; by rewrite E.
  - split; [|done]. rewrite E at 1. reflexivity.
  - apply foreign_same; [by rewrite E|by rewrite E|done|]. by rewrite Ei.
Qed.

(** ** The platform *)

(** One transaction of one of the services, or of the delivery of their events. *)
Inductive platform_step (d d' : db) : Prop :=
| ps_alert : alert_command config d d' -> platform_step d d'
| ps_investigation : investigation_command criteria d d' -> platform_step d d'
| ps_remediation : remediation_command cfg d d' -> platform_step d d'
| ps_verification : verification_command max_attempts d d' -> platform_step d d'
| ps_bookkeeping : bookkeeping d d' -> platform_step d d'.

Definition platform (d : db) : Prop := rtc platform_step empty_db d.

(** A step of the platform is a step of every service's own system. *)
Lemma platform_step_views d d' :
  AInv d -> GInv d -> platform_step d d' ->
  alert_step config d d' /\ investigation_step criteria d d' /\ system_step cfg max_attempts d d'.
Proof.
  intros HA' HG Hs. pose proof (GInv_keyed _ HG) as Hk. destruct Hs as [Hc|Hc|Hc|Hc|Hc].
  - destruct (alert_beside _ _ HA' Hc) as (? & ? & ?).
    split_and!; [by apply as_command|by apply is_other|by apply st_other].
  - destruct (investigation_beside _ _ HG Hc) as (? & ? & ?).
    split_and!; [by apply as_other|by apply is_command|by apply st_other].
  - destruct (remediation_beside _ _ Hk Hc) as [? ?].
    split_and!; [by apply as_other|by apply is_other|by apply st_remediation].
  - destruct (verification_beside _ _ Hk Hc) as [? ?].
    split_and!; [by apply as_other|by apply is_other|by apply st_verification].
  - destruct (bookkeeping_beside _ _ Hk Hc) as (? & ? & ? & ?).
    split_and!; [by apply as_other|by apply is_other|by apply st_other].
Qed.

Lemma platform_run_views d d' :
  AInv d -> GInv d -> rtc platform_step d d' ->
  rtc (alert_step config) d d' /\ rtc (investigation_step criteria) d d'
  /\ rtc (system_step cfg max_attempts) d d' /\ AInv d' /\ GInv d'.
Proof.
  intros HA1 HG1 Hr. induction Hr as [d|d d1 d' Hs _ IH]; [done|].
  destruct (platform_step_views _ _ HA1 HG1 Hs) as (S1 & S2 & S3).
  destruct IH as (R1 & R2 & R3 & ? & ?); [by eapply AInv_step|by apply (step_keeps criteria d)|].
  split_and!; try done; by eapply rtc_l.
Qed.

Lemma platform_inv d : platform d -> AInv d /\ GInv d.
Proof. intros Hp. by destruct (platform_run_views _ _ AInv_empty GInv_empty Hp) as (_ & _ & _ & ? & ?). Qed.

(** The services can be reasoned about one at a time.  A run of the platform, any
    interleaving of the commands of the four services and the bookkeeping of their events, is a run of each service's own
    system, in which the commands of the others are transactions that keep to their
    tables: what was proved of every database one service reaches holds of every
    database the platform reaches. *)
Theorem services_compose d d' :
  platform d -> rtc platform_step d d' ->
  alerted config d /\ investigated criteria d /\ deployed cfg max_attempts d
  /\ rtc (alert_step config) d d' /\ rtc (investigation_step criteria) d d'
  /\ rtc (system_step cfg max_attempts) d d'.
Proof.
  intros Hp Hr. destruct (platform_run_views _ _ AInv_empty GInv_empty Hp) as (? & ? & ? & HA1 & HG1).
  destruct (platform_run_views _ _ HA1 HG1 Hr) as (? & ? & ? & _). done.
Qed.

(** ** The incident state machine *)

Definition LIFECYCLE : edges :=
  ALERT_EDGES ++ INVESTIGATION_EDGES ++ REMEDIATION_EDGES ++ VERIFICATION_EDGES.

(** The machine: incidents are opened in TRIAGING and take one edge at a time. *)
Inductive lifecycle_step (m : gmap uuid IncidentStatus) : gmap uuid IncidentStatus -> Prop :=
| ls_open n : m !! n = None -> lifecycle_step m (<[n := TRIAGING]> m)
| ls_move n a b : m !! n = Some a -> along LIFECYCLE a b -> lifecycle_step m (<[n := b]> m).

Definition statuses (d : db) : gmap uuid IncidentStatus := i_status <$> incidents d.

Lemma lifecycle_path m n a b :
  rtc (along LIFECYCLE) a b -> m !! n = Some a -> rtc lifecycle_step m (<[n := b]> m).
Proof.
  intros Hr. revert m. induction Hr as [a|a c b Hac _ IH]; intros m Hm.
  - by rewrite insert_id.
  - eapply rtc_l; [by eapply ls_move|]. rewrite <-(insert_insert_eq m n b c).
    apply IH. apply lookup_insert_eq.
Qed.

(** From one map to another, key by key. *)
Lemma lifecycle_maps (m' : gmap uuid IncidentStatus) :
  forall m, (forall n a, m !! n = Some a -> exists b, m' !! n = Some b /\ rtc (along LIFECYCLE) a b) ->
  (forall n b, m' !! n = Some b -> m !! n = None -> b = TRIAGING) -> rtc lifecycle_step m m'.
Proof.
  intros m Hold Hnew.
  assert (forall l : list uuid, NoDup l -> (forall n, n ∈ l -> is_Some (m' !! n)) ->
            exists m1, rtc lifecycle_step m m1 /\ (forall n, n ∈ l -> m1 !! n = m' !! n)
              /\ (forall n, ~ n ∈ l -> m1 !! n = m !! n)) as Hl.
  { induction l as [|k l IH]; intros Hnd Hin.
    - exists m. split_and!; [done|by intros n ?%elem_of_nil|done].
    - apply NoDup_cons in Hnd as [Hk Hnd].
      destruct (IH Hnd ltac:(intros n ?; apply Hin; by right)) as (m1 & Hr & H1 & H2).
      destruct (Hin k ltac:(left)) as [b Hb]. exists (<[k := b]> m1). split_and!.
      + etransitivity; [exact Hr|]. specialize (H2 k Hk). destruct (m !! k) as [a|] eqn:Ea.
        * destruct (Hold _ _ Ea) as (b' & Hb' & Hp). assert (b' = b) as -> by congruence.
          by eapply lifecycle_path.
        * rewrite (Hnew _ _ Hb Ea). apply rtc_once, ls_open. congruence.
      + intros n [->|Hn]%elem_of_cons; [by rewrite lookup_insert_eq|].
        rewrite lookup_insert_ne; [auto|]. by intros <-.
      + intros n Hn. rewrite lookup_insert_ne; [apply H2; set_solver|set_solver]. }
  destruct (Hl (map_to_list m').*1) as (m1 & Hr & H1 & H2).
  - apply NoDup_fst_map_to_list.
  - intros n ([k b] & -> & Hn%elem_of_map_to_list)%list_elem_of_fmap. eauto.
  - replace m' with m1; [done|]. apply map_eq. intros n.
    destruct (m' !! n) as [b|] eqn:E.
    + rewrite H1; [done|]. apply list_elem_of_fmap. exists (n, b). split; [done|].
      by apply elem_of_map_to_list.
    + rewrite H2.
      * destruct (m !! n) as [a|] eqn:Ea; [|done]. destruct (Hold _ _ Ea) as (? & ? & _). congruence.
      * intros ([k b] & -> & Hn%elem_of_map_to_list)%list_elem_of_fmap. simpl in E. congruence.
Qed.

Lemma opened_mono E F d d' : (forall e, e ∈ E -> e ∈ F) -> opened E d d' -> opened F d d'.
Proof.
  intros HEF (Hk & W & N). split_and!; [done| |done]. intros n r Hr.
  destruct (W _ _ Hr) as (r' & Hr' & ? & ? & ? & Hrtc). exists r'. split; [done|]. split_and!; try done.
  eapply rtc_subrel; [|exact Hrtc]. intros a b. apply HEF.
Qed.

Lemma step_opened d d' : AInv d -> GInv d -> platform_step d d' -> opened LIFECYCLE d d'.
Proof.
  intros HA1 HG1 Hs. pose proof (GInv_keyed _ HG1) as Hk. unfold LIFECYCLE. destruct Hs as [Hc|Hc|Hc|Hc|Hc].
  - eapply opened_mono; [|by apply alert_opened]. set_solver.
  - eapply opened_mono; [|apply walks_opened; [done|by apply investigation_walks]]. set_solver.
  - eapply opened_mono; [|apply walks_opened; [done|by eapply remediation_walks]]. set_solver.
  - eapply opened_mono; [|apply walks_opened; [done|by eapply verification_walks]]. set_solver.
  - apply opened_same; [done|]. apply bookkeeping_frame in Hc as [E _]. by rewrite E.
Qed.

Lemma opened_steps d d' :
  opened LIFECYCLE d d' -> rtc lifecycle_step (statuses d) (statuses d').
Proof.
  intros (_ & W & N). unfold statuses. apply lifecycle_maps.
  - intros n a (r & <- & Hr)%lookup_fmap_Some. destruct (W _ _ Hr) as (r' & Hr' & _ & _ & _ & Hp).
    exists (i_status r'). rewrite lookup_fmap, Hr'. done.
  - intros n b (r' & <- & Hr')%lookup_fmap_Some Hn. rewrite lookup_fmap in Hn.
    apply fmap_None in Hn. by apply (N _ _ Hr' Hn).
Qed.

(** C3: the platform refines the incident state machine.  Whatever the services do, in
    whatever order, the statuses of the incidents change as the abstract machine
    allows: an incident is opened in TRIAGING and from then on takes the edges of the
    table, one after the other. *)
Theorem platform_refines_lifecycle d d' :
  platform d -> rtc platform_step d d' -> rtc lifecycle_step (statuses d) (statuses d').
Proof.
  intros Hp Hr. destruct (platform_inv _ Hp) as [HA1 HG1]. clear Hp. revert HA1 HG1.
  induction Hr as [d|d d1 d' Hs _ IH]; intros HA1 HG1; [done|].
  etransitivity; [by apply opened_steps, step_opened|].
  destruct (platform_run_views _ _ HA1 HG1 (rtc_once _ _ Hs)) as (_ & _ & _ & ? & ?). auto.
Qed.
End Platform.
