(* ===== verification/AuditTrail.v ===== *)
(** * The audit trail of an incident

    Every change of an incident's status is recorded by an event of the outbox, written in
    the same transaction.  [audited d] says that the recorded moves of every incident are
    the path of the lifecycle from TRIAGING to the status it has; every command of the
    services keeps it, read off the calls it makes. *)
From S2P Require Import Prelude PyFloat Json Enums Correlation VerificationDomain Catalog.
From S2P Require Import RemediationDomain Uuid InvestigationDomain InvestigationRules Policy.
From S2P Require Import Store TxLogic RemediationLifecycle RemediationService RemediationProofs.
From S2P Require Import RemediationSafety RemediationExample RemediationProgress.
From S2P Require Import IncidentRepository AlertIdentity IncidentService IncidentProofs IncidentSafety.
From S2P Require Import EvidenceService.
From S2P Require Import InvestigationService InvestigationProofs InvestigationInvariant.
From S2P Require Import InvestigationKeeps InvestigationSafety.
From S2P Require Import VerificationService VerificationProofs VerificationSafety IncidentWalk Platform.
Local Open Scope Z_scope.

(** ** The recorded moves *)

Definition move_of (n : uuid) (e : OutboxEventRow) : option Transition :=
  match oe_payload e with
  | PIncidentStatusChanged p =>
      if bool_decide (oe_aggregate_id e = n) && bool_decide (oe_event_type e = "IncidentStatusChanged")
      then Some {| t_at := oe_occurred_at e; t_from := isc_from_status p;
                   t_to := isc_to_status p; t_reason := isc_reason p |}
      else None
  | _ => None
  end.
Definition trail (n : uuid) (d : db) : list Transition := omap (move_of n) (outbox_events d).

Definition numbered_outbox (d : db) : Prop :=
  map oe_sequence (outbox_events d) = seqZ 1 (Z.of_nat (length (outbox_events d))).

Lemma order_by_sorted {A} (key : A -> Z) (l : list A) m :
  map key l = seqZ m (Z.of_nat (length l)) -> order_by key l = l.
Proof.
  revert m. induction l as [|a l IH]; intros m H; [done|]. simpl in *.
  rewrite (seqZ_cons m) in H by lia. injection H as Ha Hl.
  replace (Z.pred _) with (Z.of_nat (length l)) in Hl by lia. unfold order_by. simpl.
  fold (order_by key l). rewrite (IH _ Hl). destruct l as [|b l]; [done|]. simpl in *.
  rewrite seqZ_cons in Hl by lia. injection Hl as Hb _. case_match; [done|].
  exfalso. rewrite ?Z.leb_gt, ?Z.ltb_ge in *. lia.
Qed.

(** What the code answers is the trail. *)
Lemma incident_transitions_trail n d : numbered_outbox d -> incident_transitions n d = trail n d.
Proof. intros H. unfold incident_transitions. by rewrite (order_by_sorted _ _ _ H). Qed.

(** The moves [l] lead from [s] to [t] along the edges of the lifecycle. *)
Fixpoint replays (s : IncidentStatus) (l : list Transition) (t : IncidentStatus) : Prop :=
  match l with
  | [] => s = t
  | m :: l' => exists u, t_from m = IncidentStatus_value s /\ t_to m = IncidentStatus_value u
                 /\ along LIFECYCLE s u /\ replays u l' t
  end.

Lemma replays_app s l t l' u : replays s l t -> replays t l' u -> replays s (l ++ l') u.
Proof.
  revert s. induction l as [|m l IH]; simpl; intros s; [by intros ->|].
  intros (v & ? & ? & ? & ?) ?. exists v. eauto.
Qed.

Lemma status_value_inj s t : IncidentStatus_value s = IncidentStatus_value t -> s = t.
Proof. by destruct s, t. Qed.

Lemma replays_split s l l' t u : replays s (l ++ l') u -> replays s l t -> replays t l' u.
Proof.
  revert s. induction l as [|m l IH]; simpl; intros s; [by intros ? <-|].
  intros (v & _ & Hv & _ & H) (w & _ & Hw & _ & H'). assert (v = w) as -> by (apply status_value_inj; congruence).
  eauto.
Qed.

(** ** Databases whose trails are complete *)

Record audited (d : db) : Prop := {
  au_keyed : keyed d;
  au_fresh : forall n, is_Some (incidents d !! n) -> (n < uuid_supply d)%N;
  au_numbered : numbered_outbox d;
  au_trail : forall n, match incidents d !! n with
               | Some r => replays TRIAGING (trail n d) (i_status r)
               | None => trail n d = []
               end;
}.

(** A change that keeps the trails complete, only adds to them, and drops no incident. *)
Definition audits (d d' : db) : Prop :=
  audited d -> audited d' /\ forall n, trail n d `prefix_of` trail n d'
    /\ (is_Some (incidents d !! n) -> is_Some (incidents d' !! n)).

#[export] Instance audits_preorder : PreOrder audits.
Proof.
  split; [by intros d Hd|]. intros d1 d2 d3 H1 H2 Hd. destruct (H1 Hd) as [Hd2 P1], (H2 Hd2) as [Hd3 P2].
  split; [done|]. intros n. destruct (P1 n), (P2 n). split; [by transitivity (trail n d2)|auto].
Qed.

(** No incident is written and no move recorded. *)
Definition still (d d' : db) : Prop :=
  incidents d' = incidents d /\ (uuid_supply d <= uuid_supply d')%N
  /\ (numbered_outbox d -> numbered_outbox d') /\ forall n, trail n d' = trail n d.

#[export] Instance still_preorder : PreOrder still.
Proof.
  split; [by intros d|]. intros d1 d2 d3 (I1 & S1 & N1 & T1) (I2 & S2 & N2 & T2).
  split_and!; [congruence|lia|auto|]. intros n. by rewrite T2.
Qed.

Lemma still_audits d d' : still d d' -> audits d d'.
Proof.
  intros (Hi & Hn & Ho & Ht) [K F N T]. split; [constructor|]; unfold keyed; rewrite ?Hi; auto.
  - intros n Hs. specialize (F n Hs). lia.
  - intros n. rewrite Ht. apply T.
  - intros n. split; [by rewrite Ht|done].
Qed.

Lemma still_writes f :
  (forall d, incidents (f d) = incidents d /\ uuid_supply (f d) = uuid_supply d /\ outbox_events (f d) = outbox_events d) ->
  relates still (writes f).
Proof.
  intros H. apply relates_writes. intros d. destruct (H d) as (Hi & Hn & Ho).
  split_and!; [done|lia|unfold numbered_outbox; by rewrite Ho|]. intros n. unfold trail. by rewrite Ho.
Qed.

Lemma still_uuid4 : relates still uuid4.
Proof. intros d a d' [-> ->]%uuid4_Ok. split_and!; simpl; [done|lia|done|done]. Qed.

Definition is_status_change (p : payload) : bool :=
  match p with PIncidentStatusChanged _ => true | _ => false end.

Lemma seqZ_succ m n : 0 <= n -> seqZ m (n + 1) = seqZ m n ++ [m + n].
Proof. intros H. rewrite seqZ_app by lia. f_equal. Qed.

Lemma outbox_run now et at_ ai ci p d u d' :
  insert_outbox_event now et at_ ai ci p d = Ok (u, d') ->
  incidents d' = incidents d /\ (uuid_supply d <= uuid_supply d')%N
  /\ (numbered_outbox d -> numbered_outbox d')
  /\ exists e, outbox_events d' = outbox_events d ++ [e] /\ oe_event_type e = et /\ oe_aggregate_id e = ai
       /\ oe_payload e = p /\ oe_occurred_at e = now.
Proof.
  unfold insert_outbox_event. intros H. tx_inv. simpl. split_and!; [done|lia| |by eexists].
  unfold numbered_outbox. simpl. intros Hn. rewrite map_app, length_app, Hn. simpl.
  rewrite Nat2Z.inj_add. change (Z.of_nat 1) with 1. rewrite seqZ_succ by lia.
  do 2 f_equal. lia.
Qed.

Lemma still_outbox now et at_ ai ci p :
  is_status_change p = false -> relates still (insert_outbox_event now et at_ ai ci p).
Proof.
  intros Hp d u d' (Hi & Hs & Hn & e & Ho & _ & _ & He & _)%outbox_run. split_and!; [done|done|done|].
  intros n. unfold trail. rewrite Ho, omap_app. simpl. unfold move_of at 2. rewrite He.
  destruct p; try done; by rewrite app_nil_r.
Qed.
#[export] Hint Resolve still_uuid4 still_outbox still_writes : relates.

(** ** Programs that hold a row *)

(** The row in hand has the status that is stored. *)
Definition in_hand (inc : IncidentRow) (d : db) : Prop :=
  exists r, incidents d !! i_id inc = Some r /\ i_status r = i_status inc.

Definition audits_from {A} (inc : IncidentRow) (m : Tx A) : Prop :=
  forall d a d', in_hand inc d -> m d = Ok (a, d') -> audits d d'.

Lemma af_relates {A} inc (m : Tx A) : relates audits m -> audits_from inc m.
Proof. intros Hm d a d' _ Hr. by eapply Hm. Qed.
Lemma relates_still_audits {A} (m : Tx A) : relates still m -> relates audits m.
Proof. intros Hm d a d' Hr. by eapply still_audits, Hm. Qed.
Lemma af_still {A} inc (m : Tx A) : relates still m -> audits_from inc m.
Proof. intros Hm. by apply af_relates, relates_still_audits. Qed.

Lemma in_hand_still inc d d' : still d d' -> in_hand inc d -> in_hand inc d'.
Proof. intros [Hi _] (r & Hr & Hs). exists r. by rewrite Hi. Qed.

Lemma af_before {A B} inc (m : Tx A) (k : A -> Tx B) :
  relates still m -> (forall a, audits_from inc (k a)) -> audits_from inc (m ≫= k).
Proof.
  intros Hm Hk d b d' Hh (a & d1 & H1 & H2)%bind_Ok. specialize (Hm _ _ _ H1).
  transitivity d1; [by apply still_audits|]. eapply Hk; [|exact H2]. by eapply in_hand_still.
Qed.
Lemma af_after {A B} inc (m : Tx A) (k : A -> Tx B) :
  audits_from inc m -> (forall a, relates audits (k a)) -> audits_from inc (m ≫= k).
Proof.
  intros Hm Hk d b d' Hh (a & d1 & H1 & H2)%bind_Ok. transitivity d1; [by eapply Hm|by eapply Hk].
Qed.

(** The row a transaction reads by its key. *)
Lemma audits_read {A} n e (k : IncidentRow -> Tx A) :
  (forall inc, audits_from inc (k inc)) ->
  relates audits (found ← reads (fun d => incidents d !! n); incident ← must found e; k incident).
Proof.
  intros Hk d b d' (f & d1 & H1 & H2)%bind_Ok Hd. apply reads_Ok in H1 as [-> ->].
  apply bind_Ok in H2 as (inc & d1 & H1 & H2). apply must_Ok in H1 as [Hn ->].
  eapply (Hk inc); [|exact H2|exact Hd]. exists inc. split; [|done]. by rewrite (au_keyed _ Hd _ _ Hn).
Qed.

(** A row is written back with the status it has. *)
Lemma audited_rewrite d inc :
  in_hand inc d -> audits d (d <| incidents ::= <[i_id inc := inc]> |>).
Proof.
  intros (r & Hr & Hs) [K F N T].
  split; [|intros n; split; [done|]; simpl; rewrite lookup_insert_is_Some'; auto]. constructor; simpl.
  - unfold keyed. simpl. intros n q [[<- <-]|[_ Hn]]%lookup_insert_Some; [done|by apply K].
  - intros n. rewrite lookup_insert_is_Some. intros [<-|[_ Hn]]; [|by apply F]. apply F. by exists r.
  - exact N.
  - intros n. change (trail n _) with (trail n d). destruct (decide (i_id inc = n)) as [<-|Hne].
    + rewrite lookup_insert_eq, <-Hs. specialize (T (i_id inc)). by rewrite Hr in T.
    + rewrite lookup_insert_ne by done. apply T.
Qed.

Lemma in_hand_rewrite d inc : in_hand inc (d <| incidents ::= <[i_id inc := inc]> |>).
Proof. exists inc. simpl. by rewrite lookup_insert_eq. Qed.

(** A new incident is TRIAGING under a key that was never used. *)
Lemma audited_created d inc :
  incidents d !! i_id inc = None -> (i_id inc < uuid_supply d)%N -> i_status inc = TRIAGING ->
  audits d (d <| incidents ::= <[i_id inc := inc]> |>).
Proof.
  intros Hn Hlt Hs [K F N T].
  split; [|intros n; split; [done|]; simpl; rewrite lookup_insert_is_Some'; auto]. constructor; simpl.
  - unfold keyed. simpl. intros n q [[<- <-]|[_ Hq]]%lookup_insert_Some; [done|by apply K].
  - intros n. rewrite lookup_insert_is_Some. intros [<-|[_ Hq]]; [done|by apply F].
  - exact N.
  - intros n. change (trail n _) with (trail n d). specialize (T n). destruct (decide (i_id inc = n)) as [<-|Hne].
    + rewrite lookup_insert_eq, Hs. rewrite Hn in T. by rewrite T.
    + by rewrite lookup_insert_ne by done.
Qed.

(** A move and the event that records it, whatever is written between them. *)
Lemma moved_and_told now inc to closes from reason d inc' d1 d2 u d3 :
  in_hand inc d -> along LIFECYCLE (i_status inc) to -> from = i_status inc ->
  transition_incident_status inc to now closes d = Ok (Some inc', d1) -> still d1 d2 ->
  status_changed_event now inc' from reason d2 = Ok (u, d3) ->
  audits d d3 /\ (audited d -> in_hand inc' d3 /\ i_id inc' = i_id inc /\ i_status inc' = to).
Proof.
  intros (r & Hr & Hs) He -> Ht (Hi2 & Hn2 & Ho2 & Ht2) Hev.
  unfold transition_incident_status, put_incident in Ht. tx_inv. rewrite Hr in *.
  destruct (i_version r =? i_version inc); tx_inv.
  apply outbox_run in Hev as (Hi3 & Hn3 & Ho3 & e & Hoe & Hty & Hag & Hpl & _).
  set (row := r <| i_status := to |> <| i_version := i_version inc + 1 |> <| i_updated_at := now |>
               <| i_closed_at ::= (fun c => if closes then Some now else c) |>) in *.
  assert (incidents d3 = <[i_id r := row]> (incidents d)) as Hi by (by rewrite Hi3, Hi2).
  assert (forall n, trail n d3 = trail n d ++ (if decide (i_id r = n) then
            [{| t_at := oe_occurred_at e; t_from := IncidentStatus_value (i_status inc);
                t_to := IncidentStatus_value to; t_reason := reason |}] else [])) as Htr.
  { intros n. unfold trail. rewrite Hoe, omap_app. fold (trail n d2). rewrite Ht2.
    change (trail n (d <| incidents ::= <[i_id r := row]> |>)) with (trail n d). f_equal. simpl.
    unfold move_of. rewrite Hpl, Hag, Hty. simpl.
    rewrite andb_true_r. change (i_id row) with (i_id r).
    destruct (decide (i_id r = n)); [by rewrite bool_decide_eq_true_2|by rewrite bool_decide_eq_false_2]. }
  split.
  - intros [K F N T]. pose proof (K _ _ Hr) as Hid. split; [constructor|].
    + unfold keyed. rewrite Hi. intros n q [[<- <-]|[_ Hq]]%lookup_insert_Some; [done|by apply K].
    + simpl in *. intros n. rewrite Hi, lookup_insert_is_Some. intros [<-|[_ Hq]].
      * specialize (F (i_id r)). rewrite Hid in *. specialize (F ltac:(by exists r)). lia.
      * specialize (F n Hq). lia.
    + by apply Ho3, Ho2.
    + intros n. rewrite Htr, Hi. specialize (T n). destruct (decide (i_id r = n)) as [<-|Hne].
      * rewrite lookup_insert_eq. rewrite Hid in *. rewrite Hr in T. eapply replays_app; [exact T|].
        rewrite Hs. simpl. by exists to.
      * rewrite lookup_insert_ne by done. by rewrite app_nil_r.
    + intros n. rewrite Htr, Hi. split; [by apply prefix_app_r|]. rewrite lookup_insert_is_Some'. auto.
  - intros [K _ _ _]. pose proof (K _ _ Hr) as Hid. split_and!; [|by simpl|done].
    exists row. split; [|done]. rewrite Hi. apply lookup_insert_eq.
Qed.

Lemma af_transition {A} now inc to closes reason conflict (k : IncidentRow -> Tx A) :
  along LIFECYCLE (i_status inc) to ->
  (forall inc', i_id inc' = i_id inc -> i_status inc' = to -> audits_from inc' (k inc')) ->
  audits_from inc (transition_with_event now inc to closes reason conflict ≫= k).
Proof.
  intros He Hk d b d' Hh (inc' & d1 & H1 & H2)%bind_Ok Hd. unfold transition_with_event in H1.
  apply bind_Ok in H1 as (o & d0 & Ht & H1). destruct o as [row|]; [|by apply raise_Ok in H1].
  apply bind_Ok in H1 as (u & d2 & Hev & H1). apply ret_Ok in H1 as [<- <-].
  destruct (moved_and_told _ _ _ _ _ _ _ _ _ _ _ _ Hh He eq_refl Ht (reflexivity d0) Hev) as [Ha Hrow].
  destruct (Hrow Hd) as (Hh' & Hid & Hs). revert Hd. change (audits d d').
  transitivity d1; [exact Ha|]. by eapply Hk.
Qed.

#[export] Hint Extern 1 (is_status_change _ = false) => reflexivity : relates.
#[export] Hint Extern 1 (forall d, incidents _ = _ /\ _) => intros; split_and!; reflexivity : relates.

Lemma still_put_remediation r : relates still (put_remediation r).
Proof. unfold put_remediation. auto with relates. Qed.
Lemma still_put_verification v : relates still (put_verification v).
Proof. unfold put_verification. auto with relates. Qed.
Lemma still_put_investigation r : relates still (put_investigation r).
Proof. unfold put_investigation. auto with relates. Qed.
#[export] Hint Resolve still_put_remediation still_put_verification still_put_investigation : relates.

Ltac quietly := solve [relates_auto].
(** What comes first leaves the incidents alone. *)
Ltac past := apply relates_bind; [typeclasses eauto|apply relates_still_audits; quietly|intros ?]; cbv zeta.

(** ** Remediation *)

Section Remediation.
Context {PY : Pydantic} {HA : Hashing} {TO : ServiceTopology} {DI : Digests}.
Context (cfg : ServiceConfig).

Ltac helper := intros; unfold _ticket, RemediationService._view, RemediationService._lock, _latest_execution,
  insert_approval, insert_remediation, RemediationService._context, _record_decision,
  RemediationService._transition, RemediationService._timeline, RemediationService._event,
  put_remediation, insert_execution, put_execution; relates_auto.

Lemma still_view row : relates still (RemediationService._view row). Proof. helper. Qed.
Lemma still_lock i : relates still (RemediationService._lock i). Proof. helper. Qed.
Lemma still_latest i : relates still (_latest_execution i). Proof. helper. Qed.
Lemma still_approval a : relates still (insert_approval a). Proof. helper. Qed.
Lemma still_remediation r : relates still (insert_remediation r). Proof. helper. Qed.
Lemma still_context now inc p t : relates still (_context now inc p t). Proof. helper. Qed.
Lemma still_record_decision now row dec ctx : relates still (_record_decision now row dec ctx).
Proof. helper. Qed.
Lemma still_rem_transition now row to e a j v : relates still (RemediationService._transition now row to e a j v).
Proof. helper. Qed.
Lemma still_timeline now row e f t a j v : relates still (RemediationService._timeline now row e f t a j v).
Proof. helper. Qed.
Lemma still_event now row e a o : relates still (RemediationService._event now row e a o). Proof. helper. Qed.
Lemma still_put_execution x : relates still (put_execution x). Proof. helper. Qed.
Lemma still_insert_execution x : relates still (insert_execution x). Proof. helper. Qed.
Lemma still_ticket row x m : relates still (_ticket row x m). Proof. helper. Qed.
Local Hint Resolve still_view still_lock still_latest still_approval still_remediation still_context
  still_record_decision still_rem_transition still_timeline still_event still_put_execution
  still_insert_execution still_ticket : relates.
Lemma still_interrupt now row x o l : relates still (_interrupt now row x o l).
Proof. unfold _interrupt, put_remediation. relates_auto. Qed.
Lemma still_start_attempt now row e o l : relates still (_start_attempt now row e o l).
Proof. unfold _start_attempt, put_remediation. relates_auto. Qed.
Lemma still_evidence now v n role l : relates still (insert_verification_evidence now v n role l).
Proof. induction l as [|e l IH]; simpl; relates_auto; apply IH. Qed.
Local Hint Resolve still_evidence : relates.
Lemma still_request_verification now row e : relates still (_request_verification cfg now row e).
Proof. unfold _request_verification, insert_verification, put_verification, put_remediation. relates_auto. Qed.
Local Hint Resolve still_interrupt still_start_attempt still_request_verification : relates.

Lemma audits_lock_incident {A} n (k : IncidentRow -> Tx A) :
  (forall inc, audits_from inc (k inc)) -> relates audits (_lock_incident n ≫= k).
Proof.
  intros Hk d b d' (inc & d1 & H1 & H2)%bind_Ok. unfold _lock_incident in H1.
  eapply (audits_read n (IncidentNotFoundError (str_uuid n)) k); [done|].
  apply bind_Ok in H1 as (f & d2 & H0 & H1). apply bind_Ok. exists f, d2. split; [exact H0|].
  apply bind_Ok. by exists inc, d1.
Qed.

Lemma af_move_incident {A} now inc froms to reason (k : () -> Tx A) :
  (forall s, s ∈ froms -> along LIFECYCLE s to) -> (forall u, relates still (k u)) ->
  audits_from inc (RemediationService._move_incident now inc froms to reason ≫= k).
Proof.
  intros Hs Hk. apply af_after; [|intros u; by apply relates_still_audits].
  unfold RemediationService._move_incident. case_bool_decide as Hin.
  - apply af_transition; [by apply Hs|]. intros inc' _ _. apply af_still. quietly.
  - apply af_still. quietly.
Qed.

Ltac edge := let s := fresh in let Hs := fresh in intros s Hs; unfold along, LIFECYCLE, REMEDIATION_EDGES; set_solver.
Ltac audit_step :=
  match goal with
  | |- relates audits (_lock_incident _ ≫= _) => apply audits_lock_incident; intros ?
  | |- relates audits (_ ≫= _) =>
      apply relates_bind; [typeclasses eauto|apply relates_still_audits; quietly|intros ?]
  | |- relates audits (match ?x with _ => _ end) => destruct x
  | |- relates audits _ => apply relates_still_audits; quietly
  | |- audits_from _ (RemediationService._move_incident _ _ _ _ _ ≫= _) =>
      apply af_move_incident; [edge|intros ?; quietly]
  | |- audits_from _ (match ?x with _ => _ end) => destruct x
  | |- audits_from _ (_ ≫= _) => apply af_before; [quietly|intros ?]
  | |- audits_from _ _ => apply af_still; quietly
  end.
Ltac audit := intros; repeat (cbv zeta; audit_step).

Lemma af_route now row inc dec drow : audits_from inc (_route now row inc dec drow).
Proof. unfold _route. audit. Qed.
Lemma af_finish_cancelled now row inc e a r to et dec :
  to = ESCALATED \/ to = RCA_READY -> audits_from inc (_finish_cancelled now row inc e a r to et dec).
Proof. intros [-> | ->]; unfold _finish_cancelled; audit. Qed.
Lemma af_finish_failed now row inc c t a : audits_from inc (_finish_failed now row inc c t a).
Proof. unfold _finish_failed. audit. Qed.
Lemma af_settle_success now row inc x e a r : audits_from inc (_settle_success cfg now row inc x e a r).
Proof. unfold _settle_success. audit. Qed.
Lemma af_settle_failure now row inc x e a o r : audits_from inc (_settle_failure now row inc x e a o r).
Proof.
  unfold _settle_failure. apply af_before; [quietly|intros _].
  case_match; [audit|apply af_finish_failed].
Qed.
Lemma af_helper {A B} inc (m : Tx A) (k : A -> Tx B) :
  audits_from inc m -> (forall a, relates still (k a)) -> audits_from inc (m ≫= k).
Proof. intros Hm Hk. apply af_after; [done|]. intros a. by apply relates_still_audits. Qed.

Lemma audits_propose now p key corr : relates audits (propose cfg now p key corr).
Proof.
  unfold propose. audit_step. audit_step. case_match; [audit|]. cbv zeta.
  do 5 (apply af_before; [quietly|intros ?]). apply af_before; [quietly|]. intros [row1 drow].
  apply af_after; [apply af_route|]. audit.
Qed.
Lemma audits_decide now i approver roles approve hash pid comment :
  relates audits (decide_approval now i approver roles approve hash pid comment).
Proof.
  unfold decide_approval. do 2 audit_step. do 3 (audit_step; [audit|]). do 2 audit_step.
  cbv zeta. do 2 (audit_step; [audit|]). do 3 audit_step. cbv zeta. audit_step; [audit|].
  apply af_helper; [apply af_finish_cancelled; by left|]. intros; quietly.
Qed.
Lemma audits_expire now i : relates audits (expire_one cfg now i).
Proof.
  unfold expire_one. audit_step. audit_step; [audit|]. do 2 audit_step. do 2 audit_step.
  apply af_helper; [apply af_finish_cancelled; by left|]. intros; quietly.
Qed.
Lemma audits_cancel now i a r : relates audits (cancel now i a r).
Proof.
  unfold cancel. audit_step. audit_step; [|audit]. audit_step.
  apply af_helper; [apply af_finish_cancelled; by right|]. intros; quietly.
Qed.
Lemma audits_claim now i o l : relates audits (claim_execution now i o l).
Proof.
  unfold claim_execution. audit_step. audit_step; [audit|]. audit_step. audit_step; [audit|]. audit_step.
  cbv zeta. audit_step.
  match goal with |- audits_from _ (match ?x with _ => _ end) => destruct x as [[code text]|] end; [|audit].
  apply af_helper; [|intros; quietly].
  case_match; [apply af_finish_cancelled; by left|apply af_finish_failed].
Qed.
Lemma audits_complete now x o oc e r err re :
  relates audits (complete_execution cfg now x o oc e r err re).
Proof.
  unfold complete_execution. do 3 audit_step. do 3 (audit_step; [audit|]). cbv zeta. audit_step.
  apply af_helper; [|intros; quietly].
  case_match; [apply af_settle_success|apply af_settle_failure].
Qed.
Lemma audits_baseline now i o v e : relates audits (record_baseline now i o v e).
Proof. unfold record_baseline. audit. Qed.
Lemma audits_switch now s e a r : relates audits (set_kill_switch now s e a r).
Proof. unfold set_kill_switch. audit. Qed.

Lemma remediation_audits d d' : remediation_command cfg d d' -> audits d d'.
Proof.
  destruct 1; apply atomically_relates; try typeclasses eauto;
    [apply audits_propose|apply audits_decide|apply audits_expire|apply audits_cancel|apply audits_claim
    |apply audits_complete|apply audits_baseline|apply audits_switch].
Qed.
End Remediation.

(** ** Verification *)

Section Verification.
Context {PY : Pydantic} {HA : Hashing} {TO : ServiceTopology} {DI : Digests}.
Context (max_attempts : Z).

Local Hint Resolve still_evidence : relates.
Lemma still_verification_event now row e : relates still (Core._event now row e).
Proof. unfold Core._event. relates_auto. Qed.
Lemma still_closure now i e r row : relates still (Core._closure now i e r row).
Proof. unfold Core._closure. relates_auto. Qed.
Lemma still_verification_lock i : relates still (Core._lock i).
Proof. unfold Core._lock. relates_auto. Qed.
Lemma still_observation o : relates still (Core.insert_observation o).
Proof. unfold Core.insert_observation. relates_auto. Qed.
Local Hint Resolve still_verification_event still_closure still_verification_lock still_observation : relates.
Lemma still_started now row : relates still (Core._start now row).
Proof. unfold Core._start. relates_auto. Qed.
Local Hint Resolve still_started : relates.

Lemma af_apply now row inc st :
  i_status inc = VERIFYING -> audits_from inc (Core._apply max_attempts now row inc st).
Proof.
  intros Hs. assert (forall to, to = RESOLVED \/ to = VERIFICATION_FAILED \/ to = ESCALATED ->
                       along LIFECYCLE (i_status inc) to) as He.
  { intros to. rewrite Hs. unfold along, LIFECYCLE, VERIFICATION_EDGES. set_solver. }
  unfold Core._apply, Core._apply_failure, Core._move, count_firing_alerts.
  destruct st; (apply af_transition; [apply He; auto|intros inc' _ Hs']; try (apply af_still; quietly)).
  all: apply af_before; [quietly|intros n]; case_match; [apply af_still; quietly|cbv zeta].
  all: apply af_transition; [rewrite Hs'; unfold along, LIFECYCLE, VERIFICATION_EDGES; set_solver|].
  all: intros inc2 _ _; apply af_still; quietly.
Qed.

Lemma audits_finalize now row dec : relates audits (Core._finalize max_attempts now row dec).
Proof.
  intros d b d' Hr Hd. enough (audits d d') as H by (by apply H). unfold Core._finalize in Hr. cbv zeta in Hr.
  apply bind_Ok in Hr as (x & d1 & H1 & Hr). apply reads_Ok in H1 as [-> ->]. unfold id in Hr.
  apply bind_Ok in Hr as (inc & d1 & H1 & Hr). apply must_Ok in H1 as [Hinc ->].
  apply bind_Ok in Hr as (rem & d1 & H1 & Hr). apply must_Ok in H1 as [_ ->].
  apply bind_Ok in Hr as (row2 & d1 & H1 & Hr).
  assert (relates audits (put_verification row2 ;; Core._event now row2 "VerificationCompleted" ;;
                          mret row2)) as Hend by (apply relates_still_audits; quietly).
  transitivity d1; [|by eapply Hend]. clear Hr.
  destruct (Core._staleness _ _ _ _) as [stale|] eqn:Est; [by apply ret_Ok in H1 as [_ ->]|].
  assert (i_status inc = VERIFYING) as Hs.
  { unfold Core._staleness in Est. case_match eqn:Ev; [done|]. clear Est.
    by apply negb_false_iff, bool_decide_eq_true in Ev. }
  apply bind_Ok in H1 as (next & d2 & H1 & H2). apply ret_Ok in H2 as [_ ->].
  eapply af_apply; [exact Hs| |exact H1]. exists inc. split; [|done]. by rewrite (au_keyed _ Hd _ _ Hinc).
Qed.

Lemma verification_audits d d' : verification_command max_attempts d d' -> audits d d'.
Proof.
  assert (forall {A} (m : Tx A), relates audits m -> audits d (atomically m d).2) as Hat.
  { intros A m Hm. apply atomically_relates; [typeclasses eauto|done]. }
  assert (forall {A B} (m : Tx A) (k : A -> Tx B), relates still m ->
            (forall a, relates audits (k a)) -> relates audits (m ≫= k)) as Hbind.
  { intros A B m k Hm Hk. apply relates_bind; [typeclasses eauto|by apply relates_still_audits|done]. }
  destruct 1 as [now i|now i owner lease|now ticket sample ids at_ _]; apply Hat.
  - apply relates_still_audits. unfold Core.start. quietly.
  - unfold Core.claim_due. apply Hbind; [quietly|intros row0].
    apply Hbind; [quietly|intros row].
    do 2 (case_match; [apply relates_still_audits; quietly|]).
    case_match; [|apply relates_still_audits; quietly].
    apply Hbind; [quietly|intros latest]. apply relates_bind; [typeclasses eauto|apply audits_finalize|].
    intros ?. apply relates_still_audits. quietly.
  - unfold Core.record_observation. apply Hbind; [quietly|intros row].
    case_match; [apply relates_still_audits; quietly|].
    do 3 (apply Hbind; [quietly|intros ?]). cbv zeta.
    do 3 (apply Hbind; [quietly|intros ?]).
    case_match; [apply audits_finalize|apply relates_still_audits; quietly].
Qed.
End Verification.

(** ** Investigations *)

Section Investigation.
Context {PY : Pydantic} {HA : Hashing} {TO : ServiceTopology} {DI : Digests}.
Context (criteria : StoppingCriteria).

Lemma still_insert_links now h rel l : relates still (insert_links now h rel l).
Proof.
  assert (forall k, relates still (insert_link k)) as Hl by (unfold insert_link; relates_auto).
  induction l as [|e l IH]; simpl; [relates_auto|].
  apply relates_bind; [typeclasses eauto|apply Hl|intros _; apply IH].
Qed.
Lemma still_put_hypothesis h : relates still (put_hypothesis h).
Proof. unfold put_hypothesis. auto with relates. Qed.
Lemma still_append now row k n p c l : relates still (_append_step now row k n p c l).
Proof. unfold _append_step. relates_auto. Qed.
Lemma still_fenced i owner : relates still (_fenced i owner).
Proof. unfold _fenced, InvestigationService._lock. relates_auto. Qed.
Lemma still_accessible row : relates still (_accessible_evidence row).
Proof. unfold _accessible_evidence. relates_auto. Qed.
Lemma still_report r : relates still (insert_report r).
Proof. unfold insert_report. relates_auto. Qed.
Local Hint Resolve still_insert_links still_put_hypothesis still_append still_fenced still_accessible
  still_report : relates.
Lemma still_apply_updates now i acc l s : relates still (apply_updates now i acc s l).
Proof.
  assert (forall s u, relates still (apply_update now i acc s u)) as Hu.
  { intros. unfold apply_update. relates_auto. }
  revert s. induction l as [|u l IH]; intros s; simpl; [relates_auto|].
  apply relates_bind; [typeclasses eauto|apply Hu|intros s'; apply IH].
Qed.
Local Hint Resolve still_apply_updates : relates.

Lemma af_leave now inc to reason :
  to = RCA_READY \/ to = ESCALATED ->
  audits_from inc (InvestigationService._move_incident now inc to reason).
Proof.
  intros Hto. unfold InvestigationService._move_incident. case_bool_decide as Hs; simpl.
  - apply af_transition; [|intros; apply af_still; quietly].
    rewrite Hs. unfold along, LIFECYCLE, INVESTIGATION_EDGES. destruct Hto as [-> | ->]; set_solver.
  - apply af_still. quietly.
Qed.

(** The end of an investigation: its incident is read, left, and an event written. *)
Lemma audits_leave {A} now n e to reason (k : () -> Tx A) :
  to = RCA_READY \/ to = ESCALATED -> (forall u, relates still (k u)) ->
  relates audits (found ← reads (fun d => incidents d !! n); incident ← must found e;
                  u ← InvestigationService._move_incident now incident to reason; k u).
Proof.
  intros Hto Hk. apply audits_read. intros inc. apply af_after; [by apply af_leave|].
  intros u. by apply relates_still_audits.
Qed.

Lemma still_insert_investigation r : relates still (insert_investigation r).
Proof. unfold insert_investigation. relates_auto. Qed.

Lemma audits_start now inc mp mn ms b :
  i_status inc ∈ STARTS_FROM -> audits_from inc (start_investigation now inc mp mn ms b).
Proof.
  intros Hfrom d o d' (r & Hr & Hs) H. unfold start_investigation in H. cbv zeta in H.
  set (inc1 := inc <| i_attempt_count := i_attempt_count inc + 1 |>) in *.
  apply bind_Ok in H as ([] & d1 & H1 & H). unfold put_incident in H1. apply writes_Ok in H1 as ->.
  assert (in_hand inc1 d) as Hh by (by exists r).
  pose proof (audited_rewrite d inc1 Hh) as Hput. pose proof (in_hand_rewrite d inc1) as Hh1.
  apply bind_Ok in H as (m & d2 & Ht & H). apply bind_Ok in H as (inc2 & d3 & H1 & H).
  apply must_Ok in H1 as [-> ->]. apply bind_Ok in H as (iid & d4 & Hu & H).
  apply bind_Ok in H as ([] & d5 & Hi & H). apply bind_Ok in H as ([] & d6 & Hev & H).
  assert (still d2 d5) as Hst.
  { transitivity d4; [by eapply still_uuid4|by eapply still_insert_investigation]. }
  assert (along LIFECYCLE (i_status inc1) INVESTIGATING) as He.
  { change (i_status inc1) with (i_status inc). unfold along. apply elem_of_cons in Hfrom as [->|Hfrom];
      [|apply list_elem_of_singleton in Hfrom as ->]; refine (proj1 (bool_decide_eq_true _) _); vm_compute; reflexivity. }
  destruct (moved_and_told _ _ _ _ _ _ _ _ _ _ _ _ Hh1 He eq_refl Ht Hst Hev) as [Ha _].
  etransitivity; [exact Hput|]. etransitivity; [exact Ha|]. apply still_audits.
  assert (relates still (insert_outbox_event now "InvestigationStarted" "Investigation" iid (Some (i_id inc))
    (PInvestigationStarted
       {| isp_investigation_id := iid; isp_incident_id := i_id inc;
          isp_attempt_number := i_attempt_count inc + 1; isp_model_provider := mp;
          isp_model_name := mn |}) ;;
    mret {| si_investigation_id := iid; si_incident_id := i_id inc; si_created := true |})) as Hend by quietly.
  by eapply Hend.
Qed.

Lemma audits_request now i mp mn ms b : relates audits (request_investigation now i mp mn ms b).
Proof.
  unfold request_investigation. apply audits_read. intros inc.
  do 2 (apply af_before; [quietly|intros ?]). case_match; [apply af_still; quietly|].
  case_bool_decide as Hfrom; simpl; [|apply af_still; quietly].
  apply af_before; [unfold count_firing_alerts; quietly|intros n].
  case_match; [apply af_still; quietly|by apply audits_start].
Qed.

Lemma audits_accept now row n c r hs sn : relates audits (accept_conclusion now row n c r hs sn).
Proof.
  unfold accept_conclusion. do 8 past. apply audits_leave; [by left|]. intros u. quietly.
Qed.

Lemma audits_conclude now i owner n c r : relates audits (complete criteria now i owner n c r).
Proof.
  unfold complete. do 5 past. destruct (unmet_of _ _ _ _ _); [apply audits_accept|].
  apply relates_still_audits. unfold reject_conclusion. quietly.
Qed.

Lemma audits_escalate now i owner n o rc dt ir eg c :
  relates audits (escalate now i owner n o rc dt ir eg c).
Proof.
  unfold escalate, assert_. do 6 past. apply audits_leave; [by right|]. intros u. quietly.
Qed.

Lemma investigation_audits d d' : investigation_command criteria d d' -> audits d d'.
Proof.
  destruct 1; [|rewrite claim_db|..]; apply atomically_relates; try typeclasses eauto.
  - apply audits_request.
  - apply relates_still_audits. unfold take_lease, InvestigationService._lock. quietly.
  - apply relates_still_audits. unfold release, InvestigationService._lock. quietly.
  - apply relates_still_audits. unfold record_step. quietly.
  - apply relates_still_audits. unfold apply_hypothesis_updates. quietly.
  - apply audits_conclude.
  - apply audits_escalate.
Qed.
End Investigation.

(** ** Alerts *)

Section Alerts.
Context {HA : Hashing} (config : IncidentConfig).

Lemma still_put_alert a : relates still (put_alert a).
Proof. unfold put_alert. auto with relates. Qed.
Local Hint Resolve still_put_alert : relates.
Lemma still_finalize c r : relates still (IncidentService._finalize c r).
Proof. unfold IncidentService._finalize, insert_processed_command, get_processed_command. relates_auto. Qed.
Local Hint Resolve still_finalize : relates.
Lemma still_finish c a : relates still (_finish_resolution c a).
Proof. unfold _finish_resolution. relates_auto. Qed.
Lemma still_find c fp : relates still (find_alert_to_resolve c fp).
Proof. unfold find_alert_to_resolve. relates_auto. Qed.
Lemma still_unlinked now c fp : relates still (insert_unlinked_resolved_alert now c fp).
Proof. unfold insert_unlinked_resolved_alert. relates_auto. Qed.
Lemma still_mark a now : relates still (mark_alert_resolved a now).
Proof. unfold mark_alert_resolved. relates_auto. Qed.
Lemma still_insert_alert now c fp : relates still (insert_alert_or_get_existing now c fp).
Proof. unfold insert_alert_or_get_existing. relates_auto. Qed.
Lemma still_attach now c fp s e a dec inc new : relates still (_attach now c fp s e a dec inc new).
Proof. unfold _attach, link_alert_to_incident. relates_auto. Qed.
Local Hint Resolve still_finish still_find still_unlinked still_mark still_insert_alert still_attach : relates.

Lemma audits_cancel_if_silent now inc n : audits_from inc (cancel_if_silent now inc n).
Proof.
  unfold cancel_if_silent. destruct (_ && _) eqn:E; [|apply af_still; quietly].
  apply andb_true_iff in E as [_ E]. apply bool_decide_eq_true in E.
  apply af_transition; [|intros; apply af_still; quietly].
  rewrite E. unfold along. refine (proj1 (bool_decide_eq_true _) _). vm_compute. reflexivity.
Qed.

Lemma audits_resolved now c fp : relates audits (_process_alert_resolved now c fp).
Proof.
  unfold _process_alert_resolved. past. case_match; [|past; apply relates_still_audits; quietly].
  case_match; [apply relates_still_audits; quietly|]. do 2 past. apply audits_read. intros inc.
  apply af_before; [unfold count_firing_alerts; quietly|intros n]. apply af_before; [quietly|intros _].
  apply af_after; [apply audits_cancel_if_silent|]. intros _. apply relates_still_audits. quietly.
Qed.

(** An incident created: its key was never used. *)
Lemma audits_create now key sev svc env : relates audits (get_or_create_open_incident now key sev svc env).
Proof.
  unfold get_or_create_open_incident. past. case_match; [apply relates_still_audits; quietly|].
  intros d o d' (iid & d1 & [-> ->]%uuid4_Ok & Hr)%bind_Ok.
  set (d1 := d <| uuid_supply ::= N.succ |>) in *. set (inc := new_incident now (uuid_supply d) key sev svc env) in *.
  assert (audits d d1) as H1 by (apply still_audits; by eapply (still_uuid4 d)).
  apply bind_Ok in Hr as (ins & d2 & Hi & Hr).
  assert (still d2 d') as Hend.
  { destruct ins; [by apply ret_Ok in Hr as [_ ->]|]. apply bind_Ok in Hr as (f & d3 & [-> ->]%reads_Ok & Hr).
    apply bind_Ok in Hr as (w & d3 & [_ ->]%must_Ok & [_ ->]%ret_Ok). reflexivity. }
  intros Hd. assert (incidents d !! uuid_supply d = None) as Hfresh.
  { destruct (incidents d !! uuid_supply d) as [q|] eqn:Eq; [|done]. exfalso.
    pose proof (au_fresh _ Hd (uuid_supply d) ltac:(by exists q)). lia. }
  revert Hd. change (audits d d'). etransitivity; [exact H1|]. etransitivity; [|by apply still_audits].
  unfold insert_open_incident in Hi. apply bind_Ok in Hi as (taken & d3 & [-> ->]%reads_Ok & Hi).
  clear Hr. destruct (negb _); [|by apply ret_Ok in Hi as [_ ->]]. apply bind_Ok in Hi as (u & d3 & Hp & [_ ->]%ret_Ok).
  unfold put_incident in Hp. apply writes_Ok in Hp as ->. apply audited_created; [|simpl; lia|done].
  exact Hfresh.
Qed.

Lemma audits_touch now inc : audits_from inc (touch_incident_updated_at now inc).
Proof.
  intros d o d' Hh Hr. unfold touch_incident_updated_at, put_incident in Hr. cbv zeta in Hr.
  apply bind_Ok in Hr as (u & d1 & ->%writes_Ok & [_ ->]%ret_Ok).
  apply (audited_rewrite d (inc <| i_updated_at := now |>)). exact Hh.
Qed.

Lemma audits_incident_for now c svc env dec : relates audits (_incident_for config now c svc env dec).
Proof.
  unfold _incident_for. case_match; [|case_match; [apply relates_still_audits; quietly|apply audits_create]].
  past. apply audits_read. intros inc. apply af_after; [apply audits_touch|].
  intros ?. apply relates_still_audits. quietly.
Qed.

Lemma audits_received now c fp : relates audits (_process_alert_received config now c fp).
Proof.
  unfold _process_alert_received. do 2 past. case_match; [|apply audits_resolved].
  unfold _process_alert_firing. past. case_match. case_match; [apply relates_still_audits; quietly|].
  past. apply relates_bind; [typeclasses eauto|apply audits_incident_for|]. intros [inc new].
  apply relates_still_audits. quietly.
Qed.

Lemma audits_handle now c : relates audits (handle_alert_received config now c).
Proof.
  unfold handle_alert_received, get_processed_command. past. case_match; [apply relates_still_audits; quietly|].
  generalize _MAX_IDEMPOTENCY_RACE_RETRIES. intros n. induction n as [|n IH]; [apply relates_still_audits; simpl; quietly|].
  intros d r d' Hr. simpl in Hr. destruct (_process_alert_received _ _ _ _ d) as [[x d1]|e] eqn:E.
  - injection Hr as <- <-. by eapply audits_received.
  - destruct e; try done. case_match; [by injection Hr as <- <-|by eapply IH].
Qed.

Lemma audits_register now c : relates audits (register_evidence_ref now c).
Proof. apply relates_still_audits. unfold register_evidence_ref, insert_evidence_ref. quietly. Qed.

Lemma alert_audits d d' : alert_command config d d' -> audits d d'.
Proof. destruct 1; apply atomically_relates; try typeclasses eauto; [apply audits_handle|apply audits_register]. Qed.
End Alerts.

(** ** Bookkeeping *)

Lemma move_of_update n e f :
  oe_payload (f e) = oe_payload e -> oe_aggregate_id (f e) = oe_aggregate_id e ->
  oe_event_type (f e) = oe_event_type e -> oe_occurred_at (f e) = oe_occurred_at e -> move_of n (f e) = move_of n e.
Proof. unfold move_of. by intros -> -> -> ->. Qed.

Lemma omap_map_same {A B} (g : A -> option B) (h : A -> A) l :
  (forall a, g (h a) = g a) -> omap g (map h l) = omap g l.
Proof. intros H. induction l as [|a l IH]; csimpl; [done|]. by rewrite H, IH. Qed.

Lemma still_update_event seq f :
  (forall e, oe_sequence (f e) = oe_sequence e /\ oe_payload (f e) = oe_payload e
     /\ oe_aggregate_id (f e) = oe_aggregate_id e /\ oe_event_type (f e) = oe_event_type e
     /\ oe_occurred_at (f e) = oe_occurred_at e) -> relates still (update_event seq f).
Proof.
  intros Hf. unfold update_event. apply relates_writes. intros d. split_and!; simpl; [done|lia| |].
  - unfold numbered_outbox. simpl. rewrite length_map, map_map. intros <-. apply map_ext. intros e.
    case_match; [apply Hf|done].
  - intros n. unfold trail. simpl. apply omap_map_same. intros e. case_match; [|done].
    destruct (Hf e) as (_ & ? & ? & ? & ?). by apply move_of_update.
Qed.

Lemma bookkeeping_audits d d' : bookkeeping d d' -> audits d d'.
Proof.
  destruct 1; apply still_audits, atomically_relates; try typeclasses eauto.
  - by apply still_update_event.
  - by apply still_update_event.
  - unfold mark_event_consumed. quietly.
  - apply still_uuid4.
Qed.

(** ** The platform *)

Section Platform.
Context {PY : Pydantic} {HA : Hashing} {TO : ServiceTopology} {DI : Digests}.
Context (cfg : ServiceConfig) (max_attempts : Z) (config : IncidentConfig) (criteria : StoppingCriteria).

Abbreviation step := (platform_step cfg max_attempts config criteria).

Lemma platform_audits d d' : rtc step d d' -> audits d d'.
Proof.
  induction 1 as [d|d d1 d' Hs _ IH]; [reflexivity|]. etransitivity; [|exact IH].
  destruct Hs as [Hc|Hc|Hc|Hc|Hc];
    [by eapply alert_audits|by eapply investigation_audits|by eapply remediation_audits
    |by eapply verification_audits|by apply bookkeeping_audits].
Qed.

Lemma audited_empty : audited empty_db.
Proof.
  assert (forall n, incidents empty_db !! n = None) as Hn by (intros n; apply lookup_empty).
  constructor; [|intros n [r Hr]; by rewrite Hn in Hr|done|intros n; by rewrite Hn].
  intros n r Hr. by rewrite Hn in Hr.
Qed.

Lemma platform_audited d : platform cfg max_attempts config criteria d -> audited d.
Proof. intros Hd. apply (platform_audits _ _ Hd audited_empty). Qed.

(** C6: The audit trail of an incident is complete.  In every database the platform reaches the
    recorded status changes of an incident are a path of the lifecycle from TRIAGING to its
    status; as the platform goes on they only grow, by a path from the status it had to the
    status it has.  Nothing is recorded of an incident that does not exist. *)
Theorem recorded_moves_replay_the_incident d d' n :
  platform cfg max_attempts config criteria d -> rtc step d d' ->
  match incidents d !! n with
  | None => incident_transitions n d = []
  | Some r =>
      replays TRIAGING (incident_transitions n d) (i_status r)
      /\ exists r' l, incidents d' !! n = Some r'
           /\ incident_transitions n d' = incident_transitions n d ++ l /\ replays (i_status r) l (i_status r')
  end.
Proof.
  intros Hp Hr. pose proof (platform_audited _ Hp) as Hd. destruct (platform_audits _ _ Hr Hd) as [Hd' Hpre].
  rewrite !incident_transitions_trail by (by apply au_numbered).
  pose proof (au_trail _ Hd n) as Ht. destruct (incidents d !! n) as [r|] eqn:E; [|done]. split; [done|].
  destruct (Hpre n) as [[l Hl] [r' E']]; [by exists r|]. pose proof (au_trail _ Hd' n) as Ht'. rewrite Hl in Ht'.
  exists r', l. split_and!; [done|done|]. rewrite E' in Ht'. by eapply replays_split.
Qed.
End Platform.
