(* ===== verification/EventStreams.v ===== *)
(** * Event streams ([packages/events/streams.py], [envelope.py])

    The envelope of an event, the sharded topology, and the interface to the Redis streams:
    the commands the code uses, with their documented effect as laws.  A command that
    raises may have been carried out, its answer lost.  A text written by [json.dumps] is
    kept as its document, as in [Redis]; entry ids are numbers, [0-0] is 0. *)
From S2P Require Import Prelude PyFloat Json Enums VerificationDomain Catalog.
From S2P Require Import RemediationDomain Uuid InvestigationDomain Store TxLogic Prog Redis.
From S2P Require Import RemediationService IncidentRepository AlertIdentity IncidentService.
From S2P Require Import InvestigationService.
From S2P Require Import Executor Runner.
From S2P Require Import AgentContext.
Local Open Scope Z_scope.

(** ** The envelope *)

Record OutboxEventEnvelope := {
  env_event_id : uuid;
  env_event_type : string;
  env_schema_version : Z;
  env_aggregate_type : string;
  env_aggregate_id : uuid;
  env_occurred_at : instant;
  env_correlation_id : option uuid;
  env_causation_id : option uuid;
  env_producer : string;
  env_payload : list (string * json);
}.

(** [model_dump(mode="json")] *)
Definition envelope_json (e : OutboxEventEnvelope) : json :=
  JObj [("event_id", JStr (str_uuid (env_event_id e))); ("event_type", JStr (env_event_type e));
        ("schema_version", JInt (env_schema_version e)); ("aggregate_type", JStr (env_aggregate_type e));
        ("aggregate_id", JStr (str_uuid (env_aggregate_id e)));
        ("occurred_at", json_instant (env_occurred_at e));
        ("correlation_id", opt_uuid_json (env_correlation_id e));
        ("causation_id", opt_uuid_json (env_causation_id e)); ("producer", JStr (env_producer e));
        ("payload", JObj (env_payload e))].

(** [OutboxEventEnvelope.model_validate]: Pydantic's, of which nothing is assumed. *)
Class EnvelopeSchema := { model_validate : json -> result OutboxEventEnvelope }.

(** ** The topology *)

Definition DEFAULT_STREAM_PREFIX : string := "stream:events".
Definition DEFAULT_SHARD_COUNT : Z := 8.
Definition DLQ_SUFFIX : string := "dlq".

(** [int.from_bytes(digest[:8], "big")], the digest in hexadecimal. *)
Definition hex_number (s : string) : Z := default 0 (hex_digits false 0 s).
Definition shard_for_key `{Hashing} (key : string) (shard_count : Z) : result Z :=
  if shard_count =? 0 then Err (ZeroDivisionError "integer modulo by zero")
  else Ok (hex_number (take_str 16 (sha256_hex key)) mod shard_count).

Definition shard_key_for_event (correlation_id : option uuid) (aggregate_id : uuid) : string :=
  str_uuid (default aggregate_id correlation_id).

Definition stream_name_for_shard (prefix : string) (shard : Z) : string := prefix +++ ":" +++ str_Z shard.
Definition stream_name_for_event `{Hashing} (prefix : string) (shard_count : Z)
    (correlation_id : option uuid) (aggregate_id : uuid) : result string :=
  shard <-! shard_for_key (shard_key_for_event correlation_id aggregate_id) shard_count;
  Ok (stream_name_for_shard prefix shard).
Definition all_stream_names (prefix : string) (shard_count : Z) : list string :=
  map (stream_name_for_shard prefix) (seqZ 0 shard_count).
Definition dead_letter_stream_name (prefix : string) : string := prefix +++ ":" +++ DLQ_SUFFIX.
Definition consumer_group_name (purpose : string) : string := "cg:" +++ purpose.

(** ** The streams of the server *)

Definition message : Type := list (string * rtext).
Record Pending := { pe_consumer : string; pe_deliveries : Z }.
(** A consumer group: what it was given last, and what was given but not acknowledged. *)
Record GroupState := { gr_last : Z; gr_pending : gmap Z Pending }.
#[export] Instance GroupState_rebuild : Rebuild GroupState := fun r =>
  Build_GroupState (gr_last r) (gr_pending r).
Record StreamState := { sm_entries : list (Z * message); sm_groups : gmap string GroupState }.
#[export] Instance StreamState_rebuild : Rebuild StreamState := fun r =>
  Build_StreamState (sm_entries r) (sm_groups r).

Definition no_stream : StreamState := {| sm_entries := []; sm_groups := ∅ |}.
Definition new_group : GroupState := {| gr_last := 0; gr_pending := ∅ |}.
Definition at_key (k : string) (m : gmap string StreamState) : StreamState := default no_stream (m !! k).
Definition last_id (st : StreamState) : Z := foldr Z.max 0 (sm_entries st).*1.

(** The effects of the commands. *)
Definition appended (id : Z) (m : message) (st : StreamState) : StreamState :=
  st <| sm_entries ::= (fun l => l ++ [(id, m)]) |>.
(** The entries after the last one given. *)
Definition unread (gr : GroupState) (count : nat) (st : StreamState) : list (Z * message) :=
  take count (List.filter (fun e => gr_last gr <? e.1) (sm_entries st)).
Definition give (c : string) (ids : list Z) (p : gmap Z Pending) : gmap Z Pending :=
  foldr (fun id p => <[id := {| pe_consumer := c;
                                pe_deliveries := match p !! id with
                                                 | Some q => pe_deliveries q + 1
                                                 | None => 1
                                                 end |}]> p) p ids.
Definition given (c : string) (l : list (Z * message)) (gr : GroupState) : GroupState :=
  gr <| gr_last := default (gr_last gr) (last l.*1) |> <| gr_pending ::= give c l.*1 |>.
Definition claimed_by (c : string) (l : list (Z * message)) (gr : GroupState) : GroupState :=
  gr <| gr_pending ::= give c l.*1 |>.
Definition acknowledged (id : Z) (gr : GroupState) : GroupState := gr <| gr_pending ::= delete id |>.
Definition with_group (g : string) (gr : GroupState) (st : StreamState) : StreamState :=
  st <| sm_groups ::= <[g := gr]> |>.
Definition group_of (k g : string) (m : gmap string StreamState) : option GroupState :=
  sm_groups (at_key k m) !! g.
Definition set_group (k g : string) (gr : GroupState) (m : gmap string StreamState)
    : gmap string StreamState := <[k := with_group g gr (at_key k m)]> m.
(** [XAUTOCLAIM]: entries that are pending, from the start on; the scan goes on at the
    next pending id, or is over. *)
Definition claimable (start : Z) (st : StreamState) (gr : GroupState) (next : Z) (l : list (Z * message))
    : Prop :=
  (forall e, e ∈ l -> e ∈ sm_entries st /\ is_Some (gr_pending gr !! e.1) /\ start <= e.1)
  /\ (next = 0 \/ (is_Some (gr_pending gr !! next) /\ forall id, id ∈ l.*1 -> id < next)).

Class StreamServer := {
  server : Type;
  streams : server -> gmap string StreamState;
  XADD : string -> message -> Prog server Z;
  XGROUP_CREATE : string -> string -> Prog server ();
  XREADGROUP : string -> string -> string -> nat -> Prog server (list (Z * message));
  XAUTOCLAIM : string -> string -> string -> Z -> Z -> nat -> Prog server (Z * list (Z * message));
  XPENDING : string -> string -> Z -> Prog server (option Z);
  XACK : string -> string -> Z -> Prog server ();
  (** [json.loads] of a text no modelled [json.dumps] wrote *)
  parse_text : string -> result json;
  XADD_spec : forall k m s r s', XADD k m s = (r, s') ->
    (streams s' = streams s /\ exists e, r = Err e)
    \/ exists id, last_id (at_key k (streams s)) < id
         /\ streams s' = <[k := appended id m (at_key k (streams s))]> (streams s)
         /\ forall x, r = Ok x -> x = id;
  XGROUP_spec : forall k g s r s', XGROUP_CREATE k g s = (r, s') ->
    (streams s' = streams s /\ exists e, r = Err e)
    \/ group_of k g (streams s) = None /\ streams s' = set_group k g new_group (streams s);
  XREADGROUP_spec : forall g c k n s r s', XREADGROUP g c k n s = (r, s') ->
    (streams s' = streams s /\ exists e, r = Err e)
    \/ exists gr, group_of k g (streams s) = Some gr
         /\ let l := unread gr n (at_key k (streams s)) in
            streams s' = set_group k g (given c l gr) (streams s)
            /\ forall x, r = Ok x -> x = l;
  XAUTOCLAIM_spec : forall k g c idle start n s r s', XAUTOCLAIM k g c idle start n s = (r, s') ->
    (streams s' = streams s /\ exists e, r = Err e)
    \/ exists gr next l, group_of k g (streams s) = Some gr
         /\ claimable start (at_key k (streams s)) gr next l
         /\ streams s' = set_group k g (claimed_by c l gr) (streams s)
         /\ forall x, r = Ok x -> x = (next, l);
  XPENDING_spec : forall k g id s r s', XPENDING k g id s = (r, s') ->
    streams s' = streams s
    /\ forall x, r = Ok x -> exists gr, group_of k g (streams s) = Some gr
         /\ x = pe_deliveries <$> gr_pending gr !! id;
  XACK_spec : forall k g id s r s', XACK k g id s = (r, s') ->
    (streams s' = streams s /\ exists e, r = Err e)
    \/ (group_of k g (streams s) = None /\ streams s' = streams s)
    \/ exists gr, group_of k g (streams s) = Some gr
         /\ streams s' = set_group k g (acknowledged id gr) (streams s);
}.

(** [json.loads] *)
Definition parse `{StreamServer} (t : rtext) : result json :=
  match t with Doc j => Ok j | Text s => parse_text s end.
(** [fields["event"]] *)
Definition field (k : string) (m : message) : result rtext :=
  match assoc_get k m with Some t => Ok t | None => Err (KeyError k) end.

(** ** The outbox relay ([packages/events/publisher.py], [apps/worker/main.py])

    Unpublished events are read in the order of their sequence, each is handed to a
    publisher with a few attempts, and each outcome is committed on its own.  The publisher
    is any program over a world of its own; the one of the platform appends to the sharded
    streams.  Reading the clock for the commit may raise, which is a relay that dies between
    publishing and committing.  Waiting, logs and metrics have no counterpart. *)
(** ** The payload column: [model_dump(mode="json")] of each payload *)

Definition juuid (u : uuid) : json := JStr (str_uuid u).
Definition payload_fields (p : payload) : list (string * json) :=
  match p with
  | PIncidentStatusChanged x =>
      [("incident_id", juuid (isc_incident_id x)); ("from_status", JStr (isc_from_status x));
       ("to_status", JStr (isc_to_status x)); ("reason", JStr (isc_reason x));
       ("version", JInt (isc_version x))]
  | PRemediation x =>
      [("remediation_id", juuid (rep_remediation_id x)); ("incident_id", juuid (rep_incident_id x));
       ("action_id", JStr (rep_action_id x)); ("catalog_version", JStr (rep_catalog_version x));
       ("status", JStr (rep_status x)); ("proposal_hash", JStr (rep_proposal_hash x));
       ("actor", JStr (rep_actor x)); ("policy_version", jopt_str (rep_policy_version x));
       ("policy_decision", jopt_str (rep_policy_decision x)); ("detail", rep_detail x)]
  | PVerificationRequested x =>
      [("verification_id", juuid (vrp_verification_id x)); ("remediation_id", juuid (vrp_remediation_id x));
       ("incident_id", juuid (vrp_incident_id x)); ("action_id", JStr (vrp_action_id x));
       ("target_service", JStr (vrp_target_service x)); ("requirements", JArr (vrp_requirements x))]
  | PKillSwitchChanged x =>
      [("scope", JStr (ksp_scope x)); ("engaged", JBool (ksp_engaged x)); ("actor", JStr (ksp_actor x));
       ("reason", jopt_str (ksp_reason x))]
  | PVerification x =>
      [("verification_id", juuid (vep_verification_id x)); ("incident_id", juuid (vep_incident_id x));
       ("remediation_id", juuid (vep_remediation_id x)); ("status", JStr (vep_status x));
       ("policy_version", JStr (vep_policy_version x)); ("claim_attempt", JInt (vep_claim_attempt x));
       ("result", jopt_str (vep_result x)); ("reason", jopt_str (vep_reason x));
       ("next_action", jopt_str (vep_next_action x))]
  | PIncidentClosure x =>
      [("incident_id", juuid (icp_incident_id x)); ("status", JStr (icp_status x));
       ("reason", JStr (icp_reason x)); ("verification_id", opt_uuid_json (icp_verification_id x));
       ("remediation_id", opt_uuid_json (icp_remediation_id x))]
  | PAlertReceived x =>
      [("alert_id", juuid (arp_alert_id x)); ("fingerprint", JStr (arp_fingerprint x));
       ("source", JStr (AlertSource_value (arp_source x))); ("incident_id", juuid (arp_incident_id x))]
  | PIncidentCreated x =>
      [("incident_id", juuid (icr_incident_id x)); ("correlation_key", JStr (icr_correlation_key x));
       ("initial_severity", JStr (AlertSeverity_value (icr_initial_severity x)));
       ("service", JStr (icr_service x)); ("environment", JStr (icr_environment x));
       ("best_candidate_score", JFloat (icr_best_candidate_score x));
       ("matched_signals", strings (icr_matched_signals x))]
  | PAlertCorrelated x =>
      [("alert_id", juuid (acp_alert_id x)); ("incident_id", juuid (acp_incident_id x));
       ("score", JFloat (acp_score x)); ("matched_signals", strings (acp_matched_signals x))]
  | PAlertResolved x =>
      [("alert_id", juuid (alp_alert_id x)); ("incident_id", juuid (alp_incident_id x));
       ("firing_alerts_remaining", JInt (alp_firing_alerts_remaining x))]
  | PEvidenceRefRegistered x =>
      [("evidence_id", juuid (erp_evidence_id x)); ("incident_id", juuid (erp_incident_id x));
       ("evidence_type", JStr (erp_evidence_type x)); ("source_system", JStr (erp_source_system x));
       ("content_hash", JStr (erp_content_hash x))]
  | PInvestigationStarted x =>
      [("investigation_id", juuid (isp_investigation_id x)); ("incident_id", juuid (isp_incident_id x));
       ("attempt_number", JInt (isp_attempt_number x)); ("model_provider", JStr (isp_model_provider x));
       ("model_name", JStr (isp_model_name x))]
  | PInvestigationCompleted x =>
      [("investigation_id", juuid (icm_investigation_id x)); ("incident_id", juuid (icm_incident_id x));
       ("selected_hypothesis_id", juuid (icm_selected_hypothesis_id x));
       ("rca_report_id", juuid (icm_rca_report_id x))]
  | PInvestigationFailed x =>
      [("investigation_id", juuid (ifp_investigation_id x)); ("incident_id", juuid (ifp_incident_id x));
       ("outcome", JStr (ifp_outcome x)); ("reason_code", JStr (ifp_reason_code x))]
  end.

(** No command passes a causation id. *)
Definition _envelope_from_row (row : OutboxEventRow) : OutboxEventEnvelope :=
  {| env_event_id := oe_event_id row; env_event_type := oe_event_type row;
     env_schema_version := oe_schema_version row; env_aggregate_type := oe_aggregate_type row;
     env_aggregate_id := oe_aggregate_id row; env_occurred_at := oe_occurred_at row;
     env_correlation_id := oe_correlation_id row; env_causation_id := None;
     env_producer := oe_producer row; env_payload := payload_fields (oe_payload row) |}.

(** ** The publishers *)

Definition event_message (e : OutboxEventEnvelope) : message := [("event", Doc (envelope_json e))].
Definition stream_of_event `{Hashing} (prefix : string) (shard_count : Z) (e : OutboxEventEnvelope)
    : result string :=
  stream_name_for_event prefix shard_count (env_correlation_id e) (env_aggregate_id e).

Definition publish_to_stream `{Hashing} `{StreamServer} (prefix : string) (shard_count : Z)
    (e : OutboxEventEnvelope) : Prog server () :=
  stream_key ← pure (stream_of_event prefix shard_count e);
  _ ← XADD stream_key (event_message e);
  mret ().

(** [LoggingEventPublisher]: a line in the log. *)
Definition publish_to_log (e : OutboxEventEnvelope) : Prog (list OutboxEventEnvelope) () := fun l =>
  (Ok (), l ++ [e]).

(** ** The relay *)

Definition DEFAULT_MAX_PUBLISH_ATTEMPTS : nat := 3.

Section Relay.
Context {pw cw : Type} (publish : OutboxEventEnvelope -> Prog pw ()).
Context (read_clock : Prog cw instant) (max_publish_attempts : nat).

(** The clock, what is published to, and the database. *)
Definition relay_state : Type := (cw * (pw * db))%type.
Abbreviation Relay := (Prog relay_state).

(** [for attempt in range(1, max_attempts + 1)] *)
Fixpoint _publish_with_retry (attempts : nat) (last_error : option string) (e : OutboxEventEnvelope)
    : Relay (bool * option string) :=
  match attempts with
  | O => mret (false, last_error)
  | S more =>
      r ← attempt (on_right (on_left (publish e)));
      match r with
      | Ok _ => mret (true, None)
      | Err x => _publish_with_retry more (Some (exn_text x)) e
      end
  end.

(** [error or "unknown error"] *)
Definition error_or_unknown (o : option string) : string :=
  match o with Some s => if nonempty s then s else "unknown error" | None => "unknown error" end.

(** One event of the batch: whether it was published. *)
Definition relay_event (row : OutboxEventRow) : Relay bool :=
  outcome ← _publish_with_retry max_publish_attempts None (_envelope_from_row row);
  if outcome.1 : bool then
    now ← on_left read_clock;
    on_right (on_right (transact (mark_outbox_event_published now row))) ;;
    mret true
  else
    on_right (on_right (transact (mark_outbox_event_publish_failed row (error_or_unknown outcome.2)))) ;;
    mret false.

Fixpoint relay_events (rows : list OutboxEventRow) (published_count : Z) : Relay Z :=
  match rows with
  | [] => mret published_count
  | row :: rows' =>
      success ← relay_event row;
      relay_events rows' (if success : bool then published_count + 1 else published_count)
  end.

Definition relay_once (batch_size : nat) : Relay Z :=
  events ← (fun s => (Ok (get_unpublished_outbox_events batch_size s.2.2), s));
  relay_events events 0.
End Relay.

(** ** The stream consumer ([packages/events/consumer.py], [apps/worker/consumer_main.py])

    One consumer reads one stream in one group: it reclaims what is pending for too long,
    reads what is new, and for each message decides by the server's count of deliveries, the
    ledger of consumed events and its handler whether it is dead-lettered, skipped, retried
    or acknowledged.  The handler is any program over a world of its own.  The ledger is an
    interface; the table [consumed_events] implements it.  Any call to the server or the
    ledger may raise, which is a consumer that dies there. *)
Definition DEFAULT_MAX_DELIVERIES : Z := 5.
Definition DEFAULT_CLAIM_MIN_IDLE_MS : Z := 30000.
Definition DEFAULT_BATCH_SIZE : nat := 10.

Inductive DeliveryClass := poison | process.
Definition classify_delivery (delivery_count max_deliveries : Z) : DeliveryClass :=
  if max_deliveries <? delivery_count then poison else process.

Record ConsumerStats := {
  cs_processed : Z;
  cs_duplicates_skipped : Z;
  cs_failures : Z;
  cs_dead_lettered : Z;
}.
#[export] Instance ConsumerStats_rebuild : Rebuild ConsumerStats := fun r =>
  Build_ConsumerStats (cs_processed r) (cs_duplicates_skipped r) (cs_failures r) (cs_dead_lettered r).
Definition no_stats : ConsumerStats :=
  {| cs_processed := 0; cs_duplicates_skipped := 0; cs_failures := 0; cs_dead_lettered := 0 |}.

(** ** The ledger *)

(** [is_duplicate] and [mark_processed]: what was marked is a duplicate from then on, and
    nothing else is.  Marking may raise before or after it took effect. *)
Class Ledger := {
  ledger : Type;
  consumed : ledger -> gset uuid;
  is_duplicate : uuid -> Prog ledger bool;
  mark_processed : uuid -> Prog ledger ();
  is_duplicate_spec : forall e l r l', is_duplicate e l = (r, l') ->
    consumed l' = consumed l /\ forall b, r = Ok b -> b = bool_decide (e ∈ consumed l);
  mark_processed_spec : forall e l r l', mark_processed e l = (r, l') ->
    (consumed l' = consumed l /\ exists x, r = Err x) \/ consumed l' = {[e]} ∪ consumed l;
}.

(** The table of consumed events, for a consumer of this name. *)
Section Table.
Context (consumer_name : string).
Definition consumed_by (d : db) : gset uuid :=
  set_map snd (filter (fun p => p.1 = consumer_name) (consumed_events d)).
Definition make_is_duplicate (event_id : uuid) : Prog db bool := fun d =>
  (Ok (has_consumed_event consumer_name event_id d), d).
Definition make_mark_processed (event_id : uuid) : Prog db () :=
  _ ← transact (mark_event_consumed consumer_name event_id);
  mret ().

Lemma elem_of_consumed e d : e ∈ consumed_by d <-> (consumer_name, e) ∈ consumed_events d.
Proof.
  unfold consumed_by. rewrite elem_of_map. setoid_rewrite elem_of_filter. split.
  - intros ([n x] & -> & [Hn Hin]). simpl in *. by subst n.
  - intros Hin. by exists (consumer_name, e).
Qed.

Lemma table_duplicate e d r d' :
  make_is_duplicate e d = (r, d') ->
  consumed_by d' = consumed_by d /\ forall b, r = Ok b -> b = bool_decide (e ∈ consumed_by d).
Proof.
  intros [= <- <-]. split; [done|]. intros b [= <-]. unfold has_consumed_event.
  apply bool_decide_ext. by rewrite elem_of_consumed.
Qed.
Lemma table_mark e d r d' :
  make_mark_processed e d = (r, d') ->
  (consumed_by d' = consumed_by d /\ exists x, r = Err x) \/ consumed_by d' = {[e]} ∪ consumed_by d.
Proof.
  intros H. right. apply set_eq. intros x. rewrite elem_of_union, elem_of_singleton, !elem_of_consumed.
  unfold make_mark_processed in H.
  apply prog_bind_cases in H as [(y & H & _)|(b & d1 & H & H1)].
  { unfold transact, atomically, mark_event_consumed, mbind, Tx_bind, reads in H.
    by destruct (negb _). }
  apply prog_ret_run in H1 as [_ ->]. unfold transact, atomically, mark_event_consumed in H.
  unfold mbind, Tx_bind, reads, has_consumed_event in H.
  destruct (negb _) eqn:E; injection H as _ <-; simpl.
  - rewrite elem_of_union, elem_of_singleton. naive_solver.
  - apply negb_false_iff, bool_decide_eq_true in E. naive_solver.
Qed.
Definition table_ledger : Ledger := {|
  ledger := db; consumed := consumed_by; is_duplicate := make_is_duplicate;
  mark_processed := make_mark_processed; is_duplicate_spec := table_duplicate;
  mark_processed_spec := table_mark |}.
End Table.

(** ** The consumer *)

Section Consumer.
Context {SV : StreamServer} {ES : EnvelopeSchema} {LG : Ledger} {hs : Type}.
Context (handler : OutboxEventEnvelope -> Prog hs ()).
Context (stream group consumer_name dead_letter_stream : string).
Context (max_deliveries claim_min_idle_ms : Z) (batch_size : nat).

(** The server, the ledger, the handler's world, and the counters of the process. *)
Record ConsumerState := {
  cn_server : server;
  cn_ledger : ledger;
  cn_handler : hs;
  cn_stats : ConsumerStats;
}.

Abbreviation Consumer := (Prog ConsumerState).

Definition on_server {A} (m : Prog server A) : Consumer A := fun s =>
  let '(r, x) := m (cn_server s) in
  (r, {| cn_server := x; cn_ledger := cn_ledger s; cn_handler := cn_handler s; cn_stats := cn_stats s |}).
Definition on_ledger {A} (m : Prog ledger A) : Consumer A := fun s =>
  let '(r, x) := m (cn_ledger s) in
  (r, {| cn_server := cn_server s; cn_ledger := x; cn_handler := cn_handler s; cn_stats := cn_stats s |}).
Definition on_handler {A} (m : Prog hs A) : Consumer A := fun s =>
  let '(r, x) := m (cn_handler s) in
  (r, {| cn_server := cn_server s; cn_ledger := cn_ledger s; cn_handler := x; cn_stats := cn_stats s |}).
Definition count_stat (f : ConsumerStats -> ConsumerStats) : Consumer () := fun s =>
  (Ok (), {| cn_server := cn_server s; cn_ledger := cn_ledger s; cn_handler := cn_handler s;
             cn_stats := f (cn_stats s) |}).

(** [except ResponseError as exc: if "BUSYGROUP" not in str(exc): raise] *)
Definition _ensure_group : Consumer () :=
  r ← attempt (on_server (XGROUP_CREATE stream group));
  match r with
  | Ok _ => mret ()
  | Err (ResponseError m) => if bool_decide (is_Some (String.index 0 "BUSYGROUP" m)) then mret () else throw (ResponseError m)
  | Err e => throw e
  end.

Definition _delivery_count (message_id : Z) : Consumer Z :=
  pending ← on_server (XPENDING stream group message_id);
  mret (default 1 pending).

Definition _ack (message_id : Z) : Consumer () := on_server (XACK stream group message_id).

Definition dead_letter_message (e : OutboxEventEnvelope) (reason : string) : message :=
  [("event", Doc (envelope_json e)); ("original_stream", Text stream); ("original_group", Text group);
   ("reason", Text reason)].
Definition _dead_letter (message_id : Z) (e : OutboxEventEnvelope) (reason : string) : Consumer () :=
  _ ← on_server (XADD dead_letter_stream (dead_letter_message e reason));
  _ack message_id ;;
  count_stat (fun s => s <| cs_dead_lettered ::= Z.succ |>).

(** [OutboxEventEnvelope.model_validate(json.loads(fields["event"]))] *)
Definition envelope_of (m : message) : result OutboxEventEnvelope :=
  text <-! field "event" m;
  j <-! parse text;
  model_validate j.

(** An event that is no duplicate. *)
Definition handle_new (message_id : Z) (envelope : OutboxEventEnvelope) : Consumer () :=
  r ← attempt (on_handler (handler envelope));
  match r with
  | Err (PermanentProcessingError m) => _dead_letter message_id envelope ("permanent_error: " +++ m)
  | Err _ => count_stat (fun s => s <| cs_failures ::= Z.succ |>)
  | Ok _ =>
      on_ledger (mark_processed (env_event_id envelope)) ;;
      _ack message_id ;;
      count_stat (fun s => s <| cs_processed ::= Z.succ |>)
  end.

Definition _handle_message (message_id : Z) (fields : message) : Consumer () :=
  envelope ← pure (envelope_of fields);
  delivery_count ← _delivery_count message_id;
  match classify_delivery delivery_count max_deliveries with
  | poison => _dead_letter message_id envelope "max_deliveries_exceeded"
  | process =>
      duplicate ← on_ledger (is_duplicate (env_event_id envelope));
      if duplicate : bool then
        count_stat (fun s => s <| cs_duplicates_skipped ::= Z.succ |>) ;;
        _ack message_id
      else
        handle_new message_id envelope
  end.

Fixpoint handle_messages (l : list (Z * message)) (handled : Z) : Consumer Z :=
  match l with
  | [] => mret handled
  | (message_id, fields) :: l' =>
      _handle_message message_id fields ;;
      handle_messages l' (handled + 1)
  end.

(** The scan of the pending entries, from a cursor; [None] when the bound on its rounds was
    too small. *)
Fixpoint _reclaim_stale (fuel : nat) (cursor handled : Z) : Consumer (option Z) :=
  match fuel with
  | O => mret None
  | S fuel' =>
      answer ← on_server (XAUTOCLAIM stream group consumer_name claim_min_idle_ms cursor batch_size);
      handled' ← handle_messages answer.2 handled;
      if bool_decide (answer.2 = []) || (answer.1 =? 0) then mret (Some handled')
      else _reclaim_stale fuel' answer.1 handled'
  end.

Definition _read_new : Consumer Z :=
  messages ← on_server (XREADGROUP group consumer_name stream batch_size);
  handle_messages messages 0.

Definition run_once (fuel : nat) : Consumer (option Z) :=
  reclaimed ← _reclaim_stale fuel 0 0;
  match reclaimed with
  | None => mret None
  | Some handled =>
      new ← _read_new;
      mret (Some (handled + new))
  end.
End Consumer.
