(* ===== verification/EventDelivery.v ===== *)
(** * What the consumers and the relay do with the events

    Whatever the handler, the server and the ledger answer: an entry that a group was given
    is pending until its event is in the ledger or its message in the dead-letter stream,
    an event that was handled and marked is not handled again, and the scan of the pending
    entries comes to an end.  The last part is about the relay: an event it marks published
    is on its stream, and the streams get the events in the order of the outbox. *)
From S2P Require Import Prelude PyFloat Json Enums VerificationDomain Catalog.
From S2P Require Import RemediationDomain InvestigationDomain Store TxLogic Prog Redis.
From S2P Require Import RemediationService IncidentRepository AlertIdentity IncidentService.
From S2P Require Import InvestigationService EventStreams.
From stdpp Require Import sorting.
From S2P Require Import RemediationProofs Executor Runner.
From S2P Require Import AgentContext.
Local Open Scope Z_scope.

(** ** The streams, key by key *)

Lemma at_key_set k g gr m k' :
  at_key k' (set_group k g gr m) = if bool_decide (k' = k) then with_group g gr (at_key k m) else at_key k' m.
Proof.
  unfold set_group, at_key. case_bool_decide as E; [by rewrite E, lookup_insert_eq|].
  by rewrite lookup_insert_ne.
Qed.
Lemma at_key_append k id msg m k' :
  at_key k' (<[k := appended id msg (at_key k m)]> m)
  = if bool_decide (k' = k) then appended id msg (at_key k m) else at_key k' m.
Proof.
  unfold at_key. case_bool_decide as E; [by rewrite E, lookup_insert_eq|]. by rewrite lookup_insert_ne.
Qed.

Definition entries_of (k : string) (m : gmap string StreamState) : list (Z * message) :=
  sm_entries (at_key k m).
Lemma entries_set k g gr m k' : entries_of k' (set_group k g gr m) = entries_of k' m.
Proof. unfold entries_of. rewrite at_key_set. case_bool_decide as E; [by rewrite E|done]. Qed.
Lemma entries_append k id msg m k' :
  entries_of k' (<[k := appended id msg (at_key k m)]> m)
  = if bool_decide (k' = k) then entries_of k m ++ [(id, msg)] else entries_of k' m.
Proof. unfold entries_of. rewrite at_key_append. by case_bool_decide. Qed.
Lemma group_set k g gr m : group_of k g (set_group k g gr m) = Some gr.
Proof.
  unfold group_of. rewrite at_key_set, bool_decide_eq_true_2 by done. simpl. by rewrite lookup_insert_eq.
Qed.
Lemma group_append k g k' id msg m :
  group_of k g (<[k' := appended id msg (at_key k' m)]> m) = group_of k g m.
Proof. unfold group_of. rewrite at_key_append. case_bool_decide as E; [by rewrite E|done]. Qed.

(** Ids grow along a stream. *)
Definition ordered (l : list (Z * message)) : Prop := StronglySorted Z.lt (0 :: l.*1).

Lemma last_id_ge (st : StreamState) e : e ∈ sm_entries st -> e.1 <= last_id st.
Proof.
  unfold last_id. induction (sm_entries st) as [|x l IH]; [by intros ?%elem_of_nil|].
  intros [->|He]%elem_of_cons; cbn; [lia|]. specialize (IH He). cbn in IH. lia.
Qed.
Lemma last_id_pos (st : StreamState) : 0 <= last_id st.
Proof. unfold last_id. induction (sm_entries st).*1; simpl; lia. Qed.

Lemma ordered_append st id m :
  ordered (sm_entries st) -> last_id st < id -> ordered (sm_entries (appended id m st)).
Proof.
  unfold ordered. intros Ho Hid. simpl. rewrite fmap_app. simpl.
  change (0 :: (sm_entries st).*1 ++ [id]) with ((0 :: (sm_entries st).*1) ++ [id]).
  apply StronglySorted_app_2; [| done |by repeat constructor].
  intros x y Hx ->%list_elem_of_singleton. pose proof (last_id_pos st).
  apply elem_of_cons in Hx as [->|Hx]; [lia|].
  apply list_elem_of_fmap in Hx as (e & -> & He). pose proof (last_id_ge _ _ He). lia.
Qed.

Lemma ordered_unique l a b : ordered l -> a ∈ l -> b ∈ l -> a.1 = b.1 -> a = b.
Proof.
  unfold ordered. intros Ho Ha Hb E. apply StronglySorted_inv in Ho as [Ho _].
  induction l as [|x l IH]; [by apply elem_of_nil in Ha|]. simpl in Ho.
  apply StronglySorted_inv in Ho as [Ho Hall]. rewrite Forall_forall in Hall.
  apply elem_of_cons in Ha as [->|Ha], Hb as [->|Hb]; [done| | |by apply IH].
  - specialize (Hall b.1 ltac:(apply list_elem_of_fmap; eauto)). lia.
  - specialize (Hall a.1 ltac:(apply list_elem_of_fmap; eauto)). lia.
Qed.

(** What a group is given is the beginning of what it has not read. *)
Lemma unread_spec gr n st e :
  e ∈ unread gr n st -> e ∈ sm_entries st /\ gr_last gr < e.1.
Proof.
  unfold unread. intros He%elem_of_take. destruct He as (i & He & _). apply list_elem_of_lookup_2 in He.
  apply list_elem_of_In, filter_In in He as [Hin Hl]. split; [by apply list_elem_of_In|]. by apply Z.ltb_lt.
Qed.

Lemma filter_ordered l x : ordered l -> ordered (List.filter (fun e : Z * message => x <? e.1) l).
Proof.
  unfold ordered. rewrite !StronglySorted_cons. intros [H0 Ho]. split.
  - rewrite Forall_forall in *. intros y (e & -> & He)%list_elem_of_fmap.
    apply list_elem_of_In, filter_In in He as [He _]. apply H0, list_elem_of_fmap. exists e.
    by rewrite list_elem_of_In.
  - clear H0. induction l as [|e l IH]; [done|]. simpl in *. apply StronglySorted_cons in Ho as [Ha Ho].
    case_match; [|by apply IH]. simpl. apply StronglySorted_cons. split; [|by apply IH].
    rewrite Forall_forall in *. intros y (z & -> & Hz)%list_elem_of_fmap. apply Ha, list_elem_of_fmap.
    exists z. apply list_elem_of_In, filter_In in Hz as [Hz _]. by rewrite list_elem_of_In.
Qed.

(** Everything up to its end was given before or is in it. *)
Lemma unread_complete gr n st e :
  ordered (sm_entries st) -> e ∈ sm_entries st -> e.1 <= default (gr_last gr) (last (unread gr n st).*1) ->
  e.1 <= gr_last gr \/ e ∈ unread gr n st.
Proof.
  intros Ho He Hle. destruct (Z.leb_spec e.1 (gr_last gr)) as [|Hlt]; [by left|right].
  unfold unread in *. set (f := List.filter _ (sm_entries st)) in *.
  assert (ordered f) as Hf by (by apply filter_ordered).
  assert (e ∈ f) as Hin.
  { apply list_elem_of_In, filter_In. rewrite <-list_elem_of_In. split; [done|]. by apply Z.ltb_lt. }
  clearbody f. rewrite <-(take_drop n f) in Hin, Hf. apply elem_of_app in Hin as [|Hd]; [done|]. exfalso.
  destruct (take n f) as [|x l] eqn:Et; [simpl in Hle; lia|].
  destruct (last (x :: l)) as [y|] eqn:Ey; [|by apply last_None in Ey].
  rewrite fmap_last, Ey in Hle. simpl in Hle. unfold ordered in Hf. rewrite fmap_app in Hf.
  apply StronglySorted_cons in Hf as [_ Hf].
  assert (y.1 < e.1); [|lia]. eapply StronglySorted_app_1_elem_of; [exact Hf|..].
  - apply list_elem_of_fmap. exists y. split; [done|]. by apply last_Some_elem_of.
  - apply list_elem_of_fmap. by exists e.
Qed.

Lemma elem_of_give c ids p id : is_Some (give c ids p !! id) <-> id ∈ ids \/ is_Some (p !! id).
Proof.
  induction ids as [|x ids IH]; simpl; [set_solver|].
  destruct (base.decide (id = x)) as [->|Hne].
  - rewrite lookup_insert_eq. split; [intros _; left; left|by eauto].
  - rewrite lookup_insert_ne by done. rewrite IH. set_solver.
Qed.

(** ** Nothing is lost *)

Section Delivery.
Context {SV : StreamServer} {ES : EnvelopeSchema} {LG : Ledger}.
Context (stream group dead_letter_stream : string).

(** The streams and the ledger: what outlives a consumer. *)
Definition bus : Type := (gmap string StreamState * gset uuid)%type.

(** What became of a message: its event is in the ledger, or it was dead-lettered. *)
Definition disposed (b : bus) (m : message) : Prop :=
  exists e, envelope_of m = Ok e
    /\ (env_event_id e ∈ b.2
        \/ exists id reason, (id, dead_letter_message stream group e reason) ∈ entries_of dead_letter_stream b.1).

Record Good (b : bus) : Prop := {
  gd_ordered : ordered (entries_of stream b.1);
  gd_last gr : group_of stream group b.1 = Some gr -> gr_last gr <= last_id (at_key stream b.1);
  gd_accounted gr e : group_of stream group b.1 = Some gr -> e ∈ entries_of stream b.1 ->
    e.1 <= gr_last gr -> is_Some (gr_pending gr !! e.1) \/ disposed b e.2;
}.

(** Entries and ledger only grow. *)
Definition more (b b' : bus) : Prop :=
  (forall k e, e ∈ entries_of k b.1 -> e ∈ entries_of k b'.1) /\ b.2 ⊆ b'.2.
Definition advances (b b' : bus) : Prop := more b b' /\ (Good b -> Good b').
#[local] Instance advances_preorder : PreOrder advances.
Proof.
  split; [by intros b|]. intros b1 b2 b3 [[H1 H2] H3] [[G1 G2] G3]. split; [|by auto].
  split; [by auto|set_solver].
Qed.

Lemma disposed_more b b' m : more b b' -> disposed b m -> disposed b' m.
Proof.
  intros [H1 H2] (e & He & [Hc|(id & reason & Hd)]); exists e; (split; [done|]); [left; set_solver|].
  right. exists id, reason. by apply H1.
Qed.

(** A change of something else. *)
Lemma advances_ledger m c c' : c ⊆ c' -> advances (m, c) (m, c').
Proof.
  intros Hc. assert (more (m, c) (m, c')) as Hm by (by split). split; [done|]. intros [G1 G2 G3].
  split; [done|done|]. intros gr e Hg He Hl. destruct (G3 gr e Hg He Hl) as [?|Hd]; [by left|right].
  by eapply disposed_more.
Qed.

Lemma last_id_append id m st : last_id st < id -> last_id st <= last_id (appended id m st).
Proof.
  unfold last_id. simpl. intros _. rewrite fmap_app, foldr_app.
  assert (forall l : list Z, forall a b, a <= b -> foldr Z.max a l <= foldr Z.max b l) as H.
  { induction l; simpl; intros; [done|]. specialize (IHl _ _ H). lia. }
  apply H. simpl. lia.
Qed.

Lemma append_advances m c k id msg :
  last_id (at_key k m) < id -> advances (m, c) (<[k := appended id msg (at_key k m)]> m, c).
Proof.
  intros Hid. assert (more (m, c) (<[k := appended id msg (at_key k m)]> m, c)) as Hm.
  { split; [|done]. intros k' e He. simpl in *. rewrite entries_append. case_bool_decide; [|done].
    subst k'. apply elem_of_app. by left. }
  split; [done|]. intros [G1 G2 G3]. simpl in *. split; simpl.
  - unfold entries_of. rewrite at_key_append. case_bool_decide as E; [|done]. rewrite <-E in Hid |- *.
    by apply ordered_append.
  - intros gr Hg. rewrite group_append in Hg. rewrite at_key_append. case_bool_decide as E; [|by apply G2].
    rewrite <-E in Hid |- *. transitivity (last_id (at_key stream m)); [by apply G2|by apply last_id_append].
  - intros gr e Hg He Hl. rewrite group_append in Hg. rewrite entries_append in He.
    assert (e ∈ entries_of stream m) as Hin.
    { case_bool_decide as E; [|done]. subst k. apply elem_of_app in He as [?| ->%list_elem_of_singleton]; [done|].
      exfalso. specialize (G2 _ Hg). simpl in Hl. lia. }
    destruct (G3 gr e Hg Hin Hl) as [?|Hd]; [by left|right]. by eapply disposed_more.
Qed.

(** A change of the group only: it must account for what it was given. *)
Lemma group_advances m c gr' :
  (Good (m, c) -> gr_last gr' <= last_id (at_key stream m)) ->
  (forall e, Good (m, c) -> e ∈ entries_of stream m -> e.1 <= gr_last gr' ->
     is_Some (gr_pending gr' !! e.1) \/ disposed (m, c) e.2) ->
  advances (m, c) (set_group stream group gr' m, c).
Proof.
  intros Hlast Hacc.
  assert (more (m, c) (set_group stream group gr' m, c)) as Hm.
  { split; [|done]. intros k e. simpl. by rewrite entries_set. }
  split; [done|]. intros HG. split; simpl.
  - rewrite entries_set. apply HG.
  - intros gr. rewrite group_set. intros [= <-]. unfold last_id.
    change (sm_entries (at_key stream (set_group stream group gr' m)))
      with (entries_of stream (set_group stream group gr' m)).
    rewrite entries_set. by apply Hlast.
  - intros gr e. rewrite group_set, entries_set. intros [= <-] He Hl.
    destruct (Hacc e HG He Hl) as [?|Hd]; [by left|right]. by eapply disposed_more.
Qed.

Lemma given_advances m c name gr n :
  group_of stream group m = Some gr ->
  advances (m, c) (set_group stream group (given name (unread gr n (at_key stream m)) gr) m, c).
Proof.
  intros Hg. apply group_advances; simpl.
  - intros [_ G2 _]. destruct (last _) as [x|] eqn:E; simpl; [|by apply G2].
    apply last_Some_elem_of in E. apply list_elem_of_fmap in E as (e & -> & He).
    apply unread_spec in He as [He _]. by apply last_id_ge.
  - intros e [G1 _ G3] He Hl.
    destruct (unread_complete gr n (at_key stream m) e G1 He Hl) as [Hold|Hnew].
    + destruct (G3 gr e Hg He Hold) as [?|?]; [left|by right]. apply elem_of_give. by right.
    + left. apply elem_of_give. left. apply list_elem_of_fmap. by exists e.
Qed.

Lemma claimed_advances m c name gr l :
  group_of stream group m = Some gr ->
  advances (m, c) (set_group stream group (claimed_by name l gr) m, c).
Proof.
  intros Hg. apply group_advances; simpl.
  - intros [_ G2 _]. by apply G2.
  - intros e [_ _ G3] He Hl. destruct (G3 gr e Hg He Hl) as [?|?]; [left|by right].
    apply elem_of_give. by right.
Qed.

Lemma acknowledged_advances m c id gr msg :
  group_of stream group m = Some gr -> (id, msg) ∈ entries_of stream m -> disposed (m, c) msg ->
  advances (m, c) (set_group stream group (acknowledged id gr) m, c).
Proof.
  intros Hg Hin Hd. apply group_advances; simpl.
  - intros [_ G2 _]. by apply G2.
  - intros e [G1 _ G3] He Hl. destruct (base.decide (e.1 = id)) as [E|Hne].
    + right. assert (e = (id, msg)) as -> by (by eapply ordered_unique). done.
    + rewrite lookup_delete_ne by done. by apply G3.
Qed.

Lemma created_advances m c :
  group_of stream group m = None -> advances (m, c) (set_group stream group new_group m, c).
Proof.
  intros Hg. apply group_advances; simpl; [intros _; apply last_id_pos|].
  intros e [G1 _ _] He Hl. exfalso. unfold ordered in G1. apply StronglySorted_cons in G1 as [G1 _].
  rewrite Forall_forall in G1. specialize (G1 e.1). assert (0 < e.1); [|lia].
  apply G1, list_elem_of_fmap. by exists e.
Qed.

(** ** One message *)

Context {hs : Type} (handler : OutboxEventEnvelope -> Prog hs ()).
Context (consumer_name : string) (max_deliveries claim_min_idle_ms : Z) (batch_size : nat).

Abbreviation state := (ConsumerState (hs := hs)).
Definition bus_of (s : state) : bus := (streams (cn_server s), consumed (cn_ledger s)).
Definition R (s s' : state) : Prop := advances (bus_of s) (bus_of s').
#[local] Instance R_preorder : PreOrder R.
Proof. split; [intros s; unfold R; reflexivity|]. intros s1 s2 s3. unfold R. apply transitivity. Qed.

(** A message of the stream. *)
Definition has_entry (s : state) (e : Z * message) : Prop := e ∈ entries_of stream (streams (cn_server s)).
Lemma has_entry_R s s' e : R s s' -> has_entry s e -> has_entry s' e.
Proof. intros [[H _] _]. apply H. Qed.
Lemma disposed_R s s' m : R s s' -> disposed (bus_of s) m -> disposed (bus_of s') m.
Proof. intros [H _]. by apply disposed_more. Qed.

Lemma same_R s s' : bus_of s' = bus_of s -> R s s'.
Proof. unfold R. intros ->. reflexivity. Qed.

Lemma server_R {A} (m : Prog server A) (s : state) r s' :
  on_server m s = (r, s') -> exists x, m (cn_server s) = (r, x) /\ streams (cn_server s') = streams x
    /\ consumed (cn_ledger s') = consumed (cn_ledger s).
Proof. unfold on_server. destruct (m (cn_server s)) as [r0 x]. intros [= <- <-]. by exists x. Qed.

Lemma delivery_count_R id s r s' : _delivery_count stream group id s = (r, s') -> R s s'.
Proof.
  unfold _delivery_count. intros E.
  assert (forall r1 s1, on_server (XPENDING stream group id) s = (r1, s1) -> R s s1) as Hx.
  { intros r1 s1 (x & Hx & E1 & E2)%server_R. apply XPENDING_spec in Hx as [Hs _].
    apply same_R. unfold bus_of. by rewrite E1, E2, Hs. }
  apply prog_bind_cases in E as [(e & E & _)|(p & s1 & E & E2)]; [by eapply Hx|].
  apply prog_ret_run in E2 as [_ ->]. by eapply Hx.
Qed.

Lemma ack_R id msg s r s' :
  _ack stream group id s = (r, s') -> has_entry s (id, msg) -> disposed (bus_of s) msg -> R s s'.
Proof.
  unfold _ack. intros (x & Hx & E1 & E2)%server_R Hin Hd.
  apply XACK_spec in Hx as [[Hs _]|[[_ Hs]|(gr & Hg & Hs)]].
  1,2: apply same_R; unfold bus_of; by rewrite E1, E2, Hs.
  unfold R, bus_of. rewrite E1, E2, Hs. by eapply acknowledged_advances.
Qed.

Lemma stat_R f s r s' : count_stat f s = (r, s') -> R s s' /\ r = Ok ().
Proof. intros [= <- <-]. split; [by apply same_R|done]. Qed.

Lemma dead_letter_R id msg e reason s r s' :
  _dead_letter stream group dead_letter_stream id e reason s = (r, s') ->
  has_entry s (id, msg) -> envelope_of msg = Ok e -> R s s'.
Proof.
  unfold _dead_letter. intros E Hin He.
  assert (forall r1 s1, on_server (XADD dead_letter_stream (dead_letter_message stream group e reason)) s = (r1, s1) ->
            R s s1 /\ (forall x, r1 = Ok x -> disposed (bus_of s1) msg)) as Hx.
  { intros r1 s1 Hx. unfold on_server in Hx. destruct (XADD _ _ (cn_server s)) as [r0 x] eqn:Ea.
    injection Hx as <- <-. apply XADD_spec in Ea as [[Hs [y ->]]|(id' & Hid & Hs & Hr)].
    - split; [|done]. apply same_R. unfold bus_of. simpl. by rewrite Hs.
    - split; [unfold R, bus_of; simpl; rewrite Hs; by apply append_advances|]. intros _ _.
      exists e. split; [done|]. right. exists id', reason. unfold bus_of. simpl. rewrite Hs, entries_append.
      rewrite bool_decide_eq_true_2 by done. apply elem_of_app. right. by apply list_elem_of_singleton. }
  apply prog_bind_cases in E as [(y & E & _)|(x & s1 & E1 & E)]; [by eapply Hx|].
  destruct (Hx _ _ E1) as [R1 Hd]. specialize (Hd _ eq_refl). pose proof (has_entry_R _ _ _ R1 Hin) as Hin1.
  apply prog_bind_cases in E as [(y & E & _)|(u & s2 & E2 & E)].
  { transitivity s1; [done|]. by eapply ack_R. }
  apply stat_R in E as [R3 _]. transitivity s1; [done|]. transitivity s2; [by eapply ack_R|done].
Qed.

Lemma duplicate_R e msg s b s' :
  on_ledger (is_duplicate (env_event_id e)) s = (b, s') -> envelope_of msg = Ok e ->
  R s s' /\ (b = Ok true -> disposed (bus_of s') msg).
Proof.
  unfold on_ledger. destruct (is_duplicate _ (cn_ledger s)) as [r x] eqn:Ea. intros [= <- <-] He.
  apply is_duplicate_spec in Ea as [Hc Hb]. split; [apply same_R; unfold bus_of; simpl; by rewrite Hc|].
  intros ->. specialize (Hb _ eq_refl). symmetry in Hb. apply bool_decide_eq_true in Hb.
  exists e. split; [done|]. left. unfold bus_of. simpl. by rewrite Hc.
Qed.
Lemma mark_R e msg s b s' :
  on_ledger (mark_processed (env_event_id e)) s = (b, s') -> envelope_of msg = Ok e ->
  R s s' /\ (forall x, b = Ok x -> disposed (bus_of s') msg).
Proof.
  unfold on_ledger. destruct (mark_processed _ (cn_ledger s)) as [r x] eqn:Ea. intros [= <- <-] He.
  apply mark_processed_spec in Ea as [[Hc [y ->]]|Hc].
  - split; [apply same_R; unfold bus_of; simpl; by rewrite Hc|done].
  - split; [unfold R, bus_of; simpl; rewrite Hc; apply advances_ledger; set_solver|].
    intros _ _. exists e. split; [done|]. left. unfold bus_of. simpl. rewrite Hc. set_solver.
Qed.

Lemma handle_new_R id msg e s2 r s' :
  handle_new handler stream group dead_letter_stream id e s2 = (r, s') ->
  has_entry s2 (id, msg) -> envelope_of msg = Ok e -> R s2 s'.
Proof.
  intros E Hin2 He.
  unfold handle_new in E. unfold attempt in E at 1. unfold mbind at 1, Prog_bind at 1 in E.
  destruct (on_handler (handler e) s2) as [h s3] eqn:Eh.
  assert (R s2 s3) as R3.
  { unfold on_handler in Eh. destruct (handler e _). injection Eh as _ <-. by apply same_R. }
  pose proof (has_entry_R _ _ _ R3 Hin2) as Hin3. transitivity s3; [done|]. clear Eh R3 Hin2 s2.
  destruct h as [u|x]; [|destruct x; first [by apply stat_R in E as [? _]|by eapply dead_letter_R]].
  apply prog_bind_cases in E as [(y & E & _)|(w & s4 & E1 & E)]; [by eapply mark_R|].
  destruct (mark_R _ _ _ _ _ E1 He) as [R4 Hd]. specialize (Hd _ eq_refl). transitivity s4; [done|].
  pose proof (has_entry_R _ _ _ R4 Hin3) as Hin4.
  apply prog_bind_cases in E as [(y & E & _)|(v & s5 & E5 & E)]; [by eapply ack_R|].
  apply stat_R in E as [R6 _]. transitivity s5; [by eapply ack_R|done].
Qed.


(** However handling a message comes out, nothing is lost. *)
Lemma handle_R id msg s r s' :
  _handle_message handler stream group dead_letter_stream max_deliveries id msg s = (r, s') ->
  has_entry s (id, msg) -> R s s'.
Proof.
  unfold _handle_message. intros E Hin.
  apply prog_bind_cases in E as [(y & [= _ <-] & _)|(e & s0 & [= He <-] & E)]; [reflexivity|].
  apply prog_bind_cases in E as [(y & E & _)|(n & s1 & E1 & E)]; [by eapply delivery_count_R|].
  apply delivery_count_R in E1 as R1. pose proof (has_entry_R _ _ _ R1 Hin) as Hin1.
  transitivity s1; [done|]. clear R1 E1 Hin s.
  destruct (classify_delivery n max_deliveries); [by eapply dead_letter_R|].
  apply prog_bind_cases in E as [(y & E & _)|(dup & s2 & E1 & E)]; [by eapply duplicate_R|].
  destruct (duplicate_R _ _ _ _ _ E1 He) as [R2 Hd]. pose proof (has_entry_R _ _ _ R2 Hin1) as Hin2.
  transitivity s2; [done|]. clear E1 R2 Hin1 s1.
  destruct dup.
  { apply prog_bind_cases in E as [(y & E & _)|(u & s3 & E1 & E)]; [by apply stat_R in E as [? _]|].
    apply stat_R in E1 as [R3 _]. transitivity s3; [done|].
    eapply ack_R; [exact E|by eapply has_entry_R|]. eapply disposed_R; [exact R3|by apply Hd]. }
  by eapply handle_new_R.
Qed.

(** ** A round *)

Abbreviation handle_all := (handle_messages handler stream group dead_letter_stream max_deliveries).
Abbreviation reclaim := (_reclaim_stale handler stream group consumer_name dead_letter_stream max_deliveries
  claim_min_idle_ms batch_size).
Abbreviation round := (run_once handler stream group consumer_name dead_letter_stream max_deliveries
  claim_min_idle_ms batch_size).

Lemma handle_messages_R l n s r s' :
  handle_all l n s = (r, s') -> (forall e, e ∈ l -> has_entry s e) -> R s s'.
Proof.
  revert n s. induction l as [|[id msg] l IH]; intros n s E Hl; cbn [handle_messages] in E.
  { apply prog_ret_run in E as [_ ->]. reflexivity. }
  apply prog_bind_cases in E as [(y & E & _)|(u & s1 & E1 & E)].
  { eapply handle_R; [exact E|]. apply Hl. left. }
  assert (R s s1) as R1 by (eapply handle_R; [exact E1|apply Hl; left]).
  transitivity s1; [done|]. eapply IH; [exact E|]. intros e He. eapply has_entry_R; [exact R1|].
  apply Hl. by right.
Qed.

Lemma claim_R cursor s a s' :
  on_server (XAUTOCLAIM stream group consumer_name claim_min_idle_ms cursor batch_size) s = (a, s') ->
  R s s' /\ (forall x, a = Ok x -> forall e, e ∈ x.2 -> has_entry s' e).
Proof.
  intros (x & Hx & E1 & E2)%server_R. apply XAUTOCLAIM_spec in Hx as [[Hs [y ->]]|(gr & next & l & Hg & Hc & Hs & Ha)].
  - split; [|done]. apply same_R. unfold bus_of. by rewrite E1, E2, Hs.
  - split; [unfold R, bus_of; rewrite E1, E2, Hs; by apply claimed_advances|].
    intros z Hz. rewrite (Ha z Hz). intros e He. apply Hc in He as [He _].
    unfold has_entry. by rewrite E1, Hs, entries_set.
Qed.

Lemma read_R s a s' :
  on_server (XREADGROUP group consumer_name stream batch_size) s = (a, s') ->
  R s s' /\ (forall l, a = Ok l -> forall e, e ∈ l -> has_entry s' e).
Proof.
  intros (x & Hx & E1 & E2)%server_R. apply XREADGROUP_spec in Hx as [[Hs [y ->]]|(gr & Hg & Hs & Ha)].
  - split; [|done]. apply same_R. unfold bus_of. by rewrite E1, E2, Hs.
  - split; [unfold R, bus_of; rewrite E1, E2, Hs; by apply given_advances|].
    intros l Hl. rewrite (Ha l Hl). intros e He. apply unread_spec in He as [He _].
    unfold has_entry. by rewrite E1, Hs, entries_set.
Qed.

Lemma reclaim_R fuel cursor n s r s' : reclaim fuel cursor n s = (r, s') -> R s s'.
Proof.
  revert cursor n s. induction fuel as [|fuel IH]; intros cursor n s E; cbn [_reclaim_stale] in E.
  { apply prog_ret_run in E as [_ ->]. reflexivity. }
  apply prog_bind_cases in E as [(y & E & _)|(a & s1 & E1 & E)]; [by eapply claim_R|].
  destruct (claim_R _ _ _ _ E1) as [R1 Ha]. transitivity s1; [done|].
  apply prog_bind_cases in E as [(y & E & _)|(n' & s2 & E2 & E)].
  { eapply handle_messages_R; [exact E|]. by apply Ha. }
  transitivity s2; [eapply handle_messages_R; [exact E2|by apply Ha]|].
  destruct (_ || _); [apply prog_ret_run in E as [_ ->]; reflexivity|by eapply IH].
Qed.

Lemma round_R fuel s : R s (round fuel s).2.
Proof.
  destruct (round fuel s) as [r s'] eqn:E. simpl. unfold run_once in E.
  apply prog_bind_cases in E as [(y & E & _)|(o & s1 & E1 & E)]; [by eapply reclaim_R|].
  transitivity s1; [by eapply reclaim_R|]. destruct o as [h|]; [|by apply prog_ret_run in E as [_ ->]].
  apply prog_bind_cases in E as [(y & E & _)|(k & s2 & E2 & E)];
    [|apply prog_ret_run in E as [_ ->]; rename E2 into E]; unfold _read_new in E;
    (apply prog_bind_cases in E as [(z & E & _)|(l & s3 & E3 & E)]; [by eapply read_R|]);
    (destruct (read_R _ _ _ E3) as [R3 Hl]; transitivity s3; [done|]);
    (eapply handle_messages_R; [exact E|by apply Hl]).
Qed.

Lemma ensure_R s : R s (_ensure_group stream group s).2.
Proof.
  destruct (_ensure_group stream group s) as [r s'] eqn:E. simpl. unfold _ensure_group in E.
  unfold mbind, Prog_bind, attempt in E. destruct (on_server _ s) as [r0 s1] eqn:E1.
  assert (s' = s1) as ->.
  { destruct r0 as [u|e]; [by injection E|]. destruct e; try (by injection E). by case_bool_decide; injection E. }
  apply server_R in E1 as (x & Hx & E1 & E2).
  apply XGROUP_spec in Hx as [[Hs _]|[Hg Hs]]; [apply same_R; unfold bus_of; by rewrite E1, E2, Hs|].
  unfold R, bus_of. rewrite E1, E2, Hs. by apply created_advances.
Qed.
End Delivery.

(** ** The bus *)

Section Bus.
Context {SV : StreamServer} {ES : EnvelopeSchema} {LG : Ledger}.
Context (stream group dead_letter_stream : string).

(** What changes the streams and the ledger: a relay, or anyone, appends a message; a
    consumer of the group joins, or makes a round, with whatever handler and limits. *)
Inductive bus_step (x : server * ledger) : server * ledger -> Prop :=
| bs_publish k m : bus_step x ((XADD k m x.1).2, x.2)
| bs_join hs (s : ConsumerState (hs := hs)) :
    (cn_server s, cn_ledger s) = x ->
    let s' := (_ensure_group stream group s).2 in bus_step x (cn_server s', cn_ledger s')
| bs_round hs (handler : OutboxEventEnvelope -> Prog hs ()) name max_deliveries min_idle batch fuel s :
    (cn_server s, cn_ledger s) = x ->
    let s' := (run_once handler stream group name dead_letter_stream max_deliveries min_idle batch fuel s).2
    in bus_step x (cn_server s', cn_ledger s').

Definition bus_at (x : server * ledger) : bus := (streams x.1, consumed x.2).

Lemma step_good x y :
  bus_step x y ->
  Good stream group dead_letter_stream (bus_at x) -> Good stream group dead_letter_stream (bus_at y).
Proof.
  intros Hs HG. destruct Hs as [k m|hs s <- s'|hs handler name maxd idle batch fuel s <- s'].
  - destruct (XADD k m x.1) as [r w] eqn:E. apply XADD_spec in E as [[Es _]|(id & Hid & Es & _)];
      unfold bus_at; simpl; rewrite Es; [done|]. by apply (append_advances stream group dead_letter_stream).
  - by apply (ensure_R stream group dead_letter_stream (hs := hs) s).
  - by apply (round_R stream group dead_letter_stream handler name maxd idle batch fuel s).
Qed.

Lemma steps_good x y :
  rtc bus_step x y -> Good stream group dead_letter_stream (bus_at x) ->
  Good stream group dead_letter_stream (bus_at y).
Proof. induction 1 as [|a b c Hab _ IH]; [done|]. intros HG. apply IH. by eapply step_good. Qed.

(** C7: no event is lost on its way to a consumer.  From empty streams on, whatever is
    appended and whatever consumers of the group do, die of and are answered, an entry the
    group was given is still pending there, or its event is in the ledger of the consumer,
    or it is in the dead-letter stream under the stream and group it came from. *)
Theorem no_event_is_lost x y gr e :
  streams x.1 = ∅ -> rtc bus_step x y ->
  group_of stream group (streams y.1) = Some gr -> e ∈ entries_of stream (streams y.1) ->
  e.1 <= gr_last gr ->
  is_Some (gr_pending gr !! e.1)
  \/ exists env, envelope_of e.2 = Ok env
       /\ (env_event_id env ∈ consumed y.2
           \/ exists id reason, (id, dead_letter_message stream group env reason)
                                ∈ entries_of dead_letter_stream (streams y.1)).
Proof.
  intros H0 Hs Hg He Hl.
  assert (Good stream group dead_letter_stream (bus_at x)) as HG.
  { unfold bus_at. rewrite H0. split; simpl; [repeat constructor|done|done]. }
  destruct (steps_good _ _ Hs HG) as [_ _ HG']. by apply HG'.
Qed.
End Bus.

(** ** How often an event is handled, and that a round ends

    An event that is in the ledger is not handled again, and in one round no event is
    handled successfully twice; the scan of the pending entries ends within as many rounds
    as there are. *)
Section Once.
Context {SV : StreamServer} {ES : EnvelopeSchema} {LG : Ledger} {hs : Type}.
Context (handler : OutboxEventEnvelope -> Prog hs ()).
Context (stream group consumer_name dead_letter_stream : string).
Context (max_deliveries claim_min_idle_ms : Z) (batch_size : nat).

(** The same handler, its calls and whether they succeeded kept. *)
Definition kept_calls (e : OutboxEventEnvelope) : Prog (list (uuid * bool) * hs) () := fun h =>
  let '(r, h') := handler e h.2 in
  (r, (h.1 ++ [(env_event_id e, match r with Ok _ => true | Err _ => false end)], h')).

Abbreviation state := (ConsumerState (hs := list (uuid * bool) * hs)).
Definition log_of (s : state) : list (uuid * bool) := (cn_handler s).1.
Definition consumed_in (s : state) : gset uuid := consumed (cn_ledger s).
Definition successes (l : list (uuid * bool)) : list uuid :=
  omap (fun x => if x.2 : bool then Some x.1 else None) l.

(** The calls made on the way: none for a consumed event, no event successfully twice, and,
    when nothing raised, every success consumed. *)
Definition calls_made (ok : bool) (s s' : state) (new : list (uuid * bool)) : Prop :=
  log_of s' = log_of s ++ new /\ NoDup (successes new)
  /\ (forall x, x ∈ new -> x.1 ∉ consumed_in s) /\ consumed_in s ⊆ consumed_in s'
  /\ (ok = true -> forall e, e ∈ successes new -> e ∈ consumed_in s').
Definition careful (ok : bool) (s s' : state) : Prop := exists new, calls_made ok s s' new.

Lemma careful_same ok s s' : log_of s' = log_of s -> consumed_in s ⊆ consumed_in s' -> careful ok s s'.
Proof.
  intros Hl Hc. exists []. split; [by rewrite app_nil_r|]. split; [constructor|]. split; [set_solver|].
  split; [done|]. intros _ e He. by apply elem_of_nil in He.
Qed.

Lemma elem_of_successes l e : e ∈ successes l -> exists x, x ∈ l /\ x.1 = e.
Proof. unfold successes. rewrite list_elem_of_omap. intros ([u b] & Hin & Hb). exists (u, b). by destruct b; simplify_eq/=. Qed.

Lemma careful_trans ok s s1 s2 : careful true s s1 -> careful ok s1 s2 -> careful ok s s2.
Proof.
  intros (n1 & L1 & N1 & C1 & S1 & O1) (n2 & L2 & N2 & C2 & S2 & O2). specialize (O1 eq_refl).
  exists (n1 ++ n2). split; [by rewrite L2, L1, app_assoc|].
  assert (successes (n1 ++ n2) = successes n1 ++ successes n2) as E by apply omap_app.
  split; [|split; [|split]].
  - rewrite E. apply NoDup_app. split; [done|]. split; [|done]. intros e H1 H2.
    apply elem_of_successes in H2 as (x & Hx & <-). apply (C2 x Hx). by apply O1.
  - intros x [Hx|Hx]%elem_of_app; [by apply C1|]. specialize (C2 x Hx). set_solver.
  - set_solver.
  - intros Hok e. rewrite E. intros [He|He]%elem_of_app; [specialize (O1 e He); set_solver|by apply O2].
Qed.

(** However a program comes out. *)
Definition is_success {A} (r : result A) : bool := match r with Ok _ => true | Err _ => false end.
Definition careful_out {A} (s : state) (p : result A * state) : Prop := careful (is_success p.1) s p.2.
Definition carefully {A} (m : Prog state A) : Prop := forall s, careful_out s (m s).

Lemma carefully_ret {A} (a : A) : carefully (mret a).
Proof. intros s. by apply careful_same. Qed.
Lemma carefully_pure {A} (r : result A) : carefully (pure r).
Proof. intros s. by apply careful_same. Qed.
Lemma carefully_bind {A B} (m : Prog state A) (k : A -> Prog state B) :
  carefully m -> (forall a, carefully (k a)) -> carefully (m ≫= k).
Proof.
  intros Hm Hk s. specialize (Hm s). unfold careful_out, mbind, Prog_bind in *. destruct (m s) as [[a|e] s1]; [|exact Hm].
  eapply careful_trans; [exact Hm|apply Hk].
Qed.
Lemma carefully_server {A} (m : Prog server A) : carefully (on_server m).
Proof. intros s. unfold careful_out, on_server. destruct (m _). by apply careful_same. Qed.
Lemma carefully_stat f : carefully (count_stat f).
Proof. intros s. by apply careful_same. Qed.
Lemma carefully_ack id : carefully (_ack stream group id).
Proof. apply carefully_server. Qed.
#[local] Hint Resolve carefully_ret carefully_pure carefully_server carefully_stat carefully_ack : core.

Lemma carefully_dead_letter id e reason :
  carefully (_dead_letter stream group dead_letter_stream id e reason).
Proof. unfold _dead_letter. repeat (apply carefully_bind; [auto|intros ?]). auto. Qed.

(** A call that succeeded, and the mark. *)
Lemma careful_mark e s s1 :
  env_event_id e ∉ consumed_in s -> consumed_in s1 = consumed_in s ->
  log_of s1 = log_of s ++ [(env_event_id e, true)] ->
  careful_out s (on_ledger (mark_processed (env_event_id e)) s1).
Proof.
  intros Hnew Hc Hl. unfold careful_out, on_ledger.
  destruct (mark_processed _ (cn_ledger s1)) as [r x] eqn:Em. apply mark_processed_spec in Em.
  change (consumed (cn_ledger s1)) with (consumed_in s1) in Em. rewrite Hc in Em.
  exists [(env_event_id e, true)]. split; [done|]. split; [apply NoDup_singleton|].
  split; [by intros y ->%list_elem_of_singleton|].
  change (consumed_in _) with (consumed x) at 2 3. destruct Em as [[-> [y ->]]| ->]; [done|].
  split; [set_solver|]. intros _ y ->%list_elem_of_singleton. set_solver.
Qed.

(** Handling an event that is not in the ledger, and what follows. *)
Lemma careful_new id e s :
  env_event_id e ∉ consumed_in s ->
  careful_out s (handle_new kept_calls stream group dead_letter_stream id e s).
Proof.
  intros Hnew. unfold handle_new. unfold mbind at 1, Prog_bind at 1, attempt.
  destruct (on_handler (kept_calls e) s) as [h s1] eqn:Eh.
  unfold on_handler, kept_calls in Eh. destruct (handler e _) as [r w]. injection Eh as <- <-.
  set (s1 := {| cn_server := _ |}). destruct r as [[]|x].
  2:{ apply careful_trans with s1.
      - exists [(env_event_id e, false)]. split; [done|]. split; [constructor|].
        split; [by intros x' ->%list_elem_of_singleton|]. split; [done|]. by intros _ y Hy%elem_of_nil.
      - destruct x; first [exact (carefully_stat _ s1)|exact (carefully_dead_letter _ _ _ s1)]. }
  pose proof (careful_mark e s s1 Hnew eq_refl eq_refl) as Hmark.
  unfold mbind at 1, Prog_bind at 1. destruct (on_ledger _ s1) as [[u|x] s2]; [|exact Hmark].
  eapply careful_trans; [exact Hmark|]. apply (carefully_bind (_ack stream group id)); auto.
Qed.

Lemma carefully_handle id msg :
  carefully (_handle_message kept_calls stream group dead_letter_stream max_deliveries id msg).
Proof.
  unfold _handle_message. apply carefully_bind; [auto|]. intros e.
  apply carefully_bind; [unfold _delivery_count; apply carefully_bind; auto|]. intros n.
  destruct (classify_delivery n max_deliveries); [apply carefully_dead_letter|].
  intros s. unfold mbind at 1, Prog_bind at 1, on_ledger.
  destruct (is_duplicate _ (cn_ledger s)) as [r x] eqn:Ed. apply is_duplicate_spec in Ed as [Hc Hb].
  set (s1 := {| cn_server := _ |}).
  assert (forall ok, careful ok s s1) as Hs1 by (intros ok; apply careful_same; [done|]; unfold consumed_in; simpl; by rewrite Hc).
  destruct r as [dup|y]; [|apply Hs1]. eapply careful_trans; [apply Hs1|].
  specialize (Hb _ eq_refl). destruct dup.
  - apply (carefully_bind (count_stat _)); auto.
  - apply careful_new. unfold consumed_in. simpl. rewrite Hc. symmetry in Hb.
    by apply bool_decide_eq_false in Hb.
Qed.

Lemma carefully_handle_all l n :
  carefully (handle_messages kept_calls stream group dead_letter_stream max_deliveries l n).
Proof.
  revert n. induction l as [|[id msg] l IH]; intros n; cbn [handle_messages]; [auto|].
  apply carefully_bind; [apply carefully_handle|]. intros ?. apply IH.
Qed.
#[local] Hint Resolve carefully_handle_all : core.

Lemma carefully_reclaim fuel cursor n :
  carefully (_reclaim_stale kept_calls stream group consumer_name dead_letter_stream max_deliveries
    claim_min_idle_ms batch_size fuel cursor n).
Proof.
  revert cursor n. induction fuel as [|fuel IH]; intros cursor n; cbn [_reclaim_stale]; [auto|].
  apply carefully_bind; [auto|]. intros a. apply carefully_bind; [auto|]. intros n'.
  destruct (_ || _); auto.
Qed.

Lemma carefully_round fuel :
  carefully (run_once kept_calls stream group consumer_name dead_letter_stream max_deliveries
    claim_min_idle_ms batch_size fuel).
Proof.
  unfold run_once, _read_new. apply carefully_bind; [apply carefully_reclaim|]. intros [h|]; [|auto].
  apply carefully_bind; [|auto]. apply carefully_bind; auto.
Qed.

(** C15: an event is handled once.  In a round of a consumer, however it comes out, the
    handler is only called with events that are not in the ledger, it succeeds at most once
    with each, and after a round that did not die every event it succeeded with is in the
    ledger, so that no later round calls it again with that event. *)
Theorem events_are_handled_once fuel s :
  let p := run_once kept_calls stream group consumer_name dead_letter_stream max_deliveries
             claim_min_idle_ms batch_size fuel s in
  exists new, log_of p.2 = log_of s ++ new
    /\ NoDup (successes new)
    /\ (forall x, x ∈ new -> x.1 ∉ consumed_in s)
    /\ consumed_in s ⊆ consumed_in p.2
    /\ (is_success p.1 = true -> forall e, e ∈ successes new -> e ∈ consumed_in p.2).
Proof. exact (carefully_round fuel s). Qed.
End Once.

(** ** A round ends *)

Section Ends.
Context {SV : StreamServer} {ES : EnvelopeSchema} {LG : Ledger} {hs : Type}.
Context (handler : OutboxEventEnvelope -> Prog hs ()).
Context (stream group consumer_name dead_letter_stream : string).
Context (max_deliveries claim_min_idle_ms : Z) (batch_size : nat).

Abbreviation state := (ConsumerState (hs := hs)).

(** What is pending in the group. *)
Definition pending_ids (m : gmap string StreamState) : gset Z :=
  match group_of stream group m with Some gr => dom (gr_pending gr) | None => ∅ end.
Definition pending_in (s : state) : gset Z := pending_ids (streams (cn_server s)).
Definition from (cursor : Z) (p : gset Z) : gset Z := filter (fun id => cursor <= id) p.

Definition shrinks (s s' : state) : Prop := pending_in s' ⊆ pending_in s.
#[local] Instance shrinks_preorder : PreOrder shrinks.
Proof. split; [intros s; unfold shrinks; set_solver|]. intros s1 s2 s3. unfold shrinks. set_solver. Qed.

Lemma shrinks_server {A} (m : Prog server A) :
  (forall x, pending_ids (streams (m x).2) ⊆ pending_ids (streams x)) -> respects shrinks (on_server m).
Proof.
  intros H s. unfold on_server, shrinks, pending_in. specialize (H (cn_server s)).
  by destruct (m (cn_server s)).
Qed.

Lemma shrinks_xadd k msg : respects shrinks (on_server (XADD k msg)).
Proof.
  apply shrinks_server. intros x. destruct (XADD k msg x) as [r y] eqn:E.
  simpl. apply XADD_spec in E as [[-> _]|(id & _ & Hs & _)]; [done|]. rewrite Hs.
  unfold pending_ids. by rewrite group_append.
Qed.
Lemma shrinks_pending id : respects shrinks (on_server (XPENDING stream group id)).
Proof.
  apply shrinks_server. intros x. destruct (XPENDING stream group id x) as [r y] eqn:E.
  apply XPENDING_spec in E as [Hs _]. simpl. by rewrite Hs.
Qed.
Lemma shrinks_ack id : respects shrinks (_ack stream group id).
Proof.
  apply shrinks_server. intros x. destruct (XACK stream group id x) as [r y] eqn:E.
  simpl. apply XACK_spec in E as [[-> _]|[[_ ->]|(gr & Hg & Hs)]]; [done|done|]. rewrite Hs.
  unfold pending_ids. rewrite group_set, Hg. simpl. rewrite dom_delete. set_solver.
Qed.
Lemma shrinks_aside {A} (m : Prog state A) :
  (forall s, cn_server (m s).2 = cn_server s) -> respects shrinks m.
Proof. intros H s. unfold shrinks, pending_in. by rewrite H. Qed.
Lemma shrinks_stat f : respects shrinks (count_stat f).
Proof. by apply shrinks_aside. Qed.
Lemma shrinks_ledger {A} (m : Prog ledger A) : respects shrinks (on_ledger m).
Proof. apply shrinks_aside. intros s. unfold on_ledger. by destruct (m _). Qed.
Lemma shrinks_handler {A} (m : Prog hs A) : respects shrinks (on_handler m).
Proof. apply shrinks_aside. intros s. unfold on_handler. by destruct (m _). Qed.

Lemma shrinks_bind {A B} (m : Prog state A) (k : A -> Prog state B) :
  respects shrinks m -> (forall a, respects shrinks (k a)) -> respects shrinks (m ≫= k).
Proof. apply respects_bind. tc_solve. Qed.
Lemma shrinks_ret {A} (a : A) : respects shrinks (mret a).
Proof. apply respects_ret. tc_solve. Qed.
Lemma shrinks_pure {A} (r : result A) : respects shrinks (pure r).
Proof. apply respects_pure. tc_solve. Qed.
#[local] Hint Resolve shrinks_xadd shrinks_pending shrinks_ack shrinks_stat shrinks_ledger
  shrinks_handler shrinks_ret shrinks_pure : core.

Lemma shrinks_dead_letter id e reason : respects shrinks (_dead_letter stream group dead_letter_stream id e reason).
Proof. unfold _dead_letter. repeat (apply shrinks_bind; [auto|intros ?]). auto. Qed.
#[local] Hint Resolve shrinks_dead_letter : core.

Lemma shrinks_handle id msg :
  respects shrinks (_handle_message handler stream group dead_letter_stream max_deliveries id msg).
Proof.
  unfold _handle_message. apply shrinks_bind; [auto|]. intros e.
  apply shrinks_bind; [unfold _delivery_count; apply shrinks_bind; auto|]. intros n.
  destruct (classify_delivery n max_deliveries); [auto|].
  apply shrinks_bind; [auto|]. intros dup. destruct dup; [apply (shrinks_bind (count_stat _)); auto|].
  unfold handle_new. apply shrinks_bind; [by apply respects_attempt|]. intros [u|x].
  - apply (shrinks_bind (on_ledger _)); [auto|]. intros ?. apply (shrinks_bind (_ack _ _ _)); auto.
  - destruct x; auto.
Qed.
Lemma shrinks_handle_all l n :
  respects shrinks (handle_messages handler stream group dead_letter_stream max_deliveries l n).
Proof.
  revert n. induction l as [|[id msg] l IH]; intros n; cbn [handle_messages]; [auto|].
  apply shrinks_bind; [apply shrinks_handle|]. intros ?. apply IH.
Qed.

Lemma claimed_pending gr name l :
  (forall e, e ∈ l -> is_Some (gr_pending gr !! e.1)) ->
  dom (gr_pending (claimed_by name l gr)) = dom (gr_pending gr).
Proof.
  intros H. apply set_eq. intros id. rewrite !elem_of_dom. simpl. rewrite elem_of_give.
  split; [|by right]. intros [(e & -> & He)%list_elem_of_fmap|?]; [by apply H|done].
Qed.

(** The scan goes on behind something that was pending. *)
Lemma claim_progress cursor s next l s' :
  on_server (XAUTOCLAIM stream group consumer_name claim_min_idle_ms cursor batch_size) s = (Ok (next, l), s') ->
  pending_in s' = pending_in s
  /\ (l <> [] -> next <> 0 -> exists id, id ∈ from cursor (pending_in s) /\ id < next /\ cursor <= next).
Proof.
  unfold on_server. destruct (XAUTOCLAIM _ _ _ _ _ _ _) as [r x] eqn:E. intros [= -> <-].
  apply XAUTOCLAIM_spec in E as [[_ [y Hy]]|(gr & next' & l' & Hg & (Hc & Hn) & Hs & Ha)]; [done|].
  specialize (Ha _ eq_refl). injection Ha as -> ->. unfold pending_in, pending_ids. simpl.
  rewrite Hs, group_set, Hg. rewrite claimed_pending by (intros e He; by apply Hc). split; [done|].
  intros Hl Hne. destruct l' as [|e l']; [done|]. destruct Hn as [?|[_ Hn]]; [done|].
  destruct (Hc e ltac:(left)) as (_ & Hp & Hle). specialize (Hn e.1 ltac:(left)).
  exists e.1. unfold from. rewrite elem_of_filter, elem_of_dom. split; [done|]. lia.
Qed.

Lemma reclaim_ends fuel cursor n s s' :
  (size (from cursor (pending_in s)) < fuel)%nat ->
  _reclaim_stale handler stream group consumer_name dead_letter_stream max_deliveries claim_min_idle_ms
    batch_size fuel cursor n s <> (Ok None, s').
Proof.
  revert cursor n s. induction fuel as [|fuel IH]; intros cursor n s Hf E; [lia|]. cbn [_reclaim_stale] in E.
  apply prog_bind_run in E as ([next l] & s1 & E1 & E). apply claim_progress in E1 as [Hp Hn].
  apply prog_bind_run in E as (n' & s2 & E2 & E). cbn [fst snd] in *.
  pose proof (shrinks_handle_all l n s1) as Hs. rewrite E2 in Hs. unfold shrinks in Hs. cbn [snd] in Hs.
  destruct (bool_decide (l = []) || (next =? 0)) eqn:Eb; [by apply prog_ret_run in E as [[=] _]|].
  apply orb_false_iff in Eb as [Hl%bool_decide_eq_false Hz%Z.eqb_neq].
  destruct (Hn Hl Hz) as (id & Hid & Hlt & Hle). eapply (IH next n' s2); [|exact E].
  enough (size (from next (pending_in s2)) < size (from cursor (pending_in s)))%nat by lia.
  apply subset_size. rewrite Hp in Hs. unfold from in *. apply elem_of_filter in Hid as [Hc Hid].
  split; [intros x; rewrite !elem_of_filter; intros [? Hx]; split; [lia|by apply Hs]|].
  intros H. specialize (H id). rewrite !elem_of_filter in H. destruct (H (conj Hc Hid)) as [? _]. lia.
Qed.

(** C38: a round of a consumer ends.  The scan of the pending entries takes at most one
    answer of the server more than there are entries pending: with so many rounds allowed
    it never runs out of them, whatever the handler does. *)
Theorem rounds_end s :
  (run_once handler stream group consumer_name dead_letter_stream max_deliveries claim_min_idle_ms
     batch_size (S (size (pending_in s))) s).1 <> Ok None.
Proof.
  destruct (run_once _ _ _ _ _ _ _ _ _ _) as [r s'] eqn:E. simpl. intros ->. unfold run_once in E.
  apply prog_bind_run in E as (o & s1 & E1 & E). destruct o as [h|].
  - apply prog_bind_run in E as (k & s2 & _ & E). by apply prog_ret_run in E as [[=] _].
  - revert E1. apply reclaim_ends. apply Nat.lt_succ_r, subseteq_size. unfold from. set_solver.
Qed.
End Ends.

(** ** What the relay guarantees

    An event is marked published only when it is on its stream, whenever the relay dies; and
    as long as the streams accept what they are given, the events of a batch reach their
    streams in the order of the outbox. *)
(** What the relay does not change of an event. *)
Definition event_identity (e : OutboxEventRow) : Z * OutboxEventEnvelope := (oe_sequence e, _envelope_from_row e).
Definition same_events (d d' : db) : Prop :=
  map event_identity (outbox_events d') = map event_identity (outbox_events d).

Lemma same_identity e e' : event_identity e = event_identity e' ->
  oe_sequence e = oe_sequence e' /\ _envelope_from_row e = _envelope_from_row e'.
Proof. intros H. split; [exact (f_equal fst H)|exact (f_equal snd H)]. Qed.

Lemma outbox_updated seq f d :
  outbox_events (d <| outbox_events ::= map (fun e => if oe_sequence e =? seq then f e else e) |>)
  = map (fun e => if oe_sequence e =? seq then f e else e) (outbox_events d).
Proof. done. Qed.

Lemma update_identity seq f l :
  (forall e, event_identity (f e) = event_identity e) ->
  map event_identity (map (fun e => if oe_sequence e =? seq then f e else e) l) = map event_identity l.
Proof. intros Hf. rewrite map_map. apply map_ext. intros e. case_match; [apply Hf|done]. Qed.

Lemma nodup_map_inj {A B} (f : A -> B) l a b :
  NoDup (map f l) -> a ∈ l -> b ∈ l -> f a = f b -> a = b.
Proof.
  intros Hn [i Hi]%list_elem_of_lookup [j Hj]%list_elem_of_lookup Hf.
  assert (i = j) as ->; [|congruence]. eapply (NoDup_lookup (map f l)); [done| |].
  - rewrite list_lookup_fmap, Hi. reflexivity.
  - rewrite list_lookup_fmap, Hj. simpl. by rewrite Hf.
Qed.

Section Relay.
Context {HA : Hashing} {SV : StreamServer} (prefix : string) (shard_count : Z).

(** The message of the event is on its stream. *)
Definition on_stream (m : gmap string StreamState) (e : OutboxEventEnvelope) : Prop :=
  exists k id, stream_of_event prefix shard_count e = Ok k /\ (id, event_message e) ∈ entries_of k m.

(** Events are numbered in the order they were inserted. *)
Definition numbered_events (d : db) : Prop :=
  map oe_sequence (outbox_events d) = seqZ 1 (Z.of_nat (length (outbox_events d))).
Lemma numbered_apart d : numbered_events d -> NoDup (map oe_sequence (outbox_events d)).
Proof. intros ->. apply NoDup_seqZ. Qed.

(** Events are numbered, and what is marked published is on its stream. *)
Record Published (x : server * db) : Prop := {
  pb_numbers : numbered_events x.2;
  pb_streamed e : e ∈ outbox_events x.2 -> is_Some (oe_published_at e) ->
    on_stream (streams x.1) (_envelope_from_row e);
}.

Definition grown_streams (m m' : gmap string StreamState) : Prop :=
  forall k e, e ∈ entries_of k m -> e ∈ entries_of k m'.
Lemma on_stream_grown m m' e : grown_streams m m' -> on_stream m e -> on_stream m' e.
Proof. intros H (k & id & Hk & Hin). exists k, id. split; [done|by apply H]. Qed.

Definition forwards (x x' : server * db) : Prop :=
  grown_streams (streams x.1) (streams x'.1) /\ same_events x.2 x'.2 /\ (Published x -> Published x').
#[local] Instance forwards_preorder : PreOrder forwards.
Proof.
  split; [intros x; split; [by intros ? ?|by split]|]. intros x y z (A1 & B1 & C1) (A2 & B2 & C2). unfold forwards, same_events, grown_streams in *.
  split; [auto|]. split; [congruence|auto].
Qed.

(** The streams grow. *)
Lemma streams_forward x w :
  grown_streams (streams x.1) (streams w) -> forwards x (w, x.2).
Proof.
  intros Hg. split; [exact Hg|]. split; [done|]. intros [P1 P2]. split; [done|]. intros e He Hp.
  eapply on_stream_grown; [exact Hg|by apply P2].
Qed.

Lemma xadd_grows k msg w r w' : XADD k msg w = (r, w') -> grown_streams (streams w) (streams w').
Proof.
  intros H. apply XADD_spec in H as [[-> _]|(id & _ & -> & _)]; [by intros ? ?|]. intros k' e He.
  rewrite entries_append. case_bool_decide; [|done]. subst k'. apply elem_of_app. by left.
Qed.

Lemma publish_runs e w r w' :
  publish_to_stream prefix shard_count e w = (r, w') ->
  grown_streams (streams w) (streams w') /\ (r = Ok () -> on_stream (streams w') e).
Proof.
  unfold publish_to_stream. intros E.
  apply prog_bind_cases in E as [(y & [= _ <-] & ->)|(k & s0 & [= Hk <-] & E)]; [by split; [intros ? ?|]|].
  apply prog_bind_cases in E as [(y & E & ->)|(id & s1 & E1 & E)]; [split; [by eapply xadd_grows|done]|].
  apply prog_ret_run in E as [-> ->]. split; [by eapply xadd_grows|]. intros _.
  apply XADD_spec in E1 as [[_ [y ?]]|(id' & _ & -> & _)]; [done|]. exists k, id'. split; [done|].
  rewrite entries_append, bool_decide_eq_true_2 by done. apply elem_of_app. right. by left.
Qed.

(** The row is one of the outbox. *)
Definition of_outbox (row : OutboxEventRow) (d : db) : Prop :=
  event_identity row ∈ map event_identity (outbox_events d).
Lemma of_outbox_same row d d' : same_events d d' -> of_outbox row d -> of_outbox row d'.
Proof. unfold of_outbox. by intros ->. Qed.

Lemma update_forwards w d row f :
  (forall e, event_identity (f e) = event_identity e) ->
  (forall e, oe_published_at e = oe_published_at (f e) \/ (of_outbox row d -> on_stream (streams w) (_envelope_from_row row))) ->
  of_outbox row d ->
  forwards (w, d) (w, d <| outbox_events ::= map (fun e => if oe_sequence e =? oe_sequence row then f e else e) |>).
Proof.
  intros Hid Hp Hrow. split; [by intros ? ?|].
  split; [unfold same_events; cbn [snd]; rewrite outbox_updated; by apply update_identity|].
  intros [P1 P2]. split; cbn [fst snd] in *; [|rewrite outbox_updated].
  - unfold numbered_events. cbn [snd]. rewrite outbox_updated, length_map, map_map.
    rewrite (map_ext _ oe_sequence); [done|]. intros e. case_match; [|done].
    by destruct (same_identity _ _ (Hid e)).
  - intros e' (e & -> & He)%list_elem_of_fmap. destruct (oe_sequence e =? oe_sequence row) eqn:Es; [|by apply P2].
    destruct (same_identity _ _ (Hid e)) as [_ ->]. destruct (Hp e) as [<-|Hs]; [by apply P2|]. intros _.
    apply list_elem_of_fmap in Hrow as (e0 & E0 & He0). destruct (same_identity _ _ E0) as [Q1 Q2].
    apply Z.eqb_eq in Es. assert (e = e0) as -> by (eapply nodup_map_inj; [by apply numbered_apart|done..|congruence]).
    rewrite <-Q2. apply Hs. apply list_elem_of_fmap. by exists e0.
Qed.

(** ** A round of the relay *)

Context {cw : Type} (read_clock : Prog cw instant) (max_publish_attempts : nat).

Abbreviation state := (relay_state (pw := server) (cw := cw)).
Definition steps_forward (s s' : state) : Prop := forwards s.2 s'.2.
#[local] Instance steps_forward_preorder : PreOrder steps_forward.
Proof.
  split; [intros s; unfold steps_forward; reflexivity|]. intros s1 s2 s3. unfold steps_forward. apply transitivity.
Qed.

Abbreviation publish := (publish_to_stream prefix shard_count).

Lemma retry_forward n err e s r s' :
  _publish_with_retry publish n err e s = (r, s') ->
  steps_forward s s' /\ s'.2.2 = s.2.2
  /\ exists b o, r = Ok (b, o) /\ (b = true -> on_stream (streams s'.2.1) e).
Proof.
  revert err s. induction n as [|n IH]; intros err s E; cbn [_publish_with_retry] in E.
  { apply prog_ret_run in E as [-> ->]. split; [reflexivity|]. split; [done|]. by exists false, err. }
  unfold mbind, Prog_bind, attempt in E. unfold on_right at 1, on_left at 1 in E.
  destruct (publish e s.2.1) as [p w] eqn:Ep. apply publish_runs in Ep as [Hg Hp].
  set (s1 := (s.1, (w, s.2.2))) in E.
  assert (steps_forward s s1) as H1.
  { pose proof (streams_forward s.2 w Hg) as Hf. done. }
  destruct p as [[]|x].
  - apply prog_ret_run in E as [-> ->]. split; [done|]. split; [done|]. exists true, None. split; [done|].
    intros _. by apply Hp.
  - destruct (IH _ _ E) as (H2 & E2 & H3). split; [by transitivity s1|]. split; [done|exact H3].
Qed.

(** A committed change of the row. *)
Lemma commit_forward row f s r s' :
  on_right (on_right (transact (update_event (oe_sequence row) f))) s = (r, s') ->
  (forall e, event_identity (f e) = event_identity e) ->
  (forall e, oe_published_at e = oe_published_at (f e) \/ on_stream (streams s.2.1) (_envelope_from_row row)) ->
  of_outbox row s.2.2 -> steps_forward s s'.
Proof.
  intros [= _ <-] Hid Hp Hrow. pose proof (update_forwards s.2.1 s.2.2 row f Hid) as H.
  destruct s as [c [w d]]. apply H; [|done]. intros e. destruct (Hp e); [by left|by right].
Qed.

Lemma event_forward row s r s' :
  relay_event publish read_clock max_publish_attempts row s = (r, s') ->
  of_outbox row s.2.2 -> steps_forward s s'.
Proof.
  unfold relay_event. intros E Hrow.
  apply prog_bind_cases in E as [(y & E & ->)|(o & s1 & E1 & E)].
  { by apply retry_forward in E as [? _]. }
  apply retry_forward in E1 as (H1 & Hd & b & err & [= ->] & Hb). transitivity s1; [done|].
  rewrite <-Hd in Hrow. cbn [fst snd] in E. destruct b.
  - apply prog_bind_cases in E as [(y & E & _)|(now & s2 & E2 & E)].
    { unfold on_left in E. destruct (read_clock s1.1). injection E as _ <-. unfold steps_forward. simpl. reflexivity. }
    assert (s2.2 = s1.2) as Es by (unfold on_left in E2; destruct (read_clock s1.1); by injection E2 as _ <-).
    transitivity s2; [unfold steps_forward; rewrite Es; reflexivity|].
    apply prog_bind_cases in E as [(y & E & _)|(u & s3 & E3 & E)].
    + eapply commit_forward; [exact E|done|intros e; right; rewrite Es; by apply Hb|by rewrite Es].
    + apply prog_ret_run in E as [_ ->].
      eapply commit_forward; [exact E3|done|intros e; right; rewrite Es; by apply Hb|by rewrite Es].
  - apply prog_bind_cases in E as [(y & E & _)|(u & s3 & E3 & E)].
    + eapply commit_forward; [exact E|done|by left|done].
    + apply prog_ret_run in E as [_ ->]. eapply commit_forward; [exact E3|done|by left|done].
Qed.

Lemma events_forward rows n s r s' :
  relay_events publish read_clock max_publish_attempts rows n s = (r, s') ->
  (forall row, row ∈ rows -> of_outbox row s.2.2) -> steps_forward s s'.
Proof.
  revert n s. induction rows as [|row rows IH]; intros n s E Hr; cbn [relay_events] in E.
  { apply prog_ret_run in E as [_ ->]. reflexivity. }
  apply prog_bind_cases in E as [(y & E & _)|(b & s1 & E1 & E)]; [eapply event_forward; [exact E|apply Hr; left]|].
  assert (steps_forward s s1) as H1 by (eapply event_forward; [exact E1|apply Hr; left]).
  transitivity s1; [done|]. eapply IH; [exact E|]. intros x Hx. eapply of_outbox_same; [apply H1|].
  apply Hr. by right.
Qed.

Lemma batch_of_outbox n d row : row ∈ get_unpublished_outbox_events n d -> of_outbox row d.
Proof.
  unfold get_unpublished_outbox_events. intros Hin%elem_of_take. destruct Hin as (i & Hin & _).
  apply list_elem_of_lookup_2, elem_of_order_by, list_elem_of_In, filter_In in Hin as [Hin _].
  apply list_elem_of_In in Hin. apply list_elem_of_fmap. by exists row.
Qed.

Lemma round_forward batch s : steps_forward s (relay_once publish read_clock max_publish_attempts batch s).2.
Proof.
  destruct (relay_once _ _ _ _ s) as [r s'] eqn:E. unfold relay_once in E.
  apply prog_bind_cases in E as [(y & [= ] & _)|(rows & s1 & [= <- <-] & E)].
  eapply events_forward; [exact E|]. intros row. apply batch_of_outbox.
Qed.
End Relay.

(** ** The outbox and the streams *)

Section Outbox.
Context {HA : Hashing} {SV : StreamServer} (prefix : string) (shard_count : Z).

(** What happens to them: a round of a relay, with whatever clock and limits; an event
    inserted by a command; anything that leaves the outbox alone; consumers and other
    producers, which only add entries. *)
Inductive outbox_step (x : server * db) : server * db -> Prop :=
| os_relay cw (read_clock : Prog cw instant) attempts batch c :
    outbox_step x (relay_once (publish_to_stream prefix shard_count) read_clock attempts batch (c, x)).2.2
| os_insert now et at_ ai ci p :
    outbox_step x (x.1, (atomically (insert_outbox_event now et at_ ai ci p) x.2).2)
| os_other d : outbox_events d = outbox_events x.2 -> outbox_step x (x.1, d)
| os_streams w : grown_streams (streams x.1) (streams w) -> outbox_step x (w, x.2).

Lemma step_published x y :
  outbox_step x y -> Published prefix shard_count x -> Published prefix shard_count y.
Proof.
  intros Hs HP. destruct Hs as [cw clk n b c|now et at_ ai ci p|d Hd|w Hw].
  - by apply (round_forward prefix shard_count clk n b (c, x)).
  - destruct HP as [P1 P2]. split; simpl.
    + unfold numbered_events in *. simpl. rewrite map_app, length_app, P1. simpl.
      rewrite Nat2Z.inj_add, seqZ_app by lia. f_equal.
      rewrite seqZ_cons, seqZ_nil by (simpl; lia). f_equal. lia.
    + intros e [He| ->%list_elem_of_singleton]%elem_of_app; [by apply P2|by intros [? [=]]].
  - destruct HP as [P1 P2]. split; simpl; [unfold numbered_events; by rewrite Hd|by rewrite Hd].
  - by apply (streams_forward prefix shard_count x w Hw).
Qed.

(** C16: the outbox promises no more than the streams hold.  From an empty outbox on, and
    wherever relays die, an event marked published is on the stream of its shard, as the
    message that carries exactly that event. *)
Theorem published_events_are_streamed x y e :
  outbox_events x.2 = [] -> rtc outbox_step x y ->
  e ∈ outbox_events y.2 -> is_Some (oe_published_at e) ->
  exists k id, stream_of_event prefix shard_count (_envelope_from_row e) = Ok k
    /\ (id, event_message (_envelope_from_row e)) ∈ entries_of k (streams y.1).
Proof.
  intros H0 Hs He Hp.
  assert (Published prefix shard_count x) as HP.
  { split; [unfold numbered_events; by rewrite H0|]. rewrite H0. by intros ? ?%elem_of_nil. }
  assert (Published prefix shard_count y) as [_ HP'].
  { clear H0 He. revert HP. induction Hs as [|a b c Hab _ IH]; [done|]. intros HP. apply IH.
    by eapply step_published. }
  exact (HP' e He Hp).
Qed.
End Outbox.

(** ** The order of the events *)

Section Order.
Context {HA : Hashing} {SV : StreamServer} (prefix : string) (shard_count : Z).
Context {cw : Type} (read_clock : Prog cw instant) (max_publish_attempts : nat).
(** The streams take what they are given, and the relay lives on. *)
Context (shards : shard_count <> 0).
Context (accepts : forall k m w, exists id w', XADD k m w = (Ok id, w')).
Context (lives : forall c, exists t c', read_clock c = (Ok t, c')).
Context (tries : (1 <= max_publish_attempts)%nat).

Abbreviation state := (relay_state (pw := server) (cw := cw)).
Abbreviation publish := (publish_to_stream prefix shard_count).

(** The messages for a stream, in order. *)
Definition goes_to (k : string) (row : OutboxEventRow) : bool :=
  match stream_of_event prefix shard_count (_envelope_from_row row) with
  | Ok k' => bool_decide (k' = k)
  | Err _ => false
  end.
Definition messages_for (k : string) (rows : list OutboxEventRow) : list message :=
  map (fun row => event_message (_envelope_from_row row)) (List.filter (goes_to k) rows).
Definition messages_on (k : string) (s : state) : list message := (entries_of k (streams s.2.1)).*2.
Definition is_published (row : OutboxEventRow) (d : db) : Prop :=
  exists e, e ∈ outbox_events d /\ event_identity e = event_identity row /\ is_Some (oe_published_at e).

Lemma publish_sends e w :
  exists k w', stream_of_event prefix shard_count e = Ok k /\ publish e w = (Ok (), w')
    /\ forall k', (entries_of k' (streams w')).*2
                 = (entries_of k' (streams w)).*2 ++ (if bool_decide (k = k') then [event_message e] else []).
Proof.
  unfold publish_to_stream, stream_of_event, stream_name_for_event, shard_for_key.
  rewrite (proj2 (Z.eqb_neq _ _) shards). cbn [rbind]. eexists. destruct (accepts
    (stream_name_for_shard prefix (hex_number (take_str 16 (sha256_hex
       (shard_key_for_event (env_correlation_id e) (env_aggregate_id e)))) mod shard_count))
    (event_message e) w) as (id & w' & Hx).
  exists w'. split; [reflexivity|]. unfold mbind, Prog_bind, pure. rewrite Hx. split; [done|].
  apply XADD_spec in Hx as [[_ [? ?]]|(id' & _ & -> & _)]; [done|]. intros k'. rewrite entries_append.
  case_bool_decide as E.
  - subst k'. rewrite bool_decide_eq_true_2 by done. by rewrite fmap_app.
  - rewrite bool_decide_eq_false_2 by congruence. by rewrite app_nil_r.
Qed.

Lemma event_sent row s :
  of_outbox row s.2.2 ->
  exists s', relay_event publish read_clock max_publish_attempts row s = (Ok true, s')
    /\ (forall k, messages_on k s' = messages_on k s ++ messages_for k [row])
    /\ is_published row s'.2.2 /\ (forall x, is_published x s.2.2 -> is_published x s'.2.2).
Proof.
  intros Hrow. destruct (publish_sends (_envelope_from_row row) s.2.1) as (k & w' & Hk & Hp & Hs).
  destruct (lives s.1) as (t & c' & Hc). unfold relay_event.
  destruct max_publish_attempts as [|n]; [lia|]. cbn [_publish_with_retry].
  unfold mbind, Prog_bind, attempt, on_right, on_left. cbn [fst snd]. rewrite Hp. cbn [fst snd].
  unfold mret, Prog_ret. cbn [fst snd]. rewrite Hc. unfold transact, atomically. cbn.
  eexists. split; [reflexivity|]. cbn [fst snd].
  assert (forall x, is_published x s.2.2 -> is_published x (s.2.2 <| outbox_events ::= map (fun e =>
    if oe_sequence e =? oe_sequence row then e <| oe_published_at := Some t |> <| oe_publish_attempts ::= Z.succ |>
      <| oe_last_publish_error := None |> else e) |>)) as Hkeep.
  { intros x (e & He & Hid & Hsome). eexists. split; [apply list_elem_of_fmap; exists e; split; [reflexivity|exact He]|].
    case_match; [split; [exact Hid|by eexists]|done]. }
  split; [|split; [|exact Hkeep]].
  - intros k'. unfold messages_on. cbn [fst snd]. rewrite Hs. f_equal. unfold messages_for.
    cbn [List.filter]. unfold goes_to. rewrite Hk. by case_bool_decide.
  - apply list_elem_of_fmap in Hrow as (e & Hid & He). eexists.
    split; [apply list_elem_of_fmap; exists e; split; [reflexivity|exact He]|].
    rewrite (proj2 (Z.eqb_eq _ _)) by (symmetry; exact (f_equal fst Hid)). split; [by symmetry|by eexists].
Qed.

Lemma messages_for_cons k row rows : messages_for k (row :: rows) = messages_for k [row] ++ messages_for k rows.
Proof. unfold messages_for. rewrite <-map_app, <-List.filter_app. done. Qed.

Lemma batch_sent rows n s :
  (forall row, row ∈ rows -> of_outbox row s.2.2) ->
  exists s', relay_events publish read_clock max_publish_attempts rows n s = (Ok (n + Z.of_nat (length rows)), s')
    /\ (forall k, messages_on k s' = messages_on k s ++ messages_for k rows)
    /\ (forall row, row ∈ rows \/ is_published row s.2.2 -> is_published row s'.2.2).
Proof.
  revert n s. induction rows as [|row rows IH]; intros n s Hr; cbn [relay_events].
  { exists s. rewrite Z.add_0_r. split; [done|]. split; [intros k; by rewrite app_nil_r|].
    by intros row [?%elem_of_nil|?]. }
  destruct (event_sent row s) as (s1 & E1 & Hm & Hp & Hk); [apply Hr; left|].
  assert (same_events s.2.2 s1.2.2) as Hsame by (eapply event_forward; [exact E1|apply Hr; left]).
  destruct (IH (n + 1) s1) as (s' & E & Hm' & Hp').
  { intros x Hx. eapply of_outbox_same; [exact Hsame|]. apply Hr. by right. }
  exists s'. unfold mbind, Prog_bind. rewrite E1.
  split.
  { rewrite E. replace (n + 1 + Z.of_nat (length rows)) with (n + Z.of_nat (length (row :: rows))); [done|].
    cbn [length]. lia. }
  split; [intros k; by rewrite Hm', Hm, (messages_for_cons k row rows), app_assoc|].
  intros x [[->|Hx]%elem_of_cons|Hx]; apply Hp'; auto.
Qed.

(** C31: the relay keeps the order of the outbox.  As long as the streams take what they are
    given and the relay lives, a round publishes its whole batch: every stream grows by
    exactly the messages of its own events, in the order of their sequence numbers, and
    every event of the batch is marked. *)
Theorem relay_keeps_order batch_size s :
  let rows := get_unpublished_outbox_events batch_size s.2.2 in
  exists s', relay_once publish read_clock max_publish_attempts batch_size s
             = (Ok (Z.of_nat (length rows)), s')
    /\ (forall k, messages_on k s' = messages_on k s ++ messages_for k rows)
    /\ (forall row, row ∈ rows -> is_published row s'.2.2).
Proof.
  intros rows. destruct (batch_sent rows 0 s) as (s' & E & Hm & Hp); [intros row; apply batch_of_outbox|].
  exists s'. split; [exact E|]. split; [done|]. intros row Hr. apply Hp. by left.
Qed.
End Order.
