(* ===== verification/EventExample.v ===== *)
(** * Worked deliveries

    A server of streams in memory, on which the relay and the consumers evaluate: it
    discharges the laws of the interface and the hypotheses of the theorems, and shows
    what a stream that refuses an event for a while does to the order of the events. *)
From S2P Require Import Prelude PyFloat Json Enums VerificationDomain Catalog.
From S2P Require Import RemediationDomain Uuid InvestigationDomain Store TxLogic Prog Redis.
From S2P Require Import RemediationService RemediationExample Executor Runner IncidentRepository AlertIdentity.
From S2P Require Import IncidentService InvestigationService AgentContext EventStreams.
From S2P Require Import EventDelivery.
Local Open Scope Z_scope.

(** ** Streams in memory

    The schedule says which of the next [XADD]s are refused, where any are. *)
Definition mem_server : Type := (gmap string StreamState * list bool)%type.
Definition NOGROUP : exn := ResponseError "NOGROUP No such consumer group for key name".
Definition BUSYGROUP : exn := ResponseError "BUSYGROUP Consumer Group name already exists".

Definition mem_append (k : string) (m : message) (x : gmap string StreamState) : Z * gmap string StreamState :=
  let id := last_id (at_key k x) + 1 in (id, <[k := appended id m (at_key k x)]> x).
Definition mem_XADD (flaky : bool) (k : string) (m : message) : Prog mem_server Z := fun s =>
  if flaky && default false (head s.2) then (Err (RuntimeError "connection refused"), (s.1, tail s.2))
  else let '(id, x) := mem_append k m s.1 in (Ok id, (x, tail s.2)).
Definition mem_XGROUP (k g : string) : Prog mem_server () := fun s =>
  match group_of k g s.1 with
  | Some _ => (Err BUSYGROUP, s)
  | None => (Ok (), (set_group k g new_group s.1, s.2))
  end.
(** A command on a group that is there. *)
Definition in_group {A} (k g : string) (f : GroupState -> A * GroupState) : Prog mem_server A := fun s =>
  match group_of k g s.1 with
  | None => (Err NOGROUP, s)
  | Some gr => let '(a, gr') := f gr in (Ok a, (set_group k g gr' s.1, s.2))
  end.
Definition mem_XREADGROUP (g c k : string) (n : nat) : Prog mem_server (list (Z * message)) := fun s =>
  in_group k g (fun gr => let l := unread gr n (at_key k s.1) in (l, given c l gr)) s.
(** Every entry is idle long enough, and one answer has them all. *)
Definition stale_from (start : Z) (st : StreamState) (gr : GroupState) : list (Z * message) :=
  List.filter (fun e => (start <=? e.1) && bool_decide (is_Some (gr_pending gr !! e.1))) (sm_entries st).
Definition mem_XAUTOCLAIM (k g c : string) (idle start : Z) (n : nat)
    : Prog mem_server (Z * list (Z * message)) := fun s =>
  in_group k g (fun gr => let l := stale_from start (at_key k s.1) gr in ((0, l), claimed_by c l gr)) s.
Definition mem_XPENDING (k g : string) (id : Z) : Prog mem_server (option Z) := fun s =>
  match group_of k g s.1 with
  | None => (Err NOGROUP, s)
  | Some gr => (Ok (pe_deliveries <$> gr_pending gr !! id), s)
  end.
Definition mem_XACK (k g : string) (id : Z) : Prog mem_server () := fun s =>
  match group_of k g s.1 with
  | None => (Ok (), s)
  | Some gr => (Ok (), (set_group k g (acknowledged id gr) s.1, s.2))
  end.

Lemma mem_XADD_spec flaky k m s r s' : mem_XADD flaky k m s = (r, s') ->
  (s'.1 = s.1 /\ exists e, r = Err e)
  \/ exists id, last_id (at_key k s.1) < id
       /\ s'.1 = <[k := appended id m (at_key k s.1)]> s.1 /\ forall x, r = Ok x -> x = id.
Proof.
  unfold mem_XADD, mem_append. destruct (_ && _); intros [= <- <-]; [left; split; [done|by eexists]|right].
  exists (last_id (at_key k s.1) + 1). simpl. split; [lia|]. split; [done|]. by intros x [= ->].
Qed.
Lemma mem_XGROUP_spec k g s r s' : mem_XGROUP k g s = (r, s') ->
  (s'.1 = s.1 /\ exists e, r = Err e)
  \/ group_of k g s.1 = None /\ s'.1 = set_group k g new_group s.1.
Proof.
  unfold mem_XGROUP. destruct (group_of _ _ _) eqn:E; intros [= <- <-]; [left; split; [done|by eexists]|by right].
Qed.
Lemma mem_XREADGROUP_spec g c k n s r s' : mem_XREADGROUP g c k n s = (r, s') ->
  (s'.1 = s.1 /\ exists e, r = Err e)
  \/ exists gr, group_of k g s.1 = Some gr
       /\ let l := unread gr n (at_key k s.1) in
          s'.1 = set_group k g (given c l gr) s.1 /\ forall x, r = Ok x -> x = l.
Proof.
  unfold mem_XREADGROUP, in_group. destruct (group_of _ _ _) as [gr|] eqn:E; intros [= <- <-];
    [|left; split; [done|by eexists]].
  right. exists gr. split; [done|]. split; [done|]. by intros x [= ->].
Qed.
Lemma mem_XAUTOCLAIM_spec k g c idle start n s r s' : mem_XAUTOCLAIM k g c idle start n s = (r, s') ->
  (s'.1 = s.1 /\ exists e, r = Err e)
  \/ exists gr next l, group_of k g s.1 = Some gr
       /\ claimable start (at_key k s.1) gr next l
       /\ s'.1 = set_group k g (claimed_by c l gr) s.1 /\ forall x, r = Ok x -> x = (next, l).
Proof.
  unfold mem_XAUTOCLAIM, in_group. destruct (group_of _ _ _) as [gr|] eqn:E; intros [= <- <-];
    [|left; split; [done|by eexists]].
  right. exists gr, 0, (stale_from start (at_key k s.1) gr). split; [done|]. split; [split; [|by left]|].
  - intros e [He Hb]%list_elem_of_In%filter_In.
    apply andb_true_iff in Hb as [Hl%Z.leb_le Hp%bool_decide_eq_true]. by rewrite list_elem_of_In.
  - split; [done|]. by intros x [= ->].
Qed.
Lemma mem_XPENDING_spec k g id s r s' : mem_XPENDING k g id s = (r, s') ->
  s'.1 = s.1
  /\ forall x, r = Ok x -> exists gr, group_of k g s.1 = Some gr /\ x = pe_deliveries <$> gr_pending gr !! id.
Proof.
  unfold mem_XPENDING. destruct (group_of _ _ _) as [gr|] eqn:E; intros [= <- <-]; (split; [done|]); [|done].
  intros x [= <-]. by exists gr.
Qed.
Lemma mem_XACK_spec k g id s r s' : mem_XACK k g id s = (r, s') ->
  (s'.1 = s.1 /\ exists e, r = Err e)
  \/ (group_of k g s.1 = None /\ s'.1 = s.1)
  \/ exists gr, group_of k g s.1 = Some gr /\ s'.1 = set_group k g (acknowledged id gr) s.1.
Proof.
  unfold mem_XACK. destruct (group_of _ _ _) as [gr|] eqn:E; intros [= <- <-]; right; [right|by left].
  by exists gr.
Qed.

Definition mem_streams (flaky : bool) : StreamServer := {|
  server := mem_server; streams := fst; XADD := mem_XADD flaky; XGROUP_CREATE := mem_XGROUP;
  XREADGROUP := mem_XREADGROUP; XAUTOCLAIM := mem_XAUTOCLAIM; XPENDING := mem_XPENDING; XACK := mem_XACK;
  parse_text := fun s => Err (ValueError s);
  XADD_spec := mem_XADD_spec flaky; XGROUP_spec := mem_XGROUP_spec; XREADGROUP_spec := mem_XREADGROUP_spec;
  XAUTOCLAIM_spec := mem_XAUTOCLAIM_spec; XPENDING_spec := mem_XPENDING_spec; XACK_spec := mem_XACK_spec
|}.

(** A validator that reads the fields the consumer uses. *)
Definition ex_validate (j : json) : result OutboxEventEnvelope :=
  match jget "event_id" j, jget "event_type" j, jget "payload" j with
  | JStr i, JStr t, JObj p =>
      u <-! parse_uuid i;
      Ok {| env_event_id := u; env_event_type := t; env_schema_version := 1; env_aggregate_type := "incident";
            env_aggregate_id := 0; env_occurred_at := 0; env_correlation_id := None; env_causation_id := None;
            env_producer := ""; env_payload := p |}
  | _, _, _ => Err (ValidationError "invalid envelope")
  end.
#[export] Instance ex_schema : EnvelopeSchema := {| model_validate := ex_validate |}.

(** ** Two events of one incident *)

Definition ev_insert (now : instant) (incident : uuid) : Tx () :=
  insert_outbox_event now "kill_switch.changed" "incident" incident (Some incident)
    (PKillSwitchChanged {| ksp_scope := "global"; ksp_engaged := true; ksp_actor := "bob"; ksp_reason := None |}).
Definition ev_first : db := (atomically (ev_insert 1000 2) empty_db).2.
Definition ev_outbox : db := (atomically (ev_insert 2000 2) ev_first).2.
Definition ev_stream : string := stream_name_for_shard DEFAULT_STREAM_PREFIX 0.
Definition ev_clock : Prog () instant := fun u => (Ok 5000, u).
Definition no_streams : mem_server := (∅, []).

Definition ev_relay (flaky : bool) (x : mem_server * db) : result Z * (() * (mem_server * db)) :=
  relay_once (@publish_to_stream _ (mem_streams flaky) DEFAULT_STREAM_PREFIX DEFAULT_SHARD_COUNT) ev_clock DEFAULT_MAX_PUBLISH_ATTEMPTS 10 ((), x).

(** The server refuses the first event as often as it is tried, and takes the second. *)
Definition ev_refusing : mem_server := (∅, [true; true; true]).
Definition ev_after (x : mem_server * db) : mem_server * db := (ev_relay true x).2.2.
Definition ev_round1 : mem_server * db := ev_after (ev_refusing, ev_outbox).
Definition ev_round2 : mem_server * db := ev_after ev_round1.
(** When the events of the stream occurred, in the order of the stream. *)
Definition ev_times (x : mem_server * db) : list json :=
  map (fun e => match field "event" e.2 with Ok (Doc j) => jget "occurred_at" j | _ => JNull end)
    (entries_of ev_stream x.1.1).
Definition ev_marks (d : db) : list (bool * Z * option string) :=
  map (fun e => (bool_decide (is_Some (oe_published_at e)), oe_publish_attempts e, oe_last_publish_error e))
    (outbox_events d).

(** The relay goes on after an event it could not publish: the events of one incident reach
    their stream in the opposite order. *)
Lemma a_failure_inverts_the_order :
  ev_times ev_round1 = [json_instant 2000] /\ ev_times ev_round2 = [json_instant 2000; json_instant 1000]
  /\ ev_marks ev_round1.2 = [(false, 1, Some "connection refused"); (true, 1, None)]
  /\ ev_marks ev_round2.2 = [(true, 2, None); (true, 1, None)].
Proof. vm_compute. split_and!; reflexivity. Qed.

(** ** The theorems on the relay *)

Definition ev_row (d : db) (i : nat) : OutboxEventRow :=
  default {| oe_sequence := 0; oe_event_id := 0; oe_event_type := ""; oe_schema_version := 1;
             oe_aggregate_type := ""; oe_aggregate_id := 0; oe_correlation_id := None; oe_producer := "";
             oe_payload := PKillSwitchChanged {| ksp_scope := ""; ksp_engaged := true; ksp_actor := "";
                                                 ksp_reason := None |};
             oe_occurred_at := 0; oe_published_at := None; oe_publish_attempts := 0;
             oe_last_publish_error := None |} (outbox_events d !! i).

Lemma ev_round1_steps :
  rtc (@outbox_step ex_hashing (mem_streams true) DEFAULT_STREAM_PREFIX DEFAULT_SHARD_COUNT)
    (ev_refusing, empty_db) ev_round1.
Proof.
  eapply rtc_l; [apply os_insert with (now := 1000)|]. eapply rtc_l; [apply os_insert with (now := 2000)|].
  apply rtc_once. exact (@os_relay ex_hashing (mem_streams true) _ _ (ev_refusing, ev_outbox) () ev_clock
    DEFAULT_MAX_PUBLISH_ATTEMPTS 10 ()).
Qed.

(** The second event, published while the first one waits. *)
Lemma published_events_are_streamed_witness :
  exists k id, stream_of_event DEFAULT_STREAM_PREFIX DEFAULT_SHARD_COUNT (_envelope_from_row (ev_row ev_round1.2 1)) = Ok k
    /\ (id, event_message (_envelope_from_row (ev_row ev_round1.2 1))) ∈ entries_of k ev_round1.1.1.
Proof.
  apply (@published_events_are_streamed ex_hashing (mem_streams true) _ _ (ev_refusing, empty_db) ev_round1).
  - reflexivity.
  - exact ev_round1_steps.
  - apply (list_elem_of_lookup_2 _ 1). vm_compute. reflexivity.
  - eexists. vm_compute. reflexivity.
Defined.

Definition ev_calm (s : () * (mem_server * db)) : result Z * (() * (mem_server * db)) :=
  relay_once (@publish_to_stream _ (mem_streams false) DEFAULT_STREAM_PREFIX DEFAULT_SHARD_COUNT) ev_clock
    DEFAULT_MAX_PUBLISH_ATTEMPTS 10 s.

(** The same two events, and a server that takes what it is given. *)
Lemma relay_keeps_order_witness :
  exists s', ev_calm ((), (no_streams, ev_outbox)) = (Ok 2, s')
    /\ (forall k, messages_on (SV := mem_streams false) k s'
         = messages_on (SV := mem_streams false) k ((), (no_streams, ev_outbox))
           ++ messages_for DEFAULT_STREAM_PREFIX DEFAULT_SHARD_COUNT k
                (get_unpublished_outbox_events 10 ev_outbox))
    /\ (forall row, row ∈ get_unpublished_outbox_events 10 ev_outbox -> is_published row s'.2.2).
Proof.
  apply (@relay_keeps_order ex_hashing (mem_streams false) DEFAULT_STREAM_PREFIX DEFAULT_SHARD_COUNT ()
    ev_clock DEFAULT_MAX_PUBLISH_ATTEMPTS).
  - discriminate.
  - intros k m w. do 2 eexists. reflexivity.
  - intros c. by exists 5000, c.
  - vm_compute. lia.
Defined.

(** ** The theorems on the consumers *)

Definition ev_group : string := consumer_group_name "investigations".
Definition ev_dlq : string := dead_letter_stream_name DEFAULT_STREAM_PREFIX.
Definition ev_ledger : Ledger := table_ledger "investigations-1".
Definition ev_message (i : nat) : message := event_message (_envelope_from_row (ev_row ev_outbox i)).

(** A handler that fails on the first event, each time. *)
Definition ev_handler (e : OutboxEventEnvelope) : Prog (list uuid) () := fun l =>
  (if bool_decide (env_event_id e = oe_event_id (ev_row ev_outbox 0)) then Err (RuntimeError "not now") else Ok (),
   l ++ [env_event_id e]).

#[local] Instance ev_streams : StreamServer := mem_streams true.
#[local] Existing Instance ev_ledger.

Definition ev_state (x : mem_server * db) : ConsumerState (hs := list uuid) :=
  {| cn_server := x.1; cn_ledger := x.2; cn_handler := []; cn_stats := no_stats |}.
Definition ev_left (s : ConsumerState (hs := list uuid)) : mem_server * db := (cn_server s, cn_ledger s).

Definition ev_joined : mem_server * db :=
  ev_left (_ensure_group ev_stream ev_group (ev_state (no_streams, empty_db))).2.
Definition ev_sent (i : nat) (x : mem_server * db) : mem_server * db :=
  ((XADD ev_stream (ev_message i) x.1).2, x.2).
Definition ev_consume (x : mem_server * db) : result (option Z) * ConsumerState (hs := list uuid) :=
  run_once ev_handler ev_stream ev_group "worker-1" ev_dlq DEFAULT_MAX_DELIVERIES DEFAULT_CLAIM_MIN_IDLE_MS
    DEFAULT_BATCH_SIZE 3 (ev_state x).
Definition ev_rounds (n : nat) : mem_server * db :=
  Nat.iter n (fun x => ev_left (ev_consume x).2) (ev_sent 1 (ev_sent 0 ev_joined)).

(** What each of the rounds returned, whom its handler was called with, and what it counted. *)
Definition ev_report (n : nat) : result (option Z) * list uuid * ConsumerStats :=
  let '(r, s) := ev_consume (ev_rounds n) in (r, cn_handler s, cn_stats s).

Definition stats (processed duplicates failures dead_lettered : Z) : ConsumerStats :=
  {| cs_processed := processed; cs_duplicates_skipped := duplicates; cs_failures := failures;
     cs_dead_lettered := dead_lettered |}.
(** Five calls for the event that fails, and the sixth delivery dead-letters it. *)
Lemma the_poisoned_event :
  map ev_report [0; 1; 4; 5; 6]%nat
  = [(Ok (Some 2), [1; 2]%N, stats 1 0 1 0); (Ok (Some 1), [1]%N, stats 0 0 1 0);
     (Ok (Some 1), [1]%N, stats 0 0 1 0); (Ok (Some 1), [], stats 0 0 0 1); (Ok (Some 0), [], no_stats)]
  /\ length (entries_of ev_dlq (ev_rounds 6).1.1) = 1%nat.
Proof. vm_compute. split_and!; reflexivity. Qed.

Lemma ev_rounds_steps n :
  rtc (bus_step ev_stream ev_group ev_dlq) (no_streams, empty_db) (ev_rounds n).
Proof.
  induction n as [|n IH].
  - eapply rtc_l; [exact (bs_join _ _ _ _ _ (ev_state (no_streams, empty_db)) eq_refl)|].
    eapply rtc_l; [exact (bs_publish _ _ _ _ ev_stream (ev_message 0))|].
    apply rtc_once. exact (bs_publish _ _ _ _ ev_stream (ev_message 1)).
  - eapply rtc_r; [exact IH|]. change (ev_rounds (S n)) with (ev_left (ev_consume (ev_rounds n)).2).
    apply (bs_round _ _ _ _ _ ev_handler "worker-1" DEFAULT_MAX_DELIVERIES DEFAULT_CLAIM_MIN_IDLE_MS
      DEFAULT_BATCH_SIZE 3 (ev_state (ev_rounds n))).
    by destruct (ev_rounds n).
Qed.

(** The group after these rounds. *)
Definition ev_group_at (n : nat) : GroupState := default new_group (group_of ev_stream ev_group (ev_rounds n).1.1).

(** The failing event, after the round that dead-lettered it. *)
Lemma no_event_is_lost_witness :
  is_Some (gr_pending (ev_group_at 6) !! (1, ev_message 0).1)
  \/ exists env, envelope_of (1, ev_message 0).2 = Ok env
       /\ (env_event_id env ∈ consumed (ev_rounds 6).2
           \/ exists id reason, (id, dead_letter_message ev_stream ev_group env reason)
                                ∈ entries_of ev_dlq (streams (ev_rounds 6).1)).
Proof.
  apply (@no_event_is_lost ev_streams ex_schema ev_ledger ev_stream ev_group ev_dlq (no_streams, empty_db)
    (ev_rounds 6) (ev_group_at 6) (1, ev_message 0)).
  - reflexivity.
  - exact (ev_rounds_steps 6).
  - vm_compute. reflexivity.
  - apply (list_elem_of_lookup_2 _ 0). vm_compute. reflexivity.
  - vm_compute. discriminate.
Defined.

(** The second round of the same run, the calls of the handler kept: the event handled in
    the first round is not handled again. *)
Definition ev_logged (n : nat) : ConsumerState (hs := list (uuid * bool) * list uuid) :=
  {| cn_server := (ev_rounds n).1; cn_ledger := (ev_rounds n).2; cn_handler := ([], []); cn_stats := no_stats |}.
Definition ev_logged_round (n : nat) : result (option Z) * ConsumerState (hs := list (uuid * bool) * list uuid) :=
  run_once (kept_calls ev_handler) ev_stream ev_group "worker-1" ev_dlq DEFAULT_MAX_DELIVERIES
    DEFAULT_CLAIM_MIN_IDLE_MS DEFAULT_BATCH_SIZE 3 (ev_logged n).
Example ev_calls : map (fun n => log_of (ev_logged_round n).2) [0; 1]%nat = [[(1%N, false); (2%N, true)]; [(1%N, false)]].
Proof. vm_compute. reflexivity. Qed.

Lemma events_are_handled_once_witness :
  Forall (fun x => x.1 ∉ consumed_in (ev_logged 1)) (log_of (ev_logged_round 1).2).
Proof.
  destruct (@events_are_handled_once ev_streams ex_schema ev_ledger (list uuid) ev_handler ev_stream ev_group
              "worker-1" ev_dlq DEFAULT_MAX_DELIVERIES DEFAULT_CLAIM_MIN_IDLE_MS DEFAULT_BATCH_SIZE 3 (ev_logged 1))
    as (new & Hl & _ & Hn & _).
  assert (log_of (ev_logged_round 1).2 = new) as E by exact Hl. rewrite E. apply Forall_forall. exact Hn.
Defined.

Lemma rounds_end_witness :
  exists r, (run_once ev_handler ev_stream ev_group "worker-1" ev_dlq DEFAULT_MAX_DELIVERIES
    DEFAULT_CLAIM_MIN_IDLE_MS DEFAULT_BATCH_SIZE (S (size (pending_in ev_stream ev_group (ev_state (ev_rounds 1)))))
    (ev_state (ev_rounds 1))).1 = r /\ r <> Ok None.
Proof.
  eexists. split; [reflexivity|].
  exact (@rounds_end ev_streams ex_schema ev_ledger (list uuid) ev_handler ev_stream ev_group "worker-1" ev_dlq
           DEFAULT_MAX_DELIVERIES DEFAULT_CLAIM_MIN_IDLE_MS DEFAULT_BATCH_SIZE (ev_state (ev_rounds 1))).
Defined.
