(* ===== verification/Planner.v ===== *)
(** * The remediation planner ([packages/remediation/planner.py])

    [RemediationPlanner.plan] maps an accepted report and the evidence records it cites to
    at most one proposal.  The report and the payloads of the records are documents read as
    the code reads them.  The records come from an evidence reader, any program. *)
From S2P Require Import Prelude PyFloat Json Enums VerificationDomain Catalog.
From S2P Require Import RemediationDomain Uuid InvestigationDomain Store Prog RemediationService.
From S2P Require Import InvestigationService EvidenceScope EvidenceService.
Local Open Scope Z_scope.

(** ** Reading documents *)

(** [j.get(k)] *)
Definition get_attr (k : string) (j : json) : result json :=
  match j with
  | JObj _ => Ok (jget k j)
  | _ => Err (AttributeError "object has no attribute 'get'")
  end.
(** [j[k]] *)
Definition get_item (k : string) (j : json) : result json :=
  match j with
  | JObj l => jitem k l
  | JArr _ | JStr _ => Err (TypeError "indices must be integers")
  | _ => Err (TypeError "object is not subscriptable")
  end.
(** [j[0]] of a value that is true *)
Definition first_item (j : json) : result json :=
  match j with
  | JArr (x :: _) => Ok x
  | JStr (String c _) => Ok (JStr (String c ""))
  | JObj _ => Err (KeyError "0")
  | JArr [] | JStr "" => Err (RuntimeError "index out of range")
  | _ => Err (TypeError "object is not subscriptable")
  end.
(** [set(j)] *)
Definition hashable (j : json) : bool := match j with JArr _ | JObj _ => false | _ => true end.
Definition set_of (j : json) : result (list json) :=
  l <-! iterate j;
  if forallb hashable l then Ok l else Err (TypeError "unhashable type").
Definition or_empty_list (j : json) : json := if truthy j then j else JArr [].

(** ** The proposals *)

Section Planner.
Context {er : Type} (get_incident_evidence : uuid -> Prog er (list EvidenceRecord)).

Definition cited (supporting : list json) (component : json) (r : EvidenceRecord) : bool :=
  existsb (py_eq (JStr (str_uuid (ev_evidence_id r)))) supporting
  && py_eq (JStr (ev_subject_service r)) component.

(** [{"service": component, **params}] *)
Definition proposal (incident_id investigation_id : uuid) (component : json) (reason action : string)
    (params : list (string * json)) (effect : string) : result RemediationProposal :=
  RemediationProposal_new
    {| pr_incident_id := incident_id; pr_investigation_id := Some investigation_id;
       pr_action_id := action; pr_parameters := ("service", component) :: params;
       pr_reason := take_str 1000 reason; pr_expected_effect := effect; pr_source := "planner";
       pr_proposed_by := "remediation-planner" |}.

(** [next((r for r in records if r.evidence_type.value == t), None)], its payload *)
Definition payload_of_type (t : EvidenceType) (records : list EvidenceRecord) : option json :=
  ev_normalized_payload <$> List.find (fun r => bool_decide (ev_evidence_type r = t)) records.

Definition Planned : Type := (option RemediationProposal * string)%type.
Definition no_proposal (why : string) : result Planned := Ok (None, why).
Definition proposed (p : result RemediationProposal) (why : string) : result Planned :=
  q <-! p; Ok (Some q, why).

Section Causes.
Context (component : json).
Context (make : string -> list (string * json) -> string -> result RemediationProposal).

Definition plan_rollback (records : list EvidenceRecord) : result Planned :=
  current <-! match payload_of_type DEPLOYMENT records with
              | Some payload => c <-! get_attr "current" payload; Ok (or_empty c)
              | None => Ok (JObj [])
              end;
  running <-! get_attr "version" current;
  previous <-! get_attr "previous_version" current;
  if negb (truthy running) || negb (truthy previous)
  then no_proposal "no cited deployment record names the running and previous versions"
  else proposed (make "rollback_deployment" [("from_version", running); ("to_version", previous)]
                   (py_str component +++ " returns to " +++ py_str previous
                    +++ "; its error rate returns below 5%"))
         "rollback to the previously deployed version".

Definition plan_change (change : json) : result Planned :=
  key <-! get_item "key" change;
  if startswith "feature." (py_str key)
  then proposed (make "disable_feature_flag" [("flag", key)]
                   (py_str key +++ " off; " +++ py_str component +++ " error rate returns below 5%"))
         "disable the feature flag that changed"
  else
    old <-! get_attr "old_value" change;
    if is_null old then no_proposal "the configuration change has no previous value to revert to"
    else
      new <-! get_item "new_value" change;
      proposed (make "revert_configuration" [("key", key); ("from_value", new); ("to_value", old)]
                  (py_str key +++ " back to " +++ py_repr old +++ "; errors return below 5%"))
        "revert the configuration change".

Definition plan_configuration (records : list EvidenceRecord) : result Planned :=
  changes <-! match payload_of_type CONFIGURATION records with
              | Some payload => c <-! get_attr "changes_in_window" payload; Ok (or_empty_list c)
              | None => Ok (JArr [])
              end;
  if negb (truthy changes) then no_proposal "no cited configuration record contains the change"
  else change <-! first_item changes; plan_change change.

Definition plan_for (category : json) (records : list EvidenceRecord) : result Planned :=
  if py_eq category (JStr "deployment") then plan_rollback records
  else if py_eq category (JStr "configuration") then plan_configuration records
  else if py_eq category (JStr "resource_memory") then
    proposed (make "restart_service" [] (py_str component +++ " memory back to baseline"))
      "restart to release leaked memory"
  else if py_eq category (JStr "resource_cpu") || py_eq category (JStr "traffic") then
    proposed (make "scale_service" [("increase_by", JInt 2)] (py_str component +++ " p95 latency below 1s"))
      "add capacity"
  else no_proposal ("no catalog action remediates a " +++ py_str category +++ " cause on "
                    +++ py_str component).
End Causes.

Definition plan (incident_id investigation_id : uuid) (rca_report : json) : Prog er Planned :=
  root ← pure (r <-! get_attr "root_cause_hypothesis" rca_report; Ok (or_empty r));
  category ← pure (get_attr "cause_category" root);
  component ← pure (get_attr "component" root);
  if negb (truthy category) || negb (truthy component)
  then mret (None, "the RCA has no structured root cause")
  else
    supporting ← pure (s <-! get_attr "supporting_evidence" rca_report; set_of (or_empty_list s));
    evidence ← get_incident_evidence incident_id;
    let records := List.filter (cited supporting component) evidence in
    cause ← pure (c <-! get_attr "root_cause" rca_report; Ok (or_empty c));
    text ← pure (match cause with
                 | JObj l => Ok (default (JStr "") (assoc_get "text" l))
                 | _ => Err (AttributeError "object has no attribute 'get'")
                 end);
    let reason := "RCA of investigation " +++ str_uuid investigation_id +++ ": " +++ py_str category
                  +++ " in " +++ py_str component +++ ". " +++ py_str text in
    pure (plan_for component (proposal incident_id investigation_id component reason) category records).
End Planner.

(** ** What a proposal is made of *)

(** A value that occurs in a document. *)
Inductive occurs (v : json) : json -> Prop :=
| oc_here : occurs v v
| oc_item l j : j ∈ l -> occurs v j -> occurs v (JArr l)
| oc_field l k j : (k, j) ∈ l -> occurs v j -> occurs v (JObj l).

Lemma assoc_get_in {A} k (l : list (string * A)) v : assoc_get k l = Some v -> (k, v) ∈ l.
Proof.
  induction l as [|[k' w] l IH]; [done|]. simpl. case_bool_decide as E; [intros [= ->]; subst; left|].
  intros H. right. by apply IH.
Qed.
(** What the accessors return occurs in what they read, unless it is absent. *)
Lemma get_attr_occurs k j v : get_attr k j = Ok v -> v = JNull \/ occurs v j.
Proof.
  destruct j as [| | | | | |l]; try done. intros [= <-]. simpl. destruct (assoc_get k l) as [w|] eqn:E; [right|by left].
  eapply oc_field; [by apply assoc_get_in|constructor].
Qed.
Lemma get_item_occurs k j v : get_item k j = Ok v -> occurs v j.
Proof.
  destruct j as [| | | | | |l]; try done. simpl. unfold jitem.
  destruct (assoc_get k l) as [w|] eqn:E; [intros [= <-]|done].
  eapply oc_field; [by apply assoc_get_in|constructor].
Qed.
Lemma occurs_trans a b c : occurs a b -> occurs b c -> occurs a c.
Proof.
  intros Hab Hbc. induction Hbc as [|l j Hj _ IH|l k j Hj _ IH]; [done|by eapply oc_item|by eapply oc_field].
Qed.

Lemma offered a : (if get_entry a then true else false) = true -> is_Some (get_entry a).
Proof. by destruct (get_entry a). Qed.

(** A parameter: the component itself, the fixed increase, or a value of a record. *)
Definition grounded (component : json) (records : list EvidenceRecord) (kv : string * json) : Prop :=
  kv = ("service", component) \/ kv = ("increase_by", JInt 2)
  \/ exists r, r ∈ records /\ occurs kv.2 (ev_normalized_payload r).

Section Made.
Context (incident investigation : uuid) (component : json) (reason : string) (records : list EvidenceRecord).

(** What holds of a proposal, if there is one. *)
Definition well_made (o : Planned) : Prop :=
  forall p, o.1 = Some p ->
    pr_incident_id p = incident /\ pr_investigation_id p = Some investigation /\ pr_source p = "planner"
    /\ is_Some (get_entry (pr_action_id p)) /\ assoc_get "service" (pr_parameters p) = Some component
    /\ (forall kv, kv ∈ pr_parameters p -> grounded component records kv).
Abbreviation make := (proposal incident investigation component reason).

Lemma proposed_well_made action params effect why o :
  proposed (make action params effect) why = Ok o ->
  is_Some (get_entry action) -> (forall kv, kv ∈ params -> grounded component records kv) -> well_made o.
Proof.
  unfold proposed, proposal. intros (q & Hq & [= <-])%rbind_Ok Ha Hp.
  unfold RemediationProposal_new in Hq. destruct (proposal_ok _); [|done]. injection Hq as <-.
  intros p [= <-]. cbn [pr_action_id pr_source pr_parameters pr_incident_id pr_investigation_id].
  split; [done|]. split; [done|]. split; [done|]. split; [done|]. split; [done|].
  intros kv [->|Hin]%elem_of_cons; [by left|by apply Hp].
Qed.
Lemma none_well_made why o : no_proposal why = Ok o -> well_made o.
Proof. by intros [= <-]. Qed.

(** What is read of the record of a type: a value of one of the records, or nothing. *)
Definition from_records (v : json) : Prop := exists r, r ∈ records /\ occurs v (ev_normalized_payload r).
Lemma from_records_within v c : occurs v c -> from_records c -> from_records v.
Proof. intros Hv (r & Hr & Hc). exists r. split; [done|by eapply occurs_trans]. Qed.
Lemma read_record t k empty (f : json -> json) c :
  f JNull = empty -> (forall j, f j = j \/ f j = empty) ->
  match payload_of_type t records with
  | Some payload => v <-! get_attr k payload; Ok (f v)
  | None => Ok empty
  end = Ok c -> c = empty \/ from_records c.
Proof.
  intros Hn Hf. unfold payload_of_type. destruct (List.find _ records) as [r|] eqn:E; cbn [fmap option_fmap option_map];
    [|by intros [= <-]; left].
  apply find_some in E as [Hin _]. apply list_elem_of_In in Hin. intros (v & Hv & [= <-])%rbind_Ok.
  destruct (get_attr_occurs _ _ _ Hv) as [->|Ho]; [by left|].
  destruct (Hf v) as [->| ->]; [right; by exists r|by left].
Qed.
(** A true value read of it. *)
Lemma read_true k c v empty : (c = empty \/ from_records c) -> empty = JObj [] ->
  get_attr k c = Ok v -> truthy v = true -> from_records v.
Proof.
  intros Hc He Hv Ht. destruct Hc as [->|Hc]; [subst; by injection Hv as <-|].
  destruct (get_attr_occurs _ _ _ Hv) as [->|Ho]; [done|by eapply from_records_within].
Qed.
Lemma grounded_from k v : from_records v -> grounded component records (k, v).
Proof. intros H. by right; right. Qed.

Lemma rollback_made o : plan_rollback component make records = Ok o -> well_made o.
Proof.
  unfold plan_rollback. intros (c & Hc & H)%rbind_Ok.
  apply (read_record _ _ (JObj []) or_empty) in Hc; [|done|unfold or_empty; intros j; destruct (truthy j); auto].
  apply rbind_Ok in H as (running & Hr & H). apply rbind_Ok in H as (previous & Hp & H).
  destruct (truthy running) eqn:Tr; [|exact (none_well_made _ _ H)].
  destruct (truthy previous) eqn:Tp; [|exact (none_well_made _ _ H)]. cbn [negb orb] in H.
  eapply proposed_well_made; [exact H|apply offered; vm_compute; reflexivity|].
  intros kv [->|[->|Hn]%elem_of_cons]%elem_of_cons; [apply grounded_from..|by apply elem_of_nil in Hn].
  - by apply (read_true "version" c running (JObj [])).
  - by apply (read_true "previous_version" c previous (JObj [])).
Qed.

Lemma change_made change o : from_records change -> plan_change component make change = Ok o -> well_made o.
Proof.
  intros Hc. unfold plan_change. intros (key & Hk & H)%rbind_Ok.
  assert (from_records key) as Fk by (eapply from_records_within; [by eapply get_item_occurs|done]).
  destruct (startswith _ _).
  { eapply proposed_well_made; [exact H|apply offered; vm_compute; reflexivity|]. intros kv ->%list_elem_of_singleton. by apply grounded_from. }
  apply rbind_Ok in H as (old & Ho & H). destruct (is_null old) eqn:En; [exact (none_well_made _ _ H)|].
  apply rbind_Ok in H as (new & Hn & H).
  eapply proposed_well_made; [exact H|apply offered; vm_compute; reflexivity|].
  intros kv [->|[->|[->|Hx]%elem_of_cons]%elem_of_cons]%elem_of_cons;
    [apply grounded_from..|by apply elem_of_nil in Hx]; [done|..].
  - eapply from_records_within; [by eapply get_item_occurs|done].
  - destruct (get_attr_occurs _ _ _ Ho) as [->|Hold]; [done|by eapply from_records_within].
Qed.

Lemma configuration_made o : plan_configuration component make records = Ok o -> well_made o.
Proof.
  unfold plan_configuration. intros (c & Hc & H)%rbind_Ok.
  apply (read_record _ _ (JArr []) or_empty_list) in Hc; [|done|unfold or_empty_list; intros j; destruct (truthy j); auto].
  destruct (truthy c) eqn:Tc; cbn [negb] in H; [|exact (none_well_made _ _ H)].
  destruct Hc as [->|Hc]; [done|]. apply rbind_Ok in H as (change & Hf & H).
  destruct c as [| | | |s|[|x l]|l]; try done; cbn [first_item] in Hf.
  - destruct s as [|ch s]; [done|]. injection Hf as <-. unfold plan_change in H. by apply rbind_Ok in H as (? & ? & _).
  - injection Hf as <-. eapply change_made; [|exact H]. eapply from_records_within; [|exact Hc].
    eapply oc_item; [left|constructor].
Qed.

Lemma cause_made category o : plan_for component make category records = Ok o -> well_made o.
Proof.
  unfold plan_for. destruct (py_eq category (JStr "deployment")); [apply rollback_made|].
  destruct (py_eq category (JStr "configuration")); [apply configuration_made|].
  destruct (py_eq category (JStr "resource_memory")).
  { intros H. eapply proposed_well_made; [exact H|apply offered; vm_compute; reflexivity|]. intros kv Hkv. by apply elem_of_nil in Hkv. }
  destruct (_ || _); [|apply none_well_made].
  intros H. eapply proposed_well_made; [exact H|apply offered; vm_compute; reflexivity|].
  intros kv ->%list_elem_of_singleton. by right; left.
Qed.
End Made.

Lemma py_eq_text t j : py_eq (JStr t) j = true -> j = JStr t.
Proof. destruct j; simpl; try done. intros H%bool_decide_eq_true. by subst. Qed.

(** C22: the planner invents nothing.  A proposal names the incident, a catalog action and
    the component of the root cause as its service; every other parameter is the fixed
    increase of a scaling, or a value found in an evidence record of that very component
    which the report cites in support of its root cause. *)
Theorem planner_invents_nothing {er} (get_incident_evidence : uuid -> Prog er (list EvidenceRecord))
    incident investigation report s p why s' :
  plan get_incident_evidence incident investigation report s = (Ok (Some p, why), s') ->
  exists service supporting evidence,
    jget "component" (or_empty (jget "root_cause_hypothesis" report)) = service
    /\ set_of (or_empty_list (jget "supporting_evidence" report)) = Ok supporting
    /\ get_incident_evidence incident s = (Ok evidence, s')
    /\ pr_incident_id p = incident /\ pr_investigation_id p = Some investigation /\ pr_source p = "planner"
    /\ is_Some (get_entry (pr_action_id p)) /\ assoc_get "service" (pr_parameters p) = Some service
    /\ forall k v, (k, v) ∈ pr_parameters p ->
         (k, v) = ("service", service) \/ (k, v) = ("increase_by", JInt 2)
         \/ exists r, r ∈ evidence /\ JStr (str_uuid (ev_evidence_id r)) ∈ supporting
              /\ service = JStr (ev_subject_service r) /\ occurs v (ev_normalized_payload r).
Proof.
  unfold plan. intros H. apply prog_bind_run in H as (root & s0 & [= Hroot <-] & H).
  apply prog_bind_run in H as (category & s0 & [= Hcat <-] & H).
  apply prog_bind_run in H as (service & s0 & [= Hsvc <-] & H).
  destruct (negb (truthy category) || negb (truthy service)) eqn:Et; [by apply prog_ret_run in H as [[=] _]|].
  apply orb_false_iff in Et as [_ Et%negb_false_iff].
  apply prog_bind_run in H as (supporting & s0 & [= Hsup <-] & H).
  apply prog_bind_run in H as (evidence & s1 & Hev & H).
  apply prog_bind_run in H as (cause & s2 & [= Hcause <-] & H).
  apply prog_bind_run in H as (text & s2 & [= Htext <-] & H). injection H as Hplan <-.
  apply cause_made in Hplan. destruct (Hplan p eq_refl) as (H1 & H2 & H3 & H4 & H5 & H6).
  exists service, supporting, evidence. apply rbind_Ok in Hroot as (r & Hr & [= <-]).
  assert (forall k j v, get_attr k j = Ok v -> jget k j = v) as Hget by (intros k [] v; try done; by intros [= <-]).
  apply rbind_Ok in Hsup as (sp & Hsp & Hsup). apply Hget in Hr, Hsvc, Hsp. rewrite Hr, Hsp.
  do 8 (split; [done|]). intros k v Hkv. destruct (H6 _ Hkv) as [?|[?|(q & Hq & Ho)]]; [by left|by right; left|].
  right; right. exists q. apply list_elem_of_In, filter_In in Hq as [Hq Hcited].
  apply list_elem_of_In in Hq. split; [done|]. unfold cited in Hcited.
  apply andb_true_iff in Hcited as [(x & Hx & Hxe%py_eq_text)%existsb_exists Hs%py_eq_text]. subst x.
  split; [by apply list_elem_of_In|]. done.
Qed.
