(* ===== verification/Queries.v ===== *)
(** * The read models of the console ([packages/incident/queries.py])

    The list of incidents, the detail of one with its timeline, the overview and the
    metrics.  Nothing here writes; the reads of one request see one database.  A record
    stands for the dictionary of its row; times that are sorted as text are kept as the
    text, [isoformat()] of the queries' own and [model_dump] ([Z]) of the services'. *)
From Stdlib Require Import Ascii SpecFloat.
From S2P Require Import Prelude PyFloat Json Enums Correlation VerificationDomain Catalog RemediationDomain.
From S2P Require Import InvestigationDomain Store RemediationService InvestigationService.
From S2P Require Import VerificationService AgentContext Planner.
Local Open Scope Z_scope.

Definition ACTIVE_STATUSES : list string :=
  ["TRIAGING"; "INVESTIGATING"; "RCA_READY"; "AWAITING_APPROVAL"; "REMEDIATION_IN_PROGRESS";
   "VERIFYING"; "VERIFICATION_FAILED"].
Definition FINAL_STATUSES : list string :=
  ["RESOLVED"; "CANCELLED"; "ESCALATED"; "CLOSED"; "SUPPRESSED"].
Definition is_final (s : string) : bool := bool_decide (s ∈ FINAL_STATUSES).

Definition _iso (value : option instant) : option string := isoformat <$> value.

(** [round(x, k)]: the float next to the decimal nearest to [x], ties to even. *)
Definition round_to (k : nat) (x : float) : float :=
  match x with
  | S754_finite s m e =>
      match round_half_even (Zpos m * 2 ^ Z.max e 0 * 10 ^ Z.of_nat k) (2 ^ Z.max (- e) 0) with
      | Zpos p => of_decimal s p (- Z.of_nat k)
      | _ => S754_zero s
      end
  | _ => x
  end.
(** [timedelta.total_seconds()], and [float(EXTRACT(EPOCH FROM ...))] *)
Definition total_seconds (us : Z) : float :=
  match us with
  | Z0 => fzero
  | Zpos p => of_decimal false p (-6)
  | Zneg p => of_decimal true p (-6)
  end.

(** ** The list *)

Record Query := {
  q_statuses : list string;
  q_severities : list string;
  q_service : string;
  q_since : option instant;
  q_until : option instant;
}.
(** An empty filter does not filter. *)
Definition among (v : string) (l : list string) : bool :=
  match l with [] => true | _ => bool_decide (v ∈ l) end.
Definition selected (q : Query) (r : IncidentRow) : bool :=
  among (IncidentStatus_value (i_status r)) (q_statuses q)
  && among (AlertSeverity_value (i_severity r)) (q_severities q)
  && (negb (nonempty (q_service q)) || bool_decide (i_service r = q_service q))
  && match q_since q with Some t => t <=? i_created_at r | None => true end
  && match q_until q with Some t => i_created_at r <=? t | None => true end.

(** [ORDER BY created_at DESC] *)
Definition matching (q : Query) (d : db) : list IncidentRow :=
  order_by (fun r => - i_created_at r) (List.filter (selected q) (rows (incidents d))).

(** Later rows overwrite: the last one wins. *)
Definition _latest {R} (incident_id : R -> uuid) (status : R -> string) (order : R -> Z)
    (table : list R) (ids : list uuid) : gmap uuid string :=
  foldl (fun latest r => <[incident_id r := status r]> latest) ∅
    (order_by order (List.filter (fun r => bool_decide (incident_id r ∈ ids)) table)).

Record AlertStats := { as_count : Z; as_firing : Z; as_services : gset string }.
Definition count_alert (stats : gmap uuid AlertStats) (a : AlertRow) : gmap uuid AlertStats :=
  match a_incident_id a with
  | None => stats
  | Some n =>
      let entry := default {| as_count := 0; as_firing := 0; as_services := ∅ |} (stats !! n) in
      <[n := {| as_count := as_count entry + 1;
                as_firing := as_firing entry + (if bool_decide (a_status a = FIRING) then 1 else 0);
                as_services :=
                  match a_labels a !! "service" with
                  | Some s => if nonempty s then {[s]} ∪ as_services entry else as_services entry
                  | None => as_services entry
                  end |}]> stats
  end.
Definition of_incidents (ids : list uuid) (a : AlertRow) : bool :=
  match a_incident_id a with Some n => bool_decide (n ∈ ids) | None => false end.
Definition _alert_stats (d : db) (ids : list uuid) : gmap uuid AlertStats :=
  foldl count_alert ∅ (List.filter (of_incidents ids) (rows (alerts d))).

Definition status_changes (d : db) : list OutboxEventRow :=
  order_by oe_sequence
    (List.filter (fun e => bool_decide (oe_event_type e = "IncidentStatusChanged")) (outbox_events d)).
(** [payload.get("to_status")]: the only payload with that field. *)
Definition to_status (e : OutboxEventRow) : option string :=
  match oe_payload e with PIncidentStatusChanged p => Some (isc_to_status p) | _ => None end.
Definition _final_times (d : db) (ids : list uuid) : gmap uuid instant :=
  foldl (fun found e =>
    match to_status e with
    | Some s => if is_final s then <[oe_aggregate_id e := oe_occurred_at e]> found else found
    | None => found
    end) ∅
    (List.filter (fun e => bool_decide (oe_aggregate_id e ∈ ids)) (status_changes d)).

Record IncidentItem := {
  it_id : uuid;
  it_severity : string;
  it_service : string;
  it_environment : string;
  it_status : string;
  it_created_at : string;
  it_updated_at : string;
  it_ended_at : option string;
  it_duration_seconds : float;
  it_alert_count : Z;
  it_firing_alert_count : Z;
  it_affected_services : list string;
  it_affected_service_count : Z;
  it_attempt_count : Z;
  it_investigation_status : option string;
  it_remediation_status : option string;
  it_verification_status : option string;
}.
Record IncidentList := { li_total : Z; li_items : list IncidentItem; li_services : list string }.

(** [sorted(...)] of a set of texts *)
Definition sorted_set (s : gset string) : list string := sorted (elements s).
Definition duration (now created : instant) (ended : option instant) : float :=
  round_to 1 (total_seconds (default now ended - created)).

Section List.
Context (now : instant) (d : db) (ids : list uuid).

Definition item (r : IncidentRow) : IncidentItem :=
  let status := IncidentStatus_value (i_status r) in
  let ended := if is_final status then _final_times d ids !! i_id r else None in
  let stats := _alert_stats d ids !! i_id r in
  let services := match stats with Some s => sorted_set (as_services s) | None => [i_service r] end in
  {| it_id := i_id r;
     it_severity := AlertSeverity_value (i_severity r);
     it_service := i_service r;
     it_environment := i_environment r;
     it_status := status;
     it_created_at := isoformat (i_created_at r);
     it_updated_at := isoformat (i_updated_at r);
     it_ended_at := _iso ended;
     it_duration_seconds := duration now (i_created_at r) ended;
     it_alert_count := default 0 (as_count <$> stats);
     it_firing_alert_count := default 0 (as_firing <$> stats);
     it_affected_services := services;
     it_affected_service_count := Z.of_nat (length services);
     it_attempt_count := i_attempt_count r;
     it_investigation_status :=
       _latest inv_incident_id (fun x => InvestigationStatus_value (inv_status x)) inv_attempt_number
         (rows (investigations d)) ids !! i_id r;
     it_remediation_status :=
       _latest rm_incident_id (fun x => RemediationStatus_value (rm_status x)) rm_created_at
         (rows (remediations d)) ids !! i_id r;
     it_verification_status :=
       _latest v_incident_id (fun x => VerificationStatus_value (v_status x)) v_created_at
         (rows (verifications d)) ids !! i_id r |}.
End List.

Definition list_incidents (now : instant) (q : Query) (limit offset : nat) (d : db) : IncidentList :=
  let found := matching q d in
  let page := take limit (drop offset found) in
  {| li_total := Z.of_nat (length found);
     li_items := map (item now d (map i_id page)) page;
     li_services := sorted_set (list_to_set (map i_service (rows (incidents d)))) |}.

(** ** The detail *)

Record ToolCall := {
  tc_sequence : Z;
  tc_iteration : Z;
  tc_at : string;
  tc_tool : json;
  tc_arguments : json;
  tc_ok : json;
  tc_error_code : json;
  tc_summary : json;
  tc_evidence_ids : json;
}.
(** The updates are the dictionaries of the code: a payload may have an [at] of its own. *)
Record InvestigationDetail := {
  id_investigation : InvestigationRow;
  id_hypotheses : list json;
  id_tool_calls : list ToolCall;
  id_hypothesis_updates : list json;
  id_conclusion_rejections : list (string * json);
  id_rca : option RcaReportRow;
}.
Record RemediationDetail := {
  rd_remediation : RemediationRow;
  rd_policy_decisions : list RemediationPolicyDecisionRow;
  rd_executions : list RemediationExecutionRow;
  rd_timeline : list RemediationTimelineRow;
  rd_baseline : option json;
}.
Record VerificationDetail := {
  vd_verification : VerificationRow;
  vd_observations : list VerificationObservationRow;
  vd_evidence : list VerificationEvidenceRow;
}.
Record IncidentDetail := {
  dt_incident : IncidentRow;
  dt_ended_at : option string;
  dt_duration_seconds : float;
  dt_alerts : list AlertRow;
  dt_transitions : list Transition;
  dt_investigations : list InvestigationDetail;
  dt_remediations : list RemediationDetail;
  dt_verifications : list VerificationDetail;
  dt_evidence : list EvidenceRefRow;
}.
Record TimelineEvent := {
  tv_at : json;
  tv_kind : string;
  tv_title : string;
  tv_extra : list (string * json);
}.

(** A time in a [model_dump(mode="json")]: UTC as [Z]. *)
Definition dumped (t : instant) : string :=
  let s := isoformat t in take_str (String.length s - 6) s +++ "Z".

Definition tool_call (s : InvestigationStepRow) : ToolCall :=
  {| tc_sequence := st_sequence s; tc_iteration := st_iteration s; tc_at := dumped (st_created_at s);
     tc_tool := pget "tool" JNull s; tc_arguments := pget "arguments" (JObj []) s;
     tc_ok := pget "ok" JNull s; tc_error_code := pget "error_code" JNull s;
     tc_summary := pget "summary" JNull s; tc_evidence_ids := pget "evidence_ids" (JArr []) s |}.
(** [{"at": ..., "iteration": ..., **payload}] *)
Definition hypothesis_update (s : InvestigationStepRow) : json :=
  JObj (foldl (fun o kv => assoc_set kv.1 kv.2 o)
          [("at", JStr (dumped (st_created_at s))); ("iteration", JInt (st_iteration s))] (payload_of s)).
Definition conclusion_rejection (s : InvestigationStepRow) : string * json :=
  (dumped (st_created_at s), pget "unmet_criteria" (JArr []) s).

(** [get_trace], from which [_investigation] picks *)
Definition rca_of (investigation_id : uuid) (d : db) : result (option RcaReportRow) :=
  one_or_none (List.filter (fun r => bool_decide (rca_investigation_id r = investigation_id))
                 (rows (rca_reports d))).
Definition _investigation (d : db) (investigation_id : uuid) : result InvestigationDetail :=
  state <-! load_state investigation_id d;
  rca <-! rca_of investigation_id d;
  let steps := is_steps state in
  Ok {| id_investigation := is_investigation state;
        id_hypotheses := map to_json (is_hypotheses state).*2;
        id_tool_calls := map tool_call (List.filter (is_kind S_TOOL_CALL) steps);
        id_hypothesis_updates := map hypothesis_update (List.filter (is_kind S_HYPOTHESIS_UPDATE) steps);
        id_conclusion_rejections :=
          map conclusion_rejection (List.filter (is_kind S_CONCLUSION_REJECTED) steps);
        id_rca := rca |}.

Section Detail.
Context (d : db) (incident_id : uuid).

Definition alerts_of : list AlertRow :=
  order_by a_received_at
    (List.filter (fun a => bool_decide (a_incident_id a = Some incident_id)) (rows (alerts d))).
Definition investigation_ids : list uuid :=
  map inv_id (order_by inv_attempt_number
    (List.filter (fun r => bool_decide (inv_incident_id r = incident_id)) (rows (investigations d)))).
Definition refs_of : list EvidenceRefRow :=
  order_by er_collected_at
    (List.filter (fun r => bool_decide (er_incident_id r = incident_id)) (rows (evidence_refs d))).
Definition remediation_detail (r : RemediationRow) : RemediationDetail :=
  {| rd_remediation := r; rd_policy_decisions := policy_decisions_of (rm_id r) d;
     rd_executions := executions_of (rm_id r) d; rd_timeline := timeline_of (rm_id r) d;
     rd_baseline := baseline (rm_id r) d |}.
Definition verification_detail (v : VerificationRow) : VerificationDetail :=
  {| vd_verification := v; vd_observations := Core.observations_of (v_id v) d;
     vd_evidence := Core.evidence_links (v_id v) d |}.
End Detail.

(** The last transition to the status the incident has, when that is final. *)
Definition final_at (status : string) (transitions : list Transition) : option instant :=
  if is_final status then
    t_at <$> List.find (fun t => bool_decide (t_to t = status)) (rev transitions)
  else None.

(** *** The timeline *)

(** [replace("_", " ")] *)
Fixpoint spaced (s : string) : string :=
  match s with
  | "" => ""
  | String c s' => String (if base.decide (c = "_"%char) then " "%char else c) (spaced s')
  end.
(** The arrow of the titles, in UTF-8. *)
Definition arrow : string :=
  String (ascii_of_nat 226) (String (ascii_of_nat 134) (String (ascii_of_nat 146) "")).
Definition or_str (j : json) (s : string) : json := if truthy j then j else JStr s.

(** [add]: nothing without a time *)
Definition add (at_ : json) (kind title : string) (extra : list (string * json)) : list TimelineEvent :=
  if truthy at_ then [{| tv_at := at_; tv_kind := kind; tv_title := title; tv_extra := extra |}] else [].
Definition at_opt (t : option string) : json := jopt_str t.

Definition alert_events (a : AlertRow) : list TimelineEvent :=
  let name := py_str (jopt_str (a_labels a !! "alertname")) in
  let service := py_str (jopt_str (a_labels a !! "service")) in
  let ref := [("ref", JStr (str_uuid (a_id a)))] in
  add (JStr (isoformat (a_received_at a))) "alert" (name +++ " fired on " +++ service) ref
  ++ add (at_opt (_iso (a_resolved_at a))) "alert" (name +++ " resolved") ref.
Definition transition_event (t : Transition) : list TimelineEvent :=
  add (JStr (isoformat (t_at t))) "state" (t_from t +++ " " +++ arrow +++ " " +++ t_to t)
    [("detail", JStr (t_reason t))].
Definition evidence_event (c : ToolCall) : list TimelineEvent :=
  if truthy (tc_ok c) && truthy (tc_evidence_ids c) then
    add (JStr (tc_at c)) "evidence"
      (take_str 160 (py_str (tc_tool c) +++ ": " +++ py_str (or_str (tc_summary c) "")))
      [("evidence_ids", tc_evidence_ids c)]
  else [].
(** An [update], and what it applied. *)
Definition applied_event (update applied : json) : result (list TimelineEvent) :=
  at_ <-! item_of "at" update;
  key <-! item_of "key" applied;
  from <-! get_attr "from_status" applied;
  to <-! item_of "to_status" applied;
  Ok (add at_ "hypothesis"
        (py_str key +++ ": " +++ py_str (or_str from "new") +++ " " +++ arrow +++ " " +++ py_str to) []).
Definition update_events (update : json) : result (list TimelineEvent) :=
  let applied := match update with JObj l => default (JArr []) (assoc_get "applied" l) | _ => JArr [] end in
  l <-! iterate applied;
  es <-! traverse (applied_event update) l;
  Ok (concat es).
(** The last entry of an investigation: its RCA, or how else it ended. *)
Definition ending_events (i : InvestigationRow) (rca : option RcaReportRow)
    : result (list TimelineEvent) :=
  let completed := at_opt (dumped <$> inv_completed_at i) in
  match rca with
  | Some r =>
      root <-! match rca_report r with
               | JObj l => Ok (default (JObj []) (assoc_get "root_cause_hypothesis" l))
               | _ => Err (AttributeError "object has no attribute 'get'")
               end;
      category <-! get_attr "cause_category" root;
      component <-! get_attr "component" root;
      Ok (add completed "rca" ("RCA: " +++ py_str category +++ " in " +++ py_str component)
            [("ref", JStr (str_uuid (rca_id r)))])
  | None =>
      Ok (if truthy completed then
            add completed "investigation"
              ("Investigation ended " +++ InvestigationStatus_value (inv_status i))
              [("detail",
                if truthy (jopt_str (inv_escalation_reason i)) then jopt_str (inv_escalation_reason i)
                else jopt_str (inv_failure_reason i))]
          else [])
  end.
Definition investigation_events (inv : InvestigationDetail) : result (list TimelineEvent) :=
  let i := id_investigation inv in
  updates <-! traverse update_events (id_hypothesis_updates inv);
  ending <-! ending_events i (id_rca inv);
  Ok (add (at_opt (dumped <$> inv_started_at i)) "investigation"
        ("Investigation attempt " +++ str_Z (inv_attempt_number i) +++ " started")
        [("detail", JStr (inv_model_name i))]
      ++ flat_map evidence_event (id_tool_calls inv) ++ concat updates ++ ending).
Definition remediation_events (rem : RemediationDetail) : list TimelineEvent :=
  flat_map (fun e =>
    add (JStr (isoformat (tl_occurred_at e))) "remediation" (tl_action_id e +++ ": " +++ spaced (tl_event e))
      [("detail", JStr (tl_actor e)); ("ref", JStr (str_uuid (rm_id (rd_remediation rem))))])
    (rd_timeline rem).
Definition _verdict (o : VerificationObservationRow) : string :=
  if ob_passed o then "pass" else if ob_conclusive o then "fail" else "inconclusive".
Definition verification_events (ver : VerificationDetail) : list TimelineEvent :=
  let v := vd_verification ver in
  flat_map (fun o =>
    add (JStr (isoformat (ob_observed_at o))) "verification"
      ("Observation " +++ str_Z (ob_sequence o) +++ ": " +++ _verdict o)
      [("evidence_ids", str_uuids (ob_evidence_ids o))]) (vd_observations ver)
  ++ add (at_opt (dumped <$> v_completed_at v)) "verification"
       ("Verification " +++ VerificationStatus_value (v_status v))
       [("detail", jopt_str (v_failure_reason v)); ("ref", JStr (str_uuid (v_id v)))].

(** [events.sort(key=lambda e: e["at"])]: stable.  A text and anything else do not compare;
    a list of times none of which is a text is not among those considered. *)
Definition sort_events (l : list TimelineEvent) : result (list TimelineEvent) :=
  match l with
  | [] | [_] => Ok l
  | _ =>
      keyed <-! traverse (fun e => match tv_at e with
                                   | JStr s => Ok (s, e)
                                   | _ => Err (TypeError "'<' not supported between instances")
                                   end) l;
      Ok (foldr (insert_lt (fun a b : string * TimelineEvent => str_ltb a.1 b.1)) [] keyed).*2
  end.

(** Everything added, in the order of the code. *)
Definition additions (detail : IncidentDetail) : result (list TimelineEvent) :=
  investigations <-! traverse investigation_events (dt_investigations detail);
  Ok (flat_map alert_events (dt_alerts detail) ++ flat_map transition_event (dt_transitions detail)
      ++ concat investigations ++ flat_map remediation_events (dt_remediations detail)
      ++ flat_map verification_events (dt_verifications detail)).
Definition _timeline (detail : IncidentDetail) : result (list TimelineEvent) :=
  events <-! additions detail;
  sort_events events.

(** *** The whole *)

Definition incident_detail (now : instant) (incident_id : uuid) (d : db)
    : result (option (IncidentDetail * list TimelineEvent)) :=
  match incidents d !! incident_id with
  | None => Ok None
  | Some incident =>
      let transitions := incident_transitions incident_id d in
      investigations <-! traverse (_investigation d) (investigation_ids d incident_id);
      let ended := final_at (IncidentStatus_value (i_status incident)) transitions in
      let detail :=
        {| dt_incident := incident;
           dt_ended_at := _iso ended;
           dt_duration_seconds := duration now (i_created_at incident) ended;
           dt_alerts := alerts_of d incident_id;
           dt_transitions := transitions;
           dt_investigations := investigations;
           dt_remediations := map (remediation_detail d) (list_for_incident incident_id d);
           dt_verifications := map (verification_detail d) (Core.for_incident incident_id d);
           dt_evidence := refs_of d incident_id |} in
      timeline <-! _timeline detail;
      Ok (Some (detail, timeline))
  end.

(** ** The overview *)

Definition count {A} (p : A -> bool) (l : list A) : Z := Z.of_nat (length (List.filter p l)).
(** [GROUP BY f], with the count of each group *)
Definition group_count {A} (f : A -> string) (l : list A) : gmap string Z :=
  foldl (fun counts a => <[f a := default 0 (counts !! f a) + 1]> counts) ∅ l.
(** [sum(v for k, v in counts.items() if k in keys)] *)
Definition sum_of (keys : list string) (counts : gmap string Z) : Z :=
  foldr (fun kv s => (if bool_decide (kv.1 ∈ keys) then kv.2 else 0) + s) 0 (map_to_list counts).
Definition count_at (k : string) (counts : gmap string Z) : Z := default 0 (counts !! k).

Record Escalation := { es_incident_id : uuid; es_at : string; es_reason : json }.
Definition reason_of (e : OutboxEventRow) : json :=
  match oe_payload e with
  | PIncidentStatusChanged p => JStr (isc_reason p)
  | PIncidentClosure p => JStr (icp_reason p)
  | PVerification p => jopt_str (vep_reason p)
  | PKillSwitchChanged p => jopt_str (ksp_reason p)
  | _ => JNull
  end.
Record Overview := {
  ov_incidents_by_status : gmap string Z;
  ov_active_incidents : Z;
  ov_investigations_running : Z;
  ov_awaiting_approval : Z;
  ov_remediations_executing : Z;
  ov_verifications_running : Z;
  ov_recent_escalations : list Escalation;
  ov_outbox_failed_events : Z;
  ov_outbox_unpublished : Z;
}.
Definition status_of (r : IncidentRow) : string := IncidentStatus_value (i_status r).
Definition unpublished (e : OutboxEventRow) : bool := bool_decide (oe_published_at e = None).

Definition overview (d : db) : Overview :=
  let by_status := group_count status_of (rows (incidents d)) in
  let remediation_counts := group_count (fun r => RemediationStatus_value (rm_status r)) (rows (remediations d)) in
  let verification_counts := group_count (fun v => VerificationStatus_value (v_status v)) (rows (verifications d)) in
  {| ov_incidents_by_status := by_status;
     ov_active_incidents := sum_of ACTIVE_STATUSES by_status;
     ov_investigations_running :=
       count (fun r => bool_decide (InvestigationStatus_value (inv_status r) ∈ ["CREATED"; "INVESTIGATING"]))
         (rows (investigations d));
     ov_awaiting_approval := count_at "AWAITING_APPROVAL" remediation_counts;
     ov_remediations_executing :=
       count_at "EXECUTING" remediation_counts + count_at "APPROVED" remediation_counts;
     ov_verifications_running :=
       count_at "RUNNING" verification_counts + count_at "PENDING" verification_counts;
     ov_recent_escalations :=
       map (fun e => {| es_incident_id := oe_aggregate_id e; es_at := isoformat (oe_occurred_at e);
                        es_reason := reason_of e |})
         (take 10 (order_by (fun e => - oe_sequence e)
            (List.filter (fun e => bool_decide (to_status e = Some "ESCALATED")) (status_changes d))));
     ov_outbox_failed_events :=
       count (fun e => unpublished e && (0 <? oe_publish_attempts e)) (outbox_events d);
     ov_outbox_unpublished := count unpublished (outbox_events d) |}.

(** ** The metrics *)

(** [_DURATIONS]: each query gives intervals, in microseconds; [None] is NULL. *)
Definition interval (from to : option instant) : option Z :=
  t ← to; f ← from; Some (t - f).
Definition least (l : list Z) : option Z :=
  match l with [] => None | x :: l' => Some (foldl Z.min x l') end.
Definition greatest (l : list Z) : option Z :=
  match l with [] => None | x :: l' => Some (foldl Z.max x l') end.
Definition ENDED_STATUSES : list string := ["RESOLVED"; "CANCELLED"; "ESCALATED"; "CLOSED"].

Section Durations.
Context (d : db).

Definition time_to_incident_creation : list Z :=
  omap (fun i => interval (least (map a_received_at (alerts_of d (i_id i)))) (Some (i_created_at i)))
    (rows (incidents d)).
Definition time_to_investigation_start : list Z :=
  omap (fun i => interval (Some (i_created_at i))
    (least (omap inv_started_at
       (List.filter (fun v => bool_decide (inv_incident_id v = i_id i)) (rows (investigations d))))))
    (rows (incidents d)).
Definition investigation_duration : list Z :=
  omap (fun v => interval (inv_started_at v) (inv_completed_at v)) (rows (investigations d)).
Definition time_to_rca : list Z :=
  omap (fun i => interval (Some (i_created_at i))
    (least (map rca_generated_at
       (List.filter (fun r => bool_decide (rca_incident_id r = i_id i)) (rows (rca_reports d))))))
    (rows (incidents d)).
Definition approval_latency : list Z :=
  flat_map (fun a =>
    if bool_decide (ap_decision a ∈ [Store.approved; Store.rejected]) then
      map (fun t => ap_decided_at a - tl_occurred_at t)
        (List.filter (fun t => bool_decide (tl_remediation_id t = ap_remediation_id a)
                               && bool_decide (tl_event t = "approval_requested")) (timeline d))
    else []) (rows (approvals d)).
Definition remediation_execution_latency : list Z :=
  omap (fun x => if bool_decide (ex_status x = X_SUCCEEDED)
                 then interval (Some (ex_started_at x)) (ex_completed_at x) else None)
    (rows (executions d)).
Definition verification_latency : list Z :=
  omap (fun v => interval (v_started_at v) (v_completed_at v)) (rows (verifications d)).
Definition ended_event (n : uuid) (e : OutboxEventRow) : bool :=
  bool_decide (oe_aggregate_id e = n) && bool_decide (oe_event_type e = "IncidentStatusChanged")
  && match to_status e with Some s => bool_decide (s ∈ ENDED_STATUSES) | None => false end.
Definition incident_duration : list Z :=
  omap (fun i => if bool_decide (status_of i ∈ ENDED_STATUSES) then
                   interval (Some (i_created_at i))
                     (greatest (map oe_occurred_at (List.filter (ended_event (i_id i)) (outbox_events d))))
                 else None) (rows (incidents d)).
End Durations.

Definition _DURATIONS : list (string * (db -> list Z)) :=
  [("time_to_incident_creation", time_to_incident_creation);
   ("time_to_investigation_start", time_to_investigation_start);
   ("investigation_duration", investigation_duration);
   ("time_to_rca", time_to_rca);
   ("approval_latency", approval_latency);
   ("remediation_execution_latency", remediation_execution_latency);
   ("verification_latency", verification_latency);
   ("incident_duration", incident_duration)].

Record Stats := {
  s_count : Z;
  s_p50 : option float;
  s_p90 : option float;
  s_mean : option float;
  s_max : option float;
}.
(** [values[index]], [None] for an [IndexError] *)
Definition pct (values : list float) (p : float) : option float :=
  let last := Z.of_nat (length values) - 1 in
  let index := Z.min last (Z.max 0 (fround (fmul p (flit last 0)))) in
  round_to 3 <$> nth_error values (Z.to_nat index).
Definition fdiv : float -> float -> float := SFdiv 53 1024.
Definition _stats (values : list float) : Stats :=
  match values with
  | [] => {| s_count := 0; s_p50 := None; s_p90 := None; s_mean := None; s_max := None |}
  | _ =>
      {| s_count := Z.of_nat (length values);
         s_p50 := pct values (flit 5 1);
         s_p90 := pct values (flit 9 1);
         s_mean := Some (round_to 3 (fdiv (foldl fadd fzero values) (flit (Z.of_nat (length values)) 0)));
         s_max := round_to 3 <$> last values |}
  end.
Record Rate := { r_count : Z; r_numerator : Z; r_rate : option float }.
(** Counts are below [2 ** 53], where the division of two [int]s is that of their floats. *)
Definition _rate (numerator denominator : Z) : Rate :=
  {| r_count := denominator; r_numerator := numerator;
     r_rate := if negb (denominator =? 0)
               then Some (round_to 3 (fdiv (flit numerator 0) (flit denominator 0))) else None |}.

Record Metrics := {
  m_durations : list (string * Stats);
  m_successful_remediation_rate : Rate;
  m_verification_failure_rate : Rate;
  m_escalation_rate : Rate;
}.
(** [sum(counts.values())] *)
Definition sum_values (counts : gmap string Z) : Z :=
  foldr (fun kv s => kv.2 + s) 0 (map_to_list counts).
Definition metrics (d : db) : Metrics :=
  let completed := group_count (fun v => VerificationStatus_value (v_status v))
    (List.filter (fun v => bool_decide (VerificationStatus_value (v_status v) ∈ ["PASSED"; "FAILED"; "TIMED_OUT"]))
       (rows (verifications d))) in
  let finished := group_count status_of
    (List.filter (fun r => bool_decide (status_of r ∈ ENDED_STATUSES)) (rows (incidents d))) in
  let verified := sum_values completed in
  let done := sum_values finished in
  {| m_durations :=
       map (fun q => (q.1, _stats (foldr (insert_lt fltb) [] (map total_seconds (q.2 d))))) _DURATIONS;
     m_successful_remediation_rate := _rate (count_at "PASSED" completed) verified;
     m_verification_failure_rate :=
       _rate (count_at "FAILED" completed + count_at "TIMED_OUT" completed) verified;
     m_escalation_rate := _rate (count_at "ESCALATED" finished) done |}.
