(* ===== verification/QueriesSafety.v ===== *)
(** * What the read models show

    The timeline of an incident is in the order of time; the list, the detail and the core
    agree on every incident; the overview counts every incident once. *)
From Stdlib Require Import Sorted.
From S2P Require Import Prelude PyFloat Json Enums Correlation VerificationDomain Catalog.
From S2P Require Import RemediationDomain Uuid InvestigationDomain InvestigationRules Policy.
From S2P Require Import Store TxLogic RemediationLifecycle RemediationService RemediationProofs.
From S2P Require Import RemediationSafety IncidentRepository AlertIdentity IncidentService IncidentProofs.
From S2P Require Import InvestigationService InvestigationProofs InvestigationInvariant InvestigationKeeps.
From S2P Require Import InvestigationSafety InvestigationProgress VerificationService VerificationProofs AgentContext.
From S2P Require Import IncidentWalk Platform AuditTrail Queries.
Local Open Scope Z_scope.

(** ** Sorting *)

Section Insertion.
Context {A : Type} (lt : A -> A -> bool).
Context (lt_asym : forall a b, lt a b = true -> lt b a = false).
Context (lt_negative : forall a b c, lt b a = false -> lt c b = false -> lt c a = false).

Lemma insert_lt_perm a l : insert_lt lt a l ≡ₚ a :: l.
Proof.
  induction l as [|b l IH]; [done|]. simpl. case_match; [|done]. rewrite IH. apply Permutation_swap.
Qed.
Lemma sort_perm l : foldr (insert_lt lt) [] l ≡ₚ l.
Proof. induction l as [|a l IH]; [done|]. simpl. by rewrite insert_lt_perm, IH. Qed.

Abbreviation ordered := (StronglySorted (fun a b => lt b a = false)).

Lemma insert_lt_ordered a l : ordered l -> ordered (insert_lt lt a l).
Proof.
  induction 1 as [|b l Hl IH Hb]; simpl; [repeat constructor|]. destruct (lt b a) eqn:E.
  - constructor; [done|]. rewrite insert_lt_perm. constructor; [by apply lt_asym|done].
  - constructor; [by constructor|]. constructor; [done|]. eapply Forall_impl; [exact Hb|]. intros c. by apply lt_negative.
Qed.
Lemma sort_ordered l : ordered (foldr (insert_lt lt) [] l).
Proof. induction l; simpl; [constructor|by apply insert_lt_ordered]. Qed.
End Insertion.

Lemma str_compare_trans a b c :
  String.compare a b <> Gt -> String.compare b c <> Gt -> String.compare a c <> Gt.
Proof.
  revert b c. induction a as [|x a IH]; intros [|y b] [|z c]; simpl; try done.
  unfold Ascii.compare. intros H1 H2.
  destruct (N.compare_spec (Ascii.N_of_ascii x) (Ascii.N_of_ascii y)) as [E1|E1|E1]; [| |done];
    destruct (N.compare_spec (Ascii.N_of_ascii y) (Ascii.N_of_ascii z)) as [E2|E2|E2]; try done;
    destruct (N.compare_spec (Ascii.N_of_ascii x) (Ascii.N_of_ascii z)) as [E3|E3|E3]; try done; try lia.
  by apply (IH b).
Qed.
Lemma str_ltb_false a b : str_ltb a b = false <-> String.compare b a <> Gt.
Proof.
  unfold str_ltb. rewrite String.compare_antisym. destruct (String.compare b a); simpl; naive_solver.
Qed.
Lemma str_ltb_asym a b : str_ltb a b = true -> str_ltb b a = false.
Proof.
  rewrite str_ltb_false. unfold str_ltb. destruct (String.compare a b); done.
Qed.

(** ** The timeline *)

(** The time of an event, in either of the two forms. *)
Definition at_of (e : TimelineEvent) (t : instant) : Prop :=
  tv_at e = JStr (isoformat t) \/ tv_at e = JStr (dumped t).

Lemma take_str_app s u : take_str (String.length s) (s +++ u) = s.
Proof. induction s as [|c s IH]; simpl; [by destruct u|by rewrite IH]. Qed.
Lemma dumped_in t : dumped t = IsoOrder.iso_in "Z" t.
Proof.
  unfold dumped. rewrite IsoOrder.isoformat_in. unfold IsoOrder.iso_in.
  rewrite <-append_assoc, append_length. change (String.length "+00:00") with 6%nat.
  rewrite Nat.add_sub, take_str_app. apply append_assoc.
Qed.
Lemma at_of_zone e t : at_of e t -> exists zone, zone ∈ ["+00:00"; "Z"] /\ tv_at e = JStr (IsoOrder.iso_in zone t).
Proof.
  intros [H|H]; rewrite H; [rewrite IsoOrder.isoformat_in; exists "+00:00"|rewrite dumped_in; exists "Z"];
    (split; [set_solver|done]).
Qed.

Lemma keyed_spec l k :
  traverse (fun e => match tv_at e with
                     | JStr s => Ok (s, e)
                     | _ => Err (TypeError "'<' not supported between instances")
                     end) l = Ok k ->
  k.*2 = l /\ Forall (fun p : string * TimelineEvent => tv_at p.2 = JStr p.1) k.
Proof.
  revert k. induction l as [|e l IH]; intros k; simpl; [by intros [= <-]|].
  intros (p & Hp & (k' & Hk & [= <-])%rbind_Ok)%rbind_Ok. destruct (IH _ Hk) as [<- ?].
  destruct (tv_at e) eqn:E; try discriminate Hp. injection Hp as <-. split; [done|by constructor].
Qed.

Definition no_later (e f : TimelineEvent) : Prop :=
  forall s s', tv_at e = JStr s -> tv_at f = JStr s' -> str_ltb s' s = false.

Lemma sort_events_spec l l' : sort_events l = Ok l' -> l' ≡ₚ l /\ StronglySorted no_later l'.
Proof.
  unfold sort_events. destruct l as [|e [|f l]];
    [intros [= <-]; by repeat constructor|intros [= <-]; split; [done|by repeat constructor]|].
  intros (k & Hk & [= <-])%rbind_Ok. apply keyed_spec in Hk as [<- Hk].
  set (lt := fun a b : string * TimelineEvent => str_ltb a.1 b.1). split; [by rewrite sort_perm|].
  assert (StronglySorted (fun a b => lt b a = false) (foldr (insert_lt lt) [] k)) as Hs.
  { apply sort_ordered; unfold lt; [intros a b; apply str_ltb_asym|].
    intros a b c. rewrite !str_ltb_false. apply str_compare_trans. }
  rewrite <- (sort_perm lt k) in Hk. induction Hs as [|p ps Hs IH Hp]; simpl; [constructor|].
  apply Forall_cons in Hk as [Hpk Hk]. constructor; [by apply IH|].
  rewrite Forall_fmap. rewrite Forall_forall in Hp, Hk |- *. intros q Hq s s' E E'. simpl in *.
  rewrite (Hk _ Hq) in E'. rewrite Hpk in E. specialize (Hp _ Hq). injection E as <-. injection E' as <-. exact Hp.
Qed.

Lemma sorted_lookup {A} (R : A -> A -> Prop) l i j a b :
  StronglySorted R l -> (i < j)%nat -> l !! i = Some a -> l !! j = Some b -> R a b.
Proof.
  intros Hs. revert i j. induction Hs as [|c l Hs IH Hc]; intros i j Hij Hi Hj; [done|].
  destruct j as [|j]; [lia|]. destruct i as [|i]; simpl in *; [|by apply (IH i j); [lia|..]].
  injection Hi as ->. rewrite Forall_forall in Hc. apply Hc. by eapply list_elem_of_lookup_2.
Qed.

(** C26: The timeline of an incident is a merge by time.  Whenever the detail of an incident is
    answered, its timeline has every entry the records give, once, and of two entries the
    earlier one comes first; but for an entry the services wrote with a [Z] at a whole
    second, which may come after later ones of that second: the merge is by the text. *)
Theorem timeline_is_chronological now n d detail events :
  incident_detail now n d = Ok (Some (detail, events)) ->
  (exists added, additions detail = Ok added /\ events ≡ₚ added)
  /\ forall i j e f t u, (i < j)%nat -> events !! i = Some e -> events !! j = Some f ->
       at_of e t -> at_of f u -> IsoOrder.in_calendar t -> IsoOrder.in_calendar u ->
       t <= u \/ t / 1000000 = u / 1000000 /\ u mod 1000000 = 0 /\ tv_at f = JStr (dumped u).
Proof.
  unfold incident_detail. destruct (incidents d !! n) as [r|]; [|discriminate].
  intros (invs & _ & (tl & Ht & H)%rbind_Ok)%rbind_Ok. injection H as <- <-.
  unfold _timeline in Ht. apply rbind_Ok in Ht as (added & Ha & Hs).
  apply sort_events_spec in Hs as [Hp Hs]. split; [by exists added|].
  intros i j e f t u Hij He Hf (z & _ & Et)%at_of_zone (z' & Hz & Eu)%at_of_zone Hct Hcu.
  pose proof (sorted_lookup _ _ _ _ _ _ Hs Hij He Hf _ _ Et Eu) as Hle.
  destruct (IsoOrder.iso_order t u z z' Hct Hcu Hz) as [?|(? & ? & ->)]; [|by left|right].
  - unfold str_ltb in Hle. destruct (String.compare _ _); done.
  - by rewrite dumped_in.
Qed.

(** The exception is real: an investigation that started at second 1 is put after an
    alert of half a second later. *)
Example whole_second_misplaced :
  let alert := {| tv_at := JStr (isoformat 1500000); tv_kind := "alert"; tv_title := ""; tv_extra := [] |} in
  let start := {| tv_at := JStr (dumped 1000000); tv_kind := "investigation"; tv_title := ""; tv_extra := [] |} in
  sort_events [start; alert] = Ok [alert; start].
Proof. reflexivity. Qed.

(** ** Ordered rows *)

Section Ordered.
Context {A : Type} (key : A -> Z).
Abbreviation ascending := (StronglySorted (fun a b => key a <= key b)).

Lemma order_by_ascending l : ascending (order_by key l).
Proof.
  set (lt := fun a b => key a <? key b).
  assert (order_by key l = foldr (insert_lt lt) [] l) as ->.
  { assert (forall a l, insert_by key a l = insert_lt lt a l) as H.
    { clear. intros a l. induction l as [|b l IH]; [done|]. simpl. rewrite IH. unfold lt.
      destruct (Z.leb_spec (key a) (key b)), (Z.ltb_spec (key b) (key a)); done || lia. }
    unfold order_by. induction l as [|a l IH]; [done|]. simpl. by rewrite IH, H. }
  assert (StronglySorted (fun a b => lt b a = false) (foldr (insert_lt lt) [] l)) as Hs.
  { apply sort_ordered; unfold lt; intros a b; rewrite ?Z.ltb_lt, ?Z.ltb_ge; [lia|].
    intros c. rewrite !Z.ltb_ge. lia. }
  induction Hs as [|a m Hm IH Ha]; constructor; [done|]. eapply Forall_impl; [exact Ha|].
  intros b. apply Z.ltb_ge.
Qed.
Lemma filter_ascending p l : ascending l -> ascending (List.filter p l).
Proof.
  induction 1 as [|a l Hl IH Ha]; simpl; [constructor|]. case_match; [|done]. constructor; [done|].
  rewrite Forall_forall in *. intros b [Hb _]%list_elem_of_In%filter_In. by apply Ha, list_elem_of_In.
Qed.
Lemma ascending_order_by l : ascending l -> order_by key l = l.
Proof.
  induction 1 as [|a l Hl IH Ha]; [done|]. unfold order_by in *. simpl. rewrite IH.
  destruct l as [|b l]; [done|]. simpl. inversion Ha; subst. by rewrite (proj2 (Z.leb_le _ _)).
Qed.
Lemma ascending_last l a : ascending l -> last l = Some a -> forall b, b ∈ l -> key b <= key a.
Proof.
  induction 1 as [|c l Hl IH Hc]; [done|]. intros H b Hb. rewrite last_cons in H.
  destruct (last l) as [x|] eqn:E.
  - injection H as ->. apply elem_of_cons in Hb as [->|Hb]; [|by apply IH].
    rewrite Forall_forall in Hc. apply Hc. apply last_Some in E as [l' ->]. set_solver.
  - apply last_None in E as ->. injection H as ->. by apply list_elem_of_singleton in Hb as ->.
Qed.
End Ordered.

(** ** The dictionaries of the list *)

(** Later rows overwrite: what is found is of the last row of the key. *)
Lemma last_wins {R V} (id : R -> uuid) (value : R -> V) (p : R -> bool) (l : list R) n :
  foldl (fun m r => if p r then <[id r := value r]> m else m) (∅ : gmap uuid V) l !! n
  = value <$> last (List.filter (fun r => p r && bool_decide (id r = n)) l).
Proof.
  induction l as [|r l IH] using rev_ind; [apply lookup_empty|].
  rewrite foldl_snoc, List.filter_app. simpl. destruct (p r); simpl; [|by rewrite app_nil_r].
  case_bool_decide as E; [|by rewrite app_nil_r, lookup_insert_ne].
  by rewrite E, lookup_insert_eq, last_snoc.
Qed.

(** Picking rows of one incident of several. *)
Lemma filter_twice {R} (p q : R -> bool) l :
  (forall r, q r = true -> p r = true) -> List.filter q (List.filter p l) = List.filter q l.
Proof.
  intros H. induction l as [|r l IH]; [done|]. simpl. destruct (p r) eqn:E; simpl; [by rewrite IH|].
  destruct (q r) eqn:E'; [|done]. rewrite H in E; done.
Qed.

Lemma head_order_by {A} (key : A -> Z) l a : head (order_by key l) = Some a ->
  a ∈ l /\ forall b, b ∈ l -> key a <= key b.
Proof.
  intros H. pose proof (order_by_ascending key l) as Hs. split.
  - apply (elem_of_order_by key). destruct (order_by key l); [done|]. injection H as ->. set_solver.
  - intros b Hb. apply (elem_of_order_by key) in Hb. destruct Hs as [|c m _ Hc]; [done|]. injection H as ->.
    rewrite Forall_forall in Hc. apply elem_of_cons in Hb as [->|Hb]; [lia|by apply Hc].
Qed.

(** The status the list shows is that of the latest attempt. *)
Lemma latest_attempt d ids n : GInv d -> n ∈ ids ->
  _latest inv_incident_id (fun x => InvestigationStatus_value (inv_status x)) inv_attempt_number
    (rows (investigations d)) ids !! n
  = (fun x => InvestigationStatus_value (inv_status x)) <$> latest_for_incident n d.
Proof.
  intros HI Hn. unfold _latest.
  rewrite (last_wins inv_incident_id (fun x => InvestigationStatus_value (inv_status x)) (fun _ => true)).
  f_equal. simpl. set (L := order_by _ _). set (mine := fun r => bool_decide (inv_incident_id r = n)).
  assert (forall r, r ∈ List.filter mine L <-> r ∈ List.filter mine (rows (investigations d))) as Hmem.
  { intros r. rewrite !list_elem_of_In, !filter_In, <- !list_elem_of_In. unfold L.
    rewrite elem_of_order_by, list_elem_of_In, filter_In, <-list_elem_of_In. unfold mine.
    rewrite !bool_decide_eq_true. naive_solver. }
  assert (StronglySorted (fun a b => inv_attempt_number a <= inv_attempt_number b) (List.filter mine L)) as Hs
    by apply filter_ascending, order_by_ascending.
  unfold latest_for_incident. fold mine.
  destruct (last (List.filter mine L)) as [a|] eqn:E.
  - assert (a ∈ List.filter mine L) as Ha by (apply last_Some in E as [l' ->]; set_solver).
    destruct (head (order_by _ _)) as [b|] eqn:E'.
    + apply head_order_by in E' as [Hb Hle]. apply Hmem in Ha as Ha'. apply Hmem in Hb as Hb'.
      pose proof (ascending_last _ _ _ Hs E b Hb'). specialize (Hle a Ha'). f_equal.
      rewrite list_elem_of_In, filter_In, <-list_elem_of_In, elem_of_rows in Ha', Hb.
      destruct Ha' as [[i Hi] Mi], Hb as [[j Hj] Mj]. unfold mine in Mi, Mj. apply bool_decide_eq_true in Mi, Mj.
      assert (i = j) as -> by (apply (gi_attempts _ HI i j a b); [done..|congruence|lia]). congruence.
    + apply Hmem, (elem_of_order_by (fun r => - inv_attempt_number r)) in Ha.
      destruct (order_by (fun r => - inv_attempt_number r) _); [set_solver|done].
  - apply last_None in E. destruct (order_by _ (List.filter mine (rows _))) as [|b l] eqn:E'; [done|]. exfalso.
    assert (b ∈ List.filter mine L) as Hb
      by (apply Hmem, (elem_of_order_by (fun r => - inv_attempt_number r)); rewrite E'; set_solver).
    rewrite E in Hb. set_solver.
Qed.

(** The alerts the list counts are those the core counts. *)
Lemma stats_count l n :
  let stats := foldl count_alert ∅ l !! n in
  default 0 (as_count <$> stats)
    = Z.of_nat (length (List.filter (fun a => bool_decide (a_incident_id a = Some n)) l))
  /\ default 0 (as_firing <$> stats) = Z.of_nat (length (List.filter (firing_of n) l)).
Proof.
  simpl. induction l as [|a l IH] using rev_ind; [simpl; by rewrite !lookup_empty|].
  rewrite foldl_snoc, !List.filter_app, !length_app, !Nat2Z.inj_add. destruct IH as [<- <-].
  generalize (foldl count_alert ∅ l). intros m. unfold count_alert. simpl. unfold firing_of.
  destruct (a_incident_id a) as [k|] eqn:E.
  - destruct (decide (k = n)) as [->|Hne].
    + rewrite lookup_insert_eq. rewrite !(bool_decide_eq_true_2 (Some n = Some n)) by done. simpl.
      destruct (m !! n) as [s|]; simpl; case_bool_decide; simpl; lia.
    + rewrite lookup_insert_ne by done. rewrite !(bool_decide_eq_false_2 (Some k = Some n)) by congruence.
      simpl. lia.
  - rewrite !(bool_decide_eq_false_2 (None = Some n)) by done. simpl. lia.
Qed.

Lemma listed_firing d ids n : n ∈ ids ->
  default 0 (as_firing <$> _alert_stats d ids !! n) = count_firing d n.
Proof.
  intros Hn. unfold _alert_stats. rewrite (proj2 (stats_count _ n)). unfold count_firing. do 2 f_equal.
  apply filter_twice. intros a. unfold firing_of, of_incidents. rewrite andb_true_iff, !bool_decide_eq_true.
  intros [-> _]. by apply bool_decide_eq_true.
Qed.

(** ** When an incident ended *)

Lemma replays_last s l t : replays s l t ->
  (l = [] /\ s = t) \/ exists l' m, l = l' ++ [m] /\ t_to m = IncidentStatus_value t.
Proof.
  revert s. induction l as [|m l IH]; intros s; simpl; [by left|].
  intros (u & _ & Hu & _ & H). right. destruct (IH _ H) as [[-> ->]|(l' & m' & -> & ?)]; [by exists [], m|].
  by exists (m :: l'), m'.
Qed.

Lemma audited_status_changes d : audited d ->
  status_changes d = List.filter (fun e => bool_decide (oe_event_type e = "IncidentStatusChanged")) (outbox_events d).
Proof.
  intros [_ _ N _]. apply ascending_order_by, filter_ascending.
  rewrite <-(order_by_sorted oe_sequence (outbox_events d) 1 N). apply order_by_ascending.
Qed.

Definition final_move (t : Transition) : bool := is_final (t_to t).
Definition reaches_final (e : OutboxEventRow) : bool :=
  match to_status e with Some s => is_final s | None => false end.

(** The final moves of the trail are the events [_final_times] goes through. *)
Lemma final_moves (ids : list uuid) n l : n ∈ ids ->
  oe_occurred_at <$> last (List.filter (fun e => reaches_final e && bool_decide (oe_aggregate_id e = n))
    (List.filter (fun e => bool_decide (oe_aggregate_id e ∈ ids))
      (List.filter (fun e => bool_decide (oe_event_type e = "IncidentStatusChanged")) l)))
  = t_at <$> last (List.filter final_move (omap (move_of n) l)).
Proof.
  intros Hn. rewrite filter_twice.
  2:{ intros e. rewrite andb_true_iff, !bool_decide_eq_true. by intros [_ ->]. }
  induction l as [|e l IH] using rev_ind; [done|].
  rewrite omap_app, !List.filter_app. unfold move_of at 2, reaches_final at 2, to_status. simpl.
  destruct (bool_decide (oe_event_type e = "IncidentStatusChanged")); simpl;
    [|rewrite andb_false_r; destruct (oe_payload e); by rewrite !app_nil_r].
  destruct (oe_payload e) eqn:E; simpl; rewrite ?app_nil_r; try done.
  case_bool_decide; simpl; rewrite ?andb_false_r, ?andb_true_r, ?app_nil_r; [|done].
  unfold final_move at 2. simpl. destruct (is_final _); rewrite ?app_nil_r; [|done]. by rewrite !last_snoc.
Qed.

Lemma listed_end d ids n r : audited d -> incidents d !! n = Some r -> n ∈ ids ->
  let s := IncidentStatus_value (i_status r) in
  (if is_final s then _final_times d ids !! n else None) = final_at s (incident_transitions n d)
  /\ (is_Some (final_at s (incident_transitions n d)) <-> is_final s = true).
Proof.
  intros Hd Hr Hn s. unfold final_at. destruct (is_final s) eqn:Hf; [|by split; [|split; [intros [? ?]|]]].
  assert (_final_times d ids !! n = t_at <$> last (List.filter final_move (trail n d))) as ->.
  { unfold _final_times, trail. rewrite (audited_status_changes _ Hd), <-(final_moves ids) by done.
    rewrite <-(last_wins oe_aggregate_id oe_occurred_at reaches_final). f_equal.
    generalize (∅ : gmap uuid instant). induction (List.filter _ _) as [|e l IH]; intros m; [done|]. simpl.
    rewrite IH. f_equal. unfold reaches_final. by destruct (to_status e). }
  rewrite incident_transitions_trail by (by apply au_numbered). pose proof (au_trail _ Hd n) as Ht. rewrite Hr in Ht.
  destruct (replays_last _ _ _ Ht) as [[_ E]|(l & m & -> & Hm)].
  { unfold s in Hf. rewrite <-E in Hf. vm_compute in Hf. discriminate Hf. }
  rewrite rev_app_distr, List.filter_app. simpl. fold s in Hm. rewrite bool_decide_eq_true_2 by done.
  unfold final_move at 2. rewrite Hm, Hf, last_snoc. simpl. split; [done|]. split; [done|by eexists].
Qed.

(** ** The list *)

Section Console.
Context {PY : Pydantic} {HA : Hashing} {TO : ServiceTopology} {DI : Digests}.
Context (cfg : ServiceConfig) (max_attempts : Z) (config : IncidentConfig) (criteria : StoppingCriteria).

(** C25: The console and the core agree.  In every database of the platform the list counts the
    incidents its filter selects, and each of its items is one of them: it shows the
    alerts that fire as the core counts them, the status of the attempt the core takes
    for the latest, and the end the detail shows, which is there exactly when the incident
    is over. *)
Theorem console_agrees_with_the_core now q limit offset d :
  platform cfg max_attempts config criteria d ->
  let found := list_incidents now q limit offset d in
  li_total found = Z.of_nat (length (List.filter (selected q) (rows (incidents d))))
  /\ Forall (fun x => exists r, incidents d !! it_id x = Some r /\ selected q r = true
       /\ it_status x = IncidentStatus_value (i_status r)
       /\ it_firing_alert_count x = count_firing d (it_id x)
       /\ it_investigation_status x
          = (fun v => InvestigationStatus_value (inv_status v)) <$> latest_for_incident (it_id x) d
       /\ it_ended_at x = _iso (final_at (it_status x) (incident_transitions (it_id x) d))
       /\ (is_Some (it_ended_at x) <-> it_status x ∈ FINAL_STATUSES)) (li_items found).
Proof.
  intros Hp. destruct (platform_inv _ _ _ _ _ Hp) as [_ HG].
  assert (audited d) as Hd by (by eapply platform_audited). split; simpl.
  { unfold matching. by rewrite length_order_by. }
  set (page := take limit (drop offset (matching q d))). rewrite Forall_fmap, Forall_forall. intros r Hr. simpl.
  assert (i_id r ∈ map i_id page) as Hn by (by apply list_elem_of_fmap_2).
  assert (r ∈ matching q d) as Hm.
  { unfold page in Hr. apply elem_of_take in Hr as (i & Hi & _). rewrite lookup_drop in Hi.
    by eapply list_elem_of_lookup_2. }
  unfold matching in Hm. rewrite elem_of_order_by, list_elem_of_In, filter_In, <-list_elem_of_In, elem_of_rows in Hm.
  destruct Hm as [[n Hi] Hq]. destruct (gi_incidents _ HG _ _ Hi) as [<- _]. exists r.
  destruct (listed_end d _ _ r Hd Hi Hn) as [-> Hs].
  rewrite (latest_attempt d _ _ HG Hn), (listed_firing d _ _ Hn). split_and!; try done.
  unfold _iso. rewrite fmap_is_Some, Hs. unfold is_final. apply bool_decide_eq_true.
Qed.
End Console.

(** ** The overview *)

Lemma sum_of_fold keys m :
  sum_of keys m = map_fold (fun k v s => (if bool_decide (k ∈ keys) then v else 0) + s) 0 m.
Proof.
  unfold sum_of. rewrite map_fold_foldr. by induction (map_to_list m) as [|[k v] l IH]; simpl; [|rewrite IH].
Qed.

Lemma sum_of_insert keys m k v : sum_of keys (<[k := v]> m)
  = sum_of keys (delete k m) + (if bool_decide (k ∈ keys) then v else 0).
Proof.
  rewrite !sum_of_fold, <-insert_delete_eq. rewrite map_fold_insert_L; [lia| |apply lookup_delete_eq].
  intros. lia.
Qed.

(** What is grouped and summed is what is counted. *)
Lemma grouped {A} (f : A -> string) l :
  (forall k, count_at k (group_count f l) = count (fun a => bool_decide (f a = k)) l)
  /\ forall keys, sum_of keys (group_count f l) = count (fun a => bool_decide (f a ∈ keys)) l.
Proof.
  unfold group_count, count. induction l as [|a l [IHc IHs]] using rev_ind.
  { split; intros; [done|]. by unfold sum_of. }
  rewrite foldl_snoc. set (m := foldl _ _ l) in *. split; [intros k|intros keys];
    rewrite List.filter_app, length_app, Nat2Z.inj_add, <-?IHc, <-?IHs; simpl.
  - unfold count_at. destruct (decide (f a = k)) as [->|Hne].
    + rewrite lookup_insert_eq, bool_decide_eq_true_2 by done. done.
    + rewrite lookup_insert_ne, bool_decide_eq_false_2 by done. simpl. lia.
  - rewrite sum_of_insert. destruct (m !! f a) as [v|] eqn:E; simpl.
    + rewrite <-(insert_id m (f a) v) at 2 by done. rewrite sum_of_insert. case_bool_decide; simpl; lia.
    + rewrite delete_id by done. case_bool_decide; simpl; lia.
Qed.

(** The overview is exact.  The counts by status are the numbers of incidents in each, and
    those called active are the incidents that are not over; the investigations said to be
    running are those open, and a remediation or verification is counted under what it is
    waiting for exactly when it has that status. *)
Theorem overview_is_exact d :
  (forall s, count_at (IncidentStatus_value s) (ov_incidents_by_status (overview d))
             = count (fun r => bool_decide (i_status r = s)) (rows (incidents d)))
  /\ ov_active_incidents (overview d) = count (fun r => negb (is_final (status_of r))) (rows (incidents d))
  /\ ov_investigations_running (overview d) = count is_open_investigation (rows (investigations d))
  /\ ov_awaiting_approval (overview d)
     = count (fun r => bool_decide (rm_status r = R_AWAITING_APPROVAL)) (rows (remediations d))
  /\ ov_remediations_executing (overview d)
     = count (fun r => bool_decide (rm_status r ∈ [R_EXECUTING; R_APPROVED])) (rows (remediations d))
  /\ ov_verifications_running (overview d)
     = count (fun v => bool_decide (v_status v ∈ [V_RUNNING; V_PENDING])) (rows (verifications d)).
Proof.
  assert (forall A (p q : A -> bool) l, (forall a, p a = q a) -> count p l = count q l) as Hext.
  { intros A p q l H. unfold count. do 2 f_equal. induction l as [|a l IH]; [done|]. simpl. by rewrite H, IH. }
  assert (forall A (p q : A -> bool) l, (forall a, p a && q a = false) ->
    count p l + count q l = count (fun a => p a || q a) l) as Hor.
  { intros A p q l H. unfold count. induction l as [|a l IH]; [done|]. simpl. specialize (H a).
    destruct (p a), (q a); simpl in *; try discriminate; lia. }
  split_and!; simpl.
  - intros s. rewrite (proj1 (grouped _ _)). apply Hext. intros r. apply bool_decide_ext. unfold status_of.
    split; [apply status_value_inj|by intros ->].
  - rewrite (proj2 (grouped _ _)). apply Hext. intros r. unfold is_final, status_of. by destruct (i_status r).
  - apply Hext. intros r. unfold is_open_investigation. by destruct (inv_status r).
  - rewrite (proj1 (grouped _ _)). apply Hext. intros r. by destruct (rm_status r).
  - rewrite !(proj1 (grouped _ _)), Hor by (intros r; by destruct (rm_status r)).
    apply Hext. intros r. by destruct (rm_status r).
  - rewrite !(proj1 (grouped _ _)), Hor by (intros v; by destruct (v_status v)).
    apply Hext. intros v. by destruct (v_status v).
Qed.
