(* ===== verification/Providers.v ===== *)
(** * The providers of models ([packages/agents/openai_compatible.py], [claude.py],
    [openrouter.py], [factory.py])

    An adapter renders the transcript in the form of its API, makes one request and maps
    the answer to a [ModelTurn] or a [ModelError].  [Chat] is the OpenAI-compatible one,
    [Claude] that of the Anthropic Messages API.  The HTTP client and the SDK of Anthropic
    are interfaces: a request is answered, or fails the way they document. *)
From Stdlib Require Import Ascii SpecFloat.
From S2P Require Import Prelude PyFloat Json Enums VerificationDomain Catalog.
From S2P Require Import RemediationDomain Uuid InvestigationDomain Store Prog RemediationService.
From S2P Require Import InvestigationService AgentModel AgentContext ModelConfig Planner.
Local Open Scope Z_scope.

(** ** [json.loads]

    The decoder of the Standard Library, in two passes that are structural: the text is
    cut into tokens, and the tokens are put together on a stack.  A text is refused with
    the [ValueError] that [json.JSONDecodeError] is.  Characters are bytes: an escape of
    a character beyond ASCII becomes its UTF-8 bytes. *)

(** ** Tokens *)

Inductive token :=
| TkValue (j : json) | TkText (s : string)
| TkOpenObject | TkCloseObject | TkOpenArray | TkCloseArray | TkComma | TkColon.

Definition byte (n : Z) : ascii := ascii_of_nat (Z.to_nat n).
Definition code (c : ascii) : Z := Z.of_nat (nat_of_ascii c).
(** UTF-8, surrogates included ([surrogatepass]). *)
Definition utf8 (n : Z) : string :=
  let tail k := String (byte (128 + n / 64 ^ k mod 64)) in
  if n <? 128 then String (byte n) ""
  else if n <? 2048 then String (byte (192 + n / 64)) (tail 0 "")
  else if n <? 65536 then String (byte (224 + n / 4096)) (tail 1 (tail 0 ""))
  else String (byte (240 + n / 262144)) (tail 2 (tail 1 (tail 0 ""))).

Definition word_char (c : ascii) : bool :=
  is_digit c || is_lower c || is_upper c || is_char 43 c || is_char 45 c || is_char 46 c.

(** A run of digits, as a number with the count of its digits, and the rest. *)
Fixpoint digit_run (acc n : Z) (s : string) : Z * Z * string :=
  match s with
  | String c s' => if is_digit c then digit_run (acc * 10 + (code c - 48)) (n + 1) s' else (acc, n, s)
  | "" => (acc, n, "")
  end.

(** The whole word as a number: a sign, digits without a leading zero, a fraction, an
    exponent. *)
Definition number_word (w : string) : option json :=
  let '(negative, w) := match w with String c w' => if is_char 45 c then (true, w') else (false, w) | "" => (false, w) end in
  let leading_zero := startswith "0" w in
  let '(whole, n, w) := digit_run 0 0 w in
  if (n =? 0) || (leading_zero && negb (n =? 1)) then None
  else
    let fraction :=
      match w with
      | String c w' =>
          if is_char 46 c then
            let '(m, k, w'') := digit_run whole 0 w' in if k =? 0 then None else Some (Some k, m, w'')
          else Some (None, whole, w)
      | "" => Some (None, whole, w)
      end in
    match fraction with
    | None => None
    | Some (k, m, w) =>
        let real e := Some (JFloat (match m with Zpos p => of_decimal negative p (e - default 0 k) | _ => S754_zero negative end)) in
        match w with
        | "" => match k with None => Some (JInt (cond_Zopp negative m)) | Some _ => real 0 end
        | String c w' =>
            if is_char 101 c || is_char 69 c then
              let '(minus, w') := match w' with
                                  | String s r => if is_char 45 s then (true, r) else if is_char 43 s then (false, r) else (false, w')
                                  | "" => (false, w')
                                  end in
              match digit_run 0 0 w' with
              | (e, n, "") => if n =? 0 then None else real (cond_Zopp minus e)
              | _ => None
              end
            else None
        end
    end.
Definition word_token (w : string) : option token :=
  if bool_decide (w = "null") then Some (TkValue JNull)
  else if bool_decide (w = "true") then Some (TkValue (JBool true))
  else if bool_decide (w = "false") then Some (TkValue (JBool false))
  else if bool_decide (w = "NaN") then Some (TkValue (JFloat S754_nan))
  else if bool_decide (w = "Infinity") then Some (TkValue (JFloat (S754_infinity false)))
  else if bool_decide (w = "-Infinity") then Some (TkValue (JFloat (S754_infinity true)))
  else TkValue <$> number_word w.

Definition punctuation (c : ascii) : option token :=
  if is_char 123 c then Some TkOpenObject else if is_char 125 c then Some TkCloseObject
  else if is_char 91 c then Some TkOpenArray else if is_char 93 c then Some TkCloseArray
  else if is_char 44 c then Some TkComma else if is_char 58 c then Some TkColon else None.
Definition blank (c : ascii) : bool := is_char 32 c || is_char 9 c || is_char 10 c || is_char 13 c.

(** Inside a string: after a backslash, or within the four digits of an escape; [high] is
    a high surrogate that waits for its other half. *)
Inductive lexing :=
| Between
| InWord (seen : string)
| InText (seen : string) (high : option Z)
| Escape (seen : string) (high : option Z)
| Unicode (seen : string) (high : option Z) (more : nat) (acc : Z).

(** What was seen, backwards. *)
Definition push (s seen : string) : string := str_rev s seen.
Definition emitted (seen : string) (high : option Z) : string :=
  match high with Some h => push (utf8 h) seen | None => seen end.
Definition unescaped (c : ascii) : option ascii :=
  if is_char 34 c || is_char 92 c || is_char 47 c then Some c
  else if is_char 98 c then Some (byte 8) else if is_char 102 c then Some (byte 12)
  else if is_char 110 c then Some (byte 10) else if is_char 114 c then Some (byte 13)
  else if is_char 116 c then Some (byte 9) else None.
Definition hex_digit_value (c : ascii) : option Z :=
  if is_digit c then Some (code c - 48)
  else if ascii_in 97 102 c then Some (code c - 87)
  else if ascii_in 65 70 c then Some (code c - 55) else None.
(** A character given by its number. *)
Definition escaped_number (seen : string) (high : option Z) (n : Z) : string * option Z :=
  match high with
  | Some h =>
      if (56320 <=? n) && (n <=? 57343)
      then (push (utf8 (65536 + (h - 55296) * 1024 + (n - 56320))) seen, None)
      else if (55296 <=? n) && (n <=? 56319) then (emitted seen high, Some n)
      else (push (utf8 n) (emitted seen high), None)
  | None => if (55296 <=? n) && (n <=? 56319) then (seen, Some n) else (push (utf8 n) seen, None)
  end.

Definition between (c : ascii) (rest : lexing -> option (list token)) : option (list token) :=
  if blank c then rest Between
  else if is_char 34 c then rest (InText "" None)
  else if word_char c then rest (InWord (String c ""))
  else t ← punctuation c; cons t <$> rest Between.

Fixpoint tokens (mode : lexing) (s : string) : option (list token) :=
  match s with
  | "" =>
      match mode with
      | Between => Some []
      | InWord seen => t ← word_token (str_rev seen ""); Some [t]
      | _ => None
      end
  | String c s' =>
      let rest mode := tokens mode s' in
      match mode with
      | Between => between c rest
      | InWord seen =>
          if word_char c then rest (InWord (String c seen))
          else t ← word_token (str_rev seen ""); cons t <$> between c rest
      | InText seen high =>
          if is_char 34 c then cons (TkText (str_rev (emitted seen high) "")) <$> rest Between
          else if is_char 92 c then rest (Escape seen high)
          else if ascii_in 0 31 c then None
          else rest (InText (String c (emitted seen high)) None)
      | Escape seen high =>
          if is_char 117 c then rest (Unicode seen high 4 0)
          else a ← unescaped c; rest (InText (String a (emitted seen high)) None)
      | Unicode seen high more acc =>
          d ← hex_digit_value c;
          let acc := acc * 16 + d in
          match more with
          | S (S more) => rest (Unicode seen high (S more) acc)
          | _ => let '(seen, high) := escaped_number seen high acc in rest (InText seen high)
          end
      end
  end.

(** ** Values *)

(** An array or an object that is not closed yet; its items, backwards. *)
Inductive frame :=
| InArray (items : list json)
| InObject (entries : list (string * json)) (key : option string).
(** What may come next: a value, or the close of an array that is still empty; a key, or
    the close of an object that is still empty; the colon; a comma or a close. *)
Inductive expecting := EValue | EItem | EKey | EEntry | EColon | EMore.
Inductive parsing := Open (stack : list frame) (next : expecting) | Complete (j : json).

Definition deliver (j : json) (stack : list frame) : option parsing :=
  match stack with
  | [] => Some (Complete j)
  | InArray items :: st => Some (Open (InArray (j :: items) :: st) EMore)
  | InObject entries (Some k) :: st => Some (Open (InObject (dict_set entries k j) None :: st) EMore)
  | InObject _ None :: _ => None
  end.
Definition takes_value (e : expecting) : bool := match e with EValue | EItem => true | _ => false end.
Definition parse_step (p : parsing) (t : token) : option parsing :=
  match p with
  | Complete _ => None
  | Open stack next =>
      match t, stack with
      | TkValue j, _ => if takes_value next then deliver j stack else None
      | TkText s, InObject entries None :: st =>
          match next with EKey | EEntry => Some (Open (InObject entries (Some s) :: st) EColon) | _ => None end
      | TkText s, _ => if takes_value next then deliver (JStr s) stack else None
      | TkColon, _ => match next with EColon => Some (Open stack EValue) | _ => None end
      | TkOpenArray, _ => if takes_value next then Some (Open (InArray [] :: stack) EItem) else None
      | TkOpenObject, _ => if takes_value next then Some (Open (InObject [] None :: stack) EEntry) else None
      | TkComma, InArray _ :: _ => match next with EMore => Some (Open stack EValue) | _ => None end
      | TkComma, InObject _ _ :: _ => match next with EMore => Some (Open stack EKey) | _ => None end
      | TkComma, [] => None
      | TkCloseArray, InArray items :: st =>
          match next with EItem | EMore => deliver (JArr (rev items)) st | _ => None end
      | TkCloseObject, InObject entries None :: st =>
          match next with EEntry | EMore => deliver (JObj entries) st | _ => None end
      | TkCloseArray, _ | TkCloseObject, _ => None
      end
  end.
Fixpoint parse_tokens (p : parsing) (l : list token) : option json :=
  match l with
  | [] => match p with Complete j => Some j | Open _ _ => None end
  | t :: l' => p' ← parse_step p t; parse_tokens p' l'
  end.

Definition json_loads (s : string) : result json :=
  match (l ← tokens Between s; parse_tokens (Open [] EValue) l) with
  | Some j => Ok j
  | None => Err (ValueError "not a JSON document")
  end.

Definition dq (s : string) : string := dquote +++ s +++ dquote.
Definition escaped (s : string) : string := dquote +++ backslash +++ s +++ dquote.
Example documents :
  map json_loads
    [" { " +++ dq "a" +++ " : [1, -2.5e1, true, null, {}] , " +++ dq "b" +++ ":" +++ dq "x" +++ "} ";
     "{" +++ dq "a" +++ ":1," +++ dq "b" +++ ":2," +++ dq "a" +++ ":3}"; escaped "u0041"; "[]"; "-Infinity"; "0.5"]
  = [Ok (JObj [("a", JArr [JInt 1; JFloat (S754_finite true 7036874417766400 (-48)); JBool true; JNull; JObj []]);
               ("b", JStr "x")]);
     Ok (JObj [("a", JInt 3); ("b", JInt 2)]); Ok (JStr "A"); Ok (JArr []); Ok (JFloat (S754_infinity true));
     Ok (JFloat (flit 5 1))].
Proof. vm_compute. reflexivity. Qed.
Example refused :
  forallb (fun s => match json_loads s with Ok _ => false | Err _ => true end)
    [""; "01"; "1."; "-"; "[1,]"; "{,}"; "[1 2]"; "truefalse"; "{" +++ dq "a" +++ "}"; "nul"; dquote; escaped "x"; "1e"; "[1]]"]
  = true.
Proof. vm_compute. reflexivity. Qed.

(** ** Reading what came back *)

(** [x or y] *)
Definition or_else (j d : json) : json := if truthy j then j else d.
(** [(j.get(k) or {})], the whole raising when [j] has no [get] *)
Definition get_object (k : string) (j : json) : result json := v <-! get_attr k j; Ok (or_empty v).
(** [int(x.get(k) or 0)] *)
Definition count_of (k : string) (j : json) : result Z :=
  v <-! get_attr k j; py_int (or_else v (JInt 0)).

(** [json.loads(value)], wrapped unless it is a dictionary *)
Definition loaded_arguments (value : string) : json :=
  match json_loads value with
  | Ok (JObj l) => JObj l
  | Ok parsed => JObj [("__value__", parsed)]
  | Err _ => JObj [("__unparseable__", JStr (take_str 200 value))]
  end.

Definition fsub (a b : float) : float := SFsub 53 1024 a b.
(** [int((ended - started) * 1000)] *)
Definition elapsed_ms (started ended : float) : result Z := ftrunc (fmul (fsub ended started) (flit 1000 0)).

(** A field of a [ModelSpec], from its persisted settings. *)
Definition spec_field (k : string) (spec : ModelSpec) : json :=
  default (if bool_decide (k = "prompt_cache") then JStr "off"
           else if bool_decide (k = "prompt_version") then JStr PROMPT_VERSION else JNull)
    (assoc_get k (ms_settings spec)).

Definition stable_prefix_chars (rq : DecisionRequest) : Z :=
  Z.of_nat (String.length (rq_system_prompt rq)) + Z.of_nat (String.length (_canonical_tools (rq_tools rq))).

(** What a set of literal keys and optional ones becomes. *)
Definition given (b : bool) (k : string) (v : json) : list (string * json) := if b then [(k, v)] else [].

(** [sep.join(l)] of values that should be texts *)
Definition join_values (sep : string) (l : list json) : result string :=
  texts <-! rmap (fun j => match j with
                                  | JStr s => Ok s
                                  | _ => Err (TypeError "sequence item: expected str instance")
                                  end) l;
  Ok (join sep texts).

(** ** Substitution of patterns *)

(** [re.sub]: at each position the pattern is given the character before it and says how
    much it matches, never nothing. *)
Fixpoint re_sub (fuel : nat) (pattern : option ascii -> string -> option nat) (by_ : string)
    (before : option ascii) (s : string) : string :=
  match fuel, s with
  | S fuel', String c s' =>
      match pattern before s with
      | Some n => by_ +++ re_sub fuel' pattern by_ (String.get (n - 1) s) (drop_str n s)
      | None => String c (re_sub fuel' pattern by_ (Some c) s')
      end
  | _, _ => s
  end.
Definition sub_all (pattern : option ascii -> string -> option nat) (by_ s : string) : string :=
  re_sub (String.length s) pattern by_ None s.

(** How many characters from the start satisfy [p]. *)
Fixpoint run_of (p : ascii -> bool) (s : string) : nat :=
  match s with String c s' => if p c then S (run_of p s') else O | "" => O end.
(** The position after the first occurrence of [w]. *)
Fixpoint after_first (w s : string) : option nat :=
  if startswith w s then Some (String.length w)
  else match s with String _ s' => S <$> after_first w s' | "" => None end.

(** A thought in angle brackets and the blanks after it. *)
Definition think_pattern (_ : option ascii) (s : string) : option nat :=
  if startswith "<think>" (lower s) then
    k ← after_first "</think>" (drop_str 7 (lower s));
    Some (7 + k + run_of is_space (drop_str (7 + k) s))%nat
  else None.
(** [bearer], blanks, and what is not blank *)
Definition bearer_pattern (_ : option ascii) (s : string) : option nat :=
  if startswith "bearer" (lower s) then
    let blanks := run_of is_space (drop_str 6 s) in
    let secret := run_of (fun c => negb (is_space c)) (drop_str (6 + blanks) s) in
    if (blanks =? 0)%nat || (secret =? 0)%nat then None else Some (6 + blanks + secret)%nat
  else None.
Definition key_char (c : ascii) : bool :=
  is_upper c || is_lower c || is_digit c || is_char 95 c || is_char 45 c || is_char 42 c || is_char 46 c.
Definition word_like (c : ascii) : bool := is_upper c || is_lower c || is_digit c || is_char 95 c.
Definition KEY_PREFIXES : list string := ["sk-"; "pk-"; "rk-"; "gsk-"; "xai-"].
(** A key: one of the prefixes at the start of a word, and six characters or more *)
Definition key_pattern (before : option ascii) (s : string) : option nat :=
  if match before with Some c => word_like c | None => false end then None
  else
    p ← List.find (fun p => startswith p s) KEY_PREFIXES;
    let n := run_of key_char (drop_str (String.length p) s) in
    if (n <? 6)%nat then None else Some (String.length p + n)%nat.

(** [text.replace(old, new)] for a text that is not empty *)
Definition replace_all (old new s : string) : string :=
  sub_all (fun _ s => if startswith old s then Some (String.length old) else None) new s.

(** ** OpenAI-compatible endpoints ([openai_compatible.py]) *)

(** What the HTTP client makes of a request; the body is [None] when it is not JSON. *)
Inductive HttpAnswer :=
| Answered (status : Z) (body : option json)
| TimedOut (error : string)
| Unreachable (error : string).
Class HttpClient := {
  hc_world : Type;
  monotonic : Prog hc_world float;
  post : string -> list (string * string) -> json -> Prog hc_world HttpAnswer;
}.

Module Chat.

Definition TERMINAL : list string := ["authentication"; "model_unavailable"; "bad_request"].

Definition visible_text (content : json) : result string :=
  content <-! match content with
              | JArr l =>
                  text <-! (texts <-! rmap (fun p => match p with
                                                      | JObj d => Ok [default (JStr "") (assoc_get "text" d)]
                                                      | _ => Ok []
                                                      end) l;
                             join_values "" (concat texts));
                  Ok (JStr text)
              | _ => Ok content
              end;
  Ok (match or_else content (JStr "") with
      | JStr s => strip (sub_all think_pattern "" s)
      | _ => ""
      end).

(** ** The messages *)

Definition system_message (text : string) : json := JObj [("role", JStr "system"); ("content", JStr text)].
Definition user_message (text : string) : json := JObj [("role", JStr "user"); ("content", JStr text)].
Definition tool_message (r : ToolResultEntry) : json :=
  JObj [("role", JStr "tool"); ("tool_call_id", JStr (re_call_id r)); ("content", re_content r)].
Definition assistant_message (provider_payload : json) : result json :=
  payload <-! match provider_payload with
              | JObj l => Ok (default (JObj []) (assoc_get "message" l))
              | _ => Err (AttributeError "object has no attribute 'get'")
              end;
  content <-! get_attr "content" payload;
  tool_calls <-! get_attr "tool_calls" payload;
  Ok (JObj ([("role", JStr "assistant"); ("content", or_else content (JStr ""))]
            ++ given (truthy tool_calls) "tool_calls" tool_calls)).

Definition entry_messages (e : TranscriptEntry) : result (list json) :=
  match e with
  | ContextEntry text => Ok [user_message text]
  | AssistantEntry _ _ payload => m <-! assistant_message payload; Ok [m]
  | ObservationEntry results notices =>
      said <-! match notices with
               | [] => Ok []
               | _ => text <-! join_values (newline +++ newline) notices; Ok [user_message text]
               end;
      Ok (map tool_message results ++ said)
  end.
Definition render_messages (rq : DecisionRequest) : result (list json) :=
  messages <-! rmap entry_messages (rq_transcript rq);
  Ok (system_message (rq_system_prompt rq) :: concat messages).

(** ** The request *)

Definition REJECTED_KEYWORDS : list string :=
  ["pattern"; "format"; "minLength"; "maxLength"; "minItems"; "maxItems"; "minimum"; "maximum";
   "patternProperties"].
(** [set(a) == set(b)] *)
Definition same_set (a b : list json) : bool :=
  forallb (fun x => existsb (py_eq x) b) a && forallb (fun x => existsb (py_eq x) a) b.
(** An object is closed, and all its properties are required. *)
Definition closed_object (schema : list (string * json)) : result bool :=
  if py_eq (jget "type" (JObj schema)) (JStr "object") || bool_decide ("properties" ∈ schema.*1) then
    let props := or_empty (jget "properties" (JObj schema)) in
    match jget "additionalProperties" (JObj schema) with
    | JBool false =>
        required <-! set_of (or_empty_list (jget "required" (JObj schema)));
        properties <-! set_of props;
        Ok (same_set required properties)
    | _ => Ok false
    end
  else Ok true.
Fixpoint strict_compatible (schema : json) : result bool :=
  match schema with
  | JArr l =>
      (fix every (l : list json) : result bool :=
         match l with
         | [] => Ok true
         | s :: l' => b <-! strict_compatible s; if b : bool then every l' else Ok false
         end) l
  | JObj d =>
      if existsb (fun k => bool_decide (k ∈ d.*1)) REJECTED_KEYWORDS then Ok false
      else
        closed <-! closed_object d;
        if negb closed then Ok false
        else (fix every (l : list (string * json)) : result bool :=
                match l with
                | [] => Ok true
                | (_, v) :: l' => b <-! strict_compatible v; if b : bool then every l' else Ok false
                end) d
  | _ => Ok true
  end.

(** A model with its endpoint; the capabilities are the persisted ones, over the defaults. *)
Record Endpoint := {
  ep_spec : ModelSpec;
  ep_capabilities : list (string * json);
  ep_url : string;
  ep_api_key : string;
  ep_headers : list (string * string);
}.
Definition capability (e : Endpoint) (k : string) : json := default JNull (assoc_get k (ep_capabilities e)).

(** [ChatCapabilities.from_dict] *)
Definition capabilities_from (data : json) : result (list (string * json)) :=
  match or_empty data with
  | JObj l =>
      let defaults := capabilities_json default_capabilities in
      Ok (dict_merge defaults (List.filter (fun kv => bool_decide (kv.1 ∈ defaults.*1)) l))
  | _ => Err (AttributeError "object has no attribute 'items'")
  end.
Definition make (spec : ModelSpec) (api_key : string) (base_url : json) (extra_headers : list (string * string))
    : result Endpoint :=
  let url := or_else base_url (spec_field "base_url" spec) in
  if negb (truthy url) then Err (ValueError "an OpenAI-compatible model needs a base URL")
  else
    caps <-! capabilities_from (spec_field "capabilities" spec);
    match url with
    | JStr u =>
        Ok {| ep_spec := spec; ep_capabilities := caps; ep_url := rstrip_slashes u +++ "/chat/completions";
              ep_api_key := api_key; ep_headers := ("Authorization", "Bearer " +++ api_key) :: extra_headers |}
    | _ => Err (AttributeError "object has no attribute 'rstrip'")
    end.

(** A key as [json.dumps] writes it. *)
Definition dumped_key (j : json) : result string :=
  match j with
  | JStr s => Ok s
  | JNull => Ok "null"
  | JBool b => Ok (if b then "true" else "false")
  | JInt n => Ok (str_Z n)
  | JFloat x => Ok (frepr x)
  | JArr _ | JObj _ => Err (TypeError "unhashable type")
  end.

Definition _tool (e : Endpoint) (t : ToolDefinition) : result json :=
  strict <-! (if truthy (capability e "strict_tools") then strict_compatible (td_input_schema t) else Ok false);
  Ok (JObj [("type", JStr "function");
            ("function", JObj ([("name", JStr (td_name t)); ("description", JStr (td_description t));
                                ("parameters", td_input_schema t)] ++ given strict "strict" (JBool true)))]).

Definition tool_fields (e : Endpoint) (rq : DecisionRequest) : result (list (string * json)) :=
  if truthy (capability e "tools") && negb (bool_decide (rq_tools rq = [])) then
    tools <-! rmap (_tool e) (rq_tools rq);
    Ok ([("tools", JArr tools)] ++ given (truthy (capability e "tool_choice")) "tool_choice" (JStr "auto")
        ++ given (negb (is_null (capability e "parallel_tool_calls"))) "parallel_tool_calls"
             (capability e "parallel_tool_calls"))
  else Ok [].
Definition effort_fields (e : Endpoint) : list (string * json) :=
  let effort := spec_field "effort" (ep_spec e) in
  if truthy effort && py_eq (capability e "reasoning") (JStr "reasoning_effort") then [("reasoning_effort", effort)]
  else if truthy effort && py_eq (capability e "reasoning") (JStr "reasoning_object")
  then [("reasoning", JObj [("effort", effort)])]
  else [].
Definition build_request (e : Endpoint) (rq : DecisionRequest) : result json :=
  param <-! dumped_key (capability e "max_tokens_param");
  messages <-! render_messages rq;
  tools <-! tool_fields e rq;
  Ok (JObj (dict_merge [("model", JStr (ms_model (ep_spec e)))]
              ([(param, spec_field "max_tokens" (ep_spec e)); ("messages", JArr messages)]
               ++ tools ++ effort_fields e))).

(** ** Errors *)

Definition _scrub (e : Endpoint) (text : string) : string :=
  let text := if nonempty (ep_api_key e) then replace_all (ep_api_key e) "[REDACTED]" text else text in
  take_str 300 (sub_all key_pattern "[REDACTED]" (sub_all bearer_pattern "[REDACTED]" text)).

(** [w in s] *)
Fixpoint within (w s : string) : bool :=
  startswith w s || match s with String _ s' => within w s' | "" => false end.
Definition _category (status : Z) (error_type error_code : string) : string :=
  let hint := lower (error_type +++ " " +++ error_code) in
  if bool_decide (status ∈ [401; 402; 403]) || within "auth" hint || within "api_key" hint then "authentication"
  else if (status =? 429) || within "rate_limit" hint then "rate_limit"
  else if (status =? 404) || within "model_not_found" hint then "model_unavailable"
  else if status =? 408 then "timeout"
  else if bool_decide (status ∈ [400; 413; 422]) || within "invalid_request" hint then "bad_request"
  else "upstream_error".

(** [int(code)], the status where it is no number; an infinity raises. *)
Definition code_or (status : Z) (code : json) : result Z :=
  match py_int code with
  | Ok n => Ok n
  | Err (TypeError _) | Err (ValueError _) => Ok status
  | Err e => Err e
  end.
Definition model_error (e : Endpoint) (category summary : string) : exn :=
  ModelError category (_scrub e summary) (negb (bool_decide (category ∈ TERMINAL))).
Definition object_or_empty (j : json) : json := match j with JObj l => JObj l | _ => JObj [] end.
(** [raw if isinstance(raw, dict) else {"message": raw} if raw else {}] *)
Definition error_object (raw : json) : json :=
  match raw with JObj l => JObj l | _ => if truthy raw then JObj [("message", raw)] else JObj [] end.
Definition prefixed_text (prefix : string) (j : json) : string := if truthy j then prefix +++ py_str j else "".
(** The error to raise for an answer with an error in it. *)
Definition _error (e : Endpoint) (status : Z) (data : json) : result exn :=
  let error := error_object (jget "error" data) in
  code <-! match error with
           | JObj l => code_or status (default (JInt status) (assoc_get "code" l))
           | _ => Ok status
           end;
  let text k := let j := jget k error in if truthy j then py_str j else "" in
  let category := _category code (text "type") (text "code") in
  let meta := object_or_empty (jget "metadata" error) in
  Ok (model_error e category
        (category +++ " http_" +++ str_Z code
         +++ prefixed_text " upstream=" (jget "provider_name" meta)
         +++ (if truthy (jget "message" error) then ": " +++ take_str 200 (py_str (jget "message" error)) else "")
         +++ prefixed_text " limit_source=" (jget "limit_source" meta)
         +++ match jget "raw" meta with
             | JStr s => if nonempty s then " (" +++ take_str 160 s +++ ")" else ""
             | _ => ""
             end)).
Definition raise_error {A} (e : Endpoint) (status : Z) (data : json) : result A :=
  x <-! _error e status data; Err x.

(** ** The answer *)

Definition parse_arguments (value : json) : json :=
  match value with
  | JObj l => JObj l
  | JStr s => if nonempty (strip s) then loaded_arguments s else JObj []
  | JNull => JObj []
  | _ => JObj [("__value__", value)]
  end.

Definition call_action (i : Z) (call : json) : result ModelAction :=
  id <-! get_attr "id" call;
  f <-! get_object "function" call;
  name <-! match f with
           | JObj l => Ok (default (JStr "") (assoc_get "name" l))
           | _ => Err (AttributeError "object has no attribute 'get'")
           end;
  arguments <-! get_attr "arguments" f;
  Ok {| act_call_id := py_str (or_else id (JStr ("call_" +++ str_Z i))); act_name := py_str name;
        act_arguments := parse_arguments arguments |}.
Definition is_object (j : json) : bool := match j with JObj _ => true | _ => false end.
(** The calls that are dictionaries, with their positions. *)
Fixpoint numbered_calls (i : Z) (l : list json) : list (Z * json) :=
  match l with
  | [] => []
  | c :: l' => (if is_object c then [(i, c)] else []) ++ numbered_calls (i + 1) l'
  end.
Definition call_actions (l : list json) : result (list ModelAction) :=
  rmap (fun ic => call_action ic.1 ic.2) (numbered_calls 0 l).
Definition stored_call (ac : ModelAction * json) : result json :=
  f <-! get_object "function" ac.2;
  arguments <-! get_attr "arguments" f;
  Ok (JObj [("id", JStr (act_call_id ac.1)); ("type", JStr "function");
            ("function", JObj [("name", JStr (act_name ac.1)); ("arguments", or_else arguments (JStr "{}"))])]).
(** The message that is kept and sent again. *)
Definition stored_message (text : string) (raw_calls : list json) (truncated : bool) (actions : list ModelAction)
    : result json :=
  match raw_calls, truncated with
  | _ :: _, false =>
      calls <-! rmap stored_call (zip actions (List.filter is_object raw_calls));
      Ok (JObj [("content", JStr text); ("tool_calls", JArr calls)])
  | _, _ => Ok (JObj [("content", JStr text)])
  end.

Definition stop_reason (finish : json) (actions : list ModelAction) : result string :=
  let f := or_else finish (JStr "") in
  if negb (hashable f) then Err (TypeError "unhashable type")
  else Ok (if py_eq f (JStr "tool_calls") then "tool_use" else if py_eq f (JStr "stop") then "end_turn"
           else if py_eq f (JStr "length") then "max_tokens"
           else match actions with [] => "other" | _ => "tool_use" end).

Definition cache_info `{Hashing} (e : Endpoint) (rq : DecisionRequest) (read written : Z) : json :=
  let caching := capability e "prompt_caching" in
  JObj [("requested", JBool false); ("supported", caching);
        ("strategy", JStr (if truthy caching then "provider_automatic" else "none"));
        ("note", JStr "no cache hints are sent; cached tokens the provider reports are recorded");
        ("prefix_digest", JStr (stable_prefix_digest (rq_system_prompt rq) (rq_tools rq)));
        ("prefix_chars", JInt (stable_prefix_chars rq)); ("read_tokens", JInt read);
        ("write_tokens", JInt written); ("hit", JBool (0 <? read))].

Definition malformed {A} (text : string) : result A := Err (ModelError "malformed_response" text true).

(** From the choice on. *)
Definition read_choice `{Hashing} (e : Endpoint) (rq : DecisionRequest) (latency_ms : Z) (data choice : json)
    : result ModelTurn :=
  if truthy (jget "error" choice) then raise_error e 502 (JObj [("error", jget "error" choice)])
  else
    let message := jget "message" choice in
    let finish := jget "finish_reason" choice in
    if negb (is_object message) then malformed "choice has no message"
    else if py_eq finish (JStr "error") then
      Err (ModelError "upstream_error"
             (_scrub e ("generation failed upstream (provider=" +++ py_str (jget "provider" data)
                        +++ ", native_finish_reason=" +++ py_str (jget "native_finish_reason" choice) +++ ")")) true)
    else if py_eq finish (JStr "content_filter") then
      Err (ModelError "bad_request" "the provider filtered the response" false)
    else
      match or_empty_list (jget "tool_calls" message) with
      | JArr raw_calls =>
          let truncated := py_eq finish (JStr "length") in
          actions <-! (if truncated then Ok [] else call_actions raw_calls);
          text <-! visible_text (jget "content" message);
          let usage := object_or_empty (jget "usage" data) in
          prompt_details <-! get_object "prompt_tokens_details" usage;
          cached <-! count_of "cached_tokens" prompt_details;
          written <-! count_of "cache_write_tokens" prompt_details;
          stop <-! stop_reason finish actions;
          stored <-! stored_message text raw_calls truncated actions;
          input <-! count_of "prompt_tokens" usage;
          output <-! count_of "completion_tokens" usage;
          completion_details <-! get_object "completion_tokens_details" usage;
          reasoning <-! count_of "reasoning_tokens" completion_details;
          Ok {| mt_text := text; mt_actions := actions; mt_stop_reason := stop;
                mt_usage := [("input_tokens", input); ("output_tokens", output);
                             ("cache_read_input_tokens", cached); ("cache_creation_input_tokens", written);
                             ("reasoning_tokens", reasoning)];
                mt_provider_payload :=
                  JObj [("message", stored); ("generation_id", jget "id" data);
                        ("upstream_provider", jget "provider" data); ("finish_reason", finish);
                        ("native_finish_reason", jget "native_finish_reason" choice);
                        ("usage_reported", JBool (truthy usage)); ("cost", jget "cost" usage)];
                mt_served_model := py_str (or_else (jget "model" data) (JStr (ms_model (ep_spec e))));
                mt_latency_ms := latency_ms; mt_cache := cache_info e rq cached written |}
      | _ => malformed "tool_calls is not a list"
      end.

Definition read_answer `{Hashing} (e : Endpoint) (rq : DecisionRequest) (latency_ms status : Z) (body : option json)
    : result ModelTurn :=
  if 400 <=? status then raise_error e status (object_or_empty (opt_json body))
  else
    match body with
    | Some (JObj l) =>
        let data := JObj l in
        if truthy (jget "error" data) then raise_error e 200 data
        else
          match jget "choices" data with
          | JArr (JObj c :: _) => read_choice e rq latency_ms data (JObj c)
          | _ => malformed "no choices in the response"
          end
    | _ => malformed "response body is not a JSON object"
    end.

Definition decide `{Hashing} {HC : HttpClient} (e : Endpoint) (rq : DecisionRequest) : Prog hc_world ModelTurn :=
  if negb (truthy (capability e "tools")) then
    throw (ModelError "bad_request" "the endpoint is declared without tool calling; investigations need it" false)
  else
    started ← monotonic;
    body ← pure (build_request e rq);
    answer ← post (ep_url e) (ep_headers e) body;
    match answer with
    | TimedOut error => throw (ModelError "timeout" ("request timed out (" +++ error +++ ")") true)
    | Unreachable error => throw (ModelError "upstream_error" ("connection failed (" +++ error +++ ")") true)
    | Answered status body =>
        ended ← monotonic;
        latency_ms ← pure (elapsed_ms started ended);
        pure (read_answer e rq latency_ms status body)
    end.
End Chat.

(** [OpenRouterInvestigationModel]: the fixed URL and a header. *)
Definition OPENROUTER_BASE_URL : option string :=
  match assoc_get "openrouter" OPENAI_COMPATIBLE_PROVIDERS with Some (url, _) => url | None => None end.
Definition openrouter (spec : ModelSpec) (api_key : string) : result Chat.Endpoint :=
  Chat.make spec api_key (or_else (spec_field "base_url" spec) (jopt_str OPENROUTER_BASE_URL))
    [("X-Title", "Incident Intelligence")].

(** ** Claude ([claude.py]) *)

(** The blocks of a message, as the SDK types them. *)
Inductive Block :=
| TextBlock (text : string)
| ToolUseBlock (id name : string) (input : json)
| ThinkingBlock (thinking signature : string)
| RedactedBlock (data : string)
| OtherBlock.
Record ClaudeMessage := {
  cm_content : list Block;
  cm_stop_reason : option string;
  cm_input_tokens : Z;
  cm_output_tokens : Z;
  cm_cache_read : option Z;
  cm_cache_creation : option Z;
  cm_request_id : option string;
  cm_model : string;
}.
(** The classes of errors the adapter tells apart: those of [_RETRYABLE], those of
    [_TERMINAL], and any other that has a status. *)
Inductive ErrorClass := RetryableClass | TerminalClass | StatusClass (status : Z).
Record AnthropicError := { ae_class : ErrorClass; ae_name : string; ae_request_id : string; ae_body : json }.
Inductive ClaudeAnswer := ClaudeSaid (m : ClaudeMessage) | ClaudeFailed (e : AnthropicError).
Class AnthropicClient := {
  ac_world : Type;
  ac_monotonic : Prog ac_world float;
  messages_create : list (string * json) -> Prog ac_world ClaudeAnswer;
}.

Module Claude.

Definition _block_param (b : Block) : option json :=
  match b with
  | TextBlock text => Some (JObj [("type", JStr "text"); ("text", JStr text)])
  | ToolUseBlock id name input =>
      Some (JObj [("type", JStr "tool_use"); ("id", JStr id); ("name", JStr name); ("input", input)])
  | ThinkingBlock thinking signature =>
      Some (JObj [("type", JStr "thinking"); ("thinking", JStr thinking); ("signature", JStr signature)])
  | RedactedBlock data => Some (JObj [("type", JStr "redacted_thinking"); ("data", JStr data)])
  | OtherBlock => None
  end.

Definition message (role : string) (content : json) : json := JObj [("role", JStr role); ("content", content)].
Definition tool_result (r : ToolResultEntry) : json :=
  JObj ([("type", JStr "tool_result"); ("tool_use_id", JStr (re_call_id r)); ("content", re_content r)]
        ++ given (re_is_error r) "is_error" (JBool true)).
Definition notice_block (notice : json) : json := JObj [("type", JStr "text"); ("text", notice)].
Definition entry_messages (e : TranscriptEntry) : result (list json) :=
  match e with
  | ContextEntry text => Ok [message "user" (JStr text)]
  | AssistantEntry _ _ payload => content <-! get_item "content" payload; Ok [message "assistant" content]
  | ObservationEntry results notices =>
      match map tool_result results ++ map notice_block notices with
      | [] => Ok []
      | content => Ok [message "user" (JArr content)]
      end
  end.
Definition render_messages (rq : DecisionRequest) : result (list json) :=
  messages <-! rmap entry_messages (rq_transcript rq);
  Ok (concat messages).

Definition caches_stable_prefix (spec : ModelSpec) : bool := py_eq (spec_field "prompt_cache" spec) (JStr "stable_prefix").
Definition build_request (spec : ModelSpec) (rq : DecisionRequest) : result (list (string * json)) :=
  messages <-! render_messages rq;
  let system := JObj ([("type", JStr "text"); ("text", JStr (rq_system_prompt rq))]
                      ++ given (caches_stable_prefix spec) "cache_control" (JObj [("type", JStr "ephemeral")])) in
  Ok ([("model", JStr (ms_model spec)); ("max_tokens", spec_field "max_tokens" spec); ("system", JArr [system]);
       ("tools", JArr (map (fun t => JObj [("name", JStr (td_name t)); ("description", JStr (td_description t));
                                           ("input_schema", td_input_schema t)]) (rq_tools rq)));
       ("messages", JArr messages)]
      ++ given (py_eq (spec_field "thinking" spec) (JStr "adaptive")) "thinking" (JObj [("type", JStr "adaptive")])
      ++ given (truthy (spec_field "effort" spec)) "output_config" (JObj [("effort", spec_field "effort" spec)])).

Definition _message (e : AnthropicError) : string :=
  let summary := ae_name e +++ " request_id=" +++ ae_request_id e in
  take_str 300
    match jget "error" (ae_body e) with
    | JObj l => summary +++ " " +++ py_str (default (JStr "") (assoc_get "type" l)) +++ ": "
                  +++ take_str 200 (py_str (default (JStr "") (assoc_get "message" l)))
    | _ => summary
    end.
Definition model_error (e : AnthropicError) : exn :=
  match ae_class e with
  | RetryableClass => ModelError (ae_name e) (_message e) true
  | TerminalClass => ModelError (ae_name e) (_message e) false
  | StatusClass n => ModelError ("http_" +++ str_Z n) (_message e) ((n =? 429) || (500 <=? n))
  end.

Definition _arguments (value : json) : json :=
  match value with
  | JObj l => JObj l
  | JStr s => loaded_arguments s
  | _ => JObj [("__value__", value)]
  end.
Definition block_text (b : Block) : option string := match b with TextBlock t => Some t | _ => None end.
Definition block_action (b : Block) : option ModelAction :=
  match b with
  | ToolUseBlock id name input => Some {| act_call_id := id; act_name := name; act_arguments := _arguments input |}
  | _ => None
  end.

Definition cache_info `{Hashing} (spec : ModelSpec) (rq : DecisionRequest) (read written : Z) : json :=
  let profile := profile_for (ms_provider spec) (ms_model spec) in
  JObj [("requested", JBool (caches_stable_prefix spec)); ("supported", JBool (mp_prompt_caching profile));
        ("strategy", JStr (if caches_stable_prefix spec then "stable_prefix" else "none"));
        ("breakpoints", JArr (if caches_stable_prefix spec then [JStr "system"] else []));
        ("prefix_digest", JStr (stable_prefix_digest (rq_system_prompt rq) (rq_tools rq)));
        ("prefix_chars", JInt (stable_prefix_chars rq));
        ("min_cacheable_tokens", jopt_int (mp_min_cacheable_tokens profile));
        ("read_tokens", JInt read); ("write_tokens", JInt written); ("hit", JBool (0 <? read))].

Definition read_message `{Hashing} (spec : ModelSpec) (rq : DecisionRequest) (latency_ms : Z) (m : ClaudeMessage)
    : result ModelTurn :=
  if bool_decide (cm_stop_reason m = Some "refusal") then
    Err (ModelError "refusal" "the model declined the request" false)
  else
    let truncated := bool_decide (cm_stop_reason m = Some "max_tokens") in
    let read := default 0 (cm_cache_read m) in
    let written := default 0 (cm_cache_creation m) in
    Ok {| mt_text := join newline (omap block_text (cm_content m));
          mt_actions := if truncated then [] else omap block_action (cm_content m);
          mt_stop_reason := match cm_stop_reason m with
                            | Some s => if bool_decide (s ∈ ["tool_use"; "end_turn"; "max_tokens"]) then s else "other"
                            | None => "other"
                            end;
          mt_usage := [("input_tokens", cm_input_tokens m); ("output_tokens", cm_output_tokens m);
                       ("cache_read_input_tokens", read); ("cache_creation_input_tokens", written)];
          mt_provider_payload :=
            JObj [("content", JArr (omap _block_param (cm_content m))); ("request_id", jopt_str (cm_request_id m));
                  ("stop_reason", jopt_str (cm_stop_reason m))];
          mt_served_model := cm_model m; mt_latency_ms := latency_ms; mt_cache := cache_info spec rq read written |}.

Definition decide `{Hashing} {AC : AnthropicClient} (spec : ModelSpec) (rq : DecisionRequest) : Prog ac_world ModelTurn :=
  started ← ac_monotonic;
  kwargs ← pure (build_request spec rq);
  answer ← messages_create kwargs;
  match answer with
  | ClaudeFailed e => throw (model_error e)
  | ClaudeSaid m =>
      ended ← ac_monotonic;
      latency_ms ← pure (elapsed_ms started ended);
      pure (read_message spec rq latency_ms m)
  end.
End Claude.

(** ** The factory ([factory.py]) *)

Inductive InvestigationModel := ClaudeModel (spec : ModelSpec) (api_key : string) | ChatModel (e : Chat.Endpoint).

Section Factory.
(** The credentials of the environment, by their variables. *)
Context (environment : string -> option string).

Definition not_set {A} (name : string) : result A := Err (ModelConfigError (name +++ " is not set (process environment or .env)")).
Definition _anthropic (spec : ModelSpec) : result InvestigationModel :=
  match environment "ANTHROPIC_API_KEY" with
  | None => not_set "ANTHROPIC_API_KEY"
  | Some key => Ok (ClaudeModel spec key)
  end.
Definition _openrouter (spec : ModelSpec) : result InvestigationModel :=
  match environment "OPENROUTER_API_KEY" with
  | None => not_set "OPENROUTER_API_KEY"
  | Some key => e <-! openrouter spec key; Ok (ChatModel e)
  end.
Definition _openai_compatible (spec : ModelSpec) : result InvestigationModel :=
  match environment "INVESTIGATION_API_KEY" with
  | None => not_set "INVESTIGATION_API_KEY"
  | Some key =>
      if negb (truthy (spec_field "base_url" spec)) then Err (ModelConfigError "INVESTIGATION_BASE_URL is not set")
      else e <-! Chat.make spec key JNull []; Ok (ChatModel e)
  end.
Definition PROVIDERS : list (string * (ModelSpec -> result InvestigationModel)) :=
  [("anthropic", _anthropic); ("openrouter", _openrouter); ("openai_compatible", _openai_compatible)].
Definition known_providers : list string := sorted PROVIDERS.*1.
Definition validate_provider (provider : string) : result () :=
  if bool_decide (provider ∈ PROVIDERS.*1) then Ok ()
  else Err (ModelConfigError ("unknown investigation provider " +++ repr_str provider +++ "; known: "
                              +++ py_repr (JArr (map JStr known_providers)))).
(** The credentials handed over, where there are any, are those of Anthropic. *)
Definition build_investigation_model (spec : ModelSpec) (credentials : option (option string))
    : result InvestigationModel :=
  _ <-! validate_provider (ms_provider spec);
  match credentials with
  | Some key =>
      if bool_decide (ms_provider spec = "anthropic") then
        match key with None => not_set "ANTHROPIC_API_KEY" | Some key => Ok (ClaudeModel spec key) end
      else match assoc_get (ms_provider spec) PROVIDERS with Some build => build spec | None => Err (KeyError (ms_provider spec)) end
  | None =>
      match assoc_get (ms_provider spec) PROVIDERS with Some build => build spec | None => Err (KeyError (ms_provider spec)) end
  end.
End Factory.

(** [model.decide] *)
Definition model_decide `{Hashing} {HC : HttpClient} {AC : AnthropicClient} (m : InvestigationModel) (rq : DecisionRequest)
    : Prog (hc_world * ac_world) ModelTurn :=
  match m with
  | ClaudeModel spec _ => on_right (Claude.decide spec rq)
  | ChatModel e => on_left (Chat.decide e rq)
  end.
