(* ===== verification/ProvidersSafety.v ===== *)
(** * What the adapters make of a conversation

    Whatever an endpoint answers, the turn the engine gets can be acted on and sent again,
    and a transcript whose calls and results are paired is rendered to messages that keep
    to the protocol of the API: every call is answered at once, nothing else is. *)
From Stdlib Require Import Ascii SpecFloat.
From S2P Require Import Prelude PyFloat Json Enums VerificationDomain Catalog.
From S2P Require Import RemediationDomain Uuid InvestigationDomain Store Prog RemediationService.
From S2P Require Import IncidentRepository AlertIdentity IncidentService InvestigationService EvidenceScope.
From S2P Require Import EvidenceService AgentModel AgentContext AgentTools AgentToolset AgentEngine AgentTrace ModelConfig Planner Providers.
Local Open Scope Z_scope.

(** ** Values *)

Lemma get_attr_Ok k j v : get_attr k j = Ok v -> v = jget k j /\ exists l, j = JObj l.
Proof. destruct j; try done. intros [= <-]. split; [done|by eexists]. Qed.

Lemma append_nonempty a b : nonempty (a +++ b) = nonempty a || nonempty b.
Proof. by destruct a. Qed.
Lemma nonempty_spec s : nonempty s = true <-> s <> "".
Proof. destruct s; simpl; naive_solver. Qed.
Lemma str_Z_nonempty n : nonempty (str_Z n) = true.
Proof. unfold str_Z. destruct (Z.to_int n) as [u|u]; [by destruct u|done]. Qed.
Lemma layout_nonempty d p : nonempty (layout d p) = true.
Proof.
  unfold layout. repeat case_match; rewrite !append_nonempty; cbn [nonempty orb]; by rewrite ?orb_true_r.
Qed.
Lemma frepr_nonempty x : nonempty (frepr x) = true.
Proof.
  destruct x as [s|s| |s m e]; [by destruct s..|done|]. unfold frepr. do 2 case_match.
  by rewrite append_nonempty, layout_nonempty, orb_true_r.
Qed.
Lemma py_str_nonempty j : truthy j = true -> py_str j <> "".
Proof.
  intros H. apply nonempty_spec. destruct j as [|b|n|x|s|l|l]; try done; simpl.
  - by destruct b.
  - apply str_Z_nonempty.
  - apply frepr_nonempty.
Qed.

Lemma loaded_arguments_object s : exists l, loaded_arguments s = JObj l.
Proof. unfold loaded_arguments. destruct (json_loads s) as [[]|]; by eexists. Qed.
Lemma parse_arguments_object j : exists l, Chat.parse_arguments j = JObj l.
Proof.
  destruct j; simpl; try by eexists. destruct (nonempty _); [apply loaded_arguments_object|by eexists].
Qed.
Lemma claude_arguments_object j : exists l, Claude._arguments j = JObj l.
Proof. destruct j; simpl; try by eexists. apply loaded_arguments_object. Qed.

Lemma rmap_Forall2 {A B} (f : A -> result B) l bs : rmap f l = Ok bs -> Forall2 (fun a b => f a = Ok b) l bs.
Proof.
  revert bs. induction l as [|a l IH]; intros bs; [intros [= <-]; constructor|]. simpl.
  intros (b & Hb & (bs' & Hbs & [= <-])%rbind_Ok)%rbind_Ok. constructor; [done|by apply IH].
Qed.

(** ** Turns of an OpenAI-compatible endpoint *)

(** The ids of the calls a message carries. *)
Definition call_ids_of (message : json) : list json :=
  match jget "tool_calls" message with JArr l => map (jget "id") l | _ => [] end.
(** The message that is kept of a turn carries exactly its calls. *)
Definition chat_coherent (actions : list ModelAction) (payload : json) : Prop :=
  call_ids_of (jget "message" payload) = map (fun a => JStr (act_call_id a)) actions
  /\ exists l d, payload = JObj l /\ assoc_get "message" l = Some (JObj d).

Lemma call_action_usable i c a : Chat.call_action i c = Ok a ->
  (exists l, act_arguments a = JObj l) /\ act_call_id a <> "".
Proof.
  unfold Chat.call_action. intros (id & _ & (f & _ & (n & _ & (g & _ & [= <-])%rbind_Ok)%rbind_Ok)%rbind_Ok)%rbind_Ok.
  split; [apply parse_arguments_object|]. cbn [act_call_id]. unfold or_else. destruct (truthy id) eqn:E; by apply py_str_nonempty.
Qed.
Lemma call_actions_usable l acts : Chat.call_actions l = Ok acts ->
  Forall (fun a => (exists l, act_arguments a = JObj l) /\ act_call_id a <> "") acts.
Proof.
  intros H%rmap_Forall2. induction H as [|[i c] a ics acts Ha _ IH]; constructor; [by eapply call_action_usable|done].
Qed.
Lemma numbered_calls_objects i l : (Chat.numbered_calls i l).*2 = List.filter Chat.is_object l.
Proof. revert i. induction l as [|c l IH]; intros i; [done|]. simpl. destruct (Chat.is_object c); simpl; by rewrite IH. Qed.
Lemma call_actions_length l acts : Chat.call_actions l = Ok acts -> length acts = length (List.filter Chat.is_object l).
Proof.
  intros H%rmap_Forall2%Forall2_length. rewrite <-H, <-(numbered_calls_objects 0 l). by rewrite length_fmap.
Qed.
Lemma stored_calls_ids actions objects calls :
  rmap Chat.stored_call (zip actions objects) = Ok calls -> length actions = length objects ->
  map (jget "id") calls = map (fun a => JStr (act_call_id a)) actions.
Proof.
  intros H%rmap_Forall2. revert actions objects H. induction calls as [|c calls IH]; intros acts objs H Hl.
  - inversion H as [E|]. destruct acts as [|a acts], objs; try done.
  - destruct acts as [|a acts], objs as [|o objs]; try done; inversion H as [|? ? ? ? Hc Hrest]; subst. simpl. f_equal.
    + unfold Chat.stored_call in Hc. apply rbind_Ok in Hc as (f & _ & (g & _ & [= <-])%rbind_Ok). done.
    + eapply IH; [done|]. simpl in Hl. lia.
Qed.
Lemma stored_message_coherent text raw truncated actions stored :
  Chat.stored_message text raw truncated actions = Ok stored ->
  (if truncated then actions = [] else length actions = length (List.filter Chat.is_object raw)) ->
  call_ids_of stored = map (fun a => JStr (act_call_id a)) actions /\ exists d, stored = JObj d.
Proof.
  unfold Chat.stored_message. intros H Ha. destruct raw as [|r raw].
  - injection H as <-. assert (actions = []) as -> by (destruct truncated, actions; done). split; [done|by eexists].
  - destruct truncated; [injection H as <-; subst; split; [done|by eexists]|].
    apply rbind_Ok in H as (calls & Hc & [= <-]). split; [|by eexists].
    unfold call_ids_of. change (jget "tool_calls" _) with (JArr calls). by eapply stored_calls_ids.
Qed.

(** What may be done with a turn. *)
Record usable (t : ModelTurn) : Prop := {
  us_arguments : forall a, a ∈ mt_actions t -> exists l, act_arguments a = JObj l;
  us_ids : forall a, a ∈ mt_actions t -> act_call_id a <> "";
  us_truncated : mt_stop_reason t = "max_tokens" -> mt_actions t = [];
}.

Lemma read_choice_usable `{Hashing} e rq ms data choice t :
  Chat.read_choice e rq ms data choice = Ok t -> usable t /\ chat_coherent (mt_actions t) (mt_provider_payload t).
Proof.
  unfold Chat.read_choice, Chat.raise_error, Chat.malformed. destruct (truthy _).
  { intros (x & _ & ?)%rbind_Ok. done. }
  destruct (negb _); [done|]. destruct (py_eq _ (JStr "error")); [done|]. destruct (py_eq _ (JStr "content_filter")); [done|].
  destruct (or_empty_list _) as [| | | | |raw|]; try done.
  set (finish := jget "finish_reason" choice). set (truncated := py_eq finish (JStr "length")).
  intros (acts & Ha & H0)%rbind_Ok. apply rbind_Ok in H0 as (text & _ & H0).
  do 3 (apply rbind_Ok in H0 as (? & _ & H0)). apply rbind_Ok in H0 as (stop & Hstop & H0).
  apply rbind_Ok in H0 as (stored & Hs & H0). do 4 (apply rbind_Ok in H0 as (? & _ & H0)). injection H0 as <-.
  assert (if truncated then acts = [] else length acts = length (List.filter Chat.is_object raw)) as Hlen.
  { destruct truncated; [by injection Ha as <-|by apply call_actions_length]. }
  split; [|destruct (stored_message_coherent _ _ _ _ _ Hs Hlen) as [H1 [d ->]]; split; [done|by do 2 eexists]].
  assert (Forall (fun a => (exists l, act_arguments a = JObj l) /\ act_call_id a <> "") acts) as HF.
  { destruct truncated; [injection Ha as <-; constructor|by eapply call_actions_usable]. }
  rewrite Forall_forall in HF. split; cbn [mt_actions mt_stop_reason]; [by intros a Hin; apply HF..|].
  intros ->. unfold Chat.stop_reason in Hstop. destruct (negb _); [done|].
  destruct (py_eq _ (JStr "tool_calls")); [done|]. destruct (py_eq _ (JStr "stop")); [done|].
  destruct (py_eq (or_else finish (JStr "")) (JStr "length")) eqn:El; [|by destruct acts].
  assert (truncated = true) as Ht; [|by rewrite Ht in Hlen].
  unfold truncated, or_else in *. by destruct (truthy finish).
Qed.

(** ** The protocol of chat completions

    Every call of an assistant message is answered by one tool message, before anything
    else is said, and there are no other tool messages. *)
Definition is_role (r : string) (m : json) : bool := py_eq (jget "role" m) (JStr r).
Fixpoint chat_protocol (pending : list string) (ms : list json) : Prop :=
  match ms with
  | [] => pending = []
  | m :: ms' =>
      if is_role "tool" m then
        exists c rest, jget "tool_call_id" m = JStr c /\ pending ≡ₚ c :: rest /\ chat_protocol rest ms'
      else if is_role "assistant" m then
        pending = [] /\ exists ids, call_ids_of m = map JStr ids /\ chat_protocol ids ms'
      else pending = [] /\ chat_protocol [] ms'
  end.

Definition calls_before (prev : option TranscriptEntry) : list string :=
  match prev with Some (AssistantEntry _ acts _) => map act_call_id acts | _ => [] end.
Lemma none_before prev e : follows prev e -> (forall r n, e <> ObservationEntry r n) -> calls_before prev = [].
Proof.
  intros Hf Hn. destruct prev as [[|t acts p|]|]; try done.
  destruct e as [|? ? ?|r n]; simpl in Hf; [by subst..|by destruct (Hn r n)].
Qed.
Lemma all_before prev results notices :
  follows prev (ObservationEntry results notices) -> map re_call_id results ≡ₚ calls_before prev.
Proof. destruct prev as [[|t acts p|]|]; simpl; try done; by intros ->. Qed.
Lemma end_before prev : may_end prev -> calls_before prev = [].
Proof. destruct prev as [[|t acts p|]|]; try done. simpl. by intros ->. Qed.

Lemma answered_calls results pending rest :
  map re_call_id results ≡ₚ pending -> chat_protocol [] rest ->
  chat_protocol pending (map Chat.tool_message results ++ rest).
Proof.
  revert pending. induction results as [|r results IH]; intros pending Hp Hr.
  - apply Permutation_nil_l in Hp as <-. exact Hr.
  - cbn [map app chat_protocol]. change (is_role "tool" (Chat.tool_message r)) with true. cbn iota.
    exists (re_call_id r), (map re_call_id results). split; [done|]. split; [by symmetry|by apply IH].
Qed.
Lemma user_said text rest : chat_protocol [] rest -> chat_protocol [] (Chat.user_message text :: rest).
Proof. by split. Qed.

(** An entry that is no turn, or a turn with its calls in its payload. *)
Definition coherent (c : list ModelAction -> json -> Prop) (e : TranscriptEntry) : Prop :=
  match e with AssistantEntry _ acts payload => c acts payload | _ => True end.

Lemma assistant_message_ids acts payload m :
  chat_coherent acts payload -> Chat.assistant_message payload = Ok m ->
  is_role "tool" m = false /\ is_role "assistant" m = true /\ call_ids_of m = map JStr (map act_call_id acts).
Proof.
  intros [Hc _] H. unfold Chat.assistant_message in H. apply rbind_Ok in H as (stored & Hs & H).
  apply rbind_Ok in H as (content & _ & (calls & Ht & [= <-])%rbind_Ok). split; [done|]. split; [done|].
  rewrite map_map, <-Hc. destruct payload as [| | | | | |l]; try done. injection Hs as <-.
  apply get_attr_Ok in Ht as [-> _]. assert (call_ids_of (jget "message" (JObj l))
    = call_ids_of (default (JObj []) (assoc_get "message" l))) as -> by (simpl; by destruct (assoc_get "message" l)).
  unfold call_ids_of at 1. destruct (truthy (jget "tool_calls" _)) eqn:E; [done|].
  unfold call_ids_of. destruct (jget "tool_calls" (default _ _)) as [| | | | |[]|]; try done.
Qed.

Lemma chat_entries prev es messages :
  paired prev es -> Forall (coherent chat_coherent) es -> rmap Chat.entry_messages es = Ok messages ->
  chat_protocol (calls_before prev) (concat messages).
Proof.
  revert prev messages. induction es as [|e es IH]; intros prev messages Hp HF.
  { intros [= <-]. by apply end_before. }
  intros (ms & Hm & (messages' & Hms & [= <-])%rbind_Ok)%rbind_Ok. inversion HF as [|? ? He HF']; subst.
  destruct Hp as [Hf Hp]. specialize (IH (Some e) messages' Hp HF' Hms). cbn [concat].
  destruct e as [text|text acts payload|results notices].
  - injection Hm as <-. rewrite (none_before _ _ Hf) by done. by apply user_said.
  - apply rbind_Ok in Hm as (m & Hm & [= <-]). rewrite (none_before _ _ Hf) by done.
    destruct (assistant_message_ids _ _ _ He Hm) as (H1 & H2 & H3). cbn [app chat_protocol]. rewrite H1, H2.
    split; [done|]. by exists (map act_call_id acts).
  - apply rbind_Ok in Hm as (said & Hs & [= <-]). rewrite <-app_assoc. apply answered_calls; [by eapply all_before|].
    destruct notices as [|n notices]; [by injection Hs as <-|]. apply rbind_Ok in Hs as (text & _ & [= <-]).
    by apply user_said.
Qed.

(** ** The protocol of the messages API

    The calls of an assistant message are answered by the results in the message after it,
    one each, and results occur nowhere else. *)
Definition block_ids (type key : string) (content : json) : list string :=
  match content with
  | JArr l => omap (fun b => if py_eq (jget "type" b) (JStr type) then as_str (jget key b) else None) l
  | _ => []
  end.
Definition tool_uses : json -> list string := block_ids "tool_use" "id".
Definition tool_results : json -> list string := block_ids "tool_result" "tool_use_id".
Fixpoint claude_protocol (pending : list string) (ms : list json) : Prop :=
  match ms with
  | [] => pending = []
  | m :: ms' =>
      if is_role "assistant" m then pending = [] /\ claude_protocol (tool_uses (jget "content" m)) ms'
      else tool_results (jget "content" m) ≡ₚ pending /\ claude_protocol [] ms'
  end.
Definition claude_coherent (actions : list ModelAction) (payload : json) : Prop :=
  tool_uses (jget "content" payload) = map act_call_id actions /\ exists c, get_item "content" payload = Ok c.

Lemma result_blocks results notices :
  tool_results (JArr (map Claude.tool_result results ++ map Claude.notice_block notices)) = map re_call_id results.
Proof.
  induction results as [|r results IH].
  - induction notices as [|n notices IH]; [done|exact IH].
  - cbn [map app]. rewrite <-IH. reflexivity.
Qed.
Lemma claude_entries prev es messages :
  paired prev es -> Forall (coherent claude_coherent) es -> rmap Claude.entry_messages es = Ok messages ->
  claude_protocol (calls_before prev) (concat messages).
Proof.
  revert prev messages. induction es as [|e es IH]; intros prev messages Hp HF.
  { intros [= <-]. by apply end_before. }
  intros (ms & Hm & (messages' & Hms & [= <-])%rbind_Ok)%rbind_Ok. inversion HF as [|? ? He HF']; subst.
  destruct Hp as [Hf Hp]. specialize (IH (Some e) messages' Hp HF' Hms). cbn [concat].
  destruct e as [text|text acts payload|results notices].
  - injection Hm as <-. rewrite (none_before _ _ Hf) by done. by split.
  - apply rbind_Ok in Hm as (content & Hm & [= <-]). rewrite (none_before _ _ Hf) by done. split; [done|].
    assert (content = jget "content" payload) as -> by (destruct payload; try done; simpl in *; unfold jitem in Hm; by case_match; simplify_eq).
    change (jget "content" (Claude.message "assistant" (jget "content" payload))) with (jget "content" payload).
    destruct He as [He _]. rewrite He. exact IH.
  - unfold Claude.entry_messages in Hm. pose proof (all_before _ _ _ Hf) as Hall.
    assert (ms = [] /\ results = [] \/ ms = [Claude.message "user" (JArr (map Claude.tool_result results ++ map Claude.notice_block notices))])
      as [[-> ->]| ->].
    { destruct (map Claude.tool_result results ++ map Claude.notice_block notices) eqn:E; injection Hm as <-; [left|by right].
      split; [done|]. by destruct results. }
    + apply Permutation_nil_l in Hall as <-. exact IH.
    + cbn [app claude_protocol]. change (is_role "assistant" _) with false. split; [|exact IH].
      change (jget "content" (Claude.message "user" ?c)) with c. by rewrite result_blocks.
Qed.

(** The content that is kept of a message has the calls of the turn, unless the message was
    cut off. *)
Lemma kept_blocks bs :
  tool_uses (JArr (omap Claude._block_param bs)) = map act_call_id (omap Claude.block_action bs).
Proof. induction bs as [|[] bs IH]; [done|exact IH|by apply (f_equal (cons id))|exact IH..]. Qed.
Lemma read_message_coherent `{Hashing} spec rq ms m t :
  Claude.read_message spec rq ms m = Ok t -> cm_stop_reason m <> Some "max_tokens" ->
  claude_coherent (mt_actions t) (mt_provider_payload t).
Proof.
  unfold Claude.read_message. case_bool_decide; [done|]. intros [= <-] Hm. cbn [mt_actions mt_provider_payload].
  rewrite bool_decide_eq_false_2 by done. split; [apply kept_blocks|by eexists].
Qed.
Lemma read_message_typed `{Hashing} spec rq ms m t a :
  Claude.read_message spec rq ms m = Ok t -> a ∈ mt_actions t -> exists l, act_arguments a = JObj l.
Proof.
  unfold Claude.read_message. case_bool_decide; [done|]. intros [= <-]. cbn [mt_actions].
  case_bool_decide; [by intros ?%elem_of_nil|]. intros (b & _ & Hb)%list_elem_of_omap. destruct b; try done.
  injection Hb as <-. apply claude_arguments_object.
Qed.

(** ** Rendering goes through *)

Definition readable_notices (e : TranscriptEntry) : Prop :=
  match e with ObservationEntry _ notices => Forall (fun n => exists s, n = JStr s) notices | _ => True end.
Lemma rmap_total {A B} (f : A -> result B) l : Forall (fun a => exists b, f a = Ok b) l -> exists bs, rmap f l = Ok bs.
Proof.
  induction 1 as [|a l [b Hb] _ [bs Hbs]]; [by eexists|]. exists (b :: bs). simpl. by rewrite Hb; simpl; rewrite Hbs.
Qed.
Lemma join_values_total sep l : Forall (fun n => exists s, n = JStr s) l -> exists s, join_values sep l = Ok s.
Proof.
  intros H. destruct (rmap_total (fun j => match j with JStr s => Ok s
    | _ => Err (TypeError "sequence item: expected str instance") end) l) as [bs Hbs].
  - eapply Forall_impl; [exact H|]. intros ? [s ->]. by eexists.
  - unfold join_values. rewrite Hbs. by eexists.
Qed.
Lemma chat_renders e : coherent chat_coherent e -> readable_notices e -> exists ms, Chat.entry_messages e = Ok ms.
Proof.
  destruct e as [text|text acts payload|results notices]; intros Hc Hr; [by eexists|..]; simpl in *.
  - destruct Hc as (_ & l & d & -> & Hd). unfold Chat.assistant_message. rewrite Hd. by eexists.
  - destruct notices as [|n notices]; [by eexists|].
    destruct (join_values_total (newline +++ newline) (n :: notices) Hr) as [s ->]. by eexists.
Qed.
Lemma claude_renders e : coherent claude_coherent e -> exists ms, Claude.entry_messages e = Ok ms.
Proof.
  destruct e as [text|text acts payload|results notices]; intros Hc; [by eexists|..]; simpl in *.
  - destruct Hc as (_ & c & ->). by eexists.
  - destruct (_ ++ _); by eexists.
Qed.

(** ** The theorems *)

(** A turn of the transcript that one of these models took. *)
Definition taken_by {world} (decide : DecisionRequest -> Prog world ModelTurn) (whole : ModelTurn -> Prop)
    (e : TranscriptEntry) : Prop :=
  match e with
  | AssistantEntry _ actions payload =>
      exists rq w t w', decide rq w = (Ok t, w') /\ mt_actions t = actions /\ mt_provider_payload t = payload /\ whole t
  | _ => True
  end.

Section Turns.
Context {HA : Hashing} {HC : HttpClient} {AC : AnthropicClient}.

Lemma chat_decided e rq w t w' : Chat.decide e rq w = (Ok t, w') ->
  exists ms l c, Chat.read_choice e rq ms (JObj l) c = Ok t /\ (exists rest, jget "choices" (JObj l) = JArr (c :: rest))
    /\ exists url headers body v status v', post url headers body v = (Ok (Answered status (Some (JObj l))), v').
Proof.
  unfold Chat.decide. intros H. destruct (negb _); [done|].
  apply prog_bind_run in H as (t0 & w0 & _ & H). apply prog_bind_run in H as (body & w1 & _ & H).
  apply prog_bind_run in H as (answer & w2 & Hpost & H). destruct answer as [status b|n|n]; [|done..].
  apply prog_bind_run in H as (t1 & w3 & _ & H). apply prog_bind_run in H as (ms & w4 & _ & H).
  injection H as H _. unfold Chat.read_answer, Chat.raise_error, Chat.malformed in H.
  destruct (400 <=? status); [by apply rbind_Ok in H as (? & _ & ?)|].
  destruct b as [[| | | | | |l]|]; try done. destruct (truthy _); [by apply rbind_Ok in H as (? & _ & ?)|].
  destruct (jget "choices" _) as [| | | | |[|[] ?]|] eqn:Ec; try done. exists ms, l. eexists. split; [exact H|].
  split; [by eexists|]. by do 6 eexists.
Qed.
Lemma claude_decided spec rq w t w' : Claude.decide spec rq w = (Ok t, w') ->
  exists ms m, Claude.read_message spec rq ms m = Ok t
    /\ exists kwargs v v', messages_create kwargs v = (Ok (ClaudeSaid m), v').
Proof.
  unfold Claude.decide. intros H.
  apply prog_bind_run in H as (t0 & w0 & _ & H). apply prog_bind_run in H as (body & w1 & _ & H).
  apply prog_bind_run in H as (answer & w2 & Hc & H). destruct answer as [m|n]; [|done].
  apply prog_bind_run in H as (t1 & w3 & _ & H). apply prog_bind_run in H as (ms & w4 & _ & H).
  injection H as H _. exists ms, m. split; [exact H|]. by do 3 eexists.
Qed.

(** C29: what a provider answers can be acted on.  Whatever comes back, the arguments of
    every call of a turn are a dictionary, a generation that was cut off has no calls, and
    with an OpenAI-compatible endpoint every call has an id and the message that is kept
    carries exactly the calls of the turn, in order. *)
Theorem provider_turns_are_usable m rq w t w' :
  model_decide m rq w = (Ok t, w') ->
  (forall a, a ∈ mt_actions t -> exists l, act_arguments a = JObj l)
  /\ (mt_stop_reason t = "max_tokens" -> mt_actions t = [])
  /\ (forall e, m = ChatModel e ->
        (forall a, a ∈ mt_actions t -> act_call_id a <> "")
        /\ call_ids_of (jget "message" (mt_provider_payload t)) = map (fun a => JStr (act_call_id a)) (mt_actions t)).
Proof.
  destruct m as [spec key|e]; unfold model_decide, on_right, on_left; intros H.
  - destruct (Claude.decide spec rq w.2) as [r x] eqn:E. injection H as -> _.
    apply claude_decided in E as (ms & msg & E & _). split; [by intros a Ha; eapply read_message_typed|]. split; [|done].
    unfold Claude.read_message in E. case_bool_decide; [done|]. injection E as <-. cbn [mt_stop_reason mt_actions].
    case_bool_decide as Ht; [done|]. destruct (cm_stop_reason msg) as [r|]; [|done]. case_bool_decide; [|done].
    intros ->. done.
  - destruct (Chat.decide e rq w.1) as [r x] eqn:E. injection H as -> _.
    apply chat_decided in E as (ms & data & choice & E & _). apply read_choice_usable in E as [[U1 U2 U3] [C _]]. auto.
Qed.

(** C13: a conversation with an OpenAI-compatible endpoint keeps to the protocol.  A
    transcript whose calls and results are paired and whose turns the adapter took is
    always rendered, and to messages in which every call is answered by one tool message
    before anything else is said, and no other tool message occurs. *)
Theorem chat_requests_keep_the_protocol e rq :
  paired None (rq_transcript rq) -> Forall (taken_by (Chat.decide e) (fun _ => True)) (rq_transcript rq) ->
  Forall readable_notices (rq_transcript rq) ->
  exists ms, Chat.render_messages rq = Ok ms /\ chat_protocol [] ms.
Proof.
  intros Hp Ht Hn. assert (Forall (coherent chat_coherent) (rq_transcript rq)) as HF.
  { eapply Forall_impl; [exact Ht|]. intros [|text acts payload|] H; [done| |done].
    destruct H as (rq' & w & t & w' & Hd & <- & <- & _). apply chat_decided in Hd as (ms & data & choice & E & _).
    by apply read_choice_usable in E as [_ E]. }
  destruct (rmap_total Chat.entry_messages (rq_transcript rq)) as [mss Hm].
  { rewrite Forall_forall in *. intros x Hx. apply chat_renders; auto. }
  exists (Chat.system_message (rq_system_prompt rq) :: concat mss).
  unfold Chat.render_messages. rewrite Hm. split; [done|]. split; [done|]. by eapply (chat_entries None).
Qed.

(** The same of a conversation with Claude, as long as no turn of it was cut off: every
    call is answered by one result in the message right after it, and results occur nowhere
    else. *)
Theorem claude_requests_keep_the_protocol spec rq :
  paired None (rq_transcript rq) ->
  Forall (taken_by (Claude.decide spec) (fun t => mt_stop_reason t <> "max_tokens")) (rq_transcript rq) ->
  exists ms, Claude.render_messages rq = Ok ms /\ claude_protocol [] ms.
Proof.
  intros Hp Ht. assert (Forall (coherent claude_coherent) (rq_transcript rq)) as HF.
  { eapply Forall_impl; [exact Ht|]. intros [|text acts payload|] H; [done| |done].
    destruct H as (rq' & w & t & w' & Hd & <- & <- & Hs). apply claude_decided in Hd as (ms & m & E & _).
    eapply read_message_coherent; [exact E|]. intros Hm. apply Hs. unfold Claude.read_message in E. rewrite Hm in E.
    by injection E as <-. }
  destruct (rmap_total Claude.entry_messages (rq_transcript rq)) as [mss Hm].
  { rewrite Forall_forall in *. intros x Hx. apply claude_renders; auto. }
  exists (concat mss). unfold Claude.render_messages. rewrite Hm. split; [done|]. by eapply (claude_entries None).
Qed.
End Turns.

(** ** Failures *)

Definition CATEGORIES : list string :=
  ["authentication"; "rate_limit"; "model_unavailable"; "timeout"; "bad_request"; "upstream_error"].
Lemma category_known n t c : Chat._category n t c ∈ CATEGORIES.
Proof. unfold Chat._category. repeat case_match; apply (proj1 (bool_decide_eq_true _)); reflexivity. Qed.
Lemma code_or_total status code : (forall s, code <> JFloat (S754_infinity s)) -> exists n, Chat.code_or status code = Ok n.
Proof.
  intros Hi. destruct code as [|b|n|x|s|l|l]; try by eexists.
  - destruct x as [s|s| |s m e]; try by eexists. by destruct (Hi s).
  - unfold Chat.code_or, py_int. destruct (parse_int s); by eexists.
Qed.

(** What a status means when the body says nothing. *)
Definition status_category (status : Z) : string :=
  if bool_decide (status ∈ [401; 402; 403]) then "authentication"
  else if status =? 429 then "rate_limit"
  else if status =? 404 then "model_unavailable"
  else if status =? 408 then "timeout"
  else if bool_decide (status ∈ [400; 413; 422]) then "bad_request"
  else "upstream_error".

Lemma category_of_status status : Chat._category status "" "" = status_category status.
Proof.
  unfold Chat._category, status_category. change (lower ("" +++ " " +++ "")) with " ".
  repeat match goal with |- context [Chat.within ?w " "] => change (Chat.within w " ") with false end.
  by rewrite !orb_false_r.
Qed.

(** A failed request is a classified error.  Whatever the body of an answer with an
    error status is, the model error has one of six categories and a message of at most
    300 characters, and it is retryable unless the credentials, the model or the request
    are at fault; without an error in the body the status alone decides.  (Only a code
    that is an infinite number is left out: converting it raises.) *)
Theorem failed_requests_are_classified `{Hashing} e rq ms status body :
  let data := Chat.object_or_empty (opt_json body) in
  400 <= status -> (forall s, jget "code" (Chat.error_object (jget "error" data)) <> JFloat (S754_infinity s)) ->
  exists category text,
    Chat.read_answer e rq ms status body = Err (ModelError category text (negb (bool_decide (category ∈ Chat.TERMINAL))))
    /\ category ∈ CATEGORIES /\ (String.length text <= 300)%nat
    /\ (truthy (jget "error" data) = false -> category = status_category status).
Proof.
  intros data Hs Hc. unfold Chat.read_answer. rewrite (proj2 (Z.leb_le _ _) Hs). fold data.
  unfold Chat.raise_error, Chat._error. set (error := Chat.error_object (jget "error" data)) in *.
  assert (exists l, error = JObj l) as [l El].
  { unfold error, Chat.error_object. destruct (jget "error" data); try (by eexists); case_match; by eexists. }
  rewrite El in *. destruct (code_or_total status (default (JInt status) (assoc_get "code" l))) as [n Hn].
  { intros s Hd. apply (Hc s). simpl. by destruct (assoc_get "code" l). }
  rewrite Hn. cbn [rbind]. eexists _, _. split; [reflexivity|]. split; [apply category_known|].
  split; [apply take_str_length|]. intros Hf.
  assert (l = []) as ->.
  { unfold error, Chat.error_object in El. destruct (jget "error" data); try (rewrite Hf in El; by injection El as <-).
    injection El as ->. by destruct l. }
  injection Hn as <-. apply category_of_status.
Qed.

(** ** The providers as the world of an agent *)

(** The ids of the calls in an answer are distinct, as both APIs document. *)
Definition distinct_calls (data : json) : Prop :=
  forall c rest raw actions, jget "choices" data = JArr (c :: rest) ->
    or_empty_list (jget "tool_calls" (jget "message" c)) = JArr raw -> Chat.call_actions raw = Ok actions ->
    NoDup (map act_call_id actions).
Definition tool_use_ids (m : ClaudeMessage) : list string := map act_call_id (omap Claude.block_action (cm_content m)).
Class DocumentedIds {HC : HttpClient} {AC : AnthropicClient} := {
  post_ids : forall url headers body w status data w',
    post url headers body w = (Ok (Answered status (Some data)), w') -> distinct_calls data;
  create_ids : forall kwargs w m w', messages_create kwargs w = (Ok (ClaudeSaid m), w') ->
    NoDup (tool_use_ids m) /\ "" ∉ tool_use_ids m;
}.

Section World.
Context {HA : Hashing} {HC : HttpClient} {AC : AnthropicClient} {DI : @DocumentedIds HC AC}.
Context (environment : string -> option string) {cw : Type} (wall_clock : Prog cw instant).

Definition providers : Type := (cw * (option InvestigationModel * (hc_world * ac_world)))%type.
Definition build_provider (spec : ModelSpec) : Prog providers () := fun w =>
  match build_investigation_model environment spec None with
  | Ok m => (Ok (), (w.1, (Some m, w.2.2)))
  | Err e => (Err e, w)
  end.
Definition provider_decide (rq : DecisionRequest) : Prog providers ModelTurn := fun w =>
  match w.2.1 with
  | Some m => on_right (on_right (model_decide m rq)) w
  | None => (Err (RuntimeError "no model"), w)
  end.

Lemma provider_decided rq w t w' : provider_decide rq w = (Ok t, w') ->
  exists m v v', model_decide m rq v = (Ok t, v').
Proof.
  unfold provider_decide, on_right. destruct w.2.1 as [m|]; [|done].
  destruct (model_decide m rq w.2.2) as [r v] eqn:E. intros [= -> _]. by do 3 eexists.
Qed.
Lemma read_choice_ids e rq ms l c t : Chat.read_choice e rq ms (JObj l) c = Ok t ->
  (exists rest, jget "choices" (JObj l) = JArr (c :: rest)) -> distinct_calls (JObj l) ->
  NoDup (map act_call_id (mt_actions t)).
Proof.
  unfold Chat.read_choice, Chat.raise_error, Chat.malformed. intros H [rest Hc] Hd. destruct (truthy _).
  { by apply rbind_Ok in H as (x & _ & ?). }
  destruct (negb _); [done|]. destruct (py_eq _ (JStr "error")); [done|]. destruct (py_eq _ (JStr "content_filter")); [done|].
  destruct (or_empty_list _) as [| | | | |raw|] eqn:Er; try done.
  apply rbind_Ok in H as (acts & Ha & H). do 5 (apply rbind_Ok in H as (? & _ & H)).
  do 5 (apply rbind_Ok in H as (? & _ & H)). injection H as <-. cbn [mt_actions].
  destruct (py_eq _ _); [injection Ha as <-; constructor|by eapply Hd].
Qed.

Lemma claude_ids spec rq ms m t : Claude.read_message spec rq ms m = Ok t ->
  NoDup (tool_use_ids m) /\ "" ∉ tool_use_ids m ->
  NoDup (map act_call_id (mt_actions t)) /\ "" ∉ map act_call_id (mt_actions t).
Proof.
  unfold Claude.read_message. case_bool_decide; [done|]. intros [= <-] Hd. cbn [mt_actions].
  case_bool_decide; [split; [constructor|by intros ?%elem_of_nil]|exact Hd].
Qed.
Lemma provider_ids rq w t w' : provider_decide rq w = (Ok t, w') ->
  NoDup (map act_call_id (mt_actions t)) /\ "" ∉ map act_call_id (mt_actions t).
Proof.
  intros (m & v & v' & H)%provider_decided. unfold model_decide, on_left, on_right in H. destruct m as [spec key|e].
  - destruct (Claude.decide spec rq v.2) as [r x] eqn:E. injection H as -> _.
    apply claude_decided in E as (ms & msg & E & (kwargs & u & u' & Hc)). eapply claude_ids; [exact E|by eapply create_ids].
  - destruct (Chat.decide e rq v.1) as [r x] eqn:E. injection H as -> _.
    apply chat_decided in E as (ms & l & c & E & Hr & (url & h & b & u & st & u' & Hpost)).
    split; [eapply read_choice_ids; [exact E|exact Hr|by eapply post_ids]|].
    apply read_choice_usable in E as [[_ U _] _]. intros (a & Ha & Hin)%list_elem_of_fmap. by apply (U a).
Qed.
Lemma provider_typed rq w t w' : provider_decide rq w = (Ok t, w') ->
  forall a, a ∈ mt_actions t -> exists l, act_arguments a = JObj l.
Proof.
  intros (m & v & v' & H)%provider_decided. unfold model_decide, on_left, on_right in H. destruct m as [spec key|e].
  - destruct (Claude.decide spec rq v.2) as [r x] eqn:E. injection H as -> _.
    apply claude_decided in E as (ms & msg & E & _). intros a Ha. by eapply read_message_typed.
  - destruct (Chat.decide e rq v.1) as [r x] eqn:E. injection H as -> _.
    apply chat_decided in E as (ms & l & c & E & _). apply read_choice_usable in E as [[U _ _] _]. exact U.
Qed.

(** The adapters implement what the engine asks of a model. *)
#[export] Instance provider_world : AgentWorld := {|
  aw := providers;
  read_clock := on_left wall_clock;
  build_model := build_provider;
  AgentEngine.decide := provider_decide;
  decide_typed := provider_typed;
  decide_calls := provider_ids;
|}.
End World.

(** ** Worked conversations

    Clients that answer from a script. *)
#[export] Instance ex_http : HttpClient := {|
  hc_world := list HttpAnswer;
  monotonic := mret fzero;
  post := fun _ _ _ l => match l with a :: l' => (Ok a, l') | [] => (Ok (Unreachable "ConnectError"), []) end;
|}.
#[export] Instance ex_anthropic : AnthropicClient := {|
  ac_world := list ClaudeAnswer;
  ac_monotonic := mret fzero;
  messages_create := fun _ l => match l with a :: l' => (Ok a, l') | [] => (Err (RuntimeError "no answer"), []) end;
|}.
#[local] Instance ex_hashing : Hashing := {| sha256_hex := fun s => s |}.

Definition ex_spec (provider : string) : ModelSpec :=
  {| ms_provider := provider; ms_model := "m"; ms_settings :=
       [("thinking", JStr "none"); ("effort", JNull); ("max_tokens", JInt 1024); ("timeout_seconds", JInt 60);
        ("max_retries", JInt 0); ("base_url", JStr "https://api.example.com/v1/")] |}.
Definition ex_endpoint : Chat.Endpoint :=
  match Chat.make (ex_spec "openai_compatible") "secret" JNull [] with
  | Ok e => e
  | Err _ => {| Chat.ep_spec := ex_spec ""; Chat.ep_capabilities := []; Chat.ep_url := ""; Chat.ep_api_key := "";
                Chat.ep_headers := [] |}
  end.
Definition ex_first : DecisionRequest :=
  {| rq_system_prompt := "be brief"; rq_tools := []; rq_transcript := [ContextEntry "an incident"] |}.
(** Two calls, one without an id and with arguments that are no JSON. *)
Definition ex_body (finish : string) (usage : json) : json :=
  JObj [("choices", JArr [JObj [("finish_reason", JStr finish);
    ("message", JObj [("content", JStr "<think>hm</think> looking");
      ("tool_calls", JArr [
         JObj [("id", JStr "a"); ("function", JObj [("name", JStr "get_logs"); ("arguments", JStr ("{" +++ dq "limit" +++ ": 5}"))])];
         JObj [("function", JObj [("name", JStr "get_logs"); ("arguments", JStr "{oops")])]])])]]);
        ("usage", usage)].
Definition ex_said (finish : string) : ModelTurn :=
  match Chat.read_answer ex_endpoint ex_first 0 200 (Some (ex_body finish (JObj []))) with
  | Ok t => t
  | Err _ => Build_ModelTurn "" [] "" [] JNull "" 0 JNull
  end.
Definition ex_calls (t : ModelTurn) : list (string * json) := map (fun a => (act_call_id a, act_arguments a)) (mt_actions t).

Example ex_mapped :
  (mt_text (ex_said "tool_calls"), ex_calls (ex_said "tool_calls"), ex_calls (ex_said "length"))
  = ("looking", [("a", JObj [("limit", JInt 5)]); ("call_1", JObj [("__unparseable__", JStr "{oops")])], []).
Proof. vm_compute. reflexivity. Qed.

Definition ex_script : list HttpAnswer * list ClaudeAnswer :=
  ([Answered 200 (Some (ex_body "tool_calls" (JObj [])))], []).

Lemma provider_turns_are_usable_witness :
  Forall (fun a => act_call_id a <> "") (mt_actions (ex_said "tool_calls")) /\ length (ex_calls (ex_said "tool_calls")) = 2%nat.
Proof.
  split; [|vm_compute; reflexivity].
  assert (model_decide (ChatModel ex_endpoint) ex_first ex_script = (Ok (ex_said "tool_calls"), ([], []))) as H
    by (vm_compute; reflexivity).
  destruct (@provider_turns_are_usable ex_hashing ex_http ex_anthropic (ChatModel ex_endpoint) ex_first ex_script (ex_said "tool_calls") ([], []) H)
    as (_ & _ & Hc).
  apply Forall_forall. exact (proj1 (Hc ex_endpoint eq_refl)).
Defined.

(** The conversation goes on: the results, then a notice. *)
Definition ex_result (c : string) : ToolResultEntry := {| re_call_id := c; re_content := JStr "ok"; re_is_error := false |}.
Definition ex_second (t : ModelTurn) (results : list ToolResultEntry) : DecisionRequest :=
  {| rq_system_prompt := "be brief"; rq_tools := [];
     rq_transcript := [ContextEntry "an incident"; AssistantEntry (JStr (mt_text t)) (mt_actions t) (mt_provider_payload t);
                       ObservationEntry results [JStr "2 turns left"]] |}.
Definition ex_chat : DecisionRequest := ex_second (ex_said "tool_calls") [ex_result "call_1"; ex_result "a"].

Lemma chat_requests_keep_the_protocol_witness :
  exists ms, Chat.render_messages ex_chat = Ok ms /\ chat_protocol [] ms.
Proof.
  apply (@chat_requests_keep_the_protocol ex_hashing ex_http ex_endpoint ex_chat).
  - split; [done|]. split; [done|]. split; [|done]. vm_compute. constructor.
  - repeat constructor. exists ex_first, [Answered 200 (Some (ex_body "tool_calls" (JObj [])))], (ex_said "tool_calls"), [].
    split; [vm_compute; reflexivity|done].
  - repeat constructor. by eexists.
Defined.

(** Claude: a turn that ended, and one that was cut off within its call. *)
Definition ex_message (stop : string) : ClaudeMessage :=
  {| cm_content := [TextBlock "looking"; ToolUseBlock "a" "get_logs" (JObj [])]; cm_stop_reason := Some stop;
     cm_input_tokens := 10; cm_output_tokens := 5; cm_cache_read := None; cm_cache_creation := None;
     cm_request_id := None; cm_model := "m" |}.
Definition ex_claude (stop : string) : ModelTurn :=
  match Claude.read_message (ex_spec "anthropic") ex_first 0 (ex_message stop) with
  | Ok t => t
  | Err _ => Build_ModelTurn "" [] "" [] JNull "" 0 JNull
  end.

Lemma claude_requests_keep_the_protocol_witness :
  exists ms, Claude.render_messages (ex_second (ex_claude "tool_use") [ex_result "a"]) = Ok ms /\ claude_protocol [] ms.
Proof.
  apply (@claude_requests_keep_the_protocol ex_hashing ex_anthropic (ex_spec "anthropic")).
  - split; [done|]. split; [done|]. split; [|done]. vm_compute. constructor. constructor.
  - repeat constructor. exists ex_first, [ClaudeSaid (ex_message "tool_use")], (ex_claude "tool_use"), [].
    split; [vm_compute; reflexivity|]. split; [done|]. split; [done|]. vm_compute. discriminate.
Defined.

(** A call that was cut off is sent again without a result: the transcript is paired, since
    the turn has no calls, but the blocks that are kept of it have one. *)
Lemma a_cut_off_call_is_left_unanswered :
  let rq := ex_second (ex_claude "max_tokens") [] in
  paired None (rq_transcript rq)
  /\ exists ms, Claude.render_messages rq = Ok ms /\ ~ claude_protocol [] ms.
Proof.
  split; [split; [done|split; [done|split; [constructor|done]]]|]. eexists.
  split; [vm_compute; reflexivity|]. intros [_ [_ [H _]]].
  vm_compute in H. by apply Permutation_nil_l in H.
Qed.

(** An answer with a list where the details of the usage should be is no model error. *)
Lemma malformed_usage_escapes :
  Chat.read_answer ex_endpoint ex_first 0 200 (Some (ex_body "tool_calls" (JObj [("prompt_tokens_details", JArr [JInt 1])])))
  = Err (AttributeError "object has no attribute 'get'").
Proof. vm_compute. reflexivity. Qed.

Lemma failed_requests_are_classified_witness :
  exists category text, Chat.read_answer ex_endpoint ex_first 0 429 None
    = Err (ModelError category text (negb (bool_decide (category ∈ Chat.TERMINAL)))) /\ category = "rate_limit".
Proof.
  destruct (failed_requests_are_classified ex_endpoint ex_first 0 429 None) as (c & t & H & _ & _ & Hc).
  - vm_compute. discriminate.
  - intros s. vm_compute. discriminate.
  - exists c, t. split; [exact H|]. rewrite (Hc eq_refl). vm_compute. reflexivity.
Defined.
