(* ===== verification/Workers.v ===== *)
(** * The workers ([apps/worker/investigation_main.py], [remediation_main.py],
    [verification_main.py])

    What each worker does between two waits, on top of the engines: the investigation
    worker schedules, runs what is announced and resumes; the remediation worker plans,
    executes and sweeps; the verification worker starts and polls.  Building the objects
    from the environment and the endless loops have no counterpart; the consumers that
    deliver the events are those of [EventStreams]. *)
From S2P Require Import Prelude PyFloat Json Enums VerificationDomain Catalog.
From S2P Require Import RemediationDomain Uuid InvestigationDomain InvestigationRules Policy Store TxLogic Prog Redis.
From S2P Require Import RemediationService Executor Runner IncidentRepository AlertIdentity IncidentService.
From S2P Require Import InvestigationService EvidenceScope AgentModel AgentContext.
From S2P Require Import EvidenceService AgentTools AgentToolset AgentEngine ModelConfig.
From S2P Require Import VerificationService VerificationEngine EventStreams Planner.
Local Open Scope Z_scope.

(** [uuid.UUID(str(envelope.payload[k]))] *)
Definition event_subject (k : string) (e : OutboxEventEnvelope) : result uuid :=
  v <-! jitem k (env_payload e);
  parse_uuid (py_str v).

(** ** The investigation worker *)

Section Investigating.
Context {MS : ModelSchemas} {HA : Hashing} {AW : AgentWorld} {TL : Toolset}.
Context (criteria : StoppingCriteria) (catalog : ServiceCatalog) (definitions : list ToolDefinition).
Context (owner : string) (lease_seconds : Z) (retry_attempts : nat).
Context (bracketed_host_ok : string -> bool) (settings : InvestigationSettings).

Abbreviation Worker := (Prog (engine_state (AW := AW) (TL := TL))).
Abbreviation engine_run := (run_engine criteria catalog definitions owner lease_seconds retry_attempts).

(** [InvestigationRuntime.start] *)
Definition start_runtime (incident_id : uuid) : Worker uuid :=
  spec ← pure (resolve_model_spec bracketed_host_ok settings);
  budget ← pure (settings_budget settings);
  started ← command (fun now => request_investigation now incident_id (ms_provider spec) (ms_model spec)
                                  (JObj (ms_settings spec)) budget);
  mret (si_investigation_id started).

Definition is_skipped (e : exn) : bool :=
  match e with InvalidIncidentTransitionError _ | ConcurrentModificationError _ => true | _ => false end.
Fixpoint schedule (incidents : list uuid) (started : list uuid) : Worker (list uuid) :=
  match incidents with
  | [] => mret started
  | incident_id :: rest =>
      r ← attempt (start_runtime incident_id);
      match r with
      | Ok i => schedule rest (started ++ [i])
      | Err e => if is_skipped e then schedule rest started else throw e
      end
  end.
Definition schedule_due : Worker (list uuid) :=
  now ← clock;
  due ← reads_db (fun d => Ok (due_for_investigation now (st_debounce_seconds settings) 10 d));
  schedule due [].

(** [None] when the bound on the turns of a run was too small. *)
Fixpoint resume_all (fuel : nat) (l : list uuid) (ran : Z) : Worker (option Z) :=
  match l with
  | [] => mret (Some ran)
  | i :: rest =>
      o ← engine_run fuel i;
      match o with
      | Finished _ => resume_all fuel rest (ran + 1)
      | NotRun => resume_all fuel rest ran
      | OutOfFuel => mret None
      end
  end.
Definition resume_stale (fuel : nat) : Worker (option Z) :=
  now ← clock;
  stale ← reads_db (fun d => Ok (resumable now 10 d));
  resume_all fuel stale 0.

Definition handle_started (fuel : nat) (e : OutboxEventEnvelope) : Worker () :=
  if negb (bool_decide (env_event_type e = "InvestigationStarted")) then mret ()
  else
    i ← pure (event_subject "investigation_id" e);
    _ ← engine_run fuel i;
    mret ().
End Investigating.

(** ** The remediation worker *)

Section Remediating.
Context {PY : Pydantic} {HA : Hashing} {TO : ServiceTopology} {DI : Digests} {EX : RemediationExecutor}.
Context {er : Type} (get_incident_evidence : uuid -> Prog er (list EvidenceRecord)).
Context (cfg : ServiceConfig) (owner : string) (lease_seconds : Z).
Context (baseline : option (Turn -> ExecutionTicket -> Work bool)).

(** The evidence store the planner reads, the executor's world, the database. *)
Abbreviation Worker := (Prog (er * (ex_world * db))).
Definition on_db {A} (m : Prog db A) : Worker A := on_right (on_right m).

(** [get_trace(investigation_id)]: of the trace, the incident and the report. *)
Definition trace_report (investigation_id : uuid) (d : db) : result (uuid * option json) :=
  state <-! load_state investigation_id d;
  rca <-! one_or_none (List.filter (fun r => bool_decide (rca_investigation_id r = investigation_id))
                         (rows (rca_reports d)));
  Ok (inv_incident_id (is_investigation state), rca_report <$> rca).

(** [RemediationRuntime.plan] *)
Definition plan_runtime (now : instant) (investigation_id : uuid) : Worker (option uuid) :=
  trace ← on_db (fun d => (trace_report investigation_id d, d));
  match trace.2 with
  | None => mret None
  | Some report =>
      incident_id ← pure (parse_uuid (str_uuid trace.1));
      planned ← on_left (plan get_incident_evidence incident_id investigation_id report);
      match planned.1 with
      | None => mret None
      | Some p =>
          view ← on_db (transact (propose cfg now p ("planner:" +++ str_uuid investigation_id) (Some incident_id)));
          mret (Some (rm_id (vw_row view)))
      end
  end.

(** [RemediationRuntime.execute] *)
Definition execute_runtime (turns : nat -> Turn) (remediation_id : uuid) : Worker () :=
  r ← attempt (on_right (run cfg owner lease_seconds baseline turns remediation_id));
  match r with
  | Ok _ | Err (RemediationStateError _) => mret ()
  | Err e => throw e
  end.

Fixpoint execute_all (turns : uuid -> nat -> Turn) (l : list uuid) : Worker () :=
  match l with
  | [] => mret ()
  | i :: rest => execute_runtime (turns i) i ;; execute_all turns rest
  end.
Definition sweep (expire_at list_at : instant) (turns : uuid -> nat -> Turn) : Worker Z :=
  expired ← on_db (expire_approvals cfg expire_at);
  pending ← on_db (fun d => (Ok (pending_executions list_at d), d));
  execute_all turns pending ;;
  mret (Z.of_nat (length expired) + Z.of_nat (length pending)).

Definition handle_remediation (now : instant) (turns : nat -> Turn) (e : OutboxEventEnvelope) : Worker () :=
  if bool_decide (env_event_type e = "InvestigationCompleted") then
    i ← pure (event_subject "investigation_id" e);
    _ ← plan_runtime now i;
    mret ()
  else if bool_decide (env_event_type e = "RemediationApproved") then
    i ← pure (event_subject "remediation_id" e);
    execute_runtime turns i
  else mret ().
End Remediating.

(** ** The verification worker *)

Section Verifying.
Context {ES : EvidenceSource} (max_attempts : Z) (owner : string) (lease_seconds : float).

Fixpoint tick_all (ticks : uuid -> Tick) (l : list uuid) (ticked : Z) : Prog db Z :=
  match l with
  | [] => mret ticked
  | i :: rest =>
      r ← tick max_attempts owner lease_seconds (ticks i) i;
      tick_all ticks rest (match r with Some _ => ticked + 1 | None => ticked end)
  end.
Definition tick_due (now : instant) (ticks : uuid -> Tick) : Prog db Z := fun d =>
  tick_all ticks (Core.due now 50 d) 0 d.

Definition handle_requested (now : instant) (e : OutboxEventEnvelope) : Prog db () :=
  if bool_decide (env_event_type e = "VerificationRequested") then
    i ← pure (event_subject "verification_id" e);
    _ ← start_engine now i;
    mret ()
  else mret ().
End Verifying.
