(* ===== verification/WorkersSafety.v ===== *)
(** * What the workers do to the platform

    Whatever the model, the evidence, the executor, the streams and the clock answer, and
    wherever a worker dies: every change it makes to the database is made by commands of
    the services.  So what holds of every database the platform reaches holds while the
    workers run. *)
From S2P Require Import Prelude PyFloat Json Enums VerificationDomain Catalog.
From S2P Require Import RemediationDomain Uuid InvestigationDomain InvestigationRules Policy Store TxLogic Prog Redis.
From S2P Require Import RemediationLifecycle RemediationService RemediationProofs RemediationSafety Executor Runner.
From S2P Require Import IncidentRepository AlertIdentity IncidentService IncidentProofs IncidentSafety.
From S2P Require Import InvestigationService EvidenceScope AgentModel AgentContext.
From S2P Require Import EvidenceService AgentTools AgentToolset AgentEngine ModelConfig.
From S2P Require Import InvestigationProofs InvestigationInvariant InvestigationKeeps InvestigationSafety AgentClient.
From S2P Require Import VerificationService VerificationProofs VerificationSafety VerificationEngine.
From S2P Require Import VerificationEngineSafety IncidentWalk Platform.
From S2P Require Import EventStreams Planner Workers.
Local Open Scope Z_scope.

Section Workers.
Context {PY : Pydantic} {HA : Hashing} {TO : ServiceTopology} {DI : Digests}.
Context (cfg : ServiceConfig) (max_attempts : Z) (config : IncidentConfig) (criteria : StoppingCriteria).

Abbreviation step := (platform_step cfg max_attempts config criteria).
Abbreviation pf := (platform cfg max_attempts config criteria).

(** From a database of the platform, by steps of the platform. *)
Definition moves (d d' : db) : Prop := pf d -> rtc step d d'.
Lemma platform_on d d' : pf d -> rtc step d d' -> pf d'.
Proof. unfold platform. intros H1 H2. by etrans. Qed.
#[export] Instance moves_preorder : PreOrder moves.
Proof.
  split; [by intros d _|]. intros d1 d2 d3 H1 H2 Hd. specialize (H1 Hd).
  etrans; [exact H1|]. apply H2. by eapply platform_on.
Qed.
Lemma moves_step d d' : step d d' -> moves d d'.
Proof. intros H _. by apply rtc_once. Qed.

Lemma registers_steps d d' : registers d d' -> rtc step d d'.
Proof.
  apply rtc_subrel. intros d0 d1 [now c|]; [by apply ps_alert, ac_evidence|by apply ps_bookkeeping, bk_identifier].
Qed.
Lemma registers_moves d d' : registers d d' -> moves d d'.
Proof. intros H _. by apply registers_steps. Qed.

(** A transaction, and a program that only reads. *)
Lemma transact_moves {A} (m : Tx A) : (forall d, step d (atomically m d).2) -> respects moves (transact m).
Proof. intros H d. by apply moves_step. Qed.
Lemma reads_moves {A} (f : db -> result A) : respects moves (fun d => (f d, d)).
Proof. intros d. simpl. reflexivity. Qed.
Lemma transact_reads_moves {A} (f : db -> A) : respects moves (transact (reads f)).
Proof. intros d. unfold transact, atomically, reads. simpl. reflexivity. Qed.
Lemma get_moves i : respects moves (transact (RemediationService.get i)).
Proof.
  intros d. unfold transact, atomically. destruct (RemediationService.get i d) as [[v d1]|e] eqn:E; [|reflexivity].
  unfold RemediationService.get, _view in E. simpl. assert (d1 = d) as ->; [|reflexivity]. by tx_inv.
Qed.

(** The same next to the other worlds of a worker. *)
Lemma right_moves {S A} (m : Prog db A) : respects moves m -> respects (EvidenceService.beside (S := S) moves) (on_right m).
Proof. intros H s. specialize (H s.2). unfold on_right, EvidenceService.beside. by destruct (m s.2). Qed.
Lemma left_moves {S A} (m : Prog S A) : respects (EvidenceService.beside moves) (on_left m).
Proof. intros s. unfold on_left, EvidenceService.beside. destruct (m s.1). simpl. reflexivity. Qed.

Abbreviation aside := (EvidenceService.beside moves).
Abbreviation deep := (EvidenceService.beside (EvidenceService.beside moves)).

(** The same one world deeper. *)
Lemma right_deep {S T A} (m : Prog (T * db) A) :
  respects aside m -> respects (EvidenceService.beside (S := S) aside) (on_right m).
Proof.
  intros H s. specialize (H s.2). unfold on_right, EvidenceService.beside in *. by destruct (m s.2).
Qed.
Lemma left_deep {S T A} (m : Prog S A) : respects (EvidenceService.beside (T := T * db) aside) (on_left m).
Proof. intros s. unfold on_left, EvidenceService.beside. destruct (m s.1). simpl. reflexivity. Qed.
Lemma middle_deep {S T A} (m : Prog T A) : respects (EvidenceService.beside (S := S) aside) (on_right (on_left m)).
Proof. apply right_deep, left_moves. Qed.
Lemma db_deep {S T A} (m : Prog db A) :
  respects moves m -> respects (EvidenceService.beside (S := S) (EvidenceService.beside (S := T) moves)) (on_right (on_right m)).
Proof. intros H. by apply right_deep, right_moves. Qed.

(** ** The investigation worker *)

Section Investigating.
Context {MS : ModelSchemas} {AW : AgentWorld} {TL : Toolset}.
Context (catalog : ServiceCatalog) (definitions : list ToolDefinition).
Context (owner : string) (lease_seconds : Z) (retry_attempts : nat).
Context (bracketed_host_ok : string -> bool) (settings : InvestigationSettings).

Abbreviation worker := (engine_state (AW := AW) (TL := TL)).
Definition far : relation worker := deep.
#[local] Instance far_preorder : PreOrder far.
Proof. unfold far. tc_solve. Qed.

Lemma far_bind {A B} (m : Prog worker A) (k : A -> Prog worker B) :
  respects far m -> (forall a, respects far (k a)) -> respects far (m ≫= k).
Proof. apply respects_bind. tc_solve. Qed.
Lemma far_ret {A} (a : A) : respects far (mret a).
Proof. apply respects_ret. tc_solve. Qed.
Lemma far_pure {A} (r : result A) : respects far (pure r).
Proof. apply respects_pure. tc_solve. Qed.
Lemma far_throw {A} e : respects far (throw (A := A) e).
Proof. apply respects_throw. tc_solve. Qed.
Lemma far_clock : respects far clock.
Proof. apply left_deep. Qed.
Lemma far_reads {A} (f : db -> result A) : respects far (reads_db f).
Proof. intros s. unfold far, EvidenceService.beside. reflexivity. Qed.
Lemma far_command {A} (m : instant -> Tx A) :
  (forall now d, investigation_command criteria d (atomically (m now) d).2) -> respects far (command m).
Proof.
  intros H. apply far_bind; [apply far_clock|]. intros now. apply db_deep, transact_moves.
  intros d. by apply ps_investigation.
Qed.
Lemma far_run fuel i :
  respects far (run_engine criteria catalog definitions owner lease_seconds retry_attempts fuel i).
Proof.
  apply client_run; try tc_solve.
  - apply far_clock.
  - intros A m. apply far_command.
  - intros toolset tool arguments. apply right_deep. intros s. apply registers_moves.
    apply (ts_registers toolset tool arguments s).
  - intros A m. apply left_deep.
  - intros A m. apply middle_deep.
  - intros now j. apply db_deep. intros d. apply moves_step, ps_investigation, ic_claim.
Qed.
#[local] Hint Resolve far_ret far_pure far_throw far_clock far_reads far_run : core.

Lemma far_start i : respects far (start_runtime bracketed_host_ok settings i).
Proof.
  unfold start_runtime. apply far_bind; [auto|]. intros spec. apply far_bind; [auto|]. intros b.
  apply far_bind; [|auto]. apply far_command. intros. apply ic_request.
Qed.
Lemma far_schedule_due : respects far (schedule_due bracketed_host_ok settings).
Proof.
  unfold schedule_due. apply far_bind; [auto|]. intros now. apply far_bind; [auto|]. intros l.
  generalize (@nil uuid). induction l as [|i l IH]; intros acc; cbn [schedule]; [auto|].
  apply far_bind; [apply respects_attempt, far_start|]. intros [j|e]; [apply IH|].
  destruct (is_skipped e); [apply IH|auto].
Qed.
Lemma far_resume_stale fuel :
  respects far (resume_stale criteria catalog definitions owner lease_seconds retry_attempts fuel).
Proof.
  unfold resume_stale. apply far_bind; [auto|]. intros now. apply far_bind; [auto|]. intros l.
  generalize 0. induction l as [|i l IH]; intros n; cbn [resume_all]; [auto|].
  apply far_bind; [auto|]. intros []; auto.
Qed.
Lemma far_handle_started fuel e :
  respects far (handle_started criteria catalog definitions owner lease_seconds retry_attempts fuel e).
Proof.
  unfold handle_started. destruct (negb _); [auto|]. apply far_bind; [auto|]. intros i.
  apply far_bind; auto.
Qed.
End Investigating.

(** ** The remediation worker *)

Lemma remediation_moves {A} (m : Tx A) :
  (forall d, remediation_command cfg d (atomically m d).2) -> respects moves (transact m).
Proof. intros H. apply transact_moves. intros d. by apply ps_remediation. Qed.

Section Baseline.
Context {ES : EvidenceSource}.
Lemma observe_moves now i s needs by_ : respects moves (observe now i s needs by_).
Proof. intros d. apply registers_moves, observe_frame. Qed.
Lemma collect_moves at_ at' owner tk : respects moves (collect_baseline at_ at' owner tk).
Proof.
  unfold collect_baseline. destruct (get_entry _) as [entry|]; [|apply respects_ret; tc_solve].
  destruct (negb _); [apply respects_ret; tc_solve|].
  apply respects_bind; [tc_solve|apply transact_reads_moves|].
  intros [known|]; [apply respects_ret; tc_solve|].
  apply respects_bind; [tc_solve|apply respects_pure; tc_solve|intros spec].
  apply respects_bind; [tc_solve|apply observe_moves|].
  intros [sample ids]. destruct (errors sample); [|apply respects_ret; tc_solve].
  apply respects_bind; [tc_solve| |intros; apply respects_ret; tc_solve].
  apply remediation_moves. intros d. apply rc_baseline.
Qed.
End Baseline.

Section Remediating.
Context {EX : RemediationExecutor} {er : Type} (get_incident_evidence : uuid -> Prog er (list EvidenceRecord)).
Context (owner : string) (lease_seconds : Z).
Context (baseline : option (Turn -> ExecutionTicket -> Work bool)).
Context (collects : forall c t tk, baseline = Some c -> respects aside (c t tk)).

Lemma core_moves {A} (m : Tx A) :
  (forall d, remediation_command cfg d (atomically m d).2) -> respects aside (core_command m).
Proof. intros H. by apply right_moves, remediation_moves. Qed.
Lemma aside_bind {A B} (m : Work A) (k : A -> Work B) :
  respects aside m -> (forall a, respects aside (k a)) -> respects aside (m ≫= k).
Proof. apply respects_bind. tc_solve. Qed.
Lemma aside_ret {A} (a : A) : respects aside (mret a : Work A).
Proof. apply respects_ret. tc_solve. Qed.
Lemma aside_pure {A} (r : result A) : respects aside (pure r : Work A).
Proof. apply respects_pure. tc_solve. Qed.
#[local] Hint Resolve aside_ret aside_pure : core.

Lemma complete_moves t tk r b : respects aside (_complete cfg owner t tk r b).
Proof.
  unfold _complete. apply aside_bind; [auto|]. intros detail. apply aside_bind; [auto|]. intros error.
  apply core_moves. intros d. apply rc_complete.
Qed.
Lemma without_moves t tk outcome executor error :
  respects aside (complete_without cfg owner t tk outcome executor error).
Proof. apply core_moves. intros d. apply rc_complete. Qed.
#[local] Hint Resolve complete_moves without_moves : core.

Lemma waited_moves t tk : respects aside (run_executor t tk).
Proof.
  unfold run_executor. destruct (tn_late t) as [[]|]; [|auto|].
  - apply aside_bind; [|auto]. apply respects_attempt, left_moves.
  - apply aside_bind; [apply respects_attempt, left_moves|]. intros [r|[]]; auto.
Qed.
Lemma execute_moves t tk : respects aside (_execute cfg owner baseline t tk).
Proof.
  unfold _execute. apply aside_bind; [destruct baseline as [c|] eqn:Eb; [by apply collects|auto]|].
  intros ready. destruct (negb ready); [auto|]. apply aside_bind; [apply waited_moves|].
  intros [[r|e]|name]; auto.
Qed.
Lemma reconcile_moves t tk : respects aside (_reconcile cfg owner t tk).
Proof. unfold _reconcile. apply aside_bind; [apply left_moves|auto]. Qed.
Lemma drive_moves t i : respects aside (drive cfg owner lease_seconds baseline t i).
Proof.
  unfold drive. apply aside_bind; [apply core_moves; intros d; apply rc_claim|]. intros [tk|]; [|auto].
  apply aside_bind.
  - apply respects_attempt. destruct (bool_decide _); [apply reconcile_moves|apply execute_moves].
  - intros [v|e]; [auto|]. destruct (is_lease_lost e); auto.
Qed.
Lemma run_moves turns i : respects aside (run cfg owner lease_seconds baseline turns i).
Proof.
  unfold run. revert turns. induction _MAX_CLAIMS as [|n IH]; intros turns; cbn [run_loop].
  - apply right_moves, get_moves.
  - apply aside_bind; [apply drive_moves|]. intros [v|]; [|apply right_moves, get_moves].
    case_bool_decide; [apply IH|auto].
Qed.

(** Planning reads, and proposes. *)
Abbreviation worker := (er * (ex_world * db))%type.
Lemma deep_bind {A B} (m : Prog worker A) (k : A -> Prog worker B) :
  respects deep m -> (forall a, respects deep (k a)) -> respects deep (m ≫= k).
Proof. apply respects_bind. tc_solve. Qed.
Lemma deep_ret {A} (a : A) : respects deep (mret a : Prog worker A).
Proof. apply respects_ret. tc_solve. Qed.
Lemma deep_pure {A} (r : result A) : respects deep (pure r : Prog worker A).
Proof. apply respects_pure. tc_solve. Qed.
#[local] Hint Resolve deep_ret deep_pure : core.

Lemma plan_moves now i : respects deep (plan_runtime get_incident_evidence cfg now i).
Proof.
  unfold plan_runtime. apply deep_bind; [apply db_deep, reads_moves|]. intros [j [report|]]; cbn [fst snd]; [|auto].
  apply deep_bind; [auto|]. intros incident. apply deep_bind; [apply left_deep|].
  intros [[p|] why]; cbn [fst snd]; [|auto].
  apply deep_bind; [|auto]. apply db_deep, remediation_moves. intros d. apply rc_propose.
Qed.
Lemma execute_runtime_moves turns i :
  respects (EvidenceService.beside (S := er) aside) (execute_runtime cfg owner lease_seconds baseline turns i).
Proof.
  unfold execute_runtime. apply deep_bind; [apply respects_attempt, right_deep, run_moves|].
  intros [v|[]]; auto; apply respects_throw; tc_solve.
Qed.

Lemma each_moves {A} (f : uuid -> Tx A) l :
  (forall i d, remediation_command cfg d (atomically (f i) d).2) -> respects moves (each f l).
Proof.
  intros H. induction l as [|i l IH]; intros d; cbn [each]; [reflexivity|].
  specialize (H i d). destruct (atomically (f i) d) as [[a|e] d1]; [|by apply moves_step, ps_remediation].
  transitivity d1; [by apply moves_step, ps_remediation|]. specialize (IH d1). by destruct (each f l d1) as [[]].
Qed.
Lemma expire_moves now : respects moves (expire_approvals cfg now).
Proof.
  intros d. unfold expire_approvals. pose proof (each_moves (expire_one cfg now) (expirable cfg now d)
    ltac:(intros; apply rc_expire) d) as H. by destruct (each _ _ d).
Qed.
Lemma sweep_moves at1 at2 turns : respects (EvidenceService.beside (S := er) aside)
  (sweep cfg owner lease_seconds baseline at1 at2 turns).
Proof.
  unfold sweep. apply deep_bind; [apply db_deep, expire_moves|]. intros l1.
  apply deep_bind; [apply db_deep, reads_moves|]. intros l2. apply deep_bind; [|auto].
  induction l2 as [|i l2 IH]; cbn [execute_all]; [auto|].
  apply deep_bind; [apply execute_runtime_moves|auto].
Qed.
Lemma handle_remediation_moves now turns e :
  respects deep (handle_remediation get_incident_evidence cfg owner lease_seconds baseline now turns e).
Proof.
  unfold handle_remediation. case_bool_decide.
  - apply deep_bind; [auto|]. intros i. apply deep_bind; [apply plan_moves|auto].
  - case_bool_decide; [|auto]. apply deep_bind; [auto|]. intros i. apply execute_runtime_moves.
Qed.
End Remediating.

(** The collector of the runner. *)
Definition collector {EX : RemediationExecutor} {ES : EvidenceSource} (owner : string)
    (observe_at record_at : Turn -> instant) (t : Turn) (tk : ExecutionTicket) : Work bool :=
  on_right (collect_baseline (observe_at t) (record_at t) owner tk).
Lemma collector_moves {EX : RemediationExecutor} {ES : EvidenceSource} owner f g c t tk :
  Some (collector owner f g) = Some c -> respects aside (c t tk).
Proof. intros [= <-]. apply right_moves, collect_moves. Qed.

(** ** The verification worker *)

Section Verifying.
Context {ES : EvidenceSource} (owner : string) (lease_seconds : float).

Lemma platform_VInv d : pf d -> VInv d.
Proof.
  intros Hp. destruct (platform_run_views _ _ _ _ _ _ AInv_empty GInv_empty Hp) as (_ & _ & Hs & _).
  apply (sinv_ver _ _ (deployed_SInv _ _ _ Hs)).
Qed.
Lemma tick_moves t i : respects moves (tick max_attempts owner lease_seconds t i).
Proof.
  intros d Hd. apply (tick_steps max_attempts owner lease_seconds (rtc step) pf); [..|exact Hd].
  - apply platform_VInv.
  - intros d0 d1 Hc. by apply rtc_once, ps_verification.
  - intros d0 d1. apply registers_steps.
Qed.
Lemma tick_due_moves now ticks : respects moves (tick_due max_attempts owner lease_seconds now ticks).
Proof.
  intros d. unfold tick_due. generalize (Core.due now 50 d). intros l. revert d. generalize 0.
  induction l as [|i l IH]; intros n; cbn [tick_all]; [apply respects_ret; tc_solve|].
  apply (respects_bind moves (tick _ _ _ _ _)); [apply tick_moves|]. intros r d. exact (IH _ d).
Qed.
Lemma handle_requested_moves now e : respects moves (handle_requested now e).
Proof.
  unfold handle_requested. case_bool_decide; [|apply respects_ret; tc_solve].
  apply respects_bind; [tc_solve|apply respects_pure; tc_solve|]. intros i.
  apply respects_bind; [tc_solve| |intros; apply respects_ret; tc_solve].
  apply transact_moves. intros d. apply ps_verification, vc_start.
Qed.
End Verifying.

(** ** The relay and the ledgers *)

Lemma bookkeeping_moves {A} (m : Tx A) :
  (forall d, bookkeeping d (atomically m d).2) -> respects moves (transact m).
Proof. intros H. apply transact_moves. intros d. by apply ps_bookkeeping. Qed.

Section Relaying.
Context {pw cw : Type} (publish : OutboxEventEnvelope -> Prog pw ()) (read_clock : Prog cw instant).
Context (max_publish_attempts : nat).

Abbreviation relay := (relay_state (pw := pw) (cw := cw)).
Lemma relay_bind {A B} (m : Prog relay A) (k : A -> Prog relay B) :
  respects deep m -> (forall a, respects deep (k a)) -> respects deep (m ≫= k).
Proof. apply respects_bind. tc_solve. Qed.
Lemma relay_ret {A} (a : A) : respects deep (mret a : Prog relay A).
Proof. apply respects_ret. tc_solve. Qed.
#[local] Hint Resolve relay_ret : core.

Lemma publish_moves n err e : respects deep (_publish_with_retry (cw := cw) publish n err e).
Proof.
  revert err. induction n as [|n IH]; intros err; cbn [_publish_with_retry]; [auto|].
  apply relay_bind; [apply respects_attempt, middle_deep|]. intros [u|x]; [auto|apply IH].
Qed.
Lemma relay_event_moves row : respects deep (relay_event publish read_clock max_publish_attempts row).
Proof.
  unfold relay_event. apply relay_bind; [apply publish_moves|]. intros [[] err]; cbn [fst snd].
  - apply relay_bind; [apply left_deep|]. intros now. apply relay_bind; [|auto].
    apply db_deep, bookkeeping_moves. intros d. apply bk_published.
  - apply relay_bind; [|auto]. apply db_deep, bookkeeping_moves. intros d. apply bk_failed.
Qed.
Lemma relay_once_moves batch : respects deep (relay_once publish read_clock max_publish_attempts batch).
Proof.
  unfold relay_once. apply relay_bind.
  { intros s. unfold EvidenceService.beside. simpl. reflexivity. }
  intros rows. generalize 0. induction rows as [|row rows IH]; intros n; cbn [relay_events]; [auto|].
  apply relay_bind; [apply relay_event_moves|]. intros b. apply IH.
Qed.
End Relaying.

Lemma mark_moves name event : respects moves (make_mark_processed name event).
Proof.
  unfold make_mark_processed. apply respects_bind; [tc_solve| |intros; apply respects_ret; tc_solve].
  apply bookkeeping_moves. intros d. apply bk_consumed.
Qed.

(** ** The running system *)

(** What happens to the database: a command through the API, a round of one of the workers
    or of the relay, an event delivered to its handler, or a mark in a ledger; with
    whatever worlds, settings and limits each of them has. *)
Inductive activity (d : db) : db -> Prop :=
| wa_command d' : step d d' -> activity d d'
| wa_schedule (AW : AgentWorld) (TL : Toolset) host settings (s : engine_state) :
    s.2.2 = d -> activity d (schedule_due host settings s).2.2.2
| wa_started (MS : ModelSchemas) (AW : AgentWorld) (TL : Toolset) catalog definitions owner lease attempts
    fuel e (s : engine_state) :
    s.2.2 = d -> activity d (handle_started criteria catalog definitions owner lease attempts fuel e s).2.2.2
| wa_resume (MS : ModelSchemas) (AW : AgentWorld) (TL : Toolset) catalog definitions owner lease attempts
    fuel (s : engine_state) :
    s.2.2 = d -> activity d (resume_stale criteria catalog definitions owner lease attempts fuel s).2.2.2
| wa_remediation (EX : RemediationExecutor) (ES : EvidenceSource) er get owner lease f g now turns e
    (s : er * (ex_world * db)) :
    s.2.2 = d -> activity d (handle_remediation get cfg owner lease (Some (collector owner f g)) now turns e s).2.2.2
| wa_sweep (EX : RemediationExecutor) (ES : EvidenceSource) er owner lease f g at1 at2 turns
    (s : er * (ex_world * db)) :
    s.2.2 = d -> activity d (sweep cfg owner lease (Some (collector owner f g)) at1 at2 turns s).2.2.2
| wa_requested now e : activity d (handle_requested now e d).2
| wa_tick (ES : EvidenceSource) owner lease now ticks :
    activity d (tick_due max_attempts owner lease now ticks d).2
| wa_relay pw cw (publish : OutboxEventEnvelope -> Prog pw ()) (read_clock : Prog cw instant) attempts batch s :
    s.2.2 = d -> activity d (relay_once publish read_clock attempts batch s).2.2.2
| wa_mark name event : activity d (make_mark_processed name event d).2.

Lemma activity_moves d d' : activity d d' -> moves d d'.
Proof.
  destruct 1 as [d' Hs|AW TL host settings s <-|MS AW TL cat defs o l n fuel e s <-|MS AW TL cat defs o l n fuel s <-
                |EX ES er get o l f g now turns e s <-|EX ES er o l f g at1 at2 turns s <-|now e|ES o l now ticks
                |pw cw publish clk n b s <-|name event].
  - by apply moves_step.
  - apply far_schedule_due.
  - apply far_handle_started.
  - apply far_resume_stale.
  - apply (handle_remediation_moves get o l (Some (collector o f g))). intros c t tk. apply collector_moves.
  - apply (sweep_moves o l (Some (collector o f g))). intros c t tk. apply collector_moves.
  - apply handle_requested_moves.
  - apply tick_due_moves.
  - apply relay_once_moves.
  - apply mark_moves.
Qed.

(** C4: the workers are clients of the services.  However the model, the evidence sources,
    the executor, the streams and the clock answer, and wherever a worker dies, the work of
    all of them together, between and beside the commands of the API, is a sequence of
    commands of the four services and of bookkeeping: what holds along the steps of the
    platform holds of the running system. *)
Theorem workers_drive_the_platform d d' :
  pf d -> rtc activity d d' -> rtc step d d' /\ pf d'.
Proof.
  intros Hp Hr. assert (rtc step d d') as Hs; [|split; [exact Hs|by eapply platform_on]].
  revert Hp. induction Hr as [d|d d1 d' Ha _ IH]; intros Hp; [done|].
  pose proof (activity_moves _ _ Ha Hp) as H1. etrans; [exact H1|]. apply IH. by eapply platform_on.
Qed.
End Workers.
