(* ===== verification/Api.v ===== *)
(** * The HTTP surface ([apps/api], [apps/evidence/main.py])

    What people and Alertmanager can make the platform do.  [Alerts] is
    [routers/alerts.py], both routes of alert-ingestion; [Operators] is
    [routers/remediations.py], the decisions of people; [EvidenceApi] the internal surface
    of evidence-service.  A request was parsed and its body satisfies the field constraints
    of its schema, as FastAPI checks before a handler runs; a handler is a program over the
    database, and an [HTTPException] it raises is a refusal with that status.  Any other
    exception is a server error. *)
From Stdlib Require Import Ascii.
From S2P Require Import Prelude PyFloat Json Enums VerificationDomain Catalog.
From S2P Require Import RemediationDomain Uuid InvestigationDomain InvestigationRules Policy Store TxLogic Prog Redis.
From S2P Require Import RemediationLifecycle RemediationService RemediationProofs RemediationSafety Executor Runner.
From S2P Require Import IncidentRepository AlertIdentity IncidentService IncidentProofs IncidentSafety IncidentProgress.
From S2P Require Import InvestigationService EvidenceScope AgentModel AgentContext.
From S2P Require Import EvidenceService AgentTools AgentToolset AgentEngine ModelConfig.
From S2P Require Import InvestigationProofs InvestigationInvariant InvestigationKeeps InvestigationSafety AgentClient.
From S2P Require Import VerificationService VerificationProofs VerificationSafety VerificationEngine.
From S2P Require Import VerificationEngineSafety IncidentWalk Platform.
From S2P Require Import EventStreams Planner Workers WorkersSafety.
Local Open Scope Z_scope.

(** ** Settings ([apps/api/config.py]) *)

Record Settings := {
  st_alertmanager_webhook_token : string;
  st_operator_api_token : string;
  st_remediation_approvers : string;
}.

(** [s.split(c)] *)
Fixpoint split (c : Ascii.ascii) (s : string) : list string :=
  match s with
  | "" => [""]
  | String a s' =>
      if base.decide (a = c) then "" :: split c s'
      else match split c s' with
           | piece :: rest => String a piece :: rest
           | [] => [String a ""]
           end
  end.

Definition roster_entry (item : string) : string * list string :=
  let '(name, roles) := partition "="%char item in
  (strip name, List.filter nonempty (map strip (split "|"%char (default "" roles)))).

(** A later entry of a name replaces an earlier one. *)
Definition approver_roles (st : Settings) : gmap string (list string) :=
  foldl (fun roster item => let '(name, roles) := roster_entry item in <[name := roles]> roster) ∅
    (List.filter nonempty (map strip (split ","%char (st_remediation_approvers st)))).

Example roster_example :
  approver_roles {| st_alertmanager_webhook_token := ""; st_operator_api_token := "";
                    st_remediation_approvers := "alice=service_owner| on_call_engineer, bob =on_call_engineer,,eve" |}
  = {["alice" := ["service_owner"; "on_call_engineer"]; "bob" := ["on_call_engineer"]; "eve" := []]}.
Proof. vm_compute. reflexivity. Qed.

(** The value of an [Authorization] header that presents [token]. *)
Definition bearer (token : string) : string := "Bearer " +++ token.

(** A [datetime]: the time on the clock, and how far that clock is ahead of UTC when the
    text says so. *)
Record IsoDate := { iso_wall : instant; iso_offset : option Z }.

(** [datetime.fromisoformat], [None] for its [ValueError]; and the offset of the server's
    time zone at a time on its clock, which has an error where the C library has none. *)
Class IsoDates := {
  fromisoformat : string -> option IsoDate;
  system_offset : instant -> result Z;
}.

(** ** alert-ingestion ([apps/api/routers/alerts.py]) *)

Module Alerts.

Record IncomingAlertRequest := {
  rq_source : AlertSource;
  rq_external_id : option string;
  rq_labels : labels_t;
  rq_annotations : labels_t;
  rq_severity : AlertSeverity;
  rq_status : AlertStatus;
  rq_idempotency_key : option string;
}.

(** [request.model_dump(mode="json")] *)
Definition request_json (r : IncomingAlertRequest) : json :=
  JObj [("source", JStr (AlertSource_value (rq_source r)));
        ("external_id", jopt_str (rq_external_id r));
        ("labels", labels_json (rq_labels r)); ("annotations", labels_json (rq_annotations r));
        ("severity", JStr (AlertSeverity_value (rq_severity r)));
        ("status", JStr (AlertStatus_value (rq_status r)));
        ("idempotency_key", jopt_str (rq_idempotency_key r))].

Record AlertAcceptedResponse := {
  aa_alert_id : uuid;
  aa_incident_id : option uuid;
  aa_incident_created : bool;
  aa_incident_status : option string;
}.

Definition response_of (r : AlertReceivedResult) : AlertAcceptedResponse :=
  {| aa_alert_id := ar_alert_id r; aa_incident_id := ar_incident_id r;
     aa_incident_created := ar_incident_created r; aa_incident_status := ar_incident_status r |}.

(** [AlertStatus(status)] and the validation of [severity], by value. *)
Definition AlertStatus_of (s : string) : option AlertStatus :=
  List.find (fun x => bool_decide (AlertStatus_value x = s)) [FIRING; ALERT_RESOLVED].
Definition AlertSeverity_of (s : string) : option AlertSeverity :=
  List.find (fun x => bool_decide (AlertSeverity_value x = s)) [CRITICAL; WARNING; INFO].

Lemma AlertStatus_of_value x : AlertStatus_of (AlertStatus_value x) = Some x.
Proof. by destruct x. Qed.
Lemma AlertSeverity_of_value x : AlertSeverity_of (AlertSeverity_value x) = Some x.
Proof. by destruct x. Qed.

(** What [_accept_alert] is called with. *)
Record Notification := {
  n_source : AlertSource;
  n_external_id : option string;
  n_labels : labels_t;
  n_annotations : labels_t;
  n_severity : string;
  n_status : string;
  n_raw_payload : json;
  n_idempotency_key : option string;
}.

(** [AlertReceivedCommand( ... )] with a severity still to be validated. *)
Definition command_of (n : Notification) (key : string) (status : AlertStatus)
    : result AlertReceivedCommand :=
  match AlertSeverity_of (n_severity n) with
  | Some severity =>
      alert_received_command
        {| cmd_idempotency_key := key; cmd_source := n_source n; cmd_external_id := n_external_id n;
           cmd_labels := n_labels n; cmd_annotations := n_annotations n; cmd_severity := severity;
           cmd_status := status; cmd_raw_payload := n_raw_payload n |}
  | None => Err (ValidationError "Input should be 'critical', 'warning' or 'info'")
  end.

Section Routes.
Context {HA : Hashing} (config : IncidentConfig).

(** [idempotency_key or derive_alert_idempotency_key( ... )] at [time.time()]. *)
Definition key_of (now : instant) (n : Notification) (status : AlertStatus) : result string :=
  match n_idempotency_key n ≫= or_none with
  | Some key => Ok key
  | None => derive_alert_idempotency_key (n_source n) (n_external_id n) (n_raw_payload n) status
              DEFAULT_DEBOUNCE_SECONDS now
  end.

(** [now] is the clock of the key and of the command. *)
Definition _accept_alert (now : instant * instant) (n : Notification) : Prog db AlertAcceptedResponse :=
  match AlertStatus_of (n_status n) with
  | None => throw (HTTPException 422 ("unrecognized alert status " +++ repr_str (n_status n)))
  | Some status =>
      key ← pure (key_of now.1 n status);
      match command_of n key status with
      | Err (ValidationError errors) => throw (HTTPException 422 errors)
      | Err e => throw e
      | Ok command =>
          outcome ← attempt (transact (handle_alert_received config now.2 command));
          match outcome with
          | Ok result => mret (response_of result)
          | Err (ConcurrentModificationError msg) => throw (HTTPException 409 msg)
          | Err e => throw e
          end
      end
  end.

Definition notification_of_request (r : IncomingAlertRequest) : Notification :=
  {| n_source := rq_source r; n_external_id := rq_external_id r; n_labels := rq_labels r;
     n_annotations := rq_annotations r; n_severity := AlertSeverity_value (rq_severity r);
     n_status := AlertStatus_value (rq_status r); n_raw_payload := request_json r;
     n_idempotency_key := rq_idempotency_key r |}.

Definition receive_alert (now : instant * instant) (r : IncomingAlertRequest)
    : Prog db AlertAcceptedResponse := _accept_alert now (notification_of_request r).

(** *** The Alertmanager webhook *)

Record AlertmanagerAlert := {
  am_status : string;
  am_labels : labels_t;
  am_annotations : labels_t;
  am_startsAt : option string;
  am_endsAt : option string;
  am_generatorURL : option string;
  am_fingerprint : option string;
}.

(** [alert.model_dump(mode="json")] *)
Definition alertmanager_json (a : AlertmanagerAlert) : json :=
  JObj [("status", JStr (am_status a)); ("labels", labels_json (am_labels a));
        ("annotations", labels_json (am_annotations a)); ("startsAt", jopt_str (am_startsAt a));
        ("endsAt", jopt_str (am_endsAt a)); ("generatorURL", jopt_str (am_generatorURL a));
        ("fingerprint", jopt_str (am_fingerprint a))].

(** [s.replace("Z", "+00:00")] *)
Fixpoint replace_Z (s : string) : string :=
  match s with
  | "" => ""
  | String c s' => if base.decide (c = "Z"%char) then "+00:00" +++ replace_Z s' else String c (replace_Z s')
  end.

Context {ID : IsoDates}.

(** [d.astimezone(UTC)]: there is no [datetime] before the year 1 or after the year 9999. *)
Definition astimezone_UTC (d : IsoDate) : result instant :=
  offset <-! match iso_offset d with Some o => Ok o | None => system_offset (iso_wall d) end;
  let utc := iso_wall d - offset in
  if (-62135596800000000 <=? utc) && (utc <? 253402300800000000) then Ok utc
  else Err (OverflowError "date value out of range").

Definition _alertmanager_episode_id (a : AlertmanagerAlert) : result (option string) :=
  match am_fingerprint a ≫= or_none with
  | None => Ok None
  | Some fingerprint =>
      match am_startsAt a ≫= or_none with
      | None => Ok (Some fingerprint)
      | Some startsAt =>
          match fromisoformat (replace_Z startsAt) with
          | None => Ok (Some (fingerprint +++ ":" +++ startsAt))
          | Some started =>
              utc <-! astimezone_UTC started;
              Ok (Some (fingerprint +++ ":" +++ isoformat utc))
          end
      end
  end.

Definition _check_webhook_auth (st : Settings) (authorization : option string) : Prog db () :=
  let expected := st_alertmanager_webhook_token st in
  if negb (nonempty expected) then mret ()
  else if negb (bool_decide (authorization = Some (bearer expected)))
  then throw (HTTPException 401 "invalid or missing webhook credentials")
  else mret ().

Definition notification_of_alert (a : AlertmanagerAlert) : result Notification :=
  external_id <-! _alertmanager_episode_id a;
  Ok {| n_source := PROMETHEUS; n_external_id := external_id;
        n_labels := am_labels a; n_annotations := am_annotations a;
        n_severity := default "" (am_labels a !! "severity"); n_status := am_status a;
        n_raw_payload := alertmanager_json a; n_idempotency_key := None |}.

(** [for alert in payload.alerts: accepted.append( ... )], with the clocks each reads. *)
Fixpoint accept_all (l : list ((instant * instant) * AlertmanagerAlert))
    : Prog db (list AlertAcceptedResponse) :=
  match l with
  | [] => mret []
  | (now, a) :: l' =>
      n ← pure (notification_of_alert a);
      r ← _accept_alert now n;
      rs ← accept_all l';
      mret (r :: rs)
  end.

Definition receive_alertmanager_webhook (st : Settings) (authorization : option string)
    (alerts : list ((instant * instant) * AlertmanagerAlert)) : Prog db (list AlertAcceptedResponse) :=
  _check_webhook_auth st authorization ;;
  accept_all alerts.

(** [routers/incidents.py] *)
Definition get_incident (incident_id : uuid) : Prog db (IncidentRow * list AlertRow) := fun d =>
  match get_incident_view incident_id d with
  | None => (Err (HTTPException 404 "incident not found"), d)
  | Some view => (Ok view, d)
  end.
End Routes.
End Alerts.

(** ** Operators ([apps/api/routers/remediations.py]) *)

Module Operators.

Record ApprovalRequest := {
  br_approver : string;
  br_approve : bool;  (** [decision == "approve"] *)
  br_proposal_hash : string;
  br_policy_decision_id : uuid;
  br_comment : option string;
}.

Record OperatorProposalRequest := {
  op_action_id : string;
  op_parameters : params_t;
  op_reason : string;
  op_expected_effect : string;
  op_proposed_by : string;
  op_idempotency_key : string;
  op_investigation_id : option uuid;
}.

Record CancelRequest := { cr_actor : string; cr_reason : string }.
Record KillSwitchRequest := { kr_engaged : bool; kr_actor : string; kr_reason : option string }.

(** What [get_remediation] answers. *)
Record RemediationDetail := {
  rd_remediation : RemediationView;
  rd_policy_decisions : list RemediationPolicyDecisionRow;
  rd_executions : list RemediationExecutionRow;
  rd_timeline : list RemediationTimelineRow;
}.

Section Routes.
Context {PY : Pydantic} {HA : Hashing} {TO : ServiceTopology} {DI : Digests}.
Context (cfg : ServiceConfig) (st : Settings).

Definition require_operator (authorization : option string) : Prog db () :=
  let token := st_operator_api_token st in
  if negb (nonempty token) then throw (HTTPException 403 "operator endpoints are disabled")
  else if negb (bool_decide (authorization = Some (bearer token)))
  then throw (HTTPException 401 "invalid or missing operator credentials")
  else mret ().

Definition _errors (e : exn) : exn :=
  match e with
  | RemediationNotFoundError _ | IncidentNotFoundError _ => HTTPException 404 (exn_text e)
  | ApproverNotAuthorizedError _ => HTTPException 403 (exn_text e)
  | ApprovalMismatchError _ | RemediationStateError _ => HTTPException 409 (exn_text e)
  | _ => e
  end.

(** [try: return service. ... except Exception as exc: raise _errors(exc) from exc] *)
Definition guarded {A} (m : Tx A) : Prog db A :=
  outcome ← attempt (transact m);
  match outcome with Ok a => mret a | Err e => throw (_errors e) end.

(** [[self._view(session, r) for r in rows]] *)
Fixpoint views (l : list RemediationRow) : Tx (list RemediationView) :=
  match l with
  | [] => mret []
  | r :: l' => v ← _view r; vs ← views l'; mret (v :: vs)
  end.

Definition list_remediations (incident_id : uuid) : Prog db (list RemediationView) :=
  transact (rows ← reads (list_for_incident incident_id); views rows).

Definition detail_of (view : RemediationView) (remediation_id : uuid) (d : db) : RemediationDetail :=
  {| rd_remediation := view; rd_policy_decisions := policy_decisions_of remediation_id d;
     rd_executions := executions_of remediation_id d; rd_timeline := timeline_of remediation_id d |}.

Definition get_remediation (remediation_id : uuid) : Prog db RemediationDetail :=
  outcome ← attempt (transact (RemediationService.get remediation_id));
  match outcome with
  | Err (RemediationNotFoundError msg) => throw (_errors (RemediationNotFoundError msg))
  | Err e => throw e
  | Ok view => transact (reads (detail_of view remediation_id))
  end.

Definition decide (now : instant) (authorization : option string) (remediation_id : uuid)
    (body : ApprovalRequest) : Prog db RemediationView :=
  require_operator authorization ;;
  match approver_roles st !! br_approver body with
  | None => throw (HTTPException 403 (br_approver body +++ " is not an approver"))
  | Some roles =>
      guarded (decide_approval now remediation_id (br_approver body) roles (br_approve body)
                 (br_proposal_hash body) (br_policy_decision_id body) (br_comment body))
  end.

Definition operator_proposal (incident_id : uuid) (body : OperatorProposalRequest) : RemediationProposal :=
  {| pr_incident_id := incident_id; pr_investigation_id := op_investigation_id body;
     pr_action_id := op_action_id body; pr_parameters := op_parameters body;
     pr_reason := op_reason body; pr_expected_effect := op_expected_effect body;
     pr_source := "operator"; pr_proposed_by := op_proposed_by body |}.

Definition propose (now : instant) (authorization : option string) (incident_id : uuid)
    (body : OperatorProposalRequest) : Prog db RemediationView :=
  require_operator authorization ;;
  match RemediationProposal_new (operator_proposal incident_id body) with
  | Err (ValidationError errors) => throw (HTTPException 422 errors)
  | Err e => throw e
  | Ok proposal =>
      guarded (RemediationService.propose cfg now proposal ("operator:" +++ op_idempotency_key body) None)
  end.

Definition cancel (now : instant) (authorization : option string) (remediation_id : uuid)
    (body : CancelRequest) : Prog db RemediationView :=
  require_operator authorization ;;
  guarded (RemediationService.cancel now remediation_id ("human:" +++ cr_actor body) (cr_reason body)).

Definition kill_switches : Prog db (list (string * bool)) := fun d => (Ok (kill_switch_map d), d).

Definition set_kill_switch (now : instant) (authorization : option string) (scope : string)
    (body : KillSwitchRequest) : Prog db (list (string * bool)) :=
  require_operator authorization ;;
  outcome ← attempt (transact (RemediationService.set_kill_switch now scope (kr_engaged body)
                                 ("human:" +++ kr_actor body) (kr_reason body)));
  match outcome with
  | Ok _ => kill_switches
  | Err (ValueError msg) => throw (HTTPException 422 msg)
  | Err e => throw e
  end.
End Routes.
End Operators.

(** ** evidence-service ([apps/evidence/main.py]) *)

Module EvidenceApi.

(** The defaults of [ToolBudget]. *)
Definition default_tool_budget : ToolBudget :=
  {| tb_max_calls := 20; tb_max_identical_calls := 3; tb_max_attempts_per_call := 2 |}.

(** An entry of the replay; its provenance is that of the record. *)
Record ReplayEntry := { re_sequence : Z; re_evidence : EvidenceItem; re_provenance : EvidenceRecord }.

Record ToolCall := { ca_arguments : list (string * json); ca_investigation_id : option uuid }.

Section Routes.
Context {HA : Hashing} {AD : Adapters} {TS : ToolSchemas} (catalog : ServiceCatalog).

(** One executor per request. *)
Definition call_tool (incident_id : uuid) (tool_name : string) (call : ToolCall)
    : Prog (EvidenceWorld * db) ToolResult := fun s =>
  let context := {| tc_incident_id := incident_id; tc_investigation_id := ca_investigation_id call |} in
  let '(r, (t, d)) :=
    execute_tool catalog context default_tool_budget tool_name (JObj (ca_arguments call))
      ({| tl_calls := 0; tl_seen := ∅; tl_evidence := s.1 |}, s.2) in
  (r, (tl_evidence t, d)).

(** [except EvidenceNotFoundError as exc: raise HTTPException(404)] *)
Definition or_404 {A} (m : Prog (EvidenceWorld * db) A) : Prog (EvidenceWorld * db) A :=
  outcome ← attempt m;
  match outcome with
  | Ok a => mret a
  | Err (EvidenceError code msg retryable) =>
      if bool_decide (code = "evidence_not_found") then throw (HTTPException 404 "evidence not found")
      else throw (EvidenceError code msg retryable)
  | Err e => throw e
  end.

Definition incident_evidence (incident_id : uuid) : Prog (EvidenceWorld * db) (list ReplayEntry) :=
  records ← get_incident_evidence incident_id;
  mret (map (fun r => {| re_sequence := ev_sequence r; re_evidence := to_item r; re_provenance := r |})
            records).

Definition get_evidence (evidence_id : uuid) : Prog (EvidenceWorld * db) EvidenceRecord :=
  or_404 (EvidenceService.get_evidence evidence_id).

Definition verify_evidence (evidence_id : uuid) : Prog (EvidenceWorld * db) IntegrityReport :=
  or_404 (verify evidence_id).
End Routes.
End EvidenceApi.

(** ** Requests *)

(** A request to one of the two services, with its credentials; [clock] is read per alert. *)
Inductive Request :=
| PostAlert (now : instant * instant) (body : Alerts.IncomingAlertRequest)
| PostAlertmanager (authorization : option string) (alerts : list ((instant * instant) * Alerts.AlertmanagerAlert))
| GetIncident (incident_id : uuid)
| GetRemediations (incident_id : uuid)
| GetRemediation (remediation_id : uuid)
| PostApproval (now : instant) (authorization : option string) (remediation_id : uuid) (body : Operators.ApprovalRequest)
| PostProposal (now : instant) (authorization : option string) (incident_id : uuid) (body : Operators.OperatorProposalRequest)
| PostCancel (now : instant) (authorization : option string) (remediation_id : uuid) (body : Operators.CancelRequest)
| PutKillSwitch (now : instant) (authorization : option string) (scope : string) (body : Operators.KillSwitchRequest)
| GetKillSwitches
| PostTool (incident_id : uuid) (tool_name : string) (call : EvidenceApi.ToolCall)
| GetIncidentEvidence (incident_id : uuid)
| GetEvidence (evidence_id : uuid)
| GetVerification (evidence_id : uuid).

(** The credentials of an operator the request presents. *)
Definition operator_credentials (r : Request) : option (option string) :=
  match r with
  | PostApproval _ a _ _ | PostProposal _ a _ _ | PostCancel _ a _ _ | PutKillSwitch _ a _ _ => Some a
  | _ => None
  end.

Section Api.
Context {PY : Pydantic} {HA : Hashing} {TO : ServiceTopology} {DI : Digests} {ID : IsoDates}.
Context {AD : Adapters} {TS : ToolSchemas} (catalog : ServiceCatalog).
Context (cfg : ServiceConfig) (max_attempts : Z) (config : IncidentConfig) (criteria : StoppingCriteria).
Context (st : Settings).

Abbreviation step := (platform_step cfg max_attempts config criteria).
Abbreviation pf := (platform cfg max_attempts config criteria).
Abbreviation World := (EvidenceWorld * db)%type.

(** What the request does, its answer aside. *)
Definition served {S A} (m : Prog S A) : Prog S () := _ ← m; mret ().

Definition serve (r : Request) : Prog World () :=
  match r with
  | PostAlert now body => on_right (served (Alerts.receive_alert config now body))
  | PostAlertmanager a l => on_right (served (Alerts.receive_alertmanager_webhook config st a l))
  | GetIncident i => on_right (served (Alerts.get_incident i))
  | GetRemediations i => on_right (served (Operators.list_remediations i))
  | GetRemediation i => on_right (served (Operators.get_remediation i))
  | PostApproval now a i body => on_right (served (Operators.decide st now a i body))
  | PostProposal now a i body => on_right (served (Operators.propose cfg st now a i body))
  | PostCancel now a i body => on_right (served (Operators.cancel st now a i body))
  | PutKillSwitch now a scope body => on_right (served (Operators.set_kill_switch st now a scope body))
  | GetKillSwitches => on_right (served Operators.kill_switches)
  | PostTool i tool call => served (EvidenceApi.call_tool catalog i tool call)
  | GetIncidentEvidence i => served (EvidenceApi.incident_evidence i)
  | GetEvidence i => served (EvidenceApi.get_evidence i)
  | GetVerification i => served (EvidenceApi.verify_evidence i)
  end.

Lemma alert_received_command_id c c' : alert_received_command c = Ok c' -> c' = c.
Proof. unfold alert_received_command. repeat case_match; naive_solver. Qed.

Lemma command_of_valid n key status c :
  Alerts.command_of n key status = Ok c -> valid c /\ cmd_idempotency_key c = key.
Proof.
  unfold Alerts.command_of, valid. case_match; [|done]. intros H'.
  pose proof (alert_received_command_id _ _ H') as ->. done.
Qed.

(** *** Every request is made of commands *)

(** What an operator can do; [decides] says whether that includes a decision. *)
Inductive operator_command (decides : Prop) (d : db) : db -> Prop :=
| oc_decide now i approver roles approve hash pid comment :
    decides ->
    operator_command decides d
      (atomically (decide_approval now i approver roles approve hash pid comment) d).2
| oc_propose now p key :
    operator_command decides d (atomically (RemediationService.propose cfg now p key None) d).2
| oc_cancel now i actor reason :
    operator_command decides d (atomically (RemediationService.cancel now i actor reason) d).2
| oc_switch now scope engaged actor reason :
    operator_command decides d
      (atomically (RemediationService.set_kill_switch now scope engaged actor reason) d).2.

Definition is_decision (r : Request) : Prop :=
  match r with PostApproval _ _ _ _ => True | _ => False end.

(** What the commands behind the requests respect, serving a request respects. *)
Section Serve.
Context (R : relation db) `{!PreOrder R} (decides : Prop).
Context (R_alert : forall d d', alert_command config d d' -> R d d').
Context (R_registers : forall d d', registers d d' -> R d d').
Context (R_operator : forall d d', operator_command decides d d' -> R d d').

Lemma served_respects {S A} (R' : relation S) `{!PreOrder R'} (m : Prog S A) :
  respects R' m -> respects R' (served m).
Proof. intros H. apply respects_bind; [done|done|]. intros a. apply respects_ret. typeclasses eauto. Qed.

(** A transaction after which whatever happens only returns or raises. *)
Lemma attempt_steps {A B} (m : Tx A) (k : result A -> Prog db B) :
  (forall d, R d (atomically m d).2) -> (forall r, respects R (k r)) ->
  respects R (outcome ← attempt (transact m); k outcome).
Proof.
  intros Hm Hk. apply respects_bind; [typeclasses eauto| |done]. apply respects_attempt. exact Hm.
Qed.

Lemma accept_steps now n : respects R (Alerts._accept_alert config now n).
Proof.
  unfold Alerts._accept_alert. case_match; [|apply respects_throw; typeclasses eauto].
  apply respects_bind; [typeclasses eauto|apply respects_pure; typeclasses eauto|]. intros key.
  destruct (Alerts.command_of n key _) as [c|e] eqn:Ec;
    [|destruct e; apply respects_throw; typeclasses eauto].
  apply command_of_valid in Ec as [Hv _]. apply attempt_steps; [intros d; by apply R_alert, ac_alert|].
  intros [r|e]; [apply respects_ret; typeclasses eauto|destruct e; apply respects_throw; typeclasses eauto].
Qed.

Lemma accept_all_steps l : respects R (Alerts.accept_all config l).
Proof.
  induction l as [|[now a] l IH]; simpl; [apply respects_ret; typeclasses eauto|].
  apply respects_bind; [typeclasses eauto|apply respects_pure; typeclasses eauto|]. intros n.
  apply respects_bind; [typeclasses eauto|apply accept_steps|]. intros r.
  apply respects_bind; [typeclasses eauto|exact IH|]. intros rs. apply respects_ret; typeclasses eauto.
Qed.

(** A command that is guarded, or the answer of the guard. *)
Lemma guarded_steps {A} (m : Tx A) :
  (forall d, R d (atomically m d).2) -> respects R (Operators.guarded m).
Proof.
  intros Hm. apply attempt_steps; [done|].
  intros [r|e]; [apply respects_ret|apply respects_throw]; typeclasses eauto.
Qed.

(** Nothing happens without the credentials. *)
Lemma operator_steps {A} a (m : Prog db A) :
  respects R m -> respects R (Operators.require_operator st a ;; m).
Proof.
  intros Hm. apply respects_bind; [typeclasses eauto| |done]. unfold Operators.require_operator.
  cbv zeta. repeat case_match; [apply respects_throw..|apply respects_ret]; typeclasses eauto.
Qed.

Lemma reads_steps {A} (m : Tx A) : (forall d a d', m d = Ok (a, d') -> d' = d) -> respects R (transact m).
Proof.
  intros Hm d. unfold transact, atomically. destruct (m d) as [[a d1]|e] eqn:E; simpl; [|reflexivity].
  by rewrite (Hm _ _ _ E).
Qed.

Lemma views_run l d vs d' : Operators.views l d = Ok (vs, d') -> d' = d.
Proof.
  revert d vs d'. induction l as [|r l IH]; intros d vs d' H; simpl in H; tx_inv; [done|].
  repeat match goal with
  | H : _view _ _ = Ok _ |- _ => apply RemediationProofs.view_run in H
  | H : Operators.views _ _ = Ok _ |- _ => apply IH in H
  end. congruence.
Qed.

Lemma get_remediation_steps i : respects R (Operators.get_remediation i).
Proof.
  apply respects_bind; [typeclasses eauto| |].
  - apply respects_attempt, reads_steps. intros d v d' H.
    unfold RemediationService.get, _view in H. by tx_inv.
  - intros [v|e]; [|destruct e; apply respects_throw; typeclasses eauto].
    apply reads_steps. intros d r d' H. by tx_inv.
Qed.

Lemma switch_steps now a scope body : respects R (Operators.set_kill_switch st now a scope body).
Proof.
  apply operator_steps, attempt_steps; [intros d; apply R_operator, oc_switch|].
  intros [r|e]; [by intros d|destruct e; apply respects_throw; typeclasses eauto].
Qed.

Lemma decide_steps now a i body : decides -> respects R (Operators.decide st now a i body).
Proof.
  intros Hd. apply operator_steps. case_match; [|apply respects_throw; typeclasses eauto].
  apply guarded_steps. intros d. by apply R_operator, oc_decide.
Qed.

Lemma propose_steps now a i body : respects R (Operators.propose cfg st now a i body).
Proof.
  apply operator_steps. case_match; [|case_match; apply respects_throw; typeclasses eauto].
  apply guarded_steps. intros d. apply R_operator, oc_propose.
Qed.

Lemma cancel_steps now a i body : respects R (Operators.cancel st now a i body).
Proof. apply operator_steps, guarded_steps. intros d. apply R_operator, oc_cancel. Qed.

Lemma webhook_steps a l : respects R (Alerts.receive_alertmanager_webhook config st a l).
Proof.
  apply respects_bind; [typeclasses eauto| |intros _; apply accept_all_steps].
  unfold Alerts._check_webhook_auth. cbv zeta.
  repeat case_match; [apply respects_ret|apply respects_throw|apply respects_ret]; typeclasses eauto.
Qed.

(** Beside the store of evidence. *)
Lemma right_steps {S A} (m : Prog db A) : respects R m -> respects (EvidenceService.beside (S := S) R) (on_right (served m)).
Proof.
  intros H s. pose proof (served_respects R m H s.2) as Hs. unfold on_right, EvidenceService.beside.
  by destruct (served m s.2).
Qed.

Lemma same_steps {A} (m : Prog World A) : (forall s, (m s).2 = s) -> respects (EvidenceService.beside R) m.
Proof. intros H s. unfold EvidenceService.beside. by rewrite H. Qed.

Lemma call_tool_steps i tool call : respects (EvidenceService.beside R) (EvidenceApi.call_tool catalog i tool call).
Proof.
  intros s. unfold EvidenceApi.call_tool, EvidenceService.beside. cbv zeta.
  set (s0 := (_, s.2)). pose proof (execute_tool_registers catalog {| tc_incident_id := i;
    tc_investigation_id := EvidenceApi.ca_investigation_id call |} EvidenceApi.default_tool_budget tool
    (JObj (EvidenceApi.ca_arguments call)) s0) as H.
  unfold EvidenceService.beside in H. destruct (execute_tool _ _ _ _ _ s0) as [r [t d]]. simpl in *. by apply R_registers.
Qed.

Lemma or_404_same {A} (m : Prog World A) : (forall s, (m s).2 = s) -> forall s, (EvidenceApi.or_404 m s).2 = s.
Proof.
  intros H s. specialize (H s). unfold EvidenceApi.or_404, attempt, mbind, Prog_bind.
  destruct (m s) as [[a|e] s1]; simpl in *; subst; [done|]. destruct e; simpl; try done. by case_match.
Qed.

Lemma serve_respects r : (is_decision r -> decides) -> respects (EvidenceService.beside R) (serve r).
Proof.
  intros Hd. destruct r; simpl;
    try (apply right_steps; [..]); try (apply served_respects; [typeclasses eauto|]).
  - apply accept_steps.
  - apply webhook_steps.
  - intros d. unfold Alerts.get_incident. by case_match.
  - apply reads_steps. intros d v d' H. tx_inv. by eapply views_run.
  - apply get_remediation_steps.
  - by apply decide_steps, Hd.
  - apply propose_steps.
  - apply cancel_steps.
  - apply switch_steps.
  - by intros d.
  - apply call_tool_steps.
  - by apply same_steps.
  - by apply same_steps, or_404_same.
  - apply same_steps, or_404_same. intros s. unfold verify, EvidenceService.get_evidence, mbind, Prog_bind, reading.
    by case_match.
Qed.
End Serve.

(** C5: requests drive the platform.  Whatever is asked of the two services, with whatever
    credentials, and whether the request is answered, refused or fails half-way: what it
    did to the database is a run of the platform, so every property of the databases the
    platform reaches holds while requests are served. *)
Theorem api_drives_the_platform (r : Request) (s : World) : rtc step s.2 (serve r s).2.2.
Proof.
  apply (serve_respects (rtc step) True); [..|done].
  - intros d d' Hc. by apply rtc_once, ps_alert.
  - apply registers_steps.
  - intros d d' Hc. apply rtc_once, ps_remediation. destruct Hc; by constructor.
Qed.

(** *** Alerts are answered *)

(** What an alert needs to be accepted: a known status and severity, and the labels. *)
Definition acceptable (n : Alerts.Notification) : bool :=
  bool_decide (is_Some (Alerts.AlertStatus_of (Alerts.n_status n)))
  && bool_decide (is_Some (Alerts.AlertSeverity_of (Alerts.n_severity n)))
  && match _require_service_and_environment (Alerts.n_labels n) with Ok _ => true | Err _ => false end.

Lemma derived_key_total source x payload status now :
  exists key, derive_alert_idempotency_key source x payload status DEFAULT_DEBOUNCE_SECONDS now = Ok key
              /\ nonempty key = true.
Proof.
  assert (forall t, nonempty (AlertSource_value source +++ t) = true) as Hs by (by destruct source).
  unfold derive_alert_idempotency_key. change (Z.eqb DEFAULT_DEBOUNCE_SECONDS 0) with false.
  destruct x as [x|]; [destruct (nonempty x)|]; eexists; (split; [done|]); try apply Hs.
  rewrite external_key_text. apply Hs.
Qed.

Lemma key_of_total now n status :
  exists key, Alerts.key_of now n status = Ok key /\ nonempty key = true.
Proof.
  unfold Alerts.key_of. destruct (Alerts.n_idempotency_key n) as [k|]; simpl; [|apply derived_key_total].
  unfold or_none. destruct (nonempty k) eqn:Ek; [by exists k|apply derived_key_total].
Qed.

Lemma command_of_acceptable n key status :
  nonempty key = true -> Alerts.AlertStatus_of (Alerts.n_status n) = Some status ->
  if acceptable n then exists c, Alerts.command_of n key status = Ok c
  else exists msg, Alerts.command_of n key status = Err (ValidationError msg).
Proof.
  intros Hk Hs. unfold acceptable, Alerts.command_of, alert_received_command. rewrite Hs, bool_decide_eq_true_2 by eauto.
  destruct (Alerts.AlertSeverity_of _) as [sev|] eqn:E; [rewrite bool_decide_eq_true_2 by eauto|].
  2: { rewrite bool_decide_eq_false_2 by (by intros []). simpl. eauto. }
  cbn [cmd_labels cmd_idempotency_key andb]. rewrite Hk. unfold _require_service_and_environment. cbv zeta.
  destruct (List.filter _ REQUIRED_LABELS); simpl; eauto.
Qed.

(** One alert, in a database the alert commands reach. *)
Lemma accept_alert_run now n d :
  AInv d -> ic_candidate_lookback_seconds config <> 0 ->
  if acceptable n
  then exists key status c res d', Alerts.AlertStatus_of (Alerts.n_status n) = Some status
         /\ Alerts.key_of now.1 n status = Ok key /\ Alerts.command_of n key status = Ok c
         /\ handle_alert_received config now.2 c d = Ok (res, d')
         /\ Alerts._accept_alert config now n d = (Ok (Alerts.response_of res), d')
  else exists msg, Alerts._accept_alert config now n d = (Err (HTTPException 422 msg), d).
Proof.
  intros HI Hlb. unfold Alerts._accept_alert. destruct (Alerts.AlertStatus_of _) as [status|] eqn:Es.
  2: { unfold acceptable. rewrite Es, bool_decide_eq_false_2 by (by intros []). simpl. by eexists. }
  destruct (key_of_total now.1 n status) as (key & Hkey & Hne).
  pose proof (command_of_acceptable n key status Hne Es) as Hc.
  unfold mbind, Prog_bind, pure. rewrite Hkey. destruct (acceptable n).
  - destruct Hc as [c Hc]. destruct (command_of_valid _ _ _ _ Hc) as [Hv _].
    destruct (handle_answers config now.2 c d HI Hv Hlb) as (res & d' & Hh).
    exists key, status, c, res, d'. rewrite Hc. unfold attempt, transact, atomically. rewrite Hh. done.
  - destruct Hc as [msg Hc]. rewrite Hc. by exists msg.
Qed.

Lemma accepted_AInv now n d r d' :
  AInv d -> ic_candidate_lookback_seconds config <> 0 ->
  Alerts._accept_alert config now n d = (Ok r, d') ->
  acceptable n = true /\ alert_step config d d' /\ AInv d'.
Proof.
  intros HI Hlb Ha. pose proof (accept_alert_run now n d HI Hlb) as Hr.
  destruct (acceptable n); [|destruct Hr as [msg Hr]; congruence]. split; [done|].
  destruct Hr as (key & status & c & res & d1 & _ & _ & Hc & Hh & Hr). rewrite Hr in Ha. injection Ha as <- <-.
  apply command_of_valid in Hc as [Hv _].
  assert (alert_step config d d1) as Hst by (by eapply as_command, handled_step).
  split; [done|]. by eapply AInv_step.
Qed.

Definition acceptable_alert (p : (instant * instant) * Alerts.AlertmanagerAlert) : Prop :=
  exists n, Alerts.notification_of_alert p.2 = Ok n /\ acceptable n = true.

Lemma accept_all_acceptable l d :
  AInv d -> ic_candidate_lookback_seconds config <> 0 -> Forall acceptable_alert l ->
  exists rs d', Alerts.accept_all config l d = (Ok rs, d') /\ length rs = length l /\ AInv d'.
Proof.
  intros HI Hlb Hl. revert d HI. induction Hl as [|[now a] l (n & Hn & Ha) _ IH]; intros d HI; [by exists [], d|].
  pose proof (accept_alert_run now n d HI Hlb) as Hr. rewrite Ha in Hr.
  destruct Hr as (key & status & c & res & d1 & _ & _ & _ & _ & Hr).
  destruct (accepted_AInv _ _ _ _ _ HI Hlb Hr) as (_ & _ & HI1).
  destruct (IH d1 HI1) as (rs & d2 & Hrs & Hlen & HI2). exists (Alerts.response_of res :: rs), d2.
  simpl in Hn |- *. unfold mbind, Prog_bind, pure. rewrite Hn, Hr, Hrs. split_and!; [done|by f_equal/=|done].
Qed.

Lemma accept_all_app l1 l2 d rs d1 :
  Alerts.accept_all config l1 d = (Ok rs, d1) ->
  Alerts.accept_all config (l1 ++ l2) d =
    (rs2 ← Alerts.accept_all config l2; mret (rs ++ rs2)) d1.
Proof.
  revert d rs. induction l1 as [|[now a] l1 IH]; intros d rs H; simpl in *.
  - injection H as <- <-. unfold mbind, Prog_bind. by destruct (Alerts.accept_all config l2 d) as [[]].
  - unfold mbind, Prog_bind, pure in *. destruct (Alerts.notification_of_alert a) as [n|e]; [|done].
    destruct (Alerts._accept_alert _ _ _ d) as [[r|e] d0]; [|done].
    destruct (Alerts.accept_all config l1 d0) as [[rs'|e] d1'] eqn:E; [|done]. injection H as <- ->.
    rewrite (IH _ _ E). simpl. by destruct (Alerts.accept_all config l2 d1) as [[]].
Qed.

Definition webhook_authorised (authorization : option string) : bool :=
  negb (nonempty (st_alertmanager_webhook_token st))
  || bool_decide (authorization = Some (bearer (st_alertmanager_webhook_token st))).

Lemma check_webhook_auth_run a d :
  Alerts._check_webhook_auth st a d =
    if webhook_authorised a then (Ok (), d)
    else (Err (HTTPException 401 "invalid or missing webhook credentials"), d).
Proof.
  unfold Alerts._check_webhook_auth, webhook_authorised. cbv zeta.
  destruct (nonempty _); simpl; [|done]. by case_bool_decide.
Qed.

(** The alert says it started at a date that UTC has no name for. *)
Definition unrepresentable (a : Alerts.AlertmanagerAlert) (e : exn) : Prop :=
  exists fingerprint startsAt date,
    Alerts.am_fingerprint a = Some fingerprint /\ fingerprint <> ""
    /\ Alerts.am_startsAt a = Some startsAt /\ startsAt <> ""
    /\ fromisoformat (Alerts.replace_Z startsAt) = Some date
    /\ Alerts.astimezone_UTC date = Err e.

Lemma or_none_Some (o : option string) x : o ≫= or_none = Some x -> o = Some x /\ x <> "".
Proof.
  destruct o as [y|]; [|done]. cbn. unfold or_none. destruct (nonempty y) eqn:E; [|done].
  intros [= ->]. by apply nonempty_true in E.
Qed.

Lemma notification_error a e : Alerts.notification_of_alert a = Err e -> unrepresentable a e.
Proof.
  unfold Alerts.notification_of_alert, Alerts._alertmanager_episode_id.
  destruct (Alerts.am_fingerprint a ≫= or_none) as [f|] eqn:Ef; [|done].
  destruct (Alerts.am_startsAt a ≫= or_none) as [t|] eqn:Et; [|done].
  destruct (fromisoformat _) as [date|] eqn:Ed; [|done].
  destruct (Alerts.astimezone_UTC date) as [u|e'] eqn:Eu; [done|]. intros [= ->].
  apply or_none_Some in Ef as [? ?], Et as [? ?]. exists f, t, date. by split_and!.
Qed.

(** How far a group is accepted. *)
Lemma group_split l :
  Forall acceptable_alert l
  \/ exists before now bad after, l = before ++ (now, bad) :: after /\ Forall acceptable_alert before
       /\ ((exists n, Alerts.notification_of_alert bad = Ok n /\ acceptable n = false)
           \/ exists e, Alerts.notification_of_alert bad = Err e).
Proof.
  induction l as [|[now a] l IH]; [by left|].
  destruct (Alerts.notification_of_alert a) as [n|e] eqn:En; [destruct (acceptable n) eqn:Ea|].
  - assert (acceptable_alert (now, a)) as Hn by (by exists n).
    destruct IH as [IH|(before & now' & bad & after & -> & Hb & Hc)]; [left; by constructor|].
    right. exists ((now, a) :: before), now', bad, after. split_and!; [done|by constructor|done].
  - right. exists [], now, a, l. split_and!; [done..|left; eauto].
  - right. exists [], now, a, l. split_and!; [done..|right; eauto].
Qed.

(** C39: a notification group is answered alert by alert.  In every reachable database the
    webhook refuses a caller without the token and changes nothing.  Of an authorised
    group it accepts every alert when each has a known status and severity and its labels.
    Otherwise it accepts those before the first that has not, does not look at what
    follows it, and answers 422 for it; or, when its [startsAt] is a date that cannot be
    converted to UTC, it fails with that error, a server error. *)
Theorem webhook_answers_each_alert a l d :
  alerted config d -> ic_candidate_lookback_seconds config <> 0 ->
  let post := Alerts.receive_alertmanager_webhook config st a l in
  if webhook_authorised a then
    (Forall acceptable_alert l /\ exists rs d', post d = (Ok rs, d') /\ length rs = length l)
    \/ exists before now bad after rs d',
         l = before ++ (now, bad) :: after /\ Forall acceptable_alert before
         /\ Alerts.accept_all config before d = (Ok rs, d') /\ length rs = length before
         /\ ((exists n msg, Alerts.notification_of_alert bad = Ok n /\ acceptable n = false
                /\ post d = (Err (HTTPException 422 msg), d'))
             \/ exists e, unrepresentable bad e /\ post d = (Err e, d'))
  else exists msg, post d = (Err (HTTPException 401 msg), d).
Proof.
  intros HI%alerted_AInv Hlb. cbv zeta. unfold Alerts.receive_alertmanager_webhook, mbind, Prog_bind.
  rewrite check_webhook_auth_run. destruct (webhook_authorised a); [|by eexists].
  destruct (group_split l) as [Hl|(before & now & bad & after & -> & Hl & Hbad)].
  - left. split; [done|]. destruct (accept_all_acceptable l d HI Hlb Hl) as (rs & d' & -> & ? & _). eauto.
  - right. destruct (accept_all_acceptable before d HI Hlb Hl) as (rs & d' & Hrs & Hlen & HI').
    exists before, now, bad, after, rs, d'. split_and!; [done..|].
    rewrite (accept_all_app _ _ _ _ _ Hrs). simpl. unfold mbind, Prog_bind, pure.
    destruct Hbad as [(n & Hn & Ha)|(e & He)].
    + left. pose proof (accept_alert_run now n d' HI' Hlb) as Hr. rewrite Ha in Hr. destruct Hr as [msg Hr].
      exists n, msg. rewrite Hn. by rewrite Hr.
    + right. exists e. rewrite He. split; [by apply notification_error|done].
Qed.

(** An alert of an episode: the key does not depend on the time it arrived. *)
Definition has_fingerprint (a : Alerts.AlertmanagerAlert) : Prop :=
  exists x, Alerts.am_fingerprint a = Some x /\ x <> "".

(** The notification has the key of its episode. *)
Definition n_keyed (n : Alerts.Notification) : Prop :=
  Alerts.n_idempotency_key n = None
  /\ exists x, Alerts.n_external_id n = Some x /\ nonempty x = true.

Lemma nonempty_append a b : nonempty a = true -> nonempty (a +++ b) = true.
Proof. by destruct a. Qed.

Lemma episode_id_nonempty a o :
  has_fingerprint a -> Alerts._alertmanager_episode_id a = Ok o ->
  exists x, o = Some x /\ nonempty x = true.
Proof.
  intros (f & Hf & Hne%nonempty_true). unfold Alerts._alertmanager_episode_id, or_none.
  rewrite Hf. cbn [mbind option_bind]. rewrite Hne. intros Ho.
  repeat case_match; try (apply rbind_Ok in Ho as (u & _ & Ho)); injection Ho as <-;
    (eexists; split; [done|]); by try apply nonempty_append.
Qed.

Lemma fingerprint_keyed a n :
  has_fingerprint a -> Alerts.notification_of_alert a = Ok n -> n_keyed n.
Proof.
  intros Hf Hn. unfold Alerts.notification_of_alert in Hn. apply rbind_Ok in Hn as (o & Ho & [= <-]).
  split; [done|]. by apply (episode_id_nonempty a).
Qed.

Lemma episode_key now now' n status :
  n_keyed n -> Alerts.key_of now n status = Alerts.key_of now' n status.
Proof.
  intros [Hk (x & Hx & Hne)]. unfold Alerts.key_of, derive_alert_idempotency_key. by rewrite Hk, Hx, Hne.
Qed.

Lemma accept_again now now' n d r d1 d2 :
  AInv d -> ic_candidate_lookback_seconds config <> 0 -> n_keyed n ->
  Alerts._accept_alert config now n d = (Ok r, d1) ->
  rtc (alert_step config) d1 d2 ->
  Alerts._accept_alert config now' n d2 = (Ok r, d2).
Proof.
  intros HI Hlb Hf Ha Hs. pose proof (accept_alert_run now n d HI Hlb) as Hr.
  destruct (acceptable _); [|destruct Hr as [msg Hr]; congruence].
  destruct Hr as (key & status & c & res & d' & Es & Hkey & Hc & Hh & Hr). rewrite Hr in Ha.
  injection Ha as <- ->. unfold Alerts._accept_alert, mbind, Prog_bind, pure.
  rewrite Es, (episode_key now'.1 now.1) by done. rewrite Hkey, Hc. unfold attempt, transact, atomically.
  apply command_of_valid in Hc as [Hv _].
  by rewrite (answered_again config now.2 c d res d1 d2 now'.2 c HI Hv Hh Hs eq_refl).
Qed.

Lemma accept_all_again l l' d rs d1 d2 :
  AInv d -> ic_candidate_lookback_seconds config <> 0 -> Forall has_fingerprint (map snd l) ->
  map snd l' = map snd l -> Alerts.accept_all config l d = (Ok rs, d1) ->
  rtc (alert_step config) d d1 /\
  (rtc (alert_step config) d1 d2 -> Alerts.accept_all config l' d2 = (Ok rs, d2)).
Proof.
  intros HI Hlb Hf. revert l' d rs HI. induction l as [|[now a] l IH]; intros [|[now' a'] l'] d rs HI Hl Hr;
    simpl in *; try done.
  { injection Hr as <- <-. done. }
  injection Hl as -> Hl. apply Forall_cons in Hf as [Ha Hf].
  apply prog_bind_run in Hr as (n & dn & Hn & Hr). unfold pure in Hn. injection Hn as Hn <-.
  apply prog_bind_run in Hr as (r & d0 & Hr & Hrs). pose proof (fingerprint_keyed _ _ Ha Hn) as Hk.
  apply prog_bind_run in Hrs as (rs0 & d0' & Hrs & Hret). injection Hret as <- <-.
  destruct (accepted_AInv _ _ _ _ _ HI Hlb Hr) as (_ & Hst & HI0).
  destruct (IH Hf l' d0 rs0 HI0 Hl Hrs) as [Hs0 Hagain].
  split; [by eapply rtc_l|]. intros Hs.
  rewrite (proj2 (prog_bind_run _ _ d2 (r :: rs0) d2)); [done|]. exists n, d2. split; [by rewrite Hn|].
  rewrite (proj2 (prog_bind_run _ _ d2 (r :: rs0) d2)); [done|]. exists r, d2. split.
  - apply (accept_again now now' n d r d0 d2 HI Hlb Hk Hr). by etrans.
  - unfold mbind, Prog_bind. by rewrite (Hagain Hs).
Qed.

(** C20: a group delivered again changes nothing.  A group whose alerts carry a fingerprint
    and that was accepted, delivered again at any later time and whatever happened in
    between, is answered with the very same responses and changes nothing. *)
Theorem webhook_redelivery_changes_nothing a l d rs d1 d2 l' :
  alerted config d -> ic_candidate_lookback_seconds config <> 0 ->
  Forall has_fingerprint (map snd l) ->
  Alerts.receive_alertmanager_webhook config st a l d = (Ok rs, d1) ->
  rtc (alert_step config) d1 d2 -> map snd l' = map snd l ->
  Alerts.receive_alertmanager_webhook config st a l' d2 = (Ok rs, d2).
Proof.
  intros HI%alerted_AInv Hlb Hf. unfold Alerts.receive_alertmanager_webhook, mbind, Prog_bind.
  rewrite !check_webhook_auth_run. destruct (webhook_authorised a); [|done].
  intros Hr Hs Hl. exact (proj2 (accept_all_again l l' d rs d1 d2 HI Hlb Hf Hl Hr) Hs).
Qed.

(** *** Approvals *)

Definition same_approvals (d d' : db) : Prop := approvals d' = approvals d.
#[export] Instance same_approvals_preorder : PreOrder same_approvals.
Proof. split; [done|]. unfold same_approvals. intros d1 d2 d3. congruence. Qed.

Lemma app_writes f : (forall d, approvals (f d) = approvals d) -> relates same_approvals (writes f).
Proof. intros H. by apply relates_writes. Qed.
Lemma app_uuid4 : relates same_approvals uuid4.
Proof. by intros d a d' [-> ->]%uuid4_Ok. Qed.
Local Hint Resolve app_writes app_uuid4 : relates.
Local Hint Extern 1 (forall d, approvals _ = approvals d) => intros; reflexivity : relates.

Ltac same_approvals :=
  unfold RemediationService.propose, RemediationService.cancel, RemediationService.set_kill_switch,
    RemediationService._finish_cancelled, insert_remediation, RemediationService._context, _record_decision,
    _route, RemediationService._transition, RemediationService._timeline, RemediationService._event,
    RemediationService._move_incident, transition_with_event, transition_incident_status,
    status_changed_event, RemediationService._lock, RemediationService._lock_incident,
    RemediationService._view, put_remediation, put_incident, insert_outbox_event; relates_auto.

Lemma app_propose now p key corr : relates same_approvals (RemediationService.propose cfg now p key corr).
Proof. same_approvals. Qed.
Lemma app_cancel now i actor reason : relates same_approvals (RemediationService.cancel now i actor reason).
Proof. same_approvals. Qed.
Lemma app_switch now scope engaged actor reason :
  relates same_approvals (RemediationService.set_kill_switch now scope engaged actor reason).
Proof. same_approvals. Qed.

(** A decision adds at most one row: what the approver said of the current proposal. *)
Definition decision_recorded (approver : string) (roles : list string) (approve : bool) (hash : string)
    (pid : uuid) (row : RemediationRow) (a : RemediationApprovalRow) : Prop :=
  rm_status row = R_AWAITING_APPROVAL /\ rm_proposal_hash row = hash
  /\ rm_policy_decision_id row = Some pid
  /\ ap_remediation_id a = rm_id row /\ ap_approver a = approver /\ ap_proposal_hash a = hash
  /\ ap_decision a = (if approve then Store.approved else Store.rejected)
  /\ (approve = true -> exists role, ap_approver_role a = Some role /\ role ∈ roles).

Lemma app_view row : relates same_approvals (RemediationService._view row).
Proof. same_approvals. Qed.
Lemma app_finish_cancelled now row i e a r to et dec :
  relates same_approvals (RemediationService._finish_cancelled now row i e a r to et dec).
Proof. same_approvals. Qed.
Lemma app_transition now row to e a j v : relates same_approvals (RemediationService._transition now row to e a j v).
Proof. same_approvals. Qed.
Lemma app_event now row e a o : relates same_approvals (RemediationService._event now row e a o).
Proof. same_approvals. Qed.
Lemma app_move_incident now i fs t r : relates same_approvals (RemediationService._move_incident now i fs t r).
Proof. same_approvals. Qed.
Lemma app_lock_incident i : relates same_approvals (RemediationService._lock_incident i).
Proof. same_approvals. Qed.
Local Hint Resolve app_view app_finish_cancelled app_transition app_event app_move_incident
  app_lock_incident : relates.

Lemma insert_approval_adds a d u d' :
  insert_approval a d = Ok (u, d') -> approvals d' = <[ap_id a := a]> (approvals d).
Proof. unfold insert_approval. intros H. tx_inv. by case_match; tx_inv. Qed.

Lemma decide_adds now i approver roles approve hash pid comment d v d' :
  decide_approval now i approver roles approve hash pid comment d = Ok (v, d') ->
  same_approvals d d'
  \/ exists row a, remediations d !! i = Some row
       /\ decision_recorded approver roles approve hash pid row a
       /\ approvals d' = <[ap_id a := a]> (approvals d).
Proof.
  unfold decide_approval. intros Hr. tx_inv. read_runs.
  destruct (approval_of d i) as [e|] eqn:Eap.
  { destruct (same_decision _ _ _ _); tx_inv; read_runs. by left. }
  case_bool_decide as Hs; simpl in *; [|by tx_inv].
  case_bool_decide as Hh; simpl in *; [|by tx_inv].
  case_bool_decide as Hpid; simpl in *; [|by tx_inv]. tx_inv.
  remember (List.filter _ roles) as eligible eqn:El.
  assert (forall r, head eligible = Some r -> r ∈ roles) as Hel.
  { intros r Hr'. destruct eligible as [|r0 l]; [done|]. simplify_eq/=.
    assert (In r (r :: l)) as Hin by (by left). rewrite El in Hin.
    apply List.filter_In in Hin as [Hin _]. by apply list_elem_of_In. }
  clear El.
  match goal with H : (if ?b then _ else _) _ = _ |- _ => destruct b eqn:Eb1 end; [by tx_inv|].
  match goal with H : (if ?b then _ else _) _ = _ |- _ => destruct b eqn:Eb2 end; [by tx_inv|].
  apply bind_Ok in Hr as (aid & d1 & [-> ->]%uuid4_Ok & Hr).
  apply bind_Ok in Hr as (u & d2 & Hins%insert_approval_adds & Hr).
  assert (same_approvals d2 d') as Hsame by (revert Hr; generalize d2 v d'; change (forall d v d', ?m d = Ok (v, d') -> _)
    with (relates same_approvals m); relates_auto).
  right. eexists x, _. unfold same_approvals in Hsame. rewrite Hsame. simpl in Hins. split_and!; [done| |exact Hins].
  split_and!; try done. simpl. intros ->. destruct eligible as [|r l]; [done|]. exists r. split; [done|]. by apply Hel.
Qed.

Lemma platform_reachable d : pf d -> reachable cfg d.
Proof.
  intros Hd. destruct (platform_run_views _ _ _ _ _ _ AInv_empty GInv_empty Hd) as (_ & _ & Hs & _).
  by apply (deployed_reachable cfg max_attempts).
Qed.

(** What leaves the approvals of a database of the platform alone. *)
Definition approves_nothing (d d' : db) : Prop := pf d -> pf d' /\ same_approvals d d'.
#[export] Instance approves_nothing_preorder : PreOrder approves_nothing.
Proof.
  split; [intros d Hd; by split|]. intros d1 d2 d3 H1 H2 Hd. destruct (H1 Hd) as [Hd2 ?], (H2 Hd2) as [? ?].
  split; [done|]. by etrans.
Qed.

Lemma idle_same_approvals d d' : idle d d' -> same_approvals d d'.
Proof. intros [H _]. apply (f_equal c_apps) in H. exact H. Qed.

Lemma alert_approves_nothing d d' : alert_command config d d' -> approves_nothing d d'.
Proof.
  intros Hc Hd. split; [eapply rtc_r; [exact Hd|by apply ps_alert]|].
  destruct (platform_inv _ _ _ _ _ Hd) as [HI _]. destruct (alert_beside config _ _ HI Hc) as (_ & Hi & _).
  by apply idle_same_approvals.
Qed.

Lemma bookkeeping_approves_nothing d d' : bookkeeping d d' -> approves_nothing d d'.
Proof.
  intros Hc Hd. split; [eapply rtc_r; [exact Hd|by apply ps_bookkeeping]|].
  destruct (platform_inv _ _ _ _ _ Hd) as [_ HG]. pose proof (GInv_keyed _ HG) as Hk.
  destruct (bookkeeping_beside _ _ Hk Hc) as (_ & _ & Hi & _). by apply idle_same_approvals.
Qed.

Lemma registers_approve_nothing d d' : registers d d' -> approves_nothing d d'.
Proof.
  induction 1 as [|d d1 d2 Hr _ IH]; [reflexivity|]. etrans; [|exact IH].
  destruct Hr; [apply alert_approves_nothing, ac_evidence|apply bookkeeping_approves_nothing, bk_identifier].
Qed.

Lemma operator_approves_nothing d d' : operator_command False d d' -> approves_nothing d d'.
Proof.
  intros Hc Hd. split; [eapply rtc_r; [exact Hd|]; apply ps_remediation; by destruct Hc; constructor|].
  destruct Hc as [|now p key|now i actor reason|now scope engaged actor reason]; [done|..];
    apply atomically_relates; try typeclasses eauto; [apply app_propose|apply app_cancel|apply app_switch].
Qed.

Lemma require_operator_run a d :
  (st_operator_api_token st <> "" /\ a = Some (bearer (st_operator_api_token st))
   /\ Operators.require_operator st a d = (Ok (), d))
  \/ exists code msg, (code = 401 \/ code = 403)
       /\ Operators.require_operator st a d = (Err (HTTPException code msg), d).
Proof.
  unfold Operators.require_operator. cbv zeta. destruct (nonempty _) eqn:En; simpl.
  - apply nonempty_true in En. case_bool_decide as Ha; simpl; [by left|right]. eexists _, _. split; [by left|done].
  - right. eexists _, _. split; [by right|done].
Qed.

Lemma decide_run now a i body d :
  same_approvals d (served (Operators.decide st now a i body) d).2
  \/ st_operator_api_token st <> "" /\ a = Some (bearer (st_operator_api_token st))
     /\ exists roles row ap, approver_roles st !! Operators.br_approver body = Some roles
       /\ remediations d !! i = Some row
       /\ decision_recorded (Operators.br_approver body) roles (Operators.br_approve body)
            (Operators.br_proposal_hash body) (Operators.br_policy_decision_id body) row ap
       /\ approvals (served (Operators.decide st now a i body) d).2 = <[ap_id ap := ap]> (approvals d).
Proof.
  unfold served, Operators.decide, mbind, Prog_bind.
  destruct (require_operator_run a d) as [(Ht & Ha & ->)|(code & msg & _ & ->)]; [|by left].
  destruct (approver_roles st !! _) as [roles|] eqn:Er; [|by left].
  unfold Operators.guarded, attempt, mbind, Prog_bind, transact, atomically.
  destruct (decide_approval _ _ _ _ _ _ _ _ d) as [[v d']|e] eqn:E; [|by left]. simpl.
  destruct (decide_adds _ _ _ _ _ _ _ _ _ _ _ E) as [Hs|(row & ap & Hl & Hrec & Hap)]; [by left|].
  right. split_and!; [done|done|]. by exists roles, row, ap.
Qed.

(** C9: approvals come from the roster.  While requests are served on the platform, an
    approval appears only when someone with the operator token posts a decision in the
    name of an approver of the roster: it names that approver, carries a role the roster gives
    them, says what they said, and is of the proposal and the policy decision they
    reviewed, which were current and awaited approval.  No other request, and no request
    without the credentials, adds one. *)
Theorem approvals_come_from_the_roster (r : Request) (s : World) k ap :
  pf s.2 -> approvals (serve r s).2.2 !! k = Some ap -> approvals s.2 !! k <> Some ap ->
  exists now i body roles row,
    r = PostApproval now (Some (bearer (st_operator_api_token st))) i body
    /\ st_operator_api_token st <> ""
    /\ approver_roles st !! Operators.br_approver body = Some roles
    /\ remediations s.2 !! i = Some row /\ rm_id row = i
    /\ decision_recorded (Operators.br_approver body) roles (Operators.br_approve body)
         (Operators.br_proposal_hash body) (Operators.br_policy_decision_id body) row ap.
Proof.
  intros Hd Hk Hnew. destruct (match r with PostApproval _ _ _ _ => true | _ => false end) eqn:Hr.
  - destruct r as [| | | | |now a i body| | | | | | | |]; try done. simpl in Hk. unfold on_right in Hk.
    pose proof (decide_run now a i body s.2) as Hrun. destruct (served _ s.2) as [x d']. simpl in *.
    destruct Hrun as [Hs|(Ht & -> & roles & row & ap' & Hro & Hl & Hrec & Hap)]; [congruence|].
    rewrite Hap in Hk. apply lookup_insert_Some in Hk as [[_ ->]|[_ Hk]]; [|done].
    destruct (row_of_reachable cfg _ _ _ (platform_reachable _ Hd) Hl) as [_ Hid].
    by exists now, i, body, roles, row.
  - assert (approves_nothing s.2 (serve r s).2.2) as H.
    { apply (serve_respects approves_nothing False);
        [apply alert_approves_nothing|apply registers_approve_nothing|apply operator_approves_nothing|].
      by destruct r. }
    destruct (H Hd) as [_ Hs]. congruence.
Qed.

(** Without the credentials an operator's request is refused, and nothing changes. *)
Theorem only_operators_act (r : Request) (s : World) a :
  operator_credentials r = Some a ->
  st_operator_api_token st = "" \/ a <> Some (bearer (st_operator_api_token st)) ->
  exists code msg, (code = 401 \/ code = 403) /\ serve r s = (Err (HTTPException code msg), s).
Proof.
  intros Hr Ha. destruct (require_operator_run a s.2) as [(? & ? & _)|(code & msg & Hc & H)]; [naive_solver|].
  exists code, msg. split; [done|]. destruct s as [w d]. simpl in H.
  destruct r; try done; injection Hr as <-; simpl; unfold on_right, served, Operators.decide,
    Operators.propose, Operators.cancel, Operators.set_kill_switch, mbind, Prog_bind; simpl; by rewrite H.
Qed.
End Api.
