(* ===== verification/PlatformExample.v ===== *)
(** * One incident through the whole platform

    From the alert of [IncidentExample] through the investigation of
    [InvestigationExample] to an approved remediation that is withdrawn; and a shift of the
    workers, in which the remediation worker plans the rollback the report asks for and,
    once it is approved, has the simulator perform it, and the verification worker watches
    until the incident is resolved. *)
From S2P Require Import Prelude PyFloat Json Enums VerificationDomain Catalog.
From S2P Require Import RemediationDomain Uuid InvestigationDomain InvestigationRules Policy Store TxLogic Prog Redis.
From S2P Require Import RemediationLifecycle RemediationService RemediationProofs RemediationSafety.
From S2P Require Import Executor Runner RunnerExample.
From S2P Require Import RemediationExample IncidentRepository AlertIdentity IncidentService.
From S2P Require Import IncidentProofs IncidentSafety IncidentExample InvestigationService.
From S2P Require Import InvestigationProofs InvestigationInvariant InvestigationKeeps InvestigationSafety.
From S2P Require Import InvestigationExample EvidenceScope EvidenceService.
From S2P Require Import VerificationService VerificationProofs VerificationSafety VerificationEngine.
From S2P Require Import IncidentWalk Platform AuditTrail EventStreams Planner Queries QueriesSafety Workers WorkersSafety.
From S2P Require Import AgentTools Api.
Local Open Scope Z_scope.

Abbreviation pf_step := (platform_step default_config 3 default_incident_config default_criteria).
Abbreviation pf := (platform default_config 3 default_incident_config default_criteria).

Definition pf_proposal : RemediationProposal :=
  {| pr_incident_id := 2; pr_investigation_id := None; pr_action_id := "rollback_deployment";
     pr_parameters := [("service", JStr "checkout"); ("from_version", JStr "v2");
                       ("to_version", JStr "v1")];
     pr_reason := "bad deploy"; pr_expected_effect := "errors drop"; pr_source := "planner";
     pr_proposed_by := "planner" |}.
Definition pf_proposed : db := run (propose default_config 3000 pf_proposal "k1" None) ex_concluded.
Definition pf_rid : uuid := default 0%N (head (map rm_id (rows (remediations pf_proposed)))).
Definition pf_rem (d : db) : RemediationRow :=
  default (new_row 0 0 ex_incident ex_proposal "" None None) (remediations d !! pf_rid).
Definition pf_approved : db :=
  run (decide_approval 3100 pf_rid "alice" ["service_owner"] true
         (rm_proposal_hash (pf_rem pf_proposed))
         (default 0%N (rm_policy_decision_id (pf_rem pf_proposed))) None) pf_proposed.
Definition pf_withdrawn : db := run (cancel 3200 pf_rid "operator:bob" "not now") pf_approved.

Example pf_course :
  map (fun d => (rm_status (pf_rem d), i_status (ex_incident_row d))) [pf_proposed; pf_approved; pf_withdrawn]
  = [(R_AWAITING_APPROVAL, AWAITING_APPROVAL); (R_APPROVED, REMEDIATION_IN_PROGRESS);
     (R_CANCELLED, RCA_READY)].
Proof. vm_compute. reflexivity. Qed.

(** ** Reachability *)

Lemma pf_next d d' : pf d -> pf_step d d' -> pf d'.
Proof. unfold platform. apply rtc_r. Qed.

Lemma pf_concluded : pf ex_concluded.
Proof.
  assert (pf ex_gathered) as H.
  { eapply pf_next; [eapply pf_next; [apply rtc_once|]|]; apply ps_alert; [|apply ac_evidence..].
    by apply ac_alert, ex_alert_valid. }
  eapply pf_next; [|apply ps_investigation, ic_complete].
  eapply pf_next; [|apply ps_investigation, ic_apply; vm_compute; reflexivity].
  eapply pf_next; [|apply ps_investigation, ic_record].
  eapply pf_next; [|apply ps_investigation, ic_claim].
  eapply pf_next; [exact H|apply ps_investigation, ic_request].
Qed.
Lemma pf_approved_reached : pf pf_approved.
Proof.
  eapply pf_next; [|apply ps_remediation, rc_decide].
  eapply pf_next; [apply pf_concluded|apply ps_remediation, rc_propose].
Qed.
Lemma pf_withdrawal : pf_step pf_approved pf_withdrawn.
Proof. apply ps_remediation, rc_cancel. Qed.

(** ** The theorems at the run *)

Lemma services_compose_witness :
  alerted default_incident_config pf_approved /\ deployed default_config 3 pf_approved.
Proof.
  destruct (services_compose default_config 3 default_incident_config default_criteria
              pf_approved pf_withdrawn pf_approved_reached (rtc_once _ _ pf_withdrawal))
    as (H1 & _ & H3 & _).
  split; [exact H1|exact H3].
Defined.

Lemma platform_refines_lifecycle_witness : rtc lifecycle_step (statuses pf_approved) (statuses pf_withdrawn).
Proof.
  exact (platform_refines_lifecycle default_config 3 default_incident_config default_criteria
           pf_approved pf_withdrawn pf_approved_reached (rtc_once _ _ pf_withdrawal)).
Defined.

Lemma recorded_moves_replay_the_incident_witness :
  replays TRIAGING (incident_transitions 2 pf_approved) REMEDIATION_IN_PROGRESS
  /\ exists r l, incidents pf_withdrawn !! 2%N = Some r
       /\ incident_transitions 2 pf_withdrawn = incident_transitions 2 pf_approved ++ l
       /\ replays REMEDIATION_IN_PROGRESS l (i_status r).
Proof.
  pose proof (recorded_moves_replay_the_incident default_config 3 default_incident_config default_criteria
                pf_approved pf_withdrawn 2 pf_approved_reached (rtc_once _ _ pf_withdrawal)) as H.
  assert (i_status <$> incidents pf_approved !! 2%N = Some REMEDIATION_IN_PROGRESS) as E
    by (vm_compute; reflexivity).
  destruct (incidents pf_approved !! 2%N) as [r|]; [|discriminate E].
  injection E as E. rewrite E in H. exact H.
Defined.

(** ** The console *)

Definition any_incident : Query :=
  {| q_statuses := []; q_severities := []; q_service := ""; q_since := None; q_until := None |}.

Lemma pf_quiet : pf ex_quiet.
Proof.
  unfold ex_quiet, ex_quieter, ex_both, ex_fired.
  do 4 (eapply pf_next; [|by apply ps_alert, ac_alert, ex_alert_valid]). apply rtc_refl.
Qed.

(** The alerts of the incident are resolved, and it is cancelled. *)
Example quiet_listed :
  map (fun x => (it_status x, it_alert_count x, it_firing_alert_count x, it_ended_at x))
    (li_items (list_incidents 9000 any_incident 50 0 ex_quiet))
  = [("CANCELLED", 2, 0, Some "1970-01-01T00:00:00.004000+00:00")].
Proof. vm_compute. reflexivity. Qed.

Lemma console_agrees_with_the_core_witness :
  li_total (list_incidents 9000 any_incident 50 0 ex_quiet) = 1
  /\ Forall (fun x => it_firing_alert_count x = count_firing ex_quiet (it_id x) /\ is_Some (it_ended_at x))
       (li_items (list_incidents 9000 any_incident 50 0 ex_quiet)).
Proof.
  pose proof (console_agrees_with_the_core default_config 3 default_incident_config default_criteria
                9000 any_incident 50 0 ex_quiet pf_quiet) as [Ht Hi].
  split; [rewrite Ht; vm_compute; reflexivity|].
  assert (Forall (fun x => it_status x = "CANCELLED") (li_items (list_incidents 9000 any_incident 50 0 ex_quiet)))
    as Hs by (vm_compute; repeat constructor).
  rewrite Forall_forall in *. intros x Hx. destruct (Hi x Hx) as (r & _ & _ & _ & Hf & _ & _ & He).
  split; [exact Hf|]. apply He. rewrite (Hs x Hx). apply (bool_decide_eq_true ("CANCELLED" ∈ FINAL_STATUSES)). reflexivity.
Defined.

(** The detail of the withdrawn one has fifteen entries. *)
Lemma timeline_is_chronological_witness :
  exists detail events added, incident_detail 9000 2 pf_withdrawn = Ok (Some (detail, events))
    /\ length events = 15%nat /\ additions detail = Ok added /\ events ≡ₚ added.
Proof.
  assert (match incident_detail 9000 2 pf_withdrawn with
          | Ok (Some p) => bool_decide (length p.2 = 15%nat) | _ => false end = true) as H
    by (vm_compute; reflexivity).
  destruct (incident_detail 9000 2 pf_withdrawn) as [[[detail events]|]|] eqn:E; try discriminate H.
  apply bool_decide_eq_true in H.
  destruct (timeline_is_chronological 9000 2 pf_withdrawn detail events E) as [(added & Ha & Hp) _].
  exists detail, events, added. split; [reflexivity|]. split; [exact H|]. split; [exact Ha|exact Hp].
Defined.

(** ** The documented table *)

(** The edges of [docs/architecture/04-incident-state-machine.md]: its transition table,
    the takeover from any state that is not terminal, and the tables of the later phases. *)
Definition NON_TERMINAL : list IncidentStatus :=
  [TRIAGING; INVESTIGATING; RCA_READY; AWAITING_APPROVAL; REMEDIATION_IN_PROGRESS; VERIFYING;
   VERIFICATION_FAILED; RESOLVED; ESCALATED].
Definition DOCUMENTED : edges :=
  [(TRIAGING, SUPPRESSED); (TRIAGING, INVESTIGATING); (TRIAGING, CANCELLED);
   (INVESTIGATING, RCA_READY); (RCA_READY, AWAITING_APPROVAL); (RCA_READY, REMEDIATION_IN_PROGRESS);
   (RCA_READY, CLOSED); (AWAITING_APPROVAL, REMEDIATION_IN_PROGRESS); (AWAITING_APPROVAL, RCA_READY);
   (REMEDIATION_IN_PROGRESS, VERIFYING); (VERIFYING, RESOLVED); (VERIFYING, VERIFICATION_FAILED);
   (VERIFICATION_FAILED, INVESTIGATING); (RESOLVED, CLOSED); (ESCALATED, CLOSED)]
  ++ map (fun s => (s, ESCALATED)) NON_TERMINAL.

(** One edge is not in the documented table.  Every edge of the machine the
    platform follows is documented except REMEDIATION_IN_PROGRESS to RCA_READY, and
    that one is taken: in a reachable database an approved remediation that has not
    started is withdrawn, and its incident goes back from REMEDIATION_IN_PROGRESS. *)
Theorem withdrawal_leaves_the_table :
  (forall e, e ∈ LIFECYCLE -> e ∈ DOCUMENTED \/ e = (REMEDIATION_IN_PROGRESS, RCA_READY))
  /\ ~ (REMEDIATION_IN_PROGRESS, RCA_READY) ∈ DOCUMENTED
  /\ pf pf_approved /\ pf_step pf_approved pf_withdrawn
  /\ statuses pf_approved !! 2%N = Some REMEDIATION_IN_PROGRESS
  /\ statuses pf_withdrawn !! 2%N = Some RCA_READY.
Proof.
  split.
  { intros e He. assert (forallb (fun e => bool_decide (e ∈ DOCUMENTED)
      || bool_decide (e = (REMEDIATION_IN_PROGRESS, RCA_READY))) LIFECYCLE = true) as H
      by (vm_compute; reflexivity).
    rewrite forallb_forall in H. apply list_elem_of_In, H, orb_true_iff in He.
    rewrite !bool_decide_eq_true in He. exact He. }
  split; [apply (bool_decide_eq_false (_ ∈ DOCUMENTED)); vm_compute; reflexivity|].
  split; [apply pf_approved_reached|]. split; [apply pf_withdrawal|].
  split; vm_compute; reflexivity.
Qed.

(** ** What the worker reads and observes *)

Definition wk_record (id : uuid) (type : EvidenceType) (service : string) (payload : json) : EvidenceRecord :=
  {| ev_evidence_id := id; ev_sequence := 1; ev_incident_id := 2; ev_investigation_id := Some ex_iid;
     ev_evidence_type := type; ev_source_system := SRC_DEPLOYMENT_REGISTRY; ev_operation := "op"; ev_subject_service := service;
     ev_query_spec := JObj []; ev_source_reference := JObj []; ev_observed_at := 1400; ev_window_start := None;
     ev_window_end := None; ev_collected_at := 1400; ev_expires_at := None; ev_requested_by := "agent";
     ev_content_hash := "h"; ev_raw_response := JNull; ev_raw_truncated := false;
     ev_normalized_payload := payload; ev_summary := ""; ev_result_count := 1 |}.
Definition wk_deployed (version previous : string) : json :=
  JObj [("current", JObj [("version", JStr version); ("previous_version", JStr previous)])].
(** The record of another service is cited as well, the third is not. *)
Definition wk_records : list EvidenceRecord :=
  [wk_record 51 DEPLOYMENT "payments" (wk_deployed "v9" "v8");
   wk_record 52 DEPLOYMENT "checkout" (wk_deployed "v2" "v1");
   wk_record 53 DEPLOYMENT "checkout" (wk_deployed "v7" "v6")].
Definition wk_reader (incident : uuid) : Prog () (list EvidenceRecord) := mret wk_records.

(** Every source answers, with a new piece of evidence of a service back on its feet. *)
Definition wk_value (n : Z) : json := JObj [("value", JInt n)].
Definition wk_answer : list (string * json) :=
  [("status", JStr "healthy");
   ("signals", JObj [("error_rate", wk_value 0); ("latency_p95", wk_value 0)]);
   ("current", JObj [("version", JStr "v1")])].
Definition wk_evidence : EvidenceSource.
Proof.
  refine {| fetch := fun operation now incident service by_ =>
    transact (id ← uuid4;
              _ ← register_evidence_ref now
                    {| re_evidence_id := id; re_incident_id := incident; re_investigation_id := None;
                       re_evidence_type := operation; re_content_hash := "h"; re_source_system := operation;
                       re_collected_at := now |};
              mret (id, wk_answer)) |}.
  intros op now i s by_ d. apply atomically_relates; [tc_solve|relates_auto].
Defined.

(** ** The planner *)

Definition wk_report : json :=
  default JNull (head (map rca_report (rows (rca_reports ex_concluded)))).
Definition wk_plan : result Planned := (plan wk_reader 2 ex_iid wk_report ()).1.
Definition wk_planned : option (string * list (string * json)) :=
  match wk_plan with
  | Ok (Some p, _) => Some (pr_action_id p, pr_parameters p)
  | _ => None
  end.

(** The versions are those of the one record of the component that is cited. *)
Example wk_rollback : wk_planned = Some ("rollback_deployment",
  [("service", JStr "checkout"); ("from_version", JStr "v2"); ("to_version", JStr "v1")]).
Proof. vm_compute. reflexivity. Qed.

(** ** The shift *)

Definition wk_state (d : db) : () * (ex_world (RemediationExecutor := simulation) * db) :=
  ((), (ex_simulated, d)).
Definition wk_events (type : string) (d : db) : list OutboxEventEnvelope :=
  List.filter (fun e => bool_decide (env_event_type e = type))
    (map _envelope_from_row (outbox_events d)).
Abbreviation wk_collector := (collector (EX := simulation) (ES := wk_evidence) "w1" tn_claim tn_claim).
Definition wk_deliver (type : string) (now : instant) (d : db) : db :=
  match wk_events type d with
  | e :: _ => (handle_remediation (EX := simulation) wk_reader default_config "w1" 120 (Some wk_collector) now ex_turn e
                 (wk_state d)).2.2.2
  | [] => d
  end.

Definition wk_proposed : db := wk_deliver "InvestigationCompleted" 3000 ex_concluded.
Definition wk_rid : uuid := default 0%N (head (map rm_id (rows (remediations wk_proposed)))).
Definition wk_rem (d : db) : RemediationRow :=
  default (new_row 0 0 ex_incident ex_proposal "" None None) (remediations d !! wk_rid).
Definition wk_approved : db :=
  RemediationExample.run (decide_approval 3100 wk_rid "alice" ["service_owner"] true (rm_proposal_hash (wk_rem wk_proposed))
         (default 0%N (rm_policy_decision_id (wk_rem wk_proposed))) None) wk_proposed.
Definition wk_executed : db := wk_deliver "RemediationApproved" 3150 wk_approved.
Definition wk_requested : db :=
  match wk_events "VerificationRequested" wk_executed with
  | e :: _ => (handle_requested 3400 e wk_executed).2
  | [] => wk_executed
  end.
(** The verification worker polls every hundred seconds. *)
Definition wk_instant (n : nat) : instant := 100000000 * Z.of_nat n.
Definition wk_tick (n : nat) (i : uuid) : Tick :=
  {| tick_claim := wk_instant n; tick_observe := wk_instant n; tick_observed := wk_instant n;
     tick_record := wk_instant n |}.
Definition wk_poll (n : nat) (d : db) : db :=
  (tick_due (ES := wk_evidence) 3 "w2" (flit 30 0) (wk_instant n) (wk_tick n) d).2.
Definition wk_verified : db := foldl (fun d n => wk_poll n d) wk_requested [1; 2; 3; 4; 5]%nat.

Definition wk_verification (d : db) : option VerificationStatus := head (map v_status (rows (verifications d))).

(** The incident ends resolved, the rollback executed and verified. *)
Example wk_shift :
  map (fun d => (rm_status (wk_rem d), i_status (ex_incident_row d), wk_verification d))
    [wk_proposed; wk_approved; wk_executed; wk_requested; wk_verified]
  = [(R_AWAITING_APPROVAL, AWAITING_APPROVAL, None); (R_APPROVED, REMEDIATION_IN_PROGRESS, None);
     (R_EXECUTED, VERIFYING, Some V_PENDING); (R_EXECUTED, VERIFYING, Some V_RUNNING);
     (R_EXECUTED, RESOLVED, Some V_PASSED)].
Proof. vm_compute. reflexivity. Qed.

(** ** The theorems at the shift *)

Abbreviation wk_activity := (activity default_config 3 default_incident_config default_criteria).

Lemma wk_deliver_activity type now d : rtc wk_activity d (wk_deliver type now d).
Proof.
  unfold wk_deliver. destruct (wk_events type d) as [|e l]; [done|].
  apply rtc_once, (wa_remediation _ _ _ _ d simulation wk_evidence). reflexivity.
Qed.
Lemma wk_requested_activity : rtc wk_activity wk_executed wk_requested.
Proof. unfold wk_requested. destruct (wk_events _ wk_executed); [done|]. apply rtc_once, wa_requested. Qed.
Lemma wk_poll_activity l d : rtc wk_activity d (foldl (fun d n => wk_poll n d) d l).
Proof.
  revert d. induction l as [|n l IH]; intros d; [done|]. cbn [foldl].
  eapply rtc_l; [apply (wa_tick _ _ _ _ d wk_evidence)|apply IH].
Qed.
Lemma wk_approval : wk_activity wk_proposed wk_approved.
Proof. unfold wk_approved, RemediationExample.run. apply wa_command, ps_remediation, rc_decide. Qed.
Lemma wk_activities : rtc wk_activity ex_concluded wk_verified.
Proof.
  transitivity wk_proposed; [exact (wk_deliver_activity "InvestigationCompleted" 3000 ex_concluded)|].
  apply (rtc_l _ _ wk_approved); [exact wk_approval|].
  transitivity wk_executed; [exact (wk_deliver_activity "RemediationApproved" 3150 wk_approved)|].
  transitivity wk_requested; [exact wk_requested_activity|].
  exact (wk_poll_activity [1; 2; 3; 4; 5]%nat wk_requested).
Qed.

Lemma workers_drive_the_platform_witness : rtc pf_step ex_concluded wk_verified /\ pf wk_verified.
Proof.
  exact (workers_drive_the_platform default_config 3 default_incident_config default_criteria
           ex_concluded wk_verified pf_concluded wk_activities).
Defined.

Lemma planner_invents_nothing_witness :
  exists r, r ∈ wk_records /\ ev_subject_service r = "checkout"
    /\ occurs (JStr "v1") (ev_normalized_payload r).
Proof.
  destruct wk_plan as [[[p|] why]|e] eqn:Ep; [|by vm_compute in Ep..].
  assert (plan wk_reader 2 ex_iid wk_report () = (Ok (Some p, why), ())) as H.
  { unfold wk_plan in Ep. destruct (plan _ _ _ _ ()) as [x []]. cbn [fst] in Ep. by rewrite Ep. }
  destruct (planner_invents_nothing wk_reader 2 ex_iid wk_report () p why () H)
    as (service & supporting & evidence & Hs & _ & He & _ & _ & _ & _ & _ & Hp).
  unfold wk_reader in He. injection He as <-.
  assert (("to_version", JStr "v1") ∈ pr_parameters p) as Hin.
  { assert (wk_planned = Some (pr_action_id p, pr_parameters p)) as Hw by (unfold wk_planned; by rewrite Ep).
    rewrite wk_rollback in Hw. injection Hw as _ <-. right; right; left. }
  destruct (Hp _ _ Hin) as [[=]|[[=]|(r & Hr & _ & Hsub & Ho)]].
  exists r. split; [exact Hr|]. split; [|exact Ho].
  assert (jget "component" (or_empty (jget "root_cause_hypothesis" wk_report)) = JStr "checkout") as Hc
    by (vm_compute; reflexivity).
  rewrite Hs in Hc. rewrite Hc in Hsub. injection Hsub as Hsub. done.
Defined.

(** ** Requests *)

(** The texts [YYYY-MM-DDTHH:MM:SS+HH:MM], on a server whose clock is UTC. *)
Definition ex_number (start len : nat) (s : string) : Z :=
  foldl (fun n c => 10 * n + (Z.of_nat (Ascii.nat_of_ascii c) - 48)) 0
    (String.list_ascii_of_string (String.substring start len s)).
Definition ex_days (y m d : Z) : Z :=
  let y' := if m <=? 2 then y - 1 else y in
  let doy := (153 * (if m <=? 2 then m + 9 else m - 3) + 2) / 5 + d - 1 in
  365 * y' + y' / 4 - y' / 100 + y' / 400 + doy - 719468.
Definition ex_fromisoformat (s : string) : option IsoDate :=
  if negb (String.length s =? 25)%nat then None else
  let sign := String.substring 19 1 s in
  if negb (String.eqb sign "+" || String.eqb sign "-") then None else
  Some {| iso_wall := seconds (86400 * ex_days (ex_number 0 4 s) (ex_number 5 2 s) (ex_number 8 2 s)
            + 3600 * ex_number 11 2 s + 60 * ex_number 14 2 s + ex_number 17 2 s);
          iso_offset := Some (seconds ((if String.eqb sign "+" then 1 else -1)
            * (3600 * ex_number 20 2 s + 60 * ex_number 23 2 s))) |}.
#[export] Instance ex_dates : IsoDates :=
  {| fromisoformat := ex_fromisoformat; system_offset := fun _ => Ok 0 |}.
Definition rq_settings : Settings :=
  {| st_alertmanager_webhook_token := "hook"; st_operator_api_token := "op";
     st_remediation_approvers := "alice=service_owner|on_call_engineer" |}.

Definition ex_am_started (startsAt fingerprint severity status : string) : Alerts.AlertmanagerAlert :=
  {| Alerts.am_status := status; Alerts.am_labels := <["severity" := severity]> ex_labels;
     Alerts.am_annotations := ∅; Alerts.am_startsAt := Some startsAt;
     Alerts.am_endsAt := None; Alerts.am_generatorURL := None; Alerts.am_fingerprint := Some fingerprint |}.

Definition ex_am_alert := ex_am_started "2026-01-01T00:00:00Z".

(** However the start is written, the episode is the same. *)
Example an_episode_is_named_in_utc :
  Alerts._alertmanager_episode_id (ex_am_started "2026-01-01T01:30:00+01:30" "f1" "critical" "firing")
  = Alerts._alertmanager_episode_id (ex_am_alert "f1" "critical" "firing")
  /\ Alerts._alertmanager_episode_id (ex_am_alert "f1" "critical" "firing")
     = Ok (Some "f1:2026-01-01T00:00:00+00:00").
Proof. vm_compute. split; reflexivity. Qed.

Definition ex_group : list ((instant * instant) * Alerts.AlertmanagerAlert) :=
  [((1000, 1000), ex_am_alert "f1" "critical" "firing"); ((1001, 1001), ex_am_alert "f2" "warning" "firing");
   ((1002, 1002), ex_am_alert "f1" "critical" "resolved")].
Definition ex_post (a : option string) (l : list ((instant * instant) * Alerts.AlertmanagerAlert)) (d : db) :=
  Alerts.receive_alertmanager_webhook default_incident_config rq_settings a l d.

(** A group is accepted; with an unreadable alert in it, what came before stays accepted,
    what comes after is not looked at. *)
Example a_group_is_accepted :
  match ex_post (Some "Bearer hook") ex_group empty_db with
  | (Ok rs, d) => map Alerts.aa_incident_created rs = [true; false; false] /\ size (alerts d) = 2%nat
  | _ => False
  end.
Proof. vm_compute. split; reflexivity. Qed.

Example an_unreadable_alert_stops_the_group :
  match ex_post (Some "Bearer hook")
          (take 1 ex_group ++ [((1, 1), ex_am_alert "f9" "page" "firing")] ++ drop 1 ex_group) empty_db with
  | (Err (HTTPException n _), d) => n = 422 /\ size (alerts d) = 1%nat
  | _ => False
  end.
Proof. vm_compute. split; reflexivity. Qed.

(** In UTC this alert started before the year 1. *)
Definition ex_before_the_calendar : Alerts.AlertmanagerAlert :=
  ex_am_started "0001-01-01T00:00:00+01:00" "f9" "critical" "firing".

Example a_start_before_the_calendar_fails :
  match ex_post (Some "Bearer hook")
          (take 1 ex_group ++ [((1, 1), ex_before_the_calendar)] ++ drop 1 ex_group) empty_db with
  | (Err (OverflowError _), d) => size (alerts d) = 1%nat
  | _ => False
  end.
Proof. vm_compute. reflexivity. Qed.

Lemma webhook_answers_each_alert_witness :
  exists rs d', ex_post (Some "Bearer hook") ex_group empty_db = (Ok rs, d') /\ length rs = 3%nat.
Proof.
  pose proof (webhook_answers_each_alert default_incident_config rq_settings (Some "Bearer hook") ex_group empty_db
              (rtc_refl _ _) ex_lookback) as H.
  cbv zeta in H. change (webhook_authorised rq_settings (Some "Bearer hook")) with true in H. cbv iota in H.
  destruct H as [(_ & rs & d' & Hr & Hlen)|(before & now & bad & after & rs & d' & _ & _ & _ & _ & Hbad)].
  - exists rs, d'. split; [exact Hr|exact Hlen].
  - exfalso. assert (is_ok (ex_post (Some "Bearer hook") ex_group empty_db).1 = true) as Hok
      by (vm_compute; reflexivity).
    unfold ex_post in Hok. destruct Hbad as [(n & msg & _ & _ & Hr)|(e & _ & Hr)];
      rewrite Hr in Hok; discriminate Hok.
Defined.

Definition ex_posted : db := (ex_post (Some "Bearer hook") ex_group empty_db).2.
Lemma webhook_redelivery_changes_nothing_witness :
  exists rs, ex_post (Some "Bearer hook") (map (fun p => ((9000, 9000), p.2)) ex_group) ex_posted = (Ok rs, ex_posted)
             /\ length rs = 3%nat.
Proof.
  destruct webhook_answers_each_alert_witness as (rs & d' & H & Hlen). exists rs. split; [|exact Hlen].
  assert (ex_posted = d') as -> by (unfold ex_posted; rewrite H; reflexivity).
  eapply (webhook_redelivery_changes_nothing default_incident_config rq_settings (Some "Bearer hook") ex_group empty_db).
  - apply rtc_refl.
  - exact ex_lookback.
  - repeat constructor; eexists; split; try reflexivity; discriminate.
  - exact H.
  - apply rtc_refl.
  - reflexivity.
Defined.

(** An evidence-service without telemetry or tools, and an empty store. *)
#[export] Instance rq_adapters : Adapters :=
  {| ad_world := (); ad_clock w := (0, w); ask q := fun s => (Err (RuntimeError "no telemetry"), s);
     ask_reads q w d := eq_refl |}.
#[export] Instance rq_schemas : ToolSchemas :=
  {| validate_input _ _ := inl []; validate_listing _ := inl "";
     validate_input_ok _ _ _ H := match H with end; validate_listing_ok _ _ H := match H with end |}.
Definition rq_catalog : ServiceCatalog := {| cat_services := ∅ |}.
Definition rq_world : EvidenceWorld := {| ew_records := ∅; ew_next_sequence := 1; ew_adapters := () |}.

Definition ex_decision : Request :=
  PostApproval 3100 (Some "Bearer op") pf_rid
    {| Operators.br_approver := "alice"; Operators.br_approve := true;
       Operators.br_proposal_hash := rm_proposal_hash (pf_rem pf_proposed);
       Operators.br_policy_decision_id := default 0%N (rm_policy_decision_id (pf_rem pf_proposed));
       Operators.br_comment := None |}.
Definition ex_decided : db :=
  (serve rq_catalog default_config default_incident_config rq_settings ex_decision (rq_world, pf_proposed)).2.2.

Lemma pf_proposed_reached : pf pf_proposed.
Proof. eapply pf_next; [apply pf_concluded|apply ps_remediation, rc_propose]. Qed.

Lemma approvals_come_from_the_roster_witness :
  exists k ap, approvals ex_decided !! k = Some ap /\ ap_approver ap = "alice".
Proof.
  destruct (map_to_list (approvals ex_decided)) as [|[k ap] l] eqn:E; [vm_compute in E; discriminate E|].
  exists k, ap. assert (approvals ex_decided !! k = Some ap) as Hk
    by (apply elem_of_map_to_list; rewrite E; left).
  split; [exact Hk|]. unfold ex_decided in Hk.
  destruct (approvals_come_from_the_roster rq_catalog default_config 3 default_incident_config default_criteria
              rq_settings ex_decision (rq_world, pf_proposed) k ap pf_proposed_reached Hk)
    as (now & i & body & roles & row & Hr & _ & Hro & _ & _ & Hrec).
  { cbn [snd]. assert (approvals pf_proposed = ∅) as -> by (vm_compute; reflexivity). rewrite lookup_empty. discriminate. }
  apply (f_equal (fun r => match r with PostApproval _ _ _ b => Operators.br_approver b | _ => "" end)) in Hr.
  change ("alice" = Operators.br_approver body) in Hr. destruct Hrec as (_ & _ & _ & _ & Hap & _). by rewrite Hr.
Defined.

(** Her role is the first of hers the policy asks for. *)
Example the_role_is_of_the_roster :
  map ap_approver_role (rows (approvals ex_decided)) = [Some "service_owner"].
Proof. vm_compute. reflexivity. Qed.
